(* ===== verification/_CoqProject ===== *)
-Q . S2P
Prelude.v
Endian.v
ByteArray.v
ByteArrayCodec.v
OrdSet.v
CString.v
Timer.v
Fiber.v
Scheduler.v
IOManager.v
FdManager.v
Hook.v
Stream.v
Http.v
LogFormat.v
Logger.v
Config.v
LexicalCast.v
Env.v
Address.v
Uri.v
HttpClient.v
Servlet.v
Dfa.v
UriMachine.v
UriParser.v
Headers.v
ParserCommon.v
Http11Machine.v
Http11.v
HttpParser.v
Channel.v
HttpSession.v
ClientMachine.v
HttpClientParser.v
HttpResponseParser.v
HttpConnection.v
SocketStream.v
Socket.v
TcpServer.v
Startup.v
Application.v
