(* ===== verification/Prelude.v ===== *)
(** * A verification development of the myhttp server framework

    myhttp (src/myhttp) is a C++ framework for coroutine-based network servers: fibers on a
    pool of threads, an I/O manager over epoll, timers, hooks that make blocking system
    calls yield, and on top of them sockets, streams, an HTTP server and an HTTP client,
    with configuration, logging and a daemon. This library translates the program
    into executable definitions and proves what makes its parts correct, or exactly
    what they do where that differs from what they mean to do.

    ** Conventions

    A function that can fail returns [res]: a value, a C++ exception, or a fault, which is
    an execution without a meaning (null pointers, indices out of range, failed assertions,
    overflow of signed integers). A method is [ST S A], a function from the object's state
    to its result and the new state; the state survives an exception. Integers are [Z] with
    the wrap-around of their width written out ([u8] ... [s64]). Bytes of buffers are
    [byte], texts are [string]. Objects shared by pointers live in a store from
    addresses to objects, and a pointer is an address; null is [None] or a fault. A
    container ordered by a functor is a sorted list (OrdSet.v). What the program gets from
    outside is an argument, in the order of the calls: results of system
    calls, readings of the clock, addresses of new objects, contents of new memory, the
    byte order. Code that is not part of the repository is a parameter, a class or a section
    variable, and what the proofs need of it is a hypothesis ([lexical_cast], [fnmatch],
    [getaddrinfo], YAML nodes, [strftime]).

    This file holds that vocabulary, with the lemmas on lists, blocks of bytes, integers and
    method calls that the components share.

    ** The parts, from the bottom up

    - Bytes. Endian.v (endian.h): byte swaps. ByteArray.v (bytearray.h, .cpp): the list of
      blocks with its cursor; [flat] is its contents as one list. ByteArrayCodec.v: the typed
      readers and writers, and files. Theorems: reading and writing refine the flat
      buffer; integers of fixed and variable length survive a round trip.
    - Containers and C strings. OrdSet.v (std::set, std::map), CString.v (strcasecmp,
      strncmp, strtol, atoi, CaseInsensitiLess).
    - Scheduling. Timer.v (timer.h, .cpp): timers shared by pointers and the ordered set of
      the manager. Fiber.v (fiber.h, .cpp): the states of a fiber and of a thread's current
      fiber. Scheduler.v (scheduler.h, .cpp): the queue, and [run] as a step relation over
      any number of workers, cut where other threads may interfere, with an executable
      version ([exec_actions], each run of which is a run of the steps). IOManager.v (iomanager.h,
      .cpp): the table of contexts, the kernel's interest list, one round of [idle], stop and
      destruction; it contains a Scheduler and a TimerManager and adds its own [tickle].
      Theorems: invariants under any interleaving of operations, which task a worker takes,
      what a pass over the timers returns, what each operation on events posts.
    - Descriptors. FdManager.v (fd_manager.h, .cpp), Hook.v (hook.h, .cpp): a hooked
      call is the sequence of actions it takes on the I/O manager, for any results of the
      original. Theorem: a hooked read or write ends with the first conclusive result.
    - Addresses and sockets. Address.v (address.h, .cpp), Socket.v (socket.h, .cpp) over
      FdManager and Hook, TcpServer.v (tcp_server.h, .cpp), Stream.v and SocketStream.v
      (stream.cpp, socket_stream.cpp). Theorems: every descriptor is closed once, [bind] is
      all or nothing, clients are handed on in order, transfers of a fixed size
      equal the operations of the buffer, prefixes and the order of addresses.
    - Configuration, logging, start. Config.v (config.h, .cpp), Env.v (env.h, .cpp),
      LogFormat.v and Logger.v (log.h, .cpp), LexicalCast.v (the conversions to and from
      YAML text of config.h, log.cpp and application.cpp), Startup.v (util.cpp, daemon.cpp,
      application.cpp and [LoadFromConfDir]), Application.v (the servers that
      application.cpp runs, over LexicalCast, Startup and TcpServer). Theorems: containers
      and configurations are read back from their texts, the application serves what it is configured to, variables keep their types, what a
      document does to them, the compiler of log patterns is that of a language of
      parts, which appender gets which line.
    - Generated machines. Dfa.v is the loop of the goto code that ragel generates;
      UriMachine.v, Http11Machine.v and ClientMachine.v are its labels, one definition for
      each [case] and each [tr] (uri.rl.cc, http/http11_parser.rl.cc,
      http/httpclient_parser.rl.cc). UriParser.v, Http11.v and HttpClientParser.v execute the
      actions, with pointers into the buffer as offsets; ParserCommon.v holds what they
      share. Theorems: the parsers stay in their buffers, [Uri::Create] returns and
      inverts [toString].
    - HTTP. Http.v (http/http.h, .cpp): messages, their maps and texts. Uri.v: the record of
      a URI. Headers.v: header lines on the wire. HttpParser.v and HttpResponseParser.v
      (http/http_parser.h, .cpp): the parser classes over the generated machines.
      Servlet.v (http/servlet.h, .cpp): routing. Channel.v: the socket as a sequence of
      results. HttpSession.v (http/http_session.h, .cpp, http/http_server.h, .cpp): requests on a
      connection and the loop of the server. HttpClient.v and HttpConnection.v
      (http/http_connection.h, .cpp): requests to send, the pool, responses of a known length and in
      chunks. Theorems: the maps refine the history of calls, a printed message is
      parsed to what was printed, every request of a kept-alive connection is answered in
      order, the pool's accounts, and how cut messages and chunks are lost.

    ** Fuel

    A loop whose recursion is not structural takes fuel; [NoFuel] marks its end and is not an
    outcome of the code. The callers fix it where a bound is known: one round for each block
    of the buffer and two more (ByteArray.v, ByteArrayCodec.v), one for each byte of a file,
    one for each character of a pattern (LogFormat.v), one for each bit or digit of a word
    (Address.v), two loggers, a logger and its root (Logger.v), and one for each result of
    a read that is still to come, and one more (HttpSession.v, HttpConnection.v): each
    round consumes one, and on an exhausted input [NoFuel] is the call that still waits.
    The theorems of the refinements, the round trips and the liveness of a session
    show that the fuel is enough, since they give the result. Fuel that is an argument
    has a bound in the theorem: the depth of a YAML document (Config.v), the number of
    requests (HttpSession.v). A loop over the results of calls (Stream.v, Socket.v,
    TcpServer.v, Hook.v) is structural on them.

    ** Concurrency

    A section under a lock is one transition; operations that take a lock twice are two. The
    scheduler, the timers and the pool are proved for arbitrary sequences of such
    transitions by any threads (in the pool, [getConnection] is one transition with what
    it does behind its unlock). What a fiber runs is arbitrary (Fiber.v, Scheduler.v).

    ** Not modelled, and why

    - Threads, mutexes and semaphores (thread.h, thread.cpp, noncopyable.h, singleton.h):
      wrappers of pthread objects; their effect is the atomicity above. [swapcontext] and
      stacks are the machine's.
    - The libraries the sources only call: YAML, boost's lexical_cast, the C library. Config.v
      takes the conversions of a variable's type as given; LexicalCast.v defines those
      that the repository contains, for any YAML library that keeps the data model, and
      gives such a library.
    - Terminal output, backtraces and readings of the clock (util.cpp), the text of
      [HttpResult].
    - The glue of [Application::init] and [main], which call modelled parts in turn, and
      log statements inside the components.
    - Construction and destruction of static objects, and the look-up of the original
      system calls with dlsym.
    - Tests and examples (tests, and the programs that drive the library). *)
From stdpp Require Import base tactics option list fin_maps gmap numbers.
From coqutil Require Import Byte Word.LittleEndianList.

Open Scope Z_scope.

(** ** Outcomes of C++ code

    [Val] is a normal return, [Exc] a C++ exception that leaves the function,
    [Bad] an execution the language gives no meaning to (or that aborts). *)

Inductive fault :=
  | NullDeref        (* access through a null pointer *)
  | OutOfBounds      (* access outside an array, a vector or a heap block *)
  | BadIterator      (* erase of end(), dereference of end() *)
  | AssertFailed     (* MYHTTP_ASSERT / assert *)
  | DivByZero
  | BadShift         (* shift by at least the width of the type *)
  | SignedOverflow   (* a signed result that its type does not hold *)
  | EmptyFunction    (* call through an empty std::function is std::bad_function_call *)
  | NoFuel.          (* the fuel of a loop ran out: not an outcome of the code *)

Inductive exn :=
  | out_of_range
  | logic_error
  | length_error
  | invalid_argument.

Inductive res (A : Type) :=
  | Val (a : A)
  | Exc (e : exn)
  | Bad (f : fault).
Arguments Val {A} a.
Arguments Exc {A} e.
Arguments Bad {A} f.

#[export] Instance fault_eq_dec : EqDecision fault.
Proof. solve_decision. Defined.
#[export] Instance exn_eq_dec : EqDecision exn.
Proof. solve_decision. Defined.
#[export] Instance res_eq_dec A `{EqDecision A} : EqDecision (res A).
Proof. solve_decision. Defined.

Lemma Val_inj {A} (a b : A) : Val a = Val b -> a = b.
Proof. congruence. Qed.

#[export] Instance res_ret : MRet res := fun A a => Val a.
#[export] Instance res_bind : MBind res := fun A B f m =>
  match m with
  | Val a => f a
  | Exc e => Exc e
  | Bad f => Bad f
  end.

(** A method of an object with state [S]: it returns or throws, and the object
    is left in the second component in both cases. *)
Definition ST (S A : Type) : Type := S -> res A * S.

#[export] Instance st_ret S : MRet (ST S) := fun A a s => (Val a, s).
#[export] Instance st_bind S : MBind (ST S) := fun A B f m s =>
  match m s with
  | (Val a, s') => f a s'
  | (Exc e, s') => (Exc e, s')
  | (Bad x, s') => (Bad x, s')
  end.

Section StateOps.
Context {S : Type}.
Definition gets {A} (f : S -> A) : ST S A := fun s => (Val (f s), s).
Definition modify (f : S -> S) : ST S unit := fun s => (Val tt, f s).
Definition throw {A} (e : exn) : ST S A := fun s => (Exc e, s).
Definition crash {A} (f : fault) : ST S A := fun s => (Bad f, s).
Definition lift {A} (r : res A) : ST S A := fun s => (r, s).
(** [MYHTTP_ASSERT(b)] *)
Definition check (b : bool) : ST S unit :=
  if b then mret tt else crash AssertFailed.
End StateOps.

(** [o ?: f]: the value of a pointer or iterator that must be valid. *)
Definition deref {A} (f : fault) (o : option A) : res A :=
  match o with Some a => Val a | None => Bad f end.

Lemma st_bind_val {S A B} (m : ST S A) (k : A -> ST S B) s a s' :
  m s = (Val a, s') -> mbind k m s = k a s'.
Proof. unfold mbind, st_bind. by intros ->. Qed.

Lemma st_bind_exc {S A B} (m : ST S A) (k : A -> ST S B) s e s' :
  m s = (Exc e, s') -> mbind k m s = (Exc e, s').
Proof. unfold mbind, st_bind. by intros ->. Qed.

Lemma st_bind_bad {S A B} (m : ST S A) (k : A -> ST S B) s f s' :
  m s = (Bad f, s') -> mbind k m s = (Bad f, s').
Proof. unfold mbind, st_bind. by intros ->. Qed.

Lemma st_bind_inv {S A B} (m : ST S A) (k : A -> ST S B) s b s' :
  mbind k m s = (Val b, s') ->
  exists a s1, m s = (Val a, s1) /\ k a s1 = (Val b, s').
Proof.
  unfold mbind, st_bind. destruct (m s) as [[a| |] s1]; intros; simplify_eq; eauto.
Qed.

Lemma gets_bind {S A B} (f : S -> A) (k : A -> ST S B) s : (gets f ≫= k) s = k (f s) s.
Proof. done. Qed.

(** A call that changes no state and succeeds. *)
Lemma lift_bind {S A B} (r : res A) a (k : A -> ST S B) s :
  r = Val a -> (lift r ≫= k) s = k a s.
Proof. by intros ->. Qed.

(** Step through the first call of a method body whose result is known. *)
Ltac st_step H := first
  [ rewrite (st_bind_val _ _ _ _ _ H)
  | rewrite (st_bind_exc _ _ _ _ _ H)
  | rewrite (st_bind_bad _ _ _ _ _ H) ]; cbv beta.
Ltac st_unfold := unfold mbind, st_bind, mret, st_ret, gets, modify, throw, crash,
  lift, check in *.

(** [returns m s Q]: from [s] the method returns a value, and [Q] holds of it and of the
    state then. *)
Definition returns {S A} (m : ST S A) (s : S) (Q : A -> S -> Prop) : Prop :=
  exists a s', m s = (Val a, s') /\ Q a s'.

Section Returns.
Context {S : Type}.
Implicit Types s : S.

Lemma returns_val {A} (m : ST S A) s a s' (Q : A -> S -> Prop) :
  m s = (Val a, s') -> Q a s' -> returns m s Q.
Proof. intros E H. by exists a, s'. Qed.

Lemma returns_ret {A} (a : A) s (Q : A -> S -> Prop) : Q a s -> returns (mret a) s Q.
Proof. by apply returns_val. Qed.

Lemma returns_gets {A} (f : S -> A) s (Q : A -> S -> Prop) : Q (f s) s -> returns (gets f) s Q.
Proof. by apply returns_val. Qed.

Lemma returns_modify f s (Q : unit -> S -> Prop) : Q tt (f s) -> returns (modify f) s Q.
Proof. by apply returns_val. Qed.

Lemma returns_lift {A} (r : res A) a s (Q : A -> S -> Prop) : r = Val a -> Q a s -> returns (lift r) s Q.
Proof. intros ->. by apply returns_val. Qed.

Lemma returns_bind {A B} (m : ST S A) (k : A -> ST S B) s (Q : B -> S -> Prop) :
  returns m s (fun a s' => returns (k a) s' Q) -> returns (mbind k m) s Q.
Proof.
  intros (a & s1 & E & b & s2 & E2 & H). exists b, s2. split; [|done].
  by rewrite (st_bind_val _ _ _ _ _ E).
Qed.

Lemma returns_mono {A} (m : ST S A) s (P Q : A -> S -> Prop) :
  returns m s P -> (forall a s', P a s' -> Q a s') -> returns m s Q.
Proof. intros (a & s' & E & H) HPQ. exists a, s'. by auto. Qed.

(** What is known of the result holds, since there is only one. *)
Lemma returns_of {A} (m : ST S A) s a s' (Q : A -> S -> Prop) :
  returns m s Q -> m s = (Val a, s') -> Q a s'.
Proof. intros (b & s1 & E & H) E'. congruence. Qed.
End Returns.

(** ** Machine integers: Z with the wrap-around written out *)

Definition wrap (w z : Z) : Z := z mod 2 ^ w.
Definition swrap (w z : Z) : Z := (z + 2 ^ (w - 1)) mod 2 ^ w - 2 ^ (w - 1).

Declare Scope word_scope.
Delimit Scope word_scope with W.
Abbreviation u8 := (wrap 8).
Abbreviation u16 := (wrap 16).
Abbreviation u32 := (wrap 32).
Abbreviation u64 := (wrap 64).
Abbreviation s32 := (swrap 32).
Abbreviation s64 := (swrap 64).
Notation "x +64 y" := (wrap 64 (x + y)) (at level 50, left associativity) : word_scope.
Notation "x -64 y" := (wrap 64 (x - y)) (at level 50, left associativity) : word_scope.

(** [in_u w z], [in_s w z]: z is a value of the unsigned, signed w-bit type. *)
Definition in_u (w z : Z) : Prop := 0 <= z < 2 ^ w.
Definition in_s (w z : Z) : Prop := - 2 ^ (w - 1) <= z < 2 ^ (w - 1).

Lemma wrap_range w z : 0 <= w -> in_u w (wrap w z).
Proof. intros. apply Z.mod_pos_bound. lia. Qed.

Lemma wrap_small w z : in_u w z -> wrap w z = z.
Proof. apply Z.mod_small. Qed.

Lemma wrap_wrap w z : wrap w (wrap w z) = wrap w z.
Proof. apply Zmod_mod. Qed.

Lemma swrap_small w z : 0 < w -> in_s w z -> swrap w z = z.
Proof.
  intros Hw [H1 H2]. unfold swrap. rewrite Z.mod_small; [lia|].
  replace (2 ^ w) with (2 ^ (w - 1) + 2 ^ (w - 1)); [lia|].
  replace w with (Z.succ (w - 1)) at 3 by lia. rewrite Z.pow_succ_r by lia. lia.
Qed.

Lemma swrap_range w z : 0 < w -> in_s w (swrap w z).
Proof.
  intros Hw. unfold swrap, in_s.
  assert (2 ^ w = 2 ^ (w - 1) + 2 ^ (w - 1)).
  { replace w with (Z.succ (w - 1)) at 1 by lia. rewrite Z.pow_succ_r by lia. lia. }
  pose proof (Z.mod_pos_bound (z + 2 ^ (w - 1)) (2 ^ w)). lia.
Qed.

Lemma swrap_wrap w z : 0 < w -> swrap w (wrap w z) = swrap w z.
Proof. intros. unfold swrap, wrap. by rewrite Zplus_mod_idemp_l. Qed.

Lemma wrap_swrap w z : 0 < w -> wrap w (swrap w z) = wrap w z.
Proof.
  intros. unfold swrap, wrap. rewrite Zminus_mod_idemp_l. f_equal. lia.
Qed.

Lemma wrap_sub_idemp_l w x y : wrap w (wrap w x - y) = wrap w (x - y).
Proof. apply Zminus_mod_idemp_l. Qed.

Create HintDb word.
Create Rewrite HintDb word.
#[export] Hint Rewrite wrap_wrap : word.
#[export] Hint Resolve wrap_range swrap_range : word.

(** ** Lists *)

(** [splice l p d]: [memcpy] of [d] over [l] at offset [p]. *)
Definition splice {A} (l : list A) (p : nat) (d : list A) : list A :=
  take p l ++ d ++ drop (p + length d) l.

(** [slice l p n]: the [n] elements of [l] from offset [p]. *)
Definition slice {A} (l : list A) (p n : nat) : list A := take n (drop p l).

Section Lists.
Context {A : Type}.
Implicit Types (l d : list A).

Lemma length_splice l p d :
  (p + length d <= length l)%nat -> length (splice l p d) = length l.
Proof. intros. unfold splice. rewrite !length_app, length_take, length_drop. lia. Qed.

Lemma length_slice l p n : (p + n <= length l)%nat -> length (slice l p n) = n.
Proof. intros. unfold slice. rewrite length_take, length_drop. lia. Qed.

Lemma splice_nil l p : splice l p [] = l.
Proof. unfold splice. simpl. rewrite Nat.add_0_r. apply take_drop. Qed.

Lemma splice_app l p d1 d2 :
  (p <= length l)%nat ->
  splice (splice l p d1) (p + length d1) d2 = splice l p (d1 ++ d2).
Proof.
  intros H. unfold splice.
  assert (length (take p l ++ d1) = p + length d1)%nat as E
    by (rewrite length_app, length_take; lia).
  rewrite (app_assoc (take p l)), take_app_le by lia.
  rewrite take_ge by lia.
  rewrite drop_app_ge by lia. rewrite E.
  rewrite drop_drop, length_app, <- !app_assoc.
  do 2 f_equal. f_equal. f_equal. lia.
Qed.

Lemma slice_splice_same l p d :
  (p <= length l)%nat -> slice (splice l p d) p (length d) = d.
Proof.
  intros H. unfold slice, splice.
  rewrite drop_app_ge by (rewrite length_take; lia).
  rewrite length_take, Nat.min_l, Nat.sub_diag, drop_0 by lia.
  rewrite take_app_le by lia. apply take_ge. lia.
Qed.

Lemma slice_splice_before l p d q n :
  (q + n <= p)%nat -> (p + length d <= length l)%nat ->
  slice (splice l p d) q n = slice l q n.
Proof.
  intros Hq Hp. unfold slice, splice.
  rewrite drop_app_le by (rewrite length_take; lia).
  rewrite take_app_le by (rewrite length_drop, length_take; lia).
  rewrite <- (take_drop p l) at 2.
  rewrite drop_app_le by (rewrite length_take; lia).
  by rewrite take_app_le by (rewrite length_drop, length_take; lia).
Qed.

Lemma slice_app l p n m :
  slice l p (n + m) = slice l p n ++ slice l (p + n) m.
Proof.
  unfold slice. rewrite <- drop_drop.
  rewrite <- (take_drop n (drop p l)) at 1.
  destruct (decide (n <= length (drop p l)))%nat.
  - rewrite take_app_ge by (rewrite length_take; lia). do 2 f_equal.
    rewrite length_take. lia.
  - rewrite (take_ge (drop p l) n) by lia.
    rewrite (drop_ge (drop p l) n) by lia.
    rewrite app_nil_r, take_nil, app_nil_r. apply take_ge. lia.
Qed.

Lemma take_splice l e d p z :
  (p <= z)%nat -> (z <= length l)%nat -> (p + length d <= length (l ++ e))%nat ->
  take (Nat.max z (p + length d)) (splice (l ++ e) p d) = splice (take z l) p d.
Proof.
  intros Hp Hz Hd. unfold splice.
  rewrite take_app_ge by (rewrite length_take; lia). rewrite length_take.
  rewrite Nat.min_l by lia. f_equal.
  { rewrite take_take, Nat.min_l by lia. by rewrite take_app_le by lia. }
  rewrite take_app_ge by lia. f_equal.
  destruct (decide (z <= p + length d)%nat).
  - rewrite Nat.max_r by lia. rewrite (drop_ge (take z l)) by (rewrite length_take; lia).
    by replace (_ - _ - _)%nat with 0%nat by lia.
  - rewrite Nat.max_l by lia. rewrite take_drop_commute.
    rewrite <- (take_app_le l e z) by lia. f_equal. f_equal. lia.
Qed.

(** Blocks of equal length: a flat offset is a (block, offset) pair. *)
Definition blocks (b : nat) (ls : list (list A)) : Prop :=
  Forall (fun l => length l = b) ls.

Lemma length_concat_blocks b ls :
  blocks b ls -> length (concat ls) = (length ls * b)%nat.
Proof. induction 1; simpl; [done|]. rewrite length_app. lia. Qed.

Lemma concat_splice b ls i l o d :
  blocks b ls -> ls !! i = Some l -> (o + length d <= b)%nat ->
  concat (<[i := splice l o d]> ls) = splice (concat ls) (i * b + o) d.
Proof.
  intros Hb. revert i. induction Hb as [|l0 ls Hl Hb IH]; intros [|i] Hi Ho;
    simplify_eq/=.
  - unfold splice. rewrite <- !app_assoc. f_equal.
    + by rewrite take_app_le by lia.
    + f_equal. by rewrite drop_app_le by lia.
  - rewrite IH by done. unfold splice.
    rewrite take_app_ge by lia. rewrite <- app_assoc. f_equal.
    f_equal; [f_equal; lia|]. f_equal. rewrite drop_app_ge by lia. f_equal. lia.
Qed.

Lemma concat_slice b ls i l o n :
  blocks b ls -> ls !! i = Some l -> (o + n <= b)%nat ->
  slice l o n = slice (concat ls) (i * b + o) n.
Proof.
  intros Hb. revert i. induction Hb as [|l0 ls Hl Hb IH]; intros [|i] Hi Ho;
    simplify_eq/=; unfold slice.
  - rewrite drop_app_le by lia. rewrite take_app_le; [done|].
    rewrite length_drop. lia.
  - rewrite drop_app_ge by lia. unfold slice in IH.
    rewrite (IH i) by done. do 2 f_equal. lia.
Qed.
End Lists.

#[export] Hint Rewrite @length_splice @length_slice using lia : word.

(** ** Sums over finite maps, for counters that mirror a table *)

Section MapSum.
Context {K A : Type} `{Countable K}.
Implicit Types (m : gmap K A).

Definition map_sum (f : A -> Z) m : Z :=
  foldr (fun kv n => f (snd kv) + n) 0 (map_to_list m).

Lemma map_sum_empty f : map_sum f ∅ = 0.
Proof. unfold map_sum. by rewrite map_to_list_empty. Qed.

Lemma map_sum_fresh f m k a : m !! k = None -> map_sum f (<[k := a]> m) = f a + map_sum f m.
Proof.
  intros Hk. unfold map_sum.
  apply (foldr_permutation eq (fun kv n => f (snd kv) + n) 0 (map_to_list (<[k := a]> m)) ((k, a) :: map_to_list m)).
  - intros. lia.
  - by apply map_to_list_insert.
Qed.

Lemma map_sum_delete f m k a : m !! k = Some a -> map_sum f (delete k m) = map_sum f m - f a.
Proof.
  intros Hk. rewrite <- (insert_delete_id m k a Hk) at 2.
  rewrite map_sum_fresh by apply lookup_delete_eq. lia.
Qed.

Lemma map_sum_insert f m k a b :
  m !! k = Some a -> map_sum f (<[k := b]> m) = map_sum f m - f a + f b.
Proof.
  intros Hk. rewrite <- insert_delete_eq, map_sum_fresh by apply lookup_delete_eq.
  rewrite (map_sum_delete f m k a Hk). lia.
Qed.

Lemma map_sum_nonneg f m : (forall k a, m !! k = Some a -> 0 <= f a) -> 0 <= map_sum f m.
Proof.
  induction m as [|k a m Hk IH] using map_ind; intros Hf.
  - by rewrite map_sum_empty.
  - rewrite map_sum_fresh by done. pose proof (Hf k a (lookup_insert_eq _ _ _)).
    enough (0 <= map_sum f m) by lia. apply IH. intros k' a' Hk'.
    apply (Hf k'). rewrite lookup_insert_ne by naive_solver. done.
Qed.

Lemma map_sum_zero f m : (forall k a, m !! k = Some a -> f a = 0) -> map_sum f m = 0.
Proof.
  induction m as [|k a m Hk IH] using map_ind; intros Hf; [apply map_sum_empty|].
  rewrite map_sum_fresh, (Hf k a (lookup_insert_eq _ _ _)) by done.
  rewrite IH; [done|]. intros k' a' Hk'. apply (Hf k').
  rewrite lookup_insert_ne by naive_solver. done.
Qed.

Lemma map_sum_zero_inv f m :
  (forall k a, m !! k = Some a -> 0 <= f a) -> map_sum f m = 0 ->
  forall k a, m !! k = Some a -> f a = 0.
Proof.
  intros Hf H0 k a Hk. pose proof (map_sum_delete f m k a Hk) as Hd.
  assert (0 <= map_sum f (delete k m)).
  { apply map_sum_nonneg. intros k' a' Hk'. apply lookup_delete_Some in Hk' as [_ ?]. by eauto. }
  pose proof (Hf k a Hk). lia.
Qed.
End MapSum.
