(* ===== verification/Endian.v ===== *)
(** * Byte order (src/myhttp/endian.h)

    [byteswap], the host's byte order [MYHTTP_BYTE_ORDER] (a parameter: the
    preprocessor picks it from the target), the two conditional swaps, and the
    memory image of an integer. The theorem says that swapping when the wanted
    order differs from the host's gives the same bytes on every host. *)
From stdpp Require Import base tactics option list numbers.
From coqutil Require Import Byte Word.LittleEndianList.
From S2P Require Import Prelude.

Inductive byte_order := MYHTTP_LITTLE_ENDIAN | MYHTTP_BIG_ENDIAN.

#[export] Instance byte_order_eq_dec : EqDecision byte_order.
Proof. solve_decision. Defined.

(** The byte order of the machine the code is compiled for. *)
Class Host := MYHTTP_BYTE_ORDER : byte_order.

(** [bswap_16], [bswap_32], [bswap_64] for [n] = 2, 4, 8 bytes. *)
Definition bswap (n : nat) (z : Z) : Z := le_combine (reverse (le_split n z)).

(** [byteswap] at an unsigned and at a signed type of [n] bytes. *)
Definition byteswap (n : nat) (value : Z) : Z := bswap n value.
Definition byteswap_signed (n : nat) (value : Z) : Z :=
  swrap (8 * Z.of_nat n) (bswap n (wrap (8 * Z.of_nat n) value)).

(** The bytes of an [n]-byte integer in an order, and in the host's memory. *)
Definition encode (o : byte_order) (n : nat) (v : Z) : list byte :=
  match o with
  | MYHTTP_LITTLE_ENDIAN => le_split n v
  | MYHTTP_BIG_ENDIAN => reverse (le_split n v)
  end.
Definition decode (o : byte_order) (bs : list byte) : Z :=
  match o with
  | MYHTTP_LITTLE_ENDIAN => le_combine bs
  | MYHTTP_BIG_ENDIAN => le_combine (reverse bs)
  end.

Section Host.
Context `{host : Host}.

Definition mem_image (n : nat) (v : Z) : list byte := encode MYHTTP_BYTE_ORDER n v.
Definition mem_value (bs : list byte) : Z := decode MYHTTP_BYTE_ORDER bs.

Definition byteswapOnLittleEndian (n : nat) (t : Z) : Z :=
  match MYHTTP_BYTE_ORDER with
  | MYHTTP_BIG_ENDIAN => t
  | MYHTTP_LITTLE_ENDIAN => byteswap n t
  end.
Definition byteswapOnBigEndian (n : nat) (t : Z) : Z :=
  match MYHTTP_BYTE_ORDER with
  | MYHTTP_BIG_ENDIAN => byteswap n t
  | MYHTTP_LITTLE_ENDIAN => t
  end.
End Host.

(** ** Lemmas *)

Lemma length_encode o n v : length (encode o n v) = n.
Proof. destruct o; simpl; rewrite ?length_reverse; apply length_le_split. Qed.

Lemma decode_encode o n v : decode o (encode o n v) = wrap (8 * Z.of_nat n) v.
Proof.
  unfold wrap. rewrite Z.mul_comm, <- le_combine_split.
  destruct o; simpl; by rewrite ?reverse_involutive.
Qed.

Lemma encode_decode o n bs : length bs = n -> encode o n (decode o bs) = bs.
Proof.
  intros H. destruct o; simpl.
  - by apply split_le_combine'.
  - rewrite split_le_combine' by by rewrite length_reverse.
    apply reverse_involutive.
Qed.

Lemma encode_wrap o n v : encode o n (wrap (8 * Z.of_nat n) v) = encode o n v.
Proof.
  unfold wrap. rewrite (Z.mul_comm 8).
  destruct o; simpl; by rewrite <- le_split_mod.
Qed.

Lemma bswap_wrap n v : bswap n (wrap (8 * Z.of_nat n) v) = bswap n v.
Proof. unfold bswap. f_equal. f_equal. apply (encode_wrap MYHTTP_LITTLE_ENDIAN). Qed.

Lemma split_bswap n v : le_split n (bswap n v) = reverse (le_split n v).
Proof.
  unfold bswap. apply split_le_combine'. rewrite length_reverse. apply length_le_split.
Qed.

Lemma encode_bswap o o' n v :
  encode o n (if decide (o = o') then v else bswap n v) = encode o' n v.
Proof.
  case_decide as E; [by rewrite E|].
  destruct o, o'; try done; simpl; rewrite split_bswap; [done|].
  apply reverse_involutive.
Qed.

Lemma bswap_combine n bs :
  length bs = n -> bswap n (le_combine bs) = le_combine (reverse bs).
Proof. intros. unfold bswap. by rewrite split_le_combine'. Qed.

Lemma decode_bswap o o' n bs :
  length bs = n ->
  (if decide (o = o') then decode o bs else bswap n (decode o bs)) = decode o' bs.
Proof.
  intros H. case_decide as E; [by rewrite E|].
  destruct o, o'; try done; simpl; rewrite bswap_combine; rewrite ?length_reverse;
    rewrite ?reverse_involutive; done.
Qed.

Lemma byteswap_involutive n v : in_u (8 * Z.of_nat n) v -> byteswap n (byteswap n v) = v.
Proof.
  intros H. unfold byteswap. unfold bswap at 1. rewrite split_bswap, reverse_involutive.
  rewrite le_combine_split, Z.mul_comm. by apply wrap_small.
Qed.

Lemma byteswap_signed_split n v :
  (0 < n)%nat -> le_split n (byteswap_signed n v) = reverse (le_split n v).
Proof.
  intros Hn. unfold byteswap_signed.
  rewrite (le_split_mod (swrap _ _)), (Z.mul_comm _ 8).
  change (swrap ?w ?x mod 2 ^ ?w) with (wrap w (swrap w x)).
  rewrite wrap_swrap by lia. unfold wrap. rewrite (Z.mul_comm 8), <- le_split_mod.
  rewrite split_bswap. f_equal. by rewrite <- le_split_mod.
Qed.

(** ** Properties *)

(** whatever the byte order of the host, [byteswapOnLittleEndian] puts an
    integer into network order (its memory image is the big-endian encoding),
    and the same call reads a network-order field back. *)
Theorem byteswapOnLittleEndian_network (host : Host) n v :
  mem_image n (byteswapOnLittleEndian n v) = encode MYHTTP_BIG_ENDIAN n v /\
  byteswapOnLittleEndian n (byteswapOnLittleEndian n (wrap (8 * Z.of_nat n) v))
    = wrap (8 * Z.of_nat n) v.
Proof.
  unfold mem_image, byteswapOnLittleEndian. split.
  - destruct host; simpl; [apply split_bswap | done].
  - destruct host; [|done]. apply byteswap_involutive, wrap_range. lia.
Qed.

(** ** Bits *)

Lemma testbit_byte z i : 0 <= i -> Z.testbit (byte.unsigned (byte.of_Z z)) i = (i <? 8) && Z.testbit z i.
Proof. intros Hi. rewrite byte.unsigned_of_Z. unfold byte.wrap. by rewrite Z.testbit_mod_pow2. Qed.

Lemma testbit_byte_high b i : 8 <= i -> Z.testbit (byte.unsigned b) i = false.
Proof.
  intros Hi. rewrite <- (byte.of_Z_unsigned b), testbit_byte by lia.
  by rewrite (proj2 (Z.ltb_ge _ _)).
Qed.

Lemma testbit_combine bs i :
  0 <= i ->
  Z.testbit (le_combine bs) i =
  Z.testbit (byte.unsigned (default (byte.of_Z 0) (bs !! Z.to_nat (i / 8)))) (i mod 8).
Proof.
  revert i. induction bs as [|b bs IH]; intros i Hi.
  - cbn [le_combine lookup list_lookup default]. change (byte.unsigned (byte.of_Z 0)) with 0. by rewrite !Z.bits_0.
  - change (le_combine (b :: bs)) with (Z.lor (byte.unsigned b) (Z.shiftl (le_combine bs) 8)).
    rewrite Z.lor_spec, Z.shiftl_spec by done. destruct (Z.lt_ge_cases i 8) as [H|H].
    + rewrite (Z.testbit_neg_r _ (i - 8)), orb_false_r by lia.
      rewrite Z.div_small, Z.mod_small by lia. done.
    + rewrite testbit_byte_high by done. simpl. rewrite IH by lia.
      replace i with (i - 8 + 1 * 8) at 3 4 by lia. rewrite Z.div_add, Z.mod_add by lia.
      replace (Z.to_nat ((i - 8) / 8 + 1)) with (S (Z.to_nat ((i - 8) / 8))); [done|].
      pose proof (Z.div_pos (i - 8) 8). lia.
Qed.

Lemma lookup_le_split n v k :
  (k < n)%nat -> le_split n v !! k = Some (byte.of_Z (Z.shiftr v (8 * Z.of_nat k))).
Proof.
  revert v k. induction n as [|n IH]; intros v k H; [lia|]. destruct k as [|k].
  - change (Some (byte.of_Z v) = Some (byte.of_Z (Z.shiftr v 0))). by rewrite Z.shiftr_0_r.
  - change (le_split n (Z.shiftr v 8) !! k = Some (byte.of_Z (Z.shiftr v (8 * Z.of_nat (S k))))).
    rewrite IH by lia. do 2 f_equal. rewrite Z.shiftr_shiftr by lia. f_equal. lia.
Qed.

(** Swapping moves byte [k] to [n - 1 - k]. *)
Lemma testbit_bswap n v i :
  0 <= i ->
  Z.testbit (bswap n v) i =
  (i <? 8 * Z.of_nat n) && Z.testbit v (8 * (Z.of_nat n - 1 - i / 8) + i mod 8).
Proof.
  intros Hi. unfold bswap. rewrite testbit_combine by done.
  pose proof (Z.div_pos i 8 Hi ltac:(lia)). pose proof (Z.mod_pos_bound i 8 ltac:(lia)).
  pose proof (Z.div_mod i 8 ltac:(lia)).
  destruct (Z.ltb_spec i (8 * Z.of_nat n)) as [Hn|Hn]; simpl.
  - rewrite reverse_lookup by (rewrite length_le_split; lia). rewrite length_le_split.
    rewrite lookup_le_split by lia. simpl. rewrite testbit_byte, Z.shiftr_spec by lia.
    rewrite (proj2 (Z.ltb_lt _ _)) by lia. simpl. f_equal. lia.
  - rewrite lookup_ge_None_2; [simpl; apply Z.bits_0|]. rewrite length_reverse, length_le_split. lia.
Qed.

Lemma bswap_lor n a b : bswap n (Z.lor a b) = Z.lor (bswap n a) (bswap n b).
Proof.
  apply Z.bits_inj'. intros i Hi. rewrite Z.lor_spec, !testbit_bswap, Z.lor_spec by done.
  by destruct (i <? _).
Qed.
Lemma bswap_land n a b : bswap n (Z.land a b) = Z.land (bswap n a) (bswap n b).
Proof.
  apply Z.bits_inj'. intros i Hi. rewrite Z.land_spec, !testbit_bswap, Z.land_spec by done.
  by destruct (i <? _).
Qed.
Lemma bswap_lnot n a : bswap n (Z.lnot a) = wrap (8 * Z.of_nat n) (Z.lnot (bswap n a)).
Proof.
  apply Z.bits_inj'. intros i Hi. unfold wrap.
  rewrite Z.testbit_mod_pow2, Z.lnot_spec, !testbit_bswap by lia.
  pose proof (Z.div_pos i 8 Hi ltac:(lia)). pose proof (Z.mod_pos_bound i 8 ltac:(lia)).
  pose proof (Z.div_mod i 8 ltac:(lia)).
  destruct (Z.ltb_spec i (8 * Z.of_nat n)); [|done]. simpl. rewrite Z.lnot_spec by lia. done.
Qed.
Lemma bswap_range n v : in_u (8 * Z.of_nat n) (bswap n v).
Proof.
  unfold bswap, in_u. pose proof (le_combine_bound (reverse (le_split n v))) as H.
  rewrite length_reverse, length_le_split in H. done.
Qed.
