(* ===== verification/ByteArray.v ===== *)
(** * The chunked byte buffer (src/myhttp/bytearray.h, src/myhttp/bytearray.cpp)

    A [ByteArray] is a linked list of blocks of [m_baseSize] bytes with one
    cursor, [m_position] and the block [m_cur] it lies in. This file models the
    state and the operations that move raw bytes (growth, [write], [read],
    [setPosition], [clear], the scatter/gather views) and proves that they
    implement a flat buffer: [flat s] is the concatenation of the blocks, and
    every operation is a [splice] or [slice] of it. The typed accessors are in
    ByteArrayCodec. *)
From stdpp Require Import base tactics option list numbers.
From coqutil Require Import Byte.
From S2P Require Import Prelude Endian.

(** The contents of the [i]-th block of [n] bytes before it is written:
    [new char[n]] leaves them unspecified. *)
Class Heap := {
  fresh_bytes : nat -> nat -> list byte;
  length_fresh_bytes i n : length (fresh_bytes i n) = n
}.

(** [ByteArray::Node]; the [next] pointer is the position in [m_nodes]. *)
Record Node := mkNode { ptr : list byte; size : Z }.

(** [m_root] is the head of [m_nodes]; [m_cur] is [None] for a null pointer. *)
Record ByteArray := mkByteArray {
  m_baseSize : Z;
  m_position : Z;
  m_capacity : Z;
  m_size : Z;
  m_endian : byte_order;
  m_nodes : list Node;
  m_cur : option nat
}.

Section Setters.
Implicit Type s : ByteArray.
Definition set_m_position p s :=
  mkByteArray (m_baseSize s) p (m_capacity s) (m_size s) (m_endian s) (m_nodes s) (m_cur s).
Definition set_m_capacity c s :=
  mkByteArray (m_baseSize s) (m_position s) c (m_size s) (m_endian s) (m_nodes s) (m_cur s).
Definition set_m_size z s :=
  mkByteArray (m_baseSize s) (m_position s) (m_capacity s) z (m_endian s) (m_nodes s) (m_cur s).
Definition set_m_endian e s :=
  mkByteArray (m_baseSize s) (m_position s) (m_capacity s) (m_size s) e (m_nodes s) (m_cur s).
Definition set_m_nodes ns s :=
  mkByteArray (m_baseSize s) (m_position s) (m_capacity s) (m_size s) (m_endian s) ns (m_cur s).
Definition set_m_cur c s :=
  mkByteArray (m_baseSize s) (m_position s) (m_capacity s) (m_size s) (m_endian s) (m_nodes s) c.
End Setters.

(** An [iovec] into the buffer: block, offset in the block, length. *)
Record iovec := mkIovec { iov_node : nat; iov_off : Z; iov_len : Z }.

#[export] Instance iovec_eq_dec : EqDecision iovec.
Proof. solve_decision. Defined.

Section ByteArray.
Context `{heap : Heap}.

Definition new_node (i : nat) (s : Z) : Node := mkNode (fresh_bytes i (Z.to_nat s)) s.

Definition ByteArray_new (base_size : Z) : ByteArray :=
  mkByteArray base_size 0 base_size 0 MYHTTP_BIG_ENDIAN [new_node 0 base_size] (Some 0%nat).

Definition isLittleEndian (s : ByteArray) : bool :=
  bool_decide (m_endian s = MYHTTP_LITTLE_ENDIAN).

Definition setIsLittlEndian (val : bool) : ST ByteArray unit :=
  modify (set_m_endian (if val then MYHTTP_LITTLE_ENDIAN else MYHTTP_BIG_ENDIAN)).

Definition getPosition (s : ByteArray) : Z := m_position s.
Definition getReadSize (s : ByteArray) : Z := m_size s - m_position s.
Definition getCapacity (s : ByteArray) : Z := m_capacity s - m_position s.

(** [n->next] of the block at position [i]. *)
Definition next_of (ns : list Node) (i : nat) : option nat :=
  if decide (S i < length ns)%nat then Some (S i) else None.

(** [p->next], [p->size] through a pointer that may be null. *)
Definition ptr_next (ns : list Node) (p : option nat) : res (option nat) :=
  i ← deref NullDeref p; mret (next_of ns i).
Definition ptr_size (ns : list Node) (p : option nat) : res Z :=
  i ← deref NullDeref p; n ← deref NullDeref (ns !! i); mret (size n).

Definition cur_size : ST ByteArray Z := fun s => (ptr_size (m_nodes s) (m_cur s), s).
Definition cur_advance : ST ByteArray unit := fun s =>
  match ptr_next (m_nodes s) (m_cur s) with
  | Val c => (Val tt, set_m_cur c s)
  | Exc e => (Exc e, s)
  | Bad f => (Bad f, s)
  end.

(** The [for] loop of [addCapacity]: append [count] blocks and count their bytes. *)
Fixpoint grow (count : nat) (s : ByteArray) : ByteArray :=
  match count with
  | O => s
  | S count' =>
      let node := new_node (length (m_nodes s)) (m_baseSize s) in
      grow count'
        (set_m_capacity (m_capacity s + m_baseSize s) (set_m_nodes (m_nodes s ++ [node]) s))
  end.

(** [ByteArray::addCapacity] *)
Definition addCapacity (sz : Z) : ST ByteArray unit := fun s =>
  if decide (sz = 0) then (Val tt, s) else
  let old_cap := getCapacity s in
  if decide (old_cap >= sz) then (Val tt, s) else
  let sz := sz - old_cap in
  if decide (m_baseSize s = 0) then (Bad DivByZero, s) else
  let count := sz / m_baseSize s + (if decide (sz mod m_baseSize s > old_cap) then 1 else 0) in
  let first := if decide (count = 0) then None else Some (length (m_nodes s)) in
  let s' := grow (Z.to_nat count) s in
  (Val tt, if decide (old_cap = 0) then set_m_cur first s' else s').

(** [memcpy(m_cur->ptr + npos, d, |d|)] *)
Definition memcpy_in (npos : Z) (d : list byte) : ST ByteArray unit := fun s =>
  match m_cur s with
  | None => (Bad NullDeref, s)
  | Some i =>
      match m_nodes s !! i with
      | None => (Bad NullDeref, s)
      | Some n =>
          if decide (0 <= npos /\ npos + Z.of_nat (length d) <= size n) then
            (Val tt, set_m_nodes
               (<[i := mkNode (splice (ptr n) (Z.to_nat npos) d) (size n)]> (m_nodes s)) s)
          else (Bad OutOfBounds, s)
      end
  end.

(** [memcpy(dst, p->ptr + npos, len)] *)
Definition memcpy_out (ns : list Node) (p : option nat) (npos len : Z) : res (list byte) :=
  i ← deref NullDeref p;
  n ← deref NullDeref (ns !! i);
  if decide (0 <= npos /\ 0 <= len /\ npos + len <= size n)
  then Val (slice (ptr n) (Z.to_nat npos) (Z.to_nat len)) else Bad OutOfBounds.

Definition copy_out (npos len : Z) : ST ByteArray (list byte) := fun s =>
  (memcpy_out (m_nodes s) (m_cur s) npos len, s).

(** The [while(size > 0)] loop of [write]; [buf] is what is left to copy. *)
Fixpoint write_loop (fuel : nat) (buf : list byte) (npos ncap : Z) : ST ByteArray unit :=
  match fuel with
  | O => crash NoFuel
  | S fuel' =>
      let sz := Z.of_nat (length buf) in
      if decide (sz = 0) then mret tt
      else if decide (ncap >= sz) then
        memcpy_in npos buf;;
        csz ← cur_size;
        (if decide (csz = npos + sz) then cur_advance else mret tt);;
        p ← gets m_position;
        modify (set_m_position (p + sz));;
        write_loop fuel' [] npos ncap
      else
        memcpy_in npos (take (Z.to_nat ncap) buf);;
        p ← gets m_position;
        modify (set_m_position (p + ncap));;
        cur_advance;;
        csz ← cur_size;
        write_loop fuel' (drop (Z.to_nat ncap) buf) 0 csz
  end.

(** [ByteArray::write] *)
Definition write (buf : list byte) : ST ByteArray unit :=
  if decide (length buf = 0%nat) then mret tt else
  addCapacity (Z.of_nat (length buf));;
  base ← gets m_baseSize;
  p ← gets m_position;
  csz ← cur_size;
  if decide (base = 0) then crash DivByZero else
  let npos := p mod base in
  n ← gets (fun s => length (m_nodes s));
  write_loop (S (S n)) buf npos (csz - npos);;
  p' ← gets m_position;
  z ← gets m_size;
  if decide (p' > z) then modify (set_m_size p') else mret tt.

(** The [while(size > 0)] loop of [read(buf, size)]; [acc] is what was copied. *)
Fixpoint read_loop (fuel : nat) (sz npos ncap : Z) (acc : list byte)
  : ST ByteArray (list byte) :=
  match fuel with
  | O => crash NoFuel
  | S fuel' =>
      if decide (sz <= 0) then mret acc
      else if decide (ncap >= sz) then
        d ← copy_out npos sz;
        csz ← cur_size;
        (if decide (csz = npos + sz) then cur_advance else mret tt);;
        p ← gets m_position;
        modify (set_m_position (p + sz));;
        read_loop fuel' 0 npos ncap (acc ++ d)
      else
        d ← copy_out npos ncap;
        p ← gets m_position;
        modify (set_m_position (p + ncap));;
        cur_advance;;
        csz ← cur_size;
        read_loop fuel' (sz - ncap) 0 csz (acc ++ d)
  end.

(** [ByteArray::read(buf, size)]: the bytes copied to [buf]. *)
Definition read (sz : Z) : ST ByteArray (list byte) :=
  avail ← gets getReadSize;
  if decide (sz > avail) then throw out_of_range else
  base ← gets m_baseSize;
  if decide (base = 0) then crash DivByZero else
  p ← gets m_position;
  let npos := p mod base in
  csz ← cur_size;
  n ← gets (fun s => length (m_nodes s));
  read_loop (S (S n)) sz npos (csz - npos) [].

(** [ByteArray::clear] *)
Definition clear : ST ByteArray unit :=
  modify (fun s => mkByteArray (m_baseSize s) 0 (m_baseSize s) 0 (m_endian s)
                     (take 1 (m_nodes s)) (Some 0%nat)).

(** The [while(v > m_cur->size)] loop of [setPosition]. *)
Fixpoint seek (fuel : nat) (v : Z) : ST ByteArray Z :=
  match fuel with
  | O => crash NoFuel
  | S fuel' =>
      csz ← cur_size;
      if decide (v > csz) then cur_advance;; seek fuel' (v - csz) else mret v
  end.

(** [ByteArray::setPosition] *)
Definition setPosition (v : Z) : ST ByteArray unit :=
  c ← gets m_capacity;
  if decide (v > c) then throw out_of_range else
  modify (set_m_position v);;
  z ← gets m_size;
  (if decide (v > z) then modify (set_m_size v) else mret tt);;
  modify (set_m_cur (Some 0%nat));;
  n ← gets (fun s => length (m_nodes s));
  v' ← seek (S n) v;
  csz ← cur_size;
  if decide (v' = csz) then cur_advance else mret tt.

(** The loop of [read(buf, size, position) const]: a local cursor [cur]. *)
Fixpoint read_at_loop (ns : list Node) (fuel : nat) (sz npos ncap : Z)
    (cur : option nat) (acc : list byte) : res (list byte) :=
  match fuel with
  | O => Bad NoFuel
  | S fuel' =>
      if decide (sz <= 0) then Val acc
      else if decide (ncap >= sz) then
        d ← memcpy_out ns cur npos sz;
        csz ← ptr_size ns cur;
        cur' ← (if decide (csz = npos + sz) then ptr_next ns cur else Val cur);
        read_at_loop ns fuel' 0 npos ncap cur' (acc ++ d)
      else
        d ← memcpy_out ns cur npos ncap;
        cur' ← ptr_next ns cur;
        csz ← ptr_size ns cur';
        read_at_loop ns fuel' (sz - ncap) 0 csz cur' (acc ++ d)
  end.

(** [ByteArray::read(buf, size, position) const] *)
Definition read_at (s : ByteArray) (sz position : Z) : res (list byte) :=
  if decide (sz > getReadSize s) then Exc out_of_range else
  if decide (m_baseSize s = 0) then Bad DivByZero else
  let npos := position mod m_baseSize s in
  csz ← ptr_size (m_nodes s) (m_cur s);
  read_at_loop (m_nodes s) (S (S (length (m_nodes s)))) sz npos (csz - npos) (m_cur s) [].

(** [ByteArray::toString] *)
Definition toString (s : ByteArray) : res (list byte) :=
  let n := getReadSize s in
  if decide (n = 0) then Val [] else read_at s n (m_position s).

(** [ByteArray::toHexString]: two digits and a space for each byte, 32 bytes on a line. The
    characters are given by their codes. *)
Definition hex_code (d : Z) : Z := if d <? 10 then 48 + d else 87 + d.
Definition hex_byte (b : byte) : list Z :=
  [hex_code (byte.unsigned b / 16); hex_code (byte.unsigned b mod 16); 32].
Fixpoint hex_lines (i : nat) (str : list byte) : list Z :=
  match str with
  | [] => []
  | b :: str =>
      (if decide (0 < i /\ i mod 32 = 0)%nat then [10] else []) ++ hex_byte b ++ hex_lines (S i) str
  end.
Definition toHexString (s : ByteArray) : res (list Z) :=
  str ← toString s; Val (hex_lines 0 str).

(** The loop the three [get*Buffers] methods share: the list of [iovec]s
  covering [len] bytes from block [cur], offset [npos]. *)
Fixpoint iov_loop (ns : list Node) (fuel : nat) (len npos ncap : Z) (cur : option nat)
  : res (list iovec) :=
  match fuel with
  | O => Bad NoFuel
  | S fuel' =>
      if decide (len <= 0) then Val []
      else
        i ← deref NullDeref cur;
        if decide (ncap >= len) then
          Val [mkIovec i npos len]
        else
          let cur' := next_of ns i in
          csz ← ptr_size ns cur';
          rest ← iov_loop ns fuel' (len - ncap) 0 csz cur';
          Val (mkIovec i npos ncap :: rest)
  end.

(** [getReadBuffers(buffers, len)]: the pushed iovecs and the returned size. *)
Definition getReadBuffers (s : ByteArray) (len : Z) : res (list iovec * Z) :=
  let len := if decide (len > getReadSize s) then getReadSize s else len in
  if decide (len = 0) then Val ([], 0) else
  if decide (m_baseSize s = 0) then Bad DivByZero else
  let npos := m_position s mod m_baseSize s in
  csz ← ptr_size (m_nodes s) (m_cur s);
  iovs ← iov_loop (m_nodes s) (S (length (m_nodes s))) len npos (csz - npos) (m_cur s);
  Val (iovs, len).

(** The [while(count > 0)] walk of [getReadBuffers(buffers, len, position)]. *)
Fixpoint walk (ns : list Node) (count : nat) (cur : option nat) : res (option nat) :=
  match count with
  | O => Val cur
  | S count' => cur' ← ptr_next ns cur; walk ns count' cur'
  end.

(** [getReadBuffers(buffers, len, position)]; the block capacity is taken
  from [m_cur], as in the code. *)
Definition getReadBuffers_at (s : ByteArray) (len position : Z) : res (list iovec * Z) :=
  let len := if decide (len > getReadSize s) then getReadSize s else len in
  if decide (len = 0) then Val ([], 0) else
  if decide (m_baseSize s = 0) then Bad DivByZero else
  let npos := position mod m_baseSize s in
  cur ← walk (m_nodes s) (Z.to_nat (position / m_baseSize s)) (Some 0%nat);
  csz ← ptr_size (m_nodes s) (m_cur s);
  iovs ← iov_loop (m_nodes s) (S (length (m_nodes s))) len npos (csz - npos) cur;
  Val (iovs, len).

(** [getWriteBuffers(buffers, len)] *)
Definition getWriteBuffers (len : Z) : ST ByteArray (list iovec * Z) :=
  if decide (len = 0) then mret ([], 0) else
  addCapacity len;;
  base ← gets m_baseSize;
  if decide (base = 0) then crash DivByZero else
  p ← gets m_position;
  let npos := p mod base in
  csz ← cur_size;
  ns ← gets m_nodes;
  c ← gets m_cur;
  iovs ← lift (iov_loop ns (S (length ns)) len npos (csz - npos) c);
  mret (iovs, len).
End ByteArray.

(** ** The abstract buffer *)

(** All the bytes of the blocks, in order. *)
Definition flat (s : ByteArray) : list byte := concat (ptr <$> m_nodes s).

(** Block [n] of [b] bytes has its [m_cur] pointer when it exists. *)
Definition cursor (n : nat) (b p : Z) : option nat :=
  if decide (Z.to_nat (p / b) < n)%nat then Some (Z.to_nat (p / b)) else None.

(** Every block has [b] bytes. *)
Definition nodes_ok (b : Z) (ns : list Node) : Prop :=
  Forall (fun n => size n = b /\ length (ptr n) = Z.to_nat b) ns.

(** The representation invariant. *)
Record wf (s : ByteArray) : Prop := {
  wf_base : 0 < m_baseSize s;
  wf_nodes : nodes_ok (m_baseSize s) (m_nodes s);
  wf_root : (0 < length (m_nodes s))%nat;
  wf_cap : m_capacity s = Z.of_nat (length (m_nodes s)) * m_baseSize s;
  wf_pos : 0 <= m_position s <= m_size s;
  wf_size : m_size s <= m_capacity s;
  wf_cur : m_cur s = cursor (length (m_nodes s)) (m_baseSize s) (m_position s)
}.

(** [addCapacity n] makes room for [n] bytes exactly when [room s n]. *)
Definition room (s : ByteArray) (n : Z) : Prop :=
  n <= getCapacity s \/
  (n - getCapacity s) mod m_baseSize s = 0 \/
  getCapacity s < (n - getCapacity s) mod m_baseSize s.

#[export] Instance room_dec s n : Decision (room s n).
Proof. unfold room. solve_decision. Defined.

(** The bytes an iovec denotes, and those of a list of them. *)
Definition iov_bytes (ns : list Node) (v : iovec) : list byte :=
  match ns !! iov_node v with
  | Some n => slice (ptr n) (Z.to_nat (iov_off v)) (Z.to_nat (iov_len v))
  | None => []
  end.

(** ** Lemmas on blocks and cursors *)

Lemma nodes_ok_blocks b ns : nodes_ok b ns -> blocks (Z.to_nat b) (ptr <$> ns).
Proof. intros H. unfold blocks. rewrite Forall_fmap. eapply Forall_impl; [|exact H]. by intros x [_ Hx]. Qed.

Lemma length_flat s :
  0 < m_baseSize s -> nodes_ok (m_baseSize s) (m_nodes s) ->
  Z.of_nat (length (flat s)) = Z.of_nat (length (m_nodes s)) * m_baseSize s.
Proof.
  intros Hb H. unfold flat. rewrite (length_concat_blocks (Z.to_nat (m_baseSize s)))
    by by apply nodes_ok_blocks.
  rewrite length_fmap. lia.
Qed.

Lemma wf_length_flat s : wf s -> Z.of_nat (length (flat s)) = m_capacity s.
Proof. intros []. rewrite length_flat by done. lia. Qed.

Lemma nodes_ok_lookup b ns i :
  nodes_ok b ns -> (i < length ns)%nat ->
  exists d, ns !! i = Some (mkNode d b) /\ length d = Z.to_nat b.
Proof.
  intros H Hi. destruct (lookup_lt_is_Some_2 ns i Hi) as [[d z] E].
  destruct (Forall_lookup_1 _ _ _ _ H E) as [Hz Hl]; simpl in *. subst z. eauto.
Qed.

Lemma ptr_size_ok b ns i :
  nodes_ok b ns -> (i < length ns)%nat -> ptr_size ns (Some i) = Val b.
Proof. intros H Hi. destruct (nodes_ok_lookup b ns i H Hi) as (d & E & _).
  unfold ptr_size. simpl. by rewrite E. Qed.

Lemma cursor_div n b i r :
  0 < b -> 0 <= r < b -> cursor n b (Z.of_nat i * b + r) = if decide (i < n)%nat then Some i else None.
Proof.
  intros Hb Hr. unfold cursor.
  replace ((Z.of_nat i * b + r) / b) with (Z.of_nat i).
  - by rewrite Nat2Z.id.
  - rewrite Z.div_add_l by lia. rewrite (Z.div_small r b) by lia. lia.
Qed.

Lemma next_of_cursor ns b i :
  0 < b -> next_of ns i = cursor (length ns) b ((Z.of_nat i + 1) * b).
Proof.
  intros Hb. unfold next_of.
  replace ((Z.of_nat i + 1) * b) with (Z.of_nat (S i) * b + 0) by lia.
  by rewrite cursor_div by lia.
Qed.

(** The block and offset of the position of a well-formed buffer that is not full. *)
Lemma wf_cursor s :
  wf s -> m_position s < m_capacity s ->
  exists i, m_cur s = Some i /\ (i < length (m_nodes s))%nat /\
    m_position s = Z.of_nat i * m_baseSize s + m_position s mod m_baseSize s /\
    0 <= m_position s mod m_baseSize s < m_baseSize s.
Proof.
  intros [Hb Hn Hr Hc Hp Hs Hcur] Hlt. exists (Z.to_nat (m_position s / m_baseSize s)).
  pose proof (Z.div_pos (m_position s) (m_baseSize s)).
  pose proof (Z.mod_pos_bound (m_position s) (m_baseSize s)).
  pose proof (Z.div_mod (m_position s) (m_baseSize s)).
  assert (m_position s / m_baseSize s < Z.of_nat (length (m_nodes s)))
    by (apply Z.div_lt_upper_bound; lia).
  split_and!; try lia. rewrite Hcur. unfold cursor. rewrite decide_True by lia. done.
Qed.

#[local] Arguments ptr_size : simpl never.
#[local] Arguments next_of : simpl never.

Section Proofs.
Context `{heap : Heap}.

Lemma cur_size_ok s i :
  nodes_ok (m_baseSize s) (m_nodes s) -> m_cur s = Some i -> (i < length (m_nodes s))%nat ->
  cur_size s = (Val (m_baseSize s), s).
Proof. intros H E Hi. unfold cur_size. by rewrite E, (ptr_size_ok (m_baseSize s)). Qed.

Lemma cur_advance_ok s i :
  m_cur s = Some i -> cur_advance s = (Val tt, set_m_cur (next_of (m_nodes s) i) s).
Proof. intros E. unfold cur_advance, ptr_next. by rewrite E. Qed.

Lemma new_node_ok i b : nodes_ok b [new_node i b].
Proof. constructor; [|done]. split; [done|]. apply length_fresh_bytes. Qed.

Lemma grow_spec k s :
  nodes_ok (m_baseSize s) (m_nodes s) ->
  exists ns, grow k s = set_m_capacity (m_capacity s + Z.of_nat k * m_baseSize s)
                          (set_m_nodes (m_nodes s ++ ns) s) /\
    nodes_ok (m_baseSize s) ns /\ length ns = k.
Proof.
  revert s. induction k as [|k IH]; intros s H; simpl.
  - exists []. rewrite app_nil_r. split_and!; [|constructor|done].
    rewrite Z.add_0_r. by destruct s.
  - set (s1 := set_m_capacity _ _). destruct (IH s1) as (ns & E & Hok & Hl).
    { apply Forall_app. split; [done|]. apply new_node_ok. }
    exists (new_node (length (m_nodes s)) (m_baseSize s) :: ns). rewrite E. split_and!.
    + unfold s1, set_m_capacity, set_m_nodes. simpl. f_equal; [lia|].
      by rewrite <- app_assoc.
    + apply (Forall_app _ [_]). split; [apply new_node_ok|done].
    + simpl. lia.
Qed.

(** Growth: the state stays well formed, the bytes are kept, and the new
  capacity is enough exactly under [room]. *)
Lemma addCapacity_spec s n :
  wf s -> 0 <= n ->
  exists s' extra, addCapacity n s = (Val tt, s') /\ wf s' /\
    m_baseSize s' = m_baseSize s /\ m_position s' = m_position s /\
    m_size s' = m_size s /\ m_endian s' = m_endian s /\
    flat s' = flat s ++ extra /\ (room s n <-> n <= getCapacity s').
Proof.
  intros Hwf Hn. unfold addCapacity.
  assert (0 <= getCapacity s) as Hcap0 by (destruct Hwf; unfold getCapacity; lia).
  destruct (decide (n = 0)) as [->|Hn0].
  { exists s, []. rewrite app_nil_r. split_and!; try done. unfold room. intuition. }
  destruct (decide (getCapacity s >= n)) as [Hge|Hlt].
  { exists s, []. rewrite app_nil_r. split_and!; try done. unfold room. intuition lia. }
  destruct Hwf as [Hb Hok Hr Hc Hp Hs Hcur].
  rewrite decide_False by lia.
  set (old := getCapacity s) in *. set (b := m_baseSize s) in *.
  set (need := n - old). set (count := need / b + _).
  assert (0 <= need / b) by (apply Z.div_pos; lia).
  pose proof (Z.div_mod need b ltac:(lia)) as Hdm.
  pose proof (Z.mod_pos_bound need b Hb) as Hmb.
  assert (0 <= count) by (unfold count; case_decide; lia).
  destruct (grow_spec (Z.to_nat count) s Hok) as (ns & E & Hok' & Hl).
  set (s' := if decide (old = 0) then _ else _).
  assert (Hs' : s' = set_m_cur (if decide (old = 0)
      then (if decide (count = 0) then None else Some (length (m_nodes s))) else m_cur s)
      (grow (Z.to_nat count) s)).
  { unfold s'. case_decide; [done|]. rewrite E. by destruct s. }
  clearbody s'. rewrite E in Hs'. subst s'.
  eexists _, (concat (ptr <$> ns)). split; [reflexivity|]. simpl. fold b.
  assert (Hlen : length (m_nodes s ++ ns) = (length (m_nodes s) + Z.to_nat count)%nat)
    by (rewrite length_app; lia).
  split_and!; try done.
  - constructor; simpl; fold b; try done.
    + by apply Forall_app.
    + lia.
    + rewrite Hlen, Hc. lia.
    + lia.
    + rewrite Hlen. case_decide as Hold.
      * assert (m_position s = Z.of_nat (length (m_nodes s)) * b + 0) as ->
          by (unfold old, getCapacity in Hold; lia).
        assert (count <> 0) by (unfold count; case_decide; nia).
        rewrite decide_False by done. rewrite cursor_div by lia.
        by rewrite decide_True by lia.
      * rewrite Hcur. unfold cursor.
        assert (m_position s / b < Z.of_nat (length (m_nodes s))).
        { apply Z.div_lt_upper_bound; unfold old, getCapacity in *; lia. }
        pose proof (Z.div_pos (m_position s) b).
        by rewrite !decide_True by lia.
  - unfold flat. simpl. by rewrite fmap_app, concat_app.
  - unfold room. fold old b. fold need. unfold getCapacity. simpl. fold b.
    replace (m_capacity s + Z.of_nat (Z.to_nat count) * b - m_position s)
      with (old + count * b) by (unfold old, getCapacity; lia).
    unfold count. case_decide; nia.
Qed.

Lemma memcpy_in_ok s i npos d :
  0 < m_baseSize s -> nodes_ok (m_baseSize s) (m_nodes s) ->
  m_cur s = Some i -> (i < length (m_nodes s))%nat ->
  0 <= npos -> npos + Z.of_nat (length d) <= m_baseSize s ->
  exists ns, memcpy_in npos d s = (Val tt, set_m_nodes ns s) /\
    nodes_ok (m_baseSize s) ns /\ length ns = length (m_nodes s) /\
    concat (ptr <$> ns) =
      splice (flat s) (Z.to_nat (Z.of_nat i * m_baseSize s + npos)) d.
Proof.
  intros Hb Hok Hc Hi Hn Hd. unfold memcpy_in. rewrite Hc.
  destruct (nodes_ok_lookup _ _ _ Hok Hi) as (l & E & Hl). rewrite E. simpl.
  rewrite decide_True by lia. eexists. split; [reflexivity|]. split_and!.
  - apply Forall_insert; [done|]. simpl. split; [done|].
    rewrite length_splice; lia.
  - by rewrite length_insert.
  - rewrite list_fmap_insert. simpl.
    rewrite (concat_splice (Z.to_nat (m_baseSize s))); [|by apply nodes_ok_blocks| |lia].
    + unfold flat. f_equal. lia.
    + by rewrite list_lookup_fmap, E.
Qed.

Lemma memcpy_out_ok s i npos len :
  0 < m_baseSize s -> nodes_ok (m_baseSize s) (m_nodes s) ->
  (i < length (m_nodes s))%nat -> 0 <= npos -> 0 <= len -> npos + len <= m_baseSize s ->
  memcpy_out (m_nodes s) (Some i) npos len =
    Val (slice (flat s) (Z.to_nat (Z.of_nat i * m_baseSize s + npos)) (Z.to_nat len)).
Proof.
  intros Hb Hok Hi Hn Hl Hd. unfold memcpy_out. simpl.
  destruct (nodes_ok_lookup _ _ _ Hok Hi) as (l & E & Hlen). rewrite E. simpl.
  rewrite decide_True by lia. f_equal.
  rewrite (concat_slice (Z.to_nat (m_baseSize s)) (ptr <$> m_nodes s) i);
    [|by apply nodes_ok_blocks|by rewrite list_lookup_fmap, E|lia].
  unfold flat. f_equal. lia.
Qed.

(** The state after the loops of [write] and [read]: the cursor has moved to [p]. *)
Definition moved (p : Z) (s : ByteArray) : ByteArray :=
  set_m_cur (cursor (length (m_nodes s)) (m_baseSize s) p) (set_m_position p s).

(** A state whose block pointer is block [i] and whose position is [npos] into it. *)
Record at_block (s : ByteArray) (i : nat) (npos : Z) : Prop := {
  ab_base : 0 < m_baseSize s;
  ab_nodes : nodes_ok (m_baseSize s) (m_nodes s);
  ab_cur : m_cur s = Some i;
  ab_lt : (i < length (m_nodes s))%nat;
  ab_npos : 0 <= npos < m_baseSize s;
  ab_pos : m_position s = Z.of_nat i * m_baseSize s + npos
}.

Lemma wf_at_block s :
  wf s -> m_position s < m_capacity s ->
  exists i, at_block s i (m_position s mod m_baseSize s).
Proof.
  intros Hwf Hlt. destruct (wf_cursor s Hwf Hlt) as (i & Hc & Hi & Hp & Hm).
  exists i. destruct Hwf. by constructor.
Qed.

Lemma at_block_moved s i npos : at_block s i npos -> moved (m_position s) s = s.
Proof.
  intros [Hb Hok Hc Hi Hn Hp]. unfold moved. rewrite Hp, cursor_div by lia.
  rewrite decide_True, <- Hp, <- Hc by lia. by destruct s.
Qed.

(** Stepping over the end of block [i] with room left lands in block [i + 1]. *)
Lemma at_block_next s i npos :
  at_block s i npos -> (S i < length (m_nodes s))%nat ->
  at_block (set_m_cur (next_of (m_nodes s) i)
              (set_m_position (m_position s + (m_baseSize s - npos)) s)) (S i) 0.
Proof.
  intros [Hb Hok Hc Hi Hn Hp] Hlt. constructor; simpl; try done; try lia.
  unfold next_of. by rewrite decide_True.
Qed.

Lemma write_loop_spec fuel buf s i npos :
  at_block s i npos ->
  m_position s + Z.of_nat (length buf) <= Z.of_nat (length (m_nodes s)) * m_baseSize s ->
  (length (m_nodes s) - i + 1 <= fuel)%nat ->
  exists ns, write_loop fuel buf npos (m_baseSize s - npos) s =
      (Val tt, moved (m_position s + Z.of_nat (length buf)) (set_m_nodes ns s)) /\
    nodes_ok (m_baseSize s) ns /\ length ns = length (m_nodes s) /\
    concat (ptr <$> ns) = splice (flat s) (Z.to_nat (m_position s)) buf.
Proof.
  revert buf s i npos. induction fuel as [|fuel IH]; intros buf s i npos Hab Hroom Hfuel.
  { destruct Hab; lia. }
  pose proof Hab as [Hb Hok Hc Hi Hn Hp]. simpl. case_decide as Hz.
  { exists (m_nodes s). destruct buf; [|done]. simpl. rewrite Z.add_0_r, splice_nil.
    split_and!; try done. unfold moved. simpl. rewrite Hp, cursor_div by lia.
    rewrite decide_True, <- Hp, <- Hc by lia. by destruct s. }
  case_decide as Hfit.
  - destruct (memcpy_in_ok s i npos buf) as (ns & E & Hok' & Hlen & Hcat); try done; try lia.
    st_step E.
    st_step (cur_size_ok (set_m_nodes ns s) i Hok' Hc ltac:(simpl; lia)). simpl.
    assert (mbind_adv : (if decide (m_baseSize s = npos + Z.of_nat (length buf))
        then cur_advance else mret tt) (set_m_nodes ns s) =
      (Val tt, set_m_cur (cursor (length ns) (m_baseSize s)
                 (m_position s + Z.of_nat (length buf))) (set_m_nodes ns s))).
    { case_decide as He.
      - rewrite (cur_advance_ok _ i) by done. simpl. do 2 f_equal.
        rewrite (next_of_cursor ns (m_baseSize s)) by lia. f_equal. lia.
      - rewrite Hp, <- Z.add_assoc, cursor_div, decide_True by lia.
        rewrite <- Hc. by destruct s. }
    st_step mbind_adv. destruct fuel; [lia|]. simpl.
    exists ns. split_and!; try done. rewrite Hcat. f_equal. lia.
  - set (d := take _ buf).
    assert (Hd : length d = Z.to_nat (m_baseSize s - npos))
      by (unfold d; rewrite length_take; lia).
    destruct (memcpy_in_ok s i npos d) as (ns & E & Hok' & Hlen & Hcat); try done; try lia.
    st_step E. assert (Hnext : (S i < length (m_nodes s))%nat) by nia.
    set (s1 := set_m_nodes ns s).
    assert (Hab1 : at_block s1 i npos) by (constructor; simpl; try done; lia).
    pose proof (at_block_next s1 i npos Hab1 ltac:(simpl; lia)) as Hab2.
    set (s2 := set_m_cur _ _) in Hab2.
    change (mbind _ (gets m_position) s1) with
      ((cur_advance;; csz ← cur_size; write_loop fuel (drop (Z.to_nat (m_baseSize s - npos)) buf) 0 csz)
         (set_m_position (m_position s1 + (m_baseSize s1 - npos)) s1)).
    st_step (cur_advance_ok (set_m_position (m_position s1 + (m_baseSize s1 - npos)) s1) i Hc).
    change (set_m_cur _ _) with s2.
    st_step (cur_size_ok s2 (S i) (ab_nodes _ _ _ Hab2) (ab_cur _ _ _ Hab2) (ab_lt _ _ _ Hab2)).
    destruct (IH (drop (Z.to_nat (m_baseSize s - npos)) buf) s2 (S i) 0)
      as (ns2 & E2 & Hok2 & Hlen2 & Hcat2); [done| | |].
    + simpl. rewrite length_drop. lia.
    + simpl. lia.
    + rewrite Z.sub_0_r in E2. rewrite E2. exists ns2. split_and!; try done.
      * f_equal. unfold moved. simpl.
        unfold set_m_cur, set_m_position, set_m_nodes. simpl.
        rewrite length_drop.
        replace (_ + Z.of_nat (length buf - _))
          with (m_position s + Z.of_nat (length buf)) by lia. done.
      * simpl in *. lia.
      * rewrite Hcat2. unfold flat at 1. simpl. rewrite Hcat.
        replace (Z.of_nat i * m_baseSize s + npos) with (m_position s) by lia.
        replace (Z.to_nat (m_position s + (m_baseSize s - npos)))
          with (Z.to_nat (m_position s) + length d)%nat by lia.
        rewrite splice_app by (pose proof (length_flat s Hb Hok); lia).
        unfold d. by rewrite take_drop.
Qed.

Lemma write_loop_fault fuel buf s i npos :
  at_block s i npos ->
  Z.of_nat (length (m_nodes s)) * m_baseSize s < m_position s + Z.of_nat (length buf) ->
  (length (m_nodes s) - i + 1 <= fuel)%nat ->
  exists s', write_loop fuel buf npos (m_baseSize s - npos) s = (Bad NullDeref, s').
Proof.
  revert buf s i npos. induction fuel as [|fuel IH]; intros buf s i npos Hab Hroom Hfuel.
  { destruct Hab; lia. }
  pose proof Hab as [Hb Hok Hc Hi Hn Hp]. simpl.
  assert (Z.of_nat i * m_baseSize s + m_baseSize s
    <= Z.of_nat (length (m_nodes s)) * m_baseSize s) by nia.
  rewrite decide_False by lia. rewrite decide_False by lia.
  destruct (memcpy_in_ok s i npos (take (Z.to_nat (m_baseSize s - npos)) buf))
    as (ns & E & Hok' & Hlen & _); rewrite ?length_take; try done; try lia.
  st_step E. set (s1 := set_m_nodes ns s).
  change (mbind _ (gets m_position) s1) with
    ((cur_advance;; csz ← cur_size; write_loop fuel (drop (Z.to_nat (m_baseSize s - npos)) buf) 0 csz)
       (set_m_position (m_position s1 + (m_baseSize s1 - npos)) s1)).
  st_step (cur_advance_ok (set_m_position (m_position s1 + (m_baseSize s1 - npos)) s1) i Hc).
  destruct (decide (S i < length (m_nodes s))%nat) as [Hlt|Hge].
  - assert (Hab1 : at_block s1 i npos) by (constructor; simpl; try done; lia).
    pose proof (at_block_next s1 i npos Hab1 ltac:(simpl; lia)) as Hab2.
    set (s2 := set_m_cur _ _) in *.
    st_step (cur_size_ok s2 (S i) (ab_nodes _ _ _ Hab2) (ab_cur _ _ _ Hab2) (ab_lt _ _ _ Hab2)).
    destruct (IH (drop (Z.to_nat (m_baseSize s - npos)) buf) s2 (S i) 0) as (s' & E2);
      [done|simpl; rewrite length_drop; lia|simpl; lia|].
    rewrite Z.sub_0_r in E2. rewrite E2. by eexists.
  - unfold next_of. simpl. rewrite decide_False by lia.
    eexists. unfold mbind, st_bind, cur_size. reflexivity.
Qed.

(** What happens in [write] once the capacity is there (or is not). *)
Lemma write_after_grow buf s :
  wf s -> (0 < length buf)%nat -> m_position s < m_capacity s ->
  let body := (base ← gets m_baseSize; p ← gets m_position; csz ← cur_size;
    (if decide (base = 0) then crash DivByZero else
     n ← gets (fun s => length (m_nodes s));
     write_loop (S (S n)) buf (p mod base) (csz - p mod base);;
     p' ← gets m_position; z ← gets m_size;
     if decide (p' > z) then modify (set_m_size p') else mret tt) : ST ByteArray unit) in
  if decide (Z.of_nat (length buf) <= getCapacity s) then
    exists s', body s = (Val tt, s') /\ wf s' /\ m_baseSize s' = m_baseSize s /\
      m_endian s' = m_endian s /\ m_position s' = m_position s + Z.of_nat (length buf) /\
      m_size s' = Z.max (m_size s) (m_position s + Z.of_nat (length buf)) /\
      flat s' = splice (flat s) (Z.to_nat (m_position s)) buf
  else exists s', body s = (Bad NullDeref, s').
Proof.
  intros Hwf Hlen Hlt body. destruct (wf_at_block s Hwf Hlt) as (i & Hab).
  pose proof Hab as [Hb Hok Hc Hi Hn Hp].
  assert (Hbody : body s = (write_loop (S (S (length (m_nodes s)))) buf
      (m_position s mod m_baseSize s) (m_baseSize s - m_position s mod m_baseSize s);;
     p' ← gets m_position; z ← gets m_size;
     if decide (p' > z) then modify (set_m_size p') else mret tt) s).
  { unfold body.
    change (mbind ?k (gets m_baseSize) s) with (k (m_baseSize s) s). cbv beta.
    change (mbind ?k (gets m_position) s) with (k (m_position s) s). cbv beta.
    st_step (cur_size_ok s i Hok Hc Hi). rewrite decide_False by lia.
    reflexivity. }
  rewrite Hbody. clear Hbody body. destruct Hwf as [_ _ Hr Hcap Hpos Hsz _].
  unfold getCapacity. case_decide as Hfit.
  - destruct (write_loop_spec (S (S (length (m_nodes s)))) buf s i _ Hab)
      as (ns & E & Hok' & Hlen' & Hcat); [lia|lia|].
    st_step E. unfold mbind at 1 2. unfold st_bind, gets, moved. simpl.
    case_decide; (eexists; split; [reflexivity|]); simpl; split_and!; try done; try lia;
      constructor; simpl; try done; try lia; by rewrite ?Hlen'.
  - destruct (write_loop_fault (S (S (length (m_nodes s)))) buf s i _ Hab)
      as (s' & E); [lia|lia|].
    st_step E. by eexists.
Qed.

(** [write] on a well-formed buffer: it writes when [addCapacity] makes enough
  room, and dereferences the null [m_cur] past the last block otherwise. *)
Lemma write_cases buf s :
  wf s ->
  if decide (room s (Z.of_nat (length buf))) then
    exists s' extra, write buf s = (Val tt, s') /\ wf s' /\
      m_baseSize s' = m_baseSize s /\ m_endian s' = m_endian s /\
      m_position s' = m_position s + Z.of_nat (length buf) /\
      m_size s' = Z.max (m_size s) (m_position s + Z.of_nat (length buf)) /\
      (Z.to_nat (m_position s) + length buf <= length (flat s ++ extra))%nat /\
      flat s' = splice (flat s ++ extra) (Z.to_nat (m_position s)) buf
  else exists s', write buf s = (Bad NullDeref, s').
Proof.
  intros Hwf. unfold write. destruct (decide (length buf = 0%nat)) as [Hz|Hz].
  { destruct buf; [|done]. simpl. rewrite decide_True.
    - exists s, []. rewrite app_nil_r, splice_nil. pose proof (wf_length_flat s Hwf).
      destruct Hwf. split_and!; try done; lia.
    - left. destruct Hwf; unfold getCapacity; lia. }
  destruct (addCapacity_spec s (Z.of_nat (length buf)) Hwf ltac:(lia))
    as (s1 & extra & E & Hwf1 & Hb1 & Hp1 & Hz1 & He1 & Hf1 & Hroom).
  st_step E.
  assert (Hlt : m_position s1 < m_capacity s1).
  { destruct (decide (room s (Z.of_nat (length buf)))) as [r|nr].
    - apply Hroom in r. unfold getCapacity in r. lia.
    - pose proof (wf_length_flat s Hwf). pose proof (wf_length_flat s1 Hwf1).
      destruct Hwf.
      assert (0 < getCapacity s) by (unfold room in nr;
        pose proof (Z.mod_pos_bound (Z.of_nat (length buf) - getCapacity s) (m_baseSize s)); lia).
      pose proof (f_equal length Hf1) as HL. rewrite length_app in HL.
      unfold getCapacity in *. lia. }
  pose proof (write_after_grow buf s1 Hwf1 ltac:(lia) Hlt) as HW. cbv zeta in HW.
  destruct (decide (room s _)) as [r|nr].
  - rewrite decide_True in HW by by apply Hroom.
    destruct HW as (s' & E' & ? & ? & ? & ? & ? & Hf'). exists s', extra.
    rewrite Hf1, Hp1 in Hf'. apply Hroom in r. pose proof (wf_length_flat s1 Hwf1).
    rewrite Hf1 in *. destruct Hwf. unfold getCapacity in r.
    split_and!; try done; try congruence; lia.
  - rewrite decide_False in HW by by rewrite <- Hroom. done.
Qed.

Lemma copy_out_ok s i npos n :
  at_block s i npos -> 0 <= n -> npos + n <= m_baseSize s ->
  copy_out npos n s =
    (Val (slice (flat s) (Z.to_nat (m_position s)) (Z.to_nat n)), s).
Proof.
  intros [Hb Hok Hc Hi Hn Hp] H0 H. unfold copy_out.
  rewrite Hc, memcpy_out_ok by (done || lia). by rewrite Hp.
Qed.

Lemma read_loop_spec fuel sz s i npos acc :
  at_block s i npos -> 0 <= sz ->
  m_position s + sz <= Z.of_nat (length (m_nodes s)) * m_baseSize s ->
  (length (m_nodes s) - i + 1 <= fuel)%nat ->
  read_loop fuel sz npos (m_baseSize s - npos) acc s =
    (Val (acc ++ slice (flat s) (Z.to_nat (m_position s)) (Z.to_nat sz)),
     moved (m_position s + sz) s).
Proof.
  revert sz s i npos acc. induction fuel as [|fuel IH];
    intros sz s i npos acc Hab Hsz Hroom Hfuel.
  { destruct Hab; lia. }
  pose proof Hab as [Hb Hok Hc Hi Hn Hp]. simpl. case_decide as Hz.
  { replace sz with 0 by lia. simpl. unfold slice. rewrite take_0, app_nil_r, Z.add_0_r.
    by rewrite (at_block_moved s i npos). }
  case_decide as Hfit.
  - st_step (copy_out_ok s i npos sz Hab Hsz ltac:(lia)).
    st_step (cur_size_ok s i Hok Hc Hi).
    assert (Hadv : (if decide (m_baseSize s = npos + sz) then cur_advance else mret tt) s =
      (Val tt, set_m_cur (cursor (length (m_nodes s)) (m_baseSize s) (m_position s + sz)) s)).
    { case_decide as He.
      - rewrite (cur_advance_ok _ i) by done. do 2 f_equal.
        rewrite (next_of_cursor _ (m_baseSize s)) by lia. f_equal. lia.
      - rewrite Hp, <- Z.add_assoc, cursor_div, decide_True by lia.
        rewrite <- Hc. by destruct s. }
    st_step Hadv. destruct fuel; [lia|]. done.
  - st_step (copy_out_ok s i npos (m_baseSize s - npos) Hab ltac:(lia) ltac:(lia)).
    assert (Hnext : (S i < length (m_nodes s))%nat) by nia.
    pose proof (at_block_next s i npos Hab Hnext) as Hab2.
    set (s2 := set_m_cur _ _) in Hab2.
    change (mbind _ (gets m_position) s) with
      ((cur_advance;; csz ← cur_size; read_loop fuel (sz - (m_baseSize s - npos)) 0 csz
          (acc ++ slice (flat s) (Z.to_nat (m_position s)) (Z.to_nat (m_baseSize s - npos))))
        (set_m_position (m_position s + (m_baseSize s - npos)) s)).
    st_step (cur_advance_ok (set_m_position (m_position s + (m_baseSize s - npos)) s) i Hc).
    change (set_m_cur _ _) with s2.
    st_step (cur_size_ok s2 (S i) (ab_nodes _ _ _ Hab2) (ab_cur _ _ _ Hab2) (ab_lt _ _ _ Hab2)).
    pose proof (IH (sz - (m_baseSize s - npos)) s2 (S i) 0
      (acc ++ slice (flat s) (Z.to_nat (m_position s)) (Z.to_nat (m_baseSize s - npos)))
      Hab2 ltac:(lia) ltac:(simpl; lia) ltac:(simpl; lia)) as E.
    rewrite Z.sub_0_r in E. rewrite E. simpl. f_equal.
    + f_equal. rewrite <- app_assoc. f_equal. change (flat s2) with (flat s).
      replace (Z.to_nat sz) with (Z.to_nat (m_baseSize s - npos) +
        Z.to_nat (sz - (m_baseSize s - npos)))%nat by lia.
      rewrite slice_app. do 2 f_equal. lia.
    + unfold moved. simpl.
      replace (m_position s + (m_baseSize s - npos) + (sz - (m_baseSize s - npos)))
        with (m_position s + sz) by lia. done.
Qed.

(** [read] returns the bytes of the flat buffer at the cursor and advances. *)
Lemma read_spec sz s :
  wf s -> 0 <= sz <= getReadSize s -> m_position s < m_capacity s ->
  read sz s = (Val (slice (flat s) (Z.to_nat (m_position s)) (Z.to_nat sz)),
               moved (m_position s + sz) s) /\
  wf (moved (m_position s + sz) s).
Proof.
  intros Hwf Hsz Hlt. destruct (wf_at_block s Hwf Hlt) as (i & Hab).
  pose proof Hab as [Hb Hok Hc Hi Hn Hp]. destruct Hwf as [_ _ Hr Hcap Hpos Hsize _].
  unfold getReadSize in *. split.
  - unfold read. change (mbind ?k (gets getReadSize) s) with (k (getReadSize s) s). cbv beta.
    unfold getReadSize. rewrite decide_False by lia.
    change (mbind ?k (gets m_baseSize) s) with (k (m_baseSize s) s). cbv beta.
    rewrite decide_False by lia.
    change (mbind ?k (gets m_position) s) with (k (m_position s) s). cbv beta.
    st_step (cur_size_ok s i Hok Hc Hi).
    change (mbind ?k (gets ?f) s) with (k (f s) s). cbv beta.
    rewrite (read_loop_spec _ _ _ i) by (done || lia). done.
  - constructor; simpl; try done; lia.
Qed.

Lemma read_too_long sz s : sz > getReadSize s -> read sz s = (Exc out_of_range, s).
Proof. intros. unfold read, mbind, st_bind, gets. by rewrite decide_True. Qed.

Lemma read_at_loop_read_loop fuel sz npos ncap acc s :
  read_at_loop (m_nodes s) fuel sz npos ncap (m_cur s) acc =
    fst (read_loop fuel sz npos ncap acc s).
Proof.
  revert sz npos ncap acc s. induction fuel as [|fuel IH]; intros; simpl; [done|].
  case_decide; [done|]. case_decide; st_unfold; unfold res_bind, cur_size, cur_advance, copy_out.
  - destruct (memcpy_out _ _ _ _); simpl; try done.
    destruct (ptr_size _ _); simpl; try done.
    case_decide; [destruct (ptr_next _ _); simpl; try done|];
      by rewrite <- (IH 0 npos ncap _ (set_m_position _ _)).
  - destruct (memcpy_out _ _ _ _); simpl; try done.
    destruct (ptr_next _ _) as [c| |]; simpl; try done.
    destruct (ptr_size _ c); simpl; try done. by rewrite <- IH.
Qed.

(** [toString]: the unread part of the buffer. *)
Lemma toString_spec s :
  wf s -> toString s = Val (slice (flat s) (Z.to_nat (m_position s)) (Z.to_nat (getReadSize s))).
Proof.
  intros Hwf. unfold toString. case_decide as Hz.
  { rewrite Hz. unfold slice. by rewrite take_0. }
  assert (Hlt : m_position s < m_capacity s /\ 0 <= getReadSize s)
    by (destruct Hwf; unfold getReadSize in *; lia).
  destruct (read_spec (getReadSize s) s Hwf ltac:(lia) (proj1 Hlt)) as [E _].
  destruct (wf_at_block s Hwf (proj1 Hlt)) as (i & Hab). pose proof (ab_base _ _ _ Hab).
  unfold read_at, read in *. rewrite decide_False by lia. rewrite decide_False by lia.
  change (mbind ?k (gets getReadSize) s) with (k (getReadSize s) s) in E. cbv beta in E.
  rewrite decide_False in E by lia.
  change (mbind ?k (gets m_baseSize) s) with (k (m_baseSize s) s) in E. cbv beta in E.
  rewrite decide_False in E by lia.
  change (mbind ?k (gets m_position) s) with (k (m_position s) s) in E. cbv beta in E.
  destruct Hab as [_ Hok Hc Hi _ _].
  rewrite (st_bind_val _ _ _ _ _ (cur_size_ok s i Hok Hc Hi)) in E.
  rewrite Hc at 1. rewrite (ptr_size_ok (m_baseSize s)) by done.
  unfold mbind, res_bind. rewrite read_at_loop_read_loop.
  change (mbind ?k (gets ?f) s) with (k (f s) s) in E. cbv beta in E. by rewrite E.
Qed.

(** Reading the digits back: the line feeds and the spaces are skipped. *)
Definition code_value (c : Z) : Z := if c <? 97 then c - 48 else c - 87.
Fixpoint unhex (l : list Z) : list byte :=
  match l with
  | [] => []
  | c :: l =>
      if c =? 10 then unhex l else
      match l with
      | d :: _ :: l => byte.of_Z (16 * code_value c + code_value d) :: unhex l
      | _ => []
      end
  end.

Lemma unhex_byte b l : unhex (hex_byte b ++ l) = b :: unhex l.
Proof. by destruct b. Qed.

Lemma unhex_lines i str : unhex (hex_lines i str) = str.
Proof.
  revert i. induction str as [|b str IH]; intros i; [done|]. cbn [hex_lines].
  destruct (decide _); cbn [app]; [change (unhex (10 :: ?l)) with (unhex l)|];
    by rewrite unhex_byte, IH.
Qed.

(** [toHexString] shows exactly the unread bytes. *)
Lemma toHexString_spec s :
  wf s -> exists l, toHexString s = Val l /\
    unhex l = slice (flat s) (Z.to_nat (m_position s)) (Z.to_nat (getReadSize s)).
Proof.
  intros Hwf. unfold toHexString. rewrite toString_spec by done.
  eexists. split; [reflexivity|]. apply unhex_lines.
Qed.

Lemma seek_spec fuel v s i :
  0 < m_baseSize s -> nodes_ok (m_baseSize s) (m_nodes s) ->
  m_cur s = Some i -> (i < length (m_nodes s))%nat ->
  0 <= v -> Z.of_nat i * m_baseSize s + v <= Z.of_nat (length (m_nodes s)) * m_baseSize s ->
  (length (m_nodes s) - i <= fuel)%nat ->
  exists j v', seek fuel v s = (Val v', set_m_cur (Some j) s) /\
    (j < length (m_nodes s))%nat /\ 0 <= v' <= m_baseSize s /\
    Z.of_nat j * m_baseSize s + v' = Z.of_nat i * m_baseSize s + v.
Proof.
  revert v s i. induction fuel as [|fuel IH]; intros v s i Hb Hok Hc Hi Hv Hle Hf; [lia|].
  simpl. st_step (cur_size_ok s i Hok Hc Hi). case_decide as Hgt.
  - st_step (cur_advance_ok s i Hc). unfold next_of. rewrite decide_True by nia.
    destruct (IH (v - m_baseSize s) (set_m_cur (Some (S i)) s) (S i))
      as (j & v' & E & Hj & Hv' & Heq); simpl; try done; try lia; try nia.
    rewrite E. exists j, v'. split_and!; simpl in *; try done; lia.
  - exists i, v. split_and!; try done; try lia. rewrite <- Hc. by destruct s.
Qed.

(** [setPosition v]: the position is [v], the size grows to it when needed. *)
Lemma setPosition_ok v s :
  wf s -> 0 <= v <= m_capacity s ->
  setPosition v s = (Val tt, moved v (set_m_size (Z.max (m_size s) v) s)) /\
  wf (moved v (set_m_size (Z.max (m_size s) v) s)).
Proof.
  intros Hwf Hv. pose proof Hwf as [Hb Hok Hr Hcap Hpos Hsize _]. split.
  - unfold setPosition.
    change (mbind ?k (gets m_capacity) s) with (k (m_capacity s) s). cbv beta.
    rewrite decide_False by lia.
    set (s0 := set_m_cur (Some 0%nat) (set_m_size (Z.max (m_size s) v) (set_m_position v s))).
    assert (H0 : forall k : unit -> ST ByteArray unit,
      (modify (set_m_position v);; z ← gets m_size;
       (if decide (v > z) then modify (set_m_size v) else mret tt);;
       u ← modify (set_m_cur (Some 0%nat)); k u) s = k tt s0).
    { intros k. unfold mbind, st_bind, modify, gets. simpl. unfold s0.
      case_decide; simpl; unfold set_m_cur, set_m_size, set_m_position; simpl.
      - by rewrite Z.max_r by lia.
      - rewrite Z.max_l by lia. done. }
    rewrite H0. clear H0.
    change (mbind ?k (gets ?f) s0) with (k (f s0) s0). cbv beta.
    destruct (seek_spec (S (length (m_nodes s0))) v s0 0) as (j & v' & E & Hj & Hv' & Heq);
      simpl; try done; try lia.
    st_step E. set (s1 := set_m_cur (Some j) s0).
    st_step (cur_size_ok s1 j Hok eq_refl Hj). simpl in *.
    assert (Hcv : cursor (length (m_nodes s)) (m_baseSize s) v =
      if decide (v' = m_baseSize s) then next_of (m_nodes s) j else Some j).
    { case_decide as Hend.
      - rewrite (next_of_cursor _ (m_baseSize s)) by lia. f_equal. lia.
      - replace v with (Z.of_nat j * m_baseSize s + v') by lia.
        by rewrite cursor_div, decide_True by lia. }
    unfold moved. simpl. rewrite Hcv. case_decide as Hend; [|done].
    by rewrite (cur_advance_ok s1 j eq_refl).
  - constructor; simpl; try done; lia.
Qed.

Lemma setPosition_throws v s :
  m_capacity s < v -> setPosition v s = (Exc out_of_range, s).
Proof. intros. unfold setPosition, mbind, st_bind, gets. by rewrite decide_True by lia. Qed.

Lemma clear_ok s : wf s -> exists s', clear s = (Val tt, s') /\ wf s' /\
  m_position s' = 0 /\ m_size s' = 0 /\ m_capacity s' = m_baseSize s /\
  m_endian s' = m_endian s.
Proof.
  intros [Hb Hok Hr Hcap Hpos Hsize _]. eexists. split; [reflexivity|].
  simpl. split_and!; try done. destruct (m_nodes s) as [|n ns] eqn:E; simpl in *; [lia|].
  rewrite take_0. constructor; simpl; try done; try lia.
  inversion Hok; subst. by constructor; [|constructor].
Qed.

(** ** The scatter/gather views *)

(** An iovec list covers the [len] bytes of [s] from offset [p], in pieces
  that stay inside their block and are not empty. *)
Definition iov_inside (b : Z) (v : iovec) : Prop :=
  0 <= iov_off v /\ 0 < iov_len v /\ iov_off v + iov_len v <= b.

Lemma iov_bytes_ok s i npos len :
  at_block s i npos -> 0 <= len -> npos + len <= m_baseSize s ->
  iov_bytes (m_nodes s) (mkIovec i npos len) =
    slice (flat s) (Z.to_nat (m_position s)) (Z.to_nat len).
Proof.
  intros Hab H0 H. pose proof (copy_out_ok s i npos len Hab H0 H) as E.
  destruct Hab as [Hb Hok Hc Hi Hn Hp].
  unfold copy_out, memcpy_out, iov_bytes in *. rewrite Hc in E. simpl in *.
  destruct (m_nodes s !! i); simpl in *; [|done].
  rewrite decide_True in E; [by injection E|].
  destruct (nodes_ok_lookup _ _ _ Hok Hi) as (d & E' & _).
  unfold mbind, res_bind in E. simpl in E. case_decide; done.
Qed.

Lemma iov_loop_spec fuel len s i npos :
  at_block s i npos -> 0 < len ->
  m_position s + len <= Z.of_nat (length (m_nodes s)) * m_baseSize s ->
  (length (m_nodes s) - i <= fuel)%nat ->
  exists iovs,
    iov_loop (m_nodes s) fuel len npos (m_baseSize s - npos) (Some i) = Val iovs /\
    concat (iov_bytes (m_nodes s) <$> iovs)
      = slice (flat s) (Z.to_nat (m_position s)) (Z.to_nat len) /\
    Forall (iov_inside (m_baseSize s)) iovs.
Proof.
  revert len s i npos. induction fuel as [|fuel IH]; intros len s i npos Hab Hlen Hroom Hf.
  { destruct Hab; lia. }
  pose proof Hab as [Hb Hok Hc Hi Hn Hp]. simpl. rewrite decide_False by lia.
  case_decide as Hfit.
  - eexists. split; [reflexivity|]. simpl. rewrite app_nil_r. split.
    + apply (iov_bytes_ok s i); (done || lia).
    + repeat constructor; simpl; lia.
  - assert (Hnext : (S i < length (m_nodes s))%nat) by nia.
    pose proof (at_block_next s i npos Hab Hnext) as Hab2. set (s2 := set_m_cur _ _) in Hab2.
    assert (Hno : next_of (m_nodes s) i = Some (S i)) by by apply decide_True.
    rewrite Hno, (ptr_size_ok (m_baseSize s)) by done. simpl.
    destruct (IH (len - (m_baseSize s - npos)) s2 (S i) 0 Hab2)
      as (iovs & E & Hbytes & Hin); [lia|simpl; lia|simpl; lia|].
    simpl in *. rewrite Z.sub_0_r in E. rewrite E. eexists. split; [reflexivity|]. rewrite fmap_cons, concat_cons. split.
    + rewrite Hbytes, (iov_bytes_ok s i) by (done || lia).
      change (flat s2) with (flat s).
      replace (Z.to_nat len) with (Z.to_nat (m_baseSize s - npos) +
        Z.to_nat (len - (m_baseSize s - npos)))%nat by lia.
      rewrite slice_app. do 2 f_equal. lia.
    + constructor; [|done]. repeat split; simpl; lia.
Qed.

(** ** The contract of the buffer *)

(** The valid data: the first [m_size] bytes. *)
Definition contents (s : ByteArray) : list byte := take (Z.to_nat (m_size s)) (flat s).

(** [s'] is [s] with [d] written over the data at the cursor. *)
Record written (s : ByteArray) (d : list byte) (s' : ByteArray) : Prop := {
  wr_wf : wf s';
  wr_contents : contents s' = splice (contents s) (Z.to_nat (m_position s)) d;
  wr_pos : m_position s' = m_position s + Z.of_nat (length d);
  wr_size : m_size s' = Z.max (m_size s) (m_position s + Z.of_nat (length d));
  wr_cap : m_capacity s <= m_capacity s';
  wr_base : m_baseSize s' = m_baseSize s;
  wr_endian : m_endian s' = m_endian s
}.

Lemma length_contents s : wf s -> Z.of_nat (length (contents s)) = m_size s.
Proof.
  intros Hwf. pose proof (wf_length_flat s Hwf). destruct Hwf.
  unfold contents. rewrite length_take. lia.
Qed.

Lemma slice_contents s p n :
  wf s -> 0 <= p -> 0 <= n -> p + n <= m_size s ->
  slice (contents s) (Z.to_nat p) (Z.to_nat n) = slice (flat s) (Z.to_nat p) (Z.to_nat n).
Proof.
  intros Hwf H0 Hn Hp. unfold slice, contents.
  rewrite !take_drop_commute, take_take. do 2 f_equal. lia.
Qed.

Lemma write_written buf s :
  wf s -> room s (Z.of_nat (length buf)) ->
  exists s', write buf s = (Val tt, s') /\ written s buf s'.
Proof.
  intros Hwf Hroom. pose proof (write_cases buf s Hwf) as H.
  rewrite decide_True in H by done.
  destruct H as (s' & extra & E & Hwf' & Hb & He & Hp & Hz & Hle & Hf).
  pose proof (wf_length_flat s Hwf). pose proof Hwf as [_ _ _ _ Hpos Hsize _].
  exists s'. split; [done|]. constructor; try done.
  2: { rewrite <- (wf_length_flat s'), Hf, length_splice, length_app by done. lia. }
  unfold contents. rewrite Hf, Hz.
  replace (Z.to_nat (Z.max _ _))
    with (Nat.max (Z.to_nat (m_size s)) (Z.to_nat (m_position s) + length buf)) by lia.
  apply take_splice; lia.
Qed.

Lemma written_app s d1 s1 d2 s2 :
  wf s -> written s d1 s1 -> written s1 d2 s2 -> written s (d1 ++ d2) s2.
Proof.
  intros Hwf [_ Hc1 Hp1 Hz1 Hk1 Hb1 He1] [Hwf2 Hc2 Hp2 Hz2 Hk2 Hb2 He2].
  pose proof (length_contents s Hwf). destruct Hwf.
  constructor; rewrite ?length_app; try done; try congruence; try lia.
  rewrite Hc2, Hc1, Hp1, <- splice_app by lia. f_equal. lia.
Qed.

(** [next_bytes s d]: the next bytes to read are [d]. *)
Definition next_bytes (s : ByteArray) (d : list byte) : Prop :=
  m_position s + Z.of_nat (length d) <= m_size s /\
  m_position s < m_capacity s /\
  slice (contents s) (Z.to_nat (m_position s)) (length d) = d.

Lemma read_next s d :
  wf s -> next_bytes s d ->
  read (Z.of_nat (length d)) s =
    (Val d, moved (m_position s + Z.of_nat (length d)) s) /\
  wf (moved (m_position s + Z.of_nat (length d)) s).
Proof.
  intros Hwf (Hle & Hlt & Hd).
  destruct (read_spec (Z.of_nat (length d)) s Hwf) as [E Hwf'];
    [unfold getReadSize; lia|done|].
  rewrite E. split; [|done]. f_equal. f_equal.
  rewrite <- slice_contents by (done || (destruct Hwf; lia)).
  by rewrite Nat2Z.id.
Qed.

(** Reading part of what comes next. *)
Lemma next_bytes_app s d1 d2 :
  wf s -> next_bytes s (d1 ++ d2) ->
  next_bytes s d1 /\
  (m_position s + Z.of_nat (length d1) < m_capacity s ->
   next_bytes (moved (m_position s + Z.of_nat (length d1)) s) d2).
Proof.
  intros Hwf (Hle & Hlt & Hd). rewrite length_app in *.
  rewrite slice_app in Hd.
  apply app_inj_1 in Hd as [Hd1 Hd2].
  - split; [split_and!; try done; lia|]. intros Hlt'. split_and!; simpl; try done; try lia.
    rewrite Z2Nat.inj_add, Nat2Z.id by (destruct Hwf; lia). done.
  - apply length_slice. pose proof (length_contents s Hwf). destruct Hwf; lia.
Qed.

(** After a write the cursor can be put back on what was written. *)
Lemma written_next s d s' :
  wf s -> written s d s' -> (0 < length d)%nat ->
  exists s'', setPosition (m_position s) s' = (Val tt, s'') /\ wf s'' /\
    next_bytes s'' d /\ m_endian s'' = m_endian s /\ m_position s'' = m_position s /\
    m_capacity s'' = m_capacity s'.
Proof.
  intros Hwf [Hwf' Hc Hp Hz Hb He] Hlen.
  pose proof Hwf as [_ _ _ _ Hpos Hsize _]. pose proof Hwf' as [_ _ _ _ Hpos' Hsize' _].
  destruct (setPosition_ok (m_position s) s' Hwf' ltac:(lia)) as [E Hwf''].
  eexists. split; [exact E|]. split; [done|]. split; [|done]. split_and!; simpl; try lia.
  change (contents _) with (contents (set_m_size (Z.max (m_size s') (m_position s)) s')).
  replace (Z.max (m_size s') (m_position s)) with (m_size s') by lia.
  change (contents (set_m_size (m_size s') s')) with (contents s').
  rewrite Hc. apply slice_splice_same. pose proof (length_contents s Hwf). lia.
Qed.
End Proofs.

(** ** Properties *)

(** A concrete allocator, for the witnesses: fresh memory is zeroed. *)
Definition zero_heap : Heap :=
  {| fresh_bytes := fun _ n => replicate n (byte.of_Z 0);
     length_fresh_bytes := fun _ n => length_replicate n _ |}.

Lemma wf_new (heap : Heap) b : 0 < b -> wf (ByteArray_new b).
Proof.
  intros Hb. constructor; simpl; try done; try lia.
  constructor; [|done]. split; [done|]. apply length_fresh_bytes.
Qed.

(** C8: refinement of [write] to the flat buffer. On a well-formed buffer, and
    when [addCapacity] can make room, [write] overwrites the data at the cursor
    with exactly the given bytes (extending it at the end), moves the cursor past
    them, grows the size to the cursor when needed and keeps the representation
    invariant. The block structure is invisible. *)
Theorem write_refines (heap : Heap) s buf :
  wf s -> room s (Z.of_nat (length buf)) ->
  exists s', write buf s = (Val tt, s') /\ wf s' /\
    contents s' = splice (contents s) (Z.to_nat (m_position s)) buf /\
    m_position s' = m_position s + Z.of_nat (length buf) /\
    m_size s' = Z.max (m_size s) (m_position s + Z.of_nat (length buf)) /\
    m_endian s' = m_endian s.
Proof.
  intros Hwf Hr. destruct (write_written buf s Hwf Hr) as (s' & E & []).
  exists s'. split_and!; done.
Qed.


(** A buffer of 4-byte blocks, used by the witnesses below. *)
Definition demo : ByteArray := @ByteArray_new zero_heap 4.
Definition demo_bytes (n : nat) : list byte := byte.of_Z ∘ Z.of_nat <$> seq 1 n.

(** The same buffer with eight bytes in it and the cursor at 2. *)
Definition filled : ByteArray :=
  snd (setPosition 2 (snd (@write zero_heap (demo_bytes 8) demo))).

Lemma wf_demo : wf demo.
Proof. apply wf_new. lia. Qed.

Lemma wf_filled : wf filled.
Proof.
  destruct (@write_written zero_heap (demo_bytes 8) demo wf_demo) as (s' & E & []);
    [right; left; reflexivity|].
  unfold filled. rewrite E. simpl.
  destruct (setPosition_ok 2 s' ltac:(done)) as [E' H]; [|by rewrite E'].
  clear - E. vm_compute in E. simplify_eq. vm_compute. split; congruence.
Qed.

Lemma write_refines_witness :
  exists s', @write zero_heap (demo_bytes 8) demo = (Val tt, s') /\
    contents s' = splice (contents demo) 0 (demo_bytes 8) /\ m_position s' = 8.
Proof.
  destruct (write_refines zero_heap demo (demo_bytes 8)) as (s' & E & _ & Hc & Hp & _).
  - apply wf_new. lia.
  - right. left. reflexivity.
  - exists s'. split_and!; [exact E | exact Hc | exact Hp].
Defined.

(** [addCapacity] under-allocates. Whenever the missing bytes, modulo the
    block size, are neither zero nor more than what was still free, [write] runs
    off the last block and reads through the null [m_cur]; there is no other
    case, so [room] is exactly the precondition of [write]. *)
Theorem write_without_room (heap : Heap) s buf :
  wf s ->
  (room s (Z.of_nat (length buf)) <-> exists s', write buf s = (Val tt, s')) /\
  (~ room s (Z.of_nat (length buf)) -> exists s', write buf s = (Bad NullDeref, s')).
Proof.
  intros Hwf. pose proof (write_cases buf s Hwf) as H. case_decide as Hr.
  - destruct H as (s' & _ & E & _). split; [|done]. split; [by eauto|done].
  - destruct H as (s' & E). split; [|by eauto]. split; [done|].
    intros (s'' & E'). by rewrite E in E'.
Qed.

(** The default buffer of 4096-byte blocks cannot take 5000 bytes at once. *)
Lemma write_without_room_witness :
  exists s', @write zero_heap (replicate (Z.to_nat 5000) (byte.of_Z 7))
               (@ByteArray_new zero_heap 4096) = (Bad NullDeref, s').
Proof.
  destruct (write_without_room zero_heap (@ByteArray_new zero_heap 4096)
    (replicate (Z.to_nat 5000) (byte.of_Z 7))) as [_ H].
  - apply wf_new. lia.
  - apply H. rewrite length_replicate. unfold room, getCapacity. simpl.
    rewrite Z2Nat.id by lia. by intros [?|[?|?]].
Defined.

(** C9: [read] refines reading the flat buffer: asking for more than is left
    throws [out_of_range] and leaves the buffer alone; otherwise, if the cursor
    is inside the capacity, the bytes at the cursor are returned, the cursor
    advances and the data is untouched. *)
Theorem read_refines (heap : Heap) s n :
  wf s -> 0 <= n ->
  (getReadSize s < n -> read n s = (Exc out_of_range, s)) /\
  (n <= getReadSize s -> m_position s < m_capacity s ->
   exists s', read n s =
       (Val (slice (contents s) (Z.to_nat (m_position s)) (Z.to_nat n)), s') /\
     wf s' /\ contents s' = contents s /\ m_position s' = m_position s + n /\
     m_size s' = m_size s).
Proof.
  intros Hwf Hn. split.
  - intros H. apply read_too_long. lia.
  - intros H Hlt. destruct (read_spec n s Hwf ltac:(lia) Hlt) as [E Hwf'].
    eexists. rewrite E. split_and!; try done.
    rewrite slice_contents; try done; destruct Hwf; unfold getReadSize in *; lia.
Qed.

Lemma read_refines_witness :
  read 7 filled = (Exc out_of_range, filled) /\
  exists s', read 5 filled = (Val (drop 2 (take 7 (demo_bytes 8))), s') /\ m_position s' = 7.
Proof.
  destruct (read_refines zero_heap filled 7) as [H _]; [exact wf_filled|lia|].
  destruct (read_refines zero_heap filled 5) as [_ H']; [exact wf_filled|lia|].
  split; [apply H; reflexivity|].
  destruct H' as (s' & E & _ & _ & Hp & _); [vm_compute; congruence|reflexivity|].
  exists s'. split; [exact E | exact Hp].
Defined.

(** Reading zero bytes with the cursor at the end of the capacity reads
    through the null [m_cur]: the empty read is not harmless there. *)
Theorem read_nothing_at_end (heap : Heap) s :
  wf s -> m_position s = m_capacity s ->
  read 0 s = (Bad NullDeref, s).
Proof.
  intros [Hb Hok Hr Hcap Hpos Hsize Hcur] Hend.
  assert (Hnull : m_cur s = None).
  { rewrite Hcur. unfold cursor. rewrite decide_False; [done|].
    rewrite Hend, Hcap, Z.div_mul by lia. lia. }
  unfold read, mbind, st_bind, gets. simpl.
  rewrite decide_False by (unfold getReadSize; lia).
  rewrite decide_False by lia. unfold cur_size, ptr_size. by rewrite Hnull.
Qed.

Lemma read_nothing_at_end_witness :
  let s := snd (setPosition 4 demo) in read 0 s = (Bad NullDeref, s).
Proof.
  intros s. apply (read_nothing_at_end zero_heap); [|reflexivity].
  destruct (setPosition_ok 4 demo (wf_new zero_heap 4 ltac:(lia)) ltac:(simpl; lia))
    as [E Hwf]. unfold s. rewrite E. exact Hwf.
Defined.

(** [setPosition] accepts exactly the offsets up to the capacity; it moves
    the cursor there (with the right block pointer), keeps the data and extends
    the size when the cursor is past it. *)
Theorem setPosition_spec (heap : Heap) s v :
  wf s -> 0 <= v ->
  (m_capacity s < v -> setPosition v s = (Exc out_of_range, s)) /\
  (v <= m_capacity s ->
   exists s', setPosition v s = (Val tt, s') /\ wf s' /\ m_position s' = v /\
     m_size s' = Z.max (m_size s) v /\ flat s' = flat s).
Proof.
  intros Hwf Hv. split; [apply setPosition_throws|].
  intros Hle. destruct (setPosition_ok v s Hwf ltac:(lia)) as [E Hwf'].
  eexists. split; [exact E|]. by split_and!.
Qed.

Lemma setPosition_spec_witness :
  setPosition 9 filled = (Exc out_of_range, filled) /\
  exists s', setPosition 6 filled = (Val tt, s') /\ m_size s' = 8.
Proof.
  destruct (setPosition_spec zero_heap filled 9) as [H _]; [exact wf_filled|lia|].
  destruct (setPosition_spec zero_heap filled 6) as [_ H']; [exact wf_filled|lia|].
  split; [apply H; reflexivity|].
  destruct H' as (s' & E & _ & _ & Hz & _); [vm_compute; congruence|].
  exists s'. split; [exact E | exact Hz].
Defined.

(** the scatter/gather views cover what they promise. [getReadBuffers]
    returns the length clipped to what is left, and its pieces, read in order,
    are exactly those bytes; [getWriteBuffers] grows the buffer and returns
    pieces for exactly [len] bytes at the cursor. No piece is empty or leaves its
    block. *)
Theorem buffers_cover (heap : Heap) s len :
  wf s -> 0 <= len ->
  (m_position s < m_capacity s ->
   exists iovs, getReadBuffers s len = Val (iovs, Z.min len (getReadSize s)) /\
     concat (iov_bytes (m_nodes s) <$> iovs) =
       slice (contents s) (Z.to_nat (m_position s)) (Z.to_nat (Z.min len (getReadSize s))) /\
     Forall (iov_inside (m_baseSize s)) iovs) /\
  (room s len ->
   exists s' iovs, getWriteBuffers len s = (Val (iovs, len), s') /\ wf s' /\
     contents s' = contents s /\ m_position s' = m_position s /\
     concat (iov_bytes (m_nodes s') <$> iovs) =
       slice (flat s') (Z.to_nat (m_position s')) (Z.to_nat len) /\
     Forall (iov_inside (m_baseSize s')) iovs).
Proof.
  intros Hwf Hlen. split.
  - intros Hlt. destruct (wf_at_block s Hwf Hlt) as (i & Hab).
    pose proof Hab as [Hb Hok Hc Hi Hn Hp]. pose proof Hwf as [_ _ _ Hcap Hpos Hsize _].
    unfold getReadBuffers.
    replace (if decide (len > getReadSize s) then getReadSize s else len)
      with (Z.min len (getReadSize s)) by (case_decide; lia).
    unfold getReadSize in *. case_decide as Hz.
    + exists []. rewrite Hz. split_and!; [done| |constructor].
      unfold slice. by rewrite take_0.
    + rewrite decide_False by lia. rewrite Hc, (ptr_size_ok (m_baseSize s)) by done.
      destruct (iov_loop_spec (S (length (m_nodes s))) (Z.min len (m_size s - m_position s))
        s i _ Hab) as (iovs & E & Hbytes & Hin); try lia.
      unfold mbind, res_bind. rewrite E. exists iovs. split_and!; try done.
      rewrite Hbytes. symmetry. apply slice_contents; (done || lia).
  - intros Hroom. unfold getWriteBuffers. case_decide as Hz.
    { subst len. exists s, []. split_and!; try done. }
    destruct (addCapacity_spec s len Hwf Hlen)
      as (s1 & extra & E & Hwf1 & Hb1 & Hp1 & Hz1 & He1 & Hf1 & Hiff).
    apply Hiff in Hroom. unfold getCapacity in Hroom. st_step E.
    destruct (wf_at_block s1 Hwf1 ltac:(lia)) as (i & Hab).
    pose proof Hab as [Hb Hok Hc Hi Hn Hp]. pose proof Hwf1 as [_ _ _ Hcap Hpos Hsize _].
    change (mbind ?k (gets m_baseSize) s1) with (k (m_baseSize s1) s1). cbv beta.
    rewrite decide_False by lia.
    change (mbind ?k (gets m_position) s1) with (k (m_position s1) s1). cbv beta.
    st_step (cur_size_ok s1 i Hok Hc Hi).
    destruct (iov_loop_spec (S (length (m_nodes s1))) len s1 i _ Hab)
      as (iovs & E' & Hbytes & Hin); try lia.
    unfold mbind, st_bind, gets, lift. cbv beta. rewrite Hc, E'.
    exists s1, iovs. split_and!; try done.
    pose proof (wf_length_flat s Hwf). destruct Hwf.
    unfold contents. rewrite Hf1, Hz1. apply take_app_le. lia.
Qed.

Lemma buffers_cover_witness :
  (exists iovs, getReadBuffers filled 9 = Val (iovs, 6) /\
     concat (iov_bytes (m_nodes filled) <$> iovs) = drop 2 (demo_bytes 8)) /\
  exists s' iovs, @getWriteBuffers zero_heap 3 filled = (Val (iovs, 3), s') /\
    Forall (iov_inside (m_baseSize s')) iovs.
Proof.
  destruct (buffers_cover zero_heap filled 9) as [H1 _]; [exact wf_filled|lia|].
  destruct (buffers_cover zero_heap filled 3) as [_ H2]; [exact wf_filled|lia|].
  split.
  - destruct H1 as (iovs & E & H & _); [reflexivity|]. exists iovs. split; [exact E | exact H].
  - destruct H2 as (s' & iovs & E & _ & _ & _ & _ & H); [left; vm_compute; congruence|].
    exists s', iovs. split; [exact E | exact H].
Defined.
