(* ===== verification/ByteArrayCodec.v ===== *)
(** * Typed accessors of the byte buffer (src/myhttp/bytearray.cpp)

    Fixed-width integers, zigzag and 7-bit variable-length integers, floats (as
    their bit patterns), length-prefixed strings, and the file transfer methods,
    defined on the [write] and [read] of ByteArray. Each writer is shown to emit
    a byte string ([emits]) and each reader to consume one ([reads]); a round
    trip is the two facts put together by [emits_reads]. *)
From stdpp Require Import base tactics option list numbers.
From coqutil Require Import Byte Word.LittleEndianList.
From S2P Require Import Prelude Endian ByteArray.

Section Codec.
Context `{heap : Heap} `{host : Host}.

(** ** Fixed-width integers *)

Definition writeFint8 (value : Z) : ST ByteArray unit := write (mem_image 1 value).
Definition writeFuint8 (value : Z) : ST ByteArray unit := write (mem_image 1 value).
Definition writeFint16 (value : Z) : ST ByteArray unit :=
  e ← gets m_endian;
  let value := if decide (e ≠ MYHTTP_BYTE_ORDER) then byteswap_signed 2 value else value in
  write (mem_image 2 value).
Definition writeFuint16 (value : Z) : ST ByteArray unit :=
  e ← gets m_endian;
  let value := if decide (e ≠ MYHTTP_BYTE_ORDER) then byteswap 2 value else value in
  write (mem_image 2 value).
Definition writeFint32 (value : Z) : ST ByteArray unit :=
  e ← gets m_endian;
  let value := if decide (e ≠ MYHTTP_BYTE_ORDER) then byteswap_signed 4 value else value in
  write (mem_image 4 value).
Definition writeFuint32 (value : Z) : ST ByteArray unit :=
  e ← gets m_endian;
  let value := if decide (e ≠ MYHTTP_BYTE_ORDER) then byteswap 4 value else value in
  write (mem_image 4 value).
Definition writeFint64 (value : Z) : ST ByteArray unit :=
  e ← gets m_endian;
  let value := if decide (e ≠ MYHTTP_BYTE_ORDER) then byteswap_signed 8 value else value in
  write (mem_image 8 value).
Definition writeFuint64 (value : Z) : ST ByteArray unit :=
  e ← gets m_endian;
  let value := if decide (e ≠ MYHTTP_BYTE_ORDER) then byteswap 8 value else value in
  write (mem_image 8 value).

Definition readFint8 : ST ByteArray Z := d ← read 1; mret (swrap 8 (mem_value d)).
Definition readFuint8 : ST ByteArray Z := d ← read 1; mret (mem_value d).
(** The macro [XX(type)]: [n] bytes, unsigned and signed. *)
Definition XX_unsigned (n : nat) : ST ByteArray Z :=
  d ← read (Z.of_nat n);
  e ← gets m_endian;
  let v := mem_value d in
  mret (if decide (e = MYHTTP_BYTE_ORDER) then v else byteswap n v).
Definition XX_signed (n : nat) : ST ByteArray Z :=
  d ← read (Z.of_nat n);
  e ← gets m_endian;
  let v := swrap (8 * Z.of_nat n) (mem_value d) in
  mret (if decide (e = MYHTTP_BYTE_ORDER) then v else byteswap_signed n v).
Definition readFint16 : ST ByteArray Z := XX_signed 2.
Definition readFuint16 : ST ByteArray Z := XX_unsigned 2.
Definition readFint32 : ST ByteArray Z := XX_signed 4.
Definition readFuint32 : ST ByteArray Z := XX_unsigned 4.
Definition readFint64 : ST ByteArray Z := XX_signed 8.
Definition readFuint64 : ST ByteArray Z := XX_unsigned 8.

(** ** Zigzag and variable-length integers *)

(** [-v] and [v * 2] are signed: they overflow for the least value, and for values above
    the half of the range. *)
Definition EncodeZigzag32 (v : Z) : res Z :=
  if decide (v < 0) then
    if decide (v = - 2 ^ 31) then Bad SignedOverflow else Val (u32 (u32 (- v) * 2 - 1))
  else if decide (v * 2 < 2 ^ 31) then Val (u32 (v * 2)) else Bad SignedOverflow.
(** As written: the negative branch computes in [uint32_t]. *)
Definition EncodeZigzag64 (v : Z) : res Z :=
  if decide (v < 0) then
    if decide (v = - 2 ^ 63) then Bad SignedOverflow else Val (u32 (u32 (- v) * 2 - 1))
  else if decide (v * 2 < 2 ^ 63) then Val (u64 (v * 2)) else Bad SignedOverflow.
Definition DecodeZigzag32 (v : Z) : Z :=
  s32 (Z.lxor (Z.shiftr v 1) (u32 (- Z.land v 1))).
(** As declared: the result type is [int32_t]. *)
Definition DecodeZigzag64 (v : Z) : Z :=
  s32 (Z.lxor (Z.shiftr v 1) (u64 (- Z.land v 1))).

(** The loop filling [tmp]; [left] is what is left of the array. *)
Fixpoint varint_bytes (left : nat) (value : Z) : res (list byte) :=
  match left with
  | O => Bad OutOfBounds
  | S left' =>
      if decide (value >= 128) then
        rest ← varint_bytes left' (Z.shiftr value 7);
        Val (byte.of_Z (Z.lor (Z.land value 127) 128) :: rest)
      else Val [byte.of_Z value]
  end.

Definition writeUint32 (value : Z) : ST ByteArray unit :=
  tmp ← lift (varint_bytes 5 value); write tmp.
Definition writeInt32 (value : Z) : ST ByteArray unit :=
  v ← lift (EncodeZigzag32 value); writeUint32 v.
Definition writeUint64 (value : Z) : ST ByteArray unit :=
  tmp ← lift (varint_bytes 10 value); write tmp.
Definition writeInt64 (value : Z) : ST ByteArray unit :=
  v ← lift (EncodeZigzag64 value); writeUint64 v.

(** [for(int i = 0; i < w; i += 7)], [n] iterations left, in a [w]-bit result. *)
Fixpoint read_varint (w : Z) (n : nat) (i result : Z) : ST ByteArray Z :=
  match n with
  | O => mret result
  | S n' =>
      b ← readFuint8;
      if decide (b < 128) then mret (Z.lor result (wrap w (Z.shiftl b i)))
      else read_varint w n' (i + 7) (Z.lor result (wrap w (Z.shiftl (Z.land b 127) i)))
  end.

Definition readUint32 : ST ByteArray Z := read_varint 32 5 0 0.
Definition readInt32 : ST ByteArray Z := v ← readUint32; mret (DecodeZigzag32 v).
Definition readUint64 : ST ByteArray Z := read_varint 64 10 0 0.
Definition readInt64 : ST ByteArray Z := v ← readUint64; mret (DecodeZigzag64 v).

(** ** Floats, as bit patterns *)

Definition writeFloat (value : Z) : ST ByteArray unit := writeFuint32 value.
Definition writeDouble (value : Z) : ST ByteArray unit := writeFuint64 value.
Definition readFloat : ST ByteArray Z := readFuint32.
(** As written: [readDouble] reads a [uint32_t]. *)
Definition readDouble : ST ByteArray Z := readFuint32.

(** ** Strings *)

Definition str_size (value : list byte) : Z := Z.of_nat (length value).
Definition writeString16 (value : list byte) : ST ByteArray unit :=
  writeFuint16 (u16 (str_size value));; write value.
Definition writeString32 (value : list byte) : ST ByteArray unit :=
  writeFuint32 (u32 (str_size value));; write value.
Definition writeString64 (value : list byte) : ST ByteArray unit :=
  writeFuint64 (str_size value);; write value.
Definition writeStringVint (value : list byte) : ST ByteArray unit :=
  writeUint64 (str_size value);; write value.
Definition writeStringWithoutLength (value : list byte) : ST ByteArray unit := write value.

Definition readStringF16 : ST ByteArray (list byte) := len ← readFuint16; read len.
Definition readStringF32 : ST ByteArray (list byte) := len ← readFuint32; read len.
Definition readStringF64 : ST ByteArray (list byte) := len ← readFuint64; read len.
(** As written: the length is read with [readFuint64]. *)
Definition readStringVint : ST ByteArray (list byte) := len ← readFuint64; read len.

(** ** Files *)

(** [writeToFile]: the bytes streamed to the opened file. A block is written
  with [ofs.write(cur->ptr + diff, len)], meaningless for a negative [len]. *)
Fixpoint file_loop (s : ByteArray) (fuel : nat) (read_size pos : Z) (cur : option nat)
    (acc : list byte) : res (list byte) :=
  match fuel with
  | O => Bad NoFuel
  | S fuel' =>
      if decide (read_size > 0) then
        if decide (m_baseSize s = 0) then Bad DivByZero else
        let diff := s32 (pos mod m_baseSize s) in
        let len := (if decide (read_size > m_baseSize s) then m_baseSize s else read_size)
                     - diff in
        d ← memcpy_out (m_nodes s) cur diff len;
        cur' ← ptr_next (m_nodes s) cur;
        file_loop s fuel' (read_size - len) (pos + len) cur' (acc ++ d)
      else Val acc
  end.
(** [opened]: whether [ofs.open] succeeded. *)
Definition writeToFile (opened : bool) (s : ByteArray) : res (bool * list byte) :=
  if opened then
    d ← file_loop s (S (length (m_nodes s))) (getReadSize s) (m_position s) (m_cur s) [];
    Val (true, d)
  else Val (false, []).

(** [readFromFile]: [ifs.read] takes [m_baseSize] bytes and sets eof when the
  file has fewer left. *)
Fixpoint load_loop (fuel : nat) (b : nat) (file : list byte) : ST ByteArray unit :=
  match fuel with
  | O => crash NoFuel
  | S fuel' =>
      write (take b file);;
      if decide (length file < b)%nat then mret tt else load_loop fuel' b (drop b file)
  end.
Definition readFromFile (file : option (list byte)) : ST ByteArray bool :=
  match file with
  | None => mret false
  | Some f =>
      b ← gets m_baseSize;
      load_loop (S (length f)) (Z.to_nat b) f;; mret true
  end.
End Codec.

(** ** Emitting and consuming byte strings *)

Section Proofs.
Context `{heap : Heap} `{host : Host}.

(** [m] writes [d] at the cursor when there is room for it. *)
Definition emits (m : ST ByteArray unit) (e : byte_order) (d : list byte) : Prop :=
  forall s, wf s -> m_endian s = e -> room s (Z.of_nat (length d)) ->
  exists s', m s = (Val tt, s') /\ written s d s'.

(** [m] consumes [d] at the cursor and returns [v]. *)
Definition reads {A} (m : ST ByteArray A) (e : byte_order) (d : list byte) (v : A) : Prop :=
  forall s, wf s -> m_endian s = e -> next_bytes s d ->
  m s = (Val v, moved (m_position s + Z.of_nat (length d)) s) /\
  wf (moved (m_position s + Z.of_nat (length d)) s).

(** Write with [w], put the cursor back, read with [r]: [v] comes back and the
  cursor ends where the write left it. *)
Definition roundtrips {A} (s : ByteArray) (w : ST ByteArray unit)
    (r : ST ByteArray A) (v : A) : Prop :=
  exists s1 s2 s3, w s = (Val tt, s1) /\ setPosition (m_position s) s1 = (Val tt, s2) /\
    r s2 = (Val v, s3) /\ m_position s3 = m_position s1 /\ wf s3.

Lemma emits_reads {A} w (r : ST ByteArray A) d v s :
  wf s -> emits w (m_endian s) d -> reads r (m_endian s) d v ->
  (0 < length d)%nat -> room s (Z.of_nat (length d)) -> roundtrips s w r v.
Proof.
  intros Hwf Hw Hr Hd Hroom. destruct (Hw s Hwf eq_refl Hroom) as (s1 & E1 & W).
  destruct (written_next s d s1 Hwf W Hd) as (s2 & E2 & Hwf2 & Hnext & He2 & Hp2 & _).
  destruct (Hr s2 Hwf2 He2 Hnext) as [E3 Hwf3].
  eexists s1, s2, _. split_and!; try done. simpl. rewrite Hp2. symmetry. apply W.
Qed.

Lemma emits_write e d : emits (write d) e d.
Proof. intros s Hwf _ Hroom. by apply write_written. Qed.

Lemma reads_read e d : reads (read (Z.of_nat (length d))) e d d.
Proof. intros s Hwf _ Hn. by apply read_next. Qed.

Lemma emits_endian e d (m : byte_order -> ST ByteArray unit) :
  emits (m e) e d -> emits (e ← gets m_endian; m e) e d.
Proof. intros H s Hwf He Hroom. unfold mbind, st_bind, gets. rewrite He. by apply H. Qed.

(** Reading a fixed-size prefix, then continuing. *)
Lemma reads_bind {A B} (m : ST ByteArray A) (k : A -> ST ByteArray B) e d1 d2 a v :
  (0 < length d2)%nat -> reads m e d1 a -> reads (k a) e d2 v ->
  reads (x ← m; k x) e (d1 ++ d2) v.
Proof.
  intros H2 Hm Hk s Hwf He Hn. destruct (next_bytes_app s d1 d2 Hwf Hn) as [Hn1 Hn2].
  destruct (Hm s Hwf He Hn1) as [E1 Hwf1]. st_step E1.
  destruct Hn as (Hle & _ & _). rewrite length_app in Hle.
  destruct (Hk _ Hwf1 He (Hn2 ltac:(destruct Hwf; lia))) as [E2 Hwf2].
  rewrite E2, length_app. simpl in *.
  rewrite Nat2Z.inj_add, Z.add_assoc. split; [done|]. exact Hwf2.
Qed.

Lemma reads_map {A B} (m : ST ByteArray A) (f : A -> B) e d a :
  reads m e d a -> reads (x ← m; mret (f x)) e d (f a).
Proof. intros Hm s Hwf He Hn. destruct (Hm s Hwf He Hn) as [E1 Hwf1]. by st_step E1. Qed.

Lemma reads_map_endian {A B} (m : ST ByteArray A) (f : A -> byte_order -> B) e d a :
  reads m e d a -> reads (x ← m; e' ← gets m_endian; mret (f x e')) e d (f a e).
Proof.
  intros Hm s Hwf He Hn. destruct (Hm s Hwf He Hn) as [E1 Hwf1]. st_step E1.
  split; [|done]. unfold mbind, st_bind, gets. simpl. by rewrite He.
Qed.

(** ** Fixed-width integers *)

Lemma emits_unsigned e n v :
  emits (e' ← gets m_endian;
         let v' := if decide (e' ≠ MYHTTP_BYTE_ORDER) then byteswap n v else v in
         write (mem_image n v')) e (encode e n v).
Proof.
  apply (emits_endian e _ (fun e' => write (mem_image n
    (if decide (e' ≠ MYHTTP_BYTE_ORDER) then byteswap n v else v)))).
  replace (encode e n v) with (mem_image n (if decide (e ≠ MYHTTP_BYTE_ORDER)
    then byteswap n v else v)); [apply emits_write|].
  unfold mem_image. rewrite <- (encode_bswap MYHTTP_BYTE_ORDER e).
  by destruct e, MYHTTP_BYTE_ORDER.
Qed.

Lemma emits_signed e n v :
  (0 < n)%nat ->
  emits (e' ← gets m_endian;
         let v' := if decide (e' ≠ MYHTTP_BYTE_ORDER) then byteswap_signed n v else v in
         write (mem_image n v')) e (encode e n v).
Proof.
  intros Hn.
  apply (emits_endian e _ (fun e' => write (mem_image n
    (if decide (e' ≠ MYHTTP_BYTE_ORDER) then byteswap_signed n v else v)))).
  replace (encode e n v) with (mem_image n (if decide (e ≠ MYHTTP_BYTE_ORDER)
    then byteswap_signed n v else v)); [apply emits_write|].
  unfold mem_image. case_decide as Hd.
  - destruct e, MYHTTP_BYTE_ORDER; try done; simpl; rewrite byteswap_signed_split by done;
      [apply reverse_involutive|done].
  - by destruct (decide (e = MYHTTP_BYTE_ORDER)) as [->|].
Qed.

Lemma mem_value_encode e n v :
  (if decide (e = MYHTTP_BYTE_ORDER) then mem_value (encode e n v)
   else byteswap n (mem_value (encode e n v))) = wrap (8 * Z.of_nat n) v.
Proof.
  rewrite <- (decode_encode e n v). unfold mem_value, byteswap.
  rewrite <- (decode_bswap MYHTTP_BYTE_ORDER e n) by apply length_encode.
  by destruct e, MYHTTP_BYTE_ORDER.
Qed.

Lemma reads_unsigned e n v :
  reads (XX_unsigned n) e (encode e n v) (wrap (8 * Z.of_nat n) v).
Proof.
  rewrite <- (mem_value_encode e n v). unfold XX_unsigned.
  rewrite <- (length_encode e n v) at 1.
  apply (reads_map_endian _ (fun d e' => let v := mem_value d in
    if decide (e' = MYHTTP_BYTE_ORDER) then v else byteswap n v)), reads_read.
Qed.

Lemma reads_signed e n v :
  (0 < n)%nat -> in_s (8 * Z.of_nat n) v -> reads (XX_signed n) e (encode e n v) v.
Proof.
  intros Hn Hv. unfold XX_signed.
  replace v with (let x := swrap (8 * Z.of_nat n) (mem_value (encode e n v)) in
    if decide (e = MYHTTP_BYTE_ORDER) then x else byteswap_signed n x) at 2.
  - rewrite <- (length_encode e n v) at 1.
    apply (reads_map_endian _ (fun d e' => let v := swrap (8 * Z.of_nat n) (mem_value d) in
      if decide (e' = MYHTTP_BYTE_ORDER) then v else byteswap_signed n v)), reads_read.
  - pose proof (mem_value_encode e n v) as H. cbv zeta. case_decide.
    + rewrite H, swrap_wrap by lia. apply swrap_small; [lia|done].
    + unfold byteswap_signed. unfold byteswap in H.
      rewrite wrap_swrap, bswap_wrap by lia. rewrite H, swrap_wrap by lia. apply swrap_small; [lia|done].
Qed.

(** ** Variable-length integers *)

Lemma low7_lor v : Z.lor (Z.land v 127) (Z.shiftl (Z.shiftr v 7) 7) = v.
Proof.
  change 127 with (Z.ones 7). rewrite <- Z.ldiff_ones_r by lia.
  rewrite Z.lor_comm. apply Z.lor_ldiff_and.
Qed.

Lemma wrap_lor w x y : 0 <= w -> wrap w (Z.lor x y) = Z.lor (wrap w x) (wrap w y).
Proof. intros. unfold wrap. rewrite <- !Z.land_ones by done. apply Z.land_lor_distr_l. Qed.

Lemma continuation_byte v :
  let b := Z.lor (Z.land v 127) 128 in
  128 <= b < 256 /\ Z.land b 127 = Z.land v 127.
Proof.
  assert (0 <= Z.land v 127 < 128).
  { change 127 with (Z.ones 7). rewrite Z.land_ones by lia. apply Z.mod_pos_bound. lia. }
  assert (Z.land (Z.land v 127) 128 = 0) as Hd
    by (rewrite <- Z.land_assoc; apply Z.land_0_r).
  pose proof (Z.add_lor_land (Z.land v 127) 128) as E. rewrite Hd in E.
  cbv zeta. split; [lia|].
  rewrite Z.land_lor_distr_l, <- Z.land_assoc, Z.land_diag. apply Z.lor_0_r.
Qed.

Lemma unsigned_of_Z_small z : 0 <= z < 256 -> byte.unsigned (byte.of_Z z) = z.
Proof. intros. rewrite byte.unsigned_of_Z. by apply Z.mod_small. Qed.

(** [left] bytes hold any value below 2^(7 * left). *)
Lemma varint_bytes_ok left v :
  0 <= v < 2 ^ (7 * Z.of_nat left) -> (0 < left)%nat ->
  exists d, varint_bytes left v = Val d /\ (0 < length d <= left)%nat.
Proof.
  revert v. induction left as [|left IH]; intros v Hv Hl; [lia|]. simpl.
  case_decide as Hge; [|eexists; split; [done|simpl; lia]].
  assert (Hs : 0 <= Z.shiftr v 7 < 2 ^ (7 * Z.of_nat left)).
  { rewrite Z.shiftr_div_pow2 by lia. split; [apply Z.div_pos; lia|].
    apply Z.div_lt_upper_bound; [lia|]. rewrite <- Z.pow_add_r by lia.
    replace (7 + 7 * Z.of_nat left) with (7 * Z.of_nat (S left)) by lia. lia. }
  destruct left as [|left].
  { change (2 ^ (7 * Z.of_nat 1)) with 128 in Hv. lia. }
  destruct (IH _ Hs ltac:(lia)) as (d & E & Hd). rewrite E.
  eexists. split; [done|]. simpl. lia.
Qed.

Lemma reads_readFuint8 e b : reads readFuint8 e [b] (byte.unsigned b).
Proof.
  unfold readFuint8. replace (byte.unsigned b) with (mem_value [b]).
  - apply (reads_map _ mem_value), (reads_read e [b]).
  - unfold mem_value, decode. destruct MYHTTP_BYTE_ORDER; apply le_combine_1.
Qed.

Lemma reads_varint e w n v d i r :
  0 < w -> 0 <= v -> 0 <= i -> varint_bytes n v = Val d ->
  reads (read_varint w n i r) e d (Z.lor r (wrap w (Z.shiftl v i))).
Proof.
  intros Hw. revert v d i r. induction n as [|n IH]; intros v d i r Hv Hi Hd; [done|].
  simpl in *. case_decide as Hge; simplify_eq/=.
  - destruct (varint_bytes n _) as [rest| |] eqn:E; simplify_eq/=.
    destruct (continuation_byte v) as [Hb Hlow].
    replace (Z.lor r (wrap w (Z.shiftl v i)))
      with (Z.lor (Z.lor r (wrap w (Z.shiftl (Z.land v 127) i)))
                  (wrap w (Z.shiftl (Z.shiftr v 7) (i + 7)))).
    2: { rewrite <- Z.lor_assoc, <- wrap_lor by lia. do 2 f_equal.
         rewrite <- (low7_lor v) at 3. rewrite Z.shiftl_lor, Z.shiftl_shiftl by lia.
         do 2 f_equal. lia. }
    apply (reads_bind _ _ e [byte.of_Z (Z.lor (Z.land v 127) 128)] rest
      (byte.unsigned (byte.of_Z (Z.lor (Z.land v 127) 128)))).
    + destruct n; [done|]. simpl in E. case_decide; simplify_eq/=; [|lia].
      destruct (varint_bytes n _); simplify_eq/=. lia.
    + apply reads_readFuint8.
    + rewrite unsigned_of_Z_small by lia. rewrite decide_False by lia.
      rewrite Hlow. apply IH; try done; try lia. by apply Z.shiftr_nonneg.
  - intros s Hwf He Hn.
    destruct (reads_readFuint8 e (byte.of_Z v) s Hwf He Hn) as [E Hwf'].
    st_step E. rewrite unsigned_of_Z_small by lia. by rewrite decide_True by lia.
Qed.

(** A value that fits the result type is read back unchanged. *)
Lemma reads_varint_value e w n v d :
  0 < w -> in_u w v -> varint_bytes n v = Val d -> reads (read_varint w n 0 0) e d v.
Proof.
  intros Hw Hv Hd. pose proof (reads_varint e w n v d 0 0 Hw ltac:(unfold in_u in *; lia)
    ltac:(lia) Hd) as H.
  by rewrite Z.shiftl_0_r, Z.lor_0_l, wrap_small in H.
Qed.

(** The bytes of a 32-bit and of a 64-bit value, and that they fit [tmp]. *)
Lemma varint32_ok v : in_u 32 v ->
  exists d, varint_bytes 5 v = Val d /\ (0 < length d <= 5)%nat.
Proof. intros H. apply varint_bytes_ok; [|lia]. unfold in_u in *. simpl. lia. Qed.
Lemma varint64_ok v : in_u 64 v ->
  exists d, varint_bytes 10 v = Val d /\ (0 < length d <= 10)%nat.
Proof. intros H. apply varint_bytes_ok; [|lia]. unfold in_u in *. simpl. lia. Qed.

Lemma emits_varint e n v d :
  varint_bytes n v = Val d -> emits (tmp ← lift (varint_bytes n v); write tmp) e d.
Proof. intros H s Hwf _ Hr. unfold mbind, st_bind, lift. rewrite H. by apply write_written. Qed.

Lemma emits_lift {A} (r : res A) x (k : A -> ST ByteArray unit) e d :
  r = Val x -> emits (k x) e d -> emits (y ← lift r; k y) e d.
Proof. intros -> H s. exact (H s). Qed.

(** ** Zigzag *)

Lemma lxor_m1_u w x : 0 <= w -> in_u w x -> Z.lxor x (2 ^ w - 1) = 2 ^ w - 1 - x.
Proof.
  intros Hw Hx. replace (2 ^ w - 1) with (Z.ones w) by (rewrite Z.ones_equiv; lia).
  pose proof (Z.add_nocarry_lxor x (Z.lxor x (Z.ones w))) as H.
  rewrite <- Z.lxor_assoc, Z.lxor_nilpotent, Z.lxor_0_l in H.
  enough (Z.land x (Z.lxor x (Z.ones w)) = 0) by lia.
  clear H. apply Z.bits_inj'. intros i Hi.
  rewrite Z.land_spec, Z.lxor_spec, Z.bits_0.
  destruct (Z.ltb_spec i w).
  - rewrite Z.ones_spec_low by lia. by destruct (Z.testbit x i).
  - rewrite <- (wrap_small w x Hx). unfold wrap.
    by rewrite Z.mod_pow2_bits_high by lia.
Qed.

Lemma DecodeZigzag32_even k : 0 <= k < 2 ^ 31 -> DecodeZigzag32 (2 * k) = k.
Proof.
  intros Hk. unfold DecodeZigzag32.
  rewrite Z.shiftr_div_pow2, Z.mul_comm, Z.div_mul by lia.
  replace (Z.land (k * 2) 1) with 0.
  - change (u32 (- 0)) with 0. rewrite Z.lxor_0_r. apply swrap_small; [lia|].
    unfold in_s. simpl. lia.
  - change 1 with (Z.ones 1). rewrite Z.land_ones by lia. by rewrite Z.mod_mul by lia.
Qed.

Lemma DecodeZigzag32_odd k : 0 <= k < 2 ^ 31 -> DecodeZigzag32 (2 * k + 1) = - k - 1.
Proof.
  intros Hk. unfold DecodeZigzag32.
  replace (Z.shiftr (2 * k + 1) 1) with k
    by (rewrite Z.shiftr_div_pow2 by lia; apply Z.div_unique with 1; lia).
  replace (Z.land (2 * k + 1) 1) with 1.
  - change (u32 (- (1))) with (2 ^ 32 - 1). rewrite lxor_m1_u by (unfold in_u; lia).
    rewrite <- (swrap_small 32 (- k - 1)) by (unfold in_s; simpl; lia).
    rewrite <- (swrap_wrap 32 (_ - k)), <- (swrap_wrap 32 (- k - 1)) by lia. f_equal.
    unfold wrap. replace (2 ^ 32 - 1 - k) with (- k - 1 + 1 * 2 ^ 32) by lia.
    by rewrite Z.mod_add by lia.
  - change 1 with (Z.ones 1) at 3. rewrite Z.land_ones by lia.
    apply Z.mod_unique with k; lia.
Qed.

(** Zigzag maps 32-bit signed values to unsigned ones, small absolute values
  to small results, and decoding undoes it. *)
Definition zigzag (v : Z) : Z := if decide (v < 0) then - 2 * v - 1 else 2 * v.
Lemma zigzag32_roundtrip v :
  in_s 32 v -> in_u 32 (zigzag v) /\ DecodeZigzag32 (zigzag v) = v.
Proof.
  unfold in_s, in_u, zigzag. simpl. intros Hv. case_decide; split_and!; try lia.
  - replace (- 2 * v - 1) with (2 * (- v - 1) + 1) by lia.
    rewrite DecodeZigzag32_odd by lia. lia.
  - apply DecodeZigzag32_even. lia.
Qed.

Lemma EncodeZigzag32_val v :
  in_s 32 v -> EncodeZigzag32 v =
    if decide (- 2 ^ 31 < v < 2 ^ 30) then Val (zigzag v) else Bad SignedOverflow.
Proof.
  unfold in_s, EncodeZigzag32, zigzag. simpl. intros Hv.
  repeat case_decide; try lia; try done; f_equal;
    rewrite ?(wrap_small 32 (- v)) by (unfold in_u; lia); rewrite wrap_small by (unfold in_u; lia); lia.
Qed.

Lemma EncodeZigzag64_val v :
  - 2 ^ 63 < v < 2 ^ 62 -> exists u, EncodeZigzag64 v = Val u /\ in_u 64 u /\ (in_s 32 v -> u = zigzag v).
Proof.
  unfold in_s, EncodeZigzag64, zigzag. simpl. intros Hv. repeat case_decide; try lia.
  - eexists. split; [done|]. split.
    + pose proof (wrap_range 32 (u32 (- v) * 2 - 1)). unfold in_u in *. simpl in *. lia.
    + intros H32. rewrite (wrap_small 32 (- v)) by (unfold in_u; lia).
      rewrite wrap_small by (unfold in_u; lia). lia.
  - eexists. split; [done|]. split; [by apply wrap_range|]. intros _.
    rewrite wrap_small by (unfold in_u; lia). lia.
Qed.
End Proofs.

(** The eight fixed-width types of the interface. *)
Inductive fixed :=
  | Fint8 | Fuint8 | Fint16 | Fuint16 | Fint32 | Fuint32 | Fint64 | Fuint64.

Definition fixed_bytes (t : fixed) : nat :=
  match t with
  | Fint8 | Fuint8 => 1 | Fint16 | Fuint16 => 2
  | Fint32 | Fuint32 => 4 | Fint64 | Fuint64 => 8
  end.
Definition fixed_range (t : fixed) (v : Z) : Prop :=
  match t with
  | Fint8 | Fint16 | Fint32 | Fint64 => in_s (8 * Z.of_nat (fixed_bytes t)) v
  | _ => in_u (8 * Z.of_nat (fixed_bytes t)) v
  end.

Section FixedOps.
Context `{heap : Heap} `{host : Host}.
Definition writeF (t : fixed) : Z -> ST ByteArray unit :=
  match t with
  | Fint8 => writeFint8 | Fuint8 => writeFuint8
  | Fint16 => writeFint16 | Fuint16 => writeFuint16
  | Fint32 => writeFint32 | Fuint32 => writeFuint32
  | Fint64 => writeFint64 | Fuint64 => writeFuint64
  end.
Definition readF (t : fixed) : ST ByteArray Z :=
  match t with
  | Fint8 => readFint8 | Fuint8 => readFuint8
  | Fint16 => readFint16 | Fuint16 => readFuint16
  | Fint32 => readFint32 | Fuint32 => readFuint32
  | Fint64 => readFint64 | Fuint64 => readFuint64
  end.

Lemma fixed_bytes_pos t : (0 < fixed_bytes t)%nat.
Proof. destruct t; simpl; lia. Qed.

Lemma encode_1 e v : encode e 1 v = mem_image 1 v.
Proof. unfold mem_image. by destruct e, MYHTTP_BYTE_ORDER. Qed.

(** Each writer is one [write] of the image of the value. *)
Lemma writeF_write t v s : exists d, length d = fixed_bytes t /\ writeF t v s = write d s.
Proof.
  destruct t; cbn [writeF fixed_bytes];
    unfold writeFint8, writeFuint8, writeFint16, writeFuint16, writeFint32, writeFuint32, writeFint64, writeFuint64;
    rewrite ?gets_bind; eexists; (split; [|reflexivity]); apply length_encode.
Qed.

Lemma emits_fixed t e v : emits (writeF t v) e (encode e (fixed_bytes t) v).
Proof.
  destruct t; simpl fixed_bytes; simpl writeF;
    try (apply emits_unsigned); try (apply emits_signed; lia);
    rewrite encode_1; apply emits_write.
Qed.

Lemma mem_value_1 e v : mem_value (encode e 1 v) = wrap 8 v.
Proof. rewrite encode_1. unfold mem_value, mem_image. by rewrite decode_encode. Qed.

Lemma reads_1 e v : reads (read 1) e (encode e 1 v) (encode e 1 v).
Proof.
  pose proof (reads_read e (encode e 1 v)) as H. by rewrite length_encode in H.
Qed.

Lemma reads_fixed t e v : fixed_range t v -> reads (readF t) e (encode e (fixed_bytes t) v) v.
Proof.
  assert (Hu : forall n, in_u (8 * Z.of_nat n) v ->
    reads (XX_unsigned n) e (encode e n v) v).
  { intros n H. rewrite <- (wrap_small _ _ H) at 2. apply reads_unsigned. }
  destruct t; simpl; intros H; try (by apply Hu); try (by apply reads_signed; [lia|]).
  - unfold readFint8. rewrite <- (swrap_small 8 v) at 2; [|lia|exact H].
    rewrite <- (swrap_wrap 8 v), <- (mem_value_1 e v) by lia.
    apply (reads_map _ (fun d => swrap 8 (mem_value d)) e), reads_1.
  - unfold readFuint8. rewrite <- (wrap_small 8 v) at 2; [|exact H].
    rewrite <- (mem_value_1 e v). apply (reads_map _ mem_value e), reads_1.
Qed.
End FixedOps.

Section Strings.
Context `{heap : Heap} `{host : Host}.

Lemma room_fits s n : n <= getCapacity s -> room s n.
Proof. by left. Qed.

(** A length prefix and a string: written, then read back. The cursor must not
  reach the end of the capacity, or the empty string could not be read. *)
Lemma prefixed_roundtrip s w r d value :
  wf s -> emits w (m_endian s) d -> reads r (m_endian s) d (str_size value) ->
  (0 < length d)%nat -> Z.of_nat (length d) + str_size value < getCapacity s ->
  roundtrips s (w;; write value) (len ← r; read len) value.
Proof.
  unfold str_size. intros Hwf Hw Hr Hd Hcap.
  destruct (Hw s Hwf eq_refl) as (s1 & E1 & W1); [apply room_fits; lia|].
  destruct (write_written value s1 (wr_wf _ _ _ W1)) as (s2 & E2 & W2).
  { apply room_fits. destruct W1. unfold getCapacity in *. lia. }
  pose proof (written_app _ _ _ _ _ Hwf W1 W2) as W.
  destruct (written_next s (d ++ value) s2 Hwf W) as (s3 & E3 & Hwf3 & Hn & He & Hp & Hk);
    [rewrite length_app; lia|].
  assert (Hcap3 : m_position s3 + Z.of_nat (length d) < m_capacity s3).
  { rewrite Hp, Hk. destruct W1, W2. unfold getCapacity in *. lia. }
  destruct (next_bytes_app s3 d value Hwf3 Hn) as [Hn1 Hn2].
  destruct (Hr s3 Hwf3 He Hn1) as [E4 Hwf4]. specialize (Hn2 Hcap3).
  destruct (read_next _ value Hwf4 Hn2) as [E5 Hwf5].
  exists s2, s3. eexists. split; [by st_step E1|]. split; [done|].
  split; [st_step E4; exact E5|]. split; [|done].
  simpl. rewrite Hp. destruct W1, W2. lia.
Qed.
End Strings.

(** ** Files *)

Section Files.
Context `{heap : Heap}.

Lemma file_loop_ns s s' fuel n pos cur acc :
  m_nodes s = m_nodes s' -> m_baseSize s = m_baseSize s' ->
  file_loop s fuel n pos cur acc = file_loop s' fuel n pos cur acc.
Proof.
  intros Hns Hb. revert n pos cur acc. induction fuel as [|fuel IH]; intros; [done|].
  simpl. rewrite Hns, Hb. repeat case_decide; try done;
    unfold mbind, res_bind; destruct (memcpy_out _ _ _ _); try done;
    destruct (ptr_next _ _); try done; apply IH.
Qed.

Lemma file_loop_spec fuel s i npos n acc :
  at_block s i npos -> 0 < n -> npos = 0 \/ m_baseSize s <= n ->
  m_baseSize s < 2 ^ 31 ->
  m_position s + n <= Z.of_nat (length (m_nodes s)) * m_baseSize s ->
  (length (m_nodes s) - i < fuel)%nat ->
  file_loop s fuel n (m_position s) (Some i) acc =
    Val (acc ++ slice (flat s) (Z.to_nat (m_position s)) (Z.to_nat n)).
Proof.
  revert s i npos n acc. induction fuel as [|fuel IH];
    intros s i npos n acc Hab Hn Hal H31 Hroom Hf; [lia|].
  pose proof Hab as [Hb Hok Hc Hi Hnp Hp]. simpl.
  rewrite decide_True, decide_False by lia.
  assert (Hmod : m_position s mod m_baseSize s = npos)
    by (symmetry; apply Z.mod_unique with (Z.of_nat i); lia).
  rewrite Hmod, (swrap_small 32) by (unfold in_s; simpl; lia).
  set (len := _ - npos). assert (Hlen : 0 < len <= n /\ npos + len <= m_baseSize s /\
    (len < n -> npos + len = m_baseSize s)) by (unfold len; case_decide; lia).
  clearbody len. rewrite memcpy_out_ok, <- Hp by (done || lia).
  simpl.
  destruct (decide (len = n)) as [->|Hne].
  - destruct fuel as [|fuel]; [lia|]. simpl. by rewrite decide_False by lia.
  - assert (Hnext : (S i < length (m_nodes s))%nat) by nia.
    assert (Hno : next_of (m_nodes s) i = Some (S i)) by by apply decide_True.
    pose proof (at_block_next s i npos Hab Hnext) as Hab2.
    replace (m_baseSize s - npos) with len in Hab2 by lia.
    rewrite Hno. match type of Hab2 with at_block ?x _ _ => set (s2 := x) in * end.
    rewrite (file_loop_ns s s2) by done.
    change (m_position s + len) with (m_position s2).
    rewrite (IH s2 (S i) 0); try done; simpl; try lia.
    rewrite <- app_assoc. do 2 f_equal. change (flat s2) with (flat s).
    replace (Z.to_nat n) with (Z.to_nat len + Z.to_nat (n - len))%nat by lia.
    rewrite slice_app. do 2 f_equal. lia.
Qed.
End Files.

(** ** Properties *)

(** C10: fixed-width integers, on a buffer in which [addCapacity] can make room for the
    value. A writer emits the [n] bytes of the value in the
    buffer's byte order (whatever the host's), and the reader of the same type
    gives the value back and leaves the cursor where the writer left it. Without that room
    (the missing bytes fill no whole number of blocks, and their remainder fits into
    the room left) the writer follows a null pointer. *)
Theorem fixed_width_roundtrip (heap : Heap) (host : Host) s t v :
  wf s -> fixed_range t v ->
  if decide (room s (Z.of_nat (fixed_bytes t))) then
    (exists s', writeF t v s = (Val tt, s') /\
       contents s' = splice (contents s) (Z.to_nat (m_position s))
                       (encode (m_endian s) (fixed_bytes t) v)) /\
    roundtrips s (writeF t v) (readF t) v
  else exists s', writeF t v s = (Bad NullDeref, s').
Proof.
  intros Hwf Hv. case_decide as Hr.
  - rewrite <- (length_encode (m_endian s) _ v) in Hr. split.
    + destruct (emits_fixed t (m_endian s) v s Hwf eq_refl Hr) as (s' & E & []). eauto.
    + eapply emits_reads; eauto using emits_fixed, reads_fixed.
      rewrite length_encode. apply fixed_bytes_pos.
  - destruct (writeF_write t v s) as (d & Hd & ->). pose proof (write_cases d s Hwf) as H.
    by rewrite Hd, decide_False in H.
Qed.

Lemma fixed_width_roundtrip_witness :
  roundtrips filled (@writeF zero_heap MYHTTP_LITTLE_ENDIAN Fint32 (-7))
    (@readF MYHTTP_LITTLE_ENDIAN Fint32) (-7).
Proof.
  pose proof (fixed_width_roundtrip zero_heap MYHTTP_LITTLE_ENDIAN filled Fint32 (-7) wf_filled) as H.
  rewrite decide_True in H by (left; vm_compute; intros E; discriminate E).
  apply H. vm_compute. split; [intros E; discriminate E|reflexivity].
Defined.

(** C11: variable-length integers, on a buffer with at least five (ten) bytes of capacity
    left. Every 32- and 64-bit unsigned value survives a round trip, in at most five
    (ten) bytes: the array of the writer is never overrun. So does, through zigzag, every
    32-bit signed value above -2^31 and below 2^30; for the others the encoder overflows. *)
Theorem varint_roundtrip (heap : Heap) (host : Host) s v :
  wf s ->
  (in_u 32 v -> 5 <= getCapacity s -> roundtrips s (writeUint32 v) readUint32 v) /\
  (in_s 32 v -> 5 <= getCapacity s ->
   if decide (- 2 ^ 31 < v < 2 ^ 30) then roundtrips s (writeInt32 v) readInt32 v
   else writeInt32 v s = (Bad SignedOverflow, s)) /\
  (in_u 64 v -> 10 <= getCapacity s -> roundtrips s (writeUint64 v) readUint64 v).
Proof.
  intros Hwf. split_and!; intros Hv Hcap.
  - destruct (varint32_ok v Hv) as (d & E & Hd).
    apply (emits_reads _ _ d); [done|by apply emits_varint| |lia|left; lia].
    by apply reads_varint_value with (n := 5%nat).
  - destruct (zigzag32_roundtrip v Hv) as (Hu & Hz). pose proof (EncodeZigzag32_val v Hv) as He.
    case_decide; [|unfold writeInt32, mbind, st_bind, lift; by rewrite He].
    destruct (varint32_ok _ Hu) as (d & E & Hd).
    apply (emits_reads _ _ d); [done| | |lia|left; lia].
    + apply (emits_lift _ (zigzag v)); [done|]. by apply emits_varint.
    + rewrite <- Hz. apply (reads_map _ DecodeZigzag32).
      by apply reads_varint_value with (n := 5%nat).
  - destruct (varint64_ok v Hv) as (d & E & Hd).
    apply (emits_reads _ _ d); [done|by apply emits_varint| |lia|left; lia].
    by apply reads_varint_value with (n := 10%nat).
Qed.

Lemma varint_roundtrip_witness :
  roundtrips (@ByteArray_new zero_heap 16) (@writeInt32 zero_heap (-300))
    (@readInt32 MYHTTP_BIG_ENDIAN) (-300).
Proof.
  destruct (varint_roundtrip zero_heap MYHTTP_BIG_ENDIAN (@ByteArray_new zero_heap 16) (-300))
    as (_ & H & _); [apply wf_new; lia|].
  rewrite decide_True in H by lia. apply H.
  - vm_compute. split; [intros E; discriminate E|reflexivity].
  - vm_compute. intros E; discriminate E.
Defined.

(** [writeInt64]/[readInt64] are not inverse outside 32 bits: what comes
    back is always a 32-bit value, since [EncodeZigzag64] negates in [uint32_t]
    and [DecodeZigzag64] returns [int32_t]. *)
Theorem int64_truncated (heap : Heap) (host : Host) s v :
  wf s -> - 2 ^ 63 < v < 2 ^ 62 -> 10 <= getCapacity s ->
  exists v', roundtrips s (writeInt64 v) readInt64 v' /\ in_s 32 v' /\
    (in_s 32 v -> v' = v).
Proof.
  intros Hwf Hv Hcap. destruct (EncodeZigzag64_val v Hv) as (u & He & Hu & Hz).
  exists (DecodeZigzag64 u). split_and!.
  - destruct (varint64_ok _ Hu) as (d & E & Hd).
    apply (emits_reads _ _ d); [done| | |lia|left; lia].
    + apply (emits_lift _ u); [done|]. by apply emits_varint.
    + apply (reads_map _ DecodeZigzag64). by apply reads_varint_value with (n := 10%nat).
  - by apply swrap_range.
  - intros H32. destruct (zigzag32_roundtrip v H32) as (_ & Hd). rewrite (Hz H32).
    rewrite <- Hd at 2. unfold DecodeZigzag32, DecodeZigzag64.
    rewrite <- (swrap_wrap 32 (Z.lxor _ (u64 _))), <- (swrap_wrap 32 (Z.lxor _ (u32 _))) by lia.
    f_equal. unfold wrap. rewrite <- !Z.land_ones by lia.
    apply Z.bits_inj'. intros i Hi. rewrite !Z.land_spec, !Z.lxor_spec, !Z.land_spec.
    destruct (Z.ltb_spec i 32); [|rewrite !(Z.ones_spec_high 32) by lia; by rewrite !andb_false_r].
    rewrite !Z.ones_spec_low by lia. done.
Qed.

Lemma int64_truncated_witness :
  exists v', roundtrips (@ByteArray_new zero_heap 16) (@writeInt64 zero_heap (2 ^ 40))
    (@readInt64 MYHTTP_BIG_ENDIAN) v' /\ in_s 32 v'.
Proof.
  destruct (int64_truncated zero_heap MYHTTP_BIG_ENDIAN (@ByteArray_new zero_heap 16) (2 ^ 40))
    as (v' & H & H' & _).
  - apply wf_new. lia.
  - lia.
  - vm_compute. intros E; discriminate E.
  - exists v'. split; [exact H | exact H'].
Defined.

(** strings with a 16-, 32- or 64-bit length, the empty one included, are
    read back as written, when the length fits the prefix and the string ends
    inside the capacity. *)
Theorem string_roundtrip (heap : Heap) (host : Host) s value :
  wf s ->
  (str_size value < 2 ^ 16 -> 2 + str_size value < getCapacity s ->
   roundtrips s (writeString16 value) readStringF16 value) /\
  (str_size value < 2 ^ 32 -> 4 + str_size value < getCapacity s ->
   roundtrips s (writeString32 value) readStringF32 value) /\
  (str_size value < 2 ^ 64 -> 8 + str_size value < getCapacity s ->
   roundtrips s (writeString64 value) readStringF64 value).
Proof.
  assert (Hn : 0 <= str_size value) by (unfold str_size; lia).
  intros Hwf. split_and!; intros Hlen Hcap.
  - assert (Hu : in_u 16 (str_size value)) by (split; [done|exact Hlen]).
    unfold writeString16. rewrite (wrap_small 16) by done.
    eapply prefixed_roundtrip; [done|apply (emits_fixed Fuint16)|by apply (reads_fixed Fuint16)| |];
      rewrite length_encode; simpl; lia.
  - assert (Hu : in_u 32 (str_size value)) by (split; [done|exact Hlen]).
    unfold writeString32. rewrite (wrap_small 32) by done.
    eapply prefixed_roundtrip; [done|apply (emits_fixed Fuint32)|by apply (reads_fixed Fuint32)| |];
      rewrite length_encode; simpl; lia.
  - assert (Hu : in_u 64 (str_size value)) by (split; [done|exact Hlen]).
    eapply prefixed_roundtrip; [done|apply (emits_fixed Fuint64)|by apply (reads_fixed Fuint64)| |];
      rewrite length_encode; simpl; lia.
Qed.

Lemma string_roundtrip_witness :
  roundtrips (@ByteArray_new zero_heap 16)
    (@writeString32 zero_heap MYHTTP_LITTLE_ENDIAN (demo_bytes 9))
    (@readStringF32 MYHTTP_LITTLE_ENDIAN) (demo_bytes 9).
Proof.
  destruct (string_roundtrip zero_heap MYHTTP_LITTLE_ENDIAN (@ByteArray_new zero_heap 16)
    (demo_bytes 9)) as (_ & H & _); [apply wf_new; lia|].
  apply H; reflexivity.
Defined.

(** [writeToFile] writes exactly the unread bytes when the cursor is at the
    start of a block, or a whole block is left to read; it never loops. *)
Theorem writeToFile_unread (heap : Heap) s :
  wf s -> m_baseSize s < 2 ^ 31 ->
  m_position s mod m_baseSize s = 0 \/ m_baseSize s <= getReadSize s ->
  writeToFile true s =
    Val (true, slice (contents s) (Z.to_nat (m_position s)) (Z.to_nat (getReadSize s))).
Proof.
  intros Hwf H31 Hal. pose proof Hwf as [Hb Hok Hr Hcap Hpos Hsize Hcur].
  unfold writeToFile. destruct (decide (getReadSize s <= 0)) as [Hz|Hz].
  - assert (getReadSize s = 0) as -> by (unfold getReadSize in *; lia). simpl.
    rewrite ?decide_False by lia. unfold slice. by rewrite take_0.
  - unfold getReadSize in *. destruct (wf_at_block s Hwf ltac:(lia)) as (i & Hab).
    rewrite (ab_cur _ _ _ Hab).
    rewrite (file_loop_spec _ s i _ _ _ Hab) by (done || lia). simpl. do 2 f_equal.
    symmetry. apply slice_contents; (done || lia).
Qed.

Lemma writeToFile_unread_witness :
  writeToFile true filled = Val (true, drop 2 (demo_bytes 8)).
Proof.
  rewrite (writeToFile_unread zero_heap filled); [reflexivity|exact wf_filled| |].
  - vm_compute. reflexivity.
  - right. vm_compute. intros E; discriminate E.
Defined.
