(* ===== verification/OrdSet.v ===== *)
(** * Ordered containers ([std::set], [std::map]) as sorted lists

    The containers of the program are ordered by a comparison functor. An
    element [e] has a key [key e]; a set has [key = id], a map has pairs and
    [key = fst]. The functions are the container's operations, defined from the
    comparison alone as the standard defines them: two keys are equivalent when
    neither is less than the other. The lemmas need the comparison to be a strict
    weak ordering ([StrictWeak]), which each component proves of its functor. *)
From stdpp Require Import base tactics option list sorting numbers.
From S2P Require Import Prelude.

Class StrictWeak {K} (lt : K -> K -> bool) : Prop := {
  sw_irrefl : forall x, lt x x = false;
  sw_trans : forall x y z, lt x y = true -> lt y z = true -> lt x z = true;
  sw_incomp : forall x y z, lt x y = false -> lt y z = false -> lt x z = false
}.

Section Ops.
Context {K T : Type} (lt : K -> K -> bool) (key : T -> K).

(** The elements before and from the first one that satisfies [p]. *)
Fixpoint split_at (p : T -> bool) (l : list T) : list T * list T :=
  match l with
  | [] => ([], [])
  | e :: l' =>
      if p e then ([], l)
      else let '(a, b) := split_at p l' in (e :: a, b)
  end.

Definition lower_bound (k : K) (l : list T) := split_at (fun e => negb (lt (key e) k)) l.
Definition upper_bound (k : K) (l : list T) := split_at (fun e => lt k (key e)) l.

(** [find(k)]: [None] is [end()]. *)
Definition set_find (k : K) (l : list T) : option T :=
  match snd (lower_bound k l) with
  | e :: _ => if lt k (key e) then None else Some e
  | [] => None
  end.

(** [insert(e)]: an equivalent element is kept. *)
Definition set_insert (e : T) (l : list T) : list T :=
  let '(a, b) := lower_bound (key e) l in
  match b with
  | e' :: _ => if lt (key e) (key e') then a ++ e :: b else l
  | [] => a ++ [e]
  end.

(** [erase(k)], and [erase(find(k))] where the element is there. *)
Definition set_erase (k : K) (l : list T) : list T :=
  let '(a, b) := lower_bound k l in
  match b with
  | e :: b' => if lt k (key e) then l else a ++ b'
  | [] => l
  end.

Definition key_lt (x y : T) : Prop := lt (key x) (key y) = true.
Definition ordered (l : list T) : Prop := StronglySorted key_lt l.
End Ops.

(** [operator[]] of a map followed by an assignment: the old key is kept. *)
Definition map_assign {K V} (lt : K -> K -> bool) (k : K) (v : V) (l : list (K * V)) :
    list (K * V) :=
  let '(a, b) := lower_bound lt fst k l in
  match b with
  | (k', v') :: b' => if lt k k' then a ++ (k, v) :: b else a ++ (k', v) :: b'
  | [] => a ++ [(k, v)]
  end.

Section Laws.
Context {K T : Type} (lt : K -> K -> bool) (key : T -> K) `{!StrictWeak lt}.
Local Abbreviation ord := (ordered lt key).
Local Abbreviation klt := (key_lt lt key).

(** Keys that neither precedes the other are the same to the container. *)
Definition equiv_key (x y : K) : Prop := lt x y = false /\ lt y x = false.

Lemma sw_asym x y : lt x y = true -> lt y x = false.
Proof.
  intros H. destruct (lt y x) eqn:E; [|done].
  pose proof (sw_trans _ _ _ H E) as H'. by rewrite sw_irrefl in H'.
Qed.

(** less-than composed with not-greater is less-than *)
Lemma sw_lt_le x y z : lt x y = true -> lt z y = false -> lt x z = true.
Proof.
  intros H1 H2. destruct (lt x z) eqn:E; [done|].
  by rewrite (sw_incomp _ _ _ E H2) in H1.
Qed.
Lemma sw_le_lt x y z : lt y x = false -> lt y z = true -> lt x z = true.
Proof.
  intros H1 H2. destruct (lt x z) eqn:E; [done|].
  by rewrite (sw_incomp _ _ _ H1 E) in H2.
Qed.

Lemma split_at_app p (l : list T) : fst (split_at p l) ++ snd (split_at p l) = l.
Proof.
  induction l as [|e l IH]; [done|]. simpl. destruct (p e); [done|].
  destruct (split_at p l). simpl in *. by rewrite IH.
Qed.

Lemma split_at_fst p (l : list T) e : e ∈ fst (split_at p l) -> p e = false.
Proof.
  induction l as [|e' l IH]; simpl; [by intros ?%elem_of_nil|].
  destruct (p e') eqn:Ep; [by intros ?%elem_of_nil|].
  destruct (split_at p l). simpl in *. intros [->|H]%elem_of_cons; [done|by apply IH].
Qed.

Lemma split_at_snd p (l : list T) e b : snd (split_at p l) = e :: b -> p e = true.
Proof.
  induction l as [|e' l IH]; simpl; [done|].
  destruct (p e') eqn:Ep; [by intros [= -> ->]|].
  destruct (split_at p l). by simpl in *.
Qed.

Lemma ordered_app_inv a b :
  ord (a ++ b) -> ord a /\ ord b /\ forall x y, x ∈ a -> y ∈ b -> klt x y.
Proof.
  unfold ordered. induction a as [|e a IH]; simpl.
  - intros H. split_and!; [constructor|done|]. by intros x y ?%elem_of_nil.
  - intros [Hs Hf]%StronglySorted_inv. destruct (IH Hs) as (Ha & Hb & Hab).
    apply Forall_app in Hf as [Hfa Hfb]. split_and!; [by constructor|done|].
    intros x y [->|Hx]%elem_of_cons Hy; [|by auto].
    by apply (proj1 (list.Forall_forall _ _) Hfb).
Qed.

Lemma ordered_app a b :
  ord a -> ord b -> (forall x y, x ∈ a -> y ∈ b -> klt x y) -> ord (a ++ b).
Proof.
  unfold ordered. induction a as [|e a IH]; intros Ha Hb Hab; [done|].
  apply StronglySorted_inv in Ha as [Ha Hf]. simpl. constructor.
  - apply IH; try done. intros x y Hx. apply Hab. by right.
  - apply Forall_app. split; [done|]. apply list.Forall_forall. intros y Hy.
    apply Hab; [by left|done].
Qed.

(** Splitting an ordered list at a key: everything before is less than the key,
  everything from there on is not. *)
Lemma lower_bound_spec k l a b :
  ord l -> lower_bound lt key k l = (a, b) ->
  l = a ++ b /\ (forall e, e ∈ a -> lt (key e) k = true) /\
  (forall e, e ∈ b -> lt (key e) k = false).
Proof.
  intros Ho E. unfold lower_bound in E. set (p := fun e : T => negb (lt (key e) k)) in E.
  pose proof (split_at_app p l) as Happ. rewrite E in Happ. simpl in Happ.
  split_and!; [done| |].
  - intros e He. pose proof (split_at_fst p l e) as H. rewrite E in H.
    specialize (H He). unfold p in H. by destruct (lt (key e) k).
  - intros e He. destruct b as [|e' b']; [by apply elem_of_nil in He|].
    pose proof (split_at_snd p l e' b') as H. rewrite E in H. specialize (H eq_refl).
    unfold p in H. apply negb_true_iff in H.
    apply elem_of_cons in He as [->|He]; [done|].
    rewrite <- Happ in Ho. apply ordered_app_inv in Ho as (_ & Hb & _).
    apply StronglySorted_inv in Hb as [_ Hf].
    pose proof (proj1 (list.Forall_forall _ _) Hf e He) as Hlt. simpl in Hlt.
    apply sw_incomp with (key e'); [|done]. by apply sw_asym.
Qed.

Lemma upper_bound_spec k l a b :
  ord l -> upper_bound lt key k l = (a, b) ->
  l = a ++ b /\ (forall e, e ∈ a -> lt k (key e) = false) /\
  (forall e, e ∈ b -> lt k (key e) = true).
Proof.
  intros Ho E. unfold upper_bound in E. set (p := fun e : T => lt k (key e)) in E.
  pose proof (split_at_app p l) as Happ. rewrite E in Happ. simpl in Happ.
  split_and!; [done| |].
  - intros e He. pose proof (split_at_fst p l e) as H. rewrite E in H. by apply H.
  - intros e He. destruct b as [|e' b']; [by apply elem_of_nil in He|].
    pose proof (split_at_snd p l e' b') as H. rewrite E in H. specialize (H eq_refl).
    apply elem_of_cons in He as [->|He]; [done|].
    rewrite <- Happ in Ho. apply ordered_app_inv in Ho as (_ & Hb & _).
    apply StronglySorted_inv in Hb as [_ Hf].
    pose proof (proj1 (list.Forall_forall _ _) Hf e He) as Hlt. simpl in Hlt.
    by apply sw_trans with (key e').
Qed.

Lemma ordered_nil : ord [].
Proof. constructor. Qed.

Lemma set_find_Some k l e :
  ord l -> set_find lt key k l = Some e <-> e ∈ l /\ equiv_key k (key e).
Proof.
  intros Ho. unfold set_find. destruct (lower_bound lt key k l) as [a b] eqn:E.
  destruct (lower_bound_spec _ _ _ _ Ho E) as (-> & Ha & Hb). simpl.
  destruct b as [|e' b].
  - split; [done|]. rewrite app_nil_r. intros [He [_ Hk]].
    by rewrite (Ha e He) in Hk.
  - pose proof (Hb e' ltac:(by left)) as Hle. destruct (lt k (key e')) eqn:Hlt.
    + split; [done|]. intros [He [Hk1 Hk2]]. apply elem_of_app in He as [He|He].
      * by rewrite (Ha e He) in Hk2.
      * apply elem_of_cons in He as [->|He]; [congruence|].
        apply ordered_app_inv in Ho as (_ & Ho & _).
        apply StronglySorted_inv in Ho as [_ Hf].
        pose proof (proj1 (list.Forall_forall _ _) Hf e He) as Hlt'. simpl in Hlt'.
        by rewrite (sw_trans _ _ _ Hlt Hlt') in Hk1.
    + split.
      * intros [= ->]. split; [apply elem_of_app; right; by left|]. by split.
      * intros [He [Hk1 Hk2]]. apply elem_of_app in He as [He|He].
        { by rewrite (Ha e He) in Hk2. }
        apply elem_of_cons in He as [->|He]; [done|].
        apply ordered_app_inv in Ho as (_ & Ho & _).
        apply StronglySorted_inv in Ho as [_ Hf].
        pose proof (proj1 (list.Forall_forall _ _) Hf e He) as Hlt'. simpl in Hlt'.
        by rewrite (sw_le_lt k (key e') (key e) Hle Hlt') in Hk1.
Qed.

Lemma set_find_None k l :
  ord l -> set_find lt key k l = None <-> forall e, e ∈ l -> ~ equiv_key k (key e).
Proof.
  intros Ho. destruct (set_find lt key k l) as [e|] eqn:E.
  - apply set_find_Some in E as [He Hk]; [|done]. split; [done|]. intros H.
    by destruct (H e).
  - split; [|done]. intros _ e He Hk.
    assert (set_find lt key k l = Some e) by (apply set_find_Some; by auto). congruence.
Qed.

Lemma set_insert_ordered e l : ord l -> ord (set_insert lt key e l).
Proof.
  intros Ho. unfold set_insert. destruct (lower_bound lt key (key e) l) as [a b] eqn:E.
  destruct (lower_bound_spec _ _ _ _ Ho E) as (Happ & Ha & Hb).
  pose proof Ho as Ho'. rewrite Happ in Ho'. apply ordered_app_inv in Ho' as (Hoa & Hob & Hab).
  destruct b as [|e' b].
  - apply ordered_app; [done|by repeat constructor|].
    intros x y Hx ->%list_elem_of_singleton. by apply Ha.
  - destruct (lt (key e) (key e')) eqn:Hlt; [|done].
    apply ordered_app; [done| |].
    + constructor; [done|]. apply StronglySorted_inv in Hob as [_ Hf].
      constructor; [done|]. eapply Forall_impl; [|exact Hf].
      intros y Hy. by apply sw_trans with (key e').
    + intros x y Hx [->|Hy]%elem_of_cons; [by apply Ha|by auto].
Qed.

(** Inserting: a new key is added, an equivalent one keeps the old element. *)
Lemma elem_of_set_insert e l x :
  ord l ->
  x ∈ set_insert lt key e l <->
    x ∈ l \/ (x = e /\ forall y, y ∈ l -> ~ equiv_key (key e) (key y)).
Proof.
  intros Ho. unfold set_insert. destruct (lower_bound lt key (key e) l) as [a b] eqn:E.
  pose proof (set_find_None (key e) l Ho) as Hnone. unfold set_find in Hnone.
  rewrite E in Hnone. simpl in Hnone.
  destruct (lower_bound_spec _ _ _ _ Ho E) as (Happ & _ & _).
  destruct b as [|e' b].
  - rewrite Happ, app_nil_r in *. rewrite elem_of_app, list_elem_of_singleton. naive_solver.
  - destruct (lt (key e) (key e')).
    + rewrite Happ in *. rewrite !elem_of_app, elem_of_cons. naive_solver.
    + split; [by left|]. intros [H|[_ H]]; [done|]. by apply Hnone in H.
Qed.

Lemma set_erase_ordered k l : ord l -> ord (set_erase lt key k l).
Proof.
  intros Ho. unfold set_erase. destruct (lower_bound lt key k l) as [a b] eqn:E.
  destruct (lower_bound_spec _ _ _ _ Ho E) as (Happ & _ & _).
  destruct b as [|e b]; [done|]. destruct (lt k (key e)); [done|].
  rewrite Happ in Ho. apply ordered_app_inv in Ho as (Ha & Hb & Hab).
  apply ordered_app; [done| |].
  - by apply StronglySorted_inv in Hb as [? _].
  - intros x y Hx Hy. apply Hab; [done|by right].
Qed.

Lemma elem_of_set_erase k l x :
  ord l -> x ∈ set_erase lt key k l <-> x ∈ l /\ ~ equiv_key k (key x).
Proof.
  intros Ho. unfold set_erase. destruct (lower_bound lt key k l) as [a b] eqn:E.
  pose proof (set_find_None k l Ho) as Hnone. pose proof (set_find_Some k l) as Hsome.
  unfold set_find in *. rewrite E in *. simpl in *.
  destruct (lower_bound_spec _ _ _ _ Ho E) as (Happ & Ha & Hb).
  destruct b as [|e b]; [naive_solver|].
  destruct (lt k (key e)) eqn:Hlt; [naive_solver|].
  rewrite Happ in *. apply ordered_app_inv in Ho as Ho'. destruct Ho' as (_ & Hob & Hab).
  apply StronglySorted_inv in Hob as [_ Hf]. rewrite list.Forall_forall in Hf.
  rewrite !elem_of_app, elem_of_cons. split.
  - intros [Hx|Hx].
    + split; [by left|]. intros [_ H]. by rewrite (Ha x Hx) in H.
    + split; [by auto|]. intros [H1 H2]. specialize (Hf x Hx).
      assert (lt (key e) k = false) by (apply Hb; by left).
      by rewrite (sw_le_lt k (key e) (key x)) in H1.
  - intros [[Hx|[->|Hx]] Hn]; [by left| |by right].
    destruct Hn. split; [done|]. apply Hb. by left.
Qed.

(** The first element is a least one. *)
(** Keys that are ordered differ. *)
Lemma ordered_keys_differ l : ord l -> NoDup (key <$> l).
Proof.
  induction 1 as [|e l _ IH Hl]; [constructor|]. rewrite fmap_cons. constructor; [|done].
  intros (x & E & Hx)%list_elem_of_fmap. pose proof (proj1 (list.Forall_forall _ _) Hl x Hx) as H.
  unfold key_lt in H. by rewrite E, sw_irrefl in H.
Qed.

Lemma ordered_head e l x : ord (e :: l) -> x ∈ e :: l -> lt (key x) (key e) = false.
Proof.
  intros [_ Hf]%StronglySorted_inv [->|Hx]%elem_of_cons; [apply sw_irrefl|].
  apply sw_asym. by apply (proj1 (list.Forall_forall _ _) Hf).
Qed.
End Laws.

(** The order only looks at the elements of the container. *)
Lemma ordered_ext {K T} (lt lt' : K -> K -> bool) (key : T -> K) l :
  (forall x y, x ∈ l -> y ∈ l -> lt (key x) (key y) = lt' (key x) (key y)) ->
  ordered lt key l -> ordered lt' key l.
Proof.
  induction l as [|e l IH]; intros Hext; [constructor|].
  intros [Ho Hf]%StronglySorted_inv. constructor.
  - apply IH; [|done]. intros x y Hx Hy. apply Hext; by right.
  - apply list.Forall_forall. intros y Hy. unfold key_lt.
    rewrite <- Hext; [|by left|by right]. by apply (proj1 (list.Forall_forall _ _) Hf).
Qed.

(** ** Maps *)

Section Maps.
Context {K V : Type} (lt : K -> K -> bool) `{!StrictWeak lt}.
Implicit Types l : list (K * V).
Local Abbreviation ord := (ordered lt fst).
Local Abbreviation find := (set_find lt fst).

Lemma equiv_key_refl k : equiv_key lt k k.
Proof. split; apply sw_irrefl. Qed.
Lemma equiv_key_sym k k' : equiv_key lt k k' -> equiv_key lt k' k.
Proof. by intros [? ?]. Qed.
Lemma equiv_key_trans k1 k2 k3 :
  equiv_key lt k1 k2 -> equiv_key lt k2 k3 -> equiv_key lt k1 k3.
Proof. intros [? ?] [? ?]. split; by eapply sw_incomp. Qed.

#[export] Instance equiv_key_dec k k' : Decision (equiv_key lt k k').
Proof. unfold equiv_key. apply _. Defined.

(** The order of a map only depends on its keys. *)
Lemma ordered_keys l l' : fst <$> l = fst <$> l' -> ord l -> ord l'.
Proof.
  revert l'. induction l as [|e l IH]; intros [|e' l'] Hk; try done.
  rewrite !fmap_cons in Hk. injection Hk as He Hk.
  intros [Ho Hf]%StronglySorted_inv. constructor; [by apply IH|].
  apply list.Forall_forall. intros x Hx.
  assert (Hin : x.1 ∈ fst <$> l) by (rewrite Hk; by apply list_elem_of_fmap_2).
  apply list_elem_of_fmap in Hin as (y & Hy & Hin).
  pose proof (proj1 (list.Forall_forall _ _) Hf y Hin) as Hlt.
  unfold key_lt in *. by rewrite <- He, Hy.
Qed.

(** The key an assignment ends up under: the one already there, if any. *)
Definition kept_key k l : K := match find k l with Some (k', _) => k' | None => k end.

Lemma kept_key_equiv k l : ord l -> equiv_key lt k (kept_key k l).
Proof.
  intros Ho. unfold kept_key. destruct (find k l) as [[k' v']|] eqn:E.
  - by apply set_find_Some in E as [_ E].
  - apply equiv_key_refl.
Qed.

Lemma map_assign_cases k v l :
  ord l ->
  (find k l = None /\ map_assign lt k v l = set_insert lt fst (k, v) l) \/
  (exists a k' v' b, find k l = Some (k', v') /\ l = a ++ (k', v') :: b /\
     map_assign lt k v l = a ++ (k', v) :: b).
Proof.
  intros Ho. unfold map_assign, set_insert, set_find. simpl.
  destruct (lower_bound lt fst k l) as [a b] eqn:E.
  destruct (lower_bound_spec lt fst k l a b Ho E) as (Happ & _ & _).
  destruct b as [|[k' v'] b]; simpl; [by left|].
  destruct (lt k k') eqn:Hlt; [by left|]. right. by exists a, k', v', b.
Qed.

Lemma map_assign_ordered k v l : ord l -> ord (map_assign lt k v l).
Proof.
  intros Ho. destruct (map_assign_cases k v l Ho) as [[_ ->]|(a & k' & v' & b & _ & Hl & ->)].
  - by apply set_insert_ordered.
  - apply (ordered_keys l); [|done]. rewrite Hl. by rewrite !fmap_app.
Qed.

Lemma elem_of_map_assign k v l x :
  ord l -> x ∈ map_assign lt k v l <->
    (x ∈ l /\ ~ equiv_key lt k x.1) \/ x = (kept_key k l, v).
Proof.
  intros Ho. destruct (map_assign_cases k v l Ho) as [[Hn ->]|(a & k' & v' & b & Hf & Hl & ->)].
  - rewrite elem_of_set_insert by done. unfold kept_key. rewrite Hn.
    pose proof (proj1 (set_find_None lt fst k l Ho) Hn) as Hno. simpl.
    split; [intros [H|[-> _]]; [left; by auto|by right]|intros [[H _]| ->]; [by left|by right]].
  - unfold kept_key. rewrite Hf.
    assert (Hothers : forall y, y ∈ l -> (y = (k', v') <-> equiv_key lt k y.1)).
    { intros y Hy. split.
      - intros ->. by apply set_find_Some in Hf as [_ ?].
      - intros He. assert (find k l = Some y) by (apply set_find_Some; done). congruence. }
    assert (Hnd : NoDup l).
    { clear -Ho StrictWeak0. induction l as [|e l IH]; [constructor|].
      apply StronglySorted_inv in Ho as [Ho Hf]. constructor; [|by apply IH].
      intros He.
      pose proof (proj1 (list.Forall_forall _ _) Hf e He) as Hlt.
      unfold key_lt in Hlt. by rewrite sw_irrefl in Hlt. }
    assert (Hin : x ∈ a ++ (k', v) :: b <-> x ∈ a \/ x = (k', v) \/ x ∈ b)
      by (by rewrite elem_of_app, elem_of_cons).
    assert (Hl' : x ∈ l <-> x ∈ a \/ x = (k', v') \/ x ∈ b)
      by (by rewrite Hl, elem_of_app, elem_of_cons).
    assert (Hx : x = (k', v') -> x ∉ a /\ x ∉ b).
    { intros ->. rewrite Hl in Hnd. apply list.NoDup_app in Hnd as (_ & Hd & Hnd).
      apply list.NoDup_cons in Hnd as [Hb _]. split; [|done]. intros Ha. apply (Hd _ Ha). by left. }
    rewrite Hin. split.
    + intros [Ha|[->|Hb]]; [left| by right |left].
      * assert (x ∈ l) by (rewrite Hl'; by left). split; [done|]. rewrite <- Hothers by done.
        intros ->. by destruct (Hx eq_refl).
      * assert (x ∈ l) by (rewrite Hl'; auto). split; [done|]. rewrite <- Hothers by done.
        intros ->. by destruct (Hx eq_refl).
    + intros [[Hxl Hne]| ->]; [|by auto]. rewrite <- Hothers in Hne by done.
      apply Hl' in Hxl. tauto.
Qed.

(** The value found under a key. *)
Definition value k l : option V := snd <$> find k l.

Lemma value_Some k v l : ord l -> value k l = Some v <-> exists k', (k', v) ∈ l /\ equiv_key lt k k'.
Proof.
  intros Ho. unfold value. split.
  - intros ([k' v'] & E & ->)%fmap_Some. apply set_find_Some in E; [|done..]. by exists k'.
  - intros (k' & Hin & He). assert (E : find k l = Some (k', v)) by by apply set_find_Some.
    by rewrite E.
Qed.

Lemma option_ext {A} (o1 o2 : option A) : (forall a, o1 = Some a <-> o2 = Some a) -> o1 = o2.
Proof.
  intros H. destruct o1 as [a|]; [symmetry; by apply H|].
  destruct o2 as [a|]; [by apply H|done].
Qed.

Lemma value_assign k k0 v l :
  ord l -> value k (map_assign lt k0 v l) = if decide (equiv_key lt k k0) then Some v else value k l.
Proof.
  intros Ho. pose proof (map_assign_ordered k0 v l Ho) as Ho'.
  pose proof (kept_key_equiv k0 l Ho) as Hk. apply option_ext. intros w.
  rewrite value_Some by done. setoid_rewrite elem_of_map_assign; [|done]. simpl.
  case_decide as He.
  - split.
    + intros (k' & [[_ Hne]|[= -> ->]] & He'); [|done]. destruct Hne.
      eapply equiv_key_trans; [by apply equiv_key_sym|done].
    + intros [= ->]. exists (kept_key k0 l). split; [by right|]. by eapply equiv_key_trans.
  - rewrite value_Some by done. split.
    + intros (k' & [[Hin _]|[= -> ->]] & He'); [by exists k'|]. destruct He.
      eapply equiv_key_trans; [done|by apply equiv_key_sym].
    + intros (k' & Hin & He'). exists k'. split; [left|done]. split; [done|].
      intros He''. apply He. eapply equiv_key_trans; [done|by apply equiv_key_sym].
Qed.

Lemma value_erase k k0 l :
  ord l -> value k (set_erase lt fst k0 l) = if decide (equiv_key lt k k0) then None else value k l.
Proof.
  intros Ho. pose proof (set_erase_ordered lt fst k0 l Ho) as Ho'. apply option_ext. intros w.
  rewrite value_Some by done. setoid_rewrite elem_of_set_erase; [|done..]. simpl.
  case_decide as He.
  - split; [|done]. intros (k' & [_ Hne] & He'). destruct Hne.
    eapply equiv_key_trans; [by apply equiv_key_sym|done].
  - rewrite value_Some by done. split.
    + intros (k' & [Hin _] & He'). by exists k'.
    + intros (k' & Hin & He'). exists k'. split; [|done]. split; [done|].
      intros He''. apply He. eapply equiv_key_trans; [done|by apply equiv_key_sym].
Qed.
End Maps.
