(* ===== verification/CString.v ===== *)
(** * The C string functions the HTTP code calls

    A [std::string] is a [string] of 8-bit characters and may hold NUL; the
    functions of <string.h>/<strings.h> get its [c_str()] and stop at the first
    NUL, or at the terminator that follows the last character. [strcasecmp] is
    that of the "C" locale, which the program never leaves. The comparison
    functor of the header maps, [CaseInsensitiLess], is a strict weak ordering
    whose equivalence is equality of the case-folded C strings. *)
From stdpp Require Import base tactics option list strings pretty numbers.
From S2P Require Import Prelude OrdSet.

(** The value of a character as an [unsigned char]. *)
Definition code (c : Ascii.ascii) : Z := Z.of_N (Ascii.N_of_ascii c).

(** [s.c_str()], up to its first NUL. *)
Fixpoint c_str (s : string) : string :=
  match s with
  | EmptyString => EmptyString
  | String c s' => if code c =? 0 then EmptyString else String c (c_str s')
  end.

(** [tolower] of the "C" locale. *)
Definition tolower (z : Z) : Z := if (65 <=? z) && (z <=? 90) then z + 32 else z.

(** [strcasecmp(s.c_str(), t.c_str())] *)
Fixpoint strcasecmp (s t : string) : Z :=
  match s, t with
  | EmptyString, EmptyString => 0
  | EmptyString, String d _ => 0 - tolower (code d)
  | String c _, EmptyString => tolower (code c) - 0
  | String c s', String d t' =>
      let x := tolower (code c) - tolower (code d) in
      if negb (x =? 0) then x
      else if code c =? 0 then 0
      else strcasecmp s' t'
  end.

(** [strncmp(lit, s.c_str(), n)], the first argument a literal. *)
Fixpoint strncmp (lit s : string) (n : nat) : Z :=
  match n with
  | O => 0
  | S n' =>
      match lit, s with
      | EmptyString, EmptyString => 0
      | EmptyString, String d _ => 0 - code d
      | String c _, EmptyString => code c - 0
      | String c lit', String d s' =>
          if negb (code c - code d =? 0) then code c - code d
          else if code c =? 0 then 0
          else strncmp lit' s' n'
      end
  end.

Definition CaseInsensitiLess (lhs rhs : string) : bool := strcasecmp lhs rhs <? 0.

(** The functor of [std::map<std::string, ...>]: [operator<] of [std::string]. *)
Fixpoint string_less (s t : string) : bool :=
  match s, t with
  | _, EmptyString => false
  | EmptyString, String _ _ => true
  | String c s', String d t' =>
      if code c <? code d then true
      else if code d <? code c then false
      else string_less s' t'
  end.

(** The C string of [s] with its case removed. *)
Fixpoint fold_case (s : string) : list Z :=
  match s with
  | EmptyString => []
  | String c s' => if code c =? 0 then [] else tolower (code c) :: fold_case s'
  end.

(** ** Strings *)

(** [chars P s]: every character of [s] satisfies [P]. *)
Fixpoint chars (P : Ascii.ascii -> bool) (s : string) : bool :=
  match s with EmptyString => true | String c r => P c && chars P r end.

#[local] Arguments String.append !_ _ : simpl nomatch.

(** Every way to split a concrete string, for the facts that forbid one. *)
Ltac no_split :=
  repeat match goal with
  | H : _ = (?pre ++ _)%string |- _ => is_var pre; destruct pre; simpl in H
  | _ => progress simplify_eq/=
  | _ => done
  end.

Lemma chars_app P s t : chars P (s ++ t)%string = chars P s && chars P t.
Proof. induction s as [|c s IH]; simpl; [done|]. by rewrite IH, andb_assoc. Qed.

Lemma string_app_assoc (s t u : string) : ((s ++ t) ++ u = s ++ (t ++ u))%string.
Proof. induction s as [|c s IH]; simpl; [done|]. by rewrite IH. Qed.

Lemma string_app_nil (s : string) : (s ++ "")%string = s.
Proof. induction s as [|c s IH]; simpl; [done|]. by rewrite IH. Qed.

Lemma string_length_app (s t : string) :
  String.length (s ++ t)%string = (String.length s + String.length t)%nat.
Proof. induction s; simpl; auto. Qed.

(** The memory [n] characters further, and the first [n] characters. *)
Fixpoint str_drop (n : nat) (s : string) : string :=
  match n, s with S n, String _ s => str_drop n s | _, _ => s end.
Fixpoint str_take (n : nat) (s : string) : string :=
  match n, s with S n, String c s => String c (str_take n s) | _, _ => EmptyString end.

(** [std::string(at, length)], [at] the memory from a pointer to the end of its
    buffer: a length of 2^63 or more exceeds [max_size()]. *)
Definition std_string (at_ : string) (length : Z) : res string :=
  if 2 ^ 63 <=? length then Exc length_error
  else if Z.of_nat (String.length at_) <? length then Bad OutOfBounds
  else Val (str_take (Z.to_nat length) at_).

Lemma str_drop_app s t : str_drop (String.length s) (s ++ t)%string = t.
Proof. induction s as [|c s IH]; [by destruct t|]. apply IH. Qed.

Lemma str_take_app s t : str_take (String.length s) (s ++ t)%string = s.
Proof. induction s as [|c s IH]; [by destruct t|]. simpl. by rewrite IH. Qed.

Lemma str_take_all s : str_take (String.length s) s = s.
Proof. induction s as [|c s IH]; [done|]. simpl. by rewrite IH. Qed.

Lemma str_drop_length n s : String.length (str_drop n s) = (String.length s - n)%nat.
Proof. revert s. induction n as [|n IH]; intros [|c s]; simpl; try done. Qed.

Lemma str_drop_add m n s : str_drop m (str_drop n s) = str_drop (n + m) s.
Proof.
  revert s. induction n as [|n IH]; intros s; [done|]. destruct s as [|c s]; [by destruct m|].
  apply IH.
Qed.

(** The token [tok] that lies in [buffer] behind [pre]. *)
Lemma std_string_slice pre tok rest :
  Z.of_nat (String.length tok) < 2 ^ 63 ->
  std_string (str_drop (String.length pre) (pre ++ (tok ++ rest))%string) (Z.of_nat (String.length tok)) =
    Val tok.
Proof.
  intros Hb. rewrite str_drop_app. unfold std_string.
  rewrite (proj2 (Z.leb_gt _ _)) by done. rewrite string_length_app.
  rewrite (proj2 (Z.ltb_ge _ _)) by lia. by rewrite Nat2Z.id, str_take_app.
Qed.

(** ** Numbers *)

(** The value of a digit in a base up to 36. *)
Definition digit_value (base : Z) (c : Ascii.ascii) : option Z :=
  let z := code c in
  let v := if (48 <=? z) && (z <=? 57) then z - 48
           else if (97 <=? z) && (z <=? 122) then z - 87
           else if (65 <=? z) && (z <=? 90) then z - 55 else base in
  if v <? base then Some v else None.

(** The digits at the front of [s]. *)
Fixpoint digits (base acc : Z) (s : string) : Z :=
  match s with
  | String c s' =>
      match digit_value base c with Some v => digits base (base * acc + v) s' | None => acc end
  | EmptyString => acc
  end.

(** [isspace] of the "C" locale. *)
Definition isspace (c : Ascii.ascii) : bool :=
  let z := code c in (z =? 32) || ((9 <=? z) && (z <=? 13)).

Fixpoint skip_space (s : string) : string :=
  match s with String c s' => if isspace c then skip_space s' else s | EmptyString => s end.

(** [strtol(s, NULL, base)], without the "0x" that base 16 allows, and
    [atoi(s) = (int)strtol(s, NULL, 10)]; out of range it saturates. *)
Definition strtol (s : string) (base : Z) : Z :=
  let clamp z := Z.max (- 2 ^ 63) (Z.min z (2 ^ 63 - 1)) in
  match skip_space s with
  | String c s' =>
      if code c =? 45 then clamp (- digits base 0 s')
      else if code c =? 43 then clamp (digits base 0 s')
      else clamp (digits base 0 (String c s'))
  | EmptyString => 0
  end.
Definition atoi (s : string) : Z := s32 (strtol s 10).

(** A number printed in decimal is read back, up to what follows it. *)
Lemma digit_value_char x :
  (x < 10)%N -> digit_value 10 (pretty_N_char x) = Some (Z.of_N x).
Proof.
  intros H.
  assert (E : forallb (fun x => bool_decide (digit_value 10 (pretty_N_char (N.of_nat x)) =
    Some (Z.of_nat x))) (seq 0 10) = true) by by vm_compute.
  rewrite forallb_forall in E. specialize (E (N.to_nat x)).
  rewrite bool_decide_eq_true, N2Nat.id, N_nat_Z in E.
  apply E, list_elem_of_In, elem_of_seq. lia.
Qed.

Lemma digits_pretty_go x s : digits 10 0 (pretty_N_go x s) = digits 10 (Z.of_N x) s.
Proof.
  revert s. induction (N.lt_wf_0 x) as [x _ IH]. intros s.
  destruct (decide (0 < x)%N) as [Hx|Hx].
  - rewrite pretty_N_go_step by done. rewrite IH by (apply N.div_lt; lia). cbn [digits].
    rewrite digit_value_char by (apply N.mod_lt; lia). f_equal.
    rewrite <- N2Z.inj_mul with (n := 10%N), <- N2Z.inj_add, <- N.div_mod; [done|lia].
  - replace x with 0%N by lia. by rewrite pretty_N_go_0.
Qed.

Lemma pretty_go_app x s : pretty_N_go x s = (pretty_N_go x "" ++ s)%string.
Proof.
  revert s. induction (N.lt_wf_0 x) as [x _ IH]. intros s.
  destruct (decide (0 < x)%N) as [Hx|Hx].
  - rewrite !(pretty_N_go_step x) by done.
    assert (Hlt : (x / 10 < x)%N) by (apply N.div_lt; lia).
    rewrite (IH _ Hlt (String _ s)), (IH _ Hlt (String _ "")). by rewrite string_app_assoc.
  - replace x with 0%N by lia. by rewrite !pretty_N_go_0.
Qed.

Lemma digits_pretty x rest : digits 10 0 (pretty x ++ rest)%string = digits 10 (Z.of_N x) rest.
Proof.
  unfold pretty, pretty_N. destruct (decide (x = 0)%N) as [->|Hx]; [done|].
  by rewrite <- pretty_go_app, digits_pretty_go.
Qed.

Lemma pretty_head (x : N) : exists c s, pretty x = String c s /\ 48 <= code c <= 57.
Proof.
  assert (Hc : forall d, 48 <= code (pretty_N_char d) <= 57)
    by (intros d; unfold pretty_N_char; repeat case_match; by vm_compute).
  unfold pretty, pretty_N. destruct (decide (x = 0)%N) as [->|Hx]; [by eexists _, _|].
  assert (H : forall x s, (0 < x)%N -> exists c s', pretty_N_go x s = String c s' /\ 48 <= code c <= 57).
  { clear x Hx. intros x. induction (N.lt_wf_0 x) as [x _ IH]. intros s Hx.
    rewrite pretty_N_go_step by done. destruct (decide (0 < x / 10)%N) as [Hd|Hd].
    - apply IH; [apply N.div_lt; lia|done].
    - assert ((x / 10)%N = 0%N) as -> by (by apply N.le_0_r, N.nlt_ge). rewrite pretty_N_go_0. by eexists _, _. }
  apply H. lia.
Qed.

(** A number that fits is read back from its decimal text, if no digit follows. *)
Lemma strtol_pretty x rest :
  Z.of_N x < 2 ^ 63 -> digits 10 (Z.of_N x) rest = Z.of_N x ->
  strtol (pretty x ++ rest)%string 10 = Z.of_N x.
Proof.
  intros Hx Hr. pose proof (digits_pretty x rest) as Hd.
  destruct (pretty_head x) as (c & s & E & Hc). rewrite E in *.
  change (String c s ++ rest)%string with (String c (s ++ rest)) in *.
  unfold strtol. cbn [skip_space].
  assert (isspace c = false) as -> by (unfold isspace; lia).
  rewrite !(proj2 (Z.eqb_neq _ _)) by lia. rewrite Hd, Hr. lia.
Qed.

(** ** Laws *)

Lemma code_range c : 0 <= code c < 256.
Proof.
  unfold code. split; [lia|]. pose proof (Ascii.N_ascii_bounded c). lia.
Qed.

Lemma code_inj c d : code c = code d -> c = d.
Proof.
  unfold code. intros H. apply N2Z.inj in H.
  by rewrite <- (Ascii.ascii_N_embedding c), <- (Ascii.ascii_N_embedding d), H.
Qed.

Lemma tolower_zero z : 0 <= z -> tolower z = 0 <-> z = 0.
Proof. intros. unfold tolower. destruct (_ && _) eqn:E; [|done]. lia. Qed.

Lemma tolower_nonneg z : 0 <= z -> 0 <= tolower z.
Proof. intros. unfold tolower. destruct (_ && _) eqn:E; lia. Qed.

Lemma lower_code_nonneg c : 0 <= tolower (code c).
Proof. apply tolower_nonneg. pose proof (code_range c). lia. Qed.

Lemma lower_code_zero c : tolower (code c) = 0 <-> code c = 0.
Proof. apply tolower_zero. pose proof (code_range c). lia. Qed.

(** The comparison of the folded strings, as lists of bytes. *)
Fixpoint lex (a b : list Z) : Z :=
  match a, b with
  | [], [] => 0
  | [], y :: _ => 0 - y
  | x :: _, [] => x
  | x :: a', y :: b' => if x - y =? 0 then lex a' b' else x - y
  end.

Lemma strcasecmp_lex s t : strcasecmp s t = lex (fold_case s) (fold_case t).
Proof.
  revert t. induction s as [|c s IH]; intros [|d t]; simpl; try done.
  - destruct (code d =? 0) eqn:E; [|done]. apply Z.eqb_eq in E. by rewrite E.
  - destruct (code c =? 0) eqn:E; [apply Z.eqb_eq in E; by rewrite E|]. simpl. lia.
  - pose proof (lower_code_zero c). pose proof (lower_code_zero d).
    destruct (Z.eqb_spec (tolower (code c) - tolower (code d)) 0);
      destruct (Z.eqb_spec (code c) 0); destruct (Z.eqb_spec (code d) 0); simpl;
      try lia; try done.
    + rewrite IH. destruct (Z.eqb_spec (tolower (code c) - tolower (code d)) 0); [done|lia].
    + destruct (Z.eqb_spec (tolower (code c) - tolower (code d)) 0); [lia|done].
Qed.

Lemma fold_case_pos s : Forall (fun z => 0 < z) (fold_case s).
Proof.
  induction s as [|c s IH]; simpl; [constructor|].
  pose proof (lower_code_zero c). pose proof (lower_code_nonneg c).
  destruct (Z.eqb_spec (code c) 0); [constructor|]. constructor; [lia|done].
Qed.

Lemma lex_opp a b : lex b a = - lex a b.
Proof.
  revert b. induction a as [|x a IH]; intros [|y b]; simpl; try lia.
  destruct (Z.eqb_spec (x - y) 0), (Z.eqb_spec (y - x) 0); try lia. apply IH.
Qed.

Lemma lex_zero a b :
  Forall (fun z => 0 < z) a -> Forall (fun z => 0 < z) b -> lex a b = 0 <-> a = b.
Proof.
  intros Ha Hb. split; [|intros ->; clear; induction b; simpl; [done|];
    by rewrite Z.sub_diag].
  revert b Hb. induction Ha as [|x a Hx Ha IH]; intros b Hb; destruct Hb as [|y b Hy Hb];
    simpl; try done; try lia.
  destruct (Z.eqb_spec (x - y) 0) as [E|E]; [|lia]. intros H.
  f_equal; [lia|by apply IH].
Qed.

Lemma lex_trans a b c :
  Forall (fun z => 0 < z) a -> Forall (fun z => 0 < z) b -> Forall (fun z => 0 < z) c ->
  lex a b < 0 -> lex b c < 0 -> lex a c < 0.
Proof.
  intros Ha. revert b c. induction Ha as [|x a Hx Ha IH]; intros b c Hb Hc;
    destruct Hb as [|y b Hy Hb]; destruct Hc as [|z c Hz Hc]; simpl; try lia.
  destruct (Z.eqb_spec (x - y) 0), (Z.eqb_spec (y - z) 0), (Z.eqb_spec (x - z) 0); try lia.
  by apply IH.
Qed.

Lemma strcasecmp_zero s t : strcasecmp s t = 0 <-> fold_case s = fold_case t.
Proof. rewrite strcasecmp_lex. apply lex_zero; apply fold_case_pos. Qed.

Lemma strcasecmp_opp s t : strcasecmp t s = - strcasecmp s t.
Proof. rewrite !strcasecmp_lex. apply lex_opp. Qed.

(** Two header names are the same key exactly when they agree up to case. *)
Lemma CaseInsensitiLess_equiv s t :
  equiv_key CaseInsensitiLess s t <-> fold_case s = fold_case t.
Proof.
  rewrite <- strcasecmp_zero. unfold equiv_key, CaseInsensitiLess.
  rewrite !Z.ltb_ge. rewrite (strcasecmp_opp s t). lia.
Qed.

#[export] Instance CaseInsensitiLess_strict : StrictWeak CaseInsensitiLess.
Proof.
  unfold CaseInsensitiLess. split.
  - intros s. apply Z.ltb_ge. rewrite (proj2 (strcasecmp_zero s s)); [lia|done].
  - intros s t u. rewrite !Z.ltb_lt, !strcasecmp_lex.
    apply lex_trans; apply fold_case_pos.
  - intros s t u. rewrite !Z.ltb_ge. intros H1 H2.
    destruct (Z.lt_ge_cases (strcasecmp s u) 0) as [H|H]; [exfalso|done].
    pose proof (strcasecmp_opp s t) as Ho. rewrite !strcasecmp_lex in *.
    destruct (Z.eq_dec (lex (fold_case s) (fold_case t)) 0) as [E|E].
    + apply lex_zero in E; [|apply fold_case_pos..]. rewrite E in H. lia.
    + assert (lex (fold_case t) (fold_case u) < 0); [|lia].
      apply (lex_trans _ (fold_case s)); try apply fold_case_pos; lia.
Qed.

(** [strncmp] with the length of a literal is the test that the literal is a
    prefix. *)
Lemma strncmp_prefix lit s :
  Forall (fun c => code c <> 0) (String.list_ascii_of_string lit) ->
  strncmp lit s (String.length lit) = 0 <-> String.prefix lit s = true.
Proof.
  revert s. induction lit as [|c lit IH]; intros s Hl; simpl in *; [by destruct s|].
  apply list.Forall_cons in Hl as [Hc Hl]. destruct s as [|d s]; [split; [lia|done]|].
  destruct (Z.eqb_spec (code c - code d) 0) as [E|E]; simpl.
  - assert (c = d) as -> by (apply code_inj; lia).
    destruct (Z.eqb_spec (code d) 0); [done|]. rewrite IH by done.
    destruct (Ascii.ascii_dec d d); done.
  - destruct (Ascii.ascii_dec c d) as [->|]; [lia|]. split; [lia|done].
Qed.

#[export] Instance string_less_strict : StrictWeak string_less.
Proof.
  split.
  - intros s. induction s as [|c s IH]; simpl; [done|]. by rewrite Z.ltb_irrefl.
  - intros s. induction s as [|c s IH]; intros [|d t] [|e u]; simpl; try done.
    repeat case_match; try done; try lia. by apply IH.
  - intros s. induction s as [|c s IH]; intros [|d t] [|e u]; simpl; try done.
    repeat case_match; try done; try lia. by apply IH.
Qed.
