(* ===== verification/Timer.v ===== *)
(** * Timers (src/myhttp/timer.h, src/myhttp/timer.cpp)

    A [Timer] lives on the heap and is shared between its owner's handle and the
    manager's set, so the model keeps an explicit store from addresses to timers.
    The set [m_timers] is ordered by [Comparator]: due time first, address as the
    tie break. Operations run under the manager's lock and are one transition
    each; [listExpiredCb] takes the lock twice and is split accordingly. The clock
    and the addresses of new objects are arguments. *)
From stdpp Require Import base tactics option list sorting gmap numbers.
From S2P Require Import Prelude OrdSet.

(** [F]: the bodies of callbacks; [W]: the objects of weak conditions. *)
Section Timer.
Context {F W : Type}.

(** What a [std::function] holds: a function, or [std::bind(&OnTimer, ...)]. *)
Inductive callback :=
  | Fun (f : F)
  | OnTimerBind (weak_cond : W) (cb : option F).

Record Timer := mkTimer {
  m_recurring : bool;
  m_ms : Z;
  m_next : Z;
  m_cb : option callback
}.

Record TimerManager := mkTimerManager {
  m_timers : list Z;             (* addresses, in the order of the set *)
  m_tickled : bool;
  m_previouseTime : Z;
  store : gmap Z Timer           (* the timers of this manager, by address *)
}.
Definition set_timers l (s : TimerManager) :=
  mkTimerManager l (m_tickled s) (m_previouseTime s) (store s).
Definition set_tickled b (s : TimerManager) :=
  mkTimerManager (m_timers s) b (m_previouseTime s) (store s).
Definition set_previous t (s : TimerManager) :=
  mkTimerManager (m_timers s) (m_tickled s) t (store s).
Definition set_timer a t (s : TimerManager) :=
  mkTimerManager (m_timers s) (m_tickled s) (m_previouseTime s) (<[a := t]> (store s)).
Definition set_next n (t : Timer) := mkTimer (m_recurring t) (m_ms t) n (m_cb t).
Definition set_cb c (t : Timer) := mkTimer (m_recurring t) (m_ms t) (m_next t) c.

(** A [shared_ptr] that is not null points to a live timer. *)
Definition next_at (h : gmap Z Timer) (a : Z) : Z :=
  match h !! a with Some t => m_next t | None => 0 end.

Definition Comparator (h : gmap Z Timer) (lhs rhs : option Z) : bool :=
  match lhs, rhs with
  | None, None => false
  | None, _ => true
  | _, None => false
  | Some l, Some r =>
      if decide (next_at h l < next_at h r) then true
      else if decide (next_at h r < next_at h l) then false
      else bool_decide (l < r)
  end.

Definition Timer_new (now ms : Z) (cb : option callback) (recurring : bool) : Timer :=
  mkTimer recurring ms (u64 (now + ms)) cb.
Definition Timer_at (next : Z) : Timer := mkTimer false 0 next None.

Definition timers_find a : ST TimerManager (option Z) := fun s =>
  (Val (set_find (Comparator (store s)) Some (Some a) (m_timers s)), s).
Definition timers_insert a : ST TimerManager unit := modify (fun s =>
  set_timers (set_insert (Comparator (store s)) Some a (m_timers s)) s).
(** [erase(it)], with [it] the result of [find]: erasing [end()] is undefined. *)
Definition timers_erase (it : option Z) : ST TimerManager unit :=
  match it with
  | Some a => modify (fun s =>
      set_timers (set_erase (Comparator (store s)) Some (Some a) (m_timers s)) s)
  | None => crash BadIterator
  end.
Definition timer_at a : ST TimerManager Timer := fun s => (deref NullDeref (store s !! a), s).

(** ** Timer *)

Definition cancel (a : Z) : ST TimerManager bool :=
  t ← timer_at a;
  match m_cb t with
  | Some _ =>
      modify (set_timer a (set_cb None t));;
      it ← timers_find a;
      timers_erase it;;
      mret true
  | None => mret false
  end.

Definition refresh (now a : Z) : ST TimerManager bool :=
  t ← timer_at a;
  match m_cb t with
  | None => mret false
  | Some _ =>
      it ← timers_find a;
      match it with
      | None => mret false
      | Some _ =>
          timers_erase it;;
          modify (set_timer a (set_next (u64 (now + m_ms t)) t));;
          timers_insert a;;
          mret true
      end
  end.

(** [addTimer(val, lock)]: the result tells whether [onTimerInsertedAtFront] is
  called, which happens after the lock is released. *)
Definition addTimer_locked (a : Z) : ST TimerManager bool :=
  timers_insert a;;
  l ← gets m_timers;
  tickled ← gets m_tickled;
  let at_front := bool_decide (head l = Some a) && negb tickled in
  (if at_front then modify (set_tickled true) else mret tt);;
  mret at_front.

(** The result of [reset], and whether the hook was called. *)
Definition reset (now a ms : Z) (from_now : bool) : ST TimerManager (bool * bool) :=
  t ← timer_at a;
  if decide (ms = m_ms t /\ from_now = false) then mret (true, false) else
  match m_cb t with
  | None => mret (false, false)
  | Some _ =>
      it ← timers_find a;
      match it with
      | None => mret (false, false)
      | Some _ =>
          timers_erase it;;
          let start := if from_now then now else u64 (m_next t - m_ms t) in
          modify (set_timer a (mkTimer (m_recurring t) ms (u64 (start + ms)) (m_cb t)));;
          hook ← addTimer_locked a;
          mret (true, hook)
      end
  end.

(** ** TimerManager *)

Definition TimerManager_new (now : Z) : TimerManager := mkTimerManager [] false now ∅.

(** [a]: the address of the new timer. *)
Definition addTimer (now a ms : Z) (cb : option callback) (recurring : bool) :
    ST TimerManager bool :=
  modify (set_timer a (Timer_new now ms cb recurring));;
  addTimer_locked a.

Definition addConditiaonTimer (now a ms : Z) (cb : option F) (weak_cond : W)
    (recurring : bool) : ST TimerManager bool :=
  addTimer now a ms (Some (OnTimerBind weak_cond cb)) recurring.

(** Running a callback: the function that runs in the end, if any. [lock] tells
  which weak conditions are alive. *)
Definition OnTimer (lock : W -> bool) (weak_cond : W) (cb : option F) : res (option F) :=
  if lock weak_cond then f ← deref EmptyFunction cb; Val (Some f) else Val None.
Definition call (lock : W -> bool) (cb : option callback) : res (option F) :=
  match cb with
  | None => Bad EmptyFunction
  | Some (Fun f) => Val (Some f)
  | Some (OnTimerBind w f) => OnTimer lock w f
  end.

Definition getNextTimer (now : Z) : ST TimerManager Z :=
  modify (set_tickled false);;
  l ← gets m_timers;
  match l with
  | [] => mret (2 ^ 64 - 1)
  | a :: _ =>
      t ← timer_at a;
      if decide (now >= m_next t) then mret 0 else mret (m_next t - now)
  end.

Definition rollover (now_ms : Z) (s : TimerManager) : bool :=
  bool_decide (now_ms < m_previouseTime s /\
               now_ms < u64 (m_previouseTime s - 60 * 60 * 1000)).
Definition detectClockRollover (now_ms : Z) : ST TimerManager bool :=
  b ← gets (rollover now_ms);
  modify (set_previous now_ms);;
  mret b.

(** The loop over [expired]. *)
Fixpoint expire (now_ms : Z) (expired : list Z) : ST TimerManager (list (option callback)) :=
  match expired with
  | [] => mret []
  | a :: expired' =>
      t ← timer_at a;
      (if m_recurring t then
         modify (set_timer a (set_next (u64 (now_ms + m_ms t)) t));; timers_insert a
       else modify (set_timer a (set_cb None t)));;
      cbs ← expire now_ms expired';
      mret (m_cb t :: cbs)
  end.

(** The part of [listExpiredCb] under the write lock. [now_timer] is the address
  of the temporary timer the set is searched with. *)
Definition listExpiredCb_locked (now_ms now_timer : Z) :
    ST TimerManager (list (option callback)) :=
  rollover ← detectClockRollover now_ms;
  l ← gets m_timers;
  begin_later ← (if rollover then mret false else
    a ← lift (deref BadIterator (head l));
    t ← timer_at a;
    mret (bool_decide (m_next t > now_ms)));
  if (begin_later : bool) then mret [] else
  h ← gets store;
  let h' := <[now_timer := Timer_at now_ms]> h in
  let '(expired, rest) :=
    if rollover : bool then (l, [])
    else upper_bound (Comparator h') Some (Some now_timer) l in
  modify (set_timers rest);;
  expire now_ms expired.

Definition listExpiredCb (now_ms now_timer : Z) : ST TimerManager (list (option callback)) :=
  l ← gets m_timers;
  match l with
  | [] => mret []
  | _ => listExpiredCb_locked now_ms now_timer
  end.

Definition hasTimer (s : TimerManager) : bool := bool_decide (m_timers s <> []).
End Timer.
Arguments callback : clear implicits.
Arguments Timer : clear implicits.
Arguments TimerManager : clear implicits.

(** ** Lemmas *)

Section Proofs.
Context {F W : Type}.
Implicit Types (s : TimerManager F W) (h : gmap Z (Timer F W)).

#[export] Instance Comparator_strict h : StrictWeak (Comparator h).
Proof.
  constructor; intros; unfold Comparator in *; repeat case_match; try done;
    repeat case_bool_decide; try done; lia.
Qed.

(** Two timers are equivalent to the set only when they are the same object. *)
Lemma Comparator_equiv h a b : equiv_key (Comparator h) (Some a) (Some b) <-> a = b.
Proof.
  unfold equiv_key, Comparator. split.
  - repeat case_decide; intros [? ?]; repeat case_bool_decide; try done; lia.
  - intros ->. rewrite !decide_False by lia. by rewrite bool_decide_false by lia.
Qed.

Lemma Comparator_ext h h' a b :
  next_at h a = next_at h' a -> next_at h b = next_at h' b ->
  Comparator h (Some a) (Some b) = Comparator h' (Some a) (Some b).
Proof. unfold Comparator. by intros -> ->. Qed.

Lemma Comparator_le h a b : Comparator h (Some b) (Some a) = false -> next_at h a <= next_at h b.
Proof. unfold Comparator. repeat case_decide; intros; try done; lia. Qed.
Lemma Comparator_lt h a b : Comparator h (Some a) (Some b) = true -> next_at h a <= next_at h b.
Proof. unfold Comparator. repeat case_decide; intros; try done; lia. Qed.

Lemma next_at_insert_ne h a b t : a <> b -> next_at (<[a := t]> h) b = next_at h b.
Proof. intros. unfold next_at. by rewrite lookup_insert_ne. Qed.
Lemma next_at_insert h a t : next_at (<[a := t]> h) a = m_next t.
Proof. unfold next_at. by rewrite lookup_insert_eq. Qed.

(** The invariant, with the timers of [p] taken out of the set for the moment:
  the set is ordered, holds live timers only, and a timer that still has its
  callback is in the set. *)
Record wf_but (p : list Z) s : Prop := {
  wf_order : ordered (Comparator (store s)) Some (m_timers s);
  wf_live : forall a, a ∈ m_timers s \/ a ∈ p -> is_Some (store s !! a);
  wf_armed : forall a t, store s !! a = Some t -> m_cb t <> None ->
    a ∈ m_timers s \/ a ∈ p;
  wf_range : forall a t, store s !! a = Some t -> in_u 64 (m_next t);
  wf_out : forall a, a ∈ p -> a ∉ m_timers s
}.
Definition wf s : Prop := wf_but [] s.

Lemma find_val p s a :
  wf_but p s -> set_find (Comparator (store s)) Some (Some a) (m_timers s) =
    if decide (a ∈ m_timers s) then Some a else None.
Proof.
  intros [Ho _ _ _ _]. case_decide as Ha.
  - apply set_find_Some; [apply _|done|]. split; [done|]. by apply Comparator_equiv.
  - apply set_find_None; [apply _|done|]. intros b Hb ->%Comparator_equiv. done.
Qed.

(** [erase] takes one timer out. *)
Definition without (a : Z) s : TimerManager F W :=
  set_timers (set_erase (Comparator (store s)) Some (Some a) (m_timers s)) s.
(** [insert] puts one in. *)
Definition with_timer (a : Z) s : TimerManager F W :=
  set_timers (set_insert (Comparator (store s)) Some a (m_timers s)) s.

Lemma elem_of_without p s a x :
  wf_but p s -> x ∈ m_timers (without a s) <-> x ∈ m_timers s /\ x <> a.
Proof.
  intros [Ho _ _ _ _]. simpl. rewrite elem_of_set_erase by (apply _ || done).
  rewrite Comparator_equiv. naive_solver.
Qed.

Lemma elem_of_with p s a x :
  wf_but p s -> x ∈ m_timers (with_timer a s) <-> x ∈ m_timers s \/ x = a.
Proof.
  intros [Ho _ _ _ _]. simpl. rewrite elem_of_set_insert by (apply _ || done).
  setoid_rewrite Comparator_equiv. split; [naive_solver|]. intros [H| ->]; [by left|].
  destruct (decide (a ∈ m_timers s)); [by left|]. right. split; [done|]. by intros y Hy ->.
Qed.

Lemma without_ok p s a :
  wf_but p s -> a ∈ m_timers s -> wf_but (a :: p) (without a s).
Proof.
  intros Hwf Ha. pose proof (fun x => elem_of_without p s a x Hwf) as Hin.
  destruct Hwf as [Ho Hl Harm Hr Hout]. constructor; try done.
  - by apply set_erase_ordered; [apply _|].
  - intros x [[Hx _]%Hin|[->|Hx]%elem_of_cons]; by auto.
  - intros x t Ht Hcb. destruct (decide (x = a)) as [->|]; [right; by left|].
    destruct (Harm x t Ht Hcb); [left; by apply Hin|right; by right].
  - intros x [->|Hx]%elem_of_cons [? ?]%Hin; [done|]. by apply (Hout x).
Qed.

(** Changing a timer that is out of the set does not disturb the set. *)
Lemma set_timer_out_ok p s a t :
  wf_but (a :: p) s -> in_u 64 (m_next t) -> wf_but (a :: p) (set_timer a t s).
Proof.
  intros [Ho Hl Harm Hr Hout] Ht. assert (Ha : a ∉ m_timers s) by (apply Hout; by left).
  constructor; simpl; try done.
  - eapply ordered_ext; [|exact Ho]. intros x y Hx Hy.
    apply Comparator_ext; symmetry; apply next_at_insert_ne; by intros ->.
  - intros x Hx. destruct (decide (a = x)) as [->|];
      [rewrite lookup_insert_eq|rewrite lookup_insert_ne by done]; by eauto.
  - intros x t' E Hcb. destruct (decide (a = x)) as [->|]; [right; by left|].
    rewrite lookup_insert_ne in E by done. by eauto.
  - intros x t' E. destruct (decide (a = x)) as [->|].
    + rewrite lookup_insert_eq in E. by simplify_eq.
    + rewrite lookup_insert_ne in E by done. by eauto.
Qed.

(** Changing anything but the due time is harmless in the set, too. *)
Lemma set_timer_same_ok p s a t t' :
  wf_but p s -> store s !! a = Some t -> a ∈ m_timers s -> m_next t' = m_next t ->
  wf_but p (set_timer a t' s).
Proof.
  intros [Ho Hl Harm Hr Hout] Ht Ha Hn.
  assert (Hnext : forall x, next_at (<[a := t']> (store s)) x = next_at (store s) x).
  { intros x. destruct (decide (a = x)) as [->|]; [|by apply next_at_insert_ne].
    rewrite next_at_insert. unfold next_at. by rewrite Ht. }
  constructor; simpl; try done.
  - eapply ordered_ext; [|exact Ho]. intros x y _ _. by apply Comparator_ext.
  - intros x Hx. destruct (decide (a = x)) as [->|];
      [rewrite lookup_insert_eq|rewrite lookup_insert_ne by done]; by eauto.
  - intros x t1 E Hcb. destruct (decide (a = x)) as [->|]; [by left|].
    rewrite lookup_insert_ne in E by done. by eauto.
  - intros x t1 E. destruct (decide (a = x)) as [->|].
    + rewrite lookup_insert_eq in E. simplify_eq. rewrite Hn. by eauto.
    + rewrite lookup_insert_ne in E by done. by eauto.
Qed.

Lemma with_ok p s a :
  wf_but (a :: p) s -> a ∉ p -> wf_but p (with_timer a s).
Proof.
  intros Hwf Ha. pose proof (fun x => elem_of_with _ s a x Hwf) as Hin.
  destruct Hwf as [Ho Hl Harm Hr Hout]. constructor; try done.
  - by apply set_insert_ordered; [apply _|].
  - intros x [[Hx| ->]%Hin|Hx]; apply Hl; [by left|right; by left|right; by right].
  - intros x t Ht Hcb. rewrite Hin.
    destruct (Harm x t Ht Hcb) as [?|[->|]%elem_of_cons]; by auto.
  - intros x Hx [H| ->]%Hin; [|done]. apply (Hout x); [by right|done].
Qed.

(** A timer without callback may stay out of the set. *)
Lemma drop_ok p s a t :
  wf_but (a :: p) s -> store s !! a = Some t -> m_cb t = None -> wf_but p s.
Proof.
  intros [Ho Hl Harm Hr Hout] Ht Hcb. constructor; try done.
  - intros x [Hx|Hx]; apply Hl; [by left|right; by right].
  - intros x t' E Hc. destruct (Harm x t' E Hc) as [?|[->|]%elem_of_cons]; by simplify_eq/=; auto.
  - intros x Hx. apply Hout. by right.
Qed.

Lemma wf_ext p s s' :
  m_timers s' = m_timers s -> store s' = store s -> wf_but p s -> wf_but p s'.
Proof. intros E1 E2 [Ho Hl Harm Hr Hout]. by constructor; rewrite ?E1, ?E2. Qed.

(** ** The operations *)

Lemma cancel_ok s a t :
  wf s -> store s !! a = Some t ->
  exists s', cancel a s = (Val (bool_decide (is_Some (m_cb t))), s') /\ wf s' /\
    store s' = <[a := set_cb None t]> (store s) /\
    (forall x, x ∈ m_timers s' <-> x ∈ m_timers s /\ (x <> a \/ m_cb t = None)) /\
    m_tickled s' = m_tickled s /\ m_previouseTime s' = m_previouseTime s.
Proof.
  intros Hwf Ht. unfold cancel, timer_at, mbind, st_bind. rewrite Ht. simpl.
  destruct (m_cb t) as [cb|] eqn:Hcb; simpl.
  - assert (Ha : a ∈ m_timers s).
    { destruct (wf_armed _ _ Hwf a t Ht) as [|?%elem_of_nil]; [congruence|done|done]. }
    pose proof (set_timer_same_ok [] s a t (set_cb None t) Hwf Ht Ha eq_refl) as Hwf1.
    pose proof (find_val [] _ a Hwf1) as Hf. simpl in Hf.
    rewrite Hf, decide_True by done. simpl.
    change (set_timers _ _) with (without a (set_timer a (set_cb None t) s)).
    pose proof (without_ok _ _ _ Hwf1 Ha) as Hwf2.
    eexists. split; [reflexivity|]. split_and!; try done.
    + eapply drop_ok; [exact Hwf2|apply lookup_insert_eq|done].
    + intros x. rewrite (elem_of_without [] _ a x Hwf1). simpl. naive_solver.
  - exists s. split; [done|]. split_and!; try done; [|naive_solver].
    symmetry. apply insert_id. rewrite Ht. by destruct t; simplify_eq/=.
Qed.

Lemma refresh_ok s now a t :
  wf s -> store s !! a = Some t ->
  exists b s', refresh now a s = (Val b, s') /\ wf s' /\
    (b = true <-> m_cb t <> None) /\
    (forall x, x ∈ m_timers s' <-> x ∈ m_timers s) /\
    store s' = (if b then <[a := set_next (u64 (now + m_ms t)) t]> (store s) else store s).
Proof.
  intros Hwf Ht. unfold refresh, timer_at, mbind, st_bind. rewrite Ht. simpl.
  destruct (m_cb t) as [cb|] eqn:Hcb; simpl; [|by exists false, s].
  assert (Ha : a ∈ m_timers s).
  { destruct (wf_armed _ _ Hwf a t Ht) as [|?%elem_of_nil]; [congruence|done|done]. }
  rewrite (find_val [] s a Hwf), decide_True by done. simpl.
  change (set_timers _ s) with (without a s).
  pose proof (without_ok _ _ _ Hwf Ha) as Hwf1.
  set (t' := set_next _ t).
  pose proof (set_timer_out_ok _ _ _ t' Hwf1 ltac:(by apply wrap_range)) as Hwf2.
  exists true, (with_timer a (set_timer a t' (without a s))). split; [reflexivity|].
  split; [apply with_ok; [done|apply not_elem_of_nil]|].
  split_and!; try done. intros x. rewrite (elem_of_with _ _ a x Hwf2).
  pose proof (elem_of_without [] s a x Hwf). simpl in *. destruct (decide (x = a)); naive_solver.
Qed.

(** [addTimer(val, lock)], for a timer that is not in the set. *)
Lemma addTimer_locked_ok s a :
  wf_but [a] s ->
  let s1 := with_timer a s in
  let front := bool_decide (head (m_timers s1) = Some a) && negb (m_tickled s) in
  exists s', addTimer_locked a s = (Val front, s') /\ wf s' /\
    store s' = store s /\ m_timers s' = m_timers s1 /\
    (forall x, x ∈ m_timers s' <-> x ∈ m_timers s \/ x = a) /\
    m_tickled s' = (m_tickled s || front).
Proof.
  intros Hwf. cbv zeta. pose proof (with_ok [] s a Hwf (not_elem_of_nil _)) as Hwf1.
  pose proof (fun x => elem_of_with _ s a x Hwf) as Hin.
  unfold addTimer_locked, timers_insert, modify, gets, mbind, st_bind.
  change (set_timers _ s) with (with_timer a s). cbv beta iota.
  change (m_tickled (with_timer a s)) with (m_tickled s).
  destruct (bool_decide _ && negb (m_tickled s)) eqn:Ef; simpl.
  - eexists. split; [reflexivity|]. split_and!; try done.
    + by apply (wf_ext _ (with_timer a s)).
    + by rewrite orb_true_r.
  - eexists. split; [reflexivity|]. split_and!; try done. simpl. by rewrite orb_false_r.
Qed.

Lemma reset_ok s now a ms from_now t :
  wf s -> store s !! a = Some t ->
  exists b hook s', reset now a ms from_now s = (Val (b, hook), s') /\ wf s' /\
    (forall x, x ∈ m_timers s' <-> x ∈ m_timers s) /\
    let same := bool_decide (ms = m_ms t /\ from_now = false) in
    (b = true <-> same = true \/ m_cb t <> None) /\
    store s' = if b && negb same then
        let start := if from_now then now else u64 (m_next t - m_ms t) in
        <[a := mkTimer (m_recurring t) ms (u64 (start + ms)) (m_cb t)]> (store s)
      else store s.
Proof.
  intros Hwf Ht. unfold reset, timer_at, mbind, st_bind. rewrite Ht. simpl.
  case_decide as Hsame.
  { exists true, false, s. rewrite bool_decide_true by done. split_and!; try done. naive_solver. }
  rewrite (bool_decide_false _ Hsame).
  destruct (m_cb t) as [cb|] eqn:Hcb; simpl; [|by exists false, false, s; naive_solver].
  assert (Ha : a ∈ m_timers s).
  { destruct (wf_armed _ _ Hwf a t Ht) as [|?%elem_of_nil]; [congruence|done|done]. }
  rewrite (find_val [] s a Hwf), decide_True by done. simpl.
  change (set_timers _ s) with (without a s).
  pose proof (without_ok _ _ _ Hwf Ha) as Hwf1.
  set (t' := mkTimer _ _ _ _).
  pose proof (set_timer_out_ok _ _ _ t' Hwf1 ltac:(by apply wrap_range)) as Hwf2.
  destruct (addTimer_locked_ok _ _ Hwf2) as (s' & E & Hwf3 & Hst & _ & Hin & _).
  rewrite E. eexists true, _, s'. split; [reflexivity|]. split; [done|]. split.
  - intros x. rewrite Hin. pose proof (elem_of_without [] s a x Hwf). simpl in *.
    destruct (decide (x = a)); naive_solver.
  - split; [naive_solver|]. by rewrite Hst.
Qed.

Lemma addTimer_ok s now a ms cb r :
  wf s -> store s !! a = None ->
  let t := Timer_new now ms cb r in
  exists hook s', addTimer now a ms cb r s = (Val hook, s') /\ wf s' /\
    store s' = <[a := t]> (store s) /\
    (forall x, x ∈ m_timers s' <-> x ∈ m_timers s \/ x = a) /\
    (hook = true <-> head (m_timers s') = Some a /\ m_tickled s = false) /\
    m_tickled s' = (m_tickled s || hook).
Proof.
  intros Hwf Ha. cbv zeta. set (t := Timer_new now ms cb r).
  assert (Hout : a ∉ m_timers s).
  { intros H. destruct (wf_live _ _ Hwf a) as [? ?]; [by left|congruence]. }
  assert (Hwf1 : wf_but [a] (set_timer a t s)).
  { destruct Hwf as [Ho Hl Harm Hr Hx]. constructor; simpl.
    - eapply ordered_ext; [|exact Ho]. intros x y Hxx Hyy.
      apply Comparator_ext; symmetry; apply next_at_insert_ne; by intros ->.
    - intros x Hx'. destruct (decide (a = x)) as [->|]; [by rewrite lookup_insert_eq|].
      rewrite lookup_insert_ne by done. apply Hl. destruct Hx' as [?|?%list_elem_of_singleton]; naive_solver.
    - intros x t' E Hcb. destruct (decide (a = x)) as [->|]; [right; by left|].
      rewrite lookup_insert_ne in E by done.
      destruct (Harm x t' E Hcb) as [?|?%elem_of_nil]; [by left|done].
    - intros x t' E. destruct (decide (a = x)) as [->|].
      + rewrite lookup_insert_eq in E. simplify_eq. by apply wrap_range.
      + rewrite lookup_insert_ne in E by done. by eauto.
    - by intros x ->%list_elem_of_singleton. }
  destruct (addTimer_locked_ok _ _ Hwf1) as (s' & E & Hwf2 & Hst & Hl & Hin & Htick).
  exists (bool_decide (head (m_timers (with_timer a (set_timer a t s))) = Some a)
          && negb (m_tickled (set_timer a t s))), s'.
  split; [exact E|].
  split; [done|]. split; [done|]. split; [done|]. split; [|done]. rewrite Hl.
  rewrite andb_true_iff, bool_decide_eq_true, negb_true_iff. done.
Qed.

(** ** Expiry *)

(** What one expired timer becomes. *)
Definition fired_timer (now : Z) (t : Timer F W) : Timer F W :=
  if m_recurring t then set_next (u64 (now + m_ms t)) t else set_cb None t.

Lemma expire_ok now p s :
  wf_but p s -> NoDup p ->
  exists s', expire now p s =
      (Val ((fun a => cb ← store s !! a; m_cb cb) <$> p), s') /\ wf s' /\
    (forall a, store s' !! a =
       if decide (a ∈ p) then fired_timer now <$> store s !! a else store s !! a) /\
    (forall a, a ∈ m_timers s' <->
       a ∈ m_timers s \/ (a ∈ p /\ exists t, store s !! a = Some t /\ m_recurring t = true)) /\
    m_tickled s' = m_tickled s /\ m_previouseTime s' = m_previouseTime s.
Proof.
  revert s. induction p as [|a p IH]; intros s Hwf Hnd.
  { exists s. split; [done|]. split; [done|]. split_and!; try done.
    intros a. rewrite elem_of_nil. naive_solver. }
  apply list.NoDup_cons in Hnd as [Hap Hnd].
  destruct (wf_live _ _ Hwf a) as [t Ht]; [right; by left|].
  set (t' := fired_timer now t).
  set (s1 := if m_recurring t then with_timer a (set_timer a t' s) else set_timer a t' s).
  assert (Hrange : in_u 64 (m_next t')).
  { unfold t', fired_timer. destruct (m_recurring t); [by apply wrap_range|].
    exact (wf_range _ _ Hwf a t Ht). }
  pose proof (set_timer_out_ok _ _ _ t' Hwf Hrange) as Hwf0.
  assert (Hwf1 : wf_but p s1).
  { unfold s1. destruct (m_recurring t) eqn:Er; [by apply with_ok|].
    eapply drop_ok; [exact Hwf0|apply lookup_insert_eq|].
    unfold t', fired_timer. by rewrite Er. }
  assert (Hst : store s1 = <[a := t']> (store s)) by (unfold s1; by destruct (m_recurring t)).
  assert (Hin : forall x, x ∈ m_timers s1 <-> x ∈ m_timers s \/ (x = a /\ m_recurring t = true)).
  { intros x. unfold s1. destruct (m_recurring t); [|naive_solver].
    rewrite (elem_of_with _ _ a x Hwf0). naive_solver. }
  assert (Hstep : expire now (a :: p) s =
    (cbs ← expire now p; mret (m_cb t :: cbs)) s1).
  { simpl. unfold timer_at, mbind at 1, st_bind at 1. rewrite Ht. simpl.
    unfold s1, t', fired_timer. by destruct (m_recurring t). }
  destruct (IH s1 Hwf1 Hnd) as (s' & E & Hwf' & Hst' & Hin' & Htk & Hpr).
  exists s'. rewrite Hstep. st_step E. split_and!; try done.
  - unfold mret, st_ret. rewrite fmap_cons. rewrite Ht. do 2 f_equal; simpl. f_equal.
    apply list_fmap_ext. intros i x Hx. rewrite Hst, lookup_insert_ne; [done|].
    intros ->. apply Hap. by eapply list_elem_of_lookup_2.
  - intros x. rewrite Hst', Hst. destruct (decide (x = a)) as [->|Hne].
    + rewrite decide_False, lookup_insert_eq by done. rewrite decide_True by by left.
      by rewrite Ht.
    + rewrite lookup_insert_ne by done. repeat case_decide; try done; set_solver.
  - intros x. rewrite Hin', Hin, elem_of_cons, Hst. destruct (decide (x = a)) as [->|Hne].
    + rewrite lookup_insert_eq. naive_solver.
    + rewrite lookup_insert_ne by done. naive_solver.
  - rewrite Htk. unfold s1. by destruct (m_recurring t).
  - rewrite Hpr. unfold s1. by destruct (m_recurring t).
Qed.

Lemma ordered_NoDup h l : ordered (Comparator h) Some l -> NoDup l.
Proof.
  induction l as [|a l IH]; intros Ho; [constructor|].
  apply StronglySorted_inv in Ho as [Ho Hf]. constructor; [|by apply IH].
  intros Ha. pose proof (proj1 (list.Forall_forall _ _) Hf a Ha) as H.
  unfold key_lt in H. by rewrite sw_irrefl in H.
Qed.

(** Taking a group of timers out of the set at once. *)
Lemma split_wf s fired rest :
  wf s -> m_timers s = fired ++ rest -> wf_but fired (set_timers rest s) /\ NoDup fired.
Proof.
  intros [Ho Hl Harm Hr Hout] Happ. pose proof (ordered_NoDup _ _ Ho) as Hnd.
  rewrite Happ in *. apply ordered_app_inv in Ho as (_ & Ho & _).
  apply list.NoDup_app in Hnd as (Hnf & Hdisj & _). split; [|done].
  constructor; simpl; try done.
  - intros a Ha. apply Hl. left. apply elem_of_app. tauto.
  - intros a t Ht Hcb. destruct (Harm a t Ht Hcb) as [H|?%elem_of_nil]; [|done].
    apply elem_of_app in H. tauto.
Qed.

Definition due_sorted s (l : list Z) : Prop :=
  StronglySorted (fun a b => next_at (store s) a <= next_at (store s) b) l.

Lemma ordered_due s l : ordered (Comparator (store s)) Some l -> due_sorted s l.
Proof.
  induction 1 as [|a l H IH Hf]; constructor; [done|].
  eapply Forall_impl; [|exact Hf]. intros b. apply Comparator_lt.
Qed.

(** The timers a pass over the set fires, in terms of the clock. *)
Definition is_due s (now now_timer a : Z) : Prop :=
  rollover now s = true \/ next_at (store s) a < now \/
  (next_at (store s) a = now /\ a <= now_timer).

(** The callbacks of a list of timers. *)
Definition callbacks_of s (l : list Z) : list (option (callback F W)) :=
  (fun a => t ← store s !! a; m_cb t) <$> l.

Record expired_pass s (now now_timer : Z) (fired rest : list Z) s' : Prop := {
  ep_split : m_timers s = fired ++ rest;
  ep_due : forall a, a ∈ m_timers s -> (a ∈ fired <-> is_due s now now_timer a);
  ep_sorted : due_sorted s fired;
  ep_wf : wf s';
  ep_store : forall a, store s' !! a =
    if decide (a ∈ fired) then fired_timer now <$> store s !! a else store s !! a;
  ep_timers : forall a, a ∈ m_timers s' <->
    a ∈ rest \/ (a ∈ fired /\ exists t, store s !! a = Some t /\ m_recurring t = true)
}.

(** The split of the set at [now_timer]. *)
Lemma upper_bound_now s now an fired rest :
  wf s -> store s !! an = None ->
  upper_bound (Comparator (<[an := Timer_at now]> (store s))) Some (Some an) (m_timers s)
    = (fired, rest) ->
  m_timers s = fired ++ rest /\
  forall a, a ∈ m_timers s -> (a ∈ fired <->
    next_at (store s) a < now \/ (next_at (store s) a = now /\ a <= an)).
Proof.
  intros Hwf Han E. set (h' := <[an := _]> _) in E.
  assert (Hne : forall x, x ∈ m_timers s -> an <> x).
  { intros x Hx ->. destruct (wf_live _ _ Hwf x) as [? ?]; [by left|congruence]. }
  assert (Ho : ordered (Comparator h') Some (m_timers s)).
  { eapply ordered_ext; [|apply Hwf]. intros x y Hx Hy.
    apply Comparator_ext; symmetry; apply next_at_insert_ne; by apply Hne. }
  apply upper_bound_spec in E as (Happ & Hf & Hr); [|apply _|done].
  split; [done|]. intros a Ha.
  assert (Hcmp : Comparator h' (Some an) (Some a) = false <->
    next_at (store s) a < now \/ (next_at (store s) a = now /\ a <= an)).
  { unfold Comparator, h'. rewrite next_at_insert, next_at_insert_ne by by apply Hne.
    simpl. repeat case_decide; rewrite ?bool_decide_eq_false; split; intros; try done; lia. }
  rewrite <- Hcmp. split; [apply Hf|]. intros Hc. rewrite Happ in Ha.
  apply elem_of_app in Ha as [?|Ha]; [done|]. by rewrite (Hr a Ha) in Hc.
Qed.

Lemma fire_pass s now an fired rest :
  wf s -> m_timers s = fired ++ rest ->
  (forall a, a ∈ m_timers s -> (a ∈ fired <-> is_due s now an a)) ->
  exists s', expire now fired (set_timers rest (set_previous now s)) =
    (Val (callbacks_of s fired), s') /\ expired_pass s now an fired rest s'.
Proof.
  intros Hwf Happ Hdue. destruct (split_wf s fired rest Hwf Happ) as [Hwf1 Hnd].
  destruct (expire_ok now fired (set_timers rest (set_previous now s)))
    as (s' & E & Hwf' & Hst & Hin & _); [by apply (wf_ext _ (set_timers rest s))|done|].
  exists s'. split; [exact E|]. constructor; try done.
  apply ordered_due. pose proof (wf_order _ _ Hwf) as Ho. rewrite Happ in Ho.
  by apply ordered_app_inv in Ho as (? & _ & _).
Qed.

Lemma listExpiredCb_locked_ok s now an :
  wf s -> store s !! an = None -> m_timers s <> [] \/ rollover now s = true ->
  exists fired rest s',
    listExpiredCb_locked now an s = (Val (callbacks_of s fired), s') /\
    expired_pass s now an fired rest s'.
Proof.
  intros Hwf Han Hne. unfold listExpiredCb_locked, detectClockRollover.
  unfold mbind, st_bind, gets, modify, lift. simpl.
  destruct (rollover now s) eqn:Ero.
  - destruct (fire_pass s now an (m_timers s) []) as (s' & E & Hp); [done|by rewrite app_nil_r| |].
    { intros a Ha. split; [|done]. intros _. by left. }
    exists (m_timers s), [], s'. split; [exact E | exact Hp].
  - destruct Hne as [Hne|]; [|done]. destruct (m_timers s) as [|a0 l0] eqn:El; [done|]. simpl.
    destruct (wf_live _ _ Hwf a0) as [t0 Ht0]; [left; rewrite El; by left|].
    unfold timer_at. simpl. rewrite Ht0. simpl. case_bool_decide as Hlater.
    + exists [], (a0 :: l0), (set_previous now s). split; [done|].
      assert (Hmin : forall a, a ∈ m_timers s -> now < next_at (store s) a).
      { intros a Ha. pose proof (wf_order _ _ Hwf) as Ho. rewrite El in *.
        pose proof (ordered_head _ _ _ _ a Ho Ha) as Hle. apply Comparator_le in Hle.
        unfold next_at in Hle at 1. rewrite Ht0 in Hle. lia. }
      constructor; [exact El| | |by apply (wf_ext _ s)|done|].
      * intros a Ha. split; [by intros ?%elem_of_nil|].
        specialize (Hmin a Ha). unfold is_due. rewrite Ero. naive_solver lia.
      * constructor.
      * intros a. simpl. rewrite El. split; [by left|]. by intros [?|[?%elem_of_nil _]].
    + destruct (upper_bound _ _ _ _) as [fired rest] eqn:Eu. rewrite <- El in Eu.
      destruct (upper_bound_now s now an fired rest Hwf Han Eu) as [Happ Hdue].
      destruct (fire_pass s now an fired rest) as (s' & E & Hp); [done|done| |].
      { intros a Ha. rewrite Hdue by done. unfold is_due. rewrite Ero. naive_solver. }
      exists fired, rest, s'. split; [exact E | exact Hp].
Qed.

Lemma getNextTimer_ok s now :
  wf s -> exists n, getNextTimer now s = (Val n, set_tickled false s) /\
    (m_timers s = [] -> n = 2 ^ 64 - 1) /\
    (n = 0 <-> exists a, a ∈ m_timers s /\ next_at (store s) a <= now) /\
    (m_timers s <> [] -> n <> 0 ->
     (exists a, a ∈ m_timers s /\ next_at (store s) a = now + n) /\
     forall a, a ∈ m_timers s -> now + n <= next_at (store s) a).
Proof.
  intros Hwf. unfold getNextTimer, mbind, st_bind, gets, modify, timer_at. simpl.
  destruct (m_timers s) as [|a0 l0] eqn:El.
  { eexists. split; [done|]. split; [done|]. split; [|done].
    split; [done|]. by intros (a & ?%elem_of_nil & _). }
  destruct (wf_live _ _ Hwf a0) as [t0 Ht0]; [left; rewrite El; by left|].
  simpl. rewrite Ht0. simpl. assert (Hn0 : next_at (store s) a0 = m_next t0) by (unfold next_at; by rewrite Ht0).
  assert (Hmin : forall a, a ∈ a0 :: l0 -> m_next t0 <= next_at (store s) a).
  { intros a Ha. pose proof (wf_order _ _ Hwf) as Ho. rewrite El in Ho.
    pose proof (ordered_head _ _ _ _ a Ho Ha) as Hle. apply Comparator_le in Hle. lia. }
  case_decide as Hdue; eexists; (split; [reflexivity|]); (split; [done|]); split.
  - split; [|done]. intros _. exists a0. split; [by left|lia].
  - by intros _ ?.
  - split; [lia|]. intros (a & Ha & Hle). specialize (Hmin a Ha). lia.
  - intros _ _. split; [exists a0; split; [by left|lia]|]. intros a Ha. specialize (Hmin a Ha). lia.
Qed.
End Proofs.

(** ** Interleavings: what threads sharing a manager can do, one locked section
    at a time *)

Section Events.
Context {F W : Type}.

Inductive event :=
  | EAdd (now a ms : Z) (cb : option (callback F W)) (recurring : bool)
  | ECancel (a : Z)
  | ERefresh (now a : Z)
  | EReset (now a ms : Z) (from_now : bool)
  | ENext (now : Z)
  | EExpired (now now_timer : Z).     (* the write-locked part of listExpiredCb *)

Definition exec (e : event) : ST (TimerManager F W) unit :=
  match e with
  | EAdd now a ms cb r => addTimer now a ms cb r;; mret tt
  | ECancel a => cancel a;; mret tt
  | ERefresh now a => refresh now a;; mret tt
  | EReset now a ms f => reset now a ms f;; mret tt
  | ENext now => getNextTimer now;; mret tt
  | EExpired now an => listExpiredCb_locked now an;; mret tt
  end.

(** New objects have unused addresses; a handle points to a timer. *)
Definition legal (e : event) (s : TimerManager F W) : Prop :=
  match e with
  | EAdd _ a _ _ _ | EExpired _ a => store s !! a = None
  | ECancel a | ERefresh _ a | EReset _ a _ _ => is_Some (store s !! a)
  | ENext _ => True
  end.

(** The timers that are added without a callback (an empty function). *)
Definition unset (e : event) : list Z :=
  match e with EAdd _ a _ None _ => [a] | _ => [] end.

(** [reachable void s]: [void] are the timers that were added without a callback. *)
Inductive reachable : list Z -> TimerManager F W -> Prop :=
  | reach_new now : reachable [] (TimerManager_new now)
  | reach_step void s e s' : reachable void s -> legal e s -> exec e s = (Val tt, s') ->
      reachable (unset e ++ void) s'.

(** The set holds exactly the timers that have their callback, those in [void] apart. *)
Definition exact (void : list Z) (s : TimerManager F W) : Prop :=
  forall a, a ∉ void -> a ∈ m_timers s <-> exists t, store s !! a = Some t /\ m_cb t <> None.

Lemma wf_TimerManager_new now : wf (TimerManager_new now : TimerManager F W).
Proof.
  split; simpl; [apply ordered_nil| |intros a t; by rewrite lookup_empty..|].
  - by intros a [?%elem_of_nil|?%elem_of_nil].
  - by intros a ?%elem_of_nil.
Qed.

(** The one illegal moment: the set was emptied after [listExpiredCb] looked. *)
Definition emptied (e : event) (s : TimerManager F W) : Prop :=
  match e with
  | EExpired now _ => m_timers s = [] /\ rollover now s = false
  | _ => False
  end.

Lemma exec_ok e s :
  wf s -> legal e s -> ~ emptied e s -> exists s', exec e s = (Val tt, s') /\ wf s'.
Proof.
  intros Hwf Hl Hne. destruct e as [now a ms cb r|a|now a|now a ms f|now|now an]; simpl in *.
  - destruct (addTimer_ok s now a ms cb r Hwf Hl) as (h & s' & E & H & _).
    exists s'. by st_step E.
  - destruct Hl as [t Ht]. destruct (cancel_ok s a t Hwf Ht) as (s' & E & H & _).
    exists s'. by st_step E.
  - destruct Hl as [t Ht]. destruct (refresh_ok s now a t Hwf Ht) as (b & s' & E & H & _).
    exists s'. by st_step E.
  - destruct Hl as [t Ht].
    destruct (reset_ok s now a ms f t Hwf Ht) as (b & h & s' & E & H & _).
    exists s'. by st_step E.
  - destruct (getNextTimer_ok s now Hwf) as (n & E & _). eexists. st_step E.
    split; [reflexivity|]. by apply (wf_ext _ s).
  - destruct (listExpiredCb_locked_ok s now an Hwf Hl) as (fired & rest & s' & E & Hp).
    { destruct (m_timers s); [|by left]. right. destruct (rollover now s); tauto. }
    exists s'. st_step E. split; [reflexivity|]. apply Hp.
Qed.

Lemma emptied_bad now an s :
  emptied (EExpired now an) s -> listExpiredCb_locked now an s = (Bad BadIterator, set_previous now s).
Proof.
  intros [Hl Hr]. unfold listExpiredCb_locked, detectClockRollover.
  unfold mbind, st_bind, gets, modify, lift, mret, st_ret. rewrite Hr. simpl. by rewrite Hl.
Qed.

(** A step that keeps the set but for [a], and every timer's callback but that of [a]. *)
Lemma exact_same void s s' a t t' :
  exact void s -> store s !! a = Some t -> store s' = <[a := t']> (store s) \/ store s' = store s ->
  (m_cb t' <> None <-> m_cb t <> None) -> (forall x, x ∈ m_timers s' <-> x ∈ m_timers s) -> exact void s'.
Proof.
  intros He Ht Hst Hcb Hin x Hx. rewrite Hin, (He x Hx). destruct Hst as [-> | ->]; [|done].
  destruct (decide (x = a)) as [->|Hne].
  - rewrite lookup_insert_eq. naive_solver.
  - by rewrite lookup_insert_ne.
Qed.

Lemma expired_exact void s now an fired rest s' :
  wf s -> exact void s -> expired_pass s now an fired rest s' -> exact void s'.
Proof.
  intros Hwf He [Hsplit _ _ _ Hst Hin] a Ha. specialize (He a Ha). rewrite Hin, Hst.
  pose proof (ordered_NoDup _ _ (wf_order _ _ Hwf)) as Hnd. rewrite Hsplit in He, Hnd.
  rewrite elem_of_app in He. apply list.NoDup_app in Hnd as (_ & Hdis & _). case_decide as Hf.
  - destruct (proj1 He (or_introl Hf)) as (t & Ht & Hcb). specialize (Hdis a Hf). rewrite Ht. simpl.
    unfold fired_timer. destruct (m_recurring t) eqn:Er.
    + split; intros _; [by eexists|]. right. split; [done|by exists t].
    + split; [|by intros (t0 & [= <-] & H)].
      intros [Hr|(_ & t0 & [= <-] & H)]; [by destruct Hdis|congruence].
  - rewrite <- He. split; [intros [Hr|[]]; [by right|done]|]. intros [|Hr]; [done|by left].
Qed.

Lemma exec_exact void e s s' :
  wf s -> legal e s -> exec e s = (Val tt, s') -> exact void s -> exact (unset e ++ void) s'.
Proof.
  intros Hwf Hl E He. destruct e as [now a ms cb r|a|now a|now a ms f|now|now an]; simpl in *;
    apply st_bind_inv in E as (r0 & s1 & E & [= <-]).
  - destruct (addTimer_ok s now a ms cb r Hwf Hl) as (h & s2 & E2 & _ & Hst & Hin & _).
    rewrite E2 in E. injection E as _ <-. intros x Hx. rewrite Hin, Hst. destruct (decide (x = a)) as [->|Hne].
    + rewrite lookup_insert_eq. destruct cb as [c|]; [|exfalso; apply Hx; by left].
      split; [|by auto]. intros _. by eexists.
    + rewrite lookup_insert_ne by done. rewrite <- (He x); [naive_solver|].
      intros Hv. apply Hx, elem_of_app. by right.
  - destruct Hl as [t Ht]. destruct (cancel_ok s a t Hwf Ht) as (s2 & E2 & _ & Hst & Hin & _).
    rewrite E2 in E. injection E as _ <-. intros x Hx. rewrite Hin, Hst, (He x Hx). destruct (decide (x = a)) as [->|Hne].
    + rewrite lookup_insert_eq. naive_solver.
    + rewrite lookup_insert_ne by done. naive_solver.
  - destruct Hl as [t Ht]. destruct (refresh_ok s now a t Hwf Ht) as (b & s2 & E2 & _ & _ & Hin & Hst).
    rewrite E2 in E. injection E as _ <-. destruct b.
    + exact (exact_same _ s _ a t _ He Ht (or_introl Hst) (iff_refl _) Hin).
    + exact (exact_same _ s _ a t t He Ht (or_intror Hst) (iff_refl _) Hin).
  - destruct Hl as [t Ht].
    destruct (reset_ok s now a ms f t Hwf Ht) as (b & h & s2 & E2 & _ & Hin & _ & Hst).
    rewrite E2 in E. injection E as _ <-. cbv zeta in Hst. destruct (b && _).
    + exact (exact_same _ s _ a t _ He Ht (or_introl Hst) (iff_refl _) Hin).
    + exact (exact_same _ s _ a t t He Ht (or_intror Hst) (iff_refl _) Hin).
  - destruct (getNextTimer_ok s now Hwf) as (n & E2 & _). rewrite E2 in E. injection E as _ <-. exact He.
  - assert (Hne : ~ emptied (EExpired now an) s).
    { intros Hb%emptied_bad. rewrite Hb in E. discriminate E. }
    destruct (listExpiredCb_locked_ok s now an Hwf Hl) as (fired & rest & s2 & E2 & Hp).
    { destruct (m_timers s) eqn:El; [|by left]. right. destruct (rollover now s) eqn:Er; [done|].
      exfalso. by apply Hne. }
    rewrite E2 in E. injection E as _ <-. by eapply expired_exact.
Qed.

Lemma reachable_ok void s : reachable void s -> wf s /\ exact void s.
Proof.
  induction 1 as [now|void s e s' _ [IH IHe] Hl E].
  { split; [apply wf_TimerManager_new|]. intros a _. simpl. rewrite lookup_empty. split; [by intros ?%elem_of_nil|by intros (? & ? & _)]. }
  assert (Hne : ~ emptied e s).
  { intros He. destruct e; try (by destruct He). simpl in E. apply emptied_bad in He.
    by rewrite (st_bind_bad _ _ _ _ _ He) in E. }
  destruct (exec_ok e s IH Hl Hne) as (s1 & E1 & H).
  split; [rewrite E1 in E; injection E as <-; exact H|]. exact (exec_exact _ _ _ _ IH Hl E IHe).
Qed.
End Events.
Arguments event : clear implicits.

(** ** Properties *)

(** C3: whatever threads do with the timers of one manager, the set stays
    ordered and holds live timers only, and apart from the timers that were added without
    a callback it holds exactly those that have their callback: a timer that fired for the
    last time or was cancelled has left it. No operation goes wrong: in particular [cancel], [refresh] and [reset] never erase [end()].
    The single exception is the locked part of [listExpiredCb] run on a set that
    another thread has emptied since the unlocked test. *)
Theorem timer_manager_safe (F W : Type) void (s : TimerManager F W) e :
  reachable void s -> legal e s ->
  wf s /\ exact void s /\
  ((exists s', exec e s = (Val tt, s') /\ wf s' /\ exact (unset e ++ void) s') \/
   (emptied e s /\ exists s', exec e s = (Bad BadIterator, s'))).
Proof.
  intros [Hr Hx]%reachable_ok Hl. split; [done|]. split; [done|].
  assert (Hd : emptied e s \/ ~ emptied e s).
  { destruct e; [right; by intros []..|]. simpl. destruct (m_timers s), (rollover now s); naive_solver. }
  destruct Hd as [He|He]; [right|left].
  2:{ destruct (exec_ok e s Hr Hl He) as (s' & E & Hwf). exists s'. split; [done|].
      split; [done|]. exact (exec_exact _ _ _ _ Hr Hl E Hx). }
  split; [done|]. destruct e; try (by destruct He). apply emptied_bad in He. simpl. st_step He. by eexists.
Qed.

(** The expired pass, and the cancellation in between that breaks it. *)
Definition one_timer : TimerManager nat unit :=
  snd (addTimer 1000 16 50 (Some (Fun 1%nat)) false (TimerManager_new 1000)).

Lemma one_timer_reachable : reachable [] one_timer.
Proof.
  eapply (reach_step [] (TimerManager_new 1000) (EAdd 1000 16 50 (Some (Fun 1%nat)) false));
    [constructor|reflexivity|reflexivity].
Qed.

Lemma timer_manager_safe_witness :
  wf one_timer /\ exact [] one_timer /\
  ((exists s', exec (ECancel 16) one_timer = (Val tt, s') /\ wf s' /\ exact [] s') \/
   (emptied (ECancel 16) one_timer /\ exists s', exec (ECancel 16) one_timer = (Bad BadIterator, s'))).
Proof.
  apply (timer_manager_safe nat unit [] one_timer (ECancel 16)).
  - exact one_timer_reachable.
  - vm_compute. eexists. reflexivity.
Defined.

(** C4: one pass of [listExpiredCb]. The timers handed out are exactly the due
    ones (all of them after a clock rollover), in the order of their due times;
    one-shot timers leave the set and lose their callback, recurring ones are
    rescheduled one period from now, and the others are untouched. A timer due in
    this very millisecond is due only if its address is not above that of the
    temporary timer the set is searched with. *)
Theorem listExpiredCb_pass (F W : Type) (s : TimerManager F W) now an :
  wf s -> store s !! an = None ->
  exists fired rest s',
    listExpiredCb now an s = (Val (callbacks_of s fired), s') /\
    expired_pass s now an fired rest s'.
Proof.
  intros Hwf Han. destruct (m_timers s) as [|a l] eqn:El.
  - exists [], [], s. unfold listExpiredCb, mbind, st_bind, gets. rewrite El.
    split; [done|]. split; rewrite ?El; try done; [|constructor|].
    + by intros a ?%elem_of_nil.
    + intros a. rewrite !elem_of_nil. naive_solver.
  - destruct (listExpiredCb_locked_ok s now an Hwf Han) as (f & r & s' & E & Hp);
      [left; by rewrite El|].
    exists f, r, s'. split; [|done]. unfold listExpiredCb, mbind, st_bind, gets.
    by rewrite El.
Qed.

Lemma listExpiredCb_pass_witness :
  exists fired rest s',
    listExpiredCb 1050 32 one_timer = (Val (callbacks_of one_timer fired), s') /\
    expired_pass one_timer 1050 32 fired rest s'.
Proof.
  apply (listExpiredCb_pass nat unit one_timer 1050 32).
  - apply (reachable_ok [] one_timer one_timer_reachable).
  - reflexivity.
Defined.

(** [getNextTimer] is an exact sleep bound: the maximal value with no
    timer; zero exactly when some timer is due; otherwise the distance to the
    earliest one. *)
Theorem getNextTimer_bound (F W : Type) (s : TimerManager F W) now :
  wf s -> exists n, getNextTimer now s = (Val n, set_tickled false s) /\
    (m_timers s = [] -> n = 2 ^ 64 - 1) /\
    (n = 0 <-> exists a, a ∈ m_timers s /\ next_at (store s) a <= now) /\
    (m_timers s <> [] -> n <> 0 ->
     (exists a, a ∈ m_timers s /\ next_at (store s) a = now + n) /\
     forall a, a ∈ m_timers s -> now + n <= next_at (store s) a).
Proof. apply getNextTimer_ok. Qed.

Lemma getNextTimer_bound_witness :
  exists n, getNextTimer 1010 one_timer = (Val n, set_tickled false one_timer) /\ n = 40.
Proof.
  destruct (getNextTimer_bound nat unit one_timer 1010) as (n & E & _).
  - apply (reachable_ok [] one_timer one_timer_reachable).
  - exists n. split; [exact E|]. vm_compute in E. by injection E.
Defined.

(** a cancelled timer never fires. Cancelling an armed timer succeeds,
    takes it out of the set and drops its callback; from then on [cancel],
    [refresh] and [reset] with a new period fail and leave it disarmed, and no
    pass hands it out. *)
Theorem cancel_disarms (F W : Type) (s : TimerManager F W) a t :
  wf s -> store s !! a = Some t -> m_cb t <> None ->
  exists s', cancel a s = (Val true, s') /\ wf s' /\ a ∉ m_timers s' /\
    cancel a s' = (Val false, s') /\
    (forall now, refresh now a s' = (Val false, s')) /\
    (forall now ms, ms <> m_ms t -> reset now a ms false s' = (Val (false, false), s')) /\
    (forall now an cbs s'', store s' !! an = None ->
       listExpiredCb now an s' = (Val cbs, s'') ->
       exists fired rest, cbs = callbacks_of s' fired /\ m_timers s' = fired ++ rest /\ a ∉ fired).
Proof.
  intros Hwf Ht Hcb. destruct (cancel_ok s a t Hwf Ht) as (s' & E & Hwf' & Hst & Hin & _).
  rewrite bool_decide_true in E by (destruct (m_cb t); [by eexists|done]).
  assert (Hout : a ∉ m_timers s') by (rewrite Hin; naive_solver).
  assert (Ht' : store s' !! a = Some (set_cb None t)) by (rewrite Hst; apply lookup_insert_eq).
  exists s'. split_and!; try done.
  - unfold cancel, timer_at, mbind, st_bind. by rewrite Ht'.
  - intros now. unfold refresh, timer_at, mbind, st_bind. by rewrite Ht'.
  - intros now ms Hms. unfold reset, timer_at, mbind, st_bind. rewrite Ht'. simpl.
    rewrite decide_False by naive_solver. done.
  - intros now an cbs s'' Han E'. destruct (m_timers s') as [|x l] eqn:El.
    { exists [], []. unfold listExpiredCb, mbind, st_bind, gets in E'. rewrite El in E'.
      injection E' as <- _. by split_and!. }
    destruct (listExpiredCb_locked_ok s' now an Hwf' Han) as (f & r & s1 & E1 & Hp);
      [left; by rewrite El|].
    unfold listExpiredCb, mbind, st_bind, gets in E'. rewrite El, E1 in E'. simplify_eq.
    exists f, r. pose proof (ep_split _ _ _ _ _ _ Hp) as Hs. rewrite El in Hs.
    split_and!; try done. intros Ha. apply Hout. rewrite Hs. apply elem_of_app. by left.
Qed.

Lemma cancel_disarms_witness :
  exists s', cancel 16 one_timer = (Val true, s') /\ 16 ∉ m_timers s'.
Proof.
  destruct (cancel_disarms nat unit one_timer 16 (mkTimer false 50 1050 (Some (Fun 1%nat))))
    as (s' & E & _ & H & _).
  - apply (reachable_ok [] one_timer one_timer_reachable).
  - reflexivity.
  - discriminate.
  - exists s'. split; [exact E | exact H].
Defined.

(** [detectClockRollover] reports a jump back of more than an hour. The
    unsigned subtraction wraps for a previous time within the first hour of the
    epoch, where any jump back counts. *)
Theorem detectClockRollover_hour (F W : Type) (s : TimerManager F W) now :
  in_u 64 now -> in_u 64 (m_previouseTime s) ->
  exists b, detectClockRollover now s = (Val b, set_previous now s) /\
    (b = true <->
       if decide (m_previouseTime s < 3600000) then now < m_previouseTime s
       else now + 3600000 < m_previouseTime s).
Proof.
  intros Hn Hp. eexists. split; [reflexivity|]. unfold rollover. rewrite bool_decide_eq_true.
  change (60 * 60 * 1000) with 3600000. unfold in_u in *. case_decide as Hs.
  - replace (u64 (m_previouseTime s - 3600000)) with (m_previouseTime s - 3600000 + 2 ^ 64); [lia|].
    unfold wrap. apply Z.mod_unique with (-1); lia.
  - rewrite wrap_small by (unfold in_u; lia). lia.
Qed.

Lemma detectClockRollover_hour_witness :
  exists b, detectClockRollover 900 one_timer = (Val b, set_previous 900 one_timer) /\ b = true.
Proof.
  destruct (detectClockRollover_hour nat unit one_timer 900) as (b & E & H).
  - vm_compute. split; [intros X; discriminate X|reflexivity].
  - vm_compute. split; [intros X; discriminate X|reflexivity].
  - exists b. split; [exact E|]. apply H. vm_compute. reflexivity.
Defined.
