(* ===== verification/Fiber.v ===== *)
(** * Fibers (src/myhttp/fiber.h, src/myhttp/fiber.cpp)

    A fiber is a coroutine with a state, a stack and a function. The machine
    contexts themselves ([getcontext], [swapcontext]) are libc's and are assumed
    to succeed: [swapIn] is modelled up to the switch, after which the fiber's own
    code runs until it calls [swapOut] (through [YieldToReady], [YieldToHold] or
    the end of [MainFunc]). Fibers live in a store by address; the thread-local
    variables are maps from thread ids. *)
From stdpp Require Import base tactics option list gmap numbers.
From S2P Require Import Prelude.

Inductive State := INIT | HOLD | EXEC | TERM | READY | EXCEPT.
#[export] Instance State_eq_dec : EqDecision State.
Proof. solve_decision. Defined.

Section Fiber.
Context {F : Type}.

Record Fiber := mkFiber {
  m_id : Z;
  m_stacksize : Z;
  m_state : State;
  m_stack : bool;          (* whether a stack is allocated *)
  m_cb : option F
}.
Definition set_state st (f : Fiber) := mkFiber (m_id f) (m_stacksize f) st (m_stack f) (m_cb f).
Definition set_cb cb (f : Fiber) := mkFiber (m_id f) (m_stacksize f) (m_state f) (m_stack f) cb.

Record Fibers := mkFibers {
  store : gmap Z Fiber;
  s_fiber_id : Z;
  s_fiber_count : Z;
  t_fiber : gmap Z Z;         (* per thread: the fiber that is executing *)
  t_threadFiber : gmap Z Z    (* per thread: its main fiber *)
}.
Definition set_store h (s : Fibers) :=
  mkFibers h (s_fiber_id s) (s_fiber_count s) (t_fiber s) (t_threadFiber s).
Definition set_count n (s : Fibers) :=
  mkFibers (store s) (s_fiber_id s) n (t_fiber s) (t_threadFiber s).
Definition set_id n (s : Fibers) :=
  mkFibers (store s) n (s_fiber_count s) (t_fiber s) (t_threadFiber s).
Definition put a f (s : Fibers) := set_store (<[a := f]> (store s)) s.

Definition fiber_at (a : Z) : ST Fibers Fiber := fun s => (deref NullDeref (store s !! a), s).
Definition update (a : Z) (g : Fiber -> Fiber) : ST Fibers unit :=
  f ← fiber_at a; modify (put a (g f)).

(** [SetThis(f)] on thread [t]; [None] is [nullptr]. *)
Definition SetThis (t : Z) (f : option Z) : ST Fibers unit := modify (fun s =>
  mkFibers (store s) (s_fiber_id s) (s_fiber_count s)
    (match f with Some a => <[t := a]> (t_fiber s) | None => delete t (t_fiber s) end)
    (t_threadFiber s)).
Definition set_threadFiber (t a : Z) : ST Fibers unit := modify (fun s =>
  mkFibers (store s) (s_fiber_id s) (s_fiber_count s) (t_fiber s)
    (<[t := a]> (t_threadFiber s))).

(** [Fiber::Fiber()]: the main fiber of thread [t], at address [a]. *)
Definition Fiber_main (t a : Z) : ST Fibers unit :=
  modify (put a (mkFiber 0 0 EXEC false None));;
SetThis t (Some a);;
  modify (fun s => set_count (u64 (s_fiber_count s + 1)) s).

(** [Fiber::Fiber(cb, stacksize)]; [g_fiber_stack_size]: the configured size. *)
Definition Fiber_new (g_fiber_stack_size a : Z) (cb : option F) (stacksize : Z) :
    ST Fibers unit :=
  modify (fun s => set_id (u64 (s_fiber_id s + 1)) s);;
  modify (fun s => set_count (u64 (s_fiber_count s + 1)) s);;
  id ← gets s_fiber_id;
  let size := u32 (if decide (stacksize = 0) then g_fiber_stack_size else stacksize) in
  modify (put a (mkFiber id size INIT true cb)).

Definition resettable (st : State) : bool :=
  bool_decide (st = TERM \/ st = EXCEPT \/ st = INIT).

(** [Fiber::~Fiber()], run on thread [t]. *)
Definition Fiber_delete (t a : Z) : ST Fibers unit :=
  modify (fun s => set_count (u64 (s_fiber_count s - 1)) s);;
  f ← fiber_at a;
  (if m_stack f then check (resettable (m_state f))
   else
     check (match m_cb f with None => true | Some _ => false end);;
     check (bool_decide (m_state f = EXEC));;
     cur ← gets (fun s => t_fiber s !! t);
     if decide (cur = Some a) then SetThis t None else mret tt);;
  modify (fun s => set_store (delete a (store s)) s).

(** [reset(cb)] *)
Definition reset (a : Z) (cb : option F) : ST Fibers unit :=
  f ← fiber_at a;
  check (m_stack f);;
  check (resettable (m_state f));;
  update a (set_cb cb);;
  update a (set_state INIT).

(** [swapIn] on thread [t], up to the context switch. *)
Definition swapIn (t a : Z) : ST Fibers unit :=
SetThis t (Some a);;
  f ← fiber_at a;
  check (bool_decide (m_state f <> EXEC));;
  update a (set_state EXEC);;
  main ← gets (fun s => t_threadFiber s !! t);
  lift (deref NullDeref main);;
  mret tt.

(** [swapOut]: back to the thread's main fiber. *)
Definition swapOut (t : Z) : ST Fibers unit :=
  main ← gets (fun s => t_threadFiber s !! t);
SetThis t main;;
  lift (deref NullDeref main);;
  mret tt.

(** [GetThis()] on thread [t]; [a]: the address of a main fiber it may have to
  create. *)
Definition GetThis (t a : Z) : ST Fibers Z :=
  cur ← gets (fun s => t_fiber s !! t);
  match cur with
  | Some f => mret f
  | None =>
      Fiber_main t a;;
      cur' ← gets (fun s => t_fiber s !! t);
      check (bool_decide (cur' = Some a));;
      set_threadFiber t a;;
      mret a
  end.

Definition YieldToReady (t a : Z) : ST Fibers unit :=
  cur ← GetThis t a; update cur (set_state READY);; swapOut t.
Definition YieldToHold (t a : Z) : ST Fibers unit :=
  cur ← GetThis t a; update cur (set_state HOLD);; swapOut t.

(** The end of [MainFunc] of fiber [cur], running on thread [t] by then;
  [raised]: whether the function threw. Calling an empty function throws
  [std::bad_function_call]. *)
Definition MainFunc (t cur : Z) (raised : bool) : ST Fibers unit :=
  f ← fiber_at cur;
  (if match m_cb f with None => true | Some _ => raised end
   then update cur (set_state EXCEPT)
   else update cur (set_cb None);; update cur (set_state TERM));;
  swapOut t.

Definition GetFiberId (t : Z) : ST Fibers Z :=
  cur ← gets (fun s => t_fiber s !! t);
  match cur with
  | Some a => f ← fiber_at a; mret (m_id f)
  | None => mret 0
  end.
Definition ToTalFibers (s : Fibers) : Z := s_fiber_count s.
End Fiber.
Arguments Fiber : clear implicits.
Arguments Fibers : clear implicits.

(** ** Lemmas *)

Section Proofs.
Context {F : Type}.
Implicit Types (s : Fibers F) (f : Fiber F).

Lemma update_ok s a g f :
  store s !! a = Some f -> update a g s = (Val tt, put a (g f) s).
Proof. intros E. unfold update, fiber_at, mbind, st_bind. by rewrite E. Qed.

(** [s] with fiber [a] on the processor of thread [t]. *)
Definition on_thread (t a : Z) s : Fibers F :=
  mkFibers (store s) (s_fiber_id s) (s_fiber_count s) (<[t := a]> (t_fiber s)) (t_threadFiber s).

Lemma swapIn_ok s t a f main :
  store s !! a = Some f -> m_state f <> EXEC -> t_threadFiber s !! t = Some main ->
  swapIn t a s = (Val tt, put a (set_state EXEC f) (on_thread t a s)).
Proof.
  intros Ha Hst Hm. unfold swapIn, SetThis, fiber_at, update, modify, gets, lift, mbind, st_bind.
  simpl. rewrite Ha. simpl. rewrite bool_decide_true by done. simpl.
  unfold fiber_at. simpl. rewrite Ha. simpl. by rewrite Hm.
Qed.

Lemma swapIn_executing s t a f :
  store s !! a = Some f -> m_state f = EXEC ->
  swapIn t a s = (Bad AssertFailed, on_thread t a s).
Proof.
  intros Ha Hst. unfold swapIn, SetThis, fiber_at, modify, mbind, st_bind.
  simpl. rewrite Ha. simpl. by rewrite bool_decide_false by (rewrite Hst; naive_solver).
Qed.

Lemma swapOut_ok s t main :
  t_threadFiber s !! t = Some main -> swapOut t s = (Val tt, on_thread t main s).
Proof.
  intros Hm. unfold swapOut, SetThis, modify, gets, lift, mbind, st_bind. by rewrite Hm.
Qed.

Lemma GetThis_running s t x a :
  t_fiber s !! t = Some a -> GetThis t x s = (Val a, s).
Proof. intros E. unfold GetThis, gets, mbind, st_bind. by rewrite E. Qed.

Lemma YieldToReady_ok s t x a f main :
  t_fiber s !! t = Some a -> store s !! a = Some f -> t_threadFiber s !! t = Some main ->
  YieldToReady t x s = (Val tt, on_thread t main (put a (set_state READY f) s)).
Proof.
  intros Ht Ha Hm. unfold YieldToReady. st_step (GetThis_running s t x a Ht).
  st_step (update_ok s a (set_state READY) f Ha). by apply swapOut_ok.
Qed.

Lemma YieldToHold_ok s t x a f main :
  t_fiber s !! t = Some a -> store s !! a = Some f -> t_threadFiber s !! t = Some main ->
  YieldToHold t x s = (Val tt, on_thread t main (put a (set_state HOLD f) s)).
Proof.
  intros Ht Ha Hm. unfold YieldToHold. st_step (GetThis_running s t x a Ht).
  st_step (update_ok s a (set_state HOLD) f Ha). by apply swapOut_ok.
Qed.

(** A fiber after its function returned or threw. *)
Definition ended (raised : bool) f : Fiber F :=
  match m_cb f with
  | None => set_state EXCEPT f
  | Some _ => if raised then set_state EXCEPT f else set_state TERM (set_cb None f)
  end.

Lemma MainFunc_ok s t a f main raised :
  store s !! a = Some f -> t_threadFiber s !! t = Some main ->
  exists s', MainFunc t a raised s = (Val tt, on_thread t main s') /\
    store s' = <[a := ended raised f]> (store s) /\
    t_fiber s' = t_fiber s /\ t_threadFiber s' = t_threadFiber s.
Proof.
  intros Ha Hm. unfold MainFunc, fiber_at, mbind at 1, st_bind at 1. rewrite Ha. simpl.
  assert (Hexc : forall s1, s1 = put a (set_state EXCEPT f) s ->
    exists s', swapOut t s1 = (Val tt, on_thread t main s') /\
      store s' = <[a := set_state EXCEPT f]> (store s) /\
      t_fiber s' = t_fiber s /\ t_threadFiber s' = t_threadFiber s).
  { intros s1 ->. exists (put a (set_state EXCEPT f) s). by rewrite (swapOut_ok _ t main). }
  unfold ended. destruct (m_cb f) eqn:Ecb; [destruct raised|].
  - st_step (update_ok s a (set_state EXCEPT) f Ha). by apply Hexc.
  - unfold mbind at 1 2, st_bind at 1 2. rewrite (update_ok s a (set_cb None) f Ha).
    rewrite (update_ok _ a (set_state TERM) (set_cb None f)) by apply lookup_insert_eq.
    eexists. rewrite (swapOut_ok _ t main) by done. split; [reflexivity|].
    split_and!; try done. simpl. by rewrite insert_insert_eq.
  - st_step (update_ok s a (set_state EXCEPT) f Ha). by apply Hexc.
Qed.
End Proofs.

(** ** Properties *)

(** C12: one slice of a fiber. Switching to a fiber that is not executing marks
    it executing and makes it the thread's current fiber; whatever ends the slice
    (a yield, the return of its function or an exception) puts the thread back on
    its main fiber and leaves the fiber READY, HOLD, TERM (its function dropped) or
    EXCEPT, with every other fiber untouched. Switching to an executing fiber fails
    the assertion. *)
Theorem fiber_slice (F : Type) (s : Fibers F) t a f main :
  store s !! a = Some f -> t_threadFiber s !! t = Some main ->
  (m_state f = EXEC -> fst (swapIn t a s) = Bad AssertFailed) /\
  (m_state f <> EXEC -> exists s1, swapIn t a s = (Val tt, s1) /\
     store s1 = <[a := set_state EXEC f]> (store s) /\ t_fiber s1 !! t = Some a /\
     (forall x, exists s2, YieldToReady t x s1 = (Val tt, s2) /\
        store s2 = <[a := set_state READY f]> (store s) /\ t_fiber s2 !! t = Some main) /\
     (forall x, exists s2, YieldToHold t x s1 = (Val tt, s2) /\
        store s2 = <[a := set_state HOLD f]> (store s) /\ t_fiber s2 !! t = Some main) /\
     (forall raised, exists s2, MainFunc t a raised s1 = (Val tt, s2) /\
        store s2 = <[a := ended raised f]> (store s) /\ t_fiber s2 !! t = Some main)).
Proof.
  intros Ha Hm. split; intros Hst; [by rewrite (swapIn_executing s t a f)|].
  eexists. split; [by apply (swapIn_ok s t a f main)|].
  set (s1 := put a _ _). assert (Ht : t_fiber s1 !! t = Some a) by apply lookup_insert_eq.
  assert (Ha1 : store s1 !! a = Some (set_state EXEC f)) by apply lookup_insert_eq.
  split; [done|]. split; [done|]. split_and!.
  - intros x. rewrite (YieldToReady_ok s1 t x a _ main) by done.
    eexists. split; [done|]. split; [apply insert_insert_eq|apply lookup_insert_eq].
  - intros x. rewrite (YieldToHold_ok s1 t x a _ main) by done.
    eexists. split; [done|]. split; [apply insert_insert_eq|apply lookup_insert_eq].
  - intros raised. destruct (MainFunc_ok s1 t a _ main raised Ha1 Hm) as (s2 & E & Hs & _).
    eexists. split; [exact E|]. split; [|apply lookup_insert_eq].
    simpl. rewrite Hs. unfold s1. simpl. rewrite insert_insert_eq. f_equal.
Qed.

(** A thread 1 with main fiber 10 and a new fiber 20. *)
Definition two_fibers : Fibers nat :=
  snd ((GetThis 1 10;; Fiber_new 4096 20 (Some 5%nat) 0) (mkFibers ∅ 0 0 ∅ ∅)).

Lemma fiber_slice_witness :
  exists s1, swapIn 1 20 two_fibers = (Val tt, s1) /\ t_fiber s1 !! 1 = Some 20.
Proof.
  destruct (fiber_slice nat two_fibers 1 20 (mkFiber 1 4096 INIT true (Some 5%nat)) 10)
    as [_ H]; [reflexivity|reflexivity|].
  destruct H as (s1 & E & _ & Ht & _); [discriminate|].
  exists s1. split; [exact E | exact Ht].
Defined.
