(* ===== verification/Scheduler.v ===== *)
(** * The scheduler (src/myhttp/scheduler.h, src/myhttp/scheduler.cpp)

    The queue [m_fibers], the counters, and the loop of [run] cut at the points
    where other threads can interfere: picking a task (under the mutex), switching
    to it, the counter update after it came back, and the treatment of its state.
    A worker's position in the loop is its [phase]; what the running fiber does is
    up to its code and appears as the actions of the current thread. The virtual
    [tickle] is counted in [tickles]. *)
From stdpp Require Import base tactics option list gmap fin_maps numbers.
From S2P Require Import Prelude.
From S2P Require Fiber.
Import Fiber (State, INIT, HOLD, EXEC, TERM, READY, EXCEPT, Fibers).

#[local] Existing Instance Fiber.State_eq_dec.

Section Scheduler.
Context {F : Type}.

Record FiberAndThread := mkFT {
  fiber : option Z;
  cb : option F;
  thread : Z
}.
Definition ft_reset : FiberAndThread := mkFT None None (-1).

Record Scheduler := mkScheduler {
  m_fibers : list FiberAndThread;
  m_threadIds : list Z;
  m_threadCount : Z;
  m_activeThreadCount : Z;
  m_idleThreadCount : Z;
  m_stopping : bool;
  m_autoStop : bool;
  m_rootThread : Z;
  m_threads : list Z;              (* the ids of the running threads *)
  tickles : nat;
  sys : Fibers F
}.
Definition set_fibers l (s : Scheduler) := mkScheduler l (m_threadIds s) (m_threadCount s)
  (m_activeThreadCount s) (m_idleThreadCount s) (m_stopping s) (m_autoStop s)
  (m_rootThread s) (m_threads s) (tickles s) (sys s).
Definition set_active n (s : Scheduler) := mkScheduler (m_fibers s) (m_threadIds s)
  (m_threadCount s) n (m_idleThreadCount s) (m_stopping s) (m_autoStop s)
  (m_rootThread s) (m_threads s) (tickles s) (sys s).
Definition set_idle n (s : Scheduler) := mkScheduler (m_fibers s) (m_threadIds s)
  (m_threadCount s) (m_activeThreadCount s) n (m_stopping s) (m_autoStop s)
  (m_rootThread s) (m_threads s) (tickles s) (sys s).
Definition set_stop a b (s : Scheduler) := mkScheduler (m_fibers s) (m_threadIds s)
  (m_threadCount s) (m_activeThreadCount s) (m_idleThreadCount s) a b
  (m_rootThread s) (m_threads s) (tickles s) (sys s).
Definition set_threads ts ids (s : Scheduler) := mkScheduler (m_fibers s) ids
  (m_threadCount s) (m_activeThreadCount s) (m_idleThreadCount s) (m_stopping s)
  (m_autoStop s) (m_rootThread s) ts (tickles s) (sys s).
Definition set_sys x (s : Scheduler) := mkScheduler (m_fibers s) (m_threadIds s)
  (m_threadCount s) (m_activeThreadCount s) (m_idleThreadCount s) (m_stopping s)
  (m_autoStop s) (m_rootThread s) (m_threads s) (tickles s) x.

(** An operation on the fibers, inside the scheduler. *)
Definition on_sys {A} (m : ST (Fibers F) A) : ST Scheduler A := fun s =>
  let '(r, x) := m (sys s) in (r, set_sys x s).

Definition tickle : ST Scheduler unit := modify (fun s => mkScheduler (m_fibers s)
  (m_threadIds s) (m_threadCount s) (m_activeThreadCount s) (m_idleThreadCount s)
  (m_stopping s) (m_autoStop s) (m_rootThread s) (m_threads s) (S (tickles s)) (sys s)).
Definition stopping (s : Scheduler) : bool :=
  m_autoStop s && m_stopping s && bool_decide (m_fibers s = []) &&
  bool_decide (m_activeThreadCount s = 0).
Definition hasIdleThreads (s : Scheduler) : bool := bool_decide (m_idleThreadCount s > 0).

(** The constructor with [use_caller] false or true; [self]: the calling thread,
  [a]: an address for its main fiber. *)
Definition Scheduler_new (self a : Z) (threads : Z) (use_caller : bool) (x : Fibers F) :
    res Scheduler :=
  if decide (threads > 0) then
    if use_caller then
      let '(r, x') := Fiber.GetThis self a x in
      _ ← r;
      Val (mkScheduler [] [self] (threads - 1) 0 0 true false self [] 0 x')
    else Val (mkScheduler [] [] threads 0 0 true false (-1) [] 0 x)
  else Bad AssertFailed.

(** [start]: [ids] are the ids the new threads get. *)
Definition start (ids : list Z) : ST Scheduler unit :=
  stopped ← gets m_stopping;
  if negb stopped then mret tt else
  auto ← gets m_autoStop;
  modify (set_stop false auto);;
  ts ← gets m_threads;
  check (match ts with [] => true | _ => false end);;
  n ← gets m_threadCount;
  old ← gets m_threadIds;
  let new := take (Z.to_nat n) ids in
  modify (set_threads new (old ++ new)).

Definition scheduleNoLock (ft : FiberAndThread) : ST Scheduler bool :=
  l ← gets m_fibers;
  let need_tickle := match l with [] => true | _ => false end in
  (if bool_decide (is_Some (fiber ft) \/ is_Some (cb ft))
   then modify (set_fibers (l ++ [ft])) else mret tt);;
  mret need_tickle.
Definition schedule (ft : FiberAndThread) : ST Scheduler unit :=
  need_tickle ← scheduleNoLock ft;
  if need_tickle : bool then tickle else mret tt.
(** [schedule(begin, end)]: the tasks are swapped out of the sequence. *)
Fixpoint schedule_each (l : list FiberAndThread) : ST Scheduler bool :=
  match l with
  | [] => mret false
  | ft :: l' =>
      b ← scheduleNoLock ft;
      b' ← schedule_each l';
      mret (b || b')
  end.
Definition schedule_range (l : list FiberAndThread) : ST Scheduler unit :=
  need_tickle ← schedule_each l;
  if need_tickle : bool then tickle else mret tt.

(** [stop], up to the wait for [stopping()]. *)
Definition stop_request : ST Scheduler unit :=
  modify (set_stop true true);;
  n ← gets m_threadCount;
  Nat.iter (Z.to_nat n) (fun m => tickle;; m) (mret tt).

(** ** One round of [run] *)

Definition fiber_state (s : Scheduler) (a : Z) : res State :=
  f ← deref NullDeref (Fiber.store (sys s) !! a); Val (Fiber.m_state f).

(** The search of the queue by thread [tid]: what precedes the task found, the
  task and what follows, and whether a task of another thread was passed. *)
Fixpoint pick_loop (s : Scheduler) (tid : Z) (pre l : list FiberAndThread)
    (tickle_me : bool) : res (option (list FiberAndThread * FiberAndThread) * bool) :=
  match l with
  | [] => Val (None, tickle_me)
  | it :: l' =>
      if decide (thread it <> -1 /\ thread it <> tid)
      then pick_loop s tid (pre ++ [it]) l' true
      else
        match fiber it, cb it with
        | None, None => Bad AssertFailed
        | Some f, _ =>
            st ← fiber_state s f;
            if decide (st = EXEC) then pick_loop s tid (pre ++ [it]) l' tickle_me
            else Val (Some (pre ++ l', it), tickle_me)
        | None, Some _ => Val (Some (pre ++ l', it), tickle_me)
        end
  end.

(** The locked part and the [tickle] after it; the empty task if none fits. *)
Definition pick (tid : Z) : ST Scheduler FiberAndThread := fun s =>
  match pick_loop s tid [] (m_fibers s) false with
  | Val (found, tickle_me) =>
      let '(ft, s1) :=
        match found with
        | Some (l, it) =>
            (it, set_fibers l (set_active (u64 (m_activeThreadCount s + 1)) s))
        | None => (ft_reset, s)
        end in
      let '(_, s2) := (if tickle_me : bool then tickle else mret tt) s1 in
      (Val ft, s2)
  | Exc e => (Exc e, s)
  | Bad f => (Bad f, s)
  end.

(** Where a worker is in the loop. *)
Inductive phase :=
  | PTop                        (* at the head of the loop *)
  | PPicked (ft : FiberAndThread)
  | PFiber (f : Z)              (* switched to a fiber of the queue *)
  | PFiberBack (f : Z)          (* it came back, the counter is updated *)
  | PCb (f : Z)                 (* switched to [cb_fiber] *)
  | PCbBack (f : Z)
  | PIdle                       (* switched to [idle_fiber] *)
  | PExit.
Record Worker := mkWorker { w_phase : phase; cb_fiber : option Z; idle_fiber : Z }.

Definition done_state (st : State) : bool := bool_decide (st = TERM \/ st = EXCEPT).

(** [ft.fiber && state != TERM && state != EXCEPT] *)
Definition runnable (ft : FiberAndThread) : ST Scheduler (option Z) := fun s =>
  match fiber ft with
  | None => (Val None, s)
  | Some f => (st ← fiber_state s f; Val (if done_state st then None else Some f), s)
  end.

(** From the task in hand to the context switch. [a]: an address for a new
  fiber, [size]: the configured stack size. *)
Definition dispatch (size tid a : Z) (ft : FiberAndThread) (w : Worker) :
    ST Scheduler Worker :=
  first ← runnable ft;
  match first, cb ft with
  | Some f, _ =>
      on_sys (Fiber.swapIn tid f);;
      mret (mkWorker (PFiber f) (cb_fiber w) (idle_fiber w))
  | None, Some c =>
      g ← match cb_fiber w with
          | Some g => on_sys (Fiber.reset g (Some c));; mret g
          | None => on_sys (Fiber.Fiber_new size a (Some c) 0);; mret a
          end;
      on_sys (Fiber.swapIn tid g);;
      mret (mkWorker (PCb g) (Some g) (idle_fiber w))
  | None, None =>
      st ← (fun s => (fiber_state s (idle_fiber w), s));
      if decide (st = TERM) then mret (mkWorker PExit (cb_fiber w) (idle_fiber w)) else
      modify (fun s => set_idle (u64 (m_idleThreadCount s + 1)) s);;
      on_sys (Fiber.swapIn tid (idle_fiber w));;
      mret (mkWorker PIdle (cb_fiber w) (idle_fiber w))
  end.

(** The switched-to fiber came back: the counter first, for a task ... *)
Definition back (w : Worker) : ST Scheduler Worker :=
  match w_phase w with
  | PFiber f =>
      modify (fun s => set_active (u64 (m_activeThreadCount s - 1)) s);;
      mret (mkWorker (PFiberBack f) (cb_fiber w) (idle_fiber w))
  | PCb f =>
      modify (fun s => set_active (u64 (m_activeThreadCount s - 1)) s);;
      mret (mkWorker (PCbBack f) (cb_fiber w) (idle_fiber w))
  | PIdle =>
      st ← (fun s => (fiber_state s (idle_fiber w), s));
      (if done_state st then mret tt
       else on_sys (Fiber.update (idle_fiber w) (Fiber.set_state HOLD)));;
      modify (fun s => set_idle (u64 (m_idleThreadCount s - 1)) s);;
      mret (mkWorker PTop (cb_fiber w) (idle_fiber w))
  | _ => mret w
  end.

(** ... then its state. *)
Definition settle (w : Worker) : ST Scheduler Worker :=
  match w_phase w with
  | PFiberBack f =>
      st ← (fun s => (fiber_state s f, s));
      (if decide (st = READY) then schedule (mkFT (Some f) None (-1))
       else if done_state st then mret tt
       else on_sys (Fiber.update f (Fiber.set_state HOLD)));;
      mret (mkWorker PTop (cb_fiber w) (idle_fiber w))
  | PCbBack f =>
      st ← (fun s => (fiber_state s f, s));
      if decide (st = READY) then
        schedule (mkFT (Some f) None (-1));;
        mret (mkWorker PTop None (idle_fiber w))
      else if done_state st then
        on_sys (Fiber.reset f None);;
        mret (mkWorker PTop (cb_fiber w) (idle_fiber w))
      else
        on_sys (Fiber.update f (Fiber.set_state HOLD));;
        mret (mkWorker PTop None (idle_fiber w))
  | _ => mret w
  end.

(** ** A pool of workers *)

(** [leaked] counts the finished fibers that were picked: a ghost. *)
Record Pool := mkPool { sched : Scheduler; workers : gmap Z Worker; leaked : Z }.

(** The beginning of [run] on thread [tid]: [idle] names the idle function. *)
Definition run_begin (size tid main idle_addr : Z) (idle : F) : ST Scheduler Worker :=
  root ← gets m_rootThread;
  (if decide (tid <> root) then on_sys (Fiber.GetThis tid main);; mret tt else mret tt);;
  on_sys (Fiber.Fiber_new size idle_addr (Some idle) 0);;
  mret (mkWorker PTop None idle_addr).

Inductive action :=
  | APick (tid : Z)
  | ADispatch (size tid a : Z)
  | ABack (tid : Z)
  | ASettle (tid : Z)
  | AYieldToReady (tid : Z)      (* the code running on thread tid yields *)
  | AYieldToHold (tid : Z)
  | AFinish (tid : Z) (raised : bool)   (* or ends *)
  | ASchedule (ft : FiberAndThread)
  | AStop.

(** The fiber running on thread [tid] for its worker. *)
Definition running (w : Worker) : option Z :=
  match w_phase w with
  | PFiber f | PCb f => Some f
  | PIdle => Some (idle_fiber w)
  | _ => None
  end.
Definition in_fiber (s : Scheduler) (tid : Z) (w : Worker) : Prop :=
  is_Some (running w) /\ Fiber.t_fiber (sys s) !! tid = running w.
Definition in_loop (s : Scheduler) (tid : Z) : Prop :=
  Fiber.t_fiber (sys s) !! tid = Fiber.t_threadFiber (sys s) !! tid.

Definition empty_task (ft : FiberAndThread) : bool :=
  match fiber ft, cb ft with None, None => true | _, _ => false end.

(** A task in hand that is neither run nor given back. *)
Definition leak (ft : FiberAndThread) (w : Worker) : Z :=
  match w_phase w with
  | PIdle | PExit => if empty_task ft then 0 else 1
  | _ => 0
  end.

(** One action, when it is enabled; it must not fault. *)
Inductive step : Pool -> action -> Pool -> Prop :=
  | step_pick p tid w ft s' :
      workers p !! tid = Some w -> w_phase w = PTop ->
      pick tid (sched p) = (Val ft, s') ->
      step p (APick tid)
        (mkPool s' (<[tid := mkWorker (PPicked ft) (cb_fiber w) (idle_fiber w)]> (workers p))
           (leaked p))
  | step_dispatch p size tid a w ft w' s' :
      workers p !! tid = Some w -> w_phase w = PPicked ft ->
      Fiber.store (sys (sched p)) !! a = None ->
      dispatch size tid a ft w (sched p) = (Val w', s') ->
      step p (ADispatch size tid a)
        (mkPool s' (<[tid := w']> (workers p))
           (leaked p + leak ft w'))
  | step_back p tid w w' s' :
      workers p !! tid = Some w -> is_Some (running w) -> in_loop (sched p) tid ->
      back w (sched p) = (Val w', s') ->
      step p (ABack tid) (mkPool s' (<[tid := w']> (workers p)) (leaked p))
  | step_settle p tid w w' s' :
      workers p !! tid = Some w ->
      settle w (sched p) = (Val w', s') ->
      step p (ASettle tid) (mkPool s' (<[tid := w']> (workers p)) (leaked p))
  | step_ready p tid w s' :
      workers p !! tid = Some w -> in_fiber (sched p) tid w ->
      on_sys (Fiber.YieldToReady tid 0) (sched p) = (Val tt, s') ->
      step p (AYieldToReady tid) (mkPool s' (workers p) (leaked p))
  | step_hold p tid w s' :
      workers p !! tid = Some w -> in_fiber (sched p) tid w ->
      on_sys (Fiber.YieldToHold tid 0) (sched p) = (Val tt, s') ->
      step p (AYieldToHold tid) (mkPool s' (workers p) (leaked p))
  | step_finish p tid w f raised s' :
      workers p !! tid = Some w -> in_fiber (sched p) tid w -> running w = Some f ->
      on_sys (Fiber.MainFunc tid f raised) (sched p) = (Val tt, s') ->
      step p (AFinish tid raised) (mkPool s' (workers p) (leaked p))
  | step_schedule p ft s' :
      schedule ft (sched p) = (Val tt, s') ->
      step p (ASchedule ft) (mkPool s' (workers p) (leaked p))
  | step_stop p s' :
      stop_request (sched p) = (Val tt, s') ->
      step p AStop (mkPool s' (workers p) (leaked p)).

(** The same, executable: [None] when the action is not enabled or faults. *)
Definition enabled_in_fiber (s : Scheduler) (tid : Z) (w : Worker) : bool :=
  bool_decide (is_Some (running w)) &&
  bool_decide (Fiber.t_fiber (sys s) !! tid = running w).
Definition ok {A} (r : res A * Scheduler) : option (A * Scheduler) :=
  match r with (Val a, s) => Some (a, s) | _ => None end.
Definition exec_action (p : Pool) (ac : action) : option Pool :=
  let in_fiber_do tid (m : Worker -> ST Scheduler unit) :=
    w ← workers p !! tid;
    if enabled_in_fiber (sched p) tid w then
      '(_, s') ← ok (m w (sched p)); Some (mkPool s' (workers p) (leaked p))
    else None in
  match ac with
  | APick tid =>
      w ← workers p !! tid;
      match w_phase w with
      | PTop =>
          '(ft, s') ← ok (pick tid (sched p));
          Some (mkPool s' (<[tid := mkWorker (PPicked ft) (cb_fiber w) (idle_fiber w)]>
            (workers p)) (leaked p))
      | _ => None
      end
  | ADispatch size tid a =>
      w ← workers p !! tid;
      match w_phase w, Fiber.store (sys (sched p)) !! a with
      | PPicked ft, None =>
          '(w', s') ← ok (dispatch size tid a ft w (sched p));
          Some (mkPool s' (<[tid := w']> (workers p))
            (leaked p + leak ft w'))
      | _, _ => None
      end
  | ABack tid =>
      w ← workers p !! tid;
      if bool_decide (is_Some (running w)) &&
         bool_decide (Fiber.t_fiber (sys (sched p)) !! tid =
                      Fiber.t_threadFiber (sys (sched p)) !! tid)
      then '(w', s') ← ok (back w (sched p)); Some (mkPool s' (<[tid := w']> (workers p)) (leaked p))
      else None
  | ASettle tid =>
      w ← workers p !! tid;
      '(w', s') ← ok (settle w (sched p));
      Some (mkPool s' (<[tid := w']> (workers p)) (leaked p))
  | AYieldToReady tid => in_fiber_do tid (fun _ => on_sys (Fiber.YieldToReady tid 0))
  | AYieldToHold tid => in_fiber_do tid (fun _ => on_sys (Fiber.YieldToHold tid 0))
  | AFinish tid raised => in_fiber_do tid (fun w =>
      match running w with
      | Some f => on_sys (Fiber.MainFunc tid f raised)
      | None => crash NullDeref
      end)
  | ASchedule ft =>
      '(_, s') ← ok (schedule ft (sched p)); Some (mkPool s' (workers p) (leaked p))
  | AStop => '(_, s') ← ok (stop_request (sched p)); Some (mkPool s' (workers p) (leaked p))
  end.
Fixpoint exec_actions (p : Pool) (acs : list action) : option Pool :=
  match acs with
  | [] => Some p
  | ac :: acs' => p' ← exec_action p ac; exec_actions p' acs'
  end.
End Scheduler.
Arguments FiberAndThread : clear implicits.
Arguments Scheduler : clear implicits.
Arguments Pool : clear implicits.
Arguments action : clear implicits.

(** ** Lemmas *)

Create HintDb keeps.

Section Proofs.
Context {F : Type}.
Implicit Types (s : Scheduler F) (ft : FiberAndThread F) (p : Pool F) (w : @Worker F).

(** The queue holds tasks, and their fibers are alive. *)
Definition queue_ok s (l : list (FiberAndThread F)) : Prop :=
  Forall (fun ft => empty_task ft = false /\
    forall f, fiber ft = Some f -> is_Some (Fiber.store (sys s) !! f)) l.

Definition pinned_elsewhere tid ft : bool := bool_decide (thread ft <> -1 /\ thread ft <> tid).
Definition executing s ft : bool :=
  match fiber ft with
  | Some f => bool_decide (fiber_state s f = Val EXEC)
  | None => false
  end.
(** What thread [tid] may take. *)
Definition eligible s tid ft : bool := negb (pinned_elsewhere tid ft) && negb (executing s ft).

Lemma pick_loop_spec s tid pre l t0 :
  queue_ok s l ->
  (exists q ft post, l = q ++ ft :: post /\ forallb (fun x => negb (eligible s tid x)) q = true /\
     eligible s tid ft = true /\
     pick_loop s tid pre l t0 =
       Val (Some (pre ++ q ++ post, ft), t0 || existsb (pinned_elsewhere tid) q)) \/
  (forallb (fun x => negb (eligible s tid x)) l = true /\
     pick_loop s tid pre l t0 = Val (None, t0 || existsb (pinned_elsewhere tid) l)).
Proof.
  revert pre t0. induction l as [|it l IH]; intros pre t0 Hok.
  { right. simpl. by rewrite orb_false_r. }
  apply list.Forall_cons in Hok as [[Hne Hlive] Hok].
  assert (Hskip : forall t1, eligible s tid it = false ->
    t1 = t0 || pinned_elsewhere tid it ->
    pick_loop s tid pre (it :: l) t0 = pick_loop s tid (pre ++ [it]) l t1 ->
    (exists q ft post, it :: l = q ++ ft :: post /\
       forallb (fun x => negb (eligible s tid x)) q = true /\ eligible s tid ft = true /\
       pick_loop s tid pre (it :: l) t0 =
         Val (Some (pre ++ q ++ post, ft), t0 || existsb (pinned_elsewhere tid) q)) \/
    (forallb (fun x => negb (eligible s tid x)) (it :: l) = true /\
       pick_loop s tid pre (it :: l) t0 =
         Val (None, t0 || existsb (pinned_elsewhere tid) (it :: l)))).
  { intros t1 He -> E. rewrite E.
    destruct (IH (pre ++ [it]) (t0 || pinned_elsewhere tid it) Hok)
      as [(q & ft & post & Hl & Hq & Hft & E')|[Hl E']].
    - left. exists (it :: q), ft, post. rewrite E'. simpl. rewrite Hl, He, Hq, Hft.
      split_and!; try done. rewrite <- app_assoc, orb_assoc. done.
    - right. rewrite E'. simpl. rewrite He, Hl. simpl. by rewrite orb_assoc. }
  assert (Htake : eligible s tid it = true ->
    pick_loop s tid pre (it :: l) t0 = Val (Some (pre ++ l, it), t0) ->
    exists q ft post, it :: l = q ++ ft :: post /\
       forallb (fun x => negb (eligible s tid x)) q = true /\ eligible s tid ft = true /\
       pick_loop s tid pre (it :: l) t0 =
         Val (Some (pre ++ q ++ post, ft), t0 || existsb (pinned_elsewhere tid) q)).
  { intros He E. exists [], it, l. rewrite E. split_and!; try done. simpl.
    by rewrite orb_false_r. }
  destruct (decide (thread it <> -1 /\ thread it <> tid)) as [Hpin|Hpin].
  - assert (Hp : pinned_elsewhere tid it = true) by by apply bool_decide_true.
    apply (Hskip true); [unfold eligible; by rewrite Hp|by rewrite Hp, orb_true_r|].
    simpl. by rewrite decide_True.
  - assert (Hp : pinned_elsewhere tid it = false) by by apply bool_decide_false.
    unfold empty_task in Hne. destruct (fiber it) as [f|] eqn:Ef.
    + destruct (Hlive f eq_refl) as [x Hx].
      assert (Hst : fiber_state s f = Val (Fiber.m_state x))
        by (unfold fiber_state; by rewrite Hx).
      destruct (decide (Fiber.m_state x = EXEC)) as [Hexec|Hexec].
      * assert (He : executing s it = true).
        { unfold executing. rewrite Ef, Hst. apply bool_decide_true. congruence. }
        apply (Hskip t0); [unfold eligible; by rewrite He, andb_false_r|by rewrite Hp, orb_false_r|].
        simpl. rewrite decide_False, Ef, Hst by done. simpl. by rewrite decide_True.
      * assert (He : executing s it = false).
        { unfold executing. rewrite Ef, Hst. apply bool_decide_false. congruence. }
        left. apply Htake; [unfold eligible; by rewrite Hp, He|].
        simpl. rewrite decide_False, Ef, Hst by done. simpl. by rewrite decide_False.
    + destruct (cb it) eqn:Ec; [|done]. left. apply Htake.
      * unfold eligible, executing. by rewrite Hp, Ef.
      * simpl. by rewrite decide_False, Ef, Ec.
Qed.

Lemma pick_ok s tid :
  queue_ok s (m_fibers s) ->
  (exists q ft post s', m_fibers s = q ++ ft :: post /\
     forallb (fun x => negb (eligible s tid x)) q = true /\ eligible s tid ft = true /\
     empty_task ft = false /\ pick tid s = (Val ft, s') /\ m_fibers s' = q ++ post /\
     m_activeThreadCount s' = u64 (m_activeThreadCount s + 1) /\
     tickles s' = (tickles s + if existsb (pinned_elsewhere tid) q then 1 else 0)%nat /\
     sys s' = sys s) \/
  (exists s', forallb (fun x => negb (eligible s tid x)) (m_fibers s) = true /\
     pick tid s = (Val ft_reset, s') /\ m_fibers s' = m_fibers s /\
     m_activeThreadCount s' = m_activeThreadCount s /\
     tickles s' = (tickles s + if existsb (pinned_elsewhere tid) (m_fibers s) then 1 else 0)%nat /\
     sys s' = sys s).
Proof.
  intros Hok. unfold pick.
  destruct (pick_loop_spec s tid [] (m_fibers s) false Hok)
    as [(q & ft & post & Hl & Hq & Hft & E)|[Hl E]]; rewrite E; simpl.
  - left. exists q, ft, post. assert (empty_task ft = false).
    { rewrite Hl in Hok. apply Forall_app in Hok as [_ Hok].
      by apply list.Forall_cons in Hok as [[? _] _]. }
    destruct (existsb _ q); eexists; split_and!; try done; simpl; lia.
  - right. destruct (existsb _ _); eexists; split_and!; try done; simpl; lia.
Qed.

(** ** The accounting of active threads *)

Definition busy w : Z :=
  match w_phase w with
  | PPicked ft => if empty_task ft then 0 else 1
  | PFiber _ | PCb _ => 1
  | _ => 0
  end.

Definition accounted p : Prop :=
  m_activeThreadCount (sched p) = u64 (map_sum busy (workers p) + leaked p).

Lemma on_sys_active {A} (m : ST (Fibers F) A) s r s' :
  on_sys m s = (r, s') ->
  m_activeThreadCount s' = m_activeThreadCount s /\ m_fibers s' = m_fibers s.
Proof. unfold on_sys. destruct (m (sys s)). by intros [= <- <-]. Qed.

Lemma pick_active tid s ft s' :
  pick tid s = (Val ft, s') ->
  m_activeThreadCount s' = if empty_task ft then m_activeThreadCount s
                           else u64 (m_activeThreadCount s + 1).
Proof.
  unfold pick. destruct (pick_loop _ _ _ _ _) as [[found tk]| |] eqn:E; [|done|done].
  assert (Hne : forall l pre t0 l' it t', pick_loop s tid pre l t0 = Val (Some (l', it), t') ->
    empty_task it = false).
  { clear. induction l as [|x l IH]; intros pre t0 l' it t'; simpl; [done|].
    unfold empty_task. case_decide; [apply IH|]. destruct (fiber x) eqn:Ex.
    - unfold mbind, res_bind. destruct (fiber_state s z); [|done|done].
      case_decide; [apply IH|]. intros [= <- <- <-]. by rewrite Ex.
    - destruct (cb x) eqn:Ec; [|done]. intros [= <- <- <-]. by rewrite Ex, Ec. }
  destruct found as [[l it]|].
  - apply Hne in E. destruct tk; intros [= <- <-]; by rewrite E.
  - destruct tk; by intros [= <- <-].
Qed.

(** Computations that leave the counter of active threads alone. *)
Definition keeps {A} (m : ST (Scheduler F) A) : Prop :=
  forall s r s', m s = (r, s') -> m_activeThreadCount s' = m_activeThreadCount s.

Lemma keeps_bind {A B} (m : ST (Scheduler F) A) (k : A -> ST (Scheduler F) B) :
  keeps m -> (forall a, keeps (k a)) -> keeps (mbind k m).
Proof.
  intros Hm Hk s r s'. unfold mbind, st_bind. destruct (m s) as [[a| |] s1] eqn:E.
  - intros E'. by rewrite (Hk _ _ _ _ E'), (Hm _ _ _ E).
  - intros [= <- <-]. by eapply Hm.
  - intros [= <- <-]. by eapply Hm.
Qed.
Lemma keeps_ret {A} (a : A) : keeps (mret a).
Proof. by intros s r s' [= <- <-]. Qed.
Lemma keeps_gets {A} (f : Scheduler F -> A) : keeps (gets f).
Proof. by intros s r s' [= <- <-]. Qed.
Lemma keeps_look {A} (f : Scheduler F -> res A) : keeps (fun s => (f s, s)).
Proof. by intros s r s' [= <- <-]. Qed.
Lemma keeps_on_sys {A} (m : ST (Fibers F) A) : keeps (on_sys m).
Proof. intros s r s' E. by destruct (on_sys_active m s r s' E). Qed.
Lemma keeps_modify f :
  (forall s, m_activeThreadCount (f s) = m_activeThreadCount s) -> keeps (modify f).
Proof. intros H s r s' [= <- <-]. apply H. Qed.
Lemma keeps_tickle : keeps tickle.
Proof. by apply keeps_modify. Qed.
Lemma keeps_runnable ft : keeps (runnable ft).
Proof. intros s r s'. unfold runnable. destruct (fiber ft); by intros [= <- <-]. Qed.

Hint Resolve keeps_bind keeps_ret keeps_gets keeps_look keeps_on_sys keeps_tickle
  keeps_runnable : keeps.
Local Ltac keeps := repeat first
  [ apply keeps_bind; [|intros ?] | progress eauto with keeps | apply keeps_modify; done
  | case_match | case_decide | case_bool_decide ].

Lemma keeps_schedule ft : keeps (schedule ft).
Proof. unfold schedule, scheduleNoLock. keeps. Qed.
Lemma keeps_dispatch size tid a ft w : keeps (dispatch size tid a ft w).
Proof. unfold dispatch. keeps. Qed.
Lemma keeps_settle w : keeps (settle w).
Proof. unfold settle. pose proof keeps_schedule. keeps. Qed.
Lemma keeps_stop_request : keeps stop_request.
Proof.
  unfold stop_request. keeps. match goal with |- keeps (Nat.iter ?n _ _) => induction n end; simpl; keeps.
Qed.

(** An empty task leads to the idle fiber or the end of the thread. *)
Lemma dispatch_empty size tid a ft w s w' s' :
  empty_task ft = true -> dispatch size tid a ft w s = (Val w', s') -> busy w' = 0.
Proof.
  unfold empty_task, dispatch, runnable. destruct (fiber ft); [done|]. destruct (cb ft); [done|].
  intros _ E. apply st_bind_inv in E as (first & s1 & [= <- <-] & E).
  apply st_bind_inv in E as (st & s2 & _ & E). case_decide; [by injection E as <- _|].
  apply st_bind_inv in E as (? & s3 & _ & E). apply st_bind_inv in E as (? & s4 & _ & E).
  by injection E as <- _.
Qed.

Lemma dispatch_phase size tid a ft w s w' s' :
  dispatch size tid a ft w s = (Val w', s') ->
  match w_phase w' with PFiber _ | PCb _ | PIdle | PExit => True | _ => False end.
Proof.
  unfold dispatch. intros E. apply st_bind_inv in E as (first & s1 & _ & E).
  destruct first as [f|]; [|destruct (cb ft)].
  - apply st_bind_inv in E as (? & s2 & _ & E). by injection E as <- _.
  - apply st_bind_inv in E as (g & s2 & _ & E).
    apply st_bind_inv in E as (? & s3 & _ & E). by injection E as <- _.
  - apply st_bind_inv in E as (st & s2 & _ & E). case_decide; [by injection E as <- _|].
    apply st_bind_inv in E as (? & s3 & _ & E). apply st_bind_inv in E as (? & s4 & _ & E).
    by injection E as <- _.
Qed.

Lemma settle_busy w s w' s' : settle w s = (Val w', s') -> busy w' = busy w.
Proof.
  unfold settle, busy. destruct (w_phase w) as [|ft|f|f|f|f| |] eqn:Ew;
    try (intros [= <- _]; by rewrite Ew).
  - intros E. apply st_bind_inv in E as (st & s1 & _ & E).
    apply st_bind_inv in E as (? & s2 & _ & E). by injection E as <- _.
  - intros E. apply st_bind_inv in E as (st & s1 & _ & E).
    repeat case_match; apply st_bind_inv in E as (? & s2 & _ & E); by injection E as <- _.
Qed.

Lemma accounted_step p ac p' : accounted p -> step p ac p' -> accounted p'.
Proof.
  unfold accounted. intros Hacc Hstep.
  destruct Hstep as [p tid w ft s' Hw Hph E|p size tid a w ft w' s' Hw Hph _ E
    |p tid w w' s' Hw Hrun _ E|p tid w w' s' Hw E|p tid w s' Hw _ E|p tid w s' Hw _ E
    |p tid w f raised s' Hw _ _ E|p ft s' E|p s' E]; simpl.
  - rewrite (map_sum_insert busy _ _ _ _ Hw). apply pick_active in E. rewrite E, Hacc.
    assert (Hb : busy w = 0) by (unfold busy; by rewrite Hph). rewrite Hb.
    change (busy (mkWorker (PPicked ft) _ _)) with (if empty_task ft then 0 else 1).
    destruct (empty_task ft); [f_equal; lia|].
    unfold wrap. rewrite Zplus_mod_idemp_l. f_equal. lia.
  - rewrite (map_sum_insert busy _ _ _ _ Hw), (keeps_dispatch _ _ _ _ _ _ _ _ E), Hacc.
    f_equal. pose proof (dispatch_phase _ _ _ _ _ _ _ _ E) as Hph'.
    pose proof (fun H => dispatch_empty _ _ _ _ _ _ _ _ H E) as He.
    assert (Hb : busy w = if empty_task ft then 0 else 1) by (unfold busy; by rewrite Hph).
    rewrite Hb. generalize (map_sum busy (workers p)); intros n. unfold leak. unfold busy in He |- *.
    destruct (empty_task ft), (w_phase w'); try done; try lia; specialize (He eq_refl); lia.
  - rewrite (map_sum_insert busy _ _ _ _ Hw). unfold back, running in *.
    destruct (w_phase w) as [|ft|f|f|f|f| |] eqn:Ew; try (by destruct Hrun).
    + assert (Hb : busy w = 1) by (unfold busy; by rewrite Ew).
      injection E as <- <-. simpl. rewrite Hacc, Hb. unfold wrap.
      rewrite Zminus_mod_idemp_l. f_equal.
      change (busy (mkWorker (PFiberBack f) _ _)) with 0. lia.
    + assert (Hb : busy w = 1) by (unfold busy; by rewrite Ew).
      injection E as <- <-. simpl. rewrite Hacc, Hb. unfold wrap.
      rewrite Zminus_mod_idemp_l. f_equal.
      change (busy (mkWorker (PCbBack f) _ _)) with 0. lia.
    + assert (Hb : busy w = 0) by (unfold busy; by rewrite Ew).
      assert (Hk : keeps (back w)) by (unfold back; rewrite Ew; keeps).
      assert (E' : back w (sched p) = (Val w', s')) by (unfold back; by rewrite Ew).
      rewrite (Hk _ _ _ E'), Hacc, Hb. f_equal.
      apply st_bind_inv in E as (st & s1 & _ & E). apply st_bind_inv in E as (? & s2 & _ & E).
      apply st_bind_inv in E as (? & s3 & _ & E). injection E as <- _.
      change (busy (mkWorker PTop _ _)) with 0. lia.
  - rewrite (map_sum_insert busy _ _ _ _ Hw), (settle_busy _ _ _ _ E),
      (keeps_settle _ _ _ _ E), Hacc. f_equal. lia.
  - by rewrite (keeps_on_sys _ _ _ _ E).
  - by rewrite (keeps_on_sys _ _ _ _ E).
  - by rewrite (keeps_on_sys _ _ _ _ E).
  - by rewrite (keeps_schedule _ _ _ _ E).
  - by rewrite (keeps_stop_request _ _ _ E).
Qed.

Inductive steps : Pool F -> list (action F) -> Pool F -> Prop :=
  | steps_nil p : steps p [] p
  | steps_cons p ac p1 acs p2 : step p ac p1 -> steps p1 acs p2 -> steps p (ac :: acs) p2.

Lemma exec_action_step p ac p' : exec_action p ac = Some p' -> step p ac p'.
Proof.
  assert (Hok : forall A (r : res A * Scheduler F) a s, ok r = Some (a, s) -> r = (Val a, s)).
  { intros A [[a'| |] s'] a s; simpl; [by intros [= -> ->]|done|done]. }
  assert (Hin : forall s tid w, enabled_in_fiber s tid w = true -> in_fiber s tid w).
  { intros s tid w. unfold enabled_in_fiber. rewrite andb_true_iff, !bool_decide_eq_true. done. }
  unfold exec_action. destruct ac as [tid|size tid a|tid|tid|tid|tid|tid raised|ft|].
  - intros (w & Hw & E)%bind_Some. destruct (w_phase w) eqn:Hph; try done.
    apply bind_Some in E as ([ft s'] & E%Hok & [= <-]). by eapply step_pick.
  - intros (w & Hw & E)%bind_Some. destruct (w_phase w) eqn:Hph; try done.
    destruct (Fiber.store _ !! a) eqn:Ha; [done|].
    apply bind_Some in E as ([w' s'] & E%Hok & [= <-]). by eapply step_dispatch.
  - intros (w & Hw & E)%bind_Some.
    destruct (bool_decide (is_Some _) && _) eqn:Hen; [|done].
    rewrite andb_true_iff, !bool_decide_eq_true in Hen. destruct Hen.
    apply bind_Some in E as ([w' s'] & E%Hok & [= <-]). by eapply step_back.
  - intros (w & Hw & E)%bind_Some.
    apply bind_Some in E as ([w' s'] & E%Hok & [= <-]). by eapply step_settle.
  - intros (w & Hw & E)%bind_Some. destruct (enabled_in_fiber _ _ _) eqn:Hen; [|done].
    apply bind_Some in E as ([[] s'] & E%Hok & [= <-]). eapply step_ready; by eauto.
  - intros (w & Hw & E)%bind_Some. destruct (enabled_in_fiber _ _ _) eqn:Hen; [|done].
    apply bind_Some in E as ([[] s'] & E%Hok & [= <-]). eapply step_hold; by eauto.
  - intros (w & Hw & E)%bind_Some. destruct (enabled_in_fiber _ _ _) eqn:Hen; [|done].
    apply bind_Some in E as ([[] s'] & E%Hok & [= <-]).
    destruct (running w) eqn:Hr; [|done]. eapply step_finish; by eauto.
  - intros ([[] s'] & E%Hok & [= <-])%bind_Some. by apply step_schedule.
  - intros ([[] s'] & E%Hok & [= <-])%bind_Some. by apply step_stop.
Qed.

Lemma exec_actions_steps p acs p' : exec_actions p acs = Some p' -> steps p acs p'.
Proof.
  revert p. induction acs as [|ac acs IH]; simpl; intros p E; [simplify_eq; constructor|].
  apply bind_Some in E as (p1 & E1 & E2). econstructor; eauto using exec_action_step.
Qed.

Lemma accounted_steps p acs p' : accounted p -> steps p acs p' -> accounted p'.
Proof. intros H. induction 1; [done|]. by eauto using accounted_step. Qed.

Lemma leaked_step p ac p' : step p ac p' -> leaked p <= leaked p'.
Proof. destruct 1; simpl; unfold leak; repeat case_match; lia. Qed.
Lemma leaked_steps p acs p' : steps p acs p' -> leaked p <= leaked p'.
Proof. induction 1; [lia|]. pose proof (leaked_step _ _ _ H). lia. Qed.

Lemma busy_nonneg w : 0 <= busy w <= 1.
Proof. unfold busy. repeat case_match; lia. Qed.
Lemma busy_sum_nonneg (ws : gmap Z Worker) : 0 <= map_sum busy ws.
Proof. apply map_sum_nonneg. intros k w _. apply busy_nonneg. Qed.
End Proofs.

(** ** Properties *)

(** C2: a worker takes the first task it may run. On a queue of live tasks,
    [pick] removes exactly the first entry that is not pinned to another thread
    and whose fiber is not executing, keeps the order of the others and counts the
    worker as active; it returns the empty task only when no entry qualifies. It
    tickles exactly when it passed a task of another thread. *)
Theorem pick_first_eligible (F : Type) (s : Scheduler F) tid :
  queue_ok s (m_fibers s) ->
  (exists q ft post s', m_fibers s = q ++ ft :: post /\
     forallb (fun x => negb (eligible s tid x)) q = true /\ eligible s tid ft = true /\
     empty_task ft = false /\ pick tid s = (Val ft, s') /\ m_fibers s' = q ++ post /\
     m_activeThreadCount s' = u64 (m_activeThreadCount s + 1) /\
     tickles s' = (tickles s + if existsb (pinned_elsewhere tid) q then 1 else 0)%nat /\
     sys s' = sys s) \/
  (exists s', forallb (fun x => negb (eligible s tid x)) (m_fibers s) = true /\
     pick tid s = (Val ft_reset, s') /\ m_fibers s' = m_fibers s /\
     m_activeThreadCount s' = m_activeThreadCount s /\
     tickles s' = (tickles s + if existsb (pinned_elsewhere tid) (m_fibers s) then 1 else 0)%nat /\
     sys s' = sys s).
Proof. apply pick_ok. Qed.

(** A scheduler with one worker, thread 1 (main fiber 10, idle fiber 11), and a
    fiber 20 of the user. *)
Definition worker1 : @Worker nat := mkWorker PTop None 11.
Definition sched0 : Scheduler nat :=
  snd ((start [1];; run_begin 4096 1 10 11 0%nat;; on_sys (Fiber.Fiber_new 4096 20 (Some 1%nat) 0))
    (mkScheduler [] [] 1 0 0 true false (-1) [] 0 (Fiber.mkFibers ∅ 0 0 ∅ ∅))).
Definition pool0 : Pool nat := mkPool sched0 {[1 := worker1]} 0.
Definition task20 : FiberAndThread nat := mkFT (Some 20) None (-1).

Lemma pick_first_eligible_witness :
  let s := set_fibers [mkFT None (Some 7%nat) 2; task20] sched0 in
  exists s', pick 1 s = (Val task20, s') /\ m_fibers s' = [mkFT None (Some 7%nat) 2].
Proof.
  intros s. destruct (pick_first_eligible nat s 1) as [H|H].
  - repeat constructor; simpl; try congruence; intros f Hf; simplify_eq; vm_compute; by eexists.
  - destruct H as (q & ft & post & s' & Hl & _ & _ & _ & E & Hs & _).
    vm_compute in E. injection E as <- <-. eexists. split; [vm_compute; reflexivity|reflexivity].
  - destruct H as (s' & H & _). vm_compute in H. discriminate H.
Defined.

(** A pool before any work: no active thread, every worker at the head of its loop. *)
Definition fresh_pool {F} (p : Pool F) : Prop :=
  m_activeThreadCount (sched p) = 0 /\ leaked p = 0 /\
  forall tid w, workers p !! tid = Some w -> w_phase w = PTop.

Lemma fresh_accounted {F} (p : Pool F) : fresh_pool p -> accounted p.
Proof.
  intros (Ha & Hl & Hw). unfold accounted. rewrite Ha, Hl, map_sum_zero; [done|].
  intros tid w E. unfold busy. by rewrite (Hw tid w E).
Qed.

(** C1: the counter of active threads, under any interleaving, is the number of
    workers that hold or run a task plus the number of finished fibers that were
    picked; so as soon as one finished fiber has been picked, [stopping()] is false
    for ever (the counter does not wrap) and [stop()] never returns. *)
Theorem active_accounting (F : Type) (p : Pool F) acs p' :
  fresh_pool p -> steps p acs p' ->
  m_activeThreadCount (sched p') = u64 (map_sum busy (workers p') + leaked p') /\
  (0 < leaked p' -> forall acs' p'', steps p' acs' p'' ->
     map_sum busy (workers p'') + leaked p'' < 2 ^ 64 -> stopping (sched p'') = false).
Proof.
  intros Hf%fresh_accounted Hs. pose proof (accounted_steps _ _ _ Hf Hs) as Hacc.
  split; [exact Hacc|]. intros Hl acs' p'' Hs' Hb.
  pose proof (accounted_steps _ _ _ Hacc Hs') as Hacc'. unfold accounted in Hacc'.
  pose proof (leaked_steps _ _ _ Hs'). pose proof (busy_sum_nonneg (workers p'')).
  rewrite wrap_small in Hacc' by (unfold in_u; lia).
  unfold stopping. rewrite (bool_decide_false (m_activeThreadCount _ = 0)) by lia.
  apply andb_false_r.
Qed.

(** The same fiber scheduled twice; it ends in its first slice. *)
Definition twice_trace : list (action nat) :=
  [ASchedule task20; ASchedule task20; APick 1; ADispatch 4096 1 30; AFinish 1 false;
   ABack 1; ASettle 1; APick 1; ADispatch 4096 1 31].

Definition twice_pool : option (Pool nat) := exec_actions pool0 twice_trace.

Lemma twice_steps : exists p', steps pool0 twice_trace p' /\ leaked p' = 1.
Proof.
  assert (H : (p' ← twice_pool; Some (leaked p')) = Some 1) by (vm_compute; reflexivity).
  apply bind_Some in H as (p' & E & [= H]). exists p'. split; [|done].
  by apply exec_actions_steps.
Qed.

Lemma fresh_pool0 : fresh_pool pool0.
Proof.
  split; [reflexivity|]. split; [reflexivity|]. intros tid w E.
  change (({[1 := worker1]} : gmap Z Worker) !! tid = Some w) in E.
  apply lookup_singleton_Some in E as [_ <-]. reflexivity.
Qed.

Lemma active_accounting_witness :
  exists p', steps pool0 twice_trace p' /\ forall acs p'', steps p' acs p'' ->
    map_sum busy (workers p'') + leaked p'' < 2 ^ 64 -> stopping (sched p'') = false.
Proof.
  destruct twice_steps as (p' & Hs & Hl). exists p'. split; [exact Hs|].
  destruct (active_accounting nat pool0 twice_trace p' fresh_pool0 Hs) as [_ H].
  apply H. rewrite Hl. lia.
Defined.

Definition race_trace : list (action nat) :=
  [ASchedule task20; AStop; APick 1; ADispatch 4096 1 30; AYieldToReady 1; ABack 1].

(** the window between the counter update and the re-queueing. There is a
    run in which [stopping()] holds (so [stop()] and the idle fibers may proceed to
    join and exit) while a worker still has a READY fiber in hand, which it is
    about to put back into the queue. *)
Theorem stop_misses_ready_fiber :
  exists acs p w f, steps pool0 acs p /\ stopping (sched p) = true /\
    workers p !! 1 = Some w /\ w_phase w = PFiberBack f /\
    fiber_state (sched p) f = Val READY /\
    exists p', step p (ASettle 1) p' /\ m_fibers (sched p') = [mkFT (Some f) None (-1)].
Proof.
  destruct (exec_actions pool0 race_trace) as [p|] eqn:Ep;
    [|vm_compute in Ep; discriminate Ep].
  assert (H : (let s := sched p in stopping s = true /\
      workers p !! 1 = Some (mkWorker (PFiberBack 20) None 11) /\
      fiber_state s 20 = Val READY /\
      (p' ← exec_action p (ASettle 1); Some (m_fibers (sched p'))) = Some [task20])).
  { vm_compute in Ep. injection Ep as <-. vm_compute. by split_and!. }
  destruct H as (Hs & Hw & Hf & He). apply bind_Some in He as (p' & E' & [= H']).
  exists race_trace, p, (mkWorker (PFiberBack 20) None 11), 20. split_and!; try done.
  - by apply exec_actions_steps.
  - exists p'. split; [by apply exec_action_step|done].
Qed.
