(* ===== verification/IOManager.v ===== *)
(** * The I/O manager (src/myhttp/iomanager.h, src/myhttp/iomanager.cpp)

    A scheduler and a timer manager with a table of descriptor contexts and an
    epoll instance. [interest] is the kernel's interest list; the outcome of each
    [epoll_ctl] is an argument ([rt], zero for success), and a successful call
    changes the list as its documentation says. An operation holds the context's
    mutex throughout and is one transition. Tasks for another scheduler than this
    one are collected in [elsewhere]. *)
From stdpp Require Import base tactics option list gmap numbers.
From S2P Require Import Prelude.
From S2P Require OrdSet Timer Fiber Scheduler.
Import Scheduler (FiberAndThread, mkFT, fiber, cb, thread).

#[local] Existing Instance Fiber.State_eq_dec.

Definition NONE : Z := 0.
Definition READ : Z := 1.
Definition WRITE : Z := 4.
(** From <sys/epoll.h>. *)
Definition EPOLLIN : Z := 1.
Definition EPOLLOUT : Z := 4.
Definition EPOLLERR : Z := 8.
Definition EPOLLHUP : Z := 16.
Definition EPOLLET : Z := 2 ^ 31.
Inductive epoll_op := EPOLL_CTL_ADD | EPOLL_CTL_MOD | EPOLL_CTL_DEL.

Section IOManager.
Context {F W : Type}.
Local Abbreviation CB := (Timer.callback F W).

Record EventContext := mkEventContext {
  ec_scheduler : option Z;
  ec_fiber : option Z;
  ec_cb : option CB
}.
Definition empty_context : EventContext := mkEventContext None None None.

Record FdContext := mkFdContext {
  ctx_read : EventContext;
  ctx_write : EventContext;
  ctx_fd : Z;
  events : Z
}.
Definition new_context (i : nat) : FdContext :=
  mkFdContext empty_context empty_context (Z.of_nat i) NONE.
Definition set_events e (c : FdContext) := mkFdContext (ctx_read c) (ctx_write c) (ctx_fd c) e.
Definition set_context (event : Z) (x : EventContext) (c : FdContext) : FdContext :=
  if decide (event = READ) then mkFdContext x (ctx_write c) (ctx_fd c) (events c)
  else mkFdContext (ctx_read c) x (ctx_fd c) (events c).

Record IOManager := mkIOManager {
  self : Z;
  base : Scheduler.Scheduler CB;
  timers : Timer.TimerManager F W;
  m_fdContexts : list FdContext;
  m_pendingEventCount : Z;
  interest : gmap Z Z;
  tickled : nat;                           (* bytes written to the pipe *)
  elsewhere : list (Z * FiberAndThread CB) (* tasks posted to other schedulers *)
}.
Definition set_base x (s : IOManager) := mkIOManager (self s) x (timers s) (m_fdContexts s)
  (m_pendingEventCount s) (interest s) (tickled s) (elsewhere s).
Definition set_timers x (s : IOManager) := mkIOManager (self s) (base s) x (m_fdContexts s)
  (m_pendingEventCount s) (interest s) (tickled s) (elsewhere s).
Definition set_contexts x (s : IOManager) := mkIOManager (self s) (base s) (timers s) x
  (m_pendingEventCount s) (interest s) (tickled s) (elsewhere s).
Definition set_pending x (s : IOManager) := mkIOManager (self s) (base s) (timers s)
  (m_fdContexts s) x (interest s) (tickled s) (elsewhere s).
Definition set_interest x (s : IOManager) := mkIOManager (self s) (base s) (timers s)
  (m_fdContexts s) (m_pendingEventCount s) x (tickled s) (elsewhere s).
Definition set_tickled x (s : IOManager) := mkIOManager (self s) (base s) (timers s)
  (m_fdContexts s) (m_pendingEventCount s) (interest s) x (elsewhere s).
Definition set_elsewhere x (s : IOManager) := mkIOManager (self s) (base s) (timers s)
  (m_fdContexts s) (m_pendingEventCount s) (interest s) (tickled s) x.

Definition on_base {A} (m : ST (Scheduler.Scheduler CB) A) : ST IOManager A := fun s =>
  let '(r, x) := m (base s) in (r, set_base x s).
Definition on_timers {A} (m : ST (Timer.TimerManager F W) A) : ST IOManager A := fun s =>
  let '(r, x) := m (timers s) in (r, set_timers x s).

(** ** The overridden virtual methods *)

(** One byte to the pipe, which is assumed not to be full. *)
Definition tickle : ST IOManager unit :=
  idle ← gets (fun s => Scheduler.hasIdleThreads (base s));
  if idle : bool then mret tt else modify (fun s => set_tickled (S (tickled s)) s).
Definition onTimerInsertedAtFront : ST IOManager unit := tickle.

(** [Scheduler::schedule] of this object, with its own [tickle]. *)
Definition schedule (ft : FiberAndThread CB) : ST IOManager unit :=
  need_tickle ← on_base (Scheduler.scheduleNoLock ft);
  if need_tickle : bool then tickle else mret tt.
Definition schedule_range (l : list (FiberAndThread CB)) : ST IOManager unit :=
  need_tickle ← on_base (Scheduler.schedule_each l);
  if need_tickle : bool then tickle else mret tt.
(** [sch->schedule(...)] through a scheduler pointer. *)
Definition schedule_on (sch : option Z) (ft : FiberAndThread CB) : ST IOManager unit :=
  i ← lift (deref NullDeref sch);
  me ← gets self;
  if decide (i = me) then schedule ft
  else modify (fun s => set_elsewhere (elsewhere s ++ [(i, ft)]) s).

(** ** Descriptor contexts *)

Definition context_at (fd : Z) : ST IOManager FdContext := fun s =>
  (if decide (0 <= fd) then deref OutOfBounds (m_fdContexts s !! Z.to_nat fd)
   else Bad OutOfBounds, s).
Definition put_context (fd : Z) (c : FdContext) : ST IOManager unit :=
  modify (fun s => set_contexts (<[Z.to_nat fd := c]> (m_fdContexts s)) s).

Definition getContext (event : Z) (c : FdContext) : res EventContext :=
  if decide (event = READ) then Val (ctx_read c)
  else if decide (event = WRITE) then Val (ctx_write c)
  else Bad AssertFailed.
Definition resetContext (x : EventContext) : EventContext := mkEventContext None None None.

(** [triggerEvent] on the context of [fd]. Scheduling swaps the task out. *)
Definition triggerEvent (fd event : Z) : ST IOManager unit :=
  c ← context_at fd;
  check (bool_decide (Z.land (events c) event <> 0));;
  let c1 := set_events (Z.land (events c) (Z.lnot event)) c in
  put_context fd c1;;
  x ← lift (getContext event c1);
  match ec_cb x with
  | Some f =>
      schedule_on (ec_scheduler x) (mkFT None (Some f) (-1));;
      put_context fd (set_context event (mkEventContext None (ec_fiber x) None) c1)
  | None =>
      schedule_on (ec_scheduler x) (mkFT (ec_fiber x) None (-1));;
      put_context fd (set_context event (mkEventContext None None None) c1)
  end.

Definition contextResize (size : nat) : ST IOManager unit := modify (fun s =>
  let l := take size (m_fdContexts s) in
  set_contexts (l ++ (new_context <$> seq (length l) (size - length l))) s).

(** [epoll_ctl] with return value [rt]. *)
Definition epoll_ctl (rt : Z) (op : epoll_op) (fd ev : Z) : ST IOManager Z :=
  (if decide (rt = 0) then
     modify (fun s => set_interest
       (match op with
        | EPOLL_CTL_DEL => delete fd (interest s)
        | _ => <[fd := ev]> (interest s)
        end) s)
   else mret tt);;
  mret rt.

Definition pending_add (n : Z) : ST IOManager unit :=
  modify (fun s => set_pending (u64 (m_pendingEventCount s + n)) s).

(** [addEvent]. [here]: the scheduler of the calling thread; [cur]: its current
  fiber; [cbk]: the callback, if one is given. *)
Definition addEvent (here : option Z) (cur rt fd event : Z) (cbk : option CB) :
    ST IOManager Z :=
  n ← gets (fun s => Z.of_nat (length (m_fdContexts s)));
  (if decide (n > fd) then mret tt
   else contextResize (Z.to_nat (fd * 3 / 2)));;
  c ← context_at fd;
  check (bool_decide (Z.land (events c) event = 0));;
  let op := if decide (events c <> 0) then EPOLL_CTL_MOD else EPOLL_CTL_ADD in
  r ← epoll_ctl rt op fd (Z.lor EPOLLET (Z.lor (events c) event));
  if decide (r <> 0) then mret (-1) else
  pending_add 1;;
  let c1 := set_events (Z.lor (events c) event) c in
  put_context fd c1;;
  x ← lift (getContext event c1);
  check (match ec_scheduler x, ec_fiber x, ec_cb x with
         | None, None, None => true | _, _, _ => false end);;
  match cbk with
  | Some f => put_context fd (set_context event (mkEventContext here None (Some f)) c1);; mret 0
  | None =>
      put_context fd (set_context event (mkEventContext here (Some cur) None) c1);;
      st ← on_base (fun b => (Scheduler.fiber_state b cur, b));
      check (bool_decide (st = Fiber.EXEC));;
      mret 0
  end.

Definition ctl_op (new_events : Z) : epoll_op :=
  if decide (new_events <> 0) then EPOLL_CTL_MOD else EPOLL_CTL_DEL.

Definition delEvent (rt fd event : Z) : ST IOManager bool :=
  n ← gets (fun s => Z.of_nat (length (m_fdContexts s)));
  if decide (n <= fd) then mret false else
  c ← context_at fd;
  if decide (Z.land (events c) event = 0) then mret false else
  let new_events := Z.land (events c) (Z.lnot event) in
  r ← epoll_ctl rt (ctl_op new_events) fd (Z.lor EPOLLET new_events);
  if decide (r <> 0) then mret false else
  pending_add (-1);;
  let c1 := set_events new_events c in
  put_context fd c1;;
  x ← lift (getContext event c1);
  put_context fd (set_context event (resetContext x) c1);;
  mret true.

Definition cancelEvent (rt fd event : Z) : ST IOManager bool :=
  n ← gets (fun s => Z.of_nat (length (m_fdContexts s)));
  if decide (n <= fd) then mret false else
  c ← context_at fd;
  if decide (Z.land (events c) event = 0) then mret false else
  let new_events := Z.land (events c) (Z.lnot event) in
  r ← epoll_ctl rt (ctl_op new_events) fd (Z.lor EPOLLET new_events);
  if decide (r <> 0) then mret false else
  triggerEvent fd event;;
  pending_add (-1);;
  mret true.

Definition trigger_if (fd event : Z) (b : bool) : ST IOManager unit :=
  if b then triggerEvent fd event;; pending_add (-1) else mret tt.

Definition cancelAll (rt fd : Z) : ST IOManager bool :=
  n ← gets (fun s => Z.of_nat (length (m_fdContexts s)));
  if decide (n <= fd) then mret false else
  c ← context_at fd;
  if decide (events c = 0) then mret false else
  r ← epoll_ctl rt EPOLL_CTL_DEL fd 0;
  if decide (r <> 0) then mret false else
  trigger_if fd READ (bool_decide (Z.land (events c) READ <> 0));;
  c1 ← context_at fd;
  trigger_if fd WRITE (bool_decide (Z.land (events c1) WRITE <> 0));;
  c2 ← context_at fd;
  check (bool_decide (events c2 = 0));;
  mret true.

(** The constructor body, on a freshly constructed scheduler [b]: the results of
  [epoll_create], [pipe], [fcntl] and [epoll_ctl] are arguments. *)
Definition IOManager_new (self now : Z) (b : Scheduler.Scheduler CB)
    (epfd pipe_rt fcntl_rt ctl_rt : Z) (ids : list Z) : res unit * IOManager :=
  (check (bool_decide (epfd > 0));;
   check (bool_decide (pipe_rt = 0));;
   check (bool_decide (fcntl_rt = 0));;
   check (bool_decide (ctl_rt = 0));;
   contextResize 32;;
   on_base (Scheduler.start ids))
  (mkIOManager self b (Timer.TimerManager_new now) [] 0 ∅ 0 []).

(** ** The idle loop *)

(** [stopping(timeout)]: the answer and the next timeout. *)
Definition stopping (now : Z) : ST IOManager (bool * Z) :=
  timeout ← on_timers (Timer.getNextTimer now);
  s ← gets id;
  mret (bool_decide (timeout = 2 ^ 64 - 1) && bool_decide (m_pendingEventCount s = 0)
        && Scheduler.stopping (base s), timeout).

(** [Scheduler::stop] of this object: the request with its own [tickle], then one
    evaluation of the condition of the waiting loop (this object's [stopping]). When it
    holds the threads are joined. *)
Definition stop_request : ST IOManager unit :=
  on_base (modify (Scheduler.set_stop true true));;
  n ← gets (fun s => Scheduler.m_threadCount (base s));
  Nat.iter (Z.to_nat n) (fun m => tickle;; m) (mret tt).
Definition stop_wait (now : Z) : ST IOManager bool :=
  '(st, _) ← stopping now;
  (if st : bool then on_base (modify (fun b => Scheduler.set_threads [] (Scheduler.m_threadIds b) b))
   else mret tt);;
  mret st.

(** The destructors, once [stop] has returned: the descriptors that are closed ([m_epfd] and
    the two of the pipe), and the contexts are deleted with what they hold. *)
Definition IOManager_delete (m_epfd : Z) (m_tickleFds : Z * Z) : ST IOManager (list Z) :=
  modify (set_contexts []);;
  st ← gets (fun s => Scheduler.m_stopping (base s));
  check st;;
  mret [m_epfd; m_tickleFds.1; m_tickleFds.2].

(** The timeout passed to [epoll_wait]. *)
Definition MAX_TIMEOUT : Z := 3000.
Definition wait_timeout (next_timeout : Z) : Z :=
  s32 (if decide (next_timeout <> 2 ^ 64 - 1) then
         if decide (s32 next_timeout > MAX_TIMEOUT) then MAX_TIMEOUT else next_timeout
       else MAX_TIMEOUT).

(** What [epoll_wait] reports: the pipe, or a context with its event bits. *)
Inductive ready := ReadyPipe | ReadyCtx (fd ev : Z).

Definition real_events (ev : Z) : Z :=
  let ev := if decide (Z.land ev (Z.lor EPOLLERR EPOLLHUP) <> 0)
            then Z.lor ev (Z.lor EPOLLIN EPOLLOUT) else ev in
  Z.lor (if decide (Z.land ev EPOLLIN <> 0) then READ else NONE)
        (if decide (Z.land ev EPOLLOUT <> 0) then WRITE else NONE).

(** The body of the loop over the reported events. *)
Definition handle_ready (rt : Z) (e : ready) : ST IOManager unit :=
  match e with
  | ReadyPipe => mret tt
  | ReadyCtx fd ev =>
      c ← context_at fd;
      let real := real_events ev in
      if decide (Z.land (events c) real = NONE) then mret tt else
      let left := Z.land (events c) (Z.lnot real) in
      r ← epoll_ctl rt (ctl_op left) (ctx_fd c) (Z.lor EPOLLET left);
      if decide (r <> 0) then mret tt else
      trigger_if fd READ (bool_decide (Z.land real READ <> 0));;
      trigger_if fd WRITE (bool_decide (Z.land real WRITE <> 0))
  end.
Fixpoint handle_all (rts : list Z) (es : list ready) : ST IOManager unit :=
  match es with
  | [] => mret tt
  | e :: es' => handle_ready (hd 0 rts) e;; handle_all (tl rts) es'
  end.

(** One round of [idle] after [epoll_wait] returned [es]: timers, then events;
  [false] when the loop ends. *)
Definition idle_round (now now' now_timer : Z) (rts : list Z) (es : list ready) :
    ST IOManager bool :=
  st ← stopping now;
  if (st : bool * Z).1 then mret false else
  cbs ← on_timers (Timer.listExpiredCb now' now_timer);
  (match cbs with
   | [] => mret tt
   | _ => schedule_range ((fun f => mkFT None f (-1)) <$> cbs)
   end);;
  handle_all rts es;;
  mret true.
End IOManager.
Arguments IOManager : clear implicits.
Arguments FdContext : clear implicits.
Arguments EventContext : clear implicits.

(** ** Lemmas *)

Section Proofs.
Context {F W : Type}.
Implicit Types (s : IOManager F W) (c : FdContext F W) (x : EventContext F W).
Local Abbreviation FT := (FiberAndThread (Timer.callback F W)).

Definition is_event (e : Z) : Prop := e = READ \/ e = WRITE.
Definition event_mask (e : Z) : Prop := e = 0 \/ e = 1 \/ e = 4 \/ e = 5.
Definition has (e ev : Z) : bool := bool_decide (Z.land e ev <> 0).

Lemma mask_add m e : event_mask m -> is_event e -> event_mask (Z.lor m e).
Proof. unfold event_mask, is_event, READ, WRITE. intros [->|[->|[->| ->]]] [->| ->]; simpl; auto. Qed.
Lemma mask_del m e : event_mask m -> is_event e -> event_mask (Z.land m (Z.lnot e)).
Proof. unfold event_mask, is_event, READ, WRITE. intros [->|[->|[->| ->]]] [->| ->]; simpl; auto. Qed.

(** The context of one event kind. *)
Definition the_context (event : Z) c : EventContext F W :=
  if decide (event = READ) then ctx_read c else ctx_write c.
Lemma getContext_ok event c : is_event event -> getContext event c = Val (the_context event c).
Proof. unfold getContext, the_context. by intros [->| ->]. Qed.

(** A registered event has a scheduler and either a callback or a fiber. *)
Definition armed x : Prop :=
  is_Some (ec_scheduler x) /\
  ((is_Some (ec_cb x) /\ ec_fiber x = None) \/ (ec_cb x = None /\ is_Some (ec_fiber x))).
Definition fired_task x : FT :=
  match ec_cb x with
  | Some f => mkFT None (Some f) (-1)
  | None => mkFT (ec_fiber x) None (-1)
  end.

Definition ctx_wf (i : nat) c : Prop :=
  ctx_fd c = Z.of_nat i /\ event_mask (events c) /\
  forall e, is_event e ->
    if has (events c) e then armed (the_context e c) else the_context e c = empty_context.

(** The number of events registered in a context. *)
Definition registered c : Z :=
  Z.b2z (has (events c) READ) + Z.b2z (has (events c) WRITE).
Definition total (l : list (FdContext F W)) : Z := foldr (fun c n => registered c + n) 0 l.

Lemma total_app l1 l2 : total (l1 ++ l2) = total l1 + total l2.
Proof.
  induction l1 as [|c l1 IH]; [done|].
  change (registered c + total (l1 ++ l2) = registered c + total l1 + total l2). lia.
Qed.
Lemma total_insert l i c c' :
  l !! i = Some c -> total (<[i := c']> l) = total l - registered c + registered c'.
Proof.
  intros Hi. rewrite insert_take_drop by by eapply lookup_lt_Some.
  assert (Hl : total l = total (take i l) + (registered c + total (drop (S i) l))).
  { rewrite <- (take_drop_middle l i c Hi) at 1. by rewrite total_app. }
  rewrite Hl, total_app.
  change (total (c' :: drop (S i) l)) with (registered c' + total (drop (S i) l)). lia.
Qed.
Lemma total_new k n : total (new_context <$> seq k n) = 0.
Proof. revert k. induction n as [|n IH]; intros k; [done|]. exact (IH (S k)). Qed.
Lemma total_nonneg l : 0 <= total l.
Proof.
  induction l as [|c l IH]; [done|]. change (0 <= registered c + total l). unfold registered.
  destruct (has _ READ), (has _ WRITE); simpl; lia.
Qed.

Definition ctx_lookup s (fd : Z) : option (FdContext F W) :=
  if decide (0 <= fd) then m_fdContexts s !! Z.to_nat fd else None.

(** The invariant: the contexts are consistent, the pending counter counts the
  registered events, and the kernel's interest list mirrors the table. *)
Record wf s : Prop := {
  wf_ctx : forall i c, m_fdContexts s !! i = Some c -> ctx_wf i c;
  wf_count : m_pendingEventCount s = u64 (total (m_fdContexts s));
  wf_interest : forall fd, interest s !! fd =
    c ← ctx_lookup s fd; if decide (events c = 0) then None else Some (Z.lor EPOLLET (events c));
  wf_size : (2 <= length (m_fdContexts s))%nat
}.

(** The queue of a scheduler, as far as this object feeds it. *)
Definition queue_of s (i : Z) : list FT :=
  if decide (i = self s) then Scheduler.m_fibers (base s)
  else snd <$> filter (fun p => p.1 = i) (elsewhere s).
(** [l] was posted, in order, and nothing else changed outside the table. *)
Record posts (l : list (Z * FT)) s s' : Prop := {
  po_self : self s' = self s;
  po_timers : timers s' = timers s;
  po_sys : Scheduler.sys (base s') = Scheduler.sys (base s);
  po_queue : forall i, queue_of s' i = queue_of s i ++ (snd <$> filter (fun p => p.1 = i) l)
}.
Definition same_table s s' : Prop :=
  m_fdContexts s' = m_fdContexts s /\ m_pendingEventCount s' = m_pendingEventCount s /\
  interest s' = interest s.

Lemma posts_nil s s' :
  self s' = self s -> timers s' = timers s -> base s' = base s -> elsewhere s' = elsewhere s ->
  posts [] s s'.
Proof.
  intros H1 H2 H3 H4. constructor; rewrite ?H3; try done.
  intros i. unfold queue_of. by rewrite H1, H3, H4, app_nil_r.
Qed.
Lemma posts_trans l1 l2 s1 s2 s3 : posts l1 s1 s2 -> posts l2 s2 s3 -> posts (l1 ++ l2) s1 s3.
Proof.
  intros [A1 A2 A3 A4] [B1 B2 B3 B4]. constructor; try congruence.
  intros i. by rewrite B4, A4, list.filter_app, fmap_app, app_assoc.
Qed.
Lemma posts_ext l s1 s2 s2' :
  posts l s1 s2 -> self s2' = self s2 -> timers s2' = timers s2 -> base s2' = base s2 ->
  elsewhere s2' = elsewhere s2 -> posts l s1 s2'.
Proof.
  intros H E1 E2 E3 E4. rewrite <- (app_nil_r l). eapply posts_trans; [exact H|].
  by apply posts_nil.
Qed.

Lemma schedule_on_ok s i (ft : FT) :
  Scheduler.empty_task ft = false ->
  exists s', schedule_on (Some i) ft s = (Val tt, s') /\ posts [(i, ft)] s s' /\ same_table s s'.
Proof.
  intros Hne. unfold schedule_on, lift, gets, mbind, st_bind. simpl. case_decide as Hi.
  - assert (Hq : forall j q, q = Scheduler.m_fibers (base s) ++ [ft] ->
      (if decide (j = self s) then q
       else snd <$> filter (fun p => p.1 = j) (elsewhere s)) =
      (if decide (j = self s) then Scheduler.m_fibers (base s)
       else snd <$> filter (fun p => p.1 = j) (elsewhere s)) ++
      (snd <$> filter (fun p => p.1 = j) [(i, ft)])).
    { intros j q ->. case_decide as Hj.
      - subst j. by rewrite list.filter_cons_True by (simpl; congruence).
      - rewrite list.filter_cons_False, list.filter_nil by (simpl; congruence).
        by rewrite app_nil_r. }
    unfold schedule, on_base, Scheduler.scheduleNoLock, mbind, st_bind, gets. simpl.
    rewrite bool_decide_true.
    2: { unfold Scheduler.empty_task in Hne. destruct (fiber ft), (cb ft); eauto; done. }
    simpl. destruct (Scheduler.m_fibers (base s)) as [|q0 q] eqn:Eq; simpl.
    + unfold tickle, gets, modify, mbind, st_bind, mret, st_ret. simpl.
      destruct (Scheduler.hasIdleThreads _); eexists; (split; [reflexivity|]);
        (split; [|done]); constructor; try done; intros j; unfold queue_of; simpl;
        rewrite ?Eq; by apply (Hq j).
    + eexists; (split; [reflexivity|]). split; [|done]. constructor; try done.
      intros j. unfold queue_of. simpl. rewrite ?Eq. by apply (Hq j).
  - unfold modify. eexists; (split; [reflexivity|]). split; [|done].
    constructor; try done. intros j. unfold queue_of. simpl. case_decide as Hj.
    + rewrite list.filter_cons_False, list.filter_nil, app_nil_r by (simpl; congruence). done.
    + by rewrite list.filter_app, fmap_app.
Qed.

Lemma context_at_ok s fd c : ctx_lookup s fd = Some c -> context_at fd s = (Val c, s).
Proof. unfold ctx_lookup, context_at. case_decide; [|done]. by intros ->. Qed.

(** A context with one event taken out. *)
Definition disarm (event : Z) c : FdContext F W :=
  set_context event empty_context (set_events (Z.land (events c) (Z.lnot event)) c).
(** ... and with one put in. *)
Definition arm (event : Z) x c : FdContext F W :=
  set_context event x (set_events (Z.lor (events c) event) c).

Lemma events_set_context e x c : events (set_context e x c) = events c.
Proof. unfold set_context. by case_decide. Qed.
Lemma the_context_set e e' x c : is_event e -> is_event e' ->
  the_context e' (set_context e x c) = if decide (e = e') then x else the_context e' c.
Proof. by intros [->| ->] [->| ->]. Qed.
Lemma has_del m e e' : event_mask m -> is_event e -> is_event e' ->
  has (Z.land m (Z.lnot e)) e' = has m e' && negb (bool_decide (e = e')).
Proof. intros [->|[->|[->| ->]]] [->| ->] [->| ->]; reflexivity. Qed.
Lemma has_add m e e' : event_mask m -> is_event e -> is_event e' ->
  has (Z.lor m e) e' = has m e' || bool_decide (e = e').
Proof. intros [->|[->|[->| ->]]] [->| ->] [->| ->]; reflexivity. Qed.

Lemma disarm_wf i c e : ctx_wf i c -> is_event e -> ctx_wf i (disarm e c).
Proof.
  intros (Hfd & Hm & Hc) He. split; [by destruct He as [->| ->]|]. split.
  { unfold disarm. rewrite events_set_context. by apply mask_del. }
  intros e' He'. unfold disarm. rewrite events_set_context, the_context_set by done. simpl.
  rewrite has_del by done. specialize (Hc e' He'). case_decide as Hd.
  - rewrite bool_decide_true by done. by rewrite andb_false_r.
  - rewrite bool_decide_false by done. rewrite andb_true_r. by destruct He' as [->| ->].
Qed.
Lemma disarm_registered c e :
  event_mask (events c) -> is_event e -> has (events c) e = true ->
  registered (disarm e c) = registered c - 1.
Proof.
  intros Hm He Hh. unfold registered, disarm. rewrite events_set_context. simpl.
  rewrite !has_del by (done || (by left) || (by right)).
  destruct He as [->| ->]; rewrite Hh; simpl; rewrite ?andb_true_r; lia.
Qed.
Lemma arm_wf i c e x :
  ctx_wf i c -> is_event e -> armed x -> ctx_wf i (arm e x c).
Proof.
  intros (Hfd & Hm & Hc) He Hx. split; [by destruct He as [->| ->]|]. split.
  { unfold arm. rewrite events_set_context. by apply mask_add. }
  intros e' He'. unfold arm. rewrite events_set_context, the_context_set by done. simpl.
  rewrite has_add by done. specialize (Hc e' He'). case_decide as Hd.
  - rewrite bool_decide_true by done. by rewrite orb_true_r.
  - rewrite bool_decide_false by done. rewrite orb_false_r. by destruct He' as [->| ->].
Qed.
Lemma arm_registered c e x :
  event_mask (events c) -> is_event e -> has (events c) e = false ->
  registered (arm e x c) = registered c + 1.
Proof.
  intros Hm He Hh. unfold registered, arm. rewrite events_set_context. simpl.
  rewrite !has_add by (done || (by left) || (by right)).
  destruct He as [->| ->]; rewrite Hh; simpl; rewrite ?orb_false_r; lia.
Qed.

(** What happens to the table when the context of [fd] becomes [c']. *)
Record updated (fd : Z) c' s s' : Prop := {
  up_contexts : m_fdContexts s' = <[Z.to_nat fd := c']> (m_fdContexts s);
  up_interest : interest s' = interest s
}.

Lemma fire_ok s fd event c i :
  ctx_lookup s fd = Some c -> is_event event -> has (events c) event = true ->
  armed (the_context event c) -> ec_scheduler (the_context event c) = Some i ->
  exists s', trigger_if fd event true s = (Val tt, s') /\
    posts [(i, fired_task (the_context event c))] s s' /\
    updated fd (disarm event c) s s' /\
    m_pendingEventCount s' = u64 (m_pendingEventCount s - 1).
Proof.
  intros Hl He Hh [_ Harm] Hi. set (x := the_context event c) in *.
  set (c1 := set_events (Z.land (events c) (Z.lnot event)) c).
  set (s1 := set_contexts (<[Z.to_nat fd := c1]> (m_fdContexts s)) s).
  assert (Hx : getContext event c1 = Val x) by (rewrite getContext_ok by done; reflexivity).
  assert (Hne : Scheduler.empty_task (fired_task x) = false).
  { unfold fired_task, Scheduler.empty_task.
    destruct (ec_cb x); [done|]. destruct Harm as [[[] _]|[_ [? ->]]]; done. }
  destruct (schedule_on_ok s1 i (fired_task x) Hne) as (s2 & E2 & Hp & Ht1 & Ht2 & Ht3).
  set (s3 := set_contexts (<[Z.to_nat fd := disarm event c]> (m_fdContexts s2)) s2).
  assert (E : triggerEvent fd event s = (Val tt, s3)).
  { unfold triggerEvent. st_step (context_at_ok s fd c Hl). unfold has in Hh. rewrite Hh.
    unfold mbind, st_bind, check, mret, st_ret, put_context, modify, lift.
    fold c1. change (set_contexts (<[Z.to_nat fd := c1]> (m_fdContexts s)) s) with s1.
    rewrite Hx. unfold fired_task in E2. rewrite Hi. destruct (ec_cb x) eqn:Ecb.
    - rewrite E2. destruct Harm as [[_ ->]|[? _]]; done.
    - by rewrite E2. }
  exists (set_pending (u64 (m_pendingEventCount s - 1)) s3). split.
  - unfold trigger_if. st_step E. unfold pending_add, modify. simpl. by rewrite Ht2.
  - split; [|split; [|done]].
    + destruct Hp. by constructor.
    + constructor; simpl; [|done]. rewrite Ht1. simpl. by rewrite list_insert_insert_eq.
Qed.

Lemma ctx_lookup_range s fd c :
  ctx_lookup s fd = Some c -> 0 <= fd < Z.of_nat (length (m_fdContexts s)).
Proof.
  unfold ctx_lookup. case_decide; [|done]. intros Hlt%lookup_lt_Some. lia.
Qed.

Lemma wf_lookup s fd c : wf s -> ctx_lookup s fd = Some c -> ctx_wf (Z.to_nat fd) c.
Proof. intros Hwf. unfold ctx_lookup. case_decide; [|done]. apply Hwf. Qed.

(** The interest list the kernel has for a context. *)
Definition interest_after (fd e : Z) (m : gmap Z Z) : gmap Z Z :=
  if decide (e = 0) then delete fd m else <[fd := Z.lor EPOLLET e]> m.

Lemma wf_update s s' fd c c' :
  wf s -> ctx_lookup s fd = Some c -> ctx_wf (Z.to_nat fd) c' ->
  m_fdContexts s' = <[Z.to_nat fd := c']> (m_fdContexts s) ->
  m_pendingEventCount s' = u64 (m_pendingEventCount s + (registered c' - registered c)) ->
  interest s' = interest_after fd (events c') (interest s) -> wf s'.
Proof.
  intros Hwf Hl Hc' Ec Ep Ei. pose proof (ctx_lookup_range _ _ _ Hl) as Hr.
  destruct Hwf as [H1 H2 H3 H4]. pose proof Hl as Hl'. unfold ctx_lookup in Hl'.
  rewrite decide_True in Hl' by lia. constructor.
  - intros i c0. rewrite Ec. intros [(<- & <- & _)|[_ H]]%list_lookup_insert_Some; [done|by apply H1].
  - rewrite Ec, (total_insert _ _ _ _ Hl'), Ep, H2. unfold wrap.
    rewrite Zplus_mod_idemp_l. f_equal. lia.
  - intros fd'. rewrite Ei. unfold interest_after, ctx_lookup. rewrite Ec.
    destruct (decide (fd' = fd)) as [->|Hne].
    + destruct (decide (0 <= fd)) as [_|]; [|lia]. rewrite list_lookup_insert_eq by lia.
      simpl. case_decide; [by rewrite lookup_delete_eq|by rewrite lookup_insert_eq].
    + assert (Hsame : (if decide (events c' = 0) then delete fd (interest s)
        else <[fd := Z.lor EPOLLET (events c')]> (interest s)) !! fd' = interest s !! fd').
      { case_decide; [by rewrite lookup_delete_ne|by rewrite lookup_insert_ne]. }
      rewrite Hsame, H3. unfold ctx_lookup. destruct (decide (0 <= fd')); [|done].
      by rewrite list_lookup_insert_ne by lia.
  - by rewrite Ec, length_insert.
Qed.

(** The three ways an [epoll_ctl] is issued. *)
Lemma epoll_ctl_mod s fd e :
  epoll_ctl 0 (ctl_op e) fd (Z.lor EPOLLET e) s =
    (Val 0, set_interest (interest_after fd e (interest s)) s).
Proof.
  unfold epoll_ctl, ctl_op, interest_after, modify, mbind, st_bind. simpl.
  by repeat case_decide.
Qed.
Lemma epoll_ctl_fail s rt op fd ev : rt <> 0 -> epoll_ctl rt op fd ev s = (Val rt, s).
Proof. intros. unfold epoll_ctl, mbind, st_bind. by rewrite decide_False. Qed.

Lemma in_table s fd c :
  ctx_lookup s fd = Some c -> ~ Z.of_nat (length (m_fdContexts s)) <= fd.
Proof. intros H%ctx_lookup_range. lia. Qed.

Lemma has_spec e ev : has e ev = true <-> Z.land e ev <> 0.
Proof. apply bool_decide_eq_true. Qed.
Lemma has_false e ev : has e ev = false <-> Z.land e ev = 0.
Proof. unfold has. rewrite bool_decide_eq_false. lia. Qed.

(** An operation that leaves the object as it found it. *)
Lemma cancelEvent_ok s rt fd event c :
  wf s -> ctx_lookup s fd = Some c -> is_event event ->
  if has (events c) event && bool_decide (rt = 0) then
    exists i s', ec_scheduler (the_context event c) = Some i /\
      cancelEvent rt fd event s = (Val true, s') /\ wf s' /\
      posts [(i, fired_task (the_context event c))] s s' /\
      m_fdContexts s' = <[Z.to_nat fd := disarm event c]> (m_fdContexts s)
  else cancelEvent rt fd event s = (Val false, s).
Proof.
  intros Hwf Hl He. pose proof (wf_lookup _ _ _ Hwf Hl) as Hc. pose proof Hc as (_ & Hm & Harm).
  eassert (Heq : cancelEvent rt fd event s = _).
  { unfold cancelEvent. unfold gets at 1, mbind at 1, st_bind at 1. cbv beta iota.
    rewrite decide_False by by apply (in_table s fd c).
    st_step (context_at_ok s fd c Hl). reflexivity. }
  rewrite Heq. clear Heq.
  destruct (has (events c) event) eqn:Hh; cbn [andb].
  2: { by rewrite decide_True by by apply has_false. }
  specialize (Harm event He). rewrite Hh in Harm. destruct Harm as [[i Hi] Harm].
  case_bool_decide as Hrt; [subst rt|].
  - set (s1 := set_interest (interest_after fd (Z.land (events c) (Z.lnot event)) (interest s)) s).
    destruct (fire_ok s1 fd event c i Hl He Hh) as (s2 & E2 & Hp & [Hup Hui] & Hpend);
      [by split; [eexists|]|done|].
    exists i, s2. split; [done|]. split.
    { rewrite decide_False by by apply has_spec.
      st_step (epoll_ctl_mod s fd (Z.land (events c) (Z.lnot event))). fold s1.
      rewrite decide_False by lia. unfold trigger_if in E2.
      apply st_bind_inv in E2 as ([] & s3 & E3 & E4). st_step E3. by st_step E4. }
    split; [|split; [destruct Hp; by constructor|by rewrite Hup]].
    apply (wf_update s s2 fd c (disarm event c)); try done.
    + by apply disarm_wf.
    + rewrite Hpend, disarm_registered by done. simpl. f_equal. lia.
    + rewrite Hui. simpl. unfold disarm. by rewrite events_set_context.
  - rewrite decide_False by by apply has_spec.
    st_step (epoll_ctl_fail s rt (ctl_op (Z.land (events c) (Z.lnot event))) fd
      (Z.lor EPOLLET (Z.land (events c) (Z.lnot event))) Hrt).
    by rewrite decide_True.
Qed.

Lemma delEvent_ok s rt fd event c :
  wf s -> ctx_lookup s fd = Some c -> is_event event ->
  if has (events c) event && bool_decide (rt = 0) then
    exists s', delEvent rt fd event s = (Val true, s') /\ wf s' /\ posts [] s s' /\
      m_fdContexts s' = <[Z.to_nat fd := disarm event c]> (m_fdContexts s)
  else delEvent rt fd event s = (Val false, s).
Proof.
  intros Hwf Hl He. pose proof (wf_lookup _ _ _ Hwf Hl) as Hc. pose proof Hc as (_ & Hm & Harm).
  eassert (Heq : delEvent rt fd event s = _).
  { unfold delEvent. unfold gets at 1, mbind at 1, st_bind at 1. cbv beta iota.
    rewrite decide_False by by apply (in_table s fd c).
    st_step (context_at_ok s fd c Hl). reflexivity. }
  rewrite Heq. clear Heq.
  destruct (has (events c) event) eqn:Hh; cbn [andb].
  2: { by rewrite decide_True by by apply has_false. }
  rewrite decide_False by by apply has_spec. case_bool_decide as Hrt; [subst rt|].
  - set (e' := Z.land (events c) (Z.lnot event)).
    exists (set_contexts (<[Z.to_nat fd := disarm event c]> (m_fdContexts s))
      (set_pending (u64 (m_pendingEventCount s + -1))
        (set_interest (interest_after fd e' (interest s)) s))). split.
    { st_step (epoll_ctl_mod s fd e'). rewrite decide_False by lia.
      unfold pending_add, put_context, modify, lift, mbind, st_bind. cbv beta iota.
      rewrite getContext_ok by done. simpl. by rewrite list_insert_insert_eq. }
    split; [|split; [by apply posts_nil|done]].
    eapply (wf_update s _ fd c (disarm event c)); try done.
    + by apply disarm_wf.
    + rewrite disarm_registered by done. simpl. do 2 f_equal. lia.
    + simpl. unfold disarm. by rewrite events_set_context.
  - st_step (epoll_ctl_fail s rt (ctl_op (Z.land (events c) (Z.lnot event))) fd
      (Z.lor EPOLLET (Z.land (events c) (Z.lnot event))) Hrt).
    by rewrite decide_True.
Qed.

(** Firing the events of [es], one after the other. *)
Fixpoint disarm_all (es : list Z) c : FdContext F W :=
  match es with [] => c | e :: es' => disarm_all es' (disarm e c) end.
Fixpoint fire_all (fd : Z) (es : list Z) : ST (IOManager F W) unit :=
  match es with [] => mret tt | e :: es' => trigger_if fd e true;; fire_all fd es' end.
Definition task_of c (e : Z) : Z * FT :=
  (default 0 (ec_scheduler (the_context e c)), fired_task (the_context e c)).

Lemma task_of_disarm c e e' :
  is_event e -> is_event e' -> e <> e' -> task_of (disarm e c) e' = task_of c e'.
Proof.
  intros He He' Hne. unfold task_of, disarm. rewrite the_context_set by done.
  rewrite decide_False by done. by destruct He' as [->| ->].
Qed.

Lemma fire_all_ok s fd es c n :
  ctx_lookup s fd = Some c -> ctx_wf (Z.to_nat fd) c -> NoDup es ->
  Forall (fun e => is_event e /\ has (events c) e = true) es ->
  m_pendingEventCount s = u64 n ->
  exists s', fire_all fd es s = (Val tt, s') /\ posts (task_of c <$> es) s s' /\
    updated fd (disarm_all es c) s s' /\
    m_pendingEventCount s' = u64 (n + (registered (disarm_all es c) - registered c)) /\
    ctx_wf (Z.to_nat fd) (disarm_all es c).
Proof.
  revert s c n. induction es as [|e es IH]; intros s c n Hl Hc Hnd Hes Hn.
  - exists s. split; [done|]. split; [by apply posts_nil|]. simpl.
    pose proof (ctx_lookup_range _ _ _ Hl). unfold ctx_lookup in Hl.
    rewrite decide_True in Hl by lia. split; [by constructor; rewrite ?list_insert_id|].
    split; [|done]. rewrite Hn. f_equal. lia.
  - apply list.NoDup_cons in Hnd as [Hnotin Hnd].
    apply list.Forall_cons in Hes as [[He Hh] Hes].
    pose proof Hc as (_ & Hm & Harm). specialize (Harm e He). rewrite Hh in Harm.
    pose proof Harm as [[i Hi] _].
    destruct (fire_ok s fd e c i Hl He Hh Harm Hi) as (s1 & E1 & Hp1 & [Hu1 Hi1] & Hn1).
    assert (Hl1 : ctx_lookup s1 fd = Some (disarm e c)).
    { pose proof (ctx_lookup_range _ _ _ Hl). unfold ctx_lookup.
      rewrite decide_True, Hu1, list_lookup_insert_eq by lia. done. }
    assert (Hn1' : m_pendingEventCount s1 = u64 (n - 1)).
    { rewrite Hn1, Hn. unfold wrap. by rewrite Zminus_mod_idemp_l. }
    destruct (IH s1 (disarm e c) (n - 1) Hl1) as (s2 & E2 & Hp2 & [Hu2 Hi2] & Hn2 & Hwf2);
      try done.
    { by apply disarm_wf. }
    { apply list.Forall_forall. intros e' He'.
      pose proof (proj1 (list.Forall_forall _ _) Hes e' He') as [Hev Hh']. split; [done|].
      unfold disarm. rewrite events_set_context. simpl. rewrite has_del by done.
      rewrite Hh', bool_decide_false; [done|]. by intros ->. }
    exists s2. split; [simpl; by st_step E1|]. split; [|split; [|split; [|done]]].
    + assert (Ht : task_of c e = (i, fired_task (the_context e c)))
        by (unfold task_of; by rewrite Hi).
      simpl. rewrite Ht. apply (posts_trans [_] _ _ s1); [done|].
      replace (list_fmap _ _ (task_of c) es) with (task_of (disarm e c) <$> es); [done|].
      apply list_fmap_ext. intros j e' He'%list_elem_of_lookup_2.
      pose proof (proj1 (list.Forall_forall _ _) Hes e' He') as [Hev _].
      apply task_of_disarm; try done. by intros ->.
    + constructor; [|by rewrite Hi2]. by rewrite Hu2, Hu1, list_insert_insert_eq.
    + rewrite Hn2. simpl. rewrite (disarm_registered c e) by done. f_equal. lia.
Qed.

(** The events of a mask, in the order they are triggered. *)
Definition events_of (m : Z) : list Z :=
  (if has m READ then [READ] else []) ++ (if has m WRITE then [WRITE] else []).

Lemma events_of_spec m : NoDup (events_of m) /\
  Forall (fun e => is_event e /\ has m e = true) (events_of m).
Proof.
  unfold events_of. split.
  - destruct (has m READ), (has m WRITE); simpl; repeat constructor; set_solver.
  - destruct (has m READ) eqn:E1, (has m WRITE) eqn:E2; simpl; repeat constructor;
      try done; by (left + right).
Qed.

Lemma disarm_all_events c m : event_mask (events c) -> event_mask m ->
  events (disarm_all (events_of m) c) = Z.land (events c) (Z.lnot m).
Proof.
  unfold events_of, disarm_all. intros Hc [->|[->|[->| ->]]]; simpl;
    unfold disarm; rewrite ?events_set_context; simpl; rewrite ?events_set_context; simpl;
    destruct Hc as [->|[->|[->| ->]]]; reflexivity.
Qed.

Lemma updated_lookup s s' fd c c' :
  ctx_lookup s fd = Some c -> updated fd c' s s' -> ctx_lookup s' fd = Some c'.
Proof.
  intros Hl [Hu _]. pose proof (ctx_lookup_range _ _ _ Hl). unfold ctx_lookup.
  by rewrite decide_True, Hu, list_lookup_insert_eq by lia.
Qed.

(** The contexts of [cancelAll] and of a reported event end the same way: the
  events of [m] are gone and their tasks posted. *)
Lemma fired_wf s s1 s2 fd c m :
  wf s -> ctx_lookup s fd = Some c -> event_mask m ->
  (forall e, is_event e -> has m e = true -> has (events c) e = true) ->
  s1 = set_interest (interest_after fd (Z.land (events c) (Z.lnot m)) (interest s)) s ->
  fire_all fd (events_of m) s1 = (Val tt, s2) ->
  wf s2 /\ posts (task_of c <$> events_of m) s s2 /\
    m_fdContexts s2 = <[Z.to_nat fd := disarm_all (events_of m) c]> (m_fdContexts s).
Proof.
  intros Hwf Hl Hm Hsub -> E. pose proof (wf_lookup _ _ _ Hwf Hl) as Hc.
  destruct (events_of_spec m) as [Hnd Hall].
  set (s1 := set_interest _ s) in *.
  destruct (fire_all_ok s1 fd (events_of m) c (total (m_fdContexts s)) Hl Hc Hnd)
    as (s2' & E' & Hp & [Hu Hi] & Hn & Hc'); [|apply Hwf|].
  { eapply Forall_impl; [|exact Hall]. intros e [He Hh]. by split; [|apply Hsub]. }
  assert (s2' = s2) as -> by congruence. split; [|split; [destruct Hp; by constructor|done]].
  apply (wf_update s s2 fd c (disarm_all (events_of m) c)); try done.
  - rewrite Hn, (wf_count s Hwf). unfold wrap. by rewrite Zplus_mod_idemp_l.
  - rewrite Hi, disarm_all_events; [done|apply Hc|done].
Qed.

Lemma cancelAll_ok s rt fd c :
  wf s -> ctx_lookup s fd = Some c ->
  if bool_decide (events c <> 0) && bool_decide (rt = 0) then
    exists s', cancelAll rt fd s = (Val true, s') /\ wf s' /\
      posts (task_of c <$> events_of (events c)) s s' /\
      m_fdContexts s' =
        <[Z.to_nat fd := disarm_all (events_of (events c)) c]> (m_fdContexts s)
  else cancelAll rt fd s = (Val false, s).
Proof.
  intros Hwf Hl. pose proof (wf_lookup _ _ _ Hwf Hl) as Hc. pose proof Hc as (_ & Hm & _).
  eassert (Heq : cancelAll rt fd s = _).
  { unfold cancelAll. unfold gets at 1, mbind at 1, st_bind at 1. cbv beta iota.
    rewrite decide_False by by apply (in_table s fd c).
    st_step (context_at_ok s fd c Hl). reflexivity. }
  rewrite Heq. clear Heq. case_bool_decide as Hz; cbn [andb].
  2: { by rewrite decide_True by lia. }
  rewrite decide_False by done. case_bool_decide as Hrt; [subst rt|].
  2: { st_step (epoll_ctl_fail s rt EPOLL_CTL_DEL fd 0 Hrt). by rewrite decide_True. }
  set (s1 := set_interest (interest_after fd (Z.land (events c) (Z.lnot (events c))) (interest s)) s).
  assert (Ectl : epoll_ctl 0 EPOLL_CTL_DEL fd 0 s = (Val 0, s1)).
  { unfold epoll_ctl, modify, mbind, st_bind, s1. by rewrite Z.land_lnot_diag. }
  st_step Ectl. rewrite decide_False by lia.
  destruct (events_of_spec (events c)) as [Hnd Hall].
  destruct (fire_all_ok s1 fd _ c (total (m_fdContexts s)) Hl Hc Hnd Hall)
    as (s2 & E2 & _ & Hup & _); [apply Hwf|].
  destruct (fired_wf s s1 s2 fd c (events c) Hwf Hl Hm (fun e _ H => H) eq_refl E2)
    as (Hwf2 & Hp & Hu).
  exists s2. split; [|by split_and!].
  pose proof (updated_lookup s1 s2 fd c _ Hl Hup) as Hl2.
  assert (Hev2 : events (disarm_all (events_of (events c)) c) = 0)
    by (rewrite disarm_all_events by done; apply Z.land_lnot_diag).
  assert (Hend : (c2 ← context_at fd; check (bool_decide (events c2 = 0));; mret true) s2
    = (Val true, s2)) by (st_step (context_at_ok s2 fd _ Hl2); by rewrite bool_decide_true).
  destruct (has (events c) READ) eqn:H1, (has (events c) WRITE) eqn:H2;
    unfold events_of in E2; rewrite H1, H2 in E2; unfold has in H1, H2; rewrite H1.
  - apply st_bind_inv in E2 as ([] & s3 & E3 & E4). apply st_bind_inv in E4 as ([] & s4 & E4 & E5).
    injection E5 as ->. st_step E3.
    destruct Hc as (_ & _ & Harm). pose proof (Harm READ (or_introl eq_refl)) as Ha.
    unfold has in Ha. rewrite H1 in Ha. pose proof Ha as [[i Hi] _].
    destruct (fire_ok s1 fd READ c i Hl (or_introl eq_refl) H1 Ha Hi) as (s3' & E3' & _ & Hu3 & _).
    assert (s3' = s3) as -> by congruence.
    st_step (context_at_ok s3 fd _ (updated_lookup s1 s3 fd c _ Hl Hu3)).
    assert (Hw : bool_decide (Z.land (events (disarm READ c)) WRITE <> 0) = true).
    { unfold disarm. rewrite events_set_context. simpl. rewrite <- H2.
      pose proof (has_del (events c) READ WRITE Hm (or_introl eq_refl) (or_intror eq_refl)) as Hd.
      unfold has in Hd. rewrite Hd, andb_true_r. done. }
    rewrite Hw. st_step E4. exact Hend.
  - apply st_bind_inv in E2 as ([] & s3 & E3 & E4). injection E4 as ->. st_step E3.
    st_step (context_at_ok s2 fd _ Hl2). rewrite Hev2. simpl. unfold mbind at 1, st_bind at 1. simpl.
    exact Hend.
  - apply st_bind_inv in E2 as ([] & s3 & E3 & E4). injection E4 as ->.
    unfold mbind at 1, st_bind at 1. simpl. st_step (context_at_ok s1 fd c Hl). rewrite H2.
    st_step E3. exact Hend.
  - exfalso. unfold has in H1, H2. apply bool_decide_eq_false in H1, H2.
    destruct Hm as [E|[E|[E|E]]]; rewrite E in *; vm_compute in H1, H2, Hz; lia.
Qed.

Lemma real_events_mask ev : event_mask (real_events ev).
Proof.
  unfold real_events. case_decide; repeat case_decide; unfold event_mask, NONE, READ, WRITE;
    simpl; auto.
Qed.

Lemma mask_meet m m' : event_mask m -> event_mask m' -> Z.land m m' <> NONE ->
  exists e, is_event e /\ has m e = true /\ has m' e = true.
Proof.
  unfold event_mask, is_event. intros [->|[->|[->| ->]]] [->|[->|[->| ->]]] Hne; try done;
    ((exists READ; by split_and!; [left| |]) || (exists WRITE; by split_and!; [right| |])).
Qed.

(** [trigger_if] on the bits of a mask is [fire_all] on its events. *)
Lemma trigger_both fd m s :
  (trigger_if fd READ (has m READ);; trigger_if fd WRITE (has m WRITE)) s =
    fire_all fd (events_of m) s.
Proof.
  unfold events_of. destruct (has m READ), (has m WRITE); cbn [app fire_all];
    unfold mbind, st_bind, mret, st_ret.
  - destruct (trigger_if fd READ true s) as [[[]| |] s1]; try done.
    by destruct (trigger_if fd WRITE true s1) as [[[]| |] s2].
  - by destruct (trigger_if fd READ true s) as [[[]| |] s1].
  - change (trigger_if fd READ false s) with (Val tt, s : IOManager F W).
    by destruct (trigger_if fd WRITE true s) as [[[]| |] s1].
  - done.
Qed.

Lemma forallb_has m l : forallb (has m) l = true <-> forall e, e ∈ l -> has m e = true.
Proof. rewrite forallb_forall. by setoid_rewrite list_elem_of_In. Qed.

(** A reported event. *)
Lemma handle_ready_ok s rt fd ev c :
  wf s -> ctx_lookup s fd = Some c ->
  let real := real_events ev in
  if decide (Z.land (events c) real = NONE \/ rt <> 0)
  then handle_ready rt (ReadyCtx fd ev) s = (Val tt, s)
  else if forallb (has (events c)) (events_of real) then
    exists s', handle_ready rt (ReadyCtx fd ev) s = (Val tt, s') /\ wf s' /\
      posts (task_of c <$> events_of real) s s' /\
      m_fdContexts s' = <[Z.to_nat fd := disarm_all (events_of real) c]> (m_fdContexts s)
  else exists s', handle_ready rt (ReadyCtx fd ev) s = (Bad AssertFailed, s').
Proof.
  intros Hwf Hl. cbv zeta. pose proof (wf_lookup _ _ _ Hwf Hl) as Hc.
  pose proof Hc as (Hfd & Hm & Harm). pose proof (ctx_lookup_range _ _ _ Hl) as Hr.
  pose proof (real_events_mask ev) as Hmr. set (real := real_events ev) in *.
  eassert (Heq : handle_ready rt (ReadyCtx fd ev) s = _).
  { unfold handle_ready. st_step (context_at_ok s fd c Hl). fold real. reflexivity. }
  rewrite Heq. clear Heq. replace (ctx_fd c) with fd by (rewrite Hfd; lia).
  set (left := Z.land (events c) (Z.lnot real)).
  destruct (decide (Z.land (events c) real = NONE)) as [Hn|Hn].
  { by rewrite decide_True by by left. }
  destruct (decide (rt = 0)) as [->|Hrt].
  2: { rewrite decide_True by by right.
       st_step (epoll_ctl_fail s rt (ctl_op left) fd (Z.lor EPOLLET left) Hrt).
       by rewrite decide_True. }
  rewrite decide_False by naive_solver.
  st_step (epoll_ctl_mod s fd left). rewrite decide_False by lia.
  set (s1 := set_interest _ s).
  assert (Htb : (trigger_if fd READ (bool_decide (Z.land real READ <> 0));;
    trigger_if fd WRITE (bool_decide (Z.land real WRITE <> 0))) s1 =
    fire_all fd (events_of real) s1) by apply trigger_both.
  rewrite Htb. destruct (events_of_spec real) as [Hnd Hall].
  destruct (forallb _ _) eqn:Hsub; [rewrite forallb_has in Hsub|
    apply not_true_iff_false in Hsub; rewrite forallb_has in Hsub].
  - assert (Hall' : Forall (fun e => is_event e /\ has (events c) e = true) (events_of real)).
    { apply list.Forall_forall. intros e He. split; [|by apply Hsub].
      by apply (proj1 (list.Forall_forall _ _) Hall e He). }
    destruct (fire_all_ok s1 fd _ c (total (m_fdContexts s)) Hl Hc Hnd Hall')
      as (s2 & E2 & _ & Hup & _); [apply Hwf|].
    exists s2. split; [done|]. eapply fired_wf; try done.
    intros e He Hh. apply Hsub. unfold events_of. rewrite elem_of_app.
    destruct He as [->| ->]; rewrite Hh; [left|right]; by left.
  - apply mask_meet in Hn as (e & He & Hh1 & Hh2); [|done|done].
    assert (Hbad : forall s0 e0 c0, ctx_lookup s0 fd = Some c0 -> has (events c0) e0 = false ->
      trigger_if fd e0 true s0 = (Bad AssertFailed, s0)).
    { intros s0 e0 c0 Hl0 Hh0. unfold trigger_if, triggerEvent, mbind, st_bind.
      rewrite (context_at_ok s0 fd c0 Hl0). unfold has in Hh0. by rewrite Hh0. }
    destruct (has real READ) eqn:HR, (has real WRITE) eqn:HW.
    + unfold events_of. rewrite HR, HW. simpl.
      destruct (has (events c) READ) eqn:CR.
      * pose proof (Harm READ (or_introl eq_refl)) as Ha. rewrite CR in Ha.
        pose proof Ha as [[i Hi] _].
        destruct (fire_ok s1 fd READ c i Hl (or_introl eq_refl) CR Ha Hi)
          as (s2 & E2 & _ & Hup & _). st_step E2.
        exists s2. apply (st_bind_bad _ (fun _ => mret tt)).
        apply (Hbad s2 WRITE _ (updated_lookup s1 s2 fd c _ Hl Hup)).
        unfold disarm. rewrite events_set_context. simpl.
        rewrite has_del by (done || (by left) || (by right)).
        destruct (has (events c) WRITE) eqn:CW; [|done]. exfalso. apply Hsub.
        intros e0 He0. unfold events_of in He0. rewrite HR, HW in He0.
        apply elem_of_cons in He0 as [->|He0]; [done|].
        apply elem_of_cons in He0 as [->|He0]; [done|by apply elem_of_nil in He0].
      * exists s1. apply (st_bind_bad _ (fun _ => _)). by apply (Hbad s1 READ c).
    + exfalso. apply Hsub. unfold events_of. rewrite HR, HW.
      destruct He as [->| ->]; [|congruence]. by intros e0 ->%list_elem_of_singleton.
    + exfalso. apply Hsub. unfold events_of. rewrite HR, HW.
      destruct He as [->| ->]; [congruence|]. by intros e0 ->%list_elem_of_singleton.
    + destruct He as [->| ->]; congruence.
Qed.

(** ** Growing the table, adding events *)

Definition resized (size : nat) s : IOManager F W :=
  set_contexts (m_fdContexts s ++
    (new_context <$> seq (length (m_fdContexts s)) (size - length (m_fdContexts s)))) s.

Lemma contextResize_grow size s :
  (length (m_fdContexts s) <= size)%nat -> contextResize size s = (Val tt, resized size s).
Proof. intros Hle. unfold contextResize, modify. by rewrite take_ge. Qed.

Lemma resized_lookup size s i :
  (length (m_fdContexts s) <= size)%nat ->
  m_fdContexts (resized size s) !! i =
    if decide (i < length (m_fdContexts s))%nat then m_fdContexts s !! i
    else if decide (i < size)%nat then Some (new_context i) else None.
Proof.
  intros Hle. simpl. case_decide as Hi; [by apply lookup_app_l|].
  rewrite lookup_app_r, list_lookup_fmap by lia. case_decide as Hs.
  - rewrite lookup_seq_lt by lia. simpl. do 2 f_equal. lia.
  - rewrite lookup_seq_ge by lia. done.
Qed.

Lemma new_context_wf i : ctx_wf i (new_context i : FdContext F W).
Proof.
  split; [done|]. split; [by left|]. intros e [->| ->]; reflexivity.
Qed.

Lemma resized_wf size s : (length (m_fdContexts s) <= size)%nat -> wf s -> wf (resized size s).
Proof.
  intros Hle Hwf. pose proof (resized_lookup size s) as Hlook.
  destruct Hwf as [H1 H2 H3 H4]. constructor.
  - intros i c. rewrite Hlook by done. repeat case_decide; try done; [by apply H1|].
    intros [= <-]. apply new_context_wf.
  - simpl. by rewrite total_app, total_new, Z.add_0_r.
  - intros fd. change (interest (resized size s)) with (interest s). rewrite H3.
    unfold ctx_lookup. destruct (decide (0 <= fd)); [|done]. rewrite Hlook by done.
    destruct (decide (Z.to_nat fd < length (m_fdContexts s))%nat) as [|Hge]; [done|].
    rewrite lookup_ge_None_2 by lia. simpl. by destruct (decide (Z.to_nat fd < size)%nat).
  - simpl. rewrite length_app. lia.
Qed.

(** The table as [addEvent] needs it. *)
Definition grown (fd : Z) s : IOManager F W :=
  if decide (Z.of_nat (length (m_fdContexts s)) > fd) then s
  else resized (Z.to_nat (fd * 3 / 2)) s.
(** The context of [fd], fresh if the table did not reach that far. *)
Definition ctx_or_new fd s : FdContext F W := default (new_context (Z.to_nat fd)) (ctx_lookup s fd).

Lemma grown_ok fd s :
  wf s -> 0 <= fd ->
  wf (grown fd s) /\ posts [] s (grown fd s) /\
  ctx_lookup (grown fd s) fd = Some (ctx_or_new fd s) /\
  (forall fd' c, ctx_lookup s fd' = Some c -> ctx_lookup (grown fd s) fd' = Some c) /\
  (if decide (Z.of_nat (length (m_fdContexts s)) > fd) then mret tt
   else contextResize (Z.to_nat (fd * 3 / 2))) s = (Val tt, grown fd s).
Proof.
  intros Hwf Hfd. unfold grown, ctx_or_new. pose proof (wf_size s Hwf) as Hsz.
  case_decide as Hn.
  - split; [done|]. split; [by apply posts_nil|]. split; [|done].
    unfold ctx_lookup. rewrite decide_True by done.
    destruct (lookup_lt_is_Some_2 (m_fdContexts s) (Z.to_nat fd)) as [c ->]; [lia|done].
  - assert (Hlt : fd + 1 <= fd * 3 / 2) by (apply Z.div_le_lower_bound; lia).
    assert (Hle : (length (m_fdContexts s) <= Z.to_nat (fd * 3 / 2))%nat) by lia.
    pose proof (resized_lookup _ s (Z.to_nat fd) Hle) as Hl.
    split; [by apply resized_wf|]. split; [by apply posts_nil|]. split; [|split].
    + unfold ctx_lookup. rewrite decide_True, Hl, decide_False, decide_True by lia.
      rewrite decide_True, lookup_ge_None_2 by lia. done.
    + intros fd' c Hc. pose proof (ctx_lookup_range _ _ _ Hc).
      unfold ctx_lookup in *. rewrite decide_True in * by lia.
      by rewrite resized_lookup, decide_True by lia.
    + by apply contextResize_grow.
Qed.

Lemma epoll_ctl_add s fd e e0 :
  Z.lor e0 e <> 0 ->
  epoll_ctl 0 (if decide (e0 <> 0) then EPOLL_CTL_MOD else EPOLL_CTL_ADD) fd
    (Z.lor EPOLLET (Z.lor e0 e)) s =
    (Val 0, set_interest (interest_after fd (Z.lor e0 e) (interest s)) s).
Proof.
  intros Hne. unfold epoll_ctl, interest_after, modify, mbind, st_bind.
  rewrite decide_True by done. rewrite (decide_False (P := Z.lor e0 e = 0)) by done.
  by case_decide.
Qed.

(** What [addEvent] registers. *)
Definition new_event (i cur : Z) (cbk : option (Timer.callback F W)) : EventContext F W :=
  match cbk with
  | Some f => mkEventContext (Some i) None (Some f)
  | None => mkEventContext (Some i) (Some cur) None
  end.

Lemma addEvent_ok s i cur rt fd event cbk :
  wf s -> 0 <= fd -> is_event event ->
  (cbk = None -> Scheduler.fiber_state (base s) cur = Val Fiber.EXEC) ->
  if has (events (ctx_or_new fd s)) event then
    addEvent (Some i) cur rt fd event cbk s = (Bad AssertFailed, grown fd s)
  else if decide (rt = 0) then
    exists s', addEvent (Some i) cur rt fd event cbk s = (Val 0, s') /\ wf s' /\
      posts [] s s' /\
      ctx_lookup s' fd = Some (arm event (new_event i cur cbk) (ctx_or_new fd s)) /\
      forall fd', fd' <> fd -> ctx_lookup s' fd' = ctx_lookup (grown fd s) fd'
  else addEvent (Some i) cur rt fd event cbk s = (Val (-1), grown fd s).
Proof.
  intros Hwf Hfd He Hcur. destruct (grown_ok fd s Hwf Hfd) as (Hwf1 & Hp1 & Hl1 & _ & E1).
  set (s1 := grown fd s) in *. set (c := ctx_or_new fd s) in *.
  pose proof (wf_lookup _ _ _ Hwf1 Hl1) as Hc. pose proof Hc as (_ & Hm & Harm).
  eassert (Heq : addEvent (Some i) cur rt fd event cbk s = _).
  { unfold addEvent. unfold gets at 1, mbind at 1, st_bind at 1. cbv beta iota.
    st_step E1. st_step (context_at_ok s1 fd c Hl1). reflexivity. }
  rewrite Heq. clear Heq. specialize (Harm event He).
  destruct (has (events c) event) eqn:Hh.
  { apply has_spec in Hh. by rewrite bool_decide_false by done. }
  pose proof (proj1 (has_false _ _) Hh) as Hh0. rewrite bool_decide_true by done.
  set (k := fun _ : unit => _). change (mbind k (check true) s1) with (k tt s1). unfold k. clear k.
  assert (Hne : Z.lor (events c) event <> 0).
  { intros H0%Z.lor_eq_0_iff. by destruct He as [->| ->], H0. }
  destruct (decide (rt = 0)) as [->|Hrt].
  2: { st_step (epoll_ctl_fail s1 rt (if decide (events c <> 0) then EPOLL_CTL_MOD else EPOLL_CTL_ADD)
         fd (Z.lor EPOLLET (Z.lor (events c) event)) Hrt). by rewrite decide_True. }
  st_step (epoll_ctl_add s1 fd event (events c) Hne). rewrite decide_False by lia.
  set (x := new_event i cur cbk).
  exists (set_contexts (<[Z.to_nat fd := arm event x c]> (m_fdContexts s1))
    (set_pending (u64 (m_pendingEventCount s1 + 1))
      (set_interest (interest_after fd (Z.lor (events c) event) (interest s1)) s1))).
  assert (Hx : armed x).
  { unfold x, new_event. destruct cbk; split; simpl; eauto. }
  pose proof (ctx_lookup_range _ _ _ Hl1) as Hr. split; [|split; [|split; [|split]]].
  - unfold pending_add, put_context, modify, lift, mbind, st_bind, check, mret, st_ret.
    rewrite getContext_ok by done.
    change (the_context event (set_events (Z.lor (events c) event) c)) with (the_context event c).
    rewrite Harm. simpl. unfold x, new_event, arm. destruct cbk as [f|].
    + cbn [m_fdContexts set_contexts]. by rewrite list_insert_insert_eq.
    + unfold on_base. simpl.
      assert (Hb : base s1 = base s) by (unfold s1, grown; by case_decide).
      rewrite Hb, (Hcur eq_refl). rewrite bool_decide_true by done. simpl.
      rewrite list_insert_insert_eq. unfold set_base. by destruct s1; simpl in *; subst.
  - apply (wf_update s1 _ fd c (arm event x c)); try done.
    + by apply arm_wf.
    + rewrite arm_registered by done. simpl. do 2 f_equal. lia.
    + simpl. unfold arm. by rewrite events_set_context.
  - apply posts_ext with s1; try done.
  - unfold ctx_lookup. simpl. rewrite decide_True, list_lookup_insert_eq by lia. done.
  - intros fd' Hne'. unfold ctx_lookup. simpl. destruct (decide (0 <= fd')); [|done].
    by rewrite list_lookup_insert_ne by lia.
Qed.

Lemma fresh_table_wf s n :
  m_fdContexts s = new_context <$> seq 0 n -> (2 <= n)%nat ->
  m_pendingEventCount s = 0 -> interest s = ∅ -> wf s.
Proof.
  intros Ec Hn Ep Ei. constructor; rewrite ?Ec.
  - intros j c. rewrite list_lookup_fmap. intros (k & [-> _]%lookup_seq & ->)%fmap_Some.
    apply new_context_wf.
  - by rewrite total_new, Ep.
  - intros fd. rewrite Ei, lookup_empty. unfold ctx_lookup. rewrite Ec.
    case_decide; [|done]. rewrite list_lookup_fmap.
    destruct (seq 0 n !! Z.to_nat fd) eqn:E; [|done]. reflexivity.
  - rewrite length_fmap, length_seq. lia.
Qed.

Lemma IOManager_new_wf i now (b : Scheduler.Scheduler (Timer.callback F W)) epfd ids s :
  IOManager_new i now b epfd 0 0 0 ids = (Val tt, s) -> wf s.
Proof.
  unfold IOManager_new. destruct (decide (epfd > 0)) as [He|He].
  2: { rewrite (bool_decide_false _ He). intros E. discriminate E. }
  rewrite (bool_decide_true _ He). change (bool_decide (0 = 0)) with true.
  unfold check, mbind, st_bind, mret, st_ret, contextResize, modify, on_base. simpl.
  destruct (Scheduler.start ids b) as [r b']. intros [= -> <-].
  apply (fresh_table_wf _ 32); [reflexivity|lia|reflexivity..].
Qed.

(** Nothing is removed for a descriptor that has no context yet. *)
Lemma not_in_table s rt fd event :
  0 <= fd -> ctx_lookup s fd = None ->
  cancelEvent rt fd event s = (Val false, s) /\ delEvent rt fd event s = (Val false, s) /\
  cancelAll rt fd s = (Val false, s).
Proof.
  intros Hfd Hl. unfold ctx_lookup in Hl. rewrite decide_True in Hl by done.
  apply lookup_ge_None in Hl. unfold cancelEvent, delEvent, cancelAll. rewrite !gets_bind.
  by rewrite !decide_True by lia.
Qed.

(** What [stop] waits for: when it returns no task is queued, no worker holds one, and no
    context of the table that the destructor deletes has an event, as long as the counter
    of the events has not wrapped. *)
Lemma total_bound l : total l <= 2 * Z.of_nat (length l).
Proof.
  induction l as [|c l IH]; [done|].
  change (registered c + total l <= 2 * Z.of_nat (S (length l))). unfold registered.
  destruct (has _ READ), (has _ WRITE); simpl; lia.
Qed.

Lemma total_zero l i c : total l = 0 -> l !! i = Some c -> registered c = 0.
Proof.
  intros H Hi. pose proof (total_insert l i c (new_context 0) Hi) as E.
  pose proof (total_nonneg (<[i := new_context 0]> l)) as H0. rewrite E, H in H0.
  unfold registered in *. simpl in H0. destruct (has _ READ), (has _ WRITE); simpl in *; lia.
Qed.

Lemma registered_zero i c : ctx_wf i c -> registered c = 0 -> events c = 0.
Proof.
  intros (_ & Hm & _). unfold registered. by destruct Hm as [-> | [-> | [-> | ->]]].
Qed.

Lemma on_timers_pure {A} (m : ST (Timer.TimerManager F W) A) s a s' :
  on_timers m s = (Val a, s') -> m_fdContexts s' = m_fdContexts s /\ base s' = base s /\
    m_pendingEventCount s' = m_pendingEventCount s.
Proof. unfold on_timers. destruct (m (timers s)) as [r x]. by intros [= -> <-]. Qed.

Lemma stop_wait_done now s s' :
  wf s -> 2 * Z.of_nat (length (m_fdContexts s)) < 2 ^ 64 -> stop_wait now s = (Val true, s') ->
  m_fdContexts s' = m_fdContexts s /\
  (forall i c, m_fdContexts s !! i = Some c -> events c = 0) /\
  Scheduler.m_fibers (base s) = [] /\ Scheduler.m_activeThreadCount (base s) = 0 /\
  Scheduler.m_threads (base s') = [] /\
  (forall m_epfd pipe, exists s'', IOManager_delete m_epfd pipe s' = (Val [m_epfd; pipe.1; pipe.2], s'')).
Proof.
  intros [Hctx Hcount _ _] Hlen. unfold stop_wait, stopping.
  intros ([st n] & s1 & (t & s2 & E2 & E1)%st_bind_inv & E)%st_bind_inv.
  destruct (on_timers_pure _ _ _ _ E2) as (H1 & H2 & H3).
  apply st_bind_inv in E1 as (x & sx & [= <- <-] & [= Hst -> <-]).
  destruct st; [|apply st_bind_inv in E as (? & ? & _ & E); discriminate E].
  apply st_bind_inv in E as ([] & s3 & [= <-] & [= <-]). rewrite H2, H3 in Hst.
  apply andb_true_iff in Hst as [[_ Hp%bool_decide_eq_true]%andb_true_iff Hb].
  unfold Scheduler.stopping in Hb. rewrite !andb_true_iff, !bool_decide_eq_true in Hb.
  destruct Hb as [[[_ Hs] Hq] Ha].
  assert (Ht : total (m_fdContexts s) = 0).
  { pose proof (total_bound (m_fdContexts s)). pose proof (total_nonneg (m_fdContexts s)).
    rewrite <- (wrap_small 64 (total _)); [congruence|unfold in_u; lia]. }
  split; [done|]. split; [|split; [done|split; [done|split; [done|]]]].
  - intros i c Hi. eapply registered_zero; [by apply Hctx|]. by eapply total_zero.
  - intros m_epfd pipe. unfold IOManager_delete, mbind, st_bind, gets, modify, check. simpl.
    rewrite H2, Hs. by eexists.
Qed.
End Proofs.

(** ** Properties *)

(** C6: [addEvent]. Registering an event that is not yet registered, when the
    kernel accepts it, grows the table if needed, records the calling fiber or the
    callback, adds the event to the kernel's interest and counts it, and keeps the
    invariant; nothing is scheduled and no other descriptor changes. A second
    registration of the same event fails the assertion; a refused one changes
    nothing (but the size of the table) and returns -1. *)
Theorem addEvent_registers (F W : Type) (s : IOManager F W) i cur rt fd event cbk :
  wf s -> 0 <= fd -> is_event event ->
  (cbk = None -> Scheduler.fiber_state (base s) cur = Val Fiber.EXEC) ->
  if has (events (ctx_or_new fd s)) event then
    addEvent (Some i) cur rt fd event cbk s = (Bad AssertFailed, grown fd s)
  else if decide (rt = 0) then
    exists s', addEvent (Some i) cur rt fd event cbk s = (Val 0, s') /\ wf s' /\
      posts [] s s' /\
      ctx_lookup s' fd = Some (arm event (new_event i cur cbk) (ctx_or_new fd s)) /\
      forall fd', fd' <> fd -> ctx_lookup s' fd' = ctx_lookup (grown fd s) fd'
  else addEvent (Some i) cur rt fd event cbk s = (Val (-1), grown fd s).
Proof. apply addEvent_ok. Qed.

Definition base0 : Scheduler.Scheduler (Timer.callback nat unit) :=
  Scheduler.mkScheduler [] [] 1 0 0 true false (-1) [] 0 (Fiber.mkFibers ∅ 0 0 ∅ ∅).
Definition io0 : IOManager nat unit := snd (IOManager_new 100 1000 base0 5 0 0 0 [1]).
Definition cb7 : option (Timer.callback nat unit) := Some (Timer.Fun 7%nat).

Lemma io0_wf : wf io0.
Proof. apply (IOManager_new_wf 100 1000 base0 5 [1]). reflexivity. Qed.

Lemma addEvent_registers_witness :
  exists s', addEvent (Some 100) 0 0 40 READ cb7 io0 = (Val 0, s') /\ wf s' /\
    length (m_fdContexts s') = 60%nat.
Proof.
  pose proof (addEvent_registers nat unit io0 100 0 0 40 READ cb7 io0_wf ltac:(lia)
    (or_introl eq_refl) ltac:(discriminate)) as H.
  change (has (events (ctx_or_new 40 io0)) READ) with false in H. cbv iota in H.
  rewrite decide_True in H by reflexivity. destruct H as (s' & E & Hwf & _).
  exists s'. split; [exact E|]. split; [exact Hwf|].
  vm_compute in E. injection E as <-. reflexivity.
Defined.

(** C7: the three ways to remove events of a descriptor (a number that is not
    negative). On a registered event that the kernel
    lets go, [cancelEvent] posts exactly the registered task to the scheduler it
    was registered with, [delEvent] posts nothing, and [cancelAll] posts the read
    task, then the write task; in each case exactly these events disappear from
    the table, the counter and the kernel's list. Otherwise (the descriptor is not in the
    table, the event is not registered, or the kernel refuses) they return [false] and
    change nothing. *)
Theorem remove_events (F W : Type) (s : IOManager F W) rt fd event :
  wf s -> 0 <= fd -> is_event event ->
  match ctx_lookup s fd with
  | Some c =>
      (if has (events c) event && bool_decide (rt = 0) then
         exists i s', ec_scheduler (the_context event c) = Some i /\
           cancelEvent rt fd event s = (Val true, s') /\ wf s' /\
           posts [(i, fired_task (the_context event c))] s s' /\
           m_fdContexts s' = <[Z.to_nat fd := disarm event c]> (m_fdContexts s)
       else cancelEvent rt fd event s = (Val false, s)) /\
      (if has (events c) event && bool_decide (rt = 0) then
         exists s', delEvent rt fd event s = (Val true, s') /\ wf s' /\ posts [] s s' /\
           m_fdContexts s' = <[Z.to_nat fd := disarm event c]> (m_fdContexts s)
       else delEvent rt fd event s = (Val false, s)) /\
      (if bool_decide (events c <> 0) && bool_decide (rt = 0) then
         exists s', cancelAll rt fd s = (Val true, s') /\ wf s' /\
           posts (task_of c <$> events_of (events c)) s s' /\
           m_fdContexts s' =
             <[Z.to_nat fd := disarm_all (events_of (events c)) c]> (m_fdContexts s)
       else cancelAll rt fd s = (Val false, s))
  | None =>
      cancelEvent rt fd event s = (Val false, s) /\ delEvent rt fd event s = (Val false, s) /\
      cancelAll rt fd s = (Val false, s)
  end.
Proof.
  intros Hwf Hfd He. destruct (ctx_lookup s fd) as [c|] eqn:Hl.
  - split; [by apply cancelEvent_ok|]. split; [by apply delEvent_ok|]. by apply cancelAll_ok.
  - by apply not_in_table.
Qed.

(** Descriptor 3 with a read callback. *)
Definition io3 : IOManager nat unit := snd (addEvent (Some 100) 0 0 3 READ cb7 io0).
Definition ctx3 : FdContext nat unit :=
  mkFdContext (mkEventContext (Some 100) None cb7) empty_context 3 READ.

Lemma io3_wf : wf io3.
Proof.
  pose proof (addEvent_ok io0 100 0 0 3 READ cb7 io0_wf ltac:(lia)
    (or_introl eq_refl) ltac:(discriminate)) as H.
  change (has (events (ctx_or_new 3 io0)) READ) with false in H. cbv iota in H.
  rewrite decide_True in H by reflexivity. destruct H as (s' & E & Hwf & _).
  unfold io3. rewrite E. exact Hwf.
Qed.

Lemma remove_events_witness :
  exists s', cancelEvent 0 3 READ io3 = (Val true, s') /\ wf s' /\
    queue_of s' 100 = [mkFT None cb7 (-1)].
Proof.
  pose proof (remove_events nat unit io3 0 3 READ io3_wf ltac:(lia) (or_introl eq_refl)) as H.
  change (ctx_lookup io3 3) with (Some ctx3) in H. cbv iota in H.
  destruct H as [(i & s' & Hi & E & Hwf & [_ _ _ Hq] & _) _].
  exists s'. split; [exact E|]. split; [exact Hwf|]. rewrite Hq. injection Hi as <-. reflexivity.
Defined.

(** C5: the treatment of one event reported by epoll. When every event it stands
    for is registered, exactly the tasks of these are posted, read before write,
    and the invariant is kept. But an error or hang-up stands for both reading and
    writing: when only one of the two is registered, [triggerEvent] fails its
    assertion and the process aborts. *)
Theorem reported_event (F W : Type) (s : IOManager F W) rt fd ev c :
  wf s -> ctx_lookup s fd = Some c ->
  let real := real_events ev in
  if decide (Z.land (events c) real = NONE \/ rt <> 0)
  then handle_ready rt (ReadyCtx fd ev) s = (Val tt, s)
  else if forallb (has (events c)) (events_of real) then
    exists s', handle_ready rt (ReadyCtx fd ev) s = (Val tt, s') /\ wf s' /\
      posts (task_of c <$> events_of real) s s' /\
      m_fdContexts s' = <[Z.to_nat fd := disarm_all (events_of real) c]> (m_fdContexts s)
  else exists s', handle_ready rt (ReadyCtx fd ev) s = (Bad AssertFailed, s').
Proof. apply handle_ready_ok. Qed.

(** A hang-up on descriptor 3, which waits for reading only. *)
Lemma reported_event_witness :
  exists s', handle_ready 0 (ReadyCtx 3 (Z.lor EPOLLIN EPOLLHUP)) io3 = (Bad AssertFailed, s').
Proof.
  pose proof (reported_event nat unit io3 0 3 (Z.lor EPOLLIN EPOLLHUP) ctx3 io3_wf eq_refl) as H.
  cbv zeta in H. rewrite decide_False in H by (intros [E|E]; [vm_compute in E; discriminate E|by apply E]).
  change (forallb (has (events ctx3)) (events_of (real_events (Z.lor EPOLLIN EPOLLHUP))))
    with false in H. exact H.
Defined.

(** The timeout given to [epoll_wait]. For no timer, or a distance below
    2^31 ms, it is between 0 and 3000, so the loop wakes at least every three
    seconds; for a distance whose 32-bit truncation is negative it is negative, and
    [epoll_wait] blocks without a limit. *)
Theorem wait_timeout_bounds n :
  in_u 64 n ->
  (n = 2 ^ 64 - 1 \/ n < 2 ^ 31 -> 0 <= wait_timeout n <= MAX_TIMEOUT) /\
  (n <> 2 ^ 64 - 1 -> 2 ^ 31 <= n mod 2 ^ 32 -> wait_timeout n < 0).
Proof.
  intros Hn. unfold wait_timeout, MAX_TIMEOUT, in_u in *. split.
  - intros [->|Hlt]; [by vm_compute|]. rewrite decide_True by lia.
    rewrite (swrap_small 32 n) by (unfold in_s; simpl; lia).
    case_decide; rewrite swrap_small by (unfold in_s; simpl; lia); lia.
  - intros Hne Hneg. rewrite decide_True by done.
    assert (Hs : s32 n < 0).
    { unfold swrap. pose proof (Z.mod_pos_bound n (2 ^ 32) ltac:(lia)).
      replace ((n + 2 ^ (32 - 1)) mod 2 ^ 32) with (n mod 2 ^ 32 - 2 ^ 31); [lia|].
      apply Z.mod_unique with (n / 2 ^ 32 + 1); [simpl in *; lia|].
      pose proof (Z.div_mod n (2 ^ 32) ltac:(lia)). simpl (2 ^ (32 - 1)). lia. }
    by rewrite decide_False by lia.
Qed.

Lemma wait_timeout_bounds_witness : wait_timeout (2 ^ 31) < 0 /\ 0 <= wait_timeout 12345.
Proof.
  destruct (wait_timeout_bounds (2 ^ 31)) as [_ H]; [split; [lia|reflexivity]|].
  destruct (wait_timeout_bounds 12345) as [H' _]; [split; [lia|reflexivity]|].
  split; [apply H; [discriminate|vm_compute; intros X; discriminate X]|].
  apply H'. right. reflexivity.
Defined.
