(* ===== verification/FdManager.v ===== *)
(** * Descriptor contexts (src/myhttp/fd_manager.h, src/myhttp/fd_manager.cpp)

    What the hooked calls remember of a descriptor. The system calls [fstat] and
    [fcntl] appear through their documented effect: whether the descriptor can be
    examined and is a socket is an argument ([fd_stat]), and the kernel's status
    flags are a map changed by [F_SETFL] in its settable bits. A context is only
    reached through the manager's table and is never replaced, so the table's
    entry stands for the shared object. *)
From stdpp Require Import base tactics option list gmap numbers.
From S2P Require Import Prelude.

Definition O_NONBLOCK : Z := 2048.
Definition SO_RCVTIMEO : Z := 20.
Definition SO_SNDTIMEO : Z := 21.

(** The status flags [F_SETFL] can change; [O_NONBLOCK] is one of them. *)
Class Kernel := {
  settable : Z;
  settable_nonblock : Z.land O_NONBLOCK settable = O_NONBLOCK
}.

Section FdManager.
Context `{kernel : Kernel}.

Record FdCtx := mkFdCtx {
  m_isInit : bool;
  m_isSocket : bool;
  m_sysNonblock : bool;
  m_userNonblock : bool;
  m_isClosed : bool;
  m_fd : Z;
  m_recvTimeout : Z;
  m_sendTimeout : Z
}.

(** The table and the kernel's flags of the descriptors. *)
Record Fds := mkFds { m_datas : list (option FdCtx); flags : gmap Z Z }.

Definition flags_of (fd : Z) (s : Fds) : Z := default 0 (flags s !! fd).
(** [fcntl_f(fd, F_SETFL, arg)] *)
Definition set_flags (fd arg : Z) : ST Fds unit := modify (fun s =>
  mkFds (m_datas s)
    (<[fd := Z.lor (Z.land (flags_of fd s) (Z.lnot settable)) (Z.land arg settable)]> (flags s))).

(** [FdCtx::init] of a new context; [fd_stat]: [None] when [fstat] fails, else
  whether the descriptor is a socket. *)
Definition init (fd_stat : option bool) (c : FdCtx) : ST Fds (bool * FdCtx) :=
  if m_isInit c then mret (true, c) else
  let '(isInit, isSocket) :=
    match fd_stat with None => (false, false) | Some b => (true, b) end in
  (if isSocket : bool then
     fl ← gets (flags_of (m_fd c));
     if decide (Z.land fl O_NONBLOCK = 0) then set_flags (m_fd c) (Z.lor fl O_NONBLOCK)
     else mret tt
   else mret tt);;
  mret (isInit, mkFdCtx isInit isSocket isSocket false false (m_fd c) (2 ^ 64 - 1) (2 ^ 64 - 1)).

Definition FdCtx_new (fd_stat : option bool) (fd : Z) : ST Fds FdCtx :=
  r ← init fd_stat (mkFdCtx false false false false false fd (2 ^ 64 - 1) (2 ^ 64 - 1));
  mret r.2.

(** As written: the context is not marked closed. *)
Definition close (c : FdCtx) : bool * FdCtx := (true, c).

Definition setUserNonblock (v : bool) (c : FdCtx) : FdCtx :=
  mkFdCtx (m_isInit c) (m_isSocket c) (m_sysNonblock c) v (m_isClosed c) (m_fd c)
    (m_recvTimeout c) (m_sendTimeout c).
Definition setTimeout (type v : Z) (c : FdCtx) : FdCtx :=
  if decide (type = SO_RCVTIMEO) then
    mkFdCtx (m_isInit c) (m_isSocket c) (m_sysNonblock c) (m_userNonblock c) (m_isClosed c)
      (m_fd c) v (m_sendTimeout c)
  else
    mkFdCtx (m_isInit c) (m_isSocket c) (m_sysNonblock c) (m_userNonblock c) (m_isClosed c)
      (m_fd c) (m_recvTimeout c) v.
Definition getTimeout (type : Z) (c : FdCtx) : Z :=
  if decide (type = SO_RCVTIMEO) then m_recvTimeout c else m_sendTimeout c.

Definition FdManager_new : Fds := mkFds (replicate 64 None) ∅.

(** [m_datas[fd]] *)
Definition entry (fd : Z) (s : Fds) : res (option FdCtx) :=
  if decide (0 <= fd) then deref OutOfBounds (m_datas s !! Z.to_nat fd) else Bad OutOfBounds.
Definition set_entry (fd : Z) (c : FdCtx) : ST Fds unit := fun s =>
  match entry fd s with
  | Val _ => (Val tt, mkFds (<[Z.to_nat fd := Some c]> (m_datas s)) (flags s))
  | Exc e => (Exc e, s)
  | Bad f => (Bad f, s)
  end.

Definition get (fd_stat : option bool) (fd : Z) (auto_create : bool) : ST Fds (option FdCtx) :=
  if decide (fd = -1) then mret None else
  n ← gets (fun s => Z.of_nat (length (m_datas s)));
  let create :=
    ctx ← FdCtx_new fd_stat fd;
    set_entry fd ctx;;
    mret (Some ctx) in
  if decide (n <= fd) then
    if negb auto_create then mret None else create
  else
    e ← (fun s => (entry fd s, s));
    match e with
    | Some c => mret (Some c)
    | None => if negb auto_create then mret None else create
    end.

(** As written: the entry stays. *)
Definition del (fd : Z) : ST Fds unit := mret tt.
End FdManager.

(** ** Lemmas *)

Section Proofs.
Context `{kernel : Kernel}.

Definition nonblock (fl : Z) : bool := bool_decide (Z.land fl O_NONBLOCK <> 0).

Lemma nonblock_testbit fl : nonblock fl = Z.testbit fl 11.
Proof.
  unfold nonblock, O_NONBLOCK. change 2048 with (2 ^ 11).
  destruct (Z.testbit fl 11) eqn:E.
  - apply bool_decide_true. intros H. apply (f_equal (fun z => Z.testbit z 11)) in H.
    by rewrite Z.land_spec, E, Z.pow2_bits_true, Z.bits_0 in H by lia.
  - apply bool_decide_false. intros H. apply H. apply Z.bits_inj'. intros i Hi.
    rewrite Z.land_spec, Z.pow2_bits_eqb, Z.bits_0 by lia.
    destruct (Z.eqb_spec 11 i) as [<-|]; [by rewrite E|by rewrite andb_false_r].
Qed.

Lemma settable_bit : Z.testbit settable 11 = true.
Proof.
  pose proof (f_equal (fun z => Z.testbit z 11) settable_nonblock) as H. cbv beta in H.
  rewrite Z.land_spec in H. unfold O_NONBLOCK in H. change 2048 with (2 ^ 11) in H.
  by rewrite Z.pow2_bits_true in H by lia.
Qed.

(** [F_SETFL] sets exactly the O_NONBLOCK of its argument. *)
Lemma nonblock_set_flags old arg :
  nonblock (Z.lor (Z.land old (Z.lnot settable)) (Z.land arg settable)) = nonblock arg.
Proof.
  rewrite !nonblock_testbit, Z.lor_spec, !Z.land_spec, Z.lnot_spec by lia.
  by rewrite settable_bit, andb_false_r, andb_true_r.
Qed.

Lemma nonblock_lor fl : nonblock (Z.lor fl O_NONBLOCK) = true.
Proof. rewrite nonblock_testbit, Z.lor_spec. apply orb_true_r. Qed.
Lemma nonblock_clear fl : nonblock (Z.land fl (Z.lnot O_NONBLOCK)) = false.
Proof. rewrite nonblock_testbit, Z.land_spec. apply andb_false_r. Qed.

(** Every context belongs to its slot, and an initialised socket is non-blocking
  in the kernel. *)
Record wf (s : Fds) : Prop := {
  wf_slot : forall i c, m_datas s !! i = Some (Some c) -> m_fd c = Z.of_nat i;
  wf_sys : forall i c, m_datas s !! i = Some (Some c) -> m_sysNonblock c = m_isSocket c;
  wf_kernel : forall i c, m_datas s !! i = Some (Some c) -> m_isSocket c = true ->
    nonblock (flags_of (Z.of_nat i) s) = true
}.

Lemma wf_FdManager_new : wf FdManager_new.
Proof. split; unfold FdManager_new; intros i c [? _]%(lookup_replicate_1 64); done. Qed.

Lemma FdCtx_new_ok fd_stat fd s :
  exists c s', FdCtx_new fd_stat fd s = (Val c, s') /\ m_datas s' = m_datas s /\
    m_fd c = fd /\ m_isSocket c = bool_decide (fd_stat = Some true) /\
    m_sysNonblock c = m_isSocket c /\ m_userNonblock c = false /\ m_isClosed c = false /\
    (forall fd', nonblock (flags_of fd' s) = true -> nonblock (flags_of fd' s') = true) /\
    (m_isSocket c = true -> nonblock (flags_of fd s') = true).
Proof.
  unfold FdCtx_new, init, mbind, st_bind, gets, mret, st_ret. simpl.
  destruct fd_stat as [[]|]; simpl.
  - case_decide as Hz.
    + eexists _, _. split; [reflexivity|]. split_and!; try done.
      * intros fd' H. unfold flags_of. simpl. destruct (decide (fd' = fd)) as [->|Hne].
        -- rewrite lookup_insert_eq. simpl. by rewrite nonblock_set_flags, nonblock_lor.
        -- by rewrite lookup_insert_ne.
      * intros _. unfold flags_of. simpl. rewrite lookup_insert_eq. simpl.
        by rewrite nonblock_set_flags, nonblock_lor.
    + eexists _, _. split; [reflexivity|]. split_and!; try done. intros _.
      unfold nonblock. by apply bool_decide_true.
  - eexists _, _. split; [reflexivity|]. by split_and!.
  - eexists _, _. split; [reflexivity|]. by split_and!.
Qed.
End Proofs.

(** ** Properties *)

(** A descriptor outside the vector. *)
Lemma get_out_of_table `{kernel : Kernel} (s : Fds) fd fd_stat :
  0 <= fd -> Z.of_nat (length (m_datas s)) <= fd ->
  exists s', get fd_stat fd true s = (Bad OutOfBounds, s').
Proof.
  intros Hfd Hge. destruct (FdCtx_new_ok fd_stat fd s) as (c & s1 & E1 & Hd & _).
  exists s1. unfold get. rewrite decide_False by lia. unfold mbind, st_bind, gets.
  rewrite decide_True by lia. simpl. rewrite E1. unfold set_entry, entry.
  by rewrite decide_True, Hd, lookup_ge_None_2 by lia.
Qed.

(** the descriptor table. Within the 64 slots, [get] with [auto_create]
    returns the context of the descriptor, creating it the first time only (a
    socket is switched to non-blocking then), and later calls of either kind
    return the same one; it keeps the invariant. The table never grows: creating a
    context for a descriptor of 64 or more writes outside the vector. *)
Theorem fd_table (kernel : Kernel) (s : Fds) fd fd_stat :
  wf s -> 0 <= fd ->
  (fd < Z.of_nat (length (m_datas s)) ->
   exists c s', get fd_stat fd true s = (Val (Some c), s') /\ wf s' /\ m_fd c = fd /\
     length (m_datas s') = length (m_datas s) /\
     (forall c0, m_datas s !! Z.to_nat fd = Some (Some c0) -> c = c0 /\ s' = s) /\
     (m_datas s !! Z.to_nat fd = Some None -> m_isSocket c = bool_decide (fd_stat = Some true)) /\
     (forall fd_stat' auto, get fd_stat' fd auto s' = (Val (Some c), s'))) /\
  (Z.of_nat (length (m_datas s)) <= fd ->
   (exists s', get fd_stat fd true s = (Bad OutOfBounds, s')) /\
   get fd_stat fd false s = (Val None, s)).
Proof.
  intros Hwf Hfd. split.
  - intros Hlt. destruct (lookup_lt_is_Some_2 (m_datas s) (Z.to_nat fd)) as [e He]; [lia|].
    assert (Hentry : forall s0 e0, m_datas s0 !! Z.to_nat fd = Some e0 -> entry fd s0 = Val e0).
    { intros s0 e0 E0. unfold entry. by rewrite decide_True, E0. }
    assert (Hhit : forall s0 c0 st auto, m_datas s0 !! Z.to_nat fd = Some (Some c0) ->
      get st fd auto s0 = (Val (Some c0), s0)).
    { intros s0 c0 st auto E0. unfold get. rewrite decide_False by lia.
      unfold mbind, st_bind, gets. rewrite decide_False by (apply lookup_lt_Some in E0; lia).
      by rewrite (Hentry s0 _ E0). }
    destruct e as [c|].
    { exists c, s. rewrite (Hhit s c) by done. split_and!; try done.
      - pose proof (wf_slot s Hwf _ _ He). lia.
      - intros c0 E0. by simplify_eq.
      - intros E0. by simplify_eq.
      - intros. by apply Hhit. }
    destruct (FdCtx_new_ok fd_stat fd s) as (c & s1 & E1 & Hd & Hf & Hs & Hsys & _ & _ & Hk & Hk').
    set (s2 := mkFds (<[Z.to_nat fd := Some c]> (m_datas s1)) (flags s1)).
    assert (Hat : m_datas s2 !! Z.to_nat fd = Some (Some c)).
    { simpl. rewrite Hd. apply list_lookup_insert_eq. lia. }
    exists c, s2. split.
    { unfold get. rewrite decide_False by lia. unfold mbind, st_bind, gets.
      rewrite decide_False by lia. rewrite (Hentry s _ He). simpl. rewrite E1.
      unfold set_entry. rewrite (Hentry s1 None) by (by rewrite Hd). done. }
    split.
    { split; intros i c0; simpl; rewrite Hd; rewrite list_lookup_insert_Some;
        (intros [(<- & [= <-] & _)|[_ E0]]).
      - lia.
      - by eapply wf_slot.
      - done.
      - by eapply wf_sys.
      - intros Hsock. rewrite Z2Nat.id by lia. by apply Hk'.
      - intros Hsock. apply Hk. by eapply wf_kernel. }
    split; [done|]. split; [simpl; by rewrite length_insert, Hd|]. split_and!.
    + intros c0 E0. by simplify_eq.
    + done.
    + intros. by apply Hhit.
  - intros Hge. split.
    + by apply get_out_of_table.
    + unfold get. rewrite decide_False by lia. unfold mbind, st_bind, gets.
      by rewrite decide_True by lia.
Qed.

Definition linux : Kernel := {| settable := 2048 + 1024; settable_nonblock := eq_refl |}.

Lemma fd_table_witness :
  (exists c s', @get linux (Some true) 5 true FdManager_new = (Val (Some c), s') /\
     m_isSocket c = true) /\
  exists s', @get linux (Some true) 64 true FdManager_new = (Bad OutOfBounds, s').
Proof.
  destruct (fd_table linux FdManager_new 5 (Some true) wf_FdManager_new) as [H _]; [lia|].
  destruct (fd_table linux FdManager_new 64 (Some true) wf_FdManager_new) as [_ H']; [lia|].
  split.
  - destruct H as (c & s' & E & _ & _ & _ & _ & Hs & _); [reflexivity|].
    exists c, s'. split; [exact E|]. apply Hs. reflexivity.
  - apply H'. vm_compute. intros X; discriminate X.
Defined.
