(* ===== verification/Hook.v ===== *)
(** * Hooked system calls (src/myhttp/hook.h, src/myhttp/hook.cpp)

    The replacements of libc calls that give the fibers blocking semantics. The
    original functions are outside the program: their results, with [errno], are
    arguments, in the order of the calls. The blocking calls are modelled by the
    sequence of actions they take on the I/O manager ([act]), the state-changing
    ones ([fcntl], [ioctl], [setsockopt]) on the descriptor table. *)
From stdpp Require Import base tactics option list gmap numbers.
From S2P Require Import Prelude FdManager.

Definition EINTR : Z := 4.
Definition EBADF : Z := 9.
Definition EAGAIN : Z := 11.
Definition ETIMEDOUT : Z := 110.
Definition EINPROGRESS : Z := 115.
Definition SOL_SOCKET : Z := 1.
Definition NO_TIMEOUT : Z := 2 ^ 64 - 1.

(** What a call does to the outside. *)
Inductive act :=
  | ACall                 (* the original function *)
  | AAddTimer (ms : Z)    (* addConditiaonTimer, addTimer *)
  | AAddEvent             (* addEvent for the current fiber *)
  | AYield                (* YieldToHold *)
  | ACancelTimer
  | ACancelAll            (* cancelAll of the descriptor's events *)
  | ADelCtx.              (* FdMgr del *)
#[export] Instance act_eq_dec : EqDecision act.
Proof. solve_decision. Defined.

(** One wait: the result of [addEvent], the [errno] it leaves, and the value of
    [tinfo->cancelled] when the fiber runs again. *)
Record wait := mkWait { add_rt : Z; add_errno : Z; cancelled : Z }.

(** From the label [retry]: the results [(n, errno)] of the calls in order. The
    result is the value returned, [errno], and the actions; [None] when the
    arguments are exhausted. *)
Fixpoint io_retry (to : Z) (calls : list (Z * Z)) (waits : list wait) :
    option (Z * Z * list act) :=
  match calls with
  | [] => None
  | (n, errno) :: calls' =>
      if decide (n = -1 /\ errno = EINTR) then
        '(r, e, acts) ← io_retry to calls' waits; Some (r, e, ACall :: acts)
      else if decide (n = -1 /\ errno = EAGAIN) then
        match waits with
        | [] => None
        | w :: waits' =>
            let timer := bool_decide (to <> NO_TIMEOUT) in
            let add := ACall :: (if timer then [AAddTimer to] else []) ++ [AAddEvent] in
            let cancel := if timer then [ACancelTimer] else [] in
            if decide (add_rt w <> 0) then Some (-1, add_errno w, add ++ cancel)
            else if decide (cancelled w <> 0)
            then Some (-1, cancelled w, add ++ [AYield] ++ cancel)
            else '(r, e, acts) ← io_retry to calls' waits';
                 Some (r, e, add ++ [AYield] ++ cancel ++ acts)
        end
      else Some (n, errno, [ACall])
  end.

(** The original function, called once. *)
Definition pass (calls : list (Z * Z)) : option (Z * Z * list act) :=
  match calls with [] => None | (n, e) :: _ => Some (n, e, [ACall]) end.

Definition do_io (hook_enable : bool) (ctx : option FdCtx) (timeout_so : Z)
    (calls : list (Z * Z)) (waits : list wait) : option (Z * Z * list act) :=
  if negb hook_enable then pass calls else
  match ctx with
  | None => pass calls
  | Some c =>
      if m_isClosed c then Some (-1, EBADF, [])
      else if negb (m_isSocket c) || m_userNonblock c then pass calls
      else io_retry (getTimeout timeout_so c) calls waits
  end.

(** The calls that are nothing but [do_io], with the timeout each waits for. *)
Inductive io_call :=
  | Read | ReadV | Recv | RecvFrom | RecvMsg
  | Write | WriteV | Send | SendTo | SendMsg.
Definition timeout_of (c : io_call) : Z :=
  match c with
  | Read | ReadV | Recv | RecvFrom | RecvMsg => SO_RCVTIMEO
  | Write | WriteV | Send | SendTo | SendMsg => SO_SNDTIMEO
  end.
Definition io (hook_enable : bool) (ctx : option FdCtx) (c : io_call) :=
  do_io hook_enable ctx (timeout_of c).

(** [connect_with_timeout]. [so_error]: the result of the final [getsockopt] (and
    its [errno] on failure) and the pending error it reads. *)
Definition connect_with_timeout (hook_enable : bool) (ctx : option FdCtx) (timeout_ms : Z)
    (call : Z * Z) (w : wait) (sockopt_rt sockopt_errno so_error : Z) : Z * Z * list act :=
  let '(n, errno) := call in
  if negb hook_enable then (n, errno, [ACall]) else
  match ctx with
  | None => (-1, EBADF, [])
  | Some c =>
      if m_isClosed c then (-1, EBADF, []) else
      if negb (m_isSocket c) || m_userNonblock c then (n, errno, [ACall]) else
      if decide (n = 0) then (0, errno, [ACall])
      else if decide (n <> -1 \/ errno <> EINPROGRESS) then (n, errno, [ACall]) else
      let timer := bool_decide (timeout_ms <> NO_TIMEOUT) in
      let add := ACall :: (if timer then [AAddTimer timeout_ms] else []) ++ [AAddEvent] in
      let cancel := if timer then [ACancelTimer] else [] in
      let finish acts :=
        if decide (sockopt_rt = -1) then (-1, sockopt_errno, acts)
        else if decide (so_error = 0) then (0, sockopt_errno, acts)
        else (-1, so_error, acts) in
      if decide (add_rt w = 0) then
        if decide (cancelled w <> 0) then (-1, cancelled w, add ++ [AYield] ++ cancel)
        else finish (add ++ [AYield] ++ cancel)
      else finish (add ++ cancel)
  end.

(** [connect]: the default timeout is a configuration variable. *)
Definition connect (s_connect_timeout : Z) (hook_enable : bool) (ctx : option FdCtx) :=
  connect_with_timeout hook_enable ctx s_connect_timeout.

(** The milliseconds a sleep asks the timer for. *)
Definition sleep_ms (seconds : Z) : Z := u32 (seconds * 1000).
Definition usleep_ms (usec : Z) : Z := usec / 1000.
(** [int timeout_ms], converted to the [uint64_t] parameter of [addTimer]. *)
Definition nanosleep_ms (tv_sec tv_nsec : Z) : Z :=
  u64 (s32 (s64 (tv_sec * 1000 + Z.quot (Z.quot tv_nsec 1000) 1000))).

(** [sleep], [usleep], [nanosleep]: [orig] is the result of the original. *)
Definition sleep (hook_enable : bool) (seconds orig : Z) : Z * list act :=
  if hook_enable then (0, [AAddTimer (sleep_ms seconds); AYield]) else (orig, [ACall]).
Definition usleep (hook_enable : bool) (usec orig : Z) : Z * list act :=
  if hook_enable then (0, [AAddTimer (usleep_ms usec); AYield]) else (orig, [ACall]).
Definition nanosleep (hook_enable : bool) (tv_sec tv_nsec orig : Z) : Z * list act :=
  if hook_enable then (0, [AAddTimer (nanosleep_ms tv_sec tv_nsec); AYield])
  else (orig, [ACall]).

(** [close]: [has_ctx] and [has_iom] say whether the descriptor is in the table and
    whether the thread runs in an I/O manager. *)
Definition close (hook_enable has_ctx has_iom : bool) (orig : Z) : Z * list act :=
  (orig,
   (if hook_enable && has_ctx then (if has_iom then [ACancelAll] else []) ++ [ADelCtx] else [])
   ++ [ACall]).

Section Table.
Context `{kernel : Kernel}.

(** The context a call works on, when the hook applies to it. *)
Definition hooked (fd : Z) : ST Fds (option FdCtx) :=
  ctx ← get None fd false;
  mret (match ctx with
        | Some c => if m_isClosed c || negb (m_isSocket c) then None else Some c
        | None => None
        end).

(** [fcntl(fd, F_SETFL, arg)], when the original call succeeds ([ok]). *)
Definition fcntl_setfl (ok : bool) (fd arg : Z) : ST Fds Z :=
  let fcntl_f a := (if ok then set_flags fd a;; mret 0 else mret (-1)) in
  ctx ← hooked fd;
  match ctx with
  | None => fcntl_f arg
  | Some c =>
      set_entry fd (setUserNonblock (bool_decide (Z.land arg O_NONBLOCK <> 0)) c);;
      fcntl_f (if m_sysNonblock c then Z.lor arg O_NONBLOCK
               else Z.land arg (Z.lnot O_NONBLOCK))
  end.

(** [fcntl(fd, F_GETFL)] *)
Definition fcntl_getfl (ok : bool) (fd : Z) : ST Fds Z :=
  arg ← gets (fun s => if ok then flags_of fd s else -1);
  ctx ← hooked fd;
  match ctx with
  | None => mret arg
  | Some c =>
      mret (if m_userNonblock c then Z.lor arg O_NONBLOCK
            else Z.land arg (Z.lnot O_NONBLOCK))
  end.

(** [ioctl(fd, FIONBIO, &v)]: the original call sets the kernel's flag to [v]. *)
Definition ioctl_fionbio (ok : bool) (fd v : Z) : ST Fds Z :=
  let ioctl_f :=
    (if ok then
       fl ← gets (flags_of fd);
       set_flags fd (if decide (v <> 0) then Z.lor fl O_NONBLOCK
                     else Z.land fl (Z.lnot O_NONBLOCK));;
       mret 0
     else mret (-1)) in
  ctx ← hooked fd;
  match ctx with
  | None => ioctl_f
  | Some c => set_entry fd (setUserNonblock (bool_decide (v <> 0)) c);; ioctl_f
  end.

(** The part of [setsockopt] before the original call, for the level
  SOL_SOCKET; [timeval] is the option value. *)
Definition setsockopt_timeout (hook_enable : bool) (fd optname tv_sec tv_usec : Z) : ST Fds unit :=
  if negb hook_enable then mret tt else
  if decide (optname = SO_RCVTIMEO \/ optname = SO_SNDTIMEO) then
    ctx ← get None fd false;
    match ctx with
    | Some c => set_entry fd (setTimeout optname (u64 (tv_sec * 1000 + Z.quot tv_usec 1000)) c)
    | None => mret tt
    end
  else mret tt.

(** [fcntl(fd, cmd, ...)] by its command: every command but two is handed on, and
    [fcntl_f] is what the kernel makes of it (the argument of a command that the switch
    does not know is not handed on). Unlike the others, [fcntl] and [ioctl] do not look
    at [t_hook_enable]. *)
Inductive fcntl_cmd := F_SETFL (arg : Z) | F_GETFL | F_OTHER (fcntl_f : ST Fds Z).
Definition fcntl (ok : bool) (fd : Z) (cmd : fcntl_cmd) : ST Fds Z :=
  match cmd with
  | F_SETFL arg => fcntl_setfl ok fd arg
  | F_GETFL => fcntl_getfl ok fd
  | F_OTHER fcntl_f => fcntl_f
  end.

(** [ioctl(fd, request, arg)] *)
Inductive ioctl_request := FIONBIO (v : Z) | IOCTL_OTHER (ioctl_f : ST Fds Z).
Definition ioctl (ok : bool) (fd : Z) (request : ioctl_request) : ST Fds Z :=
  match request with
  | FIONBIO v => ioctl_fionbio ok fd v
  | IOCTL_OTHER ioctl_f => ioctl_f
  end.

Definition getsockopt (getsockopt_f : ST Fds Z) : ST Fds Z := getsockopt_f.

(** [setsockopt]: [timeval] is the option value read as a [struct timeval]. *)
Definition setsockopt (hook_enable : bool) (fd level optname : Z) (timeval : Z * Z)
    (setsockopt_f : ST Fds Z) : ST Fds Z :=
  (if decide (level = SOL_SOCKET)
   then setsockopt_timeout hook_enable fd optname timeval.1 timeval.2 else mret tt);;
  setsockopt_f.

(** [socket] and [accept] register the new descriptor. *)
Definition socket (hook_enable : bool) (fd : Z) (fd_stat : option bool) : ST Fds Z :=
  if negb hook_enable then mret fd else
  if decide (fd = -1) then mret fd else get fd_stat fd true;; mret fd.
Definition accept (fd : Z) (fd_stat : option bool) : ST Fds Z :=
  if decide (fd >= 0) then get fd_stat fd true;; mret fd else mret fd.
End Table.

(** ** Lemmas *)

Definition count (a : act -> bool) (l : list act) : nat := length (List.filter a l).
Definition is_add (a : act) : bool := match a with AAddTimer _ => true | _ => false end.
Definition is_cancel (a : act) : bool := match a with ACancelTimer => true | _ => false end.

Lemma count_app a l1 l2 : count a (l1 ++ l2) = (count a l1 + count a l2)%nat.
Proof. unfold count. by rewrite List.filter_app, length_app. Qed.
Lemma count_cons a x l : count a (x :: l) = ((if a x then 1 else 0) + count a l)%nat.
Proof. unfold count. simpl. by destruct (a x). Qed.

(** A result of the original function that is handed to the caller. *)
Definition conclusive (r : Z * Z) : Prop := ~ (r.1 = -1 /\ (r.2 = EINTR \/ r.2 = EAGAIN)).
Definition would_block (r : Z * Z) : bool := bool_decide (r = (-1, EAGAIN)).

(** The timer around a wait, when there is a timeout. *)
Definition arm (to : Z) : list act := if bool_decide (to = NO_TIMEOUT) then [] else [AAddTimer to].
Definition disarm (to : Z) : list act := if bool_decide (to = NO_TIMEOUT) then [] else [ACancelTimer].
(** The actions of a wait, in order: the timer, the registration, the yield. *)
Definition waiting (to : Z) : list act := arm to ++ [AAddEvent; AYield] ++ disarm to.
(** One attempt that is followed by another. *)
Definition retried (to : Z) (r : Z * Z) : list act :=
  ACall :: (if would_block r then waiting to else []).

(** How the last attempt, with the result [r], ends the call: with that result, or after a
    refused registration, or cancelled. [ws] are the waits left at that point. *)
Inductive ending (to : Z) (r : Z * Z) (ws : list wait) : Z -> Z -> list act -> Prop :=
  | by_call : conclusive r -> ending to r ws r.1 r.2 [ACall]
  | by_refusal w ws' : r = (-1, EAGAIN) -> ws = w :: ws' -> add_rt w <> 0 ->
      ending to r ws (-1) (add_errno w) (ACall :: arm to ++ [AAddEvent] ++ disarm to)
  | by_cancel w ws' : r = (-1, EAGAIN) -> ws = w :: ws' -> add_rt w = 0 -> cancelled w <> 0 ->
      ending to r ws (-1) (cancelled w) (ACall :: waiting to).

(** The call as a whole: inconclusive attempts ([pre]), the waits among them ([used]) granted
    and not cancelled, then the last attempt. *)
Definition outcome (to : Z) (calls : list (Z * Z)) (waits : list wait) (n errno : Z)
    (acts : list act) : Prop :=
  exists pre r post used ws last,
    calls = pre ++ r :: post /\ waits = used ++ ws /\
    Forall (fun c => ~ conclusive c) pre /\
    length used = length (List.filter would_block pre) /\
    Forall (fun w => add_rt w = 0 /\ cancelled w = 0) used /\
    ending to r ws n errno last /\ acts = concat (map (retried to) pre) ++ last.

Lemma timeout_if to (a b : list act) :
  (if bool_decide (to <> NO_TIMEOUT) then a else b) = if bool_decide (to = NO_TIMEOUT) then b else a.
Proof. repeat case_bool_decide; congruence. Qed.

Lemma io_retry_ok to calls waits n e acts :
  io_retry to calls waits = Some (n, e, acts) -> outcome to calls waits n e acts.
Proof.
  revert waits n e acts. induction calls as [|[m errno] calls IH]; intros waits n e acts; [done|].
  simpl. rewrite !timeout_if. fold (arm to) (disarm to). case_decide as H1; [|case_decide as H2].
  - intros ([[r0 e0] acts0] & E & [= -> -> <-])%bind_Some.
    apply IH in E as (pre & r & post & used & ws & last & -> & -> & Hp & Hl & Hu & He & ->).
    destruct H1 as [-> ->]. exists ((-1, EINTR) :: pre), r, post, used, ws, last.
    split_and!; try done. constructor; [|done]. unfold conclusive. simpl. tauto.
  - destruct H2 as [-> ->]. destruct waits as [|w waits]; [done|]. case_decide as Hr; [|case_decide as Hk].
    + intros [= <- <- <-]. exists [], (-1, EAGAIN), calls, [], (w :: waits),
        (ACall :: arm to ++ [AAddEvent] ++ disarm to).
      split_and!; try done; [by eapply by_refusal|by rewrite <- app_assoc].
    + intros [= <- <- <-]. exists [], (-1, EAGAIN), calls, [], (w :: waits), (ACall :: waiting to).
      split_and!; try done; [eapply by_cancel; done || lia|].
      unfold waiting. simpl. by rewrite <- app_assoc.
    + intros ([[r0 e0] acts0] & E & [= -> -> <-])%bind_Some.
      apply IH in E as (pre & r & post & used & ws & last & -> & -> & Hp & Hl & Hu & He & ->).
      exists ((-1, EAGAIN) :: pre), r, post, (w :: used), ws, last. split_and!; try done.
      * constructor; [|done]. unfold conclusive. simpl. tauto.
      * simpl. by rewrite Hl.
      * constructor; [lia|done].
      * unfold retried at 2, waiting. simpl. by rewrite <- !app_assoc.
  - intros [= <- <- <-]. exists [], (m, errno), calls, [], waits, [ACall].
    split_and!; try done. apply (by_call to (m, errno)). unfold conclusive. simpl. naive_solver.
Qed.

Lemma outcome_timers to calls waits n e acts :
  outcome to calls waits n e acts -> count is_add acts = count is_cancel acts /\
  (to = NO_TIMEOUT -> count is_add acts = 0%nat).
Proof.
  intros (pre & r & post & used & ws & last & _ & _ & _ & _ & _ & He & ->).
  rewrite !count_app. assert (Hw : count is_add (waiting to) = count is_cancel (waiting to) /\
    (to = NO_TIMEOUT -> count is_add (waiting to) = 0%nat)).
  { unfold waiting, arm, disarm. case_bool_decide; by split. }
  assert (Hl : count is_add last = count is_cancel last /\ (to = NO_TIMEOUT -> count is_add last = 0%nat)).
  { destruct He; [by split| |by rewrite !count_cons].
    unfold arm, disarm. case_bool_decide; by split. }
  induction pre as [|c pre [IH1 IH2]]; [exact Hl|]. cbn [map concat]. rewrite !count_app.
  unfold retried at 1 3 5. rewrite !count_cons. simpl.
  destruct (would_block c); (split; [destruct Hw; simpl; lia|intros Hto; specialize (IH2 Hto)]).
  - destruct Hw as [_ Hw]. specialize (Hw Hto). lia.
  - simpl. lia.
Qed.

(** Every yield directly follows a registration. *)
Definition yields_registered (acts : list act) : Prop :=
  forall l1 l2, acts = l1 ++ AYield :: l2 -> exists l0, l1 = l0 ++ [AAddEvent].

Lemma yields_app a b :
  yields_registered a -> yields_registered b -> yields_registered (a ++ b).
Proof.
  intros Ha Hb l1 l2 E. symmetry in E.
  apply app_eq_inv in E as [(k & -> & E)|(k & -> & E)].
  - destruct (Hb k l2 E) as (l0 & ->). exists (a ++ l0). by rewrite app_assoc.
  - destruct k as [|x k]; simpl in E.
    + by destruct (Hb [] l2 (eq_sym E)) as ([] & H).
    + injection E as <- ->. by apply (Ha l1 k).
Qed.

Lemma yields_none a : ~ AYield ∈ a -> yields_registered a.
Proof. intros H l1 l2 ->. destruct H. set_solver. Qed.

Lemma outcome_yields to calls waits n e acts :
  outcome to calls waits n e acts -> yields_registered acts.
Proof.
  intros (pre & r & post & used & ws & last & _ & _ & _ & _ & _ & He & ->).
  assert (Hw : yields_registered (ACall :: waiting to)).
  { unfold waiting. apply (yields_app ([ACall] ++ arm to) ([AAddEvent; AYield] ++ disarm to)).
    - apply yields_none. unfold arm. case_bool_decide; set_solver.
    - apply yields_app.
      + intros [|x [|y l1]] l2; [done|intros [= <- <-]; by exists []|].
        intros [= _ _ E]. by destruct l1.
      + apply yields_none. unfold disarm. case_bool_decide; set_solver. }
  apply yields_app.
  - clear He. induction pre as [|c pre IH]; [by apply yields_none; set_solver|].
    simpl. apply (yields_app (retried to c)); [|exact IH]. unfold retried.
    destruct (would_block c); [exact Hw|apply yields_none; set_solver].
  - destruct He; [apply yields_none; set_solver| |exact Hw].
    apply yields_none. unfold arm, disarm. case_bool_decide; set_solver.
Qed.

(** A conclusive call among the results, and as many waits as calls, are enough. *)
Lemma io_retry_total to calls waits :
  Exists conclusive calls ->
  (length calls <= length waits)%nat -> io_retry to calls waits <> None.
Proof.
  intros Hex. revert waits. induction calls as [|[m errno] calls IH]; intros waits Hlen.
  { by apply Exists_nil in Hex. }
  simpl. case_decide as H1; [|case_decide as H2].
  - apply Exists_cons in Hex as [Hex|Hex]; [unfold conclusive in Hex; naive_solver|].
    simpl in Hlen. specialize (IH Hex waits ltac:(lia)).
    destruct (io_retry to calls waits) as [[[? ?] ?]|]; [done|by destruct IH].
  - destruct waits as [|w waits]; [simpl in Hlen; lia|].
    destruct (decide (add_rt w <> 0)); [done|]. destruct (decide (cancelled w <> 0)); [done|].
    apply Exists_cons in Hex as [Hex|Hex]; [unfold conclusive in Hex; naive_solver|].
    simpl in Hlen. specialize (IH Hex waits ltac:(lia)).
    destruct (io_retry to calls waits) as [[[? ?] ?]|]; [done|by destruct IH].
  - done.
Qed.

Section TableProofs.
Context `{kernel : Kernel}.

Lemma get_hit s fd c st auto :
  0 <= fd -> m_datas s !! Z.to_nat fd = Some (Some c) -> get st fd auto s = (Val (Some c), s).
Proof.
  intros Hfd He. unfold get. rewrite decide_False by lia. unfold mbind, st_bind, gets.
  rewrite decide_False by (apply lookup_lt_Some in He; lia).
  unfold entry. by rewrite decide_True, He.
Qed.

Lemma hooked_ok s fd c :
  0 <= fd -> m_datas s !! Z.to_nat fd = Some (Some c) ->
  m_isClosed c = false -> m_isSocket c = true -> hooked fd s = (Val (Some c), s).
Proof.
  intros Hfd He Hcl Hs. unfold hooked. st_step (get_hit s fd c None false Hfd He).
  by rewrite Hcl, Hs.
Qed.

(** The entry replaced by the same context with another user flag. *)
Definition with_user (fd : Z) (v : bool) (c : FdCtx) (s : Fds) : Fds :=
  mkFds (<[Z.to_nat fd := Some (setUserNonblock v c)]> (m_datas s)) (flags s).

Lemma set_entry_ok s fd c v :
  0 <= fd -> m_datas s !! Z.to_nat fd = Some (Some c) ->
  set_entry fd (setUserNonblock v c) s = (Val tt, with_user fd v c s).
Proof. intros Hfd He. unfold set_entry, entry. by rewrite decide_True, He. Qed.

Lemma with_user_entry s fd c v :
  m_datas s !! Z.to_nat fd = Some (Some c) ->
  m_datas (with_user fd v c s) !! Z.to_nat fd = Some (Some (setUserNonblock v c)).
Proof. intros He. simpl. apply list_lookup_insert_eq. by eapply lookup_lt_Some. Qed.

Lemma with_user_wf s fd c v :
  m_datas s !! Z.to_nat fd = Some (Some c) -> wf s -> wf (with_user fd v c s).
Proof.
  intros He [H1 H2 H3]. split; intros i c0; simpl; rewrite list_lookup_insert_Some;
    (intros [(<- & [= <-] & _)|[_ E]]); simpl; eauto.
Qed.
End TableProofs.

(** ** Properties *)

(** C13: hooked I/O on a blocking socket. Whatever the kernel answers, the call
    returns the first conclusive result of the original function (everything before it was
    EINTR or EAGAIN), or -1 at the first EAGAIN whose registration is refused or whose wait is
    cancelled (timed out), with the errno of either. The actions are, attempt by attempt: the
    call and, after EAGAIN, the timer (if there is a timeout), the registration, the yield (if
    it was granted), the cancellation of the timer. So each timer it starts is cancelled before
    it returns, every yield directly follows a registration, and without a timeout it starts
    no timer. It returns as soon as one of its attempts is conclusive. *)
Theorem do_io_ends (c : FdCtx) so calls waits :
  m_isClosed c = false -> m_isSocket c = true -> m_userNonblock c = false ->
  (forall n e acts, do_io true (Some c) so calls waits = Some (n, e, acts) ->
     outcome (getTimeout so c) calls waits n e acts /\
     count is_add acts = count is_cancel acts /\ yields_registered acts /\
     (getTimeout so c = NO_TIMEOUT -> count is_add acts = 0%nat)) /\
  (Exists conclusive calls ->
   (length calls <= length waits)%nat -> do_io true (Some c) so calls waits <> None).
Proof.
  intros Hcl Hs Hu. unfold do_io. rewrite Hcl, Hs, Hu. simpl. split.
  - intros n e acts E%io_retry_ok. destruct (outcome_timers _ _ _ _ _ _ E).
    split_and!; try done. by eapply outcome_yields.
  - intros. by apply io_retry_total.
Qed.

Lemma do_io_ends_witness :
  let c := mkFdCtx true true true false false 5 200 300 in
  let calls := [(-1, EAGAIN); (-1, EINTR); (17, 0)] in
  let acts := [ACall; AAddTimer 200; AAddEvent; AYield; ACancelTimer; ACall; ACall] in
  do_io true (Some c) SO_RCVTIMEO calls [mkWait 0 0 0] = Some (17, 0, acts) /\
  outcome 200 calls [mkWait 0 0 0] 17 0 acts.
Proof.
  intros c calls acts.
  destruct (do_io_ends c SO_RCVTIMEO calls [mkWait 0 0 0] eq_refl eq_refl eq_refl) as [H _].
  split; [reflexivity|]. apply (H 17 0 acts). reflexivity.
Defined.

(** The hooked sleeps. They never block the thread: the fiber arms one timer and
    yields. [sleep] is exact up to 4294967 s and shorter beyond (the product wraps at
    32 bits); [usleep] rounds down to milliseconds; [nanosleep] rounds down and is
    exact while the milliseconds fit an [int], and from 2^31 to 2^32 ms it asks for
    more than 2^63 ms. *)
Theorem sleep_durations seconds usec tv_sec tv_nsec orig
    (Hs : 0 <= seconds < 2 ^ 32) (Hu : 0 <= usec < 2 ^ 32)
    (Hn : 0 <= tv_sec < 2 ^ 32) (Hn' : 0 <= tv_nsec < 10 ^ 9) :
  let ms := tv_sec * 1000 + tv_nsec / 10 ^ 6 in
  (exists t, sleep true seconds orig = (0, [AAddTimer t; AYield]) /\
     (seconds <= 4294967 -> t = 1000 * seconds) /\ (4294967 < seconds -> t < 1000 * seconds)) /\
  (exists t, usleep true usec orig = (0, [AAddTimer t; AYield]) /\
     1000 * t <= usec < 1000 * t + 1000) /\
  (exists t, nanosleep true tv_sec tv_nsec orig = (0, [AAddTimer t; AYield]) /\
     (ms < 2 ^ 31 -> t = ms) /\ (2 ^ 31 <= ms < 2 ^ 32 -> 2 ^ 63 < t)).
Proof.
  intros ms. assert (Hms : tv_sec * 1000 + Z.quot (Z.quot tv_nsec 1000) 1000 = ms).
  { subst ms. rewrite Z.quot_quot by lia. by rewrite Z.quot_div_nonneg by lia. }
  split; [|split]; (eexists; split; [reflexivity|]).
  - unfold sleep_ms, wrap. split; intros H.
    + rewrite Z.mod_small; lia.
    + pose proof (Z.mod_pos_bound (seconds * 1000) (2 ^ 32)). lia.
  - unfold usleep_ms. pose proof (Z.div_mod usec 1000). pose proof (Z.mod_pos_bound usec 1000). lia.
  - unfold nanosleep_ms. rewrite Hms.
    assert (Hb : 0 <= ms < 2 ^ 43).
    { subst ms. pose proof (Z.div_pos tv_nsec (10 ^ 6)).
      assert (tv_nsec / 10 ^ 6 < 1000) by (apply Z.div_lt_upper_bound; lia). lia. }
    rewrite (swrap_small 64) by (unfold in_s; simpl; lia). split; intros H.
    + rewrite swrap_small by (unfold in_s; simpl; lia). by rewrite wrap_small by (unfold in_u; lia).
    + assert (E : s32 ms = ms - 2 ^ 32).
      { unfold swrap. replace ((ms + 2 ^ (32 - 1)) mod 2 ^ 32) with (ms - 2 ^ 31); [lia|].
        apply Z.mod_unique with 1; simpl; lia. }
      rewrite E. unfold wrap.
      replace ((ms - 2 ^ 32) mod 2 ^ 64) with (ms - 2 ^ 32 + 2 ^ 64); [lia|].
      apply Z.mod_unique with (-1); lia.
Qed.

Lemma sleep_durations_witness :
  sleep true 4294968 0 = (0, [AAddTimer 704; AYield]) /\
  exists t, sleep true 3 0 = (0, [AAddTimer t; AYield]) /\
     (3 <= 4294967 -> t = 1000 * 3) /\ (4294967 < 3 -> t < 1000 * 3).
Proof.
  split; [vm_compute; reflexivity|].
  exact (proj1 (sleep_durations 3 0 0 0 0 ltac:(lia) ltac:(lia) ltac:(lia) ltac:(lia))).
Defined.

(** the two views of O_NONBLOCK. For a hooked socket, [fcntl] gives the user
    back the flag as last set, while the kernel's flag stays set, as the hooked
    calls need. [ioctl(FIONBIO)] with 0 does not keep this up: it passes the
    request on, and the kernel's descriptor becomes blocking. *)
Theorem nonblock_views (kernel : Kernel) (s : Fds) fd c arg :
  wf s -> 0 <= fd -> m_datas s !! Z.to_nat fd = Some (Some c) ->
  m_isClosed c = false -> m_isSocket c = true ->
  (exists s' r, fcntl_setfl true fd arg s = (Val 0, s') /\ wf s' /\
     nonblock (flags_of fd s') = true /\
     fcntl_getfl true fd s' = (Val r, s') /\ nonblock r = nonblock arg) /\
  (exists s', ioctl_fionbio true fd 0 s = (Val 0, s') /\
     nonblock (flags_of fd s') = false /\ ~ wf s').
Proof.
  intros Hwf Hfd He Hcl Hs. pose proof (wf_sys s Hwf _ _ He) as Hsys.
  split.
  - set (v := bool_decide (Z.land arg O_NONBLOCK <> 0)).
    set (s1 := with_user fd v c s).
    pose proof (with_user_entry s fd c v He) as He1.
    pose proof (with_user_wf s fd c v He Hwf) as Hwf1.
    set (fl := Z.lor (Z.land (flags_of fd s1) (Z.lnot settable))
      (Z.land (Z.lor arg O_NONBLOCK) settable)).
    assert (Hfl : nonblock fl = true) by (unfold fl; by rewrite nonblock_set_flags, nonblock_lor).
    exists (mkFds (m_datas s1) (<[fd := fl]> (flags s1))).
    exists (if v then Z.lor fl O_NONBLOCK else Z.land fl (Z.lnot O_NONBLOCK)).
    assert (Hof : forall fd', flags_of fd' (mkFds (m_datas s1) (<[fd := fl]> (flags s1))) =
      if decide (fd' = fd) then fl else flags_of fd' s1).
    { intros fd'. unfold flags_of. simpl. case_decide as Hd; [subst; by rewrite lookup_insert_eq|].
      by rewrite lookup_insert_ne. }
    split; [|split; [|split; [|split]]].
    + unfold fcntl_setfl. st_step (hooked_ok s fd c Hfd He Hcl Hs).
      st_step (set_entry_ok s fd c v Hfd He). rewrite Hsys, Hs. reflexivity.
    + destruct Hwf1 as [W1 W2 W3]. split; [exact W1|exact W2|].
      intros i c0 E0 Hs0. rewrite Hof. case_decide; [done|by eapply W3].
    + by rewrite Hof, decide_True.
    + unfold fcntl_getfl, gets, mbind at 1, st_bind at 1. rewrite Hof, decide_True by done.
      unfold mbind, st_bind. rewrite (hooked_ok _ fd (setUserNonblock v c)) by done. done.
    + unfold v. fold (nonblock arg). destruct (nonblock arg); [apply nonblock_lor|apply nonblock_clear].
  - set (s1 := with_user fd false c s).
    set (fl := Z.lor (Z.land (flags_of fd s1) (Z.lnot settable))
      (Z.land (Z.land (flags_of fd s1) (Z.lnot O_NONBLOCK)) settable)).
    exists (mkFds (m_datas s1) (<[fd := fl]> (flags s1))).
    assert (Hof : flags_of fd (mkFds (m_datas s1) (<[fd := fl]> (flags s1))) = fl)
      by (unfold flags_of; simpl; by rewrite lookup_insert_eq).
    assert (Hfl : nonblock fl = false) by (unfold fl; by rewrite nonblock_set_flags, nonblock_clear).
    split; [|split].
    + unfold ioctl_fionbio. st_step (hooked_ok s fd c Hfd He Hcl Hs).
      st_step (set_entry_ok s fd c (bool_decide (0 <> 0)) Hfd He). reflexivity.
    + by rewrite Hof.
    + intros [_ _ W3]. pose proof (with_user_entry s fd c false He) as He1.
      specialize (W3 (Z.to_nat fd) _ He1). rewrite Z2Nat.id in W3 by lia.
      rewrite Hof, Hfl in W3. by specialize (W3 Hs).
Qed.

Definition one_socket : Fds := snd (@get linux (Some true) 5 true FdManager_new).

Lemma nonblock_views_witness :
  exists s', @ioctl_fionbio linux true 5 0 one_socket = (Val 0, s') /\
    nonblock (flags_of 5 s') = false.
Proof.
  destruct (nonblock_views linux one_socket 5
    (mkFdCtx true true true false false 5 (2 ^ 64 - 1) (2 ^ 64 - 1)) 0) as [_ (s' & E & H & _)];
    try reflexivity; try lia.
  - split; intros i c E; (destruct (decide (i = 5%nat)) as [->|Hne];
      [vm_compute in E; injection E as <-; reflexivity|exfalso]);
      (assert (Hl : m_datas one_socket = <[5%nat := Some
         (mkFdCtx true true true false false 5 (2 ^ 64 - 1) (2 ^ 64 - 1))]> (replicate 64 None))
         by reflexivity);
      rewrite Hl, list_lookup_insert_ne in E by congruence;
      apply (lookup_replicate_1 64) in E as [E _]; discriminate E.
  - exists s'. split; [exact E | exact H].
Defined.

(** The sleep functions round down to milliseconds, and wrap at 32 bits. *)
Lemma sleep_ms_exact seconds : 0 <= seconds <= 4294967 -> sleep_ms seconds = seconds * 1000.
Proof. intros H. unfold sleep_ms. apply wrap_small. unfold in_u. lia. Qed.

(** [fcntl(F_GETFL)] masks the result of the original call without looking for a failure:
    on a descriptor in the table that the kernel does not know (any more), it is not -1. *)
Lemma getfl_hides_failure `{kernel : Kernel} s fd c :
  FdManager.get None fd false s = (Val (Some c), s) ->
  m_isClosed c = false -> m_isSocket c = true -> m_userNonblock c = false ->
  fcntl false fd F_GETFL s = (Val (-2049), s).
Proof.
  intros E Hc Hs Hu. cbn [fcntl]. unfold fcntl_getfl. rewrite gets_bind.
  assert (H : hooked fd s = (Val (Some c), s)).
  { unfold hooked. rewrite (st_bind_val _ _ _ _ _ E), Hc, Hs. reflexivity. }
  rewrite (st_bind_val _ _ _ _ _ H), Hu. reflexivity.
Qed.
