(* ===== verification/Stream.v ===== *)
(** * Streams (src/myhttp/stream.cpp, src/myhttp/socket_stream.cpp)

    [readFixSize] and [writeFixSize] repeat a virtual [read] or [write] until the
    whole length is transferred. The results of the virtual calls are arguments, in
    order. The loops keep the result in a [size_t], which matters for errors. *)
From stdpp Require Import base tactics option list numbers.
From coqutil Require Import Byte.
From S2P Require Import Prelude.

(** One call of [read(buffer + offset, left)]: an error (-1), or the bytes it put
    there (none at the end of the stream). *)
Inductive read_result := RError | RData (d : list byte).

(** [isConnected() ? recv : -1], for both directions. *)
Definition SocketStream_read (connected : bool) (recv : read_result) : read_result :=
  if connected then recv else RError.
Definition SocketStream_write (connected : bool) (send : Z) : Z :=
  if connected then send else -1.

(** [buffer + offset] is written only inside the caller's [length] bytes. *)
Definition store (buffer : list byte) (offset : Z) (d : list byte) : res (list byte) :=
  if decide (offset + Z.of_nat (length d) <= Z.of_nat (length buffer))
  then Val (splice buffer (Z.to_nat offset) d) else Bad OutOfBounds.

(** The loop of [readFixSize(void*, length)]: the returned [int], the buffer, and the
    results of the calls that follow. *)
Fixpoint read_loop (length0 offset left : Z) (buffer : list byte) (rs : list read_result) :
    res (Z * list byte * list read_result) :=
  if decide (left > 0) then
    match rs with
    | [] => Bad NoFuel
    | RError :: rs' =>
        (* len = (size_t)-1 *)
        read_loop length0 (u64 (offset + (2 ^ 64 - 1))) (u64 (left - (2 ^ 64 - 1))) buffer rs'
    | RData d :: rs' =>
        if decide (length d = 0%nat) then Val (0, buffer, rs') else
        b ← store buffer offset d;
        let len := Z.of_nat (length d) in
        read_loop length0 (u64 (offset + len)) (u64 (left - len)) b rs'
    end
  else Val (s32 length0, buffer, rs).
Definition readFixSize_rest (buffer : list byte) (rs : list read_result) :
    res (Z * list byte * list read_result) :=
  let n := Z.of_nat (length buffer) in read_loop n 0 n buffer rs.
Definition readFixSize (buffer : list byte) (rs : list read_result) : res (Z * list byte) :=
  '(n, b, _) ← readFixSize_rest buffer rs; mret (n, b).

(** The loops whose calls only report a length: [readFixSize(ba, length)],
    [writeFixSize(ba, length)] and [writeFixSize(const void*, length)]. *)
Fixpoint size_loop (length0 left : Z) (rs : list Z) : res Z :=
  if decide (left > 0) then
    match rs with
    | [] => Bad NoFuel
    | r :: rs' =>
        let len := u64 r in
        if decide (len <= 0) then Val (s32 len) else size_loop length0 (u64 (left - len)) rs'
    end
  else Val (s32 length0).
Definition writeFixSize (length : Z) (rs : list Z) : res Z := size_loop length length rs.
Definition readFixSize_ba (length : Z) (rs : list Z) : res Z := size_loop length length rs.
Definition writeFixSize_ba (length : Z) (rs : list Z) : res Z := size_loop length length rs.

(** ** Lemmas *)

(** What an error does: the loop goes on, with one byte more to transfer. *)
Lemma size_loop_error n left rs :
  0 < left -> left + 1 < 2 ^ 64 -> size_loop n left (-1 :: rs) = size_loop n (left + 1) rs.
Proof.
  intros Hl Hb. cbn [size_loop]. rewrite decide_True by lia.
  assert (Hm : u64 (-1) = 2 ^ 64 - 1) by reflexivity. rewrite Hm.
  rewrite decide_False by lia. f_equal.
  unfold wrap. symmetry. apply Z.mod_unique with (-1); lia.
Qed.

Lemma read_loop_data n offset left buffer chunks rs :
  0 <= offset -> offset + left = Z.of_nat (length buffer) -> Z.of_nat (length buffer) < 2 ^ 63 ->
  Forall (fun d => d <> []) chunks -> Z.of_nat (length (concat chunks)) = left ->
  read_loop n offset left buffer ((RData <$> chunks) ++ rs) =
    Val (s32 n, splice buffer (Z.to_nat offset) (concat chunks), rs).
Proof.
  revert offset left buffer. induction chunks as [|d chunks IH];
    intros offset left buffer Ho Hlen Hb Hne Hsum.
  - simpl in *. subst left. rewrite splice_nil. by destruct rs.
  - apply list.Forall_cons in Hne as [Hd Hne]. simpl in *. rewrite length_app in Hsum.
    assert (Hdl : (0 < length d)%nat) by (destruct d; simpl; [done|lia]).
    rewrite decide_True by lia. rewrite decide_False by lia.
    unfold store. rewrite decide_True by lia. simpl.
    rewrite !wrap_small by (unfold in_u; lia).
    rewrite IH; [|lia| | |done|lia].
    + replace (Z.to_nat (offset + Z.of_nat (length d))) with (Z.to_nat offset + length d)%nat by lia.
      by rewrite splice_app by lia.
    + rewrite length_splice; lia.
    + rewrite length_splice; lia.
Qed.

Lemma readFixSize_rest_data buffer chunks rs :
  Z.of_nat (length buffer) < 2 ^ 31 -> Forall (fun d => d <> []) chunks ->
  length (concat chunks) = length buffer ->
  readFixSize_rest buffer ((RData <$> chunks) ++ rs) =
    Val (Z.of_nat (length buffer), concat chunks, rs).
Proof.
  intros Hb Hne Hlen. unfold readFixSize_rest. rewrite read_loop_data by (done || lia).
  rewrite swrap_small by (unfold in_s; simpl; lia). do 3 f_equal.
  unfold splice. rewrite take_0, drop_ge by (simpl; lia). simpl. by rewrite app_nil_r.
Qed.

(** ** Properties *)

(** reading a fixed size. If the stream delivers the bytes in any non-empty
    pieces, the buffer is filled with their concatenation and the length is
    returned; if it ends before, 0 is returned. But an error of the underlying
    [read] is not noticed: the loop goes on, and while errors repeat neither
    [readFixSize] nor [writeFixSize] returns. *)
Theorem fix_size_transfers (buffer : list byte) :
  Z.of_nat (length buffer) < 2 ^ 31 ->
  (forall chunks rs, Forall (fun d => d <> []) chunks -> length (concat chunks) = length buffer ->
     readFixSize buffer ((RData <$> chunks) ++ rs) =
       Val (Z.of_nat (length buffer), concat chunks)) /\
  (buffer <> [] -> forall rs, readFixSize buffer (RData [] :: rs) = Val (0, buffer)) /\
  (buffer <> [] -> forall k : nat, Z.of_nat k < 2 ^ 62 ->
     readFixSize buffer (replicate k RError) = Bad NoFuel /\
     writeFixSize (Z.of_nat (length buffer)) (replicate k (-1)) = Bad NoFuel).
Proof.
  intros Hb. split; [|split].
  - intros chunks rs Hne Hlen. unfold readFixSize. by rewrite readFixSize_rest_data.
  - intros Hne rs. unfold readFixSize, readFixSize_rest. simpl. rewrite decide_True; [done|].
    destruct buffer; [done|simpl; lia].
  - intros Hne k Hk. assert (Hpos : 0 < Z.of_nat (length buffer))
      by (destruct buffer; [done|simpl; lia]).
    split.
    + unfold readFixSize, readFixSize_rest. set (n := Z.of_nat (length buffer)) in *. clearbody n.
      generalize 0 at 1 as offset. assert (Hl : n + Z.of_nat k < 2 ^ 63) by lia.
      revert Hpos Hl. generalize n at 1 2 4 as left.
      clear. induction k as [|k IH]; intros left Hl Hb offset; simpl.
      * by rewrite decide_True by lia.
      * rewrite decide_True by lia.
        replace (u64 (left - (2 ^ 64 - 1))) with (left + 1);
          [apply IH; lia|unfold wrap; apply Z.mod_unique with (-1); lia].
    + unfold writeFixSize. set (n := Z.of_nat (length buffer)) in *. clearbody n.
      assert (Hl : n + Z.of_nat k < 2 ^ 63) by lia.
      revert Hpos Hl. generalize n at 1 2 4 as left.
      clear. induction k as [|k IH]; intros left Hl Hb.
      * simpl. by rewrite decide_True by lia.
      * simpl replicate. rewrite size_loop_error by lia. apply IH; lia.
Qed.

Lemma fix_size_transfers_witness :
  readFixSize (replicate 3 (byte.of_Z 0))
    [RData [byte.of_Z 7]; RData [byte.of_Z 8; byte.of_Z 9]] =
    Val (3, [byte.of_Z 7; byte.of_Z 8; byte.of_Z 9]) /\
  writeFixSize 3 (replicate 5 (-1)) = Bad NoFuel.
Proof.
  destruct (fix_size_transfers (replicate 3 (byte.of_Z 0))) as (H1 & _ & H3); [reflexivity|].
  split.
  - apply (H1 [[byte.of_Z 7]; [byte.of_Z 8; byte.of_Z 9]] []); [repeat constructor; discriminate|reflexivity].
  - apply (H3 ltac:(discriminate) 5%nat). reflexivity.
Defined.
