(* ===== verification/Http.v ===== *)
(** * Requests and responses (http/http.h, http/http.cpp)

    The method and status tables with their conversions, the case-insensitive
    header, parameter and cookie maps of [HttpRequest] and [HttpResponse], and
    the serialisation [dump]/[toString]. A map is an ordered association list
    under [CaseInsensitiLess] (OrdSet.v, CString.v). *)
From stdpp Require Import base tactics option list sorting strings pretty gmap numbers.
From S2P Require Import Prelude OrdSet CString.

Open Scope string_scope.
Open Scope Z_scope.

(** ** Methods and statuses *)

(** [enum class HttpMethod] *)
Inductive HttpMethod :=
  | DELETE | GET | HEAD | POST | PUT | CONNECT | OPTIONS | TRACE | COPY | LOCK | MKCOL
  | MOVE | PROPFIND | PROPPATCH | SEARCH | UNLOCK | BIND | REBIND | UNBIND | ACL
  | REPORT | MKACTIVITY | CHECKOUT | MERGE | MSEARCH | NOTIFY | SUBSCRIBE | UNSUBSCRIBE
  | PATCH | PURGE | MKCALENDAR | LINK | UNLINK | SOURCE | HTT_INVALID_METHOD.

#[export] Instance HttpMethod_eq_dec : EqDecision HttpMethod.
Proof. solve_decision. Defined.

(** [(uint32_t)m] *)
Definition HttpMethod_num (m : HttpMethod) : Z :=
  match m with
  | DELETE => 0 | GET => 1 | HEAD => 2 | POST => 3 | PUT => 4 | CONNECT => 5
  | OPTIONS => 6 | TRACE => 7 | COPY => 8 | LOCK => 9 | MKCOL => 10 | MOVE => 11
  | PROPFIND => 12 | PROPPATCH => 13 | SEARCH => 14 | UNLOCK => 15 | BIND => 16
  | REBIND => 17 | UNBIND => 18 | ACL => 19 | REPORT => 20 | MKACTIVITY => 21
  | CHECKOUT => 22 | MERGE => 23 | MSEARCH => 24 | NOTIFY => 25 | SUBSCRIBE => 26
  | UNSUBSCRIBE => 27 | PATCH => 28 | PURGE => 29 | MKCALENDAR => 30 | LINK => 31
  | UNLINK => 32 | SOURCE => 33 | HTT_INVALID_METHOD => 34
  end.

(** [HTTP_METHOD_MAP], in its order. *)
Definition method_map : list (HttpMethod * string) :=
  [
    (DELETE, "DELETE"); (GET, "GET"); (HEAD, "HEAD"); (POST, "POST"); (PUT, "PUT");
    (CONNECT, "CONNECT"); (OPTIONS, "OPTIONS"); (TRACE, "TRACE"); (COPY, "COPY");
    (LOCK, "LOCK"); (MKCOL, "MKCOL"); (MOVE, "MOVE"); (PROPFIND, "PROPFIND");
    (PROPPATCH, "PROPPATCH"); (SEARCH, "SEARCH"); (UNLOCK, "UNLOCK"); (BIND, "BIND");
    (REBIND, "REBIND"); (UNBIND, "UNBIND"); (ACL, "ACL"); (REPORT, "REPORT");
    (MKACTIVITY, "MKACTIVITY"); (CHECKOUT, "CHECKOUT"); (MERGE, "MERGE");
    (MSEARCH, "M-SEARCH"); (NOTIFY, "NOTIFY"); (SUBSCRIBE, "SUBSCRIBE");
    (UNSUBSCRIBE, "UNSUBSCRIBE"); (PATCH, "PATCH"); (PURGE, "PURGE");
    (MKCALENDAR, "MKCALENDAR"); (LINK, "LINK"); (UNLINK, "UNLINK"); (SOURCE, "SOURCE")
  ].

(** [s_method_string] *)
Definition s_method_string : list string := snd <$> method_map.

(** The chain of [if(strncmp(#string, m, strlen(#string)) == 0)]. *)
Fixpoint first_match (table : list (HttpMethod * string)) (m : string) : HttpMethod :=
  match table with
  | [] => HTT_INVALID_METHOD
  | (name, lit) :: rest =>
      if strncmp lit m (String.length lit) =? 0 then name else first_match rest m
  end.

Definition StringToHttpMethod (m : string) : HttpMethod := first_match method_map m.
Definition CharsToHttpMethod (m : string) : HttpMethod := first_match method_map m.

Definition HttpMethodToString (m : HttpMethod) : res string :=
  let idx := HttpMethod_num m in
  if Z.of_nat (length s_method_string) <? idx then Val "<unknown>"
  else deref OutOfBounds (s_method_string !! Z.to_nat idx).

(** [enum class HttpStatus] is an [int]: the parser casts any code to it. *)
Definition status_map : list (Z * string) :=
  [
    (100, "Continue"); (101, "Switching Protocols"); (102, "Processing"); (200, "OK");
    (201, "Created"); (202, "Accepted"); (203, "Non-Authoritative Information");
    (204, "No Content"); (205, "Reset Content"); (206, "Partial Content");
    (207, "Multi-Status"); (208, "Already Reported"); (226, "IM Used");
    (300, "Multiple Choices"); (301, "Moved Permanently"); (302, "Found");
    (303, "See Other"); (304, "Not Modified"); (305, "Use Proxy");
    (307, "Temporary Redirect"); (308, "Permanent Redirect"); (400, "Bad Request");
    (401, "Unauthorized"); (402, "Payment Required"); (403, "Forbidden");
    (404, "Not Found"); (405, "Method Not Allowed"); (406, "Not Acceptable");
    (407, "Proxy Authentication Required"); (408, "Request Timeout"); (409, "Conflict");
    (410, "Gone"); (411, "Length Required"); (412, "Precondition Failed");
    (413, "Payload Too Large"); (414, "URI Too Long"); (415, "Unsupported Media Type");
    (416, "Range Not Satisfiable"); (417, "Expectation Failed");
    (421, "Misdirected Request"); (422, "Unprocessable Entity"); (423, "Locked");
    (424, "Failed Dependency"); (426, "Upgrade Required");
    (428, "Precondition Required"); (429, "Too Many Requests");
    (431, "Request Header Fields Too Large"); (451, "Unavailable For Legal Reasons");
    (500, "Internal Server Error"); (501, "Not Implemented"); (502, "Bad Gateway");
    (503, "Service Unavailable"); (504, "Gateway Timeout");
    (505, "HTTP Version Not Supported"); (506, "Variant Also Negotiates");
    (507, "Insufficient Storage"); (508, "Loop Detected"); (510, "Not Extended");
    (511, "Network Authentication Required")
  ].

Definition HttpStatusToString (s : Z) : string :=
  match list_find (fun e => e.1 = s) status_map with
  | Some (_, (_, msg)) => msg
  | None => "<unknown>"
  end.

Definition status_OK : Z := 200.
Definition status_NOT_FOUND : Z := 404.

(** ** Header maps *)

(** [std::map<std::string, std::string, CaseInsensitiLess>] *)
Definition MapType := list (string * string).

Definition find (m : MapType) (key : string) := set_find CaseInsensitiLess fst key m.
Definition assign (m : MapType) (key val : string) : MapType :=
  map_assign CaseInsensitiLess key val m.
Definition erase (m : MapType) (key : string) : MapType :=
  set_erase CaseInsensitiLess fst key m.

Definition map_get (m : MapType) (key def : string) : string :=
  match find m key with Some (_, v) => v | None => def end.
(** The result and the value written through a non-null [val]. *)
Definition map_has (m : MapType) (key : string) : bool * option string :=
  match find m key with Some (_, v) => (true, Some v) | None => (false, None) end.

(** [checkgetAs], [getAs]: [lexical_cast] is [None] where boost's throws. *)
Section Conversions.
Context {T : Type} (lexical_cast : string -> option T).
Definition checkgetAs (m : MapType) (key : string) (def : T) : bool * T :=
  match find m key with
  | None => (false, def)
  | Some (_, v) =>
      match lexical_cast v with Some t => (true, t) | None => (false, def) end
  end.
Definition getAs (m : MapType) (key : string) (def : T) : T :=
  match find m key with
  | None => def
  | Some (_, v) => default def (lexical_cast v)
  end.
End Conversions.

(** ** Requests *)

Record HttpRequest := {
  m_method : HttpMethod;
  m_version : Z;
  m_close : bool;
  m_path : string;
  m_query : string;
  m_fragment : string;
  m_body : string;
  m_headers : MapType;
  m_params : MapType;
  m_cookies : MapType
}.

Definition HttpRequest_new (version : Z) (close : bool) : HttpRequest :=
  {| m_method := GET; m_version := version; m_close := close; m_path := "/"; m_query := "";
     m_fragment := ""; m_body := ""; m_headers := []; m_params := []; m_cookies := [] |}.

Definition setMethod (r : HttpRequest) v : HttpRequest :=
  let '(Build_HttpRequest _ ver cl p q f b h ps ck) := r in
  Build_HttpRequest v ver cl p q f b h ps ck.
Definition setVersion (r : HttpRequest) v : HttpRequest :=
  let '(Build_HttpRequest m _ cl p q f b h ps ck) := r in
  Build_HttpRequest m v cl p q f b h ps ck.
Definition setClose (r : HttpRequest) v : HttpRequest :=
  let '(Build_HttpRequest m ver _ p q f b h ps ck) := r in
  Build_HttpRequest m ver v p q f b h ps ck.
Definition setPath (r : HttpRequest) v : HttpRequest :=
  let '(Build_HttpRequest m ver cl _ q f b h ps ck) := r in
  Build_HttpRequest m ver cl v q f b h ps ck.
Definition setQuery (r : HttpRequest) v : HttpRequest :=
  let '(Build_HttpRequest m ver cl p _ f b h ps ck) := r in
  Build_HttpRequest m ver cl p v f b h ps ck.
Definition setFragment (r : HttpRequest) v : HttpRequest :=
  let '(Build_HttpRequest m ver cl p q _ b h ps ck) := r in
  Build_HttpRequest m ver cl p q v b h ps ck.
Definition setBody (r : HttpRequest) v : HttpRequest :=
  let '(Build_HttpRequest m ver cl p q f _ h ps ck) := r in
  Build_HttpRequest m ver cl p q f v h ps ck.
Definition setHeaders (r : HttpRequest) v : HttpRequest :=
  let '(Build_HttpRequest m ver cl p q f b _ ps ck) := r in
  Build_HttpRequest m ver cl p q f b v ps ck.
Definition setParams (r : HttpRequest) v : HttpRequest :=
  let '(Build_HttpRequest m ver cl p q f b h _ ck) := r in
  Build_HttpRequest m ver cl p q f b h v ck.
Definition setCookies (r : HttpRequest) v : HttpRequest :=
  let '(Build_HttpRequest m ver cl p q f b h ps _) := r in
  Build_HttpRequest m ver cl p q f b h ps v.

Definition getHeader (r : HttpRequest) (key def : string) := map_get (m_headers r) key def.
Definition getParam (r : HttpRequest) (key def : string) := map_get (m_params r) key def.
Definition getCookie (r : HttpRequest) (key def : string) := map_get (m_cookies r) key def.
Definition setHeader (r : HttpRequest) (key val : string) :=
  setHeaders r (assign (m_headers r) key val).
Definition setParam (r : HttpRequest) (key val : string) :=
  setParams r (assign (m_params r) key val).
Definition setCookie (r : HttpRequest) (key val : string) :=
  setCookies r (assign (m_cookies r) key val).
Definition delHeader (r : HttpRequest) (key : string) := setHeaders r (erase (m_headers r) key).
Definition delParam (r : HttpRequest) (key : string) := setParams r (erase (m_params r) key).
Definition delCookie (r : HttpRequest) (key : string) := setCookies r (erase (m_cookies r) key).
Definition hasHeader (r : HttpRequest) (key : string) := map_has (m_headers r) key.
Definition hasParam (r : HttpRequest) (key : string) := map_has (m_params r) key.
Definition hasCookie (r : HttpRequest) (key : string) := map_has (m_cookies r) key.

Definition CR : Ascii.ascii := Ascii.ascii_of_nat 13.
Definition LF : Ascii.ascii := Ascii.ascii_of_nat 10.
Definition CRLF : string := String CR (String LF "").

(** [os << (uint32_t)x], [os << size]: a decimal number. *)
Definition decimal (z : Z) : string := pretty (Z.to_N z).

Definition version_string (v : Z) : string :=
  decimal (Z.shiftr v 4) ++ "." ++ decimal (Z.land v 15).

(** The loop over [m_headers]; [sep] is what is printed after the name. *)
Fixpoint dump_headers (sep : string) (m : MapType) : string :=
  match m with
  | [] => ""
  | (k, v) :: rest =>
      if strcasecmp k "connection" =? 0 then dump_headers sep rest
      else k ++ sep ++ v ++ CRLF ++ dump_headers sep rest
  end.

Definition dump_connection (close : bool) : string :=
  "connection: " ++ (if close then "close" else "keep-alive") ++ CRLF.

Definition dump_body (body : string) : string :=
  if decide (body = "") then CRLF
  else "content-length: " ++ decimal (Z.of_nat (String.length body)) ++ CRLF ++ CRLF ++ body.

Definition HttpRequest_dump (r : HttpRequest) : res string :=
  name ← HttpMethodToString (m_method r);
  mret (name ++ " " ++ m_path r
    ++ (if decide (m_query r = "") then "" else "?") ++ m_query r
    ++ (if decide (m_fragment r = "") then "" else "#") ++ m_fragment r
    ++ " HTTP/" ++ version_string (m_version r) ++ CRLF
    ++ dump_connection (m_close r)
    ++ dump_headers ":" (m_headers r)
    ++ dump_body (m_body r)).
Definition HttpRequest_toString := HttpRequest_dump.

(** ** Responses *)

Record HttpResponse := {
  r_status : Z;
  r_version : Z;
  r_close : bool;
  r_body : string;
  r_reason : string;
  r_headers : MapType
}.

Definition HttpResponse_new (version : Z) (close : bool) : HttpResponse :=
  {| r_status := status_OK; r_version := version; r_close := close; r_body := "";
     r_reason := ""; r_headers := [] |}.

Definition rsp_setStatus (r : HttpResponse) v :=
  Build_HttpResponse v (r_version r) (r_close r) (r_body r) (r_reason r) (r_headers r).
Definition rsp_setVersion (r : HttpResponse) v :=
  Build_HttpResponse (r_status r) v (r_close r) (r_body r) (r_reason r) (r_headers r).
Definition rsp_setClose (r : HttpResponse) v :=
  Build_HttpResponse (r_status r) (r_version r) v (r_body r) (r_reason r) (r_headers r).
Definition rsp_setBody (r : HttpResponse) v :=
  Build_HttpResponse (r_status r) (r_version r) (r_close r) v (r_reason r) (r_headers r).
Definition rsp_setReason (r : HttpResponse) v :=
  Build_HttpResponse (r_status r) (r_version r) (r_close r) (r_body r) v (r_headers r).
Definition rsp_setHeaders (r : HttpResponse) v :=
  Build_HttpResponse (r_status r) (r_version r) (r_close r) (r_body r) (r_reason r) v.
Definition rsp_getHead (r : HttpResponse) (key def : string) := map_get (r_headers r) key def.
Definition rsp_setHeader (r : HttpResponse) (key val : string) :=
  rsp_setHeaders r (assign (r_headers r) key val).
Definition rsp_delHeader (r : HttpResponse) (key : string) :=
  rsp_setHeaders r (erase (r_headers r) key).

Definition HttpResponse_dump (r : HttpResponse) : string :=
  "HTTP/" ++ version_string (r_version r) ++ " " ++ decimal (wrap 32 (r_status r)) ++ " "
    ++ (if decide (r_reason r = "") then HttpStatusToString (r_status r) else r_reason r)
    ++ CRLF
    ++ dump_headers ": " (r_headers r)
    ++ dump_connection (r_close r)
    ++ dump_body (r_body r).
Definition HttpResponse_toString := HttpResponse_dump.

(** ** Reading a serialised message back

    The reference reader of the wire format: lines end in CR LF, an empty line
    ends the head, and a header line is a name, a colon, optional blanks and the
    value. *)

(** The first line and what follows its CR LF. *)
Fixpoint split_line (s : string) : option (string * string) :=
  match s with
  | EmptyString => None
  | String c r =>
      match r with
      | String d r' =>
          if decide (c = CR /\ d = LF) then Some ("", r')
          else '(l, rest) ← split_line r; Some (String c l, rest)
      | EmptyString => None
      end
  end.

Fixpoint split_head (fuel : nat) (s : string) : option (list string * string) :=
  match fuel with
  | O => None
  | S fuel =>
      '(l, rest) ← split_line s;
      if decide (l = "") then Some ([], rest)
      else '(ls, body) ← split_head fuel rest; Some (l :: ls, body)
  end.

Fixpoint strip (s : string) : string :=
  match s with
  | String c r => if decide (c = Ascii.ascii_of_nat 32) then strip r else s
  | EmptyString => ""
  end.

Fixpoint split_header (l : string) : option (string * string) :=
  match l with
  | EmptyString => None
  | String c r =>
      if decide (c = Ascii.ascii_of_nat 58) then Some ("", strip r)
      else '(k, v) ← split_header r; Some (String c k, v)
  end.

Definition read_message (s : string) : option (string * list (string * string) * string) :=
  '(ls, body) ← split_head (S (String.length s)) s;
  match ls with
  | start :: hs => headers ← mapM split_header hs; Some (start, headers, body)
  | [] => None
  end.

Definition no_cr : string -> bool := chars (fun c => negb (bool_decide (c = CR))).
Definition no_colon : string -> bool :=
  chars (fun c => negb (bool_decide (c = Ascii.ascii_of_nat 58))).

(** The headers [dump] prints: every one but the user's "connection" headers. *)
Definition printed (m : list (string * string)) : list (string * string) :=
  filter (fun kv => strcasecmp kv.1 "connection" <> 0) m.
Definition clean_headers (m : MapType) : Prop :=
  forall k v, (k, v) ∈ m -> no_cr k = true /\ no_colon k = true /\ no_cr v = true.
Definition connection_value (close : bool) : string := if close then "close" else "keep-alive".
Definition length_header (body : string) : list (string * string) :=
  if decide (body = "") then []
  else [("content-length", decimal (Z.of_nat (String.length body)))].

(** *** Lemmas *)

#[local] Arguments String.append !_ _ : simpl nomatch.

(** Decimal numbers are made of digits. *)
Lemma chars_decimal P z :
  (forall d, P (pretty_N_char d) = true) -> chars P (decimal z) = true.
Proof.
  intros HP. unfold decimal, pretty, pretty_N.
  destruct (decide _); [simpl; rewrite andb_true_r; apply (HP 0%N)|].
  assert (H : forall x s, chars P s = true -> chars P (pretty_N_go x s) = true).
  { intros x. induction (N.lt_wf_0 x) as [x _ IH]. intros s Hs.
    destruct (decide (0 < x)%N) as [Hx|Hx].
    - rewrite pretty_N_go_step by done. apply IH; [apply N.div_lt; lia|]. simpl.
      by rewrite HP, Hs.
    - replace x with 0%N by lia. by rewrite pretty_N_go_0. }
  by apply H.
Qed.

Lemma no_cr_decimal z : no_cr (decimal z) = true.
Proof.
  apply chars_decimal. intros d. unfold pretty_N_char. by repeat case_match.
Qed.

Lemma split_line_app l r : no_cr l = true -> split_line (l ++ CRLF ++ r) = Some (l, r).
Proof.
  induction l as [|c l IH]; intros H; [done|].
  change (no_cr (String c l)) with (negb (bool_decide (c = CR)) && no_cr l) in H.
  apply andb_true_iff in H as [Hc Hl]. specialize (IH Hl).
  change (String c l ++ CRLF ++ r) with (String c (l ++ CRLF ++ r)).
  destruct (l ++ CRLF ++ r) as [|d r'] eqn:E; [by destruct l|].
  change (split_line (String c (String d r'))) with
    (if decide (c = CR /\ d = LF) then Some ("", r')
     else '(l, rest) ← split_line (String d r'); Some (String c l, rest)).
  rewrite decide_False by (case_bool_decide; naive_solver). by rewrite IH.
Qed.

(** The head made of the lines [ls], and the body. *)
Fixpoint render (ls : list string) (body : string) : string :=
  match ls with [] => CRLF ++ body | l :: ls => l ++ CRLF ++ render ls body end.

Lemma split_head_render fuel ls body :
  Forall (fun l => no_cr l = true /\ l <> "") ls -> (length ls < fuel)%nat ->
  split_head fuel (render ls body) = Some (ls, body).
Proof.
  intros Hls. revert fuel. induction Hls as [|l ls [Hl Hne] _ IH]; intros [|fuel] Hf;
    simpl in Hf; try lia; cbn [render split_head].
  - by rewrite (split_line_app "" body eq_refl : split_line (CRLF ++ body) = _).
  - rewrite split_line_app by done. simpl. rewrite decide_False by done.
    by rewrite IH by lia.
Qed.

Lemma length_render ls body : (length ls < S (String.length (render ls body)))%nat.
Proof.
  induction ls as [|l ls IH]; simpl; [lia|]. rewrite !string_length_app. simpl. lia.
Qed.

Lemma split_header_app k w :
  no_colon k = true -> split_header (k ++ ":" ++ w) = Some (k, strip w).
Proof.
  induction k as [|c k IH]; intros H; [done|].
  change (no_colon (String c k))
    with (negb (bool_decide (c = Ascii.ascii_of_nat 58)) && no_colon k) in H.
  apply andb_true_iff in H as [Hc Hk].
  change (String c k ++ ":" ++ w) with (String c (k ++ ":" ++ w)). cbn [split_header].
  rewrite decide_False by (by case_bool_decide). by rewrite (IH Hk).
Qed.

(** The head lines of the dumped headers. *)
Definition header_line (sep : string) (kv : string * string) : string := kv.1 ++ sep ++ kv.2.

Lemma dump_headers_render sep m ls body :
  dump_headers sep m ++ render ls body = render ((header_line sep <$> printed m) ++ ls) body.
Proof.
  unfold printed. induction m as [|[k v] m IH]; [done|].
  cbn [dump_headers].
  destruct (Z.eqb_spec (strcasecmp k "connection") 0) as [E|E].
  - rewrite list.filter_cons_False by auto. apply IH.
  - rewrite list.filter_cons_True by auto. rewrite fmap_cons. cbn [app render].
    unfold header_line at 1. cbn [fst snd].
    rewrite !string_app_assoc. by rewrite IH.
Qed.

Lemma dump_body_render body :
  dump_body body = render (header_line ": " <$> length_header body) body.
Proof.
  unfold dump_body, length_header. destruct (decide (body = "")) as [->|]; simpl; [done|].
  unfold header_line. simpl. by rewrite ?string_app_assoc.
Qed.

Lemma clean_printed m : clean_headers m -> clean_headers (printed m).
Proof. intros Hm k v [_ Hin]%list_elem_of_filter. by apply Hm. Qed.

(** A printed header line is clean and is read back as the header. *)
Definition reads_back (l : string) (kv : string * string) : Prop :=
  no_cr l = true /\ l <> "" /\ split_header l = Some (kv.1, strip kv.2).

Lemma header_lines_read sep m :
  (sep = ":" \/ sep = ": ") -> clean_headers m ->
  Forall2 reads_back (header_line sep <$> m) m.
Proof.
  intros Hsep. induction m as [|[k v] m IH]; intros Hm; [constructor|].
  constructor; [|apply IH; intros k' v' ?; apply Hm; by right].
  destruct (Hm k v) as (Hk & Hk' & Hv); [by left|].
  unfold reads_back, header_line, no_cr in *. cbn [fst snd].
  destruct Hsep as [-> | ->]; rewrite !chars_app, Hk, Hv;
    (split; [done|split; [by destruct k|]]).
  - by rewrite split_header_app.
  - change (k ++ ": " ++ v) with (k ++ ":" ++ (" " ++ v)). by rewrite split_header_app.
Qed.

Lemma read_message_render start ls hs body :
  no_cr start = true -> start <> "" -> Forall2 reads_back ls hs ->
  read_message (render (start :: ls) body) =
    Some (start, (fun kv => (kv.1, strip kv.2)) <$> hs, body).
Proof.
  intros Hs Hne Hls. unfold read_message. rewrite split_head_render.
  - simpl. assert (E : mapM split_header ls = Some ((fun kv => (kv.1, strip kv.2)) <$> hs)).
    { apply mapM_Some. induction Hls as [|l kv ls hs (_ & _ & Hl) _ IH]; by constructor. }
    by rewrite E.
  - constructor; [done|]. induction Hls as [|l kv ls hs (? & ? & _) _ IH]; by constructor.
  - apply length_render.
Qed.

(** ** Methods *)

Lemma first_match_spec table s m :
  Forall (fun e => Forall (fun c => code c <> 0) (String.list_ascii_of_string e.2)) table ->
  first_match table s = m ->
  (exists i lit, table !! i = Some (m, lit) /\ String.prefix lit s = true /\
     forall j e, (j < i)%nat -> table !! j = Some e -> String.prefix e.2 s = false) \/
  (m = HTT_INVALID_METHOD /\ Forall (fun e => String.prefix e.2 s = false) table).
Proof.
  intros Ht. revert m. induction Ht as [|[name lit] table Hl Ht IH]; intros m; simpl.
  { intros <-. by right. }
  pose proof (strncmp_prefix lit s Hl) as Hp. destruct (Z.eqb_spec (strncmp lit s (String.length lit)) 0).
  - intros <-. left. exists 0%nat, lit. split; [done|]. split; [by apply Hp|]. lia.
  - assert (String.prefix lit s = false) as Hn.
    { destruct (String.prefix lit s); [|done]. tauto. }
    intros Hm. destruct (IH m Hm) as [(i & l & Hi & Hpre & Hbefore)|[-> Hall]].
    + left. exists (S i), l. split; [done|]. split; [done|].
      intros [|j] e Hj He; [by injection He as <-|]. apply (Hbefore j); [lia|done].
    + right. split; [done|]. by constructor.
Qed.

Lemma prefix_comparable a b s :
  String.prefix a s = true -> String.prefix b s = true ->
  String.prefix a b = true \/ String.prefix b a = true.
Proof.
  revert b s. induction a as [|c a IH]; intros b s; [intros; left; by destruct b|].
  destruct b as [|d b]; [intros; by right|]. destruct s as [|e s]; [done|]. simpl.
  destruct (Ascii.ascii_dec c e) as [->|]; [|done].
  destruct (Ascii.ascii_dec d e) as [->|]; [|done].
  destruct (Ascii.ascii_dec e e); [|done]. apply IH.
Qed.

(** No name of the table is a prefix of another one. *)
Definition prefix_free (table : list (HttpMethod * string)) : bool :=
  forallb (fun e => forallb (fun e' =>
    bool_decide (e = e') || negb (String.prefix e.2 e'.2)) table) table.

Lemma method_map_prefix_free e e' :
  e ∈ method_map -> e' ∈ method_map -> String.prefix e.2 e'.2 = true -> e = e'.
Proof.
  intros He He' Hp. assert (H : prefix_free method_map = true) by by vm_compute.
  unfold prefix_free in H. rewrite forallb_forall in H. apply list_elem_of_In in He, He'.
  specialize (H e He). rewrite forallb_forall in H. specialize (H e' He').
  rewrite Hp, orb_false_r in H. by apply bool_decide_eq_true in H.
Qed.

Lemma method_map_no_nul :
  Forall (fun e : HttpMethod * string =>
    Forall (fun c => code c <> 0) (String.list_ascii_of_string e.2)) method_map.
Proof. apply list.Forall_forall. intros e He.
  assert (H : forallb (fun e : HttpMethod * string => forallb (fun c => negb (code c =? 0))
    (String.list_ascii_of_string e.2)) method_map = true) by by vm_compute.
  rewrite forallb_forall in H. apply list_elem_of_In in He. specialize (H e He).
  rewrite forallb_forall in H. apply list.Forall_forall. intros c Hc.
  apply list_elem_of_In in Hc. specialize (H c Hc). lia.
Qed.

Lemma method_name m name :
  m <> HTT_INVALID_METHOD -> HttpMethodToString m = Val name <-> (m, name) ∈ method_map.
Proof.
  intros Hm. split.
  - intros H. destruct m; try done; injection H as <-; by repeat (left || right).
  - intros H. unfold method_map in H.
    repeat (apply elem_of_cons in H as [[= -> ->]|H]; [done|]). by apply not_elem_of_nil in H.
Qed.

(** Methods and their names. A valid method has a name; a string is read as
    that method exactly when the name is a prefix of it (the comparison never looks
    past the name, so "GETX" is [GET]), and as the invalid method exactly when no
    name is. The bounds test of [HttpMethodToString] lets the invalid method through,
    and it reads past the end of the table. *)
Theorem method_names s :
  (forall m, m <> HTT_INVALID_METHOD ->
     exists name, HttpMethodToString m = Val name /\
       (StringToHttpMethod s = m <-> String.prefix name s = true) /\
       (CharsToHttpMethod s = m <-> String.prefix name s = true)) /\
  (StringToHttpMethod s = HTT_INVALID_METHOD <->
     forall m name, HttpMethodToString m = Val name -> String.prefix name s = false) /\
  HttpMethodToString HTT_INVALID_METHOD = Bad OutOfBounds.
Proof.
  pose proof (first_match_spec method_map s _ method_map_no_nul eq_refl) as Hspec.
  assert (Hvalid : forall i m lit, method_map !! i = Some (m, lit) -> m <> HTT_INVALID_METHOD).
  { intros i m lit Hi ->. apply list_elem_of_lookup_2 in Hi. unfold method_map in Hi.
    repeat (apply elem_of_cons in Hi as [[=]|Hi]). by apply not_elem_of_nil in Hi. }
  split; [|split; [split|done]].
  - intros m Hm. assert (exists name, HttpMethodToString m = Val name) as [name Hname]
      by (destruct m; try done; by eexists).
    exists name. split; [done|]. unfold StringToHttpMethod, CharsToHttpMethod.
    apply method_name in Hname; [|done].
    assert (first_match method_map s = m <-> String.prefix name s = true); [|done].
    destruct Hspec as [(i & lit & Hi & Hp & _)|[-> Hall]].
    + pose proof (list_elem_of_lookup_2 _ _ _ Hi) as Hin. split.
      * intros <-. assert (lit = name) as <-; [|done].
        apply method_name in Hin; [|by eapply Hvalid]. apply method_name in Hname; [|done].
        congruence.
      * intros Hp'. destruct (prefix_comparable _ _ _ Hp Hp') as [H|H].
        -- by pose proof (method_map_prefix_free (_, _) (_, _) Hin Hname H) as [= ? ?].
        -- by pose proof (method_map_prefix_free (_, _) (_, _) Hname Hin H) as [= ? ?].
    + split; [intros <-; done|]. intros Hp.
      pose proof (proj1 (list.Forall_forall _ _) Hall _ Hname) as H. simpl in H. congruence.
  - intros E m name Hname. unfold StringToHttpMethod in *.
    destruct (decide (m = HTT_INVALID_METHOD)) as [->|Hm]; [done|].
    apply method_name in Hname; [|done]. rewrite E in Hspec.
    destruct Hspec as [(i & lit & Hi & _)|[_ Hall]]; [by eapply Hvalid in Hi|].
    apply (proj1 (list.Forall_forall _ _) Hall _ Hname).
  - intros Hall. destruct Hspec as [(i & lit & Hi & Hp & _)|[E _]]; [|exact E].
    pose proof (list_elem_of_lookup_2 _ _ _ Hi) as Hin.
    apply method_name in Hin; [|by eapply Hvalid]. apply Hall in Hin. congruence.
Qed.

(** ** The maps of a request *)

Inductive slot := InHeaders | InParams | InCookies.
#[export] Instance slot_eq_dec : EqDecision slot.
Proof. solve_decision. Defined.

(** A [set] ([Some] value) or [del] call on one of the maps. *)
Definition edit (r : HttpRequest) (e : slot * string * option string) : HttpRequest :=
  let '(sl, key, val) := e in
  match sl, val with
  | InHeaders, Some v => setHeader r key v
  | InHeaders, None => delHeader r key
  | InParams, Some v => setParam r key v
  | InParams, None => delParam r key
  | InCookies, Some v => setCookie r key v
  | InCookies, None => delCookie r key
  end.

Definition slot_map (sl : slot) (r : HttpRequest) : MapType :=
  match sl with
  | InHeaders => m_headers r | InParams => m_params r | InCookies => m_cookies r
  end.
Definition slot_get (sl : slot) (r : HttpRequest) (key def : string) : string :=
  match sl with
  | InHeaders => getHeader r key def
  | InParams => getParam r key def
  | InCookies => getCookie r key def
  end.
Definition slot_has (sl : slot) (r : HttpRequest) (key : string) : bool * option string :=
  match sl with
  | InHeaders => hasHeader r key
  | InParams => hasParam r key
  | InCookies => hasCookie r key
  end.

(** The specification: per map, the last edit of a name up to case. *)
Definition last_edit (sl : slot) (key : string) (o : option string)
    (e : slot * string * option string) : option string :=
  let '(sl', key', val) := e in
  if decide (sl = sl' /\ fold_case key = fold_case key') then val else o.

Local Abbreviation map_ordered := (ordered CaseInsensitiLess fst).
Local Abbreviation map_value := (value CaseInsensitiLess).

Lemma map_get_value m key def : map_get m key def = default def (map_value key m).
Proof. unfold map_get, value, find. by destruct (set_find _ _ _ _) as [[? ?]|]. Qed.

Lemma map_has_value m key : map_has m key = (bool_decide (is_Some (map_value key m)), map_value key m).
Proof. unfold map_has, value, find. by destruct (set_find _ _ _ _) as [[? ?]|]. Qed.

Lemma value_assign_fold key key' v m :
  map_ordered m ->
  map_value key (assign m key' v) =
    if decide (fold_case key = fold_case key') then Some v else map_value key m.
Proof.
  intros Hm. unfold assign. rewrite (value_assign CaseInsensitiLess) by done.
  apply decide_ext, CaseInsensitiLess_equiv.
Qed.

Lemma value_erase_fold key key' m :
  map_ordered m ->
  map_value key (erase m key') =
    if decide (fold_case key = fold_case key') then None else map_value key m.
Proof.
  intros Hm. unfold erase. rewrite (value_erase CaseInsensitiLess) by done.
  apply decide_ext, CaseInsensitiLess_equiv.
Qed.

Lemma slot_map_edit sl r e :
  slot_map sl (edit r e) =
    (let '(sl', key, val) := e in
     if decide (sl = sl') then
       match val with
       | Some v => assign (slot_map sl r) key v
       | None => erase (slot_map sl r) key
       end
     else slot_map sl r).
Proof. destruct e as [[sl' key] [v|]], r, sl, sl'; reflexivity. Qed.

Lemma edit_ordered sl r e : map_ordered (slot_map sl r) -> map_ordered (slot_map sl (edit r e)).
Proof.
  intros H. rewrite slot_map_edit. destruct e as [[sl' key] val]. case_decide; [|done].
  destruct val; [by apply (map_assign_ordered CaseInsensitiLess)|].
  by apply (set_erase_ordered CaseInsensitiLess fst).
Qed.

Lemma edit_value sl r e key :
  map_ordered (slot_map sl r) ->
  map_value key (slot_map sl (edit r e)) = last_edit sl key (map_value key (slot_map sl r)) e.
Proof.
  intros H. rewrite slot_map_edit. destruct e as [[sl' key'] val]. simpl.
  destruct (decide (sl = sl')) as [->|Hne]; [|by rewrite decide_False by (intros [? _]; done)].
  destruct val as [v|]; [rewrite value_assign_fold by done|rewrite value_erase_fold by done];
    apply decide_ext; naive_solver.
Qed.

(** C14: the header, parameter and cookie maps of a request. After any calls of the
    setters and deleters, each getter returns what the last call on that map for a
    name equal up to case left there, the default if that was a deletion or there was
    none; [hasX] agrees and hands out the same value; the three maps do not
    interfere, and each holds a name once. *)
Theorem request_maps version close edits sl key def :
  let r := foldl edit (HttpRequest_new version close) edits in
  let v := foldl (last_edit sl key) None edits in
  slot_get sl r key def = default def v /\
  slot_has sl r key = (bool_decide (is_Some v), v) /\
  (forall T (lexical_cast : string -> option T) (d : T),
     getAs lexical_cast (slot_map sl r) key d = default d (v ≫= lexical_cast) /\
     checkgetAs lexical_cast (slot_map sl r) key d =
       (bool_decide (is_Some (v ≫= lexical_cast)), default d (v ≫= lexical_cast))) /\
  map_ordered (slot_map sl r).
Proof.
  intros r v.
  assert (H : map_ordered (slot_map sl r) /\ map_value key (slot_map sl r) = v).
  { subst r v.
    assert (H0 : map_ordered (slot_map sl (HttpRequest_new version close)) /\
      map_value key (slot_map sl (HttpRequest_new version close)) = None)
      by (destruct sl; split; (constructor || done)).
    revert H0. generalize (HttpRequest_new version close) (@None string).
    induction edits as [|e edits IH]; intros r o [Ho Hv]; [done|]. simpl. apply IH.
    split; [by apply edit_ordered|]. by rewrite edit_value, Hv. }
  destruct H as [Ho Hv]. split; [|split; [|split; [|done]]].
  - rewrite <- Hv, <- map_get_value. by destruct sl.
  - rewrite <- Hv, <- map_has_value. by destruct sl.
  - intros T cast d. rewrite <- Hv. unfold getAs, checkgetAs, value, find.
    destruct (set_find _ _ _ _) as [[k w]|]; simpl; [|done]. by destruct (cast w).
Qed.

(** ** Serialisation *)

Definition target_line (r : HttpRequest) (name : string) : string :=
  name ++ " " ++ m_path r ++ (if decide (m_query r = "") then "" else "?") ++ m_query r
    ++ (if decide (m_fragment r = "") then "" else "#") ++ m_fragment r
    ++ " HTTP/" ++ version_string (m_version r).

Definition status_line (r : HttpResponse) : string :=
  "HTTP/" ++ version_string (r_version r) ++ " " ++ decimal (wrap 32 (r_status r)) ++ " "
    ++ (if decide (r_reason r = "") then HttpStatusToString (r_status r) else r_reason r).

(** No component carries a CR (nor a header name a colon): [dump] escapes nothing. *)
Definition request_clean (r : HttpRequest) : Prop :=
  no_cr (m_path r) = true /\ no_cr (m_query r) = true /\ no_cr (m_fragment r) = true /\
  clean_headers (m_headers r).
Definition response_clean (r : HttpResponse) : Prop :=
  no_cr (r_reason r) = true /\ clean_headers (r_headers r).

Lemma no_cr_app s t : no_cr (s ++ t) = no_cr s && no_cr t.
Proof. apply chars_app. Qed.

Lemma no_cr_version v : no_cr (version_string v) = true.
Proof. unfold version_string. by rewrite !no_cr_app, !no_cr_decimal. Qed.

Lemma no_cr_status s : no_cr (HttpStatusToString s) = true.
Proof.
  unfold HttpStatusToString. destruct (list_find _ _) as [[i [z msg]]|] eqn:E; [|done].
  apply list_find_Some in E as (E & _ & _).
  apply list_elem_of_lookup_2, list_elem_of_In in E.
  assert (H : forallb (fun e : Z * string => no_cr e.2) status_map = true) by by vm_compute.
  rewrite forallb_forall in H. apply (H _ E).
Qed.

Lemma no_cr_method m name : HttpMethodToString m = Val name -> no_cr name = true.
Proof. destruct m; intros [= <-]; done. Qed.

Lemma length_header_clean body :
  clean_headers (length_header body) /\ printed (length_header body) = length_header body.
Proof.
  unfold length_header. destruct (decide (body = "")).
  { split; [intros k v Hin; by apply not_elem_of_nil in Hin|done]. }
  split; [|done]. intros k v [[= -> ->]|Hin]%elem_of_cons; [|by apply not_elem_of_nil in Hin].
  by rewrite no_cr_decimal.
Qed.

(** What both serialisers share. *)
Lemma connection_clean close : clean_headers [("connection", connection_value close)].
Proof.
  intros k v [[= -> ->]|Hin]%elem_of_cons; [by destruct close|by apply not_elem_of_nil in Hin].
Qed.

Lemma dump_connection_line close s :
  dump_connection close ++ s =
    header_line ": " ("connection", connection_value close) ++ CRLF ++ s.
Proof. by destruct close. Qed.

Definition request_headers (r : HttpRequest) : list (string * string) :=
  ("connection", connection_value (m_close r)) :: printed (m_headers r)
    ++ length_header (m_body r).
Definition response_headers (r : HttpResponse) : list (string * string) :=
  printed (r_headers r) ++ ("connection", connection_value (r_close r)) ::
    length_header (r_body r).

Lemma request_render r name :
  HttpMethodToString (m_method r) = Val name ->
  HttpRequest_toString r =
    Val (render (target_line r name :: header_line ": " ("connection", connection_value (m_close r))
      :: (header_line ":" <$> printed (m_headers r))
      ++ (header_line ": " <$> length_header (m_body r))) (m_body r)).
Proof.
  intros E. unfold HttpRequest_toString, HttpRequest_dump. rewrite E.
  cbn [mbind res_bind mret res_ret]. f_equal.
  rewrite dump_body_render, dump_headers_render, dump_connection_line.
  cbn [render]. unfold target_line. by rewrite !string_app_assoc.
Qed.

Lemma response_render r :
  HttpResponse_toString r =
    render (status_line r :: (header_line ": " <$> printed (r_headers r))
      ++ header_line ": " ("connection", connection_value (r_close r))
      :: (header_line ": " <$> length_header (r_body r))) (r_body r).
Proof.
  unfold HttpResponse_toString, HttpResponse_dump.
  rewrite dump_body_render, dump_connection_line.
  change (header_line ": " ("connection", connection_value (r_close r)) ++ CRLF ++
      render (header_line ": " <$> length_header (r_body r)) (r_body r))
    with (render (header_line ": " ("connection", connection_value (r_close r)) ::
      (header_line ": " <$> length_header (r_body r))) (r_body r)).
  rewrite dump_headers_render. cbn [render]. unfold status_line. by rewrite !string_app_assoc.
Qed.

Lemma request_reads_back r :
  clean_headers (m_headers r) ->
  Forall2 reads_back (header_line ": " ("connection", connection_value (m_close r))
      :: (header_line ":" <$> printed (m_headers r))
      ++ (header_line ": " <$> length_header (m_body r))) (request_headers r).
Proof.
  intros Hh. unfold request_headers. constructor.
  { pose proof (header_lines_read ": " _ (or_intror eq_refl) (connection_clean (m_close r))) as H.
    by inversion H. }
  apply Forall2_app; apply header_lines_read; auto; [by apply clean_printed|].
  by apply length_header_clean.
Qed.

Lemma response_reads_back r :
  clean_headers (r_headers r) ->
  Forall2 reads_back ((header_line ": " <$> printed (r_headers r))
      ++ header_line ": " ("connection", connection_value (r_close r))
      :: (header_line ": " <$> length_header (r_body r))) (response_headers r).
Proof.
  intros Hh. unfold response_headers.
  apply Forall2_app; [apply header_lines_read; [auto|by apply clean_printed]|].
  constructor.
  { pose proof (header_lines_read ": " _ (or_intror eq_refl) (connection_clean (r_close r))) as H.
    by inversion H. }
  apply header_lines_read; [auto|]. by apply length_header_clean.
Qed.

(** C15: a serialised message is read back. For a request whose path, query,
    fragment, header names and header values hold no CR (and the names no colon),
    the reader finds the start line, one "connection" header that says what
    [m_close] does, every other header once with its value up to leading blanks, a
    "content-length" header with the exact size when there is a body, and the body;
    for a response likewise. [toString] of a request fails for no valid method. *)
Theorem dump_read_back (req : HttpRequest) (rsp : HttpResponse)
    (Hreq : request_clean req) (Hrsp : response_clean rsp)
    (Hm : m_method req <> HTT_INVALID_METHOD) :
  (exists s name, HttpRequest_toString req = Val s /\
     HttpMethodToString (m_method req) = Val name /\
     read_message s = Some (target_line req name,
       (fun kv => (kv.1, strip kv.2)) <$> request_headers req, m_body req)) /\
  read_message (HttpResponse_toString rsp) = Some (status_line rsp,
    (fun kv => (kv.1, strip kv.2)) <$> response_headers rsp, r_body rsp).
Proof.
  destruct Hreq as (Hp & Hq & Hf & Hh), Hrsp as (Hr & Hh'). split.
  - assert (exists name, HttpMethodToString (m_method req) = Val name) as [name E].
    { destruct (m_method req); try done; by eexists. }
    eexists _, name. split; [by apply request_render|]. split; [done|].
    apply read_message_render; [| |by apply request_reads_back].
    + unfold target_line. rewrite !no_cr_app, (no_cr_method _ _ E), Hp, Hq, Hf, no_cr_version.
      by repeat case_decide.
    + unfold target_line. destruct (m_method req); try done; by injection E as <-.
  - rewrite response_render. apply read_message_render; [|done|by apply response_reads_back].
    unfold status_line. rewrite !no_cr_app, no_cr_version, no_cr_decimal.
    case_decide; [by rewrite no_cr_status|by rewrite Hr].
Qed.

Definition demo_request : HttpRequest :=
  setBody (setHeader (setHeader (setQuery (setMethod (HttpRequest_new 17 false) POST) "a=1")
    "Host" "example.org") "Connection" "close") "hello".
Definition demo_response : HttpResponse :=
  rsp_setHeader (rsp_setStatus (HttpResponse_new 17 true) 404) "Server" "myhttp".

Lemma dump_read_back_witness :
  HttpRequest_toString demo_request = Val
    ("POST /?a=1 HTTP/1.1" ++ CRLF ++ "connection: keep-alive" ++ CRLF ++
     "Host:example.org" ++ CRLF ++ "content-length: 5" ++ CRLF ++ CRLF ++ "hello") /\
  exists s name, HttpRequest_toString demo_request = Val s /\
    HttpMethodToString (m_method demo_request) = Val name /\
    read_message s = Some (target_line demo_request name,
      (fun kv => (kv.1, strip kv.2)) <$> request_headers demo_request, "hello").
Proof.
  split; [by vm_compute|].
  refine (proj1 (dump_read_back demo_request demo_response _ _ _)).
  - split; [done|]. split; [done|]. split; [done|].
    intros k v [[= -> ->]|[[= -> ->]|Hin]%elem_of_cons]%elem_of_cons; try done.
    by apply not_elem_of_nil in Hin.
  - split; [done|]. intros k v [[= -> ->]|Hin]%elem_of_cons; [done|].
    by apply not_elem_of_nil in Hin.
  - done.
Defined.
