(* ===== verification/LogFormat.v ===== *)
(** * Log formats (log.h, log.cpp: LogLevel, LogEvent, LogFormatter)

    [LogFormatter::init] compiles a pattern into a list of items, [format] prints an
    event with them. The pattern is read from the front; where the code keeps an index
    into it, the model has the rest of the pattern. [strftime] on [localtime_r] is a
    parameter. The theorems: a pattern printed from its parts is compiled into exactly
    these parts, and what the code makes of "%%" and of a brace that is not closed. *)
From stdpp Require Import base tactics option list strings pretty numbers.
From S2P Require Import Prelude OrdSet CString Http.

Open Scope string_scope.
Open Scope Z_scope.

#[local] Arguments String.append !_ _ : simpl nomatch.

(** ** Levels *)

Definition level_names : list (Z * string) :=
  [(1, "DEBUG"); (2, "INFO"); (3, "WARN"); (4, "ERROR"); (5, "FATAL")].

(** [LogLevel::ToString(level)] *)
Definition LogLevel_ToString (level : Z) : string :=
  match list_find (fun p => p.1 = level) level_names with
  | Some (_, (_, name)) => name
  | None => "UNKNOW"
  end.

(** [::toupper] in the "C" locale. *)
Definition toupper (c : Ascii.ascii) : Ascii.ascii :=
  if (97 <=? code c) && (code c <=? 122) then Ascii.ascii_of_N (Ascii.N_of_ascii c - 32) else c.
Fixpoint string_map (f : Ascii.ascii -> Ascii.ascii) (s : string) : string :=
  match s with EmptyString => EmptyString | String c s => String (f c) (string_map f s) end.

(** [LogLevel::FromString(str)]; 0 is [UNKNOW]. *)
Definition LogLevel_FromString (str : string) : Z :=
  match list_find (fun p => string_map toupper str = p.2) level_names with
  | Some (_, (level, _)) => level
  | None => 0
  end.

(** ** Events and items *)

(** The fields of [LogEvent]; [m_content] is what [m_ss] holds, [m_loggerName] the name
    of [m_logger]. *)
Record LogEvent := mkEvent {
  m_file : string;
  m_line : Z;
  m_elapse : Z;
  m_threadId : Z;
  m_fiberId : Z;
  m_time : Z;
  m_threadName : string;
  m_content : string;
  m_loggerName : string
}.

(** [LogEvent::format(fmt, al)]: the text [vasprintf] makes, [None] when it fails. *)
Definition LogEvent_format (vasprintf : option string) (e : LogEvent) : LogEvent :=
  match vasprintf with
  | Some buf => mkEvent (m_file e) (m_line e) (m_elapse e) (m_threadId e) (m_fiberId e) (m_time e)
      (m_threadName e) (m_content e ++ buf) (m_loggerName e)
  | None => e
  end.

(** The subclasses of [FormatItem]; two of them have a field. *)
Inductive FormatItem :=
  | MessageFormatItem | LevelFormatItem | ElapseFormatItem | NameFormatItem
  | ThreadIdFormatItem | NewLineFormatItem | FilenameFormatItem | LineFormatItem
  | DateTimeFormatItem (m_format : string)
  | TabFormatItem | FiberIdFormatItem | ThreadNameFormatItem
  | StringFormatItem (m_string : string).

#[export] Instance FormatItem_eq_dec : EqDecision FormatItem.
Proof. solve_decision. Defined.

Definition default_date : string := "%Y-%m-%d %H:%M:%S".

(** [DateTimeFormatItem(format)] *)
Definition DateTimeFormatItem_new (format : string) : FormatItem :=
  DateTimeFormatItem (if decide (format = "") then default_date else format).

(** [s_format_items] *)
Definition s_format_items : list (string * (string -> FormatItem)) :=
  [("m", fun _ => MessageFormatItem); ("p", fun _ => LevelFormatItem);
   ("r", fun _ => ElapseFormatItem); ("c", fun _ => NameFormatItem);
   ("t", fun _ => ThreadIdFormatItem); ("n", fun _ => NewLineFormatItem);
   ("f", fun _ => FilenameFormatItem); ("l", fun _ => LineFormatItem);
   ("d", DateTimeFormatItem_new); ("T", fun _ => TabFormatItem);
   ("F", fun _ => FiberIdFormatItem); ("N", fun _ => ThreadNameFormatItem)].

Definition find_item (str : string) : option (string -> FormatItem) :=
  snd ∘ snd <$> list_find (fun p => p.1 = str) s_format_items.

Section Format.
Context (strftime : string -> Z -> string).

(** [item->format(os, logger, level, event)]: what is written to [os]. *)
Definition FormatItem_format (i : FormatItem) (level : Z) (event : LogEvent) : string :=
  match i with
  | MessageFormatItem => m_content event
  | LevelFormatItem => LogLevel_ToString level
  | ElapseFormatItem => decimal (m_elapse event)
  | NameFormatItem => m_loggerName event
  | ThreadIdFormatItem => decimal (m_threadId event)
  | NewLineFormatItem => String (Ascii.ascii_of_nat 10) ""
  | FilenameFormatItem => m_file event
  | LineFormatItem => decimal (m_line event)
  | DateTimeFormatItem f => strftime f (m_time event)
  | TabFormatItem => String (Ascii.ascii_of_nat 9) ""
  | FiberIdFormatItem => decimal (m_fiberId event)
  | ThreadNameFormatItem => m_threadName event
  | StringFormatItem s => s
  end.

(** The loop of [LogFormatter::format]. *)
Fixpoint format_items (items : list FormatItem) (level : Z) (event : LogEvent) : string :=
  match items with
  | [] => ""
  | i :: items => FormatItem_format i level event ++ format_items items level event
  end.
End Format.

(** ** The compiler of patterns *)

(** [isalpha] in the "C" locale. *)
Definition isalpha (c : Ascii.ascii) : bool :=
  (65 <=? code c) && (code c <=? 90) || (97 <=? code c) && (code c <=? 122).
Definition percent : Ascii.ascii := Ascii.ascii_of_nat 37.
Definition lbrace : Ascii.ascii := Ascii.ascii_of_nat 123.
Definition rbrace : Ascii.ascii := Ascii.ascii_of_nat 125.

(** How the inner loop ends: [str], [fmt] and what is left of the pattern, or inside
    the braces ([fmt_status == 1]). *)
Inductive scanned :=
  | Scanned (str fmt rest : string)
  | Unclosed.

(** [fmt_status == 1]: behind '{'. *)
Fixpoint scan_fmt (str fmt s : string) : scanned :=
  match s with
  | EmptyString => Unclosed
  | String c s =>
      if decide (c = rbrace) then Scanned str fmt s
      else scan_fmt str (fmt ++ String c "") s
  end.

(** [fmt_status == 0]: behind '%'; [str] is what has been passed. *)
Fixpoint scan_name (str s : string) : scanned :=
  match s with
  | EmptyString => Scanned str "" ""
  | String c s' =>
      if negb (isalpha c) && negb (bool_decide (c = lbrace)) && negb (bool_decide (c = rbrace))
      then Scanned str "" s
      else if decide (c = lbrace) then scan_fmt str "" s'
      else scan_name (str ++ String c "") s'
  end.

(** The tuples of [vec]: text, format, type. *)
Definition tuple : Type := string * string * Z.

(** [if(!nstr.empty()) vec.push_back(...)] *)
Definition flush (nstr : string) (vec : list tuple) : list tuple :=
  if decide (nstr = "") then vec else (vec ++ [(nstr, "", 0)])%list.

(** The outer loop: [vec] and [m_error] at its end. The fuel is the length of the
    pattern: every round passes a character. *)
Fixpoint init_loop (fuel : nat) (s nstr : string) (vec : list tuple) (m_error : bool) :
    res (list tuple * bool) :=
  match s with
  | EmptyString => Val (flush nstr vec, m_error)
  | String c s =>
      match fuel with
      | O => Bad NoFuel
      | S fuel =>
          if negb (bool_decide (c = percent)) then
            init_loop fuel s (nstr ++ String c "") vec m_error
          else if match s with String c' _ => bool_decide (c' = percent) | _ => false end then
            init_loop fuel s (nstr ++ String percent "") vec m_error
          else
            match scan_name "" s with
            | Scanned str fmt rest =>
                init_loop fuel rest "" (flush nstr vec ++ [(str, fmt, 1)])%list m_error
            | Unclosed =>
                init_loop fuel s nstr (vec ++ [("<<pattern_error>>", "", 0)])%list true
            end
      end
  end.

(** The loop over [vec]: an item, and whether its name is unknown. *)
Definition make_item (t : tuple) : FormatItem * bool :=
  let '(str, fmt, type) := t in
  if type =? 0 then (StringFormatItem str, false)
  else match find_item str with
       | None => (StringFormatItem ("<<error_format %" ++ str ++ ">>"), true)
       | Some make => (make fmt, false)
       end.

Record LogFormatter := mkFormatter {
  m_pattern : string;
  m_items : list FormatItem;
  m_error : bool
}.

(** [LogFormatter(pattern)], with [init()]. *)
Definition LogFormatter_new (pattern : string) : res LogFormatter :=
  '(vec, e) ← init_loop (String.length pattern) pattern "" [] false;
  let items := make_item <$> vec in
  Val (mkFormatter pattern (fst <$> items) (e || existsb snd items)).

(** [format(logger, level, event)] *)
Definition LogFormatter_format strftime (f : LogFormatter) (level : Z) (event : LogEvent) : string :=
  format_items strftime (m_items f) level event.

Example default_pattern :
  LogFormatter_new "%d{%Y-%m-%d %H:%M:%S}%T%t%T%N%T%F%T[%p]%T[%c]%T%f:%l%T%m%n" =
  Val (mkFormatter "%d{%Y-%m-%d %H:%M:%S}%T%t%T%N%T%F%T[%p]%T[%c]%T%f:%l%T%m%n"
    [DateTimeFormatItem default_date; TabFormatItem; ThreadIdFormatItem; TabFormatItem;
     ThreadNameFormatItem; TabFormatItem; FiberIdFormatItem; TabFormatItem; StringFormatItem "[";
     LevelFormatItem; StringFormatItem "]"; TabFormatItem; StringFormatItem "["; NameFormatItem;
     StringFormatItem "]"; TabFormatItem; FilenameFormatItem; StringFormatItem ":"; LineFormatItem;
     TabFormatItem; MessageFormatItem; NewLineFormatItem] false).
Proof. by vm_compute. Qed.

(** ** The pattern language *)

Inductive part :=
  | Text (s : string)
  | Item (name : string) (fmt : option string).

Definition print_part (p : part) : string :=
  match p with
  | Text s => s
  | Item name None => String percent name
  | Item name (Some f) => String percent (name ++ String lbrace (f ++ String rbrace ""))
  end.
Fixpoint print (ps : list part) : string :=
  match ps with [] => "" | p :: ps => print_part p ++ print ps end.

(** What the compiler is to make of a part. *)
Definition tuple_of (p : part) : tuple :=
  match p with Text s => (s, "", 0) | Item name fmt => (name, default "" fmt, 1) end.

(** Names are taken to the first character that is neither a letter nor a brace, or to
    '{'; a '}' is a part of the name. *)
Definition name_char (c : Ascii.ascii) : bool := isalpha c || bool_decide (c = rbrace).
Definition other_than (d c : Ascii.ascii) : bool := negb (bool_decide (c = d)).
Definition ends_name (s : string) : Prop :=
  match s with EmptyString => True | String c _ => name_char c = false /\ c <> lbrace end.

Definition starts_with_percent (s : string) : Prop :=
  match s with String c _ => c = percent | _ => False end.

(** The parts of a text: texts are not empty, hold no '%' and do not follow each other;
    a name ends where the text goes on with another character; no "%%". *)
Fixpoint wf (ps : list part) : Prop :=
  match ps with
  | [] => True
  | Text s :: ps =>
      s <> "" /\ chars (other_than percent) s = true /\
      match ps with Text _ :: _ => False | _ => True end /\ wf ps
  | Item name None :: ps =>
      chars name_char name = true /\ ends_name (print ps) /\
      ~ (name = "" /\ starts_with_percent (print ps)) /\ wf ps
  | Item name (Some f) :: ps =>
      chars name_char name = true /\ chars (other_than rbrace) f = true /\ wf ps
  end.

(** No '%' is followed by another. *)
Fixpoint no_escape (s : string) : Prop :=
  match s with
  | EmptyString => True
  | String c s => ~ (c = percent /\ starts_with_percent s) /\ no_escape s
  end.

(** ** Scanning *)

Definition rest_length (r : scanned) : nat :=
  match r with Scanned _ _ rest => String.length rest | Unclosed => 0 end.

Lemma scan_fmt_length str fmt s : (rest_length (scan_fmt str fmt s) <= String.length s)%nat.
Proof.
  revert fmt. induction s as [|c s IH]; intros fmt; simpl; [lia|].
  case_decide; simpl; [lia|]. specialize (IH (fmt ++ String c "")). lia.
Qed.

Lemma scan_name_length str s : (rest_length (scan_name str s) <= String.length s)%nat.
Proof.
  revert str. induction s as [|c s IH]; intros str; [simpl; lia|]. cbn [scan_name].
  destruct (_ && _); [simpl; lia|]. case_decide.
  - pose proof (scan_fmt_length str "" s). simpl. lia.
  - specialize (IH (str ++ String c "")). simpl. lia.
Qed.

Lemma name_char_false c :
  negb (isalpha c) && negb (bool_decide (c = lbrace)) && negb (bool_decide (c = rbrace)) = true <->
  name_char c = false /\ c <> lbrace.
Proof.
  unfold name_char. rewrite !andb_true_iff, !negb_true_iff, orb_false_iff, !bool_decide_eq_false.
  tauto.
Qed.

Lemma name_char_true c :
  name_char c = true ->
  negb (isalpha c) && negb (bool_decide (c = lbrace)) && negb (bool_decide (c = rbrace)) = false /\
  c <> lbrace.
Proof.
  intros H. split.
  - apply not_true_iff_false. intros [E _]%name_char_false. by rewrite H in E.
  - intros ->. by vm_compute in H.
Qed.

Lemma scan_name_chars str name s :
  chars name_char name = true -> scan_name str (name ++ s) = scan_name (str ++ name) s.
Proof.
  revert str. induction name as [|c name IH]; intros str H; [by rewrite string_app_nil|].
  simpl in H. apply andb_true_iff in H as [Hc H]. apply name_char_true in Hc as [E Hl].
  simpl. rewrite E, decide_False, IH by done. by rewrite string_app_assoc.
Qed.

Lemma scan_fmt_chars str fmt f s :
  chars (other_than rbrace) f = true -> scan_fmt str fmt (f ++ s) = scan_fmt str (fmt ++ f) s.
Proof.
  revert fmt. induction f as [|c f IH]; intros fmt H; [by rewrite string_app_nil|].
  simpl in H. apply andb_true_iff in H as [Hc H]. unfold other_than in Hc.
  rewrite negb_true_iff, bool_decide_eq_false in Hc.
  simpl. rewrite decide_False, IH by done. by rewrite string_app_assoc.
Qed.

Lemma scan_ends str s : ends_name s -> scan_name str s = Scanned str "" s.
Proof.
  destruct s as [|c s]; [done|]. intros H. apply name_char_false in H. simpl. by rewrite H.
Qed.

Lemma scan_fmt_unclosed str fmt f :
  chars (other_than rbrace) f = true -> scan_fmt str fmt f = Unclosed.
Proof. intros H. rewrite <- (string_app_nil f). by rewrite scan_fmt_chars. Qed.

(** The converse: what is scanned is a name, and braces or its end. *)
Lemma scan_fmt_inv str fmt s str' fmt' rest :
  scan_fmt str fmt s = Scanned str' fmt' rest ->
  exists f, str' = str /\ fmt' = fmt ++ f /\ chars (other_than rbrace) f = true /\
    s = f ++ String rbrace rest.
Proof.
  revert fmt. induction s as [|c s IH]; intros fmt H; simpl in H; [done|].
  case_decide as Hc.
  - simplify_eq. exists "". by rewrite string_app_nil.
  - apply IH in H as (f & -> & -> & Hf & ->). exists (String c f). rewrite string_app_assoc.
    split_and!; try done. simpl. rewrite Hf. unfold other_than. by rewrite bool_decide_eq_false_2.
Qed.

Lemma scan_name_inv str s str' fmt rest :
  scan_name str s = Scanned str' fmt rest ->
  exists name, str' = str ++ name /\ chars name_char name = true /\
    (fmt = "" /\ ends_name rest /\ s = name ++ rest \/
     chars (other_than rbrace) fmt = true /\ s = name ++ String lbrace (fmt ++ String rbrace rest)).
Proof.
  revert str. induction s as [|c s IH]; intros str H.
  - injection H as <- <- <-. exists "". rewrite string_app_nil. split_and!; try done. by left.
  - cbn [scan_name] in H. destruct (_ && _) eqn:E.
    + injection H as <- <- <-. exists "". rewrite string_app_nil. split_and!; try done. left.
      split_and!; try done. by apply name_char_false.
    + case_decide as Hc.
      * apply scan_fmt_inv in H as (f & -> & -> & Hf & ->). exists "". rewrite string_app_nil.
        split_and!; try done. right. by subst c.
      * apply IH in H as (name & -> & Hn & H). exists (String c name).
        rewrite string_app_assoc. split; [done|]. split.
        -- simpl. rewrite Hn, andb_true_r. apply not_false_iff_true. intros Ec.
           assert (E' := conj Ec Hc). apply name_char_false in E'. by rewrite E in E'.
        -- destruct H as [(-> & Hr & ->)|(Hf & ->)]; [left|right]; by rewrite ?string_app_assoc.
Qed.

(** ** The outer loop *)

Lemma init_loop_fuel f1 f2 s nstr vec e :
  (String.length s <= f1)%nat -> (String.length s <= f2)%nat ->
  init_loop f1 s nstr vec e = init_loop f2 s nstr vec e.
Proof.
  revert f2 s nstr vec e. induction f1 as [|f1 IH]; intros f2 s nstr vec e H1 H2;
    (destruct s as [|c s]; [by destruct f2|]); simpl in H1, H2; [lia|].
  destruct f2 as [|f2]; [lia|]. cbn [init_loop].
  destruct (negb _); [apply IH; lia|]. destruct (match s with String _ _ => _ | _ => _ end);
    [apply IH; lia|].
  pose proof (scan_name_length "" s) as Hl. destruct (scan_name "" s); simpl in Hl; apply IH; lia.
Qed.

(** The loop with enough fuel, and its equations. *)
Definition compile (s nstr : string) (vec : list tuple) (e : bool) : res (list tuple * bool) :=
  init_loop (String.length s) s nstr vec e.

Lemma compile_fuel f s nstr vec e :
  (String.length s <= f)%nat -> init_loop f s nstr vec e = compile s nstr vec e.
Proof. intros H. by apply init_loop_fuel. Qed.

Lemma compile_char c s nstr vec e :
  c <> percent -> compile (String c s) nstr vec e = compile s (nstr ++ String c "") vec e.
Proof. intros H. unfold compile. simpl. by rewrite bool_decide_eq_false_2. Qed.

Lemma compile_escape s nstr vec e :
  compile (String percent (String percent s)) nstr vec e =
  compile (String percent s) (nstr ++ String percent "") vec e.
Proof. unfold compile. cbn [String.length init_loop]. by rewrite bool_decide_eq_true_2. Qed.

Lemma compile_item s nstr vec e str fmt rest :
  ~ starts_with_percent s -> scan_name "" s = Scanned str fmt rest ->
  compile (String percent s) nstr vec e = compile rest "" (flush nstr vec ++ [(str, fmt, 1)])%list e.
Proof.
  intros Hs E. pose proof (scan_name_length "" s) as Hl. rewrite E in Hl. simpl in Hl.
  unfold compile at 1. cbn [String.length init_loop]. rewrite bool_decide_eq_true_2 by done.
  cbn [negb]. destruct s as [|c s].
  - rewrite E. by apply compile_fuel.
  - rewrite bool_decide_eq_false_2 by done. rewrite E. by apply compile_fuel.
Qed.

Lemma compile_unclosed s nstr vec e :
  scan_name "" s = Unclosed ->
  compile (String percent s) nstr vec e =
  compile s nstr (vec ++ [("<<pattern_error>>", "", 0)])%list true.
Proof.
  intros E. unfold compile. cbn [String.length init_loop]. rewrite bool_decide_eq_true_2 by done.
  cbn [negb]. destruct s as [|c s]; [done|]. case_bool_decide; [|by rewrite E].
  subst c. by simpl in E.
Qed.

Lemma compile_text t s nstr vec e :
  chars (other_than percent) t = true -> compile (t ++ s) nstr vec e = compile s (nstr ++ t) vec e.
Proof.
  revert nstr. induction t as [|c t IH]; intros nstr H; [by rewrite string_app_nil|].
  simpl in H. apply andb_true_iff in H as [Hc H]. unfold other_than in Hc.
  rewrite negb_true_iff, bool_decide_eq_false in Hc.
  change (String c t ++ s) with (String c (t ++ s)).
  rewrite compile_char, IH, string_app_assoc by done. done.
Qed.

(** Induction along the rounds of the loop. *)
Lemma pattern_ind (P : string -> Prop) :
  P "" -> (forall c s, c <> percent -> P s -> P (String c s)) ->
  (forall s, P (String percent s) -> P (String percent (String percent s))) ->
  (forall s str fmt rest, ~ starts_with_percent s -> scan_name "" s = Scanned str fmt rest ->
     P rest -> P (String percent s)) ->
  (forall s, scan_name "" s = Unclosed -> P s -> P (String percent s)) ->
  forall s, P s.
Proof.
  intros Hnil Hchar Hesc Hitem Hun s. remember (String.length s) as n eqn:Hn. revert s Hn.
  induction (lt_wf n) as [n _ IH]. intros s ->.
  destruct s as [|c s]; [done|]. destruct (decide (c = percent)) as [->|Hc].
  - destruct (scan_name "" s) as [str fmt rest|] eqn:E.
    + pose proof (scan_name_length "" s) as Hl. rewrite E in Hl. simpl in Hl.
      assert (Hrest : P rest) by (apply (IH (String.length rest)); [simpl; lia|done]).
      destruct s as [|c s]; [by eapply Hitem; [intros []|..]|]. destruct (decide (c = percent)) as [->|Hc].
      * apply Hesc, (IH (String.length (String percent s))); [simpl; lia|done].
      * by eapply Hitem.
    + apply Hun; [done|]. apply (IH (String.length s)); [simpl; lia|done].
  - apply Hchar; [done|]. apply (IH (String.length s)); [simpl; lia|done].
Qed.

(** [init] always returns, and never takes the error back. *)
Lemma compile_returns s :
  forall nstr vec e, exists vec' e', compile s nstr vec e = Val (vec', e') /\ implb e e' = true.
Proof.
  induction s as [|c s Hc IH|s IH|s str fmt rest Hs E IH|s E IH] using pattern_ind; intros nstr vec e.
  - eexists _, e. split; [reflexivity|by destruct e].
  - rewrite compile_char by done. apply IH.
  - rewrite compile_escape. apply IH.
  - rewrite (compile_item _ _ _ _ _ _ _ Hs E). apply IH.
  - rewrite compile_unclosed by done.
    destruct (IH nstr (vec ++ [("<<pattern_error>>", "", 0)])%list true) as (vec' & e' & H & He).
    exists vec', e'. split; [done|]. by destruct e, e'.
Qed.

(** ** Patterns printed from their parts *)

Lemma name_not_percent c : name_char c = true -> c <> percent.
Proof. by intros H ->. Qed.

Lemma item_scan name fmt ps :
  wf (Item name fmt :: ps) ->
  exists s, print (Item name fmt :: ps) = String percent s /\ ~ starts_with_percent s /\
    scan_name "" s = Scanned name (default "" fmt) (print ps).
Proof.
  intros H. destruct fmt as [f|].
  - destruct H as (Hn & Hf & _). eexists. split; [reflexivity|]. split.
    + destruct name as [|c name]; [done|]. simpl in *. apply andb_true_iff in Hn as [Hc _].
      by apply name_not_percent.
    + rewrite string_app_assoc, scan_name_chars by done. simpl.
      rewrite string_app_assoc, scan_fmt_chars by done. done.
  - destruct H as (Hn & He & Hp & _). eexists. split; [reflexivity|]. split.
    + destruct name as [|c name]; [by intros ?; apply Hp|]. simpl in *.
      apply andb_true_iff in Hn as [Hc _]. by apply name_not_percent.
    + rewrite scan_name_chars by done. by apply scan_ends.
Qed.

Definition no_text (ps : list part) : Prop := match ps with Text _ :: _ => False | _ => True end.

Lemma compile_print ps nstr vec e :
  wf ps -> nstr = "" \/ no_text ps ->
  compile (print ps) nstr vec e = Val ((flush nstr vec ++ (tuple_of <$> ps))%list, e).
Proof.
  revert nstr vec. induction ps as [|[t|name fmt] ps IH]; intros nstr vec H Hn.
  - by rewrite app_nil_r.
  - destruct Hn as [->|[]]. destruct H as (Hne & Ht & Hnext & H). cbn [print print_part].
    rewrite compile_text, IH by (done || by right). change (flush "" vec) with vec.
    change ("" ++ t) with t. unfold flush. rewrite decide_False by done. by rewrite <- app_assoc.
  - destruct (item_scan name fmt ps H) as (s & -> & Hs & E).
    rewrite (compile_item _ _ _ _ _ _ _ Hs E), IH; [|by destruct fmt; apply H|by left].
    cbn [flush]. unfold flush at 1. rewrite decide_True by done. by rewrite <- app_assoc.
Qed.

(** The text in front of [ps] joined with a text they begin with. *)
Definition join (t : string) (ps : list part) : list part :=
  match ps with
  | Text u :: ps => Text (t ++ u) :: ps
  | _ => if decide (t = "") then ps else Text t :: ps
  end.

Lemma join_join t u ps : join t (join u ps) = join (t ++ u) ps.
Proof.
  destruct ps as [|[v|name fmt] ps]; simpl; rewrite ?string_app_assoc; try done;
    destruct (decide (u = "")) as [->|Hu]; simpl; rewrite ?string_app_nil; try done;
    by rewrite decide_False by (by destruct t).
Qed.

Lemma print_join t ps : print (join t ps) = t ++ print ps.
Proof.
  destruct ps as [|[u|name fmt] ps]; simpl; try case_decide; subst; simpl;
    rewrite ?string_app_assoc, ?string_app_nil; done.
Qed.

Lemma wf_join t ps : chars (other_than percent) t = true -> wf ps -> wf (join t ps).
Proof.
  intros Ht H. destruct ps as [|[u|name fmt] ps]; simpl.
  - by case_decide.
  - destruct H as (Hne & Hu & H). rewrite chars_app, Ht. split_and!; try done; try apply H.
    by destruct t.
  - by case_decide.
Qed.

Lemma tuples_join nstr ps vec :
  nstr = "" \/ no_text ps -> (flush nstr vec ++ (tuple_of <$> ps))%list = (vec ++ (tuple_of <$> join nstr ps))%list.
Proof.
  intros H. unfold flush. destruct ps as [|[u|name fmt] ps]; simpl; try case_decide; try done;
    rewrite <- ?app_assoc, ?app_nil_r; try done; subst; try done. by destruct H.
Qed.

Lemma no_escape_app a b : no_escape (a ++ b) -> no_escape b.
Proof. induction a as [|x a IH]; [done|]. intros [_ Hb]. by apply IH. Qed.

(** Every pattern that is compiled without an error marker is printed from parts. *)
Lemma parts_of s :
  forall nstr vec vec', no_escape s -> compile s nstr vec false = Val (vec', false) ->
  exists ps, wf ps /\ print ps = s.
Proof.
  induction s as [|c s Hc IH|s IH|s str fmt rest Hs E IH|s E IH] using pattern_ind;
    intros nstr vec vec' Hn H.
  - by exists [].
  - rewrite compile_char in H by done. apply IH in H as (ps & Hw & <-); [|apply Hn].
    exists (join (String c "") ps). split; [|apply print_join].
    apply wf_join; [|done]. simpl. unfold other_than. by rewrite bool_decide_eq_false_2.
  - exfalso. destruct Hn as [Hn _]. by apply Hn.
  - rewrite (compile_item _ _ _ _ _ _ _ Hs E) in H. destruct Hn as [_ Hn].
    apply scan_name_inv in E as (name & -> & Hname & E). change ("" ++ name) with name in *.
    assert (Hrest : no_escape rest).
    { destruct E as [(_ & _ & ->)|(_ & ->)]; apply no_escape_app in Hn; [done|].
      destruct Hn as [_ Hn]. apply no_escape_app in Hn. by apply Hn. }
    apply IH in H as (ps & Hw & <-); [|done].
    destruct E as [(-> & He & ->)|(Hf & ->)].
    + exists (Item name None :: ps). split; [|done]. cbn [wf]. split_and!; try done.
      intros [-> Hsp]. by apply Hs.
    + exists (Item name (Some fmt) :: ps). split; [done|]. simpl. f_equal.
      rewrite string_app_assoc. f_equal. simpl. f_equal. by rewrite string_app_assoc.
  - rewrite compile_unclosed in H by done.
    destruct (compile_returns s nstr (vec ++ [("<<pattern_error>>", "", 0)])%list true)
      as (v & e & H' & He). rewrite H' in H. by destruct e; simplify_eq.
Qed.

(** ** The theorems *)

(** C16: the pattern compiler is that of the language of parts. A pattern in which no '%'
    follows another is compiled without an error marker exactly if it is printed from
    well-formed parts (a text, a name, a name with a format in braces), and then the items
    are these parts in their order: [init] returns for every pattern, [m_error] says
    whether a name is unknown, and such a name gives the item that shows it. *)
Theorem compile_parts pattern (Hesc : no_escape pattern) :
  (forall ps, wf ps -> print ps = pattern ->
     LogFormatter_new pattern =
       Val (mkFormatter pattern (fst ∘ make_item ∘ tuple_of <$> ps)
         (existsb (fun p => snd (make_item (tuple_of p))) ps))) /\
  (exists vec e, init_loop (String.length pattern) pattern "" [] false = Val (vec, e) /\
     (e = false <-> exists ps, wf ps /\ print ps = pattern)).
Proof.
  split.
  - intros ps Hw <-. unfold LogFormatter_new.
    pose proof (compile_print ps "" [] false Hw (or_introl eq_refl)) as E. unfold compile in E.
    change (flush "" []) with (@nil tuple) in E. rewrite app_nil_l in E.
    rewrite E. cbn. do 2 f_equal.
    + by rewrite <- !list_fmap_compose.
    + clear. induction ps as [|p ps IH]; [done|]. cbn. by rewrite IH.
  - destruct (compile_returns pattern "" [] false) as (vec & e & E & _).
    exists vec, e. split; [exact E|]. split.
    + intros ->. by apply parts_of in E.
    + intros (ps & Hw & <-). pose proof (compile_print ps "" [] false Hw (or_introl eq_refl)) as E'.
      rewrite E' in E. by injection E.
Qed.

Definition demo_parts : list part :=
  [Item "d" (Some "%H:%M"); Text " ["; Item "p" None; Text "] "; Item "x" None; Text ": ";
   Item "m" None; Item "n" None].

Lemma compile_parts_witness :
  LogFormatter_new "%d{%H:%M} [%p] %x: %m%n" = Val (mkFormatter "%d{%H:%M} [%p] %x: %m%n"
    [DateTimeFormatItem "%H:%M"; StringFormatItem " ["; LevelFormatItem; StringFormatItem "] ";
     StringFormatItem "<<error_format %x>>"; StringFormatItem ": "; MessageFormatItem;
     NewLineFormatItem] true).
Proof.
  refine (proj1 (compile_parts "%d{%H:%M} [%p] %x: %m%n" _) demo_parts _ _).
  - vm_compute. repeat split; by intros [? ?].
  - vm_compute. repeat split; try done; by intros [? ?].
  - reflexivity.
Defined.

(** "%%" is not an escape, although the comment of [init] says so: its second '%'
    begins an item of its own. Behind a text, "%%" gives the text with a '%' and then
    the item of what follows: where no letter or brace does, the marker for an unknown
    format, and an error. And a brace that is not closed gives a marker in front of the
    text that precedes it, not at its own place. *)
Theorem percent_is_not_escaped text (Htext : chars (other_than percent) text = true) :
  (forall ps, wf ps -> ends_name (print ps) -> ~ starts_with_percent (print ps) ->
     LogFormatter_new (text ++ String percent (String percent (print ps))) =
       Val (mkFormatter (text ++ String percent (String percent (print ps)))
         (StringFormatItem (text ++ String percent "") :: StringFormatItem "<<error_format %>>" ::
          (fst ∘ make_item ∘ tuple_of <$> ps)) true)) /\
  (forall name f, chars name_char name = true -> chars (other_than rbrace) f = true ->
     chars (other_than percent) f = true ->
     LogFormatter_new (text ++ String percent (name ++ String lbrace f)) =
       Val (mkFormatter (text ++ String percent (name ++ String lbrace f))
         [StringFormatItem "<<pattern_error>>"; StringFormatItem (text ++ name ++ String lbrace f)]
         true)).
Proof.
  split.
  - intros ps Hw He Hp. unfold LogFormatter_new. rewrite compile_fuel, compile_text by done.
    rewrite compile_escape.
    assert (Hi : wf (Item "" None :: ps)) by (split_and!; try done; by intros [_ ?]).
    change (compile (String percent (print ps))) with (compile (print (Item "" None :: ps))).
    rewrite compile_print by (done || by right). cbn [mbind res_bind].
    unfold flush. rewrite decide_False by by destruct text.
    cbn. do 2 f_equal. by rewrite <- !list_fmap_compose.
  - intros name f Hn Hf Hfp. unfold LogFormatter_new. rewrite compile_fuel, compile_text by done.
    assert (Hnp : chars (other_than percent) (name ++ String lbrace f) = true).
    { rewrite chars_app. simpl. rewrite Hfp, andb_true_r. clear -Hn.
      induction name as [|c name IH]; [done|]. simpl in *. apply andb_true_iff in Hn as [Hc Hn].
      rewrite IH by done. rewrite andb_true_r. unfold other_than.
      rewrite bool_decide_eq_false_2; [done|]. by apply name_not_percent. }
    rewrite compile_unclosed.
    + rewrite <- (string_app_nil (name ++ _)) at 1. rewrite compile_text by done.
      unfold compile. cbn [init_loop String.length]. unfold flush.
      rewrite decide_False by (by destruct text, name). reflexivity.
    + rewrite scan_name_chars by done. simpl. by apply scan_fmt_unclosed.
Qed.

Lemma percent_is_not_escaped_witness :
  LogFormatter_new "100%% of %m" = Val (mkFormatter "100%% of %m"
    [StringFormatItem "100%"; StringFormatItem "<<error_format %>>"; StringFormatItem " of ";
     MessageFormatItem] true) /\
  LogFormatter_new "at %d{H" = Val (mkFormatter "at %d{H"
    [StringFormatItem "<<pattern_error>>"; StringFormatItem "at d{H"] true).
Proof.
  split.
  - refine (proj1 (percent_is_not_escaped "100" _) [Text " of "; Item "m" None] _ _ _);
      [reflexivity|vm_compute; repeat split; try done; by intros [? ?]|by vm_compute|by vm_compute].
  - by refine (proj2 (percent_is_not_escaped "at " _) "d" "H" _ _ _).
Defined.
