(* ===== verification/Logger.v ===== *)
(** * Loggers and appenders (log.h, log.cpp)

    Loggers and appenders are shared by pointers: the state holds both stores, the
    manager's map from names to loggers, and what was written, in order. [Logger::log]
    under the manager with its root logger; the listener that applies a new logging
    configuration ([LogIniter]). The locked sections are atomic. The theorems: which
    appender gets which line, and what the listener makes of a configuration. *)
From stdpp Require Import base tactics option list strings gmap numbers.
From S2P Require Import Prelude OrdSet CString Http LogFormat.

Open Scope string_scope.
Open Scope Z_scope.

(** ** State *)

Inductive AppenderKind :=
  | StdoutLogAppender
  | FileLogAppender (m_filename : string) (m_lastTime : Z).

Record LogAppender := mkAppender {
  a_kind : AppenderKind;
  a_level : Z;
  a_formatter : option LogFormatter
}.

Record Logger := mkLogger {
  m_name : string;
  m_level : Z;
  m_appenders : list nat;
  m_formatter : option LogFormatter;
  m_root : option nat
}.

(** What the appenders do to the outside. *)
Inductive output :=
  | Opened (filename : string)
  | Wrote (filename : option string) (text : string).

Record Logs := mkLogs {
  loggers : gmap nat Logger;
  appenders : gmap nat LogAppender;
  m_loggers : gmap string nat;
  root : nat;
  fresh : nat;
  written : list output
}.

Definition set_loggers f (s : Logs) :=
  mkLogs (f (loggers s)) (appenders s) (m_loggers s) (root s) (fresh s) (written s).
Definition set_appenders f (s : Logs) :=
  mkLogs (loggers s) (f (appenders s)) (m_loggers s) (root s) (fresh s) (written s).
Definition set_names f (s : Logs) :=
  mkLogs (loggers s) (appenders s) (f (m_loggers s)) (root s) (fresh s) (written s).
Definition write (o : list output) (s : Logs) :=
  mkLogs (loggers s) (appenders s) (m_loggers s) (root s) (fresh s) (written s ++ o).

Definition set_level v (l : Logger) := mkLogger (m_name l) v (m_appenders l) (m_formatter l) (m_root l).
Definition set_list v (l : Logger) := mkLogger (m_name l) (m_level l) v (m_formatter l) (m_root l).
Definition set_formatter v (l : Logger) := mkLogger (m_name l) (m_level l) (m_appenders l) v (m_root l).
Definition set_root v (l : Logger) := mkLogger (m_name l) (m_level l) (m_appenders l) (m_formatter l) v.

(** The object behind a [shared_ptr]. *)
Definition logger_at (l : nat) : ST Logs Logger := fun s => (deref NullDeref (loggers s !! l), s).
Definition appender_at (a : nat) : ST Logs LogAppender := fun s =>
  (deref NullDeref (appenders s !! a), s).
Definition update_logger (l : nat) (f : Logger -> Logger) : ST Logs unit :=
  x ← logger_at l; modify (set_loggers <[l := f x]>).
Definition update_appender (a : nat) (f : LogAppender -> LogAppender) : ST Logs unit :=
  x ← appender_at a; modify (set_appenders <[a := f x]>).

(** [make_shared]: the address of the new object. *)
Definition new_address : ST Logs nat := fun s =>
  (Val (fresh s), mkLogs (loggers s) (appenders s) (m_loggers s) (root s) (S (fresh s)) (written s)).
Definition new_logger (l : Logger) : ST Logs nat :=
  a ← new_address; modify (set_loggers <[a := l]>);; mret a.
Definition new_appender (x : LogAppender) : ST Logs nat :=
  a ← new_address; modify (set_appenders <[a := x]>);; mret a.

(** ** Operations *)

Definition default_pattern : string :=
  "%d{%Y-%m-%d %H:%M:%S}%T%t%T%N%T%F%T[%p]%T[%c]%T%f:%l%T%m%n".

(** [Logger(name)] *)
Definition Logger_new (name : string) : res Logger :=
  f ← LogFormatter_new default_pattern; Val (mkLogger name 1 [] (Some f) None).

Definition Logger_setLevel (l : nat) (v : Z) : ST Logs unit := update_logger l (set_level v).

(** [Logger::setFormatter], of a formatter and of a pattern. *)
Definition Logger_setFormatter (l : nat) (v : option LogFormatter) : ST Logs unit :=
  update_logger l (set_formatter v).
Definition Logger_setPattern (l : nat) (v : string) : ST Logs unit :=
  f ← lift (LogFormatter_new v);
  if m_error f then mret tt else Logger_setFormatter l (Some f).

Definition addAppender (l a : nat) : ST Logs unit :=
  x ← logger_at l; y ← appender_at a;
  (match a_formatter y with
   | None => update_appender a (fun y => mkAppender (a_kind y) (a_level y) (m_formatter x))
   | Some _ => mret tt
   end);;
  update_logger l (set_list (m_appenders x ++ [a])).

(** The first occurrence is erased. *)
Fixpoint erase_first (a : nat) (l : list nat) : list nat :=
  match l with
  | [] => []
  | b :: l => if decide (b = a) then l else b :: erase_first a l
  end.
Definition delAppender (l a : nat) : ST Logs unit :=
  update_logger l (fun x => set_list (erase_first a (m_appenders x)) x).

Definition clearAppenders (l : nat) : ST Logs unit := update_logger l (set_list []).

(** [LogAppender::setLevel], [setFormatter]. *)
Definition appender_setLevel (a : nat) (v : Z) : ST Logs unit :=
  update_appender a (fun y => mkAppender (a_kind y) v (a_formatter y)).
Definition appender_setFormatter (a : nat) (v : option LogFormatter) : ST Logs unit :=
  update_appender a (fun y => mkAppender (a_kind y) (a_level y) v).

(** [FileLogAppender(filename)] opens its file. *)
Definition FileLogAppender_new (filename : string) : ST Logs nat :=
  a ← new_appender (mkAppender (FileLogAppender filename 0) 1 None);
  modify (write [Opened filename]);; mret a.
Definition StdoutLogAppender_new : ST Logs nat :=
  new_appender (mkAppender StdoutLogAppender 1 None).

Section Logging.
Context (strftime : string -> Z -> string).

(** [StdoutLogAppender::log], [FileLogAppender::log] at the second [now]. *)
Definition appender_log (now : Z) (a : nat) (level : Z) (event : LogEvent) : ST Logs unit :=
  y ← appender_at a;
  if a_level y <=? level then
    match a_kind y with
    | StdoutLogAppender =>
        f ← lift (deref NullDeref (a_formatter y));
        modify (write [Wrote None (LogFormatter_format strftime f level event)])
    | FileLogAppender file last =>
        (if now =? last then mret tt
         else modify (write [Opened file]);;
              update_appender a (fun y => mkAppender (FileLogAppender file now) (a_level y) (a_formatter y)));;
        f ← lift (deref NullDeref (a_formatter y));
        modify (write [Wrote (Some file) (LogFormatter_format strftime f level event)])
    end
  else mret tt.

Fixpoint log_all (now : Z) (l : list nat) (level : Z) (event : LogEvent) : ST Logs unit :=
  match l with
  | [] => mret tt
  | a :: l => appender_log now a level event;; log_all now l level event
  end.

(** [Logger::log]: a logger without appenders hands on to its root. The fuel bounds the
    chain of roots; that of the manager is one long. *)
Fixpoint Logger_log (fuel : nat) (now : Z) (l : nat) (level : Z) (event : LogEvent) : ST Logs unit :=
  match fuel with
  | O => crash NoFuel
  | S fuel =>
      x ← logger_at l;
      if m_level x <=? level then
        if decide (m_appenders x = []) then
          match m_root x with
          | Some r => Logger_log fuel now r level event
          | None => mret tt
          end
        else log_all now (m_appenders x) level event
      else mret tt
  end.

(** [MYHTTP_LOG_LEVEL(logger, level)]: the event, and [~LogEventWrap()]. *)
Definition log_macro (now : Z) (l : nat) (level : Z) (event : string -> LogEvent) : ST Logs unit :=
  x ← logger_at l;
  if m_level x <=? level then Logger_log 2 now l level (event (m_name x)) else mret tt.
End Logging.

(** [LoggerManager()], on stores that are empty. *)
Definition LoggerManager_new : res Logs :=
  l ← Logger_new "root";
  match (addAppender 0 1) (mkLogs {[ 0%nat := l ]}
          {[ 1%nat := mkAppender StdoutLogAppender 1 None ]} {[ "root" := 0%nat ]} 0 2 []) with
  | (Val _, s) => Val s
  | (Exc e, _) => Exc e
  | (Bad f, _) => Bad f
  end.

(** [LoggerManager::getLogger(name)] *)
Definition getLogger (name : string) : ST Logs nat :=
  it ← gets (fun s => m_loggers s !! name);
  match it with
  | Some l => mret l
  | None =>
      x ← lift (Logger_new name);
      r ← gets root;
      l ← new_logger (set_root (Some r) x);
      modify (set_names <[name := l]>);; mret l
  end.

(** ** The logging configuration *)

Record LogAppenderDefine := mkAppenderDefine {
  ad_type : Z;
  ad_level : Z;
  ad_formatter : string;
  ad_file : string
}.
#[export] Instance LogAppenderDefine_eq_dec : EqDecision LogAppenderDefine.
Proof. solve_decision. Defined.

Record LogDefine := mkDefine {
  ld_name : string;
  ld_level : Z;
  ld_formatter : string;
  ld_appenders : list LogAppenderDefine
}.
#[export] Instance LogDefine_eq_dec : EqDecision LogDefine.
Proof. solve_decision. Defined.

(** [for(auto& x : l)] *)
Fixpoint for_each {A} (f : A -> ST Logs unit) (l : list A) : ST Logs unit :=
  match l with [] => mret tt | x :: l => f x;; for_each f l end.

(** [if(!a.formatter.empty())]: the formatter of the appender itself. *)
Definition apply_own (ap : option nat) (pattern : string) : ST Logs unit :=
  if decide (pattern = "") then mret tt else
  fmt ← lift (LogFormatter_new pattern);
  if m_error fmt then mret tt
  else ap ← lift (deref NullDeref ap); appender_setFormatter ap (Some fmt).

(** The body of the loop over [i.appenders]. A type that is neither 1 nor 2 leaves [ap]
    null. *)
Definition apply_appender (l : nat) (a : LogAppenderDefine) : ST Logs unit :=
  ap ← (if ad_type a =? 1 then ap ← FileLogAppender_new (ad_file a); mret (Some ap)
        else if ad_type a =? 2 then ap ← StdoutLogAppender_new; mret (Some ap)
        else mret None);
  apply_own ap (ad_formatter a);;
  ap ← lift (deref NullDeref ap);
  appender_setLevel ap (ad_level a);;
  addAppender l ap.


(** [if(!i.formatter.empty()) logger->setFormatter(i.formatter)] *)
Definition apply_formatter (l : nat) (pattern : string) : ST Logs unit :=
  if decide (pattern = "") then mret tt else Logger_setPattern l pattern.

(** The body of the loop over [new_value]: the logger of a definition that has not
    changed stays null. *)
Definition apply_define (old_value : list LogDefine) (i : LogDefine) : ST Logs unit :=
  logger ← match set_find string_less ld_name (ld_name i) old_value with
           | None => l ← getLogger (ld_name i); mret (Some l)
           | Some it => if decide (i = it) then mret None
                        else l ← getLogger (ld_name i); mret (Some l)
           end;
  l ← lift (deref NullDeref logger);
  Logger_setLevel l (ld_level i);;
  apply_formatter l (ld_formatter i);;
  clearAppenders l;;
  for_each (apply_appender l) (ld_appenders i).

(** The body of the loop over [old_value]. *)
Definition silence (new_value : list LogDefine) (i : LogDefine) : ST Logs unit :=
  match set_find string_less ld_name (ld_name i) new_value with
  | Some _ => mret tt
  | None => l ← getLogger (ld_name i); Logger_setLevel l 100;; clearAppenders l
  end.

(** The listener of "logs", but for the line that it logs itself. *)
Definition on_logger_conf_changed (old_value new_value : list LogDefine) : ST Logs unit :=
  for_each (apply_define old_value) new_value;; for_each (silence new_value) old_value.

(** ** The invariant *)

(** Names are those of their loggers; loggers have a formatter, live appenders with a
    formatter, and no root but that of the manager, which has none; new addresses are new. *)
Record wf (s : Logs) : Prop := {
  wf_names : forall n l, m_loggers s !! n = Some l -> exists x, loggers s !! l = Some x /\ m_name x = n;
  wf_loggers : forall l x, loggers s !! l = Some x ->
    (l < fresh s)%nat /\ is_Some (m_formatter x) /\ (m_root x = None \/ m_root x = Some (root s)) /\
    forall a, a ∈ m_appenders x -> exists y, appenders s !! a = Some y /\ is_Some (a_formatter y);
  wf_appenders : forall a y, appenders s !! a = Some y -> (a < fresh s)%nat;
  wf_root : exists x, loggers s !! root s = Some x /\ m_root x = None
}.

(** A logger is replaced by one of the same name and root, whose appenders live. *)
Lemma wf_set_logger s l x x' :
  wf s -> loggers s !! l = Some x -> m_name x' = m_name x -> m_root x' = m_root x ->
  is_Some (m_formatter x') ->
  (forall a, a ∈ m_appenders x' -> exists y, appenders s !! a = Some y /\ is_Some (a_formatter y)) ->
  wf (set_loggers <[l := x']> s).
Proof.
  intros [Hn Hl Ha (r & Hr & Hroot)] Hx Ename Eroot Hf Happ. split; simpl.
  - intros n k Hk. destruct (Hn n k Hk) as (z & Hz & Hname).
    destruct (decide (k = l)) as [->|Hne].
    + exists x'. rewrite lookup_insert_eq. split; [done|]. simplify_eq. done.
    + exists z. by rewrite lookup_insert_ne.
  - intros k z Hk. destruct (decide (k = l)) as [->|Hne].
    + rewrite lookup_insert_eq in Hk. simplify_eq. destruct (Hl l x Hx) as (? & _ & ? & _).
      rewrite Eroot. by split_and!.
    + rewrite lookup_insert_ne in Hk by done. by apply Hl.
  - done.
  - destruct (decide (root s = l)) as [<-|Hne].
    + exists x'. rewrite lookup_insert_eq. split; [done|]. simplify_eq. congruence.
    + exists r. by rewrite lookup_insert_ne.
Qed.

(** An appender is added or replaced by one that has a formatter. *)
Lemma wf_set_appender s a y :
  wf s -> (a < fresh s)%nat -> is_Some (a_formatter y) -> wf (set_appenders <[a := y]> s).
Proof.
  intros [Hn Hl Ha Hr] Hlt Hf. split; simpl; try done.
  - intros l x Hx. destruct (Hl l x Hx) as (? & ? & ? & Happ). split_and!; try done.
    intros b Hb. destruct (decide (b = a)) as [->|Hne].
    + exists y. by rewrite lookup_insert_eq.
    + rewrite lookup_insert_ne by done. by apply Happ.
  - intros b z Hb. destruct (decide (b = a)) as [->|Hne]; [done|].
    rewrite lookup_insert_ne in Hb by done. by eapply Ha.
Qed.

Definition next_address (s : Logs) : Logs :=
  mkLogs (loggers s) (appenders s) (m_loggers s) (root s) (S (fresh s)) (written s).

Lemma wf_next s : wf s -> wf (next_address s).
Proof.
  intros [Hn Hl Ha Hr]. split; simpl; try done.
  - intros l x Hx. destruct (Hl l x Hx) as (? & ?). split; [lia|done].
  - intros a y Hy. specialize (Ha a y Hy). lia.
Qed.

Lemma wf_write o s : wf s -> wf (write o s).
Proof. by intros [Hn Hl Ha Hr]; split. Qed.

(** What an operation leaves as it is: the loggers except some, the appenders, the names. *)
Definition kept (changed : nat -> Prop) (s s' : Logs) : Prop :=
  (forall l x, ~ changed l -> loggers s !! l = Some x -> loggers s' !! l = Some x) /\
  (forall a y, appenders s !! a = Some y -> appenders s' !! a = Some y) /\
  (forall n l, m_loggers s !! n = Some l -> m_loggers s' !! n = Some l) /\ root s' = root s.

#[export] Instance kept_refl changed : Reflexive (kept changed).
Proof. by intros s. Qed.
#[export] Instance kept_trans changed : Transitive (kept changed).
Proof.
  intros s1 s2 s3 (L1 & A1 & N1 & R1) (L2 & A2 & N2 & R2). split_and!; eauto. congruence.
Qed.
Lemma kept_mono (P Q : nat -> Prop) s s' : (forall l, P l -> Q l) -> kept P s s' -> kept Q s s'.
Proof. intros HPQ (L & A & N & R). split_and!; eauto. Qed.

(** ** The operations *)

Lemma update_logger_val s l x f :
  loggers s !! l = Some x -> update_logger l f s = (Val tt, set_loggers <[l := f x]> s).
Proof. intros H. unfold update_logger, logger_at. st_unfold. by rewrite H. Qed.

Lemma update_appender_val s a y f :
  appenders s !! a = Some y -> update_appender a f s = (Val tt, set_appenders <[a := f y]> s).
Proof. intros H. unfold update_appender, appender_at. st_unfold. by rewrite H. Qed.

Lemma formatter_returns pattern : exists f, LogFormatter_new pattern = Val f /\ m_pattern f = pattern.
Proof.
  unfold LogFormatter_new.
  destruct (compile_returns pattern "" [] false) as (vec & e & E & _). unfold compile in E.
  rewrite E. by eexists.
Qed.

(** [own pattern f]: the formatter of a pattern, [f] where there is none or it has errors. *)
Definition own (pattern : string) (f : LogFormatter) : LogFormatter :=
  if decide (pattern = "") then f else
  match LogFormatter_new pattern with
  | Val g => if m_error g then f else g
  | _ => f
  end.

Lemma apply_formatter_val s l x f pattern :
  loggers s !! l = Some x -> m_formatter x = Some f ->
  apply_formatter l pattern s =
    (Val tt, set_loggers <[l := set_formatter (Some (own pattern f)) x]> s).
Proof.
  intros Hx Hf. assert (Hid : set_loggers <[l := set_formatter (Some f) x]> s = s).
  { rewrite <- Hf. destruct x, s. unfold set_loggers, set_formatter. simpl in *. by rewrite insert_id. }
  unfold apply_formatter, own, Logger_setPattern, Logger_setFormatter. case_decide; [by rewrite Hid|].
  destruct (formatter_returns pattern) as (g & -> & _).
  rewrite (lift_bind _ g) by done.
  destruct (m_error g); [by rewrite Hid|]. by apply update_logger_val.
Qed.

Lemma getLogger_returns n s :
  wf s -> returns (getLogger n) s (fun l s' =>
    wf s' /\ m_loggers s' !! n = Some l /\ kept (fun _ => False) s s' /\
    forall n', n' <> n -> m_loggers s' !! n' = m_loggers s !! n').
Proof.
  intros Hs. apply returns_bind, returns_gets. destruct (m_loggers s !! n) as [l|] eqn:E.
  - apply returns_ret. by split_and!.
  - destruct (formatter_returns default_pattern) as (f & Ef & _).
    apply returns_bind. eapply returns_lift; [unfold Logger_new; by rewrite Ef|].
    apply returns_bind, returns_gets, returns_bind. eapply returns_val; [reflexivity|].
    apply returns_bind, returns_modify, returns_ret.
    assert (Hnew : loggers s !! fresh s = None).
    { apply eq_None_not_Some. intros [x Hx]. destruct (wf_loggers s Hs _ _ Hx). lia. }
    set (x := set_root _ _).
    set (s' := set_names <[n := fresh s]> (set_loggers <[fresh s := x]> (next_address s))).
    change (wf s' /\ m_loggers s' !! n = Some (fresh s) /\ kept (fun _ => False) s s' /\
      forall n', n' <> n -> m_loggers s' !! n' = m_loggers s !! n').
    pose proof (wf_next s Hs) as [Hn Hl Ha (r & Hr & Hroot)].
    split; [split|].
    + intros n' l Hl'. simpl in *. destruct (decide (n' = n)) as [->|Hne].
      * rewrite lookup_insert_eq in Hl'. injection Hl' as <-. exists x. by rewrite lookup_insert_eq.
      * rewrite lookup_insert_ne in Hl' by done. destruct (Hn n' l Hl') as (z & Hz & Hname).
        exists z. rewrite lookup_insert_ne by congruence. done.
    + intros l z Hz. simpl in *. destruct (decide (l = fresh s)) as [->|Hne].
      * rewrite lookup_insert_eq in Hz. injection Hz as <-. split_and!; [lia|done|by right|].
        by intros a ?%elem_of_nil.
      * rewrite lookup_insert_ne in Hz by done. by apply Hl.
    + done.
    + simpl in *. exists r. rewrite lookup_insert_ne by congruence. done.
    + simpl. rewrite lookup_insert_eq. split; [done|]. split.
      * split_and!; simpl; try done.
        -- intros l z _ Hz. rewrite lookup_insert_ne by congruence. done.
        -- intros n' l Hl'. rewrite lookup_insert_ne by congruence. done.
      * intros n' Hne. by rewrite lookup_insert_ne.
Qed.

(** *** Applying a definition *)

(** The appender of a definition, for a logger with the formatter [f]. *)
Definition made (f : LogFormatter) (ad : LogAppenderDefine) : LogAppender :=
  mkAppender (if ad_type ad =? 1 then FileLogAppender (ad_file ad) 0 else StdoutLogAppender)
    (ad_level ad) (Some (own (ad_formatter ad) f)).

Definition type_ok (ad : LogAppenderDefine) : Prop := ad_type ad = 1 \/ ad_type ad = 2.

Lemma addAppender_val s l x f a y :
  loggers s !! l = Some x -> m_formatter x = Some f -> appenders s !! a = Some y ->
  addAppender l a s =
    (Val tt, set_loggers <[l := set_list (m_appenders x ++ [a]) x]>
       (set_appenders <[a := mkAppender (a_kind y) (a_level y) (Some (default f (a_formatter y)))]> s)).
Proof.
  intros Hx Hf Hy. unfold addAppender, logger_at, appender_at. st_unfold. rewrite Hx. cbn [deref].
  rewrite Hy. cbn [deref]. destruct y as [k v [g|]]; cbn [a_formatter].
  - rewrite (update_logger_val s l x) by done. do 2 f_equal.
    destruct s. unfold set_appenders. simpl in *. by rewrite insert_id.
  - rewrite (update_appender_val s a (mkAppender k v None)) by done.
    rewrite (update_logger_val _ l x) by done. by rewrite Hf.
Qed.

Lemma apply_own_val s a k v pattern f :
  appenders s !! a = Some (mkAppender k v None) ->
  exists o, default f o = own pattern f /\
    apply_own (Some a) pattern s = (Val tt, set_appenders <[a := mkAppender k v o]> s).
Proof.
  intros Ha. assert (Hid : set_appenders <[a := mkAppender k v None]> s = s)
    by (destruct s; unfold set_appenders; simpl in *; by rewrite insert_id).
  unfold apply_own, own. case_decide; [exists None; by rewrite Hid|].
  destruct (formatter_returns pattern) as (h & -> & _). rewrite (lift_bind _ h) by done.
  destruct (m_error h); [exists None; by rewrite Hid|].
  exists (Some h). rewrite (lift_bind _ a) by done. split; [done|].
  by apply (update_appender_val s a (mkAppender k v None)).
Qed.

(** The state with a new appender [y] at the end of the list of [l]. *)
Definition attach (l : nat) (x : Logger) (y : LogAppender) (s : Logs) : Logs :=
  set_loggers <[l := set_list (m_appenders x ++ [fresh s]) x]>
    (set_appenders <[fresh s := y]> (next_address s)).

Lemma apply_appender_val s l x f ad :
  loggers s !! l = Some x -> m_formatter x = Some f -> type_ok ad ->
  exists o, apply_appender l ad s = (Val tt, write o (attach l x (made f ad) s)).
Proof.
  intros Hx Hf Ht.
  set (kind := if ad_type ad =? 1 then FileLogAppender (ad_file ad) 0 else StdoutLogAppender).
  set (o := if ad_type ad =? 1 then [Opened (ad_file ad)] else []). exists o.
  set (a := fresh s).
  set (s1 := write o (set_appenders <[a := mkAppender kind 1 None]> (next_address s))).
  unfold apply_appender. rewrite (st_bind_val _ _ s (Some a) s1).
  2: { unfold s1, o, kind. destruct Ht as [-> | ->]; [reflexivity|].
       destruct s; unfold write; simpl. by rewrite app_nil_r. }
  destruct (apply_own_val s1 a kind 1 (ad_formatter ad) f) as (g & Hg & E);
    [simpl; by rewrite lookup_insert_eq|].
  rewrite (st_bind_val _ _ _ _ _ E), (lift_bind _ a) by done.
  unfold appender_setLevel. set (s2 := set_appenders _ s1).
  assert (H2 : appenders s2 !! a = Some (mkAppender kind 1 g)) by (simpl; by rewrite lookup_insert_eq).
  rewrite (st_bind_val _ _ _ _ _ (update_appender_val s2 a _ _ H2)). unfold s2.
  rewrite (addAppender_val _ l x f a (mkAppender kind (ad_level ad) g));
    [|done|done|simpl; by rewrite lookup_insert_eq].
  unfold attach, made, write, set_loggers, set_appenders. simpl.
  by rewrite !insert_insert_eq, Hg.
Qed.

Lemma wf_attach s l x y :
  wf s -> loggers s !! l = Some x -> is_Some (a_formatter y) -> wf (attach l x y s).
Proof.
  intros Hs Hx Hy. unfold attach. destruct (wf_loggers s Hs l x Hx) as (Hl & Hf & Hr & Happ).
  apply (wf_set_logger _ l x); try done.
  - apply wf_set_appender; [by apply wf_next|simpl; lia|done].
  - simpl. intros a [Ha| ->%list_elem_of_singleton]%elem_of_app.
    + destruct (Happ a Ha) as (z & Hz & Hzf). exists z. rewrite lookup_insert_ne; [done|].
      pose proof (wf_appenders s Hs _ _ Hz). lia.
    + exists y. by rewrite lookup_insert_eq.
Qed.

Lemma kept_attach s l x y : wf s -> kept (fun k => k = l) s (attach l x y s).
Proof.
  intros Hs. split_and!; simpl; try done.
  - intros k z Hk Hz. by rewrite lookup_insert_ne.
  - intros a z Hz. rewrite lookup_insert_ne; [done|]. pose proof (wf_appenders s Hs _ _ Hz). lia.
Qed.

(** The appenders that a list of definitions makes. *)
Lemma apply_appenders_returns l f ads s x :
  wf s -> loggers s !! l = Some x -> m_formatter x = Some f -> Forall type_ok ads ->
  returns (for_each (apply_appender l) ads) s (fun _ s' =>
    wf s' /\ kept (fun k => k = l) s s' /\ m_loggers s' = m_loggers s /\
    exists addresses, loggers s' !! l = Some (set_list (m_appenders x ++ addresses) x) /\
      Forall2 (fun a ad => appenders s' !! a = Some (made f ad)) addresses ads).
Proof.
  intros Hs Hx Hf Hads. revert s x Hs Hx Hf. induction Hads as [|ad ads Had Hads IH]; intros s x Hs Hx Hf.
  - apply returns_ret. split_and!; try done. exists []. rewrite app_nil_r. by destruct x.
  - destruct (apply_appender_val s l x f ad Hx Hf Had) as (o & E).
    apply returns_bind, (returns_val _ _ _ _ _ E).
    set (s1 := write o _). pose proof (wf_attach s l x (made f ad) Hs Hx ltac:(done)) as Hw.
    assert (Hk : kept (fun k => k = l) s s1) by exact (kept_attach s l x _ Hs).
    apply (wf_write o) in Hw. fold s1 in Hw.
    eapply returns_mono; [apply (IH s1 (set_list (m_appenders x ++ [fresh s]) x)); [done| |done]|].
    { simpl. by rewrite lookup_insert_eq. }
    intros _ s' (Hw' & Hk' & Hn & addresses & Hl & Hall). split; [done|]. split; [by etrans|].
    split; [done|]. exists (fresh s :: addresses). split.
    + rewrite Hl. destruct x. unfold set_list. simpl. by rewrite <- app_assoc.
    + constructor; [|done]. destruct Hk' as (_ & Ha & _). apply Ha. simpl. by rewrite lookup_insert_eq.
Qed.

(** Only the logger of the name [n] may differ. *)
Definition touches (n : string) (s s' : Logs) : Prop :=
  kept (fun l => m_loggers s' !! n = Some l) s s' /\
  forall n', n' <> n -> m_loggers s' !! n' = m_loggers s !! n'.

Definition same_logger (n : string) (s s' : Logs) : Prop :=
  m_loggers s' !! n = m_loggers s !! n /\
  forall l x, m_loggers s !! n = Some l -> loggers s !! l = Some x -> loggers s' !! l = Some x.

Lemma touches_refl n s : touches n s s.
Proof. by split. Qed.

(** The loggers of different names are different. *)
Lemma touches_other n m s s' : wf s' -> touches n s s' -> m <> n -> same_logger m s s'.
Proof.
  intros Hs' [(HL & _ & HN & _) Hn] Hne. split; [by apply Hn|].
  intros l x Hl Hx. apply HL; [|done]. intros Hl'.
  destruct (wf_names s' Hs' _ _ Hl') as (y & Hy & Ey).
  destruct (wf_names s' Hs' _ _ (HN _ _ Hl)) as (z & Hz & Ez). congruence.
Qed.

(** The logger is what the definition asks for; [f] was its formatter before. *)
Definition configured (i : LogDefine) (s : Logs) : Prop :=
  exists l x f, m_loggers s !! ld_name i = Some l /\ loggers s !! l = Some x /\
    m_level x = ld_level i /\ m_formatter x = Some (own (ld_formatter i) f) /\
    Forall2 (fun a ad => appenders s !! a = Some (made (own (ld_formatter i) f) ad))
      (m_appenders x) (ld_appenders i).

Definition silenced (n : string) (s : Logs) : Prop :=
  exists l x, m_loggers s !! n = Some l /\ loggers s !! l = Some x /\
    m_level x = 100 /\ m_appenders x = [].

Lemma configured_same i s s' :
  same_logger (ld_name i) s s' ->
  (forall a y, appenders s !! a = Some y -> appenders s' !! a = Some y) ->
  configured i s -> configured i s'.
Proof.
  intros [Hn HL] HA (l & x & f & Hl & Hx & Hv & Hf & Happ).
  exists l, x, f. rewrite Hn. split_and!; eauto.
  eapply Forall2_impl; [|exact Happ]. simpl. eauto.
Qed.

Lemma configured_stable i n s s' :
  wf s' -> configured i s -> n <> ld_name i -> touches n s s' -> configured i s'.
Proof.
  intros Hs' Hi Hne Ht. eapply configured_same; [|apply Ht|done].
  by apply (touches_other n (ld_name i) s s').
Qed.

Lemma silenced_stable m n s s' :
  wf s' -> silenced m s -> n <> m -> touches n s s' -> silenced m s'.
Proof.
  intros Hs' (l & x & Hl & Hx & Hv & Happ) Hne Ht.
  destruct (touches_other n m s s' Hs' Ht ltac:(done)) as [Hn HL]. exists l, x. rewrite Hn. eauto.
Qed.

(** The steps of both loops: get the logger, change it. *)
Lemma touch_logger (n : string) (f : nat -> ST Logs unit) (good : Logs -> Prop) s :
  wf s ->
  (forall l x s1, wf s1 -> m_loggers s1 !! n = Some l -> loggers s1 !! l = Some x ->
     returns (f l) s1 (fun _ s' => wf s' /\ kept (fun k => k = l) s1 s' /\
       m_loggers s' = m_loggers s1 /\ good s')) ->
  returns (l ← getLogger n; f l) s (fun _ s' => wf s' /\ touches n s s' /\ good s').
Proof.
  intros Hs Hf. apply returns_bind. eapply returns_mono; [by apply getLogger_returns|].
  intros l s1 (Hs1 & Hl & Hk & Hn). destruct (wf_names s1 Hs1 _ _ Hl) as (x & Hx & _).
  eapply returns_mono; [by apply (Hf l x s1)|].
  intros _ s' (Hs' & Hk' & Hm & Hg). split; [done|]. split; [|done]. split.
  - transitivity s1; [by eapply kept_mono; [|exact Hk]|].
    eapply kept_mono; [|exact Hk']. intros k ->. by rewrite Hm.
  - intros n' Hne. rewrite Hm. by apply Hn.
Qed.

Lemma set_logger_kept l x' s : kept (fun k => k = l) s (set_loggers <[l := x']> s).
Proof. split_and!; try done. intros k z Hk Hz. simpl. by rewrite lookup_insert_ne. Qed.

Lemma apply_define_returns old i s :
  wf s -> Forall type_ok (ld_appenders i) ->
  (forall j, set_find string_less ld_name (ld_name i) old = Some j -> i <> j) ->
  returns (apply_define old i) s (fun _ s' =>
    wf s' /\ touches (ld_name i) s s' /\ configured i s').
Proof.
  intros Hs Ht Hold.
  assert (E : apply_define old i s = (l ← getLogger (ld_name i);
    Logger_setLevel l (ld_level i);; apply_formatter l (ld_formatter i);; clearAppenders l;;
    for_each (apply_appender l) (ld_appenders i)) s).
  { unfold apply_define. destruct (set_find _ _ _ _) as [j|] eqn:Ej.
    - rewrite decide_False by by apply Hold. st_unfold. by destruct (getLogger _ s) as [[]].
    - st_unfold. by destruct (getLogger _ s) as [[]]. }
  unfold returns. rewrite E. clear E. apply touch_logger; [done|].
  intros l x s1 Hs1 Hl Hx. destruct (wf_loggers s1 Hs1 l x Hx) as (_ & [f Hf] & _ & Happ).
  set (x1 := set_level (ld_level i) x). set (s2 := set_loggers <[l := x1]> s1).
  apply returns_bind, (returns_val _ _ tt s2); [by apply update_logger_val|].
  set (x2 := set_formatter (Some (own (ld_formatter i) f)) x1).
  set (s3 := set_loggers <[l := x2]> s2).
  apply returns_bind, (returns_val _ _ tt s3).
  { apply (apply_formatter_val s2 l x1); [simpl; by rewrite lookup_insert_eq|done]. }
  set (x3 := set_list [] x2). set (s4 := set_loggers <[l := x3]> s3).
  apply returns_bind, (returns_val _ _ tt s4).
  { apply (update_logger_val s3 l x2 (set_list [])). simpl. by rewrite lookup_insert_eq. }
  assert (E4 : s4 = set_loggers <[l := x3]> s1)
    by (unfold s4, s3, s2, set_loggers; simpl; by rewrite !insert_insert_eq).
  rewrite E4. eapply returns_mono; [eapply apply_appenders_returns with (x := x3);
    [|simpl; by rewrite lookup_insert_eq|reflexivity|done]|].
  { apply (wf_set_logger s1 l x); try done. by intros a ?%elem_of_nil. }
  intros _ s' (Hs' & Hk & Hn & addresses & Hl' & Hall). split; [done|]. split.
  - etrans; [|exact Hk]. apply set_logger_kept.
  - split; [done|]. exists l, (set_list addresses x3), f. rewrite Hn. by split_and!.
Qed.

Lemma silence_returns new i s :
  wf s ->
  returns (silence new i) s (fun _ s' => wf s' /\ touches (ld_name i) s s' /\
    (set_find string_less ld_name (ld_name i) new = None -> silenced (ld_name i) s')).
Proof.
  intros Hs. unfold silence. destruct (set_find _ _ _ _).
  { apply returns_ret. split; [done|]. split; [apply touches_refl|done]. }
  eapply returns_mono; [apply touch_logger with (good := silenced (ld_name i))|]; [done| |].
  - intros l x s1 Hs1 Hl Hx. destruct (wf_loggers s1 Hs1 l x Hx) as (_ & Hf & _).
    apply returns_bind, (returns_val _ _ tt (set_loggers <[l := set_level 100 x]> s1));
      [by apply update_logger_val|].
    apply (returns_val _ _ tt (set_loggers <[l := set_list [] (set_level 100 x)]> s1)).
    { unfold clearAppenders. rewrite (update_logger_val _ l (set_level 100 x))
        by (simpl; by rewrite lookup_insert_eq).
      unfold set_loggers. simpl. by rewrite insert_insert_eq. }
    split; [|split; [apply set_logger_kept|split; [done|]]].
    + apply (wf_set_logger s1 l x); try done. by intros a ?%elem_of_nil.
    + exists l, (set_list [] (set_level 100 x)). simpl. by rewrite lookup_insert_eq.
  - intros _ s' (? & ? & ?). by split_and!.
Qed.

(** *** Both loops *)

Lemma for_each_names {A} (f : A -> ST Logs unit) (name : A -> string) (good : A -> Logs -> Prop) l s :
  (forall i s, i ∈ l -> wf s ->
     returns (f i) s (fun _ s' => wf s' /\ touches (name i) s s' /\ good i s')) ->
  (forall i n s s', wf s' -> good i s -> n <> name i -> touches n s s' -> good i s') ->
  NoDup (name <$> l) -> wf s ->
  returns (for_each f l) s (fun _ s' =>
    wf s' /\ (forall i, i ∈ l \/ name i ∉ name <$> l /\ good i s -> good i s') /\
    (forall a y, appenders s !! a = Some y -> appenders s' !! a = Some y) /\
    forall n, n ∉ name <$> l -> same_logger n s s').
Proof.
  intros Hf Hstable. revert s. induction l as [|i l IH]; intros s Hnd Hs.
  { apply returns_ret. split_and!; try done. by intros i [?%elem_of_nil|[_ ?]]. }
  apply list.NoDup_cons in Hnd as [Hi Hnd].
  apply returns_bind. eapply returns_mono; [by apply (Hf i); [left|]|].
  intros _ s1 (Hs1 & Ht & Hg).
  eapply returns_mono; [apply IH; [|done|done]|].
  { intros j s2 Hj. apply Hf. by right. }
  intros _ s2 (Hs2 & Hgood & Happ & Hsame). split; [done|]. split_and!.
  - intros j [[->|Hj]%elem_of_cons|[Hj Hgj]]; apply Hgood; [by right|by left|right].
    apply not_elem_of_cons in Hj as [Hne Hj]. split; [done|].
    by apply (Hstable j (name i) s s1).
  - intros a y Ha. apply Happ. by apply Ht.
  - intros n [Hne Hn]%not_elem_of_cons. destruct (touches_other (name i) n s s1) as [E1 H1]; try done.
    destruct (Hsame n Hn) as [E2 H2]. split; [congruence|]. intros l' x Hl Hx.
    apply H2; [congruence|]. by apply H1.
Qed.

Lemma string_less_equiv s t : equiv_key string_less s t -> s = t.
Proof.
  intros [H1 H2]. revert t H1 H2. induction s as [|c s IH]; intros [|d t]; simpl; try done.
  destruct (Z.ltb_spec (code c) (code d)); [done|]. destruct (Z.ltb_spec (code d) (code c)); [done|].
  intros H1 H2. f_equal; [apply code_inj; lia|by apply IH].
Qed.

Lemma ordered_names (l : list LogDefine) :
  ordered string_less ld_name l -> NoDup (ld_name <$> l).
Proof. apply (ordered_keys_differ string_less ld_name). Qed.

Lemma find_define i l :
  ordered string_less ld_name l ->
  match set_find string_less ld_name (ld_name i) l with
  | Some j => j ∈ l /\ ld_name j = ld_name i
  | None => ld_name i ∉ ld_name <$> l
  end.
Proof.
  intros Ho. destruct (set_find _ _ _ l) as [j|] eqn:E.
  - apply (set_find_Some string_less ld_name _ _ _ Ho) in E as [Hj Hk]. split; [done|].
    by apply string_less_equiv in Hk.
  - intros (j & E' & Hj)%list_elem_of_fmap.
    apply (proj1 (set_find_None string_less ld_name _ _ Ho) E j Hj). rewrite E'.
    split; apply sw_irrefl.
Qed.

Local Abbreviation names l := (ld_name <$> l).

Lemma for_each_filter {A} (f : A -> ST Logs unit) (P : A -> Prop) `{!forall x, Decision (P x)} l s :
  (forall x, ~ P x -> f x = mret tt) -> for_each f l s = for_each f (filter P l) s.
Proof.
  intros Hskip. revert s. induction l as [|x l IH]; intros s; [done|]. rewrite list.filter_cons.
  case_decide; cbn [for_each].
  - unfold mbind, st_bind. destruct (f x s) as [[]]; [apply IH|done..].
  - rewrite Hskip by done. apply IH.
Qed.

(** C23: the listener of the logging configuration. From a state in which the invariant
    holds (every name has its logger, every logger a formatter and live appenders), and
    if no definition stays what it was and all appenders have one of the two types, the
    listener returns, the invariant holds again, every logger that is defined has the
    level, the formatter and exactly the appenders of its definition, every logger whose
    definition is gone is silent, and no other logger has changed. *)
Theorem config_applied old_value new_value s (Hs : wf s)
    (Hold : ordered string_less ld_name old_value) (Hnew : ordered string_less ld_name new_value)
    (Htypes : forall i, i ∈ new_value -> Forall type_ok (ld_appenders i))
    (Hchanged : forall i, i ∈ new_value -> i ∉ old_value) :
  returns (on_logger_conf_changed old_value new_value) s (fun _ s' =>
    wf s' /\ (forall i, i ∈ new_value -> configured i s') /\
    (forall i, i ∈ old_value -> ld_name i ∉ names new_value -> silenced (ld_name i) s') /\
    forall n, n ∉ names new_value -> n ∉ names old_value -> same_logger n s s').
Proof.
  apply returns_bind. eapply returns_mono; [apply (for_each_names _ ld_name configured)|].
  - intros i s1 Hi Hs1. apply apply_define_returns; [done|by apply Htypes|]. intros j Hj <-.
    pose proof (find_define i old_value Hold) as Hf. rewrite Hj in Hf. by apply (Hchanged i Hi), Hf.
  - intros. by eapply configured_stable.
  - by apply ordered_names.
  - done.
  - intros _ s1 (Hs1 & Hconf & _ & Hsame1).
    set (P := fun i => set_find string_less ld_name (ld_name i) new_value = None).
    assert (HP : forall i, P i <-> ld_name i ∉ names new_value).
    { intros i. unfold P. pose proof (find_define i new_value Hnew) as H.
      destruct (set_find _ _ _ _) as [j|]; [|done]. split; [done|]. intros Hi. destruct Hi.
      destruct H as [Hj <-]. by apply list_elem_of_fmap_2. }
    unfold returns. rewrite (for_each_filter _ P).
    2: { intros i Hi. unfold silence. destruct (set_find _ _ _ _) eqn:E; [done|]. by destruct Hi. }
    eapply returns_mono; [apply (for_each_names _ ld_name (fun i => silenced (ld_name i)))|].
    + intros i s2 [Hi _]%list_elem_of_filter Hs2. eapply returns_mono; [by apply silence_returns|].
      intros _ s3 (? & ? & Hsil). split_and!; try done. by apply Hsil.
    + intros. by eapply silenced_stable.
    + eapply sublist_NoDup; [apply (ordered_names old_value Hold)|]. by apply fmap_sublist, sublist_filter.
    + done.
    + intros _ s2 (Hs2 & Hsil & Happ & Hsame2). split; [done|].
      assert (Hkept : forall n, n ∈ names new_value -> same_logger n s1 s2).
      { intros n Hn. apply Hsame2. intros (i & -> & [Hi _]%list_elem_of_filter)%list_elem_of_fmap.
        by apply HP in Hi. }
      split_and!.
      * intros i Hi. apply (configured_same i s1); [|done|apply Hconf; by left].
        apply Hkept. by apply list_elem_of_fmap_2.
      * intros i Hi Hn. apply Hsil. left. apply list_elem_of_filter. by rewrite HP.
      * intros n Hn Ho. destruct (Hsame1 n Hn) as [E1 H1].
        destruct (Hsame2 n) as [E2 H2].
        { intros (i & -> & [_ Hi]%list_elem_of_filter)%list_elem_of_fmap. apply Ho.
          by apply list_elem_of_fmap_2. }
        split; [congruence|]. intros l x Hl Hx. apply H2; [congruence|]. by apply H1.
Qed.

(** a definition that stays what it was stops the listener at a null pointer: the
    branch for it is missing ([logger] is only set for a new or a changed definition).
    So a configuration in which one of several loggers is changed and a later one in
    the order of names is not cannot be loaded. *)
Theorem unchanged_define_faults old_value pre i post s (Hs : wf s)
    (Hold : ordered string_less ld_name old_value)
    (Hnew : ordered string_less ld_name (pre ++ i :: post))
    (Htypes : forall j, j ∈ pre -> Forall type_ok (ld_appenders j))
    (Hpre : forall j, j ∈ pre -> j ∉ old_value) (Hi : i ∈ old_value) :
  exists s', on_logger_conf_changed old_value (pre ++ i :: post) s = (Bad NullDeref, s').
Proof.
  unfold on_logger_conf_changed.
  assert (H : exists s', for_each (apply_define old_value) (pre ++ i :: post) s = (Bad NullDeref, s')).
  { clear Hnew. revert s Hs. induction pre as [|j pre IH]; intros s Hs.
    - exists s. cbn. apply st_bind_bad. unfold apply_define.
      pose proof (find_define i old_value Hold) as Hf.
      destruct (set_find _ _ _ _) as [j|].
      + destruct Hf as [Hj E]. rewrite decide_True; [done|]. symmetry.
        pose proof (ordered_names old_value Hold) as Hnd.
        apply list_elem_of_lookup in Hi as [k Hk]. apply list_elem_of_lookup in Hj as [m Hm].
        assert (m = k); [|congruence].
        apply (NoDup_lookup (ld_name <$> old_value) _ _ (ld_name i) Hnd);
          rewrite list_lookup_fmap, ?Hk, ?Hm; simpl; congruence.
      + destruct Hf. by apply list_elem_of_fmap_2.
    - destruct (apply_define_returns old_value j s Hs) as (u & s1 & E & Hs1 & _).
      + apply Htypes. by left.
      + intros k Hk <-. pose proof (find_define j old_value Hold) as Hf. rewrite Hk in Hf.
        apply (Hpre j); [by left|apply Hf].
      + destruct (IH ltac:(intros; apply Htypes; by right) ltac:(intros; apply Hpre; by right) s1 Hs1)
          as (s' & E'). exists s'. cbn [app for_each]. by rewrite (st_bind_val _ _ _ _ _ E). }
  destruct H as (s' & E). exists s'. by apply st_bind_bad.
Qed.

(** ** Logging *)

Definition lines (o : list output) : list (option string * string) :=
  omap (fun o => match o with Wrote file text => Some (file, text) | Opened _ => None end) o.

Section Routes.
Context (strftime : string -> Z -> string).

Definition file_of (y : LogAppender) : option string :=
  match a_kind y with StdoutLogAppender => None | FileLogAppender f _ => Some f end.

(** What an appender writes of an event. *)
Definition appender_lines (level : Z) (event : LogEvent) (y : LogAppender) : list (option string * string) :=
  if a_level y <=? level then
    match a_formatter y with
    | Some f => [(file_of y, LogFormatter_format strftime f level event)]
    | None => []
    end
  else [].

(** What the appenders of a logger write. *)
Definition direct_lines (s : Logs) (x : Logger) (level : Z) (event : LogEvent) :=
  if m_level x <=? level then
    concat ((fun a => default [] (appender_lines level event <$> appenders s !! a)) <$> m_appenders x)
  else [].

(** A logger without appenders writes what its root does, if both admit the level. *)
Definition log_lines (s : Logs) (x : Logger) (level : Z) (event : LogEvent) :=
  if decide (m_appenders x = []) then
    if m_level x <=? level then
      match m_root x ≫= fun r => loggers s !! r with
      | Some r => direct_lines s r level event
      | None => []
      end
    else []
  else direct_lines s x level event.

(** A file appender may have moved on to a new second. *)
Definition same_view (s s' : Logs) : Prop :=
  loggers s' = loggers s /\ m_loggers s' = m_loggers s /\ root s' = root s /\ fresh s' = fresh s /\
  forall a y, appenders s !! a = Some y -> exists y', appenders s' !! a = Some y' /\
    file_of y' = file_of y /\ a_level y' = a_level y /\ a_formatter y' = a_formatter y.

Lemma same_view_write s o : same_view s (write o s).
Proof. split_and!; try done. intros a y H. by exists y. Qed.
#[local] Instance same_view_refl : Reflexive same_view.
Proof. intros s. split_and!; try done. intros a y H. by exists y. Qed.
#[local] Instance same_view_trans : Transitive same_view.
Proof.
  intros s1 s2 s3 (L1 & N1 & R1 & F1 & A1) (L2 & N2 & R2 & F2 & A2).
  split_and!; try congruence. intros a y Ha. destruct (A1 a y Ha) as (y2 & H2 & ? & ? & ?).
  destruct (A2 a y2 H2) as (y3 & H3 & ? & ? & ?). exists y3. split_and!; congruence.
Qed.

Lemma same_lines s s' level event a :
  same_view s s' -> is_Some (appenders s !! a) ->
  appender_lines level event <$> appenders s' !! a = appender_lines level event <$> appenders s !! a.
Proof.
  intros (_ & _ & _ & _ & A) [y Ha]. destruct (A a y Ha) as (y' & Ha' & Ef & El & Em).
  rewrite Ha, Ha'. simpl. f_equal. unfold appender_lines. by rewrite Ef, El, Em.
Qed.

Lemma appender_log_returns now a level event s y :
  wf s -> appenders s !! a = Some y -> is_Some (a_formatter y) ->
  returns (appender_log strftime now a level event) s (fun _ s' => wf s' /\ same_view s s' /\
    lines (written s') = lines (written s) ++ appender_lines level event y)%list.
Proof.
  intros Hs Ha [f Hf]. apply returns_bind. eapply returns_val; [unfold appender_at; by rewrite Ha|].
  unfold appender_lines. rewrite Hf. destruct (a_level y <=? level).
  2: { apply returns_ret. by rewrite app_nil_r. }
  unfold file_of. destruct (a_kind y) as [|file last] eqn:Ek.
  - apply returns_bind. eapply returns_lift; [reflexivity|]. apply returns_modify.
    split; [by apply wf_write|]. split; [apply same_view_write|]. unfold write, lines. simpl. by rewrite omap_app.
  - apply returns_bind. apply (returns_mono _ _ (fun _ s1 => wf s1 /\ same_view s s1 /\
      lines (written s1) = lines (written s))).
    + destruct (now =? last); [by apply returns_ret|].
      apply returns_bind, returns_modify.
      eapply returns_val; [by apply (update_appender_val _ _ y)|]. split.
      * apply wf_set_appender; [by apply wf_write|exact (wf_appenders s Hs a y Ha)|by rewrite Hf].
      * split; [|unfold lines; simpl; rewrite omap_app; simpl; by rewrite app_nil_r].
        split_and!; try done. intros b z Hb. simpl. destruct (decide (b = a)) as [->|Hne].
        -- rewrite lookup_insert_eq. eexists. split; [done|]. simplify_eq. unfold file_of. by rewrite Ek.
        -- rewrite lookup_insert_ne by done. by exists z.
    + intros _ s1 (Hs1 & Hv1 & El). apply returns_bind. eapply returns_lift; [reflexivity|].
      apply returns_modify. split; [by apply wf_write|].
      split; [by etrans; [|apply same_view_write]|].
      unfold lines in *. simpl. rewrite omap_app, El. done.
Qed.

Lemma log_all_returns now l level event s :
  wf s -> (forall a, a ∈ l -> exists y, appenders s !! a = Some y /\ is_Some (a_formatter y)) ->
  returns (log_all strftime now l level event) s (fun _ s' => wf s' /\ same_view s s' /\
    lines (written s') = lines (written s) ++
      concat ((fun a => default [] (appender_lines level event <$> appenders s !! a)) <$> l))%list.
Proof.
  revert s. induction l as [|a l IH]; intros s Hs Hl.
  { apply returns_ret. by rewrite app_nil_r. }
  destruct (Hl a ltac:(by left)) as (y & Ha & Hf).
  apply returns_bind. eapply returns_mono; [by apply (appender_log_returns now a level event s y)|].
  intros _ s1 (Hs1 & Hv & E1). eapply returns_mono; [apply IH; [done|]|].
  - intros b Hb. destruct (Hl b ltac:(by right)) as (z & Hz & Hzf).
    destruct Hv as (_ & _ & _ & _ & A). destruct (A b z Hz) as (z' & Hz' & _ & _ & Ez).
    exists z'. by rewrite Ez.
  - intros _ s2 (Hs2 & Hv2 & E2). split; [done|]. split; [by etrans|].
    rewrite E2, E1, <- app_assoc, fmap_cons. simpl concat. rewrite Ha. simpl. do 3 f_equal.
    apply list_fmap_ext. intros i b Hb. apply list_elem_of_lookup_2 in Hb.
    destruct (Hl b ltac:(by right)) as (z & Hz & _). f_equal. by apply same_lines.
Qed.

(** C24: logging. From a state in which the invariant holds, a log statement returns,
    keeps it, and writes what it should: nothing below the level of the logger; else a
    line for each of its appenders whose level admits it, in their order, formatted with
    the formatter of the appender; and a logger without appenders writes what the root
    logger writes, if that admits the level too. *)
Theorem log_routes now l x level event s (Hs : wf s) (Hx : loggers s !! l = Some x) :
  returns (log_macro strftime now l level event) s (fun _ s' => wf s' /\ same_view s s' /\
    lines (written s') = lines (written s) ++ log_lines s x level (event (m_name x)))%list.
Proof.
  assert (Hnop : forall m, m = [] -> returns (mret tt) s (fun (_ : unit) s' => wf s' /\ same_view s s' /\
    lines (written s') = lines (written s) ++ m)%list).
  { intros m ->. apply returns_ret. by rewrite app_nil_r. }
  assert (Hat : forall l x, loggers s !! l = Some x -> logger_at l s = (Val x, s))
    by (intros k z Hz; unfold logger_at; by rewrite Hz).
  apply returns_bind, (returns_val _ _ _ _ _ (Hat l x Hx)). unfold log_lines, direct_lines.
  destruct (m_level x <=? level) eqn:El.
  2: { apply Hnop. by case_decide. }
  cbn [Logger_log]. apply returns_bind, (returns_val _ _ _ _ _ (Hat l x Hx)). rewrite El.
  destruct (wf_loggers s Hs l x Hx) as (_ & _ & Hr & Happ). case_decide.
  - destruct Hr as [-> | ->]; [by apply Hnop|]. destruct (wf_root s Hs) as (r & Hroot & Hrr).
    simpl. rewrite Hroot. apply returns_bind, (returns_val _ _ _ _ _ (Hat _ r Hroot)).
    destruct (m_level r <=? level); [|by apply Hnop].
    destruct (wf_loggers s Hs _ r Hroot) as (_ & _ & _ & Hrapp). case_decide as Hnil.
    + rewrite Hrr. apply Hnop. by rewrite Hnil.
    + by apply log_all_returns.
  - by apply log_all_returns.
Qed.
End Routes.

(** ** The state of a new manager, and witnesses *)

Definition started (f : LogFormatter) : Logs :=
  mkLogs {[ 0%nat := mkLogger "root" 1 [1%nat] (Some f) None ]}
    {[ 1%nat := mkAppender StdoutLogAppender 1 (Some f) ]} {[ "root" := 0%nat ]} 0 2 [].

Lemma manager_started :
  exists f, LogFormatter_new default_pattern = Val f /\ LoggerManager_new = Val (started f).
Proof.
  destruct (formatter_returns default_pattern) as (f & E & _). exists f. split; [done|].
  unfold LoggerManager_new, Logger_new. rewrite E. cbn [mbind res_bind].
  erewrite addAppender_val; [|reflexivity..].
  unfold started, set_loggers, set_appenders. simpl. by rewrite !insert_singleton_eq.
Qed.

Lemma started_wf f : wf (started f).
Proof.
  split; unfold started; cbn [loggers appenders m_loggers root fresh].
  - intros n l [<- <-]%lookup_singleton_Some. eexists. by rewrite lookup_singleton_eq.
  - intros l x [<- <-]%lookup_singleton_Some. split_and!; [lia|done|by left|].
    intros a ->%list_elem_of_singleton. eexists. by rewrite lookup_singleton_eq.
  - intros a y [<- _]%lookup_singleton_Some. lia.
  - eexists. by rewrite lookup_singleton_eq.
Qed.

Definition demo_define (level : Z) : LogDefine :=
  mkDefine "http" level "%p %m%n" [mkAppenderDefine 1 4 "" "http.log"; mkAppenderDefine 2 1 "%m%n" ""].
Definition other_define : LogDefine := mkDefine "system" 2 "" [].

Lemma config_applied_witness :
  exists s', (on_logger_conf_changed [other_define] [demo_define 3] (started (mkFormatter "" [] false))).2 = s'
    /\ configured (demo_define 3) s' /\ silenced "system" s'.
Proof.
  destruct (config_applied [other_define] [demo_define 3] (started (mkFormatter "" [] false)))
    as (u & s' & E & _ & Hc & Hs & _).
  - apply started_wf.
  - unfold ordered. repeat constructor.
  - unfold ordered. repeat constructor.
  - intros i ->%list_elem_of_singleton. constructor; [by left|]. constructor; [by right|constructor].
  - intros i ->%list_elem_of_singleton H%list_elem_of_singleton. by vm_compute in H.
  - exists s'. rewrite E. split; [done|]. split; [apply Hc; by left|].
    apply (Hs other_define); [by left|]. intros H%list_elem_of_singleton. by vm_compute in H.
Defined.

Lemma unchanged_define_faults_witness : exists s',
  on_logger_conf_changed [demo_define 3; other_define] [demo_define 4; other_define]
    (started (mkFormatter "" [] false)) = (Bad NullDeref, s').
Proof.
  apply (unchanged_define_faults [demo_define 3; other_define] [demo_define 4] other_define []).
  - apply started_wf.
  - unfold ordered. repeat constructor.
  - unfold ordered. repeat constructor.
  - intros i ->%list_elem_of_singleton. constructor; [by left|]. constructor; [by right|constructor].
  - intros i ->%list_elem_of_singleton. rewrite elem_of_cons, list_elem_of_singleton.
    intros [H|H]; by vm_compute in H.
  - right. by left.
Defined.

Definition demo_event (name : string) : LogEvent :=
  mkEvent "a.cpp" 7 0 100 0 0 "main" "hello" name.

Lemma log_routes_witness :
  exists s', (log_macro (fun _ _ => "") 1 0 3 demo_event
      (started (mkFormatter "%p %m" [LevelFormatItem; StringFormatItem " "; MessageFormatItem] false))).2 = s'
    /\ lines (written s') = [(None, "WARN hello")].
Proof.
  destruct (log_routes (fun _ _ => "") 1 0 (mkLogger "root" 1 [1%nat]
      (Some (mkFormatter "%p %m" [LevelFormatItem; StringFormatItem " "; MessageFormatItem] false)) None)
    3 demo_event _ (started_wf (mkFormatter "%p %m" _ false)) eq_refl)
    as (u & s' & E & _ & _ & El).
  exists s'. rewrite E. split; [done|]. exact El.
Defined.
