(* ===== verification/Config.v ===== *)
(** * Configuration (config.h, config.cpp)

    [ConfigVar<T>] with its listeners, the registry of [Config], and [LoadFromYaml].
    The types [T] the program instantiates are a parameter: a set of type codes with
    their values, equality and conversions ([FromStr], [ToStr]); so are YAML nodes, of a
    third-party library. Variables are shared by pointers, so the state holds a store;
    listeners act on the rest of the program, [W]. The theorems: a pointer got from
    [Lookup<T>] stays one to a variable of type [T]; what [ListAllMember] lists; what a
    YAML document does to the variables. *)
From stdpp Require Import base tactics option list strings pretty gmap numbers sorting.
From S2P Require Import Prelude OrdSet CString LogFormat.

Open Scope string_scope.
Open Scope Z_scope.

(** [YAML::Node]: the queries the code makes; [members] are the pairs in the order of
    the iterators, [emitted] is what [ss << node] writes. *)
Class YamlNode (node : Type) := {
  IsMap : node -> bool;
  IsScalar : node -> bool;
  Scalar : node -> string;
  members : node -> list (node * node);
  emitted : node -> string
}.

(** The types of configuration variables: codes, values, [operator==], [FromStr], [ToStr]. *)
Class ConfigTypes (ty : Type) := {
  den : ty -> Type;
  eqb : forall t, den t -> den t -> bool;
  from_str : forall t, string -> res (den t);
  to_str : forall t, den t -> res string
}.
Arguments eqb {ty _} t _ _.
Arguments from_str {ty _} t _.
Arguments to_str {ty _} t _.

(** [find_first_not_of("abcdefghikjlmnopqrstuvwxyz._0123456789") == npos] *)
Definition name_set : string := "abcdefghikjlmnopqrstuvwxyz._0123456789".
Fixpoint in_set (set : string) (c : Ascii.ascii) : bool :=
  match set with EmptyString => false | String d set => bool_decide (c = d) || in_set set c end.
Definition valid_name (name : string) : bool := chars (in_set name_set) name.

(** [std::transform(..., ::tolower)] *)
Definition lower (s : string) : string :=
  string_map (fun c => Ascii.ascii_of_N (Z.to_N (tolower (code c)))) s.

Section Config.
Context {ty : Type} `{!EqDecision ty} `{!ConfigTypes ty} {W : Type}.

Definition on_change_cb (t : ty) : Type := den t -> den t -> ST W unit.

Record ConfigVar (t : ty) := mkVar {
  m_name : string;
  m_description : string;
  m_val : den t;
  m_cbs : list (Z * on_change_cb t)     (* std::map<uint64_t, on_change_cb> *)
}.
#[global] Arguments mkVar {t} _ _ _ _.
#[global] Arguments m_name {t} _.
#[global] Arguments m_description {t} _.
#[global] Arguments m_val {t} _.
#[global] Arguments m_cbs {t} _.

(** A [ConfigVarBase]: a variable with its dynamic type. *)
Record ConfigVarBase := anyVar { v_type : ty; v_var : ConfigVar v_type }.

(** The variables by address, [s_datas], [s_fun_id] of each type, the next address, and
    the rest of the program. *)
Record Config := mkConfig {
  vars : gmap nat ConfigVarBase;
  s_datas : gmap string nat;
  s_fun_id : ty -> Z;
  fresh : nat;
  world : W
}.

Definition set_vars f (s : Config) := mkConfig (f (vars s)) (s_datas s) (s_fun_id s) (fresh s) (world s).
Definition set_ids f (s : Config) := mkConfig (vars s) (s_datas s) f (fresh s) (world s).
Definition set_world w (s : Config) := mkConfig (vars s) (s_datas s) (s_fun_id s) (fresh s) w.

(** [std::dynamic_pointer_cast<ConfigVar<T>>] *)
Definition cast (t : ty) (v : ConfigVarBase) : option (ConfigVar t) :=
  match decide (v_type v = t) with
  | left e => Some (eq_rect _ ConfigVar (v_var v) _ e)
  | right _ => None
  end.

(** A [ConfigVar<T>*] that is followed; that it points to a [ConfigVar<T>] is the
    first theorem. *)
Definition var_at (t : ty) (a : nat) : ST Config (ConfigVar t) := fun s =>
  (deref NullDeref (vars s !! a ≫= cast t), s).
Definition base_at (a : nat) : ST Config ConfigVarBase := fun s => (deref NullDeref (vars s !! a), s).
Definition put {t} (a : nat) (v : ConfigVar t) : ST Config unit :=
  modify (set_vars <[a := anyVar t v]>).

(** ** ConfigVar *)

Definition getValue (t : ty) (a : nat) : ST Config (den t) := v ← var_at t a; mret (m_val v).

(** [for(auto& i : m_cbs) i.second(m_val, v)] *)
Fixpoint notify {t} (cbs : list (Z * on_change_cb t)) (old new : den t) : ST W unit :=
  match cbs with [] => mret tt | i :: cbs => i.2 old new;; notify cbs old new end.

(** A computation of the rest of the program. *)
Definition in_world {A} (m : ST W A) : ST Config A := fun s =>
  let '(r, w) := m (world s) in (r, set_world w s).

Definition set_val {t} (x : den t) (v : ConfigVar t) : ConfigVar t :=
  mkVar (m_name v) (m_description v) x (m_cbs v).
Definition set_cbs {t} cbs (v : ConfigVar t) : ConfigVar t :=
  mkVar (m_name v) (m_description v) (m_val v) cbs.

Definition setValue (t : ty) (a : nat) (x : den t) : ST Config unit :=
  v ← var_at t a;
  if eqb t x (m_val v) then mret tt
  else in_world (notify (m_cbs v) (m_val v) x);; put a (set_val x v).

(** [try { ... } catch(std::exception&)] *)
Definition try_catch {A} (m h : ST Config A) : ST Config A := fun s =>
  match m s with
  | (Exc _, s') => h s'
  | r => r
  end.

(** The virtual [fromString], [toString] of a variable of any type. *)
Definition fromString (a : nat) (val : string) : ST Config bool :=
  v ← base_at a;
  try_catch (x ← lift (from_str (v_type v) val); setValue (v_type v) a x;; mret true) (mret false).
Definition toString (a : nat) : ST Config string :=
  v ← base_at a;
  try_catch (lift (to_str (v_type v) (m_val (v_var v)))) (mret "").

Definition addListener (t : ty) (a : nat) (cb : on_change_cb t) : ST Config Z :=
  v ← var_at t a;
  id ← gets (fun s => s_fun_id s t);
  let id := u64 (id + 1) in
  modify (fun s => set_ids (fun t' => if decide (t' = t) then id else s_fun_id s t') s);;
  put a (set_cbs (map_assign Z.ltb id cb (m_cbs v)) v);; mret id.
Definition delListener (t : ty) (a : nat) (key : Z) : ST Config unit :=
  v ← var_at t a; put a (set_cbs (set_erase Z.ltb fst key (m_cbs v)) v).
Definition getListener (t : ty) (a : nat) (key : Z) : ST Config (option (on_change_cb t)) :=
  v ← var_at t a; mret (snd <$> set_find Z.ltb fst key (m_cbs v)).
Definition clearListener (t : ty) (a : nat) : ST Config unit :=
  v ← var_at t a; put a (set_cbs [] v).

(** ** The registry *)

(** [Config::Lookup<T>(name, default_value, description)]: null if the name is taken by a
    variable of another type. *)
Definition Lookup (t : ty) (name : string) (default_value : den t) (description : string) :
    ST Config (option nat) :=
  it ← gets (fun s => s_datas s !! name);
  match it with
  | Some a =>
      v ← base_at a;
      mret (match cast t v with Some _ => Some a | None => None end)
  | None =>
      if negb (valid_name name) then throw invalid_argument else
      a ← gets fresh;
      modify (fun s => mkConfig (<[a := anyVar t (mkVar (lower name) description default_value [])]> (vars s))
        (<[name := a]> (s_datas s)) (s_fun_id s) (S a) (world s));;
      mret (Some a)
  end.

(** [Config::Lookup<T>(name)] *)
Definition Lookup_name (t : ty) (name : string) : ST Config (option nat) :=
  it ← gets (fun s => s_datas s !! name);
  match it with
  | None => mret None
  | Some a => v ← base_at a; mret (match cast t v with Some _ => Some a | None => None end)
  end.

Definition LookupBase (name : string) : ST Config (option nat) := gets (fun s => s_datas s !! name).

(** ** YAML *)
Section Yaml.
Context {node : Type} `{!YamlNode node}.

(** [prefix.empty() ? key : prefix + "." + key] *)
Definition path (prefix key : string) : string :=
  if decide (prefix = "") then key else prefix ++ "." ++ key.

(** [ListAllMember(prefix, node, output)]: what it appends. The fuel bounds the depth. *)
Fixpoint ListAllMember (fuel : nat) (prefix : string) (n : node) : res (list (string * node)) :=
  match fuel with
  | O => Bad NoFuel
  | S fuel =>
      if negb (valid_name prefix) then Val [] else
      if IsMap n then
        rest ← (fix go (l : list (node * node)) : res (list (string * node)) :=
          match l with
          | [] => Val []
          | (k, v) :: l =>
              x ← ListAllMember fuel (path prefix (Scalar k)) v; y ← go l; Val (x ++ y)%list
          end) (members n);
        Val ((prefix, n) :: rest)
      else Val [(prefix, n)]
  end.

(** The body of the loop of [LoadFromYaml]. *)
Definition load_node (i : string * node) : ST Config unit :=
  if decide (i.1 = "") then mret tt else
  var ← LookupBase (lower i.1);
  match var with
  | Some a =>
      (if IsScalar i.2 then fromString a (Scalar i.2) else fromString a (emitted i.2));; mret tt
  | None => mret tt
  end.
Fixpoint load_nodes (l : list (string * node)) : ST Config unit :=
  match l with [] => mret tt | i :: l => load_node i;; load_nodes l end.

Definition LoadFromYaml (fuel : nat) (root : node) : ST Config unit :=
  all_nodes ← lift (ListAllMember fuel "" root); load_nodes all_nodes.
End Yaml.
End Config.

(** ** Types *)

Lemma in_set_lower c :
  in_set name_set c = true -> Ascii.ascii_of_N (Z.to_N (tolower (code c))) = c.
Proof.
  destruct c as [[] [] [] [] [] [] [] []]; vm_compute; done.
Qed.

Lemma lower_valid s : valid_name s = true -> lower s = s.
Proof.
  unfold valid_name, lower. induction s as [|c s IH]; [done|].
  intros [Hc Hs]%andb_true_iff. cbn [string_map]. by rewrite in_set_lower, IH.
Qed.

Section Types.
Context {ty : Type} `{!EqDecision ty} `{!ConfigTypes ty} {W : Type}.
Implicit Types s : Config (ty := ty) (W := W).
Local Abbreviation var := (ConfigVar (W := W)).

Lemma cast_same t (v : var t) : cast t (anyVar t v) = Some v.
Proof.
  unfold cast. simpl. destruct (decide (t = t)) as [e|]; [|done]. by rewrite (proof_irrel e eq_refl).
Qed.

Lemma cast_Some t b (v : var t) : cast t b = Some v -> b = anyVar t v.
Proof.
  destruct b as [t' v']. unfold cast. simpl. destruct (decide (t' = t)) as [e|]; [|done].
  destruct e. by intros [= ->].
Qed.

Lemma cast_other t t' (v : var t') : t <> t' -> cast t (anyVar t' v) = None.
Proof. intros H. unfold cast. simpl. by destruct (decide (t' = t)). Qed.

(** The address holds a variable of the type. *)
Definition typed s (a : nat) (t : ty) : Prop := exists v : var t, vars s !! a = Some (anyVar t v).

(** Registered names are those of live variables; new addresses are new. *)
Definition wf s : Prop :=
  (forall n a, s_datas s !! n = Some a ->
     valid_name n = true /\ exists t (v : var t), vars s !! a = Some (anyVar t v) /\ m_name v = n) /\
  (forall a, is_Some (vars s !! a) -> (a < fresh s)%nat).

(** What no operation takes back. *)
Definition extends s s' : Prop :=
  wf s -> wf s' /\ (forall a t, typed s a t -> typed s' a t) /\
  (forall n a, s_datas s !! n = Some a -> s_datas s' !! n = Some a).

#[local] Instance extends_refl : Reflexive extends.
Proof. by intros s. Qed.
#[local] Instance extends_trans : Transitive extends.
Proof.
  intros s1 s2 s3 H1 H2 Hw. destruct (H1 Hw) as (W1 & T1 & N1). destruct (H2 W1) as (W2 & T2 & N2).
  split_and!; eauto.
Qed.

(** The operation, however it ends, extends the state. *)
Definition monotone {A} (m : ST (Config (ty := ty) (W := W)) A) : Prop := forall s, extends s (m s).2.

Lemma monotone_bind {A B} (m : ST _ A) (k : A -> ST _ B) :
  monotone m -> (forall a, monotone (k a)) -> monotone (m ≫= k).
Proof.
  intros Hm Hk s. unfold mbind, st_bind. specialize (Hm s). destruct (m s) as [[a|e|f] s1]; simpl in *;
    [|done..]. etrans; [done|]. apply Hk.
Qed.

(** The operations that change nothing. *)
Definition readonly {A} (m : ST (Config (ty := ty) (W := W)) A) : Prop := forall s, (m s).2 = s.
Lemma readonly_monotone {A} (m : ST _ A) : readonly m -> monotone m.
Proof. intros H s. by rewrite H. Qed.

Lemma anyVar_inj t t' (v : var t) (w : var t') :
  anyVar t v = anyVar t' w -> exists e : t = t', eq_rect _ var v _ e = w.
Proof.
  intros E. assert (Ht : t = t') by exact (f_equal v_type E). subst t'. exists eq_refl.
  apply (f_equal (cast t)) in E. rewrite !cast_same in E. by injection E.
Qed.

Lemma same_type s a t t' (v : var t) (w : var t') :
  vars s !! a = Some (anyVar t v) -> vars s !! a = Some (anyVar t' w) ->
  exists e : t = t', eq_rect _ var v _ e = w.
Proof. intros Hv Hw. apply anyVar_inj, (inj Some). by rewrite <- Hv, <- Hw. Qed.

Lemma extends_put s t a (v0 v : var t) :
  vars s !! a = Some (anyVar t v0) -> m_name v = m_name v0 -> extends s (put a v s).2.
Proof.
  intros Ha Hn [H1 H2]. simpl. split_and!; simpl.
  - split; simpl.
    + intros n b Hb. destruct (H1 n b Hb) as (Hv & t' & w & Hw & Ew). split; [done|].
      destruct (decide (b = a)) as [->|Hne].
      * destruct (same_type s a _ _ _ _ Ha Hw) as [e Er]. subst t'. simpl in Er. subst w.
        rewrite lookup_insert_eq. exists t, v. by rewrite Hn.
      * rewrite lookup_insert_ne by done. by exists t', w.
    + intros b Hb. destruct (decide (b = a)) as [->|Hne]; [by apply H2; exists (anyVar t v0)|].
      rewrite lookup_insert_ne in Hb by done. by apply H2.
  - intros b t' [w Hw]. unfold typed. simpl. destruct (decide (b = a)) as [->|Hne].
    + destruct (same_type s a _ _ _ _ Ha Hw) as [e _]. subst t'. rewrite lookup_insert_eq. by exists v.
    + rewrite lookup_insert_ne by done. by exists w.
  - done.
Qed.

Lemma var_at_typed t a s :
  match var_at t a s with
  | (Val v, s') => s' = s /\ vars s !! a = Some (anyVar t v)
  | (Exc _, _) => False
  | (Bad _, s') => s' = s /\ ~ typed s a t
  end.
Proof.
  unfold var_at. destruct (vars s !! a) as [b|] eqn:E; simpl.
  - destruct (cast t b) as [v|] eqn:Ec; simpl.
    + apply cast_Some in Ec. by subst b.
    + split; [done|]. intros [v Hv]. rewrite E in Hv. injection Hv as ->. by rewrite cast_same in Ec.
  - split; [done|]. intros [v Hv]. congruence.
Qed.

(** A method that looks its variable up and puts a changed one. *)
Lemma monotone_var {A} t a (k : var t -> ST _ A) :
  (forall v s, vars s !! a = Some (anyVar t v) -> extends s (k v s).2) -> monotone (v ← var_at t a; k v).
Proof.
  intros Hk s. unfold mbind, st_bind. pose proof (var_at_typed t a s) as H.
  destruct (var_at t a s) as [[v|e|f] s1]; [|done|by destruct H as [-> _]].
  destruct H as [-> Hv]. by apply Hk.
Qed.

Lemma readonly_var {A} t a (k : var t -> ST _ A) :
  (forall v, readonly (k v)) -> readonly (v ← var_at t a; k v).
Proof.
  intros Hk s. unfold mbind, st_bind. pose proof (var_at_typed t a s) as H.
  destruct (var_at t a s) as [[v|e|f] s1]; [|done|by destruct H as [-> _]].
  destruct H as [-> _]. apply Hk.
Qed.

Lemma setValue_monotone t a x : monotone (setValue t a x).
Proof.
  apply monotone_var. intros v s Hv. destruct (eqb t x (m_val v)); [done|].
  unfold mbind, st_bind, in_world. destruct (notify _ _ _ (world s)) as [[u|e|f] w]; [|done..].
  transitivity (set_world w s); [done|]. by apply (extends_put (set_world w s) t a v).
Qed.

Lemma fromString_monotone a val : monotone (fromString a val).
Proof.
  intros s. unfold fromString. unfold mbind at 1, st_bind at 1, base_at.
  destruct (vars s !! a) as [b|]; [|done]. cbn [deref]. unfold try_catch.
  assert (H : extends s ((x ← lift (from_str (v_type b) val); setValue (v_type b) a x;; mret true) s).2).
  { apply monotone_bind; [by apply readonly_monotone|]. intros x.
    apply monotone_bind; [apply setValue_monotone|]. intros _. by apply readonly_monotone. }
  match type of H with extends _ (?m s).2 => by destruct (m s) as [[u|e|f] s1] end.
Qed.

Lemma addListener_monotone t a cb : monotone (addListener t a cb).
Proof.
  apply monotone_var. intros v s Hv.
  set (f := fun t' => if decide (t' = t) then u64 (s_fun_id s t + 1) else s_fun_id s t').
  transitivity (set_ids f s); [done|]. by apply (extends_put (set_ids f s) t a v).
Qed.
Lemma delListener_monotone t a key : monotone (delListener t a key).
Proof. apply monotone_var. intros v s Hv. by apply (extends_put _ t a v). Qed.
Lemma clearListener_monotone t a : monotone (clearListener t a).
Proof. apply monotone_var. intros v s Hv. by apply (extends_put _ t a v). Qed.

Lemma Lookup_monotone t name d desc : monotone (Lookup t name d desc).
Proof.
  intros s. unfold Lookup. unfold mbind at 1, st_bind at 1, gets.
  destruct (s_datas s !! name) as [a|] eqn:Hn.
  { unfold base_at, mbind, st_bind. by destruct (vars s !! a). }
  destruct (valid_name name) eqn:Hv; [|done]. simpl. intros [H1 H2].
  assert (Hnew : vars s !! fresh s = None).
  { apply eq_None_not_Some. intros Hs. apply H2 in Hs. lia. }
  split_and!; [split|..]; simpl.
  - intros n b Hb. destruct (decide (n = name)) as [->|Hne].
    + rewrite lookup_insert_eq in Hb. injection Hb as <-. split; [done|].
      eexists t, _. rewrite lookup_insert_eq. split; [reflexivity|]. by apply lower_valid.
    + rewrite lookup_insert_ne in Hb by done. destruct (H1 n b Hb) as (Hv' & t' & w & Hw & Ew).
      split; [done|]. exists t', w. rewrite lookup_insert_ne by congruence. done.
  - intros b Hb. destruct (decide (b = fresh s)) as [->|Hne]; [lia|].
    rewrite lookup_insert_ne in Hb by done. apply H2 in Hb. lia.
  - intros b t' [w Hw]. exists w. simpl. rewrite lookup_insert_ne by congruence. done.
  - intros n b Hb. rewrite lookup_insert_ne by congruence. done.
Qed.

Lemma load_node_monotone {node} `{!YamlNode node} (i : string * node) : monotone (load_node i).
Proof.
  intros s. unfold load_node. destruct (decide (i.1 = "")); [done|].
  unfold mbind at 1, st_bind at 1, LookupBase, gets. destruct (s_datas s !! lower i.1) as [a|]; [|done].
  apply monotone_bind; [|intros _; by apply readonly_monotone].
  destruct (IsScalar i.2); apply fromString_monotone.
Qed.

Lemma LoadFromYaml_monotone {node} `{!YamlNode node} fuel (root : node) : monotone (LoadFromYaml fuel root).
Proof.
  apply monotone_bind; [by apply readonly_monotone|]. intros l.
  induction l as [|i l IH]; [by apply readonly_monotone|].
  apply monotone_bind; [apply load_node_monotone|done].
Qed.

(** The operations a program makes, with any results. *)
Inductive operation (node : Type) :=
  | OpLookup (t : ty) (name : string) (default_value : den t) (description : string)
  | OpLookup_name (t : ty) (name : string)
  | OpGetValue (t : ty) (a : nat)
  | OpSetValue (t : ty) (a : nat) (x : den t)
  | OpFromString (a : nat) (val : string)
  | OpToString (a : nat)
  | OpAddListener (t : ty) (a : nat) (cb : on_change_cb (W := W) t)
  | OpDelListener (t : ty) (a : nat) (key : Z)
  | OpGetListener (t : ty) (a : nat) (key : Z)
  | OpClearListener (t : ty) (a : nat)
  | OpLoadFromYaml (fuel : nat) (root : node).

Definition perform {node} `{!YamlNode node} (o : operation node) (s : Config (W := W)) : Config :=
  match o with
  | OpLookup _ t n d desc => (Lookup t n d desc s).2
  | OpLookup_name _ t n => (Lookup_name t n s).2
  | OpGetValue _ t a => (getValue t a s).2
  | OpSetValue _ t a x => (setValue t a x s).2
  | OpFromString _ a v => (fromString a v s).2
  | OpToString _ a => (toString a s).2
  | OpAddListener _ t a cb => (addListener t a cb s).2
  | OpDelListener _ t a key => (delListener t a key s).2
  | OpGetListener _ t a key => (getListener t a key s).2
  | OpClearListener _ t a => (clearListener t a s).2
  | OpLoadFromYaml _ fuel root => (LoadFromYaml fuel root s).2
  end.

Lemma perform_extends {node} `{!YamlNode node} (o : operation node) s : extends s (perform o s).
Proof.
  destruct o; simpl.
  - apply Lookup_monotone.
  - apply readonly_monotone. clear s. intros s. unfold Lookup_name, mbind, st_bind, gets, base_at.
    destruct (s_datas s !! name) as [a|]; [|done]. by destruct (vars s !! a).
  - apply readonly_monotone. by apply readonly_var.
  - apply setValue_monotone.
  - apply fromString_monotone.
  - apply readonly_monotone. clear s. intros s. unfold toString, mbind, st_bind, base_at, try_catch, lift.
    destruct (vars s !! a) as [b|]; [|done]. simpl. by destruct (to_str _ _).
  - apply addListener_monotone.
  - apply delListener_monotone.
  - apply readonly_monotone. by apply readonly_var.
  - apply clearListener_monotone.
  - apply LoadFromYaml_monotone.
Qed.

Lemma Lookup_spec t name d desc s :
  wf s ->
  match Lookup t name d desc s with
  | (Val (Some a), s') => typed s' a t /\ s_datas s' !! name = Some a /\
      match s_datas s !! name with
      | Some _ => s' = s
      | None => valid_name name = true /\ vars s' !! a = Some (anyVar t (mkVar name desc d []))
      end
  | (Val None, s') => s' = s /\ exists a t', s_datas s !! name = Some a /\ typed s a t' /\ t' <> t
  | (Exc e, s') => s' = s /\ e = invalid_argument /\ valid_name name = false
  | (Bad _, _) => False
  end.
Proof.
  intros [H1 H2]. unfold Lookup. unfold mbind at 1, st_bind at 1, gets.
  destruct (s_datas s !! name) as [a|] eqn:Hn.
  - destruct (H1 name a Hn) as (_ & t' & w & Hw & _).
    unfold base_at, mbind, st_bind. rewrite Hw. simpl.
    destruct (decide (t = t')) as [<-|Hne].
    + rewrite cast_same. split_and!; try done. by exists w.
    + rewrite cast_other by done. split; [done|]. exists a, t'. split_and!; try done. by exists w.
  - destruct (valid_name name) eqn:Hv; [|done]. simpl.
    rewrite !lookup_insert_eq. unfold typed. simpl. rewrite lookup_insert_eq, lower_valid by done.
    split_and!; try done. by eexists.
Qed.

Lemma Lookup_free t name d desc s :
  s_datas s !! name = None ->
  if valid_name name then
    exists s', Lookup t name d desc s = (Val (Some (fresh s)), s') /\
      s_datas s' = <[name := fresh s]> (s_datas s) /\ getValue t (fresh s) s' = (Val d, s')
  else Lookup t name d desc s = (Exc invalid_argument, s).
Proof.
  intros Hn. unfold Lookup. rewrite gets_bind, Hn. destruct (valid_name name); simpl; [|done].
  eexists. split; [reflexivity|]. split; [done|].
  unfold getValue, mbind, st_bind, var_at. simpl. by rewrite lookup_insert_eq; simpl; rewrite cast_same.
Qed.

(** C21: configuration variables keep their types. Whatever operations follow, a pointer
    that [Lookup<T>(name)] returned points to the variable registered under that name, of
    type [T], so [getValue] and [setValue] through it follow no pointer of a wrong type,
    and from then on [Lookup] of the name gives this pointer for [T] and null for every
    other type; a name that is taken keeps its value, whatever the default. At any such time
    a name that is not taken is registered with the default as its value if all its
    characters are of the set, and refused by the exception [invalid_argument], without any
    effect, if not. *)
Theorem types_stable {node} `{!YamlNode node} t name d desc s a s1 (ops : list (operation node))
    (Hs : wf s) (Hlookup : Lookup t name d desc s = (Val (Some a), s1)) :
  let s2 := fold_left (fun s o => perform o s) ops s1 in
  typed s2 a t /\ wf s2 /\ (exists x, getValue t a s2 = (Val x, s2)) /\
  (forall d' desc', Lookup t name d' desc' s2 = (Val (Some a), s2)) /\
  (forall t' d' desc', t' <> t -> Lookup t' name d' desc' s2 = (Val None, s2)) /\
  valid_name name = true /\
  (forall t' name' d' desc', s_datas s2 !! name' = None ->
   if valid_name name' then
     exists s3, Lookup t' name' d' desc' s2 = (Val (Some (fresh s2)), s3) /\
       s_datas s3 = <[name' := fresh s2]> (s_datas s2) /\ getValue t' (fresh s2) s3 = (Val d', s3)
   else Lookup t' name' d' desc' s2 = (Exc invalid_argument, s2)).
Proof.
  intros s2. pose proof (Lookup_spec t name d desc s Hs) as H. rewrite Hlookup in H.
  destruct H as (Ht & Hn & _). pose proof (Lookup_monotone t name d desc s Hs) as (Hw & _).
  rewrite Hlookup in Hw. simpl in Hw.
  assert (He : extends s1 s2).
  { unfold s2. clear. revert s1. induction ops as [|o ops IH]; intros s1; [done|]. simpl.
    etrans; [apply perform_extends|apply IH]. }
  destruct (He Hw) as (Hw2 & HT & HN). apply HT in Ht as Ht2. apply HN in Hn as Hn2.
  destruct Ht2 as [v Hv]. split_and!; try done.
  - by exists v.
  - exists (m_val v). unfold getValue, mbind, st_bind, var_at. rewrite Hv. simpl. by rewrite cast_same.
  - intros d' desc'. unfold Lookup, mbind, st_bind, gets, base_at. rewrite Hn2, Hv. simpl.
    by rewrite cast_same.
  - intros t' d' desc' Hne. unfold Lookup, mbind, st_bind, gets, base_at. rewrite Hn2, Hv. simpl.
    by rewrite cast_other.
  - by destruct (proj1 Hw2 name a Hn2).
  - intros t' name' d' desc' Hfree. by apply Lookup_free.
Qed.
End Types.

(** ** YAML documents *)

Section Documents.
Context {node : Type} `{!YamlNode node}.
(** Documents are finite. *)
Context (size : node -> nat).
Context (Hsize : forall n k v, IsMap n = true -> (k, v) ∈ members n -> (size v < size n)%nat).

(** [reaches pos p n q m]: from [n] at the path [p], going into the members with the indices
    [pos] and following valid paths only, [m] is reached at [q]. *)
Inductive reaches : list nat -> string -> node -> string -> node -> Prop :=
  | reaches_here p n : valid_name p = true -> reaches [] p n p n
  | reaches_step i pos p n k v q m :
      valid_name p = true -> IsMap n = true -> members n !! i = Some (k, v) ->
      reaches pos (path p (Scalar k)) v q m -> reaches (i :: pos) p n q m.

(** The order of the document: a node comes before its members, and these in their order. *)
Fixpoint before (a b : list nat) : Prop :=
  match a, b with
  | [], _ :: _ => True
  | i :: a, j :: b => (i < j)%nat \/ (i = j /\ before a b)
  | _, [] => False
  end.

(** [l] lists what is reached from [n] at [p], each node once, in that order. *)
Definition in_order (p : string) (n : node) (l : list (string * node)) : Prop :=
  exists ps, StronglySorted before ps /\ Forall2 (fun pos i => reaches pos p n i.1 i.2) ps l /\
    forall pos q m, reaches pos p n q m -> pos ∈ ps.

Lemma reaches_valid pos p n q m :
  reaches pos p n q m -> valid_name p = true /\ valid_name q = true.
Proof. induction 1 as [|? ? ? ? ? ? ? ? ? ? ? ? [_ IH]]; auto. Qed.

Lemma in_order_valid p n l q m : in_order p n l -> (q, m) ∈ l -> valid_name q = true.
Proof.
  intros (ps & _ & Hl & _) (i & Hi)%list_elem_of_lookup.
  destruct (Forall2_lookup_r _ _ _ _ _ Hl Hi) as (pos & _ & H). by apply reaches_valid in H as [_ ?].
Qed.

Lemma sorted_cons_map j ps : StronglySorted before ps -> StronglySorted before (cons j <$> ps).
Proof.
  induction 1 as [|pos ps _ IH H]; simpl; constructor; [done|].
  apply Forall_fmap. eapply Forall_impl; [exact H|]. simpl. auto.
Qed.

(** The positions in the members [ms], of which the first has the index [j]. *)
Definition reaches_in (p : string) (j : nat) (ms : list (node * node)) pos q m : Prop :=
  exists i pos' k v, pos = (j + i)%nat :: pos' /\ ms !! i = Some (k, v) /\
    reaches pos' (path p (Scalar k)) v q m.

Lemma in_order_members p j k v ms l1 ps2 l2 :
  in_order (path p (Scalar k)) v l1 -> StronglySorted before ps2 ->
  Forall2 (fun pos i => reaches_in p (S j) ms pos i.1 i.2) ps2 l2 ->
  (forall pos q m, reaches_in p (S j) ms pos q m -> pos ∈ ps2) ->
  exists ps, StronglySorted before ps /\
    Forall2 (fun pos i => reaches_in p j ((k, v) :: ms) pos i.1 i.2) ps (l1 ++ l2)%list /\
    forall pos q m, reaches_in p j ((k, v) :: ms) pos q m -> pos ∈ ps.
Proof.
  intros (ps1 & S1 & F1 & A1) S2 F2 A2. exists ((cons j <$> ps1) ++ ps2)%list. split_and!.
  - apply StronglySorted_app. split_and!; [|by apply sorted_cons_map|done].
    intros a b (pos & -> & _)%list_elem_of_fmap (i & Hi)%list_elem_of_lookup.
    destruct (Forall2_lookup_l _ _ _ _ _ F2 Hi) as (x & _ & i' & pos' & k' & v' & -> & _). simpl. lia.
  - apply Forall2_app.
    + apply Forall2_fmap_l. eapply Forall2_impl; [exact F1|]. intros pos x H.
      exists 0%nat, pos, k, v. by rewrite Nat.add_0_r.
    + eapply Forall2_impl; [exact F2|]. intros pos x (i & pos' & k' & v' & -> & Hi & H).
      exists (S i), pos', k', v'. by rewrite <- Nat.add_succ_comm.
  - intros pos q m ([|i] & pos' & k' & v' & -> & Hi & H); apply elem_of_app.
    + injection Hi as <- <-. left. rewrite Nat.add_0_r. apply list_elem_of_fmap. eauto.
    + right. apply (A2 _ q m). exists i, pos', k', v'. by rewrite Nat.add_succ_comm.
Qed.

Lemma in_order_leaf p n : valid_name p = true -> IsMap n = false -> in_order p n [(p, n)].
Proof.
  intros Hp Hm. exists [[]]. split_and!; [by repeat constructor| |].
  - constructor; [by constructor|constructor].
  - intros pos q m H. inversion H; subst; [by left|congruence].
Qed.

Lemma in_order_map p n l ps :
  valid_name p = true -> IsMap n = true -> StronglySorted before ps ->
  Forall2 (fun pos i => reaches_in p 0 (members n) pos i.1 i.2) ps l ->
  (forall pos q m, reaches_in p 0 (members n) pos q m -> pos ∈ ps) -> in_order p n ((p, n) :: l).
Proof.
  intros Hp Hm HS HF HA. exists ([] :: ps). split_and!.
  - constructor; [done|]. apply Forall_lookup. intros i pos Hi.
    destruct (Forall2_lookup_l _ _ _ _ _ HF Hi) as (x & _ & j & pos' & k & v & -> & _). done.
  - constructor; [by constructor|]. eapply Forall2_impl; [exact HF|].
    intros pos x (i & pos' & k & v & -> & Hi & H). by eapply reaches_step.
  - intros pos q m H. inversion H as [|i pos' ? ? k v ? ? _ _ Hi Hr]; subst; [by left|].
    right. apply (HA _ q m). by exists i, pos', k, v.
Qed.

Lemma list_members fuel p n :
  (size n < fuel)%nat -> exists l, ListAllMember fuel p n = Val l /\ in_order p n l.
Proof.
  revert p n. induction fuel as [|fuel IH]; intros p n Hf; [lia|]. cbn [ListAllMember].
  destruct (valid_name p) eqn:Hp; simpl.
  2: { exists []. split; [done|]. exists []. split_and!; [constructor..|].
       intros pos q m [H _]%reaches_valid. congruence. }
  destruct (IsMap n) eqn:Hm; [|exists [(p, n)]; split; [done|by apply in_order_leaf]].
  match goal with |- context [(?f (members n))] => set (go := f) end.
  assert (Hgo : forall ms j, (forall k v, (k, v) ∈ ms -> (k, v) ∈ members n) ->
    exists l ps, go ms = Val l /\ StronglySorted before ps /\
      Forall2 (fun pos i => reaches_in p j ms pos i.1 i.2) ps l /\
      forall pos q m, reaches_in p j ms pos q m -> pos ∈ ps).
  { induction ms as [|[k v] ms IHms]; intros j Hms.
    - exists [], []. split_and!; [done|constructor..|]. by intros pos q m (i & ? & ? & ? & _ & ? & _).
    - destruct (IH (path p (Scalar k)) v) as (l1 & E1 & H1).
      { pose proof (Hsize n k v Hm (Hms k v ltac:(by left))). lia. }
      destruct (IHms (S j)) as (l2 & ps2 & E2 & HS & HF & HA); [intros; apply Hms; by right|].
      destruct (in_order_members p j k v ms l1 ps2 l2 H1 HS HF HA) as (ps & H).
      exists (l1 ++ l2)%list, ps. split; [|done]. cbn. rewrite E1. cbn. fold go. by rewrite E2. }
  destruct (Hgo (members n) 0%nat ltac:(done)) as (l & ps & E & HS & HF & HA). rewrite E. simpl.
  exists ((p, n) :: l). split; [done|]. by eapply in_order_map.
Qed.
End Documents.

Section Loading.
Context {ty : Type} `{!EqDecision ty} `{!ConfigTypes ty} {W : Type} {node : Type} `{!YamlNode node}.
Implicit Types s : Config (ty := ty) (W := W).
Local Abbreviation var := (ConfigVar (W := W)).

(** [operator==] only relates equal values, and conversions return or throw. *)
Context (Heqb : forall t (x y : den t), eqb t x y = true -> x = y).
Context (Hfrom : forall t txt f, from_str t txt <> Bad f).

(** The listeners of a variable return. *)
Definition quiet {t} (v : var t) : Prop :=
  forall i old new w, i ∈ m_cbs v -> exists w', i.2 old new w = (Val tt, w').

Definition set_node_text (m : node) : string := if IsScalar m then Scalar m else emitted m.

(** The value after texts were converted one after the other; a text that is no value
    of the type counts for nothing. *)
Definition loaded (t : ty) (txts : list string) (x : den t) : den t :=
  fold_left (fun x txt => match from_str t txt with Val y => y | _ => x end) txts x.

(** The texts of a name in a listing. *)
Definition texts (name : string) (l : list (string * node)) : list string :=
  omap (fun i => if decide (i.1 = name /\ i.1 <> "") then Some (set_node_text i.2) else None) l.

Lemma notify_returns {t} (cbs : list (Z * on_change_cb t)) old new w :
  (forall i w, i ∈ cbs -> exists w', i.2 old new w = (Val tt, w')) ->
  exists w', notify cbs old new w = (Val tt, w' : W).
Proof.
  revert w. induction cbs as [|i cbs IH]; intros w H; [by exists w|].
  destruct (H i w ltac:(by left)) as (w1 & E). destruct (IH w1) as (w2 & E2).
  { intros j w' Hj. apply H. by right. }
  exists w2. simpl. by rewrite (st_bind_val _ _ _ _ _ E).
Qed.

(** Only the variable at [a] and the rest of the program change. *)
Definition changed (a : nat) {t} (v : var t) s s' : Prop :=
  vars s' = <[a := anyVar t v]> (vars s) /\ s_datas s' = s_datas s.

Lemma changed_same a t (v : var t) s : vars s !! a = Some (anyVar t v) -> changed a v s s.
Proof. intros H. split; [|done]. by rewrite insert_id. Qed.

Lemma set_val_same t (v : var t) : set_val (m_val v) v = v.
Proof. by destruct v. Qed.

Lemma fromString_returns a t (v : var t) txt s :
  vars s !! a = Some (anyVar t v) -> quiet v ->
  returns (fromString a txt) s (fun _ s' => changed a (set_val (loaded t [txt] (m_val v)) v) s s').
Proof.
  intros Hv Hq. unfold fromString. apply returns_bind.
  eapply returns_val; [unfold base_at; by rewrite Hv|]. cbn [v_type v_var deref].
  unfold returns, try_catch, loaded. simpl. destruct (from_str t txt) as [x|e|f] eqn:Ex.
  - rewrite (lift_bind _ x) by done.
    assert (E : exists s', setValue t a x s = (Val tt, s') /\ changed a (set_val x v) s s').
    { unfold setValue. pose proof (var_at_typed t a s) as H.
      assert (Eat : var_at t a s = (Val v, s)) by (unfold var_at; rewrite Hv; simpl; by rewrite cast_same).
      rewrite (st_bind_val _ _ _ _ _ Eat). destruct (eqb t x (m_val v)) eqn:Eq.
      - apply Heqb in Eq as ->. exists s. split; [done|]. rewrite set_val_same. by apply changed_same.
      - destruct (notify_returns (m_cbs v) (m_val v) x (world s)) as (w & Ew); [intros; by apply Hq|].
        eexists. split; [|split].
        + unfold mbind, st_bind, in_world. rewrite Ew. reflexivity.
        + done.
        + done. }
    destruct E as (s' & E & Hc). exists true, s'. by rewrite (st_bind_val _ _ _ _ _ E).
  - exists false, s. split; [done|]. rewrite set_val_same. by apply changed_same.
  - by destruct (Hfrom t txt f).
Qed.

(** All listeners of all variables return. *)
Definition all_quiet s : Prop := forall a t (v : var t), vars s !! a = Some (anyVar t v) -> quiet v.

Lemma load_node_returns p m s :
  wf s -> all_quiet s -> valid_name p = true ->
  returns (load_node (p, m)) s (fun _ s' => wf s' /\ all_quiet s' /\ s_datas s' = s_datas s /\
    forall name a t (v : var t), s_datas s !! name = Some a -> vars s !! a = Some (anyVar t v) ->
      vars s' !! a = Some (anyVar t (set_val (loaded t (texts name [(p, m)]) (m_val v)) v))).
Proof.
  intros Hs Hq Hp. unfold load_node, texts. cbn [fst snd].
  assert (Hnone : forall name, name <> p \/ p = "" ->
    omap (fun i : string * node => if decide (i.1 = name /\ i.1 <> "") then Some (set_node_text i.2)
      else None) [(p, m)] = []).
  { intros name Hn. simpl. rewrite decide_False; [done|]. naive_solver. }
  case_decide as He.
  { apply returns_ret. split_and!; try done. intros name a t v _ Hv.
    rewrite Hnone by by right. simpl. by rewrite set_val_same. }
  rewrite lower_valid by done. apply returns_bind, returns_gets.
  destruct (s_datas s !! p) as [a|] eqn:Ha.
  2: { apply returns_ret. split_and!; try done. intros name a t v Hn Hv.
       rewrite Hnone by (left; congruence). simpl. by rewrite set_val_same. }
  destruct (proj1 Hs p a Ha) as (_ & t & v & Hv & Hname).
  apply returns_bind.
  assert (E : (if IsScalar m then fromString (W := W) a (Scalar m) else fromString a (emitted m)) =
    fromString a (set_node_text m)) by (unfold set_node_text; by destruct (IsScalar m)).
  rewrite E. clear E. pose proof (fromString_monotone a (set_node_text m) s Hs) as (Hw & _).
  destruct (fromString_returns a t v (set_node_text m) s Hv (Hq a t v Hv)) as (b & s' & E & Hc & Hd).
  rewrite E in Hw. simpl in Hw. apply (returns_val _ _ _ _ _ E), returns_ret.
  set (v' := set_val _ v) in *.
  split; [done|]. split.
  { intros c u w Hcw. rewrite Hc in Hcw. destruct (decide (c = a)) as [->|Hne].
    - rewrite lookup_insert_eq in Hcw. apply (inj Some), anyVar_inj in Hcw as [e Ew].
      subst u. simpl in Ew. subst w. intros i old new x Hi. by apply (Hq a t v Hv i).
    - rewrite lookup_insert_ne in Hcw by done. by apply (Hq c). }
  split; [done|]. intros name c u w Hn Hcw. rewrite Hc.
  destruct (decide (c = a)) as [->|Hne].
  - rewrite lookup_insert_eq. destruct (same_type s a _ _ _ _ Hv Hcw) as [e Ew].
    subst u. simpl in Ew. subst w.
    destruct (proj1 Hs name a Hn) as (_ & u & w & Hw' & En).
    destruct (same_type s a _ _ _ _ Hv Hw') as [e Ew].
    subst u. simpl in Ew. subst w.
    simpl. by rewrite decide_True by (split; [congruence|done]).
  - rewrite lookup_insert_ne by done. rewrite Hnone by (left; intros ->; congruence).
    simpl. by rewrite set_val_same.
Qed.

Lemma load_nodes_returns l s :
  wf s -> all_quiet s -> (forall p m, (p, m) ∈ l -> valid_name p = true) ->
  returns (load_nodes l) s (fun _ s' => s_datas s' = s_datas s /\
    forall name a t (v : var t), s_datas s !! name = Some a -> vars s !! a = Some (anyVar t v) ->
      vars s' !! a = Some (anyVar t (set_val (loaded t (texts name l) (m_val v)) v))).
Proof.
  revert s. induction l as [|[p m] l IH]; intros s Hs Hq Hl.
  { apply returns_ret. split; [done|]. intros name a t v _ Hv. simpl. by rewrite set_val_same. }
  apply returns_bind. eapply returns_mono; [apply (load_node_returns p m s Hs Hq)|].
  { apply (Hl p m). by left. }
  intros _ s1 (Hs1 & Hq1 & Hd1 & Hv1). eapply returns_mono; [apply (IH s1 Hs1 Hq1)|].
  { intros q n Hin. apply (Hl q n). by right. }
  intros _ s2 (Hd2 & Hv2). split; [congruence|]. intros name a t v Hn Hv.
  rewrite (Hv2 name a t (set_val (loaded t (texts name [(p, m)]) (m_val v)) v));
    [|congruence|by apply (Hv1 name)].
  do 2 f_equal. unfold loaded. change ((p, m) :: l) with ([(p, m)] ++ l)%list.
  unfold texts. rewrite omap_app, fold_left_app. done.
Qed.
End Loading.

(** C22: loading a YAML document: a finite one, with fuel above its depth, for types whose
    [operator==] relates equal values only and whose conversions return or throw, and with
    listeners that return. The listing of the document has exactly the nodes that
    are reached by valid paths, each once and in the order of the document (a node before its
    members, these in the order of the map, each with all that is below it: the
    positions, as lists of indices, increase lexicographically), and the load goes through it: the names that are
    registered stay the same, and every variable has in the end the value that results
    from converting, in the order of the document, the texts of the nodes at its name,
    where a text that is no value of its type changes nothing. (Keys with capital
    letters are not valid, so nothing below them is loaded, although the code converts
    the names it looks up to lower case.) *)
Theorem load_document {ty} `{!EqDecision ty} `{!ConfigTypes ty} {W node} `{!YamlNode node}
    (size : node -> nat) (root : node) (fuel : nat) (s : Config (ty := ty) (W := W))
    (Heqb : forall t (x y : den t), eqb t x y = true -> x = y)
    (Hfrom : forall t txt f, from_str t txt <> Bad f)
    (Hsize : forall n k v, IsMap n = true -> (k, v) ∈ members n -> (size v < size n)%nat)
    (Hfuel : (size root < fuel)%nat) (Hs : wf s) (Hquiet : all_quiet s) :
  exists l, ListAllMember fuel "" root = Val l /\
    in_order "" root l /\
    returns (LoadFromYaml fuel root) s (fun _ s' => s_datas s' = s_datas s /\
      forall name a t (v : ConfigVar t), s_datas s !! name = Some a -> vars s !! a = Some (anyVar t v) ->
        vars s' !! a = Some (anyVar t (set_val (loaded t (texts name l) (m_val v)) v))).
Proof.
  destruct (list_members size Hsize fuel "" root Hfuel) as (l & E & Hl).
  exists l. split; [done|]. split; [done|]. unfold LoadFromYaml.
  apply returns_bind. eapply returns_lift; [exact E|]. apply load_nodes_returns; try done.
  intros p m. by eapply in_order_valid.
Qed.

(** ** Witnesses *)

(** A program with integer and text variables, and documents as trees. *)
Inductive demo_ty := TInt | TText.
#[export] Instance demo_ty_eq_dec : EqDecision demo_ty.
Proof. solve_decision. Defined.
#[export] Instance demo_types : ConfigTypes demo_ty := {|
  den t := match t with TInt => Z | TText => string end;
  eqb t := match t with TInt => Z.eqb | TText => fun x y => bool_decide (x = y) end;
  from_str t := match t with
    | TInt => fun s => if chars (fun c => (48 <=? code c) && (code c <=? 57)) s && negb (bool_decide (s = ""))
                       then Val (digits 10 0 s) else Exc invalid_argument
    | TText => Val
    end;
  to_str t := match t with TInt => fun z => Val (pretty z) | TText => Val end
|}.

Inductive demo_node := DScalar (s : string) | DMap (l : list (string * demo_node)).
Fixpoint demo_size (n : demo_node) : nat :=
  match n with
  | DScalar _ => 0
  | DMap l => S ((fix go l := match l with [] => O | (_, v) :: l => (demo_size v + go l)%nat end) l)
  end.
#[export] Instance demo_yaml : YamlNode demo_node := {|
  IsMap n := match n with DMap _ => true | _ => false end;
  IsScalar n := match n with DScalar _ => true | _ => false end;
  Scalar n := match n with DScalar s => s | _ => "" end;
  members n := match n with DMap l => (fun p => (DScalar p.1, p.2)) <$> l | _ => [] end;
  emitted n := match n with DScalar s => s | DMap _ => "{}" end
|}.

Lemma demo_size_member n k v : IsMap n = true -> (k, v) ∈ members n -> (demo_size v < demo_size n)%nat.
Proof.
  destruct n as [|l]; [done|]. intros _. cbn [members demo_yaml].
  intros ([k' v'] & [= -> ->] & Hin)%list_elem_of_fmap. cbn [fst snd] in *.
  assert (H : forall l : list (string * demo_node), (k', v') ∈ l ->
    (demo_size v' <= (fix go l := match l with [] => O | (_, v) :: l => (demo_size v + go l)%nat end) l)%nat).
  { clear. induction l as [|[k v] l IH]; [by intros ?%elem_of_nil|].
    intros [[= -> ->]|H]%elem_of_cons; [lia|]. specialize (IH H). lia. }
  specialize (H l Hin). simpl. lia.
Qed.

Definition no_config : Config (ty := demo_ty) (W := list Z) := mkConfig ∅ ∅ (fun _ => 0) 0 [].
Lemma no_config_wf : wf no_config.
Proof.
  split; [intros n a H|intros a [x H]]; unfold no_config in H; cbn [vars s_datas] in H;
    by rewrite lookup_empty in H.
Qed.

Definition demo_document : demo_node :=
  DMap [("tcp", DMap [("timeout", DScalar "x"); ("timeout", DScalar "250"); ("Timeout", DScalar "7")])].

Definition registered : Config (ty := demo_ty) (W := list Z) :=
  (Lookup (ConfigTypes0 := demo_types) TInt "tcp.timeout" (120 : Z) "" no_config).2.
Lemma registered_wf : wf registered.
Proof. exact (proj1 (Lookup_monotone (ConfigTypes0 := demo_types) TInt "tcp.timeout" (120 : Z) "" _ no_config_wf)). Qed.

Definition timeout (z : Z) : ConfigVar (ConfigTypes0 := demo_types) (W := list Z) TInt :=
  @mkVar demo_ty demo_types (list Z) TInt "tcp.timeout" "" z [].

Lemma types_stable_witness :
  (Lookup TText "tcp.timeout" "a" ""
    (perform (OpLoadFromYaml demo_node 5 demo_document)
      registered)).1 = Val None.
Proof.
  destruct (@types_stable demo_ty _ demo_types (list Z) demo_node _ TInt "tcp.timeout" 120 "" no_config 0
    registered [OpLoadFromYaml demo_node 5 demo_document] no_config_wf
    eq_refl) as (_ & _ & _ & _ & H & _).
  cbn [fold_left] in H. by rewrite (H TText "a" "" ltac:(done)).
Defined.

Lemma load_document_witness : exists s',
  LoadFromYaml 5 demo_document registered = (Val tt, s') /\
  vars s' !! 0%nat = Some (anyVar TInt (timeout 250)).
Proof.
  set (s := registered).
  destruct (load_document demo_size demo_document 5 s) as (l & E & _ & (u & s' & E' & _ & H)).
  - intros [] x y; simpl; [by intros ->%Z.eqb_eq|by intros ?%bool_decide_eq_true].
  - intros [] txt f; simpl; [by case_match|done].
  - apply demo_size_member.
  - vm_compute. lia.
  - exact registered_wf.
  - intros a t v Hv.
    change (vars s) with ({[ 0%nat := anyVar TInt (timeout 120) ]} : gmap nat (ConfigVarBase (W := list Z))) in Hv.
    apply lookup_singleton_Some in Hv as [_ Hv]. apply anyVar_inj in Hv as [e Ev]. subst t.
    simpl in Ev. subst v. intros i old new w Hi. by apply elem_of_nil in Hi.
  - exists s'. destruct u. split; [done|].
    rewrite (H "tcp.timeout" 0%nat TInt (timeout 120) eq_refl eq_refl).
    injection E as <-. reflexivity.
Defined.
