(* ===== verification/LexicalCast.v ===== *)
(** * Conversions to and from YAML text (config.h, log.cpp, application.cpp)

    The specialisations of [LexicalCast] for containers, and those for the definitions of
    loggers, appenders and servers. The YAML library is a class of operations ([YamlLib]);
    what the proofs use of it is that its nodes are the trees of the data model, and that
    what is printed is read back ([YamlLaws]). The theorems: containers, at any
    nesting, and the servers' configurations are read back; the appenders of a
    logger's definition are not, but the dump of a logger ([toYamlString]) is a definition of
    it with its appenders. *)
From stdpp Require Import base tactics option list sorting countable strings pretty gmap numbers.
From S2P Require Http.
From S2P Require Import Prelude OrdSet CString LogFormat Logger.

Open Scope string_scope.
Open Scope Z_scope.

(** ** The YAML library *)

(** Nodes, as far as the code builds and reads them. [items n] are [n[i]] for [i < n.size()];
    [field n k] is [n[k]], [None] when it is not defined; [emit] is [ss << n]; the
    conversions are those of assignments and arguments. *)
Class YamlLib := {
  node : Type;
  Node : node;
  Load : string -> res node;
  emit : node -> string;
  items : node -> list node;
  members : node -> list (node * node);
  Scalar : node -> string;
  field : node -> string -> res (option node);
  as_string : node -> res string;
  as_int : node -> res Z;
  of_string : string -> node;
  of_int : Z -> node;
  push_back : node -> node -> node;
  set_field : node -> string -> node -> node
}.

(** [LexicalCast<T, std::string>] and [LexicalCast<std::string, T>]; for the basic types
    these are boost's. *)
Class Lexical (T : Type) := {
  to_text : T -> res string;
  from_text : string -> res T
}.

(** A container as the conversions use it: its iteration, the empty one, and the
    insertion of one element. *)
Class Container (C A : Type) := {
  listing : C -> list A;
  nothing : C;
  add : A -> C -> C
}.

(** ** Containers *)

Definition vector (T : Type) : Type := list T.
Definition std_list (T : Type) : Type := list T.
(** Ordered by [operator<], as in OrdSet.v. *)
Definition std_set (T : Type) : Type := list T.
Definition std_map (T : Type) : Type := list (string * T).
(** The order of their iteration is a parameter. *)
Definition unordered_set (T : Type) `{Countable T} : Type := gset T.
Definition unordered_map (T : Type) : Type := gmap string T.
#[global] Typeclasses Opaque vector std_list std_set std_map unordered_set unordered_map.

Definition vector_container T : Container (vector T) T := {|
  listing l := l; nothing := []; add x l := (l ++ [x])%list |}.
#[export] Existing Instance vector_container.
Definition list_container T : Container (std_list T) T := {|
  listing l := l; nothing := []; add x l := (l ++ [x])%list |}.
#[export] Existing Instance list_container.
Class Less (T : Type) := less : T -> T -> bool.
Definition set_container `{Less T} : Container (std_set T) T := {|
  listing l := l; nothing := []; add := set_insert less id |}.
#[export] Existing Instance set_container.
Definition map_container T : Container (std_map T) (string * T) := {|
  listing l := l; nothing := []; add := set_insert string_less fst |}.
#[export] Existing Instance map_container.
Class HashOrder (C A : Type) := hash_order : C -> list A.
Definition unordered_set_container `{Countable T} `{!HashOrder (unordered_set T) T} :
  Container (unordered_set T) T := {|
  listing := hash_order (C := unordered_set T); nothing := (∅ : gset T); add x s := {[x]} ∪ (s : gset T) |}.
#[export] Existing Instance unordered_set_container.
Definition unordered_map_container T `{!HashOrder (unordered_map T) (string * T)} :
  Container (unordered_map T) (string * T) := {|
  listing := hash_order (C := unordered_map T); nothing := (∅ : gmap string T);
  add p m := match (m : gmap string T) !! p.1 with Some _ => m | None => <[p.1 := p.2]> (m : gmap string T) end |}.
#[export] Existing Instance unordered_map_container.

(** The order of the names in a [std::map]. *)
Definition name_le (p q : string * nat) : Prop := string_less q.1 p.1 = false.
#[export] Instance name_le_dec : RelDecision name_le.
Proof. intros p q. unfold name_le. apply _. Defined.

Section Casts.
Context `{YamlLib}.

(** The sequences: [std::vector], [std::list], [std::set], [std::unordered_set]. *)
Section Sequences.
Context {C T : Type} `{!Lexical T} `{!Container C T}.
Fixpoint read_items (l : list node) (c : C) : res C :=
  match l with
  | [] => Val c
  | n :: l => x ← from_text (emit n); read_items l (add x c)
  end.
Fixpoint write_items (l : list T) (n : node) : res node :=
  match l with
  | [] => Val n
  | x :: l => s ← to_text x; m ← Load s; write_items l (push_back n m)
  end.
Definition sequence_lexical : Lexical C := {|
  to_text c := n ← write_items (listing c) Node; Val (emit n);
  from_text v := n ← Load v; read_items (items n) nothing |}.
End Sequences.
Definition vector_lexical `{!Lexical T} : Lexical (vector T) := sequence_lexical.
#[export] Existing Instance vector_lexical.
Definition list_lexical `{!Lexical T} : Lexical (std_list T) := sequence_lexical.
#[export] Existing Instance list_lexical.
Definition set_lexical `{!Lexical T} `{!Less T} : Lexical (std_set T) := sequence_lexical.
#[export] Existing Instance set_lexical.
Definition unordered_set_lexical `{Countable T} `{!Lexical T} `{!HashOrder (unordered_set T) T} :
  Lexical (unordered_set T) := sequence_lexical.
#[export] Existing Instance unordered_set_lexical.

(** The maps with names as keys: [std::map], [std::unordered_map]. *)
Section Maps.
Context {C T : Type} `{!Lexical T} `{!Container C (string * T)}.
Fixpoint read_members (l : list (node * node)) (c : C) : res C :=
  match l with
  | [] => Val c
  | (k, v) :: l => x ← from_text (emit v); read_members l (add (Scalar k, x) c)
  end.
Fixpoint write_members (l : list (string * T)) (n : node) : res node :=
  match l with
  | [] => Val n
  | (k, x) :: l => s ← to_text x; m ← Load s; write_members l (set_field n k m)
  end.
Definition members_lexical : Lexical C := {|
  to_text c := n ← write_members (listing c) Node; Val (emit n);
  from_text v := n ← Load v; read_members (members n) nothing |}.
End Maps.
Definition map_lexical `{!Lexical T} : Lexical (std_map T) := members_lexical.
#[export] Existing Instance map_lexical.
Definition unordered_map_lexical `{!Lexical T} `{!HashOrder (unordered_map T) (string * T)} :
  Lexical (unordered_map T) := members_lexical.
#[export] Existing Instance unordered_map_lexical.

(** ** Definitions of loggers *)

(** [node[k].IsDefined() ? node[k].as<std::string>() : EmptyString] *)
Definition text_field (n : node) (k : string) : res string :=
  o ← field n k;
  match o with Some m => as_string m | None => Val "" end.
Definition if_text (k s : string) (n : node) : node :=
  if decide (s = "") then n else set_field n k (of_string s).

Definition appender_from (v : string) : res LogAppenderDefine :=
  n ← Load v;
  o ← field n "type";
  match o with
  | None => Val (mkAppenderDefine 0 0 "" "")
  | Some t =>
      level ← text_field n "level";
      let level := LogLevel_FromString level in
      type ← as_string t;
      if decide (type = "FileLogAppender") then
        f ← field n "file";
        match f with
        | None => Val (mkAppenderDefine 1 level "" "")
        | Some f =>
            file ← as_string f;
            formatter ← text_field n "formatter";
            Val (mkAppenderDefine 1 level formatter file)
        end
      else if decide (type = "StdoutLogAppender") then Val (mkAppenderDefine 2 level "" "")
      else Val (mkAppenderDefine 0 level "" "")
  end.

Definition appender_node (a : LogAppenderDefine) : node :=
  let n :=
    if ad_type a =? 1 then
      set_field (set_field Node "type" (of_string "FileLogAppender")) "file" (of_string (ad_file a))
    else if ad_type a =? 2 then set_field Node "type" (of_string "StdoutLogAppender")
    else Node in
  if_text "formatter" (ad_formatter a) (set_field n "level" (of_string (LogLevel_ToString (ad_level a)))).
Definition appender_lexical : Lexical LogAppenderDefine := {|
  to_text a := Val (emit (appender_node a));
  from_text := appender_from |}.
#[export] Existing Instance appender_lexical.

Definition appenders_from : string -> res (list LogAppenderDefine) :=
  from_text (T := vector LogAppenderDefine).
Definition appenders_to : list LogAppenderDefine -> res string :=
  to_text (T := vector LogAppenderDefine).

Definition define_from (v : string) : res LogDefine :=
  n ← Load v;
  o ← field n "name";
  match o with
  | None => Val (mkDefine "" 0 "" [])
  | Some m =>
      name ← as_string m;
      level ← text_field n "level";
      formatter ← text_field n "formatter";
      o ← field n "appenders";
      appenders ← match o with
                  | Some a => appenders_from (emit a)
                  | None => Val []
                  end;
      Val (mkDefine name (LogLevel_FromString level) formatter appenders)
  end.
(** The converted vector is a string, and so becomes a scalar. *)
Definition define_to (d : LogDefine) : res string :=
  let n := set_field (set_field Node "name" (of_string (ld_name d)))
             "level" (of_string (LogLevel_ToString (ld_level d))) in
  s ← appenders_to (ld_appenders d);
  Val (emit (set_field (if_text "formatter" (ld_formatter d) n) "appenders" (of_string s))).
Definition define_lexical : Lexical LogDefine := {|
  to_text := define_to;
  from_text := define_from |}.
#[export] Existing Instance define_lexical.
(** [LogDefine::operator<], of the set that the variable "logs" holds. *)
Definition define_less : Less LogDefine := fun a b => string_less (ld_name a) (ld_name b).
#[export] Existing Instance define_less.

(** ** Dumps *)

(** [toYamlString] of an appender. *)
Definition pattern_field (fmt : option LogFormatter) (n : node) : node :=
  match fmt with Some f => set_field n "formatter" (of_string (m_pattern f)) | None => n end.
Definition appender_toYamlString (a : LogAppender) : string :=
  let n := match a_kind a with
           | StdoutLogAppender => set_field Node "type" (of_string "StdoutLogAppender")
           | FileLogAppender m_filename _ =>
               set_field (set_field Node "type" (of_string "FileLogAppender")) "file" (of_string m_filename)
           end in
  emit (pattern_field (a_formatter a) (set_field n "level" (of_string (LogLevel_ToString (a_level a))))).

Fixpoint appenders_at (l : list nat) : ST Logs (list LogAppender) :=
  match l with [] => mret [] | a :: l => x ← appender_at a; y ← appenders_at l; mret (x :: y) end.
Fixpoint push_loaded (l : list string) (n : node) : res node :=
  match l with [] => Val n | s :: l => m ← Load s; push_loaded l (push_back n m) end.

(** [Logger::toYamlString()]: here the loaded appenders are pushed to a sequence. *)
Definition Logger_toYamlString (l : nat) : ST Logs string :=
  x ← logger_at l;
  let n := pattern_field (m_formatter x)
    (set_field (set_field Node "name" (of_string (m_name x)))
       "level" (of_string (LogLevel_ToString (m_level x)))) in
  y ← appenders_at (m_appenders x);
  match y with
  | [] => mret (emit n)
  | _ => a ← lift (push_loaded (appender_toYamlString <$> y) Node); mret (emit (set_field n "appenders" a))
  end.

(** [LoggerManager::toYamlString()], the loggers in the order of the map. *)
Fixpoint dump_all (l : list nat) (n : node) : ST Logs node :=
  match l with
  | [] => mret n
  | a :: l => s ← Logger_toYamlString a; m ← lift (Load s); dump_all l (push_back n m)
  end.
Definition manager_toYamlString : ST Logs string := fun s =>
  (n ← dump_all (snd <$> merge_sort name_le (map_to_list (m_loggers s))) Node;
   mret (emit n)) s.

(** ** Configurations of servers *)

Record HttpServerConf := mkConf {
  conf_address : list string;
  conf_keepalive : Z;
  conf_timeout : Z;
  conf_name : string
}.
Definition HttpServerConf_new : HttpServerConf := mkConf [] 0 (1000 * 2 * 60) "".

(** [node[k].as<T>(fallback)] *)
Definition as_or {T} (as_T : node -> res T) (n : node) (k : string) (fallback : T) : res T :=
  o ← field n k;
  Val (match o with
       | Some m => match as_T m with Val x => x | _ => fallback end
       | None => fallback
       end).
Fixpoint all_strings (l : list node) : res (list string) :=
  match l with
  | [] => Val []
  | n :: l => s ← as_string n; l ← all_strings l; Val (s :: l)
  end.
Definition conf_from (v : string) : res HttpServerConf :=
  n ← Load v;
  let conf := HttpServerConf_new in
  keepalive ← as_or as_int n "keepalive" (conf_keepalive conf);
  timeout ← as_or as_int n "timeout" (conf_timeout conf);
  name ← as_or as_string n "name" (conf_name conf);
  o ← field n "address";
  address ← match o with Some a => all_strings (items a) | None => Val [] end;
  Val (mkConf address keepalive timeout name).

(** [node["address"].push_back(i)] for each address: the first makes the field a sequence. *)
Definition conf_node (c : HttpServerConf) : node :=
  let n := set_field (set_field (set_field Node "name" (of_string (conf_name c)))
             "keepalive" (of_int (conf_keepalive c))) "timeout" (of_int (conf_timeout c)) in
  match conf_address c with
  | [] => n
  | l => set_field n "address" (foldl (fun a i => push_back a (of_string i)) Node l)
  end.
Definition conf_lexical : Lexical HttpServerConf := {|
  to_text c := Val (emit (conf_node c));
  from_text := conf_from |}.
#[export] Existing Instance conf_lexical.
End Casts.

(** ** What the library promises *)

(** The data model of YAML, with names as keys. *)
Inductive tree :=
  | TNull
  | TScalar (s : string)
  | TSeq (l : list tree)
  | TMap (m : list (string * tree)).
Inductive all_texts (P : string -> Prop) : tree -> Prop :=
  | all_null : all_texts P TNull
  | all_scalar s : P s -> all_texts P (TScalar s)
  | all_seq l : Forall (all_texts P) l -> all_texts P (TSeq l)
  | all_map m : Forall (fun p => P p.1 /\ all_texts P p.2) m -> all_texts P (TMap m).
Fixpoint assoc (k : string) (m : list (string * tree)) : option tree :=
  match m with
  | [] => None
  | (k', t) :: m => if decide (k = k') then Some t else assoc k m
  end.
Definition printable (c : Ascii.ascii) : bool := (32 <=? code c) && (code c <=? 126).

(** [view] is the tree a node stands for. A text is [faithful] when printing keeps it, as it does
    all of ASCII; it is [plain] when it is a document by itself, a scalar printed as it is. *)
Class YamlLaws (Y : YamlLib) := {
  view : node -> tree;
  faithful : string -> Prop;
  plain : string -> Prop;
  view_Node : view Node = TNull;
  view_of_string s : view (of_string s) = TScalar s;
  view_of_int z : view (of_int z) = TScalar (pretty z);
  view_push n x l :
    (view n = TNull /\ l = []) \/ view n = TSeq l -> view (push_back n x) = TSeq (l ++ [view x]);
  view_set n k x m :
    (view n = TNull /\ m = []) \/ view n = TMap m -> assoc k m = None ->
    view (set_field n k x) = TMap (m ++ [(k, view x)]);
  items_seq n l : view n = TSeq l -> view <$> items n = l;
  items_null n : view n = TNull -> items n = [];
  items_scalar n s : view n = TScalar s -> items n = [];
  members_map n m : view n = TMap m -> (fun p => (Scalar p.1, view p.2)) <$> members n = m;
  members_null n : view n = TNull -> members n = [];
  field_map n k m : view n = TMap m -> exists o, field n k = Val o /\ view <$> o = assoc k m;
  as_string_scalar n s : view n = TScalar s -> as_string n = Val s;
  as_int_scalar n z : view n = TScalar (pretty z) -> in_s 32 z -> as_int n = Val z;
  load_emit n : all_texts faithful (view n) -> exists n', Load (emit n) = Val n' /\ view n' = view n;
  emit_faithful n : all_texts faithful (view n) -> faithful (emit n);
  faithful_ascii s : chars printable s = true -> faithful s;
  plain_faithful s : plain s -> faithful s;
  plain_load s : plain s -> exists n, Load s = Val n /\ view n = TScalar s;
  plain_emit n s : plain s -> view n = TScalar s -> emit n = s
}.

(** ** Lemmas *)

(** [x] is printed, and what is read of it is [y]: of the text itself, and of the text of
    any node that stands for the same tree. *)
Definition reads_as `{YamlLaws} `{!Lexical T} (x y : T) : Prop :=
  exists s n, to_text x = Val s /\ from_text s = Val y /\ Load s = Val n /\
    all_texts faithful (view n) /\ forall n', view n' = view n -> from_text (emit n') = Val y.

(** A container is rebuilt from its elements. *)
Class Rebuilds (C A : Type) `{!Container C A} (good : C -> Prop) : Prop :=
  rebuild c : good c -> foldl (fun c x => add x c) nothing (listing c) = c.

#[export] Instance vector_rebuilds T : Rebuilds (vector T) T (fun _ => True).
Proof.
  assert (H : forall l c : list T, foldl (fun c x => c ++ [x])%list c l = (c ++ l)%list).
  { induction l as [|x l IH]; intros c; simpl; [by rewrite app_nil_r|by rewrite IH, <- app_assoc]. }
  intros l _. apply (H l []).
Qed.
#[export] Instance list_rebuilds T : Rebuilds (std_list T) T (fun _ => True).
Proof. exact (vector_rebuilds T). Qed.

Lemma set_insert_last {K T} (lt : K -> K -> bool) (key : T -> K) `{!StrictWeak lt} l x :
  ordered lt key (l ++ [x]) -> set_insert lt key x l = (l ++ [x])%list.
Proof.
  intros (Hl & _ & Hx)%ordered_app_inv. unfold set_insert.
  destruct (lower_bound lt key (key x) l) as [a b] eqn:E.
  destruct (lower_bound_spec lt key _ _ _ _ Hl E) as (Happ & _ & Hb).
  destruct b as [|e b]; [by rewrite Happ, app_nil_r|].
  assert (He : e ∈ l) by (rewrite Happ; apply elem_of_app; right; left).
  specialize (Hx e x He (list_elem_of_here _ _)). specialize (Hb e (list_elem_of_here _ _)). congruence.
Qed.

Lemma set_insert_all {K T} (lt : K -> K -> bool) (key : T -> K) `{!StrictWeak lt} l :
  ordered lt key l -> foldl (fun c x => set_insert lt key x c) [] l = l.
Proof.
  induction l as [|x l IH] using rev_ind; intros Hl; [done|]. rewrite foldl_app. simpl.
  rewrite IH by (by apply ordered_app_inv in Hl as (? & _)). by apply set_insert_last.
Qed.

#[export] Instance set_rebuilds `{Less T} `{!StrictWeak (less (T := T))} :
  Rebuilds (std_set T) T (ordered less id).
Proof. intros l Hl. by apply set_insert_all. Qed.
#[export] Instance map_rebuilds T : Rebuilds (std_map T) (string * T) (ordered string_less fst).
Proof. intros l Hl. by apply (set_insert_all string_less fst). Qed.

(** The elements in whatever order the table has. *)
#[export] Instance unordered_set_rebuilds `{Countable T} `{!HashOrder (unordered_set T) T} :
  Rebuilds (unordered_set T) T (fun s => hash_order s ≡ₚ elements (s : gset T)).
Proof.
  assert (Hf : forall (l : list T) (c : gset T) x,
    x ∈ foldl (fun c x => {[x]} ∪ c) c l <-> x ∈ c \/ x ∈ l).
  { induction l as [|y l IH]; intros c x; simpl; [set_solver|]. rewrite IH. set_solver. }
  intros s Hs. change (foldl (fun (c : gset T) x => {[x]} ∪ c) ∅ (hash_order s) = (s : gset T)).
  apply set_eq. intros x.
  rewrite Hf, Hs, elem_of_elements, elem_of_empty. naive_solver.
Qed.

Lemma foldl_keep {T} (l : list (string * T)) (c : gmap string T) :
  foldl (fun c p => match c !! p.1 with Some _ => c | None => <[p.1 := p.2]> c end) c l =
  c ∪ list_to_map l.
Proof.
  revert c. induction l as [|[k v] l IH]; intros c; simpl; [by rewrite right_id_L by apply _|].
  rewrite IH, (insert_union_singleton_l (list_to_map l)), (assoc_L (∪)). f_equal. symmetry.
  destruct (c !! k) eqn:E; apply map_eq; intros i; destruct (decide (i = k)) as [->|Hne];
    rewrite lookup_union; rewrite ?lookup_insert_eq, ?lookup_insert_ne, ?lookup_singleton_eq,
      ?lookup_singleton_ne by done; rewrite ?E; try done; by destruct (c !! i).
Qed.

Lemma foldl_keep_all {T} (l : list (string * T)) (m : gmap string T) :
  l ≡ₚ map_to_list m ->
  foldl (fun c p => match c !! p.1 with Some _ => c | None => <[p.1 := p.2]> c end) ∅ l = m.
Proof.
  intros Hl. rewrite foldl_keep, left_id_L by apply _.
  rewrite (list_to_map_proper l (map_to_list m)); [apply list_to_map_to_list| |done].
  rewrite Hl. apply NoDup_fst_map_to_list.
Qed.

#[export] Instance unordered_map_rebuilds T `{!HashOrder (unordered_map T) (string * T)} :
  Rebuilds (unordered_map T) (string * T) (fun m => hash_order m ≡ₚ map_to_list (m : gmap string T)).
Proof. intros m. apply (foldl_keep_all (hash_order m) m). Qed.

Lemma assoc_app k m1 m2 :
  assoc k (m1 ++ m2) = match assoc k m1 with Some t => Some t | None => assoc k m2 end.
Proof. induction m1 as [|[k' t] m1 IH]; [done|]. simpl. by case_decide. Qed.

Section Laws.
Context `{Laws : YamlLaws}.
Implicit Types (n : node) (t : tree).

(** What a node with these elements, or members, can be: null as long as there are none. *)
Definition seq_view n l := (view n = TNull /\ l = []) \/ view n = TSeq l.
Definition map_view n m := (view n = TNull /\ m = []) \/ view n = TMap m.

Lemma seq_view_Node : seq_view Node [].
Proof. left. split; [apply view_Node|done]. Qed.
Lemma map_view_Node : map_view Node [].
Proof. left. split; [apply view_Node|done]. Qed.
Lemma seq_push n l x : seq_view n l -> seq_view (push_back n x) (l ++ [view x])%list.
Proof. intros Hn. right. by apply view_push. Qed.
Lemma map_set n m k x :
  map_view n m -> assoc k m = None -> map_view (set_field n k x) (m ++ [(k, view x)])%list.
Proof. intros Hn Hk. right. by apply view_set. Qed.
Lemma seq_items n l : seq_view n l -> view <$> items n = l.
Proof. intros [[Hn ->]|Hn]; [by rewrite items_null|by apply items_seq]. Qed.
Lemma map_members n m : map_view n m -> (fun p => (Scalar p.1, view p.2)) <$> members n = m.
Proof. intros [[Hn ->]|Hn]; [by rewrite members_null|by apply members_map]. Qed.
Lemma seq_texts n l : seq_view n l -> Forall (all_texts faithful) l -> all_texts faithful (view n).
Proof. intros [[-> _] | ->] Hl; by constructor. Qed.
Lemma map_texts n m :
  map_view n m -> Forall (fun p => faithful p.1 /\ all_texts faithful p.2) m -> all_texts faithful (view n).
Proof. intros [[-> _] | ->] Hl; by constructor. Qed.

(** A conversion that prints a node and reads what the node stands for. *)
Lemma reads_as_node `{!Lexical T} (x y : T) n :
  to_text x = Val (emit n) -> all_texts faithful (view n) ->
  (forall n', view n' = view n -> from_text (emit n') = Val y) -> reads_as x y.
Proof.
  intros E Hn Hr. destruct (load_emit n Hn) as (n' & Hl & Hv). exists (emit n), n'.
  split; [done|]. split; [by apply Hr|]. split; [done|]. rewrite Hv. by split.
Qed.

(** A basic type that boost converts to a plain text and back. *)
Lemma plain_reads_back `{!Lexical T} (x : T) s :
  to_text x = Val s -> plain s -> from_text s = Val x -> reads_as x x.
Proof.
  intros E Hs Hr. destruct (plain_load s Hs) as (n & Hl & Hv). exists s, n.
  do 3 (split; [done|]). rewrite Hv. split; [constructor; by apply plain_faithful|].
  intros n' Hn'. by rewrite (plain_emit n' s).
Qed.

Lemma write_items_reads `{!Lexical T} `{!Container C T} (l l' : list T) :
  Forall2 reads_as l l' -> forall n ts, seq_view n ts -> exists n' us,
    write_items l n = Val n' /\ seq_view n' (ts ++ us)%list /\ Forall (all_texts faithful) us /\
    forall its (c : C), view <$> its = us -> read_items its c = Val (foldl (fun c x => add x c) c l').
Proof.
  induction 1 as [|x y l l' (s & m & E & _ & Hm & Ht & Hr) _ IH]; intros n ts Hn.
  - exists n, []. rewrite app_nil_r. do 3 (split; [done|]). intros [|] c; [done|discriminate].
  - destruct (IH _ _ (seq_push n ts m Hn)) as (n' & us & E' & Hn' & Hus & Hread).
    exists n', (view m :: us). cbn [write_items]. rewrite E. unfold mbind, res_bind. rewrite Hm.
    split; [done|]. rewrite <- app_assoc in Hn'. split; [done|]. split; [by constructor|].
    intros [|it its] c; [discriminate|]. intros [= Hit Hits]. cbn [read_items foldl].
    rewrite (Hr it Hit). by apply Hread.
Qed.

(** A container of elements that are read as others is read as the container of these. *)
Lemma sequence_reads `{!Lexical T} `{!Container C T} (c : C) l :
  Forall2 reads_as (listing c) l ->
  reads_as (Lexical0 := sequence_lexical) c (foldl (fun c x => add x c) nothing l).
Proof.
  intros Hl. destruct (write_items_reads (listing c) l Hl Node [] seq_view_Node)
    as (n & us & E & Hn & Hus & Hread).
  pose proof (seq_texts _ _ Hn Hus) as Ht.
  apply (reads_as_node (Lexical0 := sequence_lexical) _ _ n); [|done|].
  - cbn. by rewrite E.
  - intros n' Hv. cbn. rewrite <- Hv in Ht. destruct (load_emit n' Ht) as (m & -> & Hm).
    apply (Hread (items m) nothing). apply seq_items. unfold seq_view. rewrite Hm, Hv. exact Hn.
Qed.

Lemma write_members_reads `{!Lexical T} `{!Container C (string * T)} (l : list (string * T)) :
  NoDup l.*1 -> Forall (fun p => faithful p.1 /\ reads_as p.2 p.2) l ->
  forall n ts, map_view n ts -> (forall k, k ∈ l.*1 -> assoc k ts = None) -> exists n' us,
    write_members l n = Val n' /\ map_view n' (ts ++ us)%list /\
    Forall (fun p => faithful p.1 /\ all_texts faithful p.2) us /\
    forall its (c : C), (fun p => (Scalar p.1, view p.2)) <$> its = us ->
      read_members its c = Val (foldl (fun c x => add x c) c l).
Proof.
  intros Hnd Hl. revert Hnd.
  induction Hl as [|[k x] l [Hk (s & m & E & _ & Hm & Ht & Hr)] _ IH]; intros Hnd n ts Hn Hts.
  - exists n, []. rewrite app_nil_r. do 3 (split; [done|]). intros [|] c; [done|discriminate].
  - cbn in Hnd; apply list.NoDup_cons in Hnd as [Hnk Hnd].
    destruct (IH Hnd _ _ (map_set n ts k m Hn (Hts k (list_elem_of_here _ _))))
      as (n' & us & E' & Hn' & Hus & Hread).
    { intros k' Hk'. specialize (Hts k' (list_elem_of_further _ _ _ Hk')). revert Hts.
      clear -Hnk Hk'. induction ts as [|[k0 t0] ts IH]; simpl.
      - intros _. rewrite decide_False; [done|]. intros ->. done.
      - destruct (decide (k' = k0)); [done|exact IH]. }
    exists n', ((k, view m) :: us). cbn [write_members]. cbn in E. rewrite E.
    unfold mbind, res_bind. rewrite Hm.
    split; [done|]. rewrite <- app_assoc in Hn'. split; [done|]. split; [by constructor|].
    intros [|[kn it] its] c; [discriminate|]. intros [= Hkn Hit Hits]. cbn [read_members foldl].
    rewrite (Hr it Hit), Hkn. by apply Hread.
Qed.

Lemma members_read `{!Lexical T} `{!Container C (string * T)} (c : C) :
  NoDup (listing c).*1 -> Forall (fun p => faithful p.1 /\ reads_as p.2 p.2) (listing c) ->
  reads_as (Lexical0 := members_lexical) c (foldl (fun c x => add x c) nothing (listing c)).
Proof.
  intros Hnd Hl. destruct (write_members_reads (listing c) Hnd Hl Node [] map_view_Node)
    as (n & us & E & Hn & Hus & Hread); [done|].
  pose proof (map_texts _ _ Hn Hus) as Ht.
  apply (reads_as_node (Lexical0 := members_lexical) _ _ n); [|done|].
  - cbn. by rewrite E.
  - intros n' Hv. cbn. rewrite <- Hv in Ht. destruct (load_emit n' Ht) as (m & -> & Hm).
    apply (Hread (members m) nothing). apply map_members. unfold map_view. rewrite Hm, Hv. exact Hn.
Qed.

(** Reading the fields of a node. *)
Lemma field_none n m k : view n = TMap m -> assoc k m = None -> field n k = Val None.
Proof.
  intros Hn Hk. destruct (field_map n k m Hn) as (o & E & Ho). rewrite Hk in Ho. by destruct o.
Qed.
Lemma field_some n m k t :
  view n = TMap m -> assoc k m = Some t -> exists x, field n k = Val (Some x) /\ view x = t.
Proof.
  intros Hn Hk. destruct (field_map n k m Hn) as (o & E & Ho). rewrite Hk in Ho.
  destruct o as [x|]; [|done]. exists x. by simplify_eq/=.
Qed.
Lemma text_field_some n m k s :
  view n = TMap m -> assoc k m = Some (TScalar s) -> text_field n k = Val s.
Proof.
  intros Hn Hk. destruct (field_some n m k _ Hn Hk) as (x & E & Hx). unfold text_field. rewrite E.
  by apply as_string_scalar.
Qed.
Lemma text_field_none n m k : view n = TMap m -> assoc k m = None -> text_field n k = Val "".
Proof. intros Hn Hk. unfold text_field. by rewrite (field_none n m k). Qed.
Lemma text_field_if n m k s :
  view n = TMap m -> assoc k m = (if decide (s = "") then None else Some (TScalar s)) ->
  text_field n k = Val s.
Proof.
  intros Hn. case_decide as Hs; [rewrite Hs; by apply text_field_none|by apply text_field_some].
Qed.

Definition if_member (k s : string) : list (string * tree) :=
  if decide (s = "") then [] else [(k, TScalar s)].
Lemma set_text n m k s :
  map_view n m -> assoc k m = None -> map_view (set_field n k (of_string s)) (m ++ [(k, TScalar s)])%list.
Proof. intros Hn Hk. rewrite <- (view_of_string s). by apply map_set. Qed.
Lemma set_if_text n m k s :
  map_view n m -> assoc k m = None -> map_view (if_text k s n) (m ++ if_member k s)%list.
Proof.
  intros Hn Hk. unfold if_text, if_member. case_decide; [by rewrite app_nil_r|by apply set_text].
Qed.
Lemma map_view_full n m : map_view n m -> m <> [] -> view n = TMap m.
Proof. by intros [[_ ?]|?]. Qed.
End Laws.

(** Finish a goal about the fields of a concrete node. *)
Ltac fields := simpl; repeat (case_decide; simplify_eq/=); try done.

(** The names of the levels: what has no name comes back as 0. *)
Definition stored_level (level : Z) : Z := if (1 <=? level) && (level <=? 5) then level else 0.
Lemma level_names_read level :
  LogLevel_FromString (LogLevel_ToString level) = stored_level level /\
  chars printable (LogLevel_ToString level) = true.
Proof.
  unfold stored_level. destruct ((1 <=? level) && (level <=? 5)) eqn:E.
  - apply andb_true_iff in E as [H1%Z.leb_le H2%Z.leb_le].
    assert (H : level = 1 \/ level = 2 \/ level = 3 \/ level = 4 \/ level = 5) by lia.
    destruct H as [-> | [-> | [-> | [-> | ->]]]]; by vm_compute.
  - assert (H : LogLevel_ToString level = "UNKNOW"); [|rewrite H; by vm_compute].
    unfold LogLevel_ToString. destruct (list_find _ _) as [[i [l s]]|] eqn:El; [exfalso|done].
    apply list_find_Some in El as (Hl & He & _). simpl in He. subst l.
    assert (Hm : (level, s) ∈ level_names) by by eapply list_elem_of_lookup_2.
    repeat (apply elem_of_cons in Hm as [[= -> _]|Hm]; [by vm_compute in E|]).
    by apply elem_of_nil in Hm.
Qed.

(** Numbers are printed in ASCII. *)
Lemma int_printable (z : Z) : chars printable (pretty z) = true.
Proof.
  assert (H : forall p, chars printable (pretty (N.pos p)) = true).
  { intros p. apply (Http.chars_decimal printable (Z.pos p)). intros d. unfold pretty_N_char.
    by repeat case_match. }
  destruct z as [|p|p]; [done|apply H|exact (H p)].
Qed.

(** What is kept of an appender's definition. *)
Definition kept (a : LogAppenderDefine) : LogAppenderDefine :=
  if ad_type a =? 1 then mkAppenderDefine 1 (stored_level (ad_level a)) (ad_formatter a) (ad_file a)
  else if ad_type a =? 2 then mkAppenderDefine 2 (stored_level (ad_level a)) "" ""
  else mkAppenderDefine 0 0 "" "".

Section Definitions.
Context `{Laws : YamlLaws}.

Lemma level_text level : faithful (LogLevel_ToString level).
Proof. apply faithful_ascii, level_names_read. Qed.

(** The members of the node that is printed for an appender. *)
Definition appender_members (a : LogAppenderDefine) : list (string * tree) :=
  ((if ad_type a =? 1 then [("type", TScalar "FileLogAppender"); ("file", TScalar (ad_file a))]
    else if ad_type a =? 2 then [("type", TScalar "StdoutLogAppender")] else [])
   ++ ("level", TScalar (LogLevel_ToString (ad_level a))) :: if_member "formatter" (ad_formatter a))%list.

Lemma appender_node_view a : view (appender_node a) = TMap (appender_members a).
Proof.
  unfold appender_node, appender_members.
  assert (H : forall n m, map_view n m -> assoc "level" m = None -> assoc "formatter" m = None ->
    map_view (if_text "formatter" (ad_formatter a) (set_field n "level" (of_string (LogLevel_ToString (ad_level a)))))
      (m ++ ("level", TScalar (LogLevel_ToString (ad_level a))) :: if_member "formatter" (ad_formatter a))).
  { intros n m Hn H1 H2. rewrite cons_middle, app_assoc.
    apply set_if_text; [by apply set_text|]. rewrite assoc_app, H2. by fields. }
  destruct (ad_type a =? 1); [|destruct (ad_type a =? 2)].
  - apply map_view_full; [|done]. apply (H _ [("type", _); ("file", _)]); [|by fields..].
    apply (set_text _ [_]); [|by fields]. apply (set_text _ []); [apply map_view_Node|done].
  - apply map_view_full; [|done]. apply (H _ [("type", _)]); [|by fields..].
    apply (set_text _ []); [apply map_view_Node|done].
  - apply map_view_full; [|done]. apply (H _ []); [apply map_view_Node|done..].
Qed.

Lemma appender_texts a :
  faithful (ad_file a) -> faithful (ad_formatter a) -> all_texts faithful (view (appender_node a)).
Proof.
  intros Hfile Hformatter. rewrite appender_node_view. constructor.
  unfold appender_members, if_member. pose proof (level_text (ad_level a)).
  destruct (ad_type a =? 1); [|destruct (ad_type a =? 2)]; case_decide;
    repeat (constructor; try done); by apply faithful_ascii.
Qed.

(** What [appender_from] makes of a node with these members. *)
Lemma appender_from_members v n a :
  Load v = Val n -> view n = TMap (appender_members a) -> appender_from v = Val (kept a).
Proof.
  intros E Hn. unfold appender_from. rewrite E. unfold mbind, res_bind.
  assert (Hl : text_field n "level" = Val (LogLevel_ToString (ad_level a))).
  { apply (text_field_some n _ _ _ Hn). unfold appender_members.
    destruct (ad_type a =? 1); [|destruct (ad_type a =? 2)]; by fields. }
  pose proof (level_names_read (ad_level a)) as [Hlevel _].
  unfold kept. unfold appender_members in Hn. destruct (ad_type a =? 1); [|destruct (ad_type a =? 2)].
  - destruct (field_some n _ "type" (TScalar "FileLogAppender") Hn) as (t & -> & Ht); [by fields|].
    rewrite Hl, (as_string_scalar t _ Ht). rewrite decide_True by done.
    destruct (field_some n _ "file" (TScalar (ad_file a)) Hn) as (f & -> & Hf); [by fields|].
    rewrite (as_string_scalar f _ Hf), (text_field_if n _ "formatter" (ad_formatter a) Hn);
      [by rewrite Hlevel|]. unfold if_member. by fields.
  - destruct (field_some n _ "type" (TScalar "StdoutLogAppender") Hn) as (t & -> & Ht); [by fields|].
    rewrite Hl, (as_string_scalar t _ Ht), decide_False, decide_True by done. by rewrite Hlevel.
  - rewrite (field_none n _ "type" Hn); [done|]. unfold if_member. by fields.
Qed.

(** An appender's definition comes back, but for the formatter of one that prints to the
    terminal. *)
Lemma appender_reads a :
  faithful (ad_file a) -> faithful (ad_formatter a) -> reads_as a (kept a).
Proof.
  intros Hfile Hformatter. pose proof (appender_texts a Hfile Hformatter) as Ht.
  apply (reads_as_node _ _ (appender_node a)); [done|done|].
  intros n' Hv. rewrite <- Hv in Ht. destruct (load_emit n' Ht) as (m & E & Hm).
  apply (appender_from_members _ m); [done|]. by rewrite Hm, Hv, appender_node_view.
Qed.

Lemma appenders_text l :
  Forall (fun a => faithful (ad_file a) /\ faithful (ad_formatter a)) l ->
  exists s, appenders_to l = Val s /\ faithful s.
Proof.
  intros Hl. assert (H : Forall2 reads_as l (kept <$> l)).
  { apply Forall2_fmap_r, Forall_Forall2_diag, list.Forall_forall. intros a Ha.
    destruct (proj1 (list.Forall_forall _ _) Hl a Ha). by apply appender_reads. }
  destruct (write_items_reads (C := vector LogAppenderDefine) l _ H Node [] seq_view_Node)
    as (n & us & E & Hn & Hus & _).
  exists (emit n). split; [cbn; by rewrite E|]. apply emit_faithful. by eapply seq_texts.
Qed.

Definition define_members (d : LogDefine) (s : string) : list (string * tree) :=
  ((("name", TScalar (ld_name d)) :: ("level", TScalar (LogLevel_ToString (ld_level d))) ::
    if_member "formatter" (ld_formatter d)) ++ [("appenders", TScalar s)])%list.

Lemma define_node_view d s :
  view (set_field (if_text "formatter" (ld_formatter d)
    (set_field (set_field Node "name" (of_string (ld_name d))) "level"
      (of_string (LogLevel_ToString (ld_level d))))) "appenders" (of_string s)) =
  TMap (define_members d s).
Proof.
  apply map_view_full; [|done]. apply set_text; [|unfold if_member; by fields].
  apply (set_if_text _ [_; _]); [|by fields]. apply (set_text _ [_]); [|by fields].
  apply (set_text _ []); [apply map_view_Node|done].
Qed.

(** A scalar has no elements. *)
Lemma appenders_of_text n s :
  view n = TScalar s -> faithful s -> appenders_from (emit n) = Val [].
Proof.
  intros Hn Hs. assert (Ht : all_texts faithful (view n)) by (rewrite Hn; by constructor).
  destruct (load_emit n Ht) as (m & E & Hm). cbn. rewrite E. unfold mbind, res_bind.
  by rewrite (items_scalar m s) by (by rewrite Hm).
Qed.

Lemma define_from_members v n d s :
  Load v = Val n -> view n = TMap (define_members d s) -> faithful s ->
  define_from v = Val (mkDefine (ld_name d) (stored_level (ld_level d)) (ld_formatter d) []).
Proof.
  intros E Hn Hs. unfold define_from. rewrite E. unfold mbind, res_bind.
  destruct (field_some n _ "name" (TScalar (ld_name d)) Hn) as (x & -> & Hx); [by fields|].
  rewrite (as_string_scalar x _ Hx).
  rewrite (text_field_some n _ "level" (LogLevel_ToString (ld_level d)) Hn) by by fields.
  rewrite (text_field_if n _ "formatter" (ld_formatter d) Hn)
    by (unfold define_members, if_member; by fields).
  destruct (field_some n _ "appenders" (TScalar s) Hn) as (a & -> & Ha);
    [unfold define_members, if_member; by fields|].
  rewrite (appenders_of_text a s Ha Hs). by rewrite (proj1 (level_names_read _)).
Qed.

(** The definition of a logger comes back without its appenders. *)
Lemma define_reads d :
  faithful (ld_name d) -> faithful (ld_formatter d) ->
  Forall (fun a => faithful (ad_file a) /\ faithful (ad_formatter a)) (ld_appenders d) ->
  reads_as d (mkDefine (ld_name d) (stored_level (ld_level d)) (ld_formatter d) []).
Proof.
  intros Hname Hformatter Happ. destruct (appenders_text _ Happ) as (s & Es & Hs).
  set (n := set_field (if_text "formatter" (ld_formatter d)
    (set_field (set_field Node "name" (of_string (ld_name d))) "level"
      (of_string (LogLevel_ToString (ld_level d))))) "appenders" (of_string s)).
  assert (Ht : all_texts faithful (view n)).
  { unfold n. rewrite define_node_view. constructor. unfold define_members, if_member.
    pose proof (level_text (ld_level d)).
    case_decide; repeat (constructor; try done); by apply faithful_ascii. }
  apply (reads_as_node _ _ n); [|done|].
  - cbn [to_text define_lexical]. unfold define_to. by rewrite Es.
  - intros n' Hv. rewrite <- Hv in Ht. destruct (load_emit n' Ht) as (m & E & Hm).
    apply (define_from_members _ m _ s); [done| |done]. by rewrite Hm, Hv, <- define_node_view.
Qed.

(** The definition that an appender, and a logger, was made from. *)
Definition pattern_of (fmt : option LogFormatter) : string :=
  match fmt with Some f => m_pattern f | None => "" end.
Definition define_of_appender (a : LogAppender) : LogAppenderDefine :=
  match a_kind a with
  | StdoutLogAppender => mkAppenderDefine 2 (a_level a) (pattern_of (a_formatter a)) ""
  | FileLogAppender m_filename _ => mkAppenderDefine 1 (a_level a) (pattern_of (a_formatter a)) m_filename
  end.
Definition has_pattern (fmt : option LogFormatter) : Prop :=
  faithful (pattern_of fmt) /\ pattern_of fmt <> "".
Definition dumps (a : LogAppender) : Prop :=
  has_pattern (a_formatter a) /\
  match a_kind a with FileLogAppender m_filename _ => faithful m_filename | StdoutLogAppender => True end.

Lemma pattern_field_text fmt n :
  has_pattern fmt -> pattern_field fmt n = if_text "formatter" (pattern_of fmt) n.
Proof. intros [_ H]. unfold if_text. rewrite decide_False by done. by destruct fmt. Qed.

Lemma appender_dump a :
  dumps a -> appender_toYamlString a = emit (appender_node (define_of_appender a)) /\
    all_texts faithful (view (appender_node (define_of_appender a))).
Proof.
  intros [Hp Hk]. split.
  - unfold appender_toYamlString, define_of_appender. rewrite pattern_field_text by done.
    by destruct (a_kind a).
  - destruct Hp. apply appender_texts; unfold define_of_appender; destruct (a_kind a); try done;
      by apply faithful_ascii.
Qed.

Lemma push_dumps l n us :
  Forall dumps l -> seq_view n us -> exists n',
    push_loaded (appender_toYamlString <$> l) n = Val n' /\
    seq_view n' (us ++ ((fun a => TMap (appender_members (define_of_appender a))) <$> l))%list.
Proof.
  intros Hl. revert n us. induction Hl as [|a l Ha _ IH]; intros n us Hn.
  { exists n. by rewrite app_nil_r. }
  destruct (appender_dump a Ha) as [E Ht]. destruct (load_emit _ Ht) as (m & Em & Hm).
  destruct (IH _ _ (seq_push n us m Hn)) as (n' & E' & Hn'). exists n'.
  rewrite fmap_cons. cbn [push_loaded]. rewrite E. unfold mbind, res_bind. rewrite Em.
  split; [done|]. rewrite Hm, appender_node_view, <- app_assoc in Hn'. exact Hn'.
Qed.

(** Elements that stand for appenders are read as these. *)
Lemma read_appenders (l : list LogAppenderDefine) : forall ns c,
  view <$> ns = (fun a => TMap (appender_members a)) <$> l ->
  Forall (fun a => all_texts faithful (TMap (appender_members a))) l ->
  read_items (C := vector LogAppenderDefine) ns c = Val (c ++ (kept <$> l))%list.
Proof.
  induction l as [|a l IH]; intros [|n ns] c; try done.
  - intros _ _. by rewrite app_nil_r.
  - intros [= Hn Hns] [Ha Hl]%list.Forall_cons. cbn [read_items].
    rewrite <- Hn in Ha. destruct (load_emit n Ha) as (m & E & Hm).
    change (from_text (emit n)) with (appender_from (emit n)).
    rewrite (appender_from_members _ m a) by (done || by rewrite Hm, Hn).
    unfold mbind, res_bind. rewrite IH by done. cbn. by rewrite <- app_assoc.
Qed.

Lemma appenders_at_val s l ys :
  Forall2 (fun a y => appenders s !! a = Some y) l ys -> appenders_at l s = (Val ys, s).
Proof.
  induction 1 as [|a y l ys E _ IH]; [done|]. cbn [appenders_at].
  assert (Ea : appender_at a s = (Val y, s)) by (unfold appender_at; by rewrite E).
  by rewrite (st_bind_val _ _ _ _ _ Ea), (st_bind_val _ _ _ _ _ IH).
Qed.

(** The members of the dump of a logger. *)
Definition logger_members (x : Logger) : list (string * tree) :=
  [("name", TScalar (m_name x)); ("level", TScalar (LogLevel_ToString (m_level x)));
   ("formatter", TScalar (pattern_of (m_formatter x)))].
Lemma logger_node_view x :
  has_pattern (m_formatter x) ->
  map_view (pattern_field (m_formatter x) (set_field (set_field Node "name" (of_string (m_name x)))
    "level" (of_string (LogLevel_ToString (m_level x))))) (logger_members x).
Proof.
  intros Hp. rewrite pattern_field_text by done. unfold if_text.
  rewrite decide_False by apply Hp. apply (set_text _ [_; _]); [|by fields].
  apply (set_text _ [_]); [|by fields]. apply (set_text _ []); [apply map_view_Node|done].
Qed.

(** What [define_from] makes of a node with these members and a sequence of appenders. *)
Lemma define_from_dump v n x l (more : list (string * tree)) :
  Load v = Val n -> view n = TMap (logger_members x ++ more) ->
  Forall (fun a => all_texts faithful (TMap (appender_members a))) l ->
  more = match l with
         | [] => []
         | _ => [("appenders", TSeq ((fun a => TMap (appender_members a)) <$> l))]
         end ->
  define_from v = Val (mkDefine (m_name x) (stored_level (m_level x)) (pattern_of (m_formatter x)) (kept <$> l)).
Proof.
  intros E Hn Hl ->. unfold define_from. rewrite E. unfold mbind, res_bind.
  destruct (field_some n _ "name" (TScalar (m_name x)) Hn) as (y & -> & Hy); [by fields|].
  rewrite (as_string_scalar y _ Hy).
  rewrite (text_field_some n _ "level" (LogLevel_ToString (m_level x)) Hn) by by fields.
  rewrite (text_field_some n _ "formatter" (pattern_of (m_formatter x)) Hn) by by fields.
  rewrite (proj1 (level_names_read _)). destruct l as [|a l].
  { by rewrite (field_none n _ "appenders" Hn) by by fields. }
  destruct (field_some n _ "appenders" (TSeq ((fun a => TMap (appender_members a)) <$> (a :: l))) Hn)
    as (z & -> & Hz); [by fields|].
  assert (Ht : all_texts faithful (view z)) by (rewrite Hz; constructor; by apply Forall_fmap).
  destruct (load_emit z Ht) as (m & Em & Hm). rewrite Hz in Hm. cbn. rewrite Em.
  unfold mbind, res_bind. by rewrite (read_appenders (a :: l)) by (done || by apply items_seq).
Qed.

(** The dump of a logger is a definition that makes the same logger again, up to the
    formatters of appenders that print to the terminal: in contrast to [define_to], its
    appenders are a sequence. *)
Lemma logger_dump_read s l x ys :
  loggers s !! l = Some x -> Forall2 (fun a y => appenders s !! a = Some y) (m_appenders x) ys ->
  Forall dumps ys -> has_pattern (m_formatter x) -> faithful (m_name x) ->
  exists text, Logger_toYamlString l s = (Val text, s) /\
    define_from text = Val (mkDefine (m_name x) (stored_level (m_level x)) (pattern_of (m_formatter x))
      (kept <$> (define_of_appender <$> ys))).
Proof.
  intros Hx Hys Hd Hp Hname. unfold Logger_toYamlString.
  assert (El : logger_at l s = (Val x, s)) by (unfold logger_at; by rewrite Hx).
  rewrite (st_bind_val _ _ _ _ _ El), (st_bind_val _ _ _ _ _ (appenders_at_val _ _ _ Hys)).
  pose proof (logger_node_view x Hp) as Hv. set (n := pattern_field _ _) in *.
  assert (Ht : Forall (fun p => faithful p.1 /\ all_texts faithful p.2) (logger_members x)).
  { repeat (constructor; try done); try (by apply faithful_ascii); [apply level_text|apply Hp]. }
  assert (Hdefs : Forall (fun a => all_texts faithful (TMap (appender_members a))) (define_of_appender <$> ys)).
  { apply Forall_fmap. eapply Forall_impl; [|exact Hd]. intros a Ha. cbn.
    rewrite <- appender_node_view. by apply appender_dump. }
  destruct ys as [|y ys].
  - exists (emit n). split; [done|]. destruct (load_emit n (map_texts _ _ Hv Ht)) as (m & E & Hm).
    apply (define_from_dump _ m x [] []); try done. by rewrite Hm, app_nil_r, (map_view_full _ _ Hv).
  - destruct (push_dumps (y :: ys) Node [] Hd seq_view_Node) as (a & Ea & Ha).
    rewrite (lift_bind _ _ _ _ Ea). destruct Ha as [[_ ?]|Ha]; [done|].
    pose proof (map_set _ _ "appenders" a Hv eq_refl) as Hv'. rewrite Ha in Hv'.
    eexists. split; [reflexivity|].
    assert (Ht' : all_texts faithful (view (set_field n "appenders" a))).
    { apply (map_texts _ _ Hv'), Forall_app. split; [exact Ht|]. constructor; [|done].
      split; [by apply faithful_ascii|]. cbn [snd]. constructor.
      rewrite app_nil_l. rewrite Forall_fmap in Hdefs. by apply Forall_fmap. }
    destruct (load_emit _ Ht') as (m & E & Hm).
    apply (define_from_dump _ m x (define_of_appender <$> (y :: ys)) _ E
      (eq_trans Hm (map_view_full _ _ Hv' ltac:(done))) Hdefs).
    by rewrite <- list_fmap_compose.
Qed.

Definition conf_members (c : HttpServerConf) : list (string * tree) :=
  ([("name", TScalar (conf_name c)); ("keepalive", TScalar (pretty (conf_keepalive c)));
    ("timeout", TScalar (pretty (conf_timeout c)))] ++
   match conf_address c with [] => [] | l => [("address", TSeq (TScalar <$> l))] end)%list.

Lemma push_all l n us :
  seq_view n us ->
  seq_view (foldl (fun a i => push_back a (of_string i)) n l) (us ++ (TScalar <$> l))%list.
Proof.
  revert n us. induction l as [|s l IH]; intros n us Hn; [by rewrite app_nil_r|]. cbn [foldl].
  rewrite fmap_cons, cons_middle, app_assoc. apply IH. rewrite <- (view_of_string s). by apply seq_push.
Qed.

Lemma conf_node_view c : view (conf_node c) = TMap (conf_members c).
Proof.
  assert (H : map_view (set_field (set_field (set_field Node "name" (of_string (conf_name c)))
      "keepalive" (of_int (conf_keepalive c))) "timeout" (of_int (conf_timeout c)))
    [("name", TScalar (conf_name c)); ("keepalive", TScalar (pretty (conf_keepalive c)));
     ("timeout", TScalar (pretty (conf_timeout c)))]).
  { rewrite <- !view_of_int. apply (map_set _ [_; _]); [|by fields]. apply (map_set _ [_]); [|by fields].
    apply (set_text _ []); [apply map_view_Node|done]. }
  unfold conf_node, conf_members. destruct (conf_address c) as [|a l]; [by apply map_view_full|].
  destruct (push_all (a :: l) Node [] seq_view_Node) as [[_ E]|E]; [done|].
  apply map_view_full; [|done].
  pose proof (map_set _ _ "address" (foldl (fun a i => push_back a (of_string i)) Node (a :: l)) H) as Hs.
  rewrite E in Hs. by apply Hs.
Qed.

Lemma all_strings_of l ns : view <$> ns = TScalar <$> l -> all_strings ns = Val l.
Proof.
  revert l. induction ns as [|n ns IH]; intros [|s l]; try done. intros [= Hn Hns]. cbn [all_strings].
  rewrite (as_string_scalar n s Hn). unfold mbind, res_bind. by rewrite (IH l Hns).
Qed.

Lemma as_or_some {T} (as_T : node -> res T) n m k t (x fallback : T) :
  view n = TMap m -> assoc k m = Some t -> (forall a, view a = t -> as_T a = Val x) ->
  as_or as_T n k fallback = Val x.
Proof.
  intros Hn Hk Has. destruct (field_some n m k t Hn Hk) as (a & E & Ha). unfold as_or.
  rewrite E. unfold mbind, res_bind. by rewrite (Has a Ha).
Qed.

Definition int_conf (c : HttpServerConf) : Prop := in_s 32 (conf_keepalive c) /\ in_s 32 (conf_timeout c).

Lemma conf_from_members v n c :
  Load v = Val n -> view n = TMap (conf_members c) -> int_conf c -> conf_from v = Val c.
Proof.
  intros E Hn [Hk Ht]. unfold conf_from. rewrite E. unfold mbind at 1, res_bind at 1.
  rewrite (as_or_some as_int n _ "keepalive" _ (conf_keepalive c) _ Hn eq_refl)
    by (intros; by apply as_int_scalar).
  unfold mbind at 1, res_bind at 1.
  rewrite (as_or_some as_int n _ "timeout" _ (conf_timeout c) _ Hn eq_refl)
    by (intros; by apply as_int_scalar).
  unfold mbind at 1, res_bind at 1.
  rewrite (as_or_some as_string n _ "name" _ (conf_name c) _ Hn eq_refl)
    by (intros; by apply as_string_scalar).
  unfold mbind, res_bind. destruct c as [[|a l] keepalive timeout name]; simpl in *.
  - by rewrite (field_none n _ "address" Hn) by by fields.
  - destruct (field_some n _ "address" (TSeq (TScalar <$> (a :: l))) Hn) as (x & -> & Hx); [by fields|].
    by rewrite (all_strings_of (a :: l)) by by apply items_seq.
Qed.

(** The configuration of a server comes back. *)
Lemma conf_reads c :
  Forall faithful (conf_address c) -> faithful (conf_name c) -> int_conf c -> reads_as c c.
Proof.
  intros Haddr Hname Hint. assert (Ht : all_texts faithful (view (conf_node c))).
  { rewrite conf_node_view. constructor. unfold conf_members.
    apply Forall_app. split.
    - repeat constructor; try done; apply faithful_ascii; (done || apply int_printable).
    - destruct (conf_address c) as [|a l]; [done|].
      constructor; [split; [by apply faithful_ascii|]|done]. apply all_seq, Forall_fmap.
      eapply Forall_impl; [|exact Haddr]. intros s Hs. by constructor. }
  apply (reads_as_node _ _ (conf_node c)); [done|done|].
  intros n' Hv. rewrite <- Hv in Ht. destruct (load_emit n' Ht) as (m & E & Hm).
  apply (conf_from_members _ m); [done| |done]. by rewrite Hm, Hv, conf_node_view.
Qed.
End Definitions.

Lemma containers_of_vector `{Laws : YamlLaws} `{!Lexical T} (v : vector T) :
  Forall (fun x => reads_as x x) v -> reads_as v v.
Proof.
  intros Hv. rewrite <- (rebuild (C := vector T) (A := T) v I) at 2.
  by apply sequence_reads, Forall_Forall2_diag.
Qed.

(** ** A YAML library that keeps its promises

    Nodes are the trees themselves. A text that does not start with an exclamation mark
    is a scalar; one that does encodes a tree. *)
Module TreeYaml.
Fixpoint to_gen (t : tree) : gen_tree string :=
  match t with
  | TNull => GenNode 0 []
  | TScalar s => GenLeaf s
  | TSeq l => GenNode 1 (to_gen <$> l)
  | TMap m => GenNode 2 ((fun p => GenNode 3 [GenLeaf p.1; to_gen p.2]) <$> m)
  end.
Fixpoint of_gen (g : gen_tree string) : tree :=
  match g with
  | GenLeaf s => TScalar s
  | GenNode 1 l => TSeq (of_gen <$> l)
  | GenNode 2 l =>
      TMap ((fun g => match g with GenNode 3 [GenLeaf k; g] => (k, of_gen g) | _ => ("", TNull) end) <$> l)
  | _ => TNull
  end.
Lemma of_to_gen : forall t, of_gen (to_gen t) = t.
Proof.
  fix IH 1. intros [|s|l|m]; [done|done| |].
  - apply (f_equal TSeq (x := of_gen <$> (to_gen <$> l))).
    induction l as [|t l IHl]; [done|]. by rewrite !fmap_cons, IH, IHl.
  - apply (f_equal TMap). induction m as [|[k t] m IHm]; [done|]. rewrite !fmap_cons.
    apply f_equal2; [by rewrite IH|exact IHm].
Qed.

Definition zero : Ascii.ascii := Ascii.ascii_of_N 48.
Definition one : Ascii.ascii := Ascii.ascii_of_N 49.
Fixpoint bits (p : positive) : string :=
  match p with xH => "" | xO p => String zero (bits p) | xI p => String one (bits p) end.
Fixpoint of_bits (s : string) : positive :=
  match s with
  | "" => xH
  | String c s => if decide (c = one) then xI (of_bits s) else xO (of_bits s)
  end.
Lemma of_to_bits p : of_bits (bits p) = p.
Proof. induction p as [p IH|p IH|]; simpl; by rewrite ?IH. Qed.

Definition mark : Ascii.ascii := Ascii.ascii_of_N 33.
Definition is_plain (s : string) : bool :=
  match s with "" => false | String c _ => negb (bool_decide (c = mark)) end.
Definition print (t : tree) : string :=
  match t with
  | TScalar s => if is_plain s then s else String mark (bits (encode (to_gen t)))
  | _ => String mark (bits (encode (to_gen t)))
  end.
Definition parse (s : string) : res tree :=
  match s with
  | "" => Val TNull
  | String c s' =>
      if bool_decide (c = mark)
      then match decode (of_bits s') with Some g => Val (of_gen g) | None => Exc invalid_argument end
      else Val (TScalar s)
  end.
Definition number (s : string) : Z :=
  match s with
  | String c s' => if code c =? 45 then - digits 10 0 s' else digits 10 0 s
  | "" => 0
  end.

#[export] Instance tree_yaml : YamlLib := {|
  node := tree;
  Node := TNull;
  Load := parse;
  emit := print;
  items t := match t with TSeq l => l | _ => [] end;
  members t := match t with TMap m => (fun p => (TScalar p.1, p.2)) <$> m | _ => [] end;
  Scalar t := match t with TScalar s => s | _ => "" end;
  field t k := match t with
               | TMap m => Val (assoc k m)
               | TScalar _ => Exc invalid_argument
               | _ => Val None
               end;
  as_string t := match t with TScalar s => Val s | _ => Exc invalid_argument end;
  as_int t := match t with TScalar s => Val (number s) | _ => Exc invalid_argument end;
  of_string := TScalar;
  of_int z := TScalar (pretty z);
  push_back t x := match t with TSeq l => TSeq (l ++ [x]) | _ => TSeq [x] end;
  set_field t k x := match t with TMap m => TMap (m ++ [(k, x)]) | _ => TMap [(k, x)] end |}.

Lemma parse_plain s : is_plain s = true -> parse s = Val (TScalar s).
Proof. destruct s as [|c s]; [done|]. unfold is_plain, parse. by destruct (bool_decide _). Qed.

Lemma parse_print t : parse (print t) = Val t.
Proof.
  assert (H : parse (String mark (bits (encode (to_gen t)))) = Val t).
  { cbn [parse]. rewrite bool_decide_true, of_to_bits, decode_encode by done. by rewrite of_to_gen. }
  destruct t as [|s|l|m]; try exact H. unfold print. destruct (is_plain s) eqn:E; [|exact H].
  by apply parse_plain.
Qed.

Lemma number_pretty z : number (pretty z) = z.
Proof.
  assert (Hd : forall p, digits 10 0 (pretty (N.pos p)) = Z.pos p).
  { intros p. pose proof (digits_pretty (N.pos p) "") as E. by rewrite string_app_nil in E. }
  destruct z as [|p|p]; [done| |].
  - change (pretty (Z.pos p)) with (pretty (N.pos p)).
    destruct (pretty_head (N.pos p)) as (c & s & E & Hc). specialize (Hd p). rewrite E in *.
    unfold number. by rewrite (proj2 (Z.eqb_neq (code c) 45)) by lia.
  - change (pretty (Z.neg p)) with ("-" ++ pretty (N.pos p))%string.
    exact (f_equal Z.opp (Hd p)).
Qed.

#[export] Instance tree_laws : YamlLaws tree_yaml.
Proof.
  apply (Build_YamlLaws tree_yaml (id : @node tree_yaml -> tree) (fun _ => True)
    (fun s => is_plain s = true)).
  all: unfold id; try done.
  - by intros n x l [[-> ->] | ->].
  - by intros n k x m [[-> ->] | ->].
  - intros n l ->. cbn. apply list_fmap_id.
  - by intros n ->.
  - by intros n s ->.
  - intros n m ->. cbn. rewrite <- list_fmap_compose. etrans; [|apply list_fmap_id].
    apply list_fmap_ext. by intros i [k t].
  - by intros n ->.
  - intros n k m ->. exists (assoc k m). split; [done|]. apply option_fmap_id.
  - by intros n s ->.
  - intros n z -> _. cbn. by rewrite number_pretty.
  - intros n _. exists n. split; [apply parse_print|done].
  - intros s Hs. exists (TScalar s). split; [by apply parse_plain|done].
  - intros n s Hs ->. cbn. by rewrite Hs.
Defined.
End TreeYaml.

(** ** Properties *)

(** Containers come back when their elements do, so at any nesting: sets and maps
    that are ordered, and the unordered ones whatever the order of their tables. The
    names of a map have to be texts that printing keeps. *)
Theorem containers_read_back `{Laws : YamlLaws} (T : Type) `{!Lexical T} :
  (forall v : vector T, Forall (fun x => reads_as x x) v -> reads_as v v) /\
  (forall l : std_list T, Forall (fun x => reads_as x x) l -> reads_as l l) /\
  (forall (Hless : Less T) (Hweak : StrictWeak less) (s : std_set T),
     ordered less id s -> Forall (fun x => reads_as x x) s -> reads_as s s) /\
  (forall `{Countable T} (Hhash : HashOrder (unordered_set T) T) (s : unordered_set T),
     hash_order s ≡ₚ elements (s : gset T) ->
     set_Forall (fun x => reads_as x x) (s : gset T) -> reads_as s s) /\
  (forall m : std_map T, ordered string_less fst m ->
     Forall (fun p => faithful p.1 /\ reads_as p.2 p.2) m -> reads_as m m) /\
  (forall (Hhash : HashOrder (unordered_map T) (string * T)) (m : unordered_map T),
     hash_order m ≡ₚ map_to_list (m : gmap string T) ->
     map_Forall (fun k x => faithful k /\ reads_as x x) (m : gmap string T) -> reads_as m m).
Proof.
  assert (Hseq : forall C (HC : Container C T) (c : C),
    foldl (fun c x => add x c) nothing (listing c) = c -> Forall (fun x => reads_as x x) (listing c) ->
    reads_as (Lexical0 := sequence_lexical) c c).
  { intros C HC c Hc Hl. rewrite <- Hc at 2. by apply sequence_reads, Forall_Forall2_diag. }
  assert (Hmap : forall C (HC : Container C (string * T)) (c : C),
    foldl (fun c x => add x c) nothing (listing c) = c -> NoDup (listing c).*1 ->
    Forall (fun p => faithful p.1 /\ reads_as p.2 p.2) (listing c) ->
    reads_as (Lexical0 := members_lexical) c c).
  { intros C HC c Hc Hnd Hl. rewrite <- Hc at 2. by apply members_read. }
  split_and!.
  - intros v Hv. by apply containers_of_vector.
  - intros l Hl. apply Hseq; [by apply (rebuild l)|done].
  - intros Hless Hweak s Hs Hl. apply Hseq; [by apply (rebuild s)|done].
  - intros E C Hhash s Hs Hl. apply Hseq; [by apply (rebuild s)|]. cbn. rewrite Hs.
    by apply set_Forall_elements.
  - intros m Hm Hl. apply Hmap; [by apply (rebuild m)| |done]. by apply (ordered_keys_differ string_less fst).
  - intros Hhash m Hm Hl. apply Hmap; [by apply (rebuild m)| |]; cbn; rewrite Hm.
    + exact (NoDup_fst_map_to_list (m : gmap string T)).
    + apply list.Forall_forall. intros [k x] Hk. apply (Hl k x). by apply elem_of_map_to_list.
Qed.

(** What is read of a printed configuration. The servers come back as they were; a
    definition of a logger comes back without its appenders, since their text is printed
    as a string; an appender by itself comes back, but one that prints to the terminal
    loses its formatter. *)
Theorem configurations_read_back `{Laws : YamlLaws} :
  (forall l : vector HttpServerConf,
     Forall (fun c => Forall faithful (conf_address c) /\ faithful (conf_name c) /\ int_conf c) l ->
     reads_as l l) /\
  (forall d : LogDefine,
     faithful (ld_name d) -> faithful (ld_formatter d) ->
     Forall (fun a => faithful (ad_file a) /\ faithful (ad_formatter a)) (ld_appenders d) ->
     reads_as d (mkDefine (ld_name d) (stored_level (ld_level d)) (ld_formatter d) []) /\
     Forall (fun a => reads_as a (kept a)) (ld_appenders d)).
Proof.
  split.
  - intros l Hl. apply containers_of_vector. eapply Forall_impl; [|exact Hl].
    intros c (Ha & Hn & Hi). by apply conf_reads.
  - intros d Hn Hf Ha. split; [by apply define_reads|]. eapply Forall_impl; [|exact Ha].
    intros a [H1 H2]. by apply appender_reads.
Qed.

Definition one_server : HttpServerConf := mkConf ["0.0.0.0:8020"; "[::1]:80"] 1 (-1) "server a".
Definition one_logger : LogDefine :=
  mkDefine "system" 2 "%m%n" [mkAppenderDefine 1 3 "%d%m" "a.log"; mkAppenderDefine 2 1 "%m" ""].

Import TreeYaml.
Lemma configurations_read_back_witness :
  reads_as (H := TreeYaml.tree_laws) (T := vector HttpServerConf) [one_server] [one_server] /\
  reads_as (H := TreeYaml.tree_laws) one_logger (mkDefine "system" 2 "%m%n" []).
Proof.
  destruct (configurations_read_back (Laws := TreeYaml.tree_laws)) as [H1 H2]. split.
  - apply H1. repeat constructor; by vm_compute.
  - apply (H2 one_logger); try exact I. repeat constructor.
Defined.
