(* ===== verification/Env.v ===== *)
(** * The environment of the process (env.h, env.cpp)

    Command line arguments, help texts and paths. [argv] and the result of [readlink]
    are arguments; strings are the C strings without their NUL. The theorems: what
    [init] makes of a command line, and that it refuses every other. *)
From stdpp Require Import base tactics option list strings gmap numbers.
From S2P Require Import Prelude OrdSet CString.

Open Scope string_scope.
Open Scope Z_scope.

Record Env := mkEnv {
  m_args : gmap string string;
  m_helps : list (string * string);
  m_program : string;
  m_exe : string;
  m_cwd : string
}.

Definition set_args f (s : Env) := mkEnv (f (m_args s)) (m_helps s) (m_program s) (m_exe s) (m_cwd s).
Definition set_helps f (s : Env) := mkEnv (m_args s) (f (m_helps s)) (m_program s) (m_exe s) (m_cwd s).

Definition add (key val : string) : ST Env unit := modify (set_args <[key := val]>).
Definition has (key : string) : ST Env bool := gets (fun s => bool_decide (is_Some (m_args s !! key))).
Definition del (key : string) : ST Env unit := modify (set_args (delete key)).
Definition get (key default_value : string) : ST Env string :=
  gets (fun s => default default_value (m_args s !! key)).

Definition removeHelp (key : string) : ST Env unit :=
  modify (set_helps (filter (fun h => h.1 <> key))).
Definition addHelp (key desc : string) : ST Env unit :=
  removeHelp key;; modify (set_helps (fun h => h ++ [(key, desc)])%list).

(** The characters before the last '/', all if there is none. *)
Fixpoint before_last_slash (s : string) : option string :=
  match s with
  | EmptyString => None
  | String c s =>
      match before_last_slash s with
      | Some p => Some (String c p)
      | None => if decide (c = Ascii.ascii_of_nat 47) then Some "" else None
      end
  end.

Definition getAbsolutePath (path : string) : ST Env string :=
  gets (fun s =>
    match path with
    | EmptyString => "/"
    | String c _ => if decide (c = Ascii.ascii_of_nat 47) then path else m_cwd s ++ path
    end).

(** [if(now_key) add(now_key, "")] *)
Definition add_pending (now_key : option string) : ST Env unit :=
  match now_key with Some key => add key "" | None => mret tt end.

(** The loop over [argv] from the second argument, and the [add] behind it. *)
Fixpoint parse_args (argv : list string) (now_key : option string) : ST Env bool :=
  match argv with
  | [] => add_pending now_key;; mret true
  | arg :: argv =>
      match arg with
      | String c key =>
          if decide (c = Ascii.ascii_of_nat 45) then
            if decide (key = "") then mret false
            else add_pending now_key;; parse_args argv (Some key)
          else
            match now_key with
            | Some k => add k arg;; parse_args argv None
            | None => mret false
            end
      | EmptyString =>
          match now_key with
          | Some k => add k arg;; parse_args argv None
          | None => mret false
          end
      end
  end.

(** [init(argc, argv)]: [exe] is what [readlink] wrote, [None] if it failed. *)
Definition Env_init (exe : option string) (argv : list string) : ST Env bool :=
  match exe with
  | None => mret false
  | Some exe =>
      modify (fun s => mkEnv (m_args s) (m_helps s) (m_program s) exe
        (default exe (before_last_slash exe) ++ "/"));;
      match argv with
      | [] => crash NullDeref
      | program :: argv =>
          modify (fun s => mkEnv (m_args s) (m_helps s) program (m_exe s) (m_cwd s));;
          parse_args argv None
      end
  end.

(** [setEnv(key, val)] and [getEnv(key, default_value)] on the variables of the process:
    [setenv] refuses names that are empty or hold a '='. *)
Definition setEnv (key val : string) (environ : gmap string string) : bool * gmap string string :=
  let k := c_str key in
  if bool_decide (k = "") || negb (chars (fun c => negb (bool_decide (c = Ascii.ascii_of_nat 61))) k)
  then (false, environ) else (true, <[k := c_str val]> environ).
Definition getEnv (key default_value : string) (environ : gmap string string) : string :=
  default default_value (environ !! c_str key).

(** ** Command lines *)

(** An option: a key that is not empty, and perhaps a value, which does not begin
    with '-'. *)
Definition dash : Ascii.ascii := Ascii.ascii_of_nat 45.
Definition is_value (v : string) : Prop := match v with String c _ => c <> dash | _ => True end.
Definition option_ok (o : string * option string) : Prop :=
  o.1 <> "" /\ match o.2 with Some v => is_value v | None => True end.

Definition written (o : string * option string) : list string :=
  String dash o.1 :: match o.2 with Some v => [v] | None => [] end.

(** The options of the line are added in its order. *)
Definition assign (args : gmap string string) (o : string * option string) : gmap string string :=
  <[o.1 := default "" o.2]> args.

(** [args_of argv]: the options of an argument list, if it is one. *)
Inductive args_of : list string -> list (string * option string) -> Prop :=
  | args_nil : args_of [] []
  | args_cons o argv os : option_ok o -> args_of argv os -> args_of (written o ++ argv) (o :: os).

Lemma parse_value v argv k s :
  is_value v -> parse_args (v :: argv) (Some k) s = parse_args argv None (set_args <[k := v]> s).
Proof.
  destruct v as [|c v]; intros H; [done|]. cbn [parse_args]. by rewrite decide_False.
Qed.

Lemma parse_key k argv now s :
  k <> "" ->
  parse_args (String dash k :: argv) now s = parse_args argv (Some k) (add_pending now s).2.
Proof.
  intros H. cbn [parse_args]. rewrite decide_True, decide_False by done. by destruct now.
Qed.

Lemma set_args_set f g s : set_args f (set_args g s) = set_args (fun m => f (g m)) s.
Proof. done. Qed.

(** A key that waits for its value gets the empty one where the list ends or the next
    key begins. *)
Lemma parse_written os argv : 
  args_of argv os -> forall s,
  parse_args argv None s = (Val true, set_args (fun m => fold_left assign os m) s) /\
  forall k, parse_args argv (Some k) s =
    (Val true, set_args (fun m => fold_left assign os (<[k := ""]> m)) s).
Proof.
  induction 1 as [|[k o] argv os [Hk Ho] H IH]; intros s.
  - split; [by destruct s|]. intros k. by destruct s.
  - assert (Hkey : forall now, parse_args (written (k, o) ++ argv) now s =
      (Val true, set_args (fun m => fold_left assign ((k, o) :: os) m) (add_pending now s).2)).
    { intros now. unfold written. cbn [fst snd app]. rewrite parse_key by done.
      destruct o as [v|]; cbn [app].
      - rewrite parse_value by done. rewrite (proj1 (IH _)). by rewrite set_args_set.
      - rewrite (proj2 (IH _)). done. }
    split; [apply Hkey|]. intros k'. by rewrite Hkey.
Qed.

Lemma parse_accepts argv : forall now s s',
  parse_args argv now s = (Val true, s') ->
  match now with
  | None => exists os, args_of argv os
  | Some k => exists os, args_of argv os \/ exists v rest, argv = v :: rest /\ is_value v /\ args_of rest os
  end.
Proof.
  induction argv as [|arg argv IH]; intros now s s' H.
  { destruct now; exists []; [left|]; constructor. }
  destruct arg as [|c key].
  - destruct now as [k|]; [|done]. apply (IH None) in H as [os H]. exists os. right. by exists "", argv.
  - destruct (decide (c = dash)) as [->|Hc].
    + destruct (decide (key = "")) as [->|Hk]; [by destruct now|]. rewrite parse_key in H by done.
      apply IH in H as [os [H|(v & rest & -> & Hv & H)]].
      * assert (Ha : args_of (String dash key :: argv) ((key, None) :: os)) by by apply (args_cons (key, None)).
        destruct now; eauto.
      * assert (Ha : args_of (String dash key :: v :: rest) ((key, Some v) :: os))
          by by apply (args_cons (key, Some v)).
        destruct now; eauto.
    + cbn [parse_args] in H. rewrite decide_False in H by done. destruct now as [k|]; [|done].
      apply (IH None) in H as [os H]. exists os. right. by exists (String c key), argv.
Qed.

(** the command line. [init] on a list of arguments that is a sequence of options
    returns true and adds the options in their order, an option without value with the
    empty one, so that of a repeated key the last value stays; it returns true for no
    other list; and [get] then gives the value of the last option with its key. *)
Theorem init_args exe program argv s :
  (forall os, args_of argv os ->
     exists s', Env_init (Some exe) (program :: argv) s = (Val true, s') /\
       m_args s' = fold_left assign os (m_args s) /\ m_program s' = program /\ m_exe s' = exe /\
       m_helps s' = m_helps s /\
       forall key v rest d, os = (rest ++ [(key, v)])%list -> get key d s' = (Val (default "" v), s')) /\
  (forall s', Env_init (Some exe) (program :: argv) s = (Val true, s') -> exists os, args_of argv os).
Proof.
  split.
  - intros os H. unfold Env_init.
    destruct (parse_written os argv H (mkEnv (m_args s) (m_helps s) program exe
      (default exe (before_last_slash exe) ++ "/"))) as [E _].
    eexists. split; [exact E|]. split_and!; try done.
    intros key v rest d ->. unfold get, gets. simpl. rewrite fold_left_app. simpl. unfold assign at 1.
    simpl. by rewrite lookup_insert_eq.
  - intros s' H. by apply (parse_accepts argv None) in H.
Qed.

Definition no_env : Env := mkEnv ∅ [] "" "" "".

Lemma init_args_witness : exists s',
  Env_init (Some "/opt/bin/server") ["server"; "-d"; "-c"; "conf"] no_env = (Val true, s') /\
  get "c" "none" s' = (Val "conf", s') /\ m_cwd s' = "/opt/bin/".
Proof.
  destruct (proj1 (init_args "/opt/bin/server" "server" ["-d"; "-c"; "conf"] no_env)
    [("d", None); ("c", Some "conf")]) as (s' & E & _ & _ & _ & _ & Hget).
  - apply (args_cons ("d", None)); [done|].
    apply (args_cons ("c", Some "conf") [] []); [done|constructor].
  - exists s'. split; [exact E|]. split; [by apply (Hget "c" (Some "conf") [("d", None)] "none")|].
    vm_compute in E. by injection E as <-.
Defined.

(** Help texts: one for each key, in the order in which they were added last. *)
Lemma addHelp_spec key desc s :
  (addHelp key desc s).2 = set_helps (fun h => filter (fun h => h.1 <> key) h ++ [(key, desc)])%list s /\
  (NoDup (fst <$> m_helps s) -> NoDup (fst <$> m_helps (addHelp key desc s).2)).
Proof.
  split; [done|]. intros H. simpl. rewrite fmap_app. apply list.NoDup_app. split_and!.
  - eapply sublist_NoDup; [exact H|]. apply fmap_sublist, sublist_filter.
  - intros k ([k' v] & E & [Hne _]%list_elem_of_filter)%list_elem_of_fmap Hk%list_elem_of_singleton.
    simpl in *. congruence.
  - apply NoDup_singleton.
Qed.

(** What is set is read back, and nothing else changes. *)
Lemma setEnv_getEnv key val environ environ' :
  setEnv key val environ = (true, environ') ->
  (forall d, getEnv key d environ' = c_str val) /\
  (forall k d, c_str k <> c_str key -> getEnv k d environ' = getEnv k d environ).
Proof.
  unfold setEnv, getEnv. destruct (_ || _); [done|]. intros [= <-]. split.
  - intros d. by rewrite lookup_insert_eq.
  - intros k d H. by rewrite lookup_insert_ne.
Qed.
