(* ===== verification/Address.v ===== *)
(** * Addresses (address.h, address.cpp)

    The four classes of addresses with the memory of their [sockaddr], prefixes and masks,
    their texts, their order, the lookup of a host, and the addresses of interfaces. The byte order of
    the host is the parameter of Endian.v; [getaddrinfo], [getifaddrs] and [inet_pton]
    are parameters. The theorems: IPv4 and IPv6 prefixes, the order of addresses, and which
    host and service are looked up. *)
From stdpp Require Import base tactics option list strings pretty numbers.
From coqutil Require Import Byte Word.LittleEndianList.
From S2P Require Import Prelude Endian OrdSet CString Http.

Open Scope string_scope.
Open Scope Z_scope.

(** ** Masks *)

(** [CreateMask<T>(bits)] for a [T] of [n] bytes. The 1 that is shifted is an [int], the
    width a [size_t]; the result is converted to [T]. *)
Definition CreateMask (n : nat) (bits : Z) : res Z :=
  let k := u64 (8 * Z.of_nat n - bits) in
  if 32 <=? k then Bad BadShift
  else if k =? 31 then Bad SignedOverflow
  else Val (wrap (8 * Z.of_nat n) (Z.shiftl 1 k - 1)).

(** [CountBytes(value)]: the loop [value &= value - 1]. Each round clears a bit, so the
    width is enough fuel. *)
Fixpoint count_loop (fuel : nat) (value result : Z) : Z :=
  match fuel with
  | O => result
  | S fuel => if value =? 0 then result else count_loop fuel (Z.land value (value - 1)) (result + 1)
  end.
Definition CountBytes (n : nat) (value : Z) : Z := count_loop (8 * n) value 0.

(** ** The structures *)

Definition AF_UNSPEC : Z := 0.
Definition AF_UNIX : Z := 1.
Definition AF_INET : Z := 2.
Definition AF_INET6 : Z := 10.

(** The members hold what the memory says in the byte order of the host. *)
Record sockaddr_in := mkIn { sin_family : Z; sin_port : Z; s_addr : Z; sin_zero : list byte }.
Record sockaddr_in6 := mkIn6 {
  sin6_family : Z; sin6_port : Z; sin6_flowinfo : Z; s6_addr : list byte; sin6_scope_id : Z
}.
Record sockaddr_un := mkUn { sun_family : Z; sun_path : list byte }.
Record sockaddr := mkSa { sa_family : Z; sa_data : list byte }.

Inductive Address :=
  | IPv4Address (m_addr : sockaddr_in)
  | IPv6Address (m_addr : sockaddr_in6)
  | UnixAddress (m_addr : sockaddr_un) (m_length : Z)
  | UnknownAddress (m_addr : sockaddr).

(** What a [const sockaddr*] points to, by its family. *)
Inductive any_sockaddr :=
  | SaIn (a : sockaddr_in)
  | SaIn6 (a : sockaddr_in6)
  | SaOther (a : sockaddr).

Section Host.
Context `{host : Host}.

(** [Address::Create(addr, addrlen)] *)
Definition Address_Create (addr : option any_sockaddr) : option Address :=
  match addr with
  | None => None
  | Some (SaIn a) => Some (IPv4Address a)
  | Some (SaIn6 a) => Some (IPv6Address a)
  | Some (SaOther a) => Some (UnknownAddress a)
  end.

(** The bytes behind [getAddr()]. *)
Definition memory (a : Address) : list byte :=
  match a with
  | IPv4Address a =>
      mem_image 2 (sin_family a) ++ mem_image 2 (sin_port a) ++ mem_image 4 (s_addr a) ++ sin_zero a
  | IPv6Address a =>
      mem_image 2 (sin6_family a) ++ mem_image 2 (sin6_port a) ++ mem_image 4 (sin6_flowinfo a) ++
      s6_addr a ++ mem_image 4 (sin6_scope_id a)
  | UnixAddress a _ => mem_image 2 (sun_family a) ++ sun_path a
  | UnknownAddress a => mem_image 2 (sa_family a) ++ sa_data a
  end%list.

Definition getAddrLen (a : Address) : Z :=
  match a with
  | IPv4Address _ => 16
  | IPv6Address _ => 28
  | UnixAddress _ m_length => m_length
  | UnknownAddress _ => 16
  end.

Definition getFamily (a : Address) : Z :=
  match a with
  | IPv4Address a => sin_family a
  | IPv6Address a => sin6_family a
  | UnixAddress a _ => sun_family a
  | UnknownAddress a => sa_family a
  end.

(** [memcmp(s, t, n)] where both have [n] bytes. *)
Fixpoint memcmp (s t : list byte) : Z :=
  match s, t with
  | b :: s, c :: t =>
      if byte.unsigned b - byte.unsigned c =? 0 then memcmp s t
      else byte.unsigned b - byte.unsigned c
  | _, _ => 0
  end.

(** The first [n] bytes of the structure; beyond it they are out of bounds. *)
Definition prefix (a : Address) (n : Z) : res (list byte) :=
  if Z.of_nat (length (memory a)) <? n then Bad OutOfBounds else Val (take (Z.to_nat n) (memory a)).

(** [operator<], [operator==], [operator!=] *)
Definition address_less (a b : Address) : res bool :=
  let minlen := Z.min (getAddrLen a) (getAddrLen b) in
  s ← prefix a minlen; t ← prefix b minlen;
  let result := memcmp s t in
  if result <? 0 then Val true
  else if 0 <? result then Val false
  else Val (getAddrLen a <? getAddrLen b).
Definition address_equal (a b : Address) : res bool :=
  if getAddrLen a =? getAddrLen b then
    s ← prefix a (getAddrLen a); t ← prefix b (getAddrLen a); Val (memcmp s t =? 0)
  else Val false.
Definition address_different (a b : Address) : res bool := e ← address_equal a b; Val (negb e).

(** ** IPv4 *)

Definition zeros (n : nat) : list byte := replicate n (byte.of_Z 0).

(** [IPv4Address(address, port)] *)
Definition IPv4_new (address port : Z) : sockaddr_in :=
  mkIn AF_INET (byteswapOnLittleEndian 2 port) (byteswapOnLittleEndian 4 address) (zeros 8).

(** [IPv4Address::Create(address, port)]; [inet_pton] gives the bytes in network order. *)
Definition IPv4_Create (inet_pton : string -> option (list byte)) (address : string) (port : Z) :
    option sockaddr_in :=
  match inet_pton address with
  | Some bytes => Some (mkIn AF_INET (byteswapOnLittleEndian 2 port) (mem_value bytes) (zeros 8))
  | None => None
  end.

Definition set_s_addr v (a : sockaddr_in) := mkIn (sin_family a) (sin_port a) v (sin_zero a).
Definition IPv4_getPort (a : sockaddr_in) : Z := byteswapOnLittleEndian 2 (sin_port a).
Definition IPv4_setPort (v : Z) (a : sockaddr_in) : sockaddr_in :=
  mkIn (sin_family a) (byteswapOnLittleEndian 2 v) (s_addr a) (sin_zero a).

(** [insert(os)] *)
Definition IPv4_insert (a : sockaddr_in) : string :=
  let addr := byteswapOnLittleEndian 4 (s_addr a) in
  decimal (Z.land (Z.shiftr addr 24) 255) ++ "." ++ decimal (Z.land (Z.shiftr addr 16) 255) ++ "." ++
  decimal (Z.land (Z.shiftr addr 8) 255) ++ "." ++ decimal (Z.land addr 255) ++ ":" ++
  decimal (byteswapOnLittleEndian 2 (sin_port a)).

Definition IPv4_broadcastAddress (a : sockaddr_in) (prefix_len : Z) : res (option sockaddr_in) :=
  if 32 <? prefix_len then Val None else
  mask ← CreateMask 4 prefix_len;
  Val (Some (set_s_addr (Z.lor (s_addr a) (byteswapOnLittleEndian 4 mask)) a)).
Definition IPv4_networdAddress (a : sockaddr_in) (prefix_len : Z) : res (option sockaddr_in) :=
  if 32 <? prefix_len then Val None else
  mask ← CreateMask 4 prefix_len;
  Val (Some (set_s_addr (Z.land (s_addr a) (byteswapOnLittleEndian 4 mask)) a)).
Definition IPv4_subnetMast (prefix_len : Z) : res sockaddr_in :=
  mask ← CreateMask 4 prefix_len;
  Val (mkIn AF_INET 0 (wrap 32 (Z.lnot (byteswapOnLittleEndian 4 mask))) (zeros 8)).

(** ** IPv6 *)

(** [IPv6Address(address, port)]; without arguments both are zero. *)
Definition IPv6_new (address : list byte) (port : Z) : sockaddr_in6 :=
  mkIn6 AF_INET6 (byteswapOnLittleEndian 2 port) 0 address 0.
Definition IPv6_default : sockaddr_in6 := mkIn6 AF_INET6 0 0 (zeros 16) 0.
Definition IPv6_Create (inet_pton : string -> option (list byte)) (address : string) (port : Z) :
    option sockaddr_in6 :=
  match inet_pton address with
  | Some bytes => Some (mkIn6 AF_INET6 (byteswapOnLittleEndian 2 port) 0 bytes 0)
  | None => None
  end.

Definition set_s6_addr v (a : sockaddr_in6) :=
  mkIn6 (sin6_family a) (sin6_port a) (sin6_flowinfo a) v (sin6_scope_id a).
Definition IPv6_getPort (a : sockaddr_in6) : Z := byteswapOnLittleEndian 2 (sin6_port a).
Definition IPv6_setPort (v : Z) (a : sockaddr_in6) : sockaddr_in6 :=
  mkIn6 (sin6_family a) (byteswapOnLittleEndian 2 v) (sin6_flowinfo a) (s6_addr a) (sin6_scope_id a).

(** [s6_addr[i] = f(s6_addr[i])] *)
Definition update_byte (i : nat) (f : Z -> Z) (l : list byte) : res (list byte) :=
  b ← deref OutOfBounds (l !! i); Val (<[i := byte.of_Z (f (byte.unsigned b))]> l).

(** [for(i = first; i < last; ++i) s6_addr[i] = 0xff] *)
Definition fill (first last : nat) (l : list byte) : list byte :=
  imap (fun i b => if decide (first <= i < last)%nat then byte.of_Z 255 else b) l.

Definition IPv6_broadcastAddress (a : sockaddr_in6) (prefix_len : Z) : res sockaddr_in6 :=
  let i := Z.to_nat (prefix_len / 8) in
  mask ← CreateMask 1 (prefix_len mod 8);
  l ← update_byte i (fun b => Z.lor b mask) (s6_addr a);
  Val (set_s6_addr (fill (i + 1) 16 l) a).
Definition IPv6_networdAddress (a : sockaddr_in6) (prefix_len : Z) : res sockaddr_in6 :=
  mask ← CreateMask 1 (prefix_len mod 8);
  l ← update_byte (Z.to_nat (prefix_len / 8)) (fun b => Z.land b mask) (s6_addr a);
  Val (set_s6_addr l a).
Definition IPv6_subnetMast (prefix_len : Z) : res sockaddr_in6 :=
  let i := Z.to_nat (prefix_len / 8) in
  mask ← CreateMask 1 (prefix_len mod 8);
  l ← update_byte i (fun _ => Z.lnot mask) (zeros 16);
  Val (mkIn6 AF_INET6 0 0 (fill 0 i l) 0).

(** A number in hexadecimal ([std::hex]), of at most eight digits. *)
Definition hex_digit (d : Z) : Ascii.ascii :=
  Ascii.ascii_of_N (Z.to_N (if d <? 10 then 48 + d else 87 + d)).
Fixpoint hex_go (fuel : nat) (z : Z) (s : string) : string :=
  match fuel with
  | O => s
  | S fuel =>
      let s := String (hex_digit (z mod 16)) s in
      if z / 16 =? 0 then s else hex_go fuel (z / 16) s
  end.
Definition hex (z : Z) : string := hex_go 8 z "".

(** [addr[i]] of the groups of two bytes, each as a [uint16_t]. *)
Definition addr16 (a : sockaddr_in6) (i : nat) : Z := mem_value (take 2 (drop (2 * i) (s6_addr a))).

(** The loop of [insert] from group [i]: what is written, and [used_zeros]. *)
Fixpoint insert_groups (a : sockaddr_in6) (n i : nat) (used_zeros : bool) (os : string) : string * bool :=
  match n with
  | O => (os, used_zeros)
  | S n =>
      if (addr16 a i =? 0) && negb used_zeros then insert_groups a n (S i) used_zeros os else
      let fresh := (0 <? Z.of_nat i) && (addr16 a (i - 1) =? 0) && negb used_zeros in
      let os := if fresh then os ++ ":" else os in
      let os := if 0 <? Z.of_nat i then os ++ ":" else os in
      insert_groups a n (S i) (used_zeros || fresh) (os ++ hex (byteswapOnLittleEndian 2 (addr16 a i)))
  end.
Definition IPv6_insert (a : sockaddr_in6) : string :=
  let '(os, used_zeros) := insert_groups a 8 0 false "[" in
  let os := if negb used_zeros && (addr16 a 7 =? 0) then os ++ "::" else os in
  os ++ "]:" ++ decimal (byteswapOnLittleEndian 2 (sin6_port a)).

(** ** Unix and unknown addresses *)

Definition chars_of (l : list byte) : string := String.string_of_list_byte l.
Definition MAX_PATH_LEN : Z := 107.

(** [UnixAddress()], [UnixAddress(path)] *)
Definition UnixAddress_default : Address := UnixAddress (mkUn AF_UNIX (zeros 108)) (2 + MAX_PATH_LEN).
Definition UnixAddress_new (path : string) : res Address :=
  let bytes := (String.list_byte_of_string path ++ zeros 1)%list in
  let size := Z.of_nat (String.length path) in
  let m_length := match path with
    | String c _ => if code c =? 0 then size else size + 1
    | EmptyString => size + 1
    end in
  if 108 <? m_length then Exc logic_error
  else Val (UnixAddress (mkUn AF_UNIX (take (Z.to_nat m_length) bytes ++ zeros (Z.to_nat (108 - m_length))))
              (m_length + 2)).
Definition setAddrLen (v : Z) (a : Address) : Address :=
  match a with UnixAddress a _ => UnixAddress a v | _ => a end.

Definition UnknownAddress_new (family : Z) : Address := UnknownAddress (mkSa family (zeros 14)).

(** [insert(os)] of a [UnixAddress]: an abstract name with its leading NUL written as
    "\0", or the path up to its NUL. *)
Definition Unix_insert (a : sockaddr_un) (m_length : Z) : res string :=
  let path := chars_of (sun_path a) in
  match path with
  | String c rest =>
      if (2 <? m_length) && (code c =? 0) then
        s ← std_string rest (u64 (m_length - 2 - 1)); Val ("\0" ++ s)
      else Val (c_str path)
  | EmptyString => Val ""
  end.

(** [toString()] *)
Definition toString (a : Address) : res string :=
  match a with
  | IPv4Address a => Val (IPv4_insert a)
  | IPv6Address a => Val (IPv6_insert a)
  | UnixAddress a n => Unix_insert a n
  | UnknownAddress a => Val ("[UnknownAddress family=" ++ decimal (sa_family a) ++ "]")
  end.

(** ** Looking up hosts *)

(** [memchr]: what is before and behind the first [c]. *)
Fixpoint find_char (c : Ascii.ascii) (s : string) : option (string * string) :=
  match s with
  | EmptyString => None
  | String d s =>
      if decide (d = c) then Some ("", s)
      else '(a, b) ← find_char c s; Some (String d a, b)
  end.
Definition colon : Ascii.ascii := Ascii.ascii_of_nat 58.
Definition opening : Ascii.ascii := Ascii.ascii_of_nat 91.
Definition closing : Ascii.ascii := Ascii.ascii_of_nat 93.

(** The part of [Lookup] in front of [getaddrinfo]: [node], and [service] as the
    characters it points to. *)
Definition bracketed (host : string) : string * option string :=
  match host with
  | String c rest =>
      if decide (c = opening) then
        match find_char closing rest with
        | Some (node, String d after) => (node, if decide (d = colon) then Some after else None)
        | Some (node, EmptyString) => (node, None)
        | None => ("", None)
        end
      else ("", None)
  | EmptyString => ("", None)
  end.
Definition split_host (host : string) : string * option string :=
  let '(node, service) := bracketed host in
  let '(node, service) :=
    if decide (node = "") then
      match find_char colon host with
      | Some (before, after) =>
          match find_char colon after with
          | None => (before, Some after)
          | Some _ => (node, Some (String colon after))
          end
      | None => (node, None)
      end
    else (node, service) in
  (if decide (node = "") then host else node, service).

Section Lookup.
Context (getaddrinfo : string -> option string -> Z -> Z -> Z -> option (list any_sockaddr)).

(** [Lookup(result, host, family, type, protocol)]: [None] where it returns false, else
    [result]. *)
Definition Lookup (result : list Address) (host : string) (family type protocol : Z) :
    option (list Address) :=
  let '(node, service) := split_host host in
  results ← getaddrinfo (c_str node) (c_str <$> service) family type protocol;
  Some (result ++ omap (fun a => Address_Create (Some a)) results)%list.

(** [LookupAny]: [result[0]]. *)
Definition LookupAny (host : string) (family type protocol : Z) : res (option Address) :=
  match Lookup [] host family type protocol with
  | Some result => a ← deref OutOfBounds (head result); Val (Some a)
  | None => Val None
  end.

Definition is_ip (a : Address) : bool :=
  match a with IPv4Address _ | IPv6Address _ => true | _ => false end.
Definition LookupAnyIPAddress (host : string) (family type protocol : Z) : option Address :=
  result ← Lookup [] host family type protocol; snd <$> list_find (fun a => is_ip a = true) result.
End Lookup.

(** [IPAddress::Create(address, port)] from what [getaddrinfo] gives for a numeric host. *)
Definition IPAddress_Create (results : option (list any_sockaddr)) (port : Z) : res (option Address) :=
  match results with
  | None => Val None
  | Some results =>
      a ← deref NullDeref (head results);
      Val (match Address_Create (Some a) with
           | Some (IPv4Address a) => Some (IPv4Address (IPv4_setPort port a))
           | Some (IPv6Address a) => Some (IPv6Address (IPv6_setPort port a))
           | _ => None
           end)
  end.

(** ** Interfaces *)

(** [struct ifaddrs]; both pointers may be null. *)
Record ifaddrs := mkIf { ifa_name : string; ifa_addr : option any_sockaddr; ifa_netmask : option any_sockaddr }.

Definition any_family (a : any_sockaddr) : Z :=
  match a with SaIn a => sin_family a | SaIn6 a => sin6_family a | SaOther a => sa_family a end.

(** The body of the loop up to the [insert]: the address and the length of its prefix. *)
Definition interface (i : ifaddrs) : res (option (Address * Z)) :=
  a ← deref NullDeref (ifa_addr i);
  match a with
  | SaIn _ =>
      m ← deref NullDeref (ifa_netmask i);
      match m with
      | SaIn m => Val ((fun a => (a, CountBytes 4 (s_addr m))) <$> Address_Create (Some a))
      | _ => Bad OutOfBounds
      end
  | SaIn6 _ =>
      m ← deref NullDeref (ifa_netmask i);
      match m with
      | SaIn6 m => Val ((fun a => (a, foldr (fun b n => CountBytes 1 (byte.unsigned b) + n) 0 (s6_addr m)))
                          <$> Address_Create (Some a))
      | _ => Bad OutOfBounds
      end
  | SaOther _ => Val None
  end.

(** [std::multimap::insert]: behind the elements of the same key. *)
Definition multimap_insert {V} (k : string) (v : V) (l : list (string * V)) : list (string * V) :=
  let '(a, b) := upper_bound string_less fst k l in (a ++ (k, v) :: b)%list.

(** [GetInterfaceAddresses(result, family)] over what [getifaddrs] lists. *)
Fixpoint interfaces (family : Z) (l : list ifaddrs) (result : list (string * (Address * Z))) :
    res (list (string * (Address * Z))) :=
  match l with
  | [] => Val result
  | i :: l =>
      wanted ← (if family =? AF_UNSPEC then Val true
                else a ← deref NullDeref (ifa_addr i); Val (family =? any_family a));
      if (wanted : bool) then
        x ← interface i;
        interfaces family l (match x with Some v => multimap_insert (ifa_name i) v result | None => result end)
      else interfaces family l result
  end.

(** [GetInterfaceAddresses(result, iface, family)]: [None] where it returns false. *)
Definition GetInterfaceAddresses (getifaddrs : option (list ifaddrs)) (iface : string) (family : Z) :
    res (option (list (Address * Z))) :=
  if decide (iface = "" \/ iface = "*") then
    Val (Some ((if (family =? AF_INET) || (family =? AF_UNSPEC) then [(IPv4Address (IPv4_new 0 0), 0)] else []) ++
               (if (family =? AF_INET6) || (family =? AF_UNSPEC) then [(IPv6Address IPv6_default, 0)] else []))%list)
  else
    match getifaddrs with
    | None => Val None
    | Some l =>
        match interfaces family l [] with
        | Val results => Val (Some (snd <$> filter (fun r => r.1 = iface) results))
        | Exc e => Exc e
        | Bad f => Bad f
        end
    end.
End Host.

(** ** Prefixes *)

Lemma create_mask n bits :
  0 <= bits <= 8 * Z.of_nat n -> 8 * Z.of_nat n - bits < 31 ->
  CreateMask n bits = Val (2 ^ (8 * Z.of_nat n - bits) - 1).
Proof.
  intros Hb Hk. unfold CreateMask. rewrite (wrap_small 64) by (unfold in_u; lia).
  rewrite (proj2 (Z.leb_gt _ _)), (proj2 (Z.eqb_neq _ _)) by lia.
  rewrite Z.shiftl_1_l. f_equal. apply wrap_small. unfold in_u.
  pose proof (Z.pow_pos_nonneg 2 (8 * Z.of_nat n - bits)).
  pose proof (Z.pow_le_mono_r 2 (8 * Z.of_nat n - bits) (8 * Z.of_nat n)). lia.
Qed.

Lemma land_ones_mod a k : 0 <= k -> Z.land a (2 ^ k - 1) = a mod 2 ^ k.
Proof. intros Hk. replace (2 ^ k - 1) with (Z.ones k) by (rewrite Z.ones_equiv; lia). by apply Z.land_ones. Qed.

Section Prefixes.
Context `{host : Host}.

Lemma swap_lor n a b :
  byteswapOnLittleEndian n (Z.lor a b) = Z.lor (byteswapOnLittleEndian n a) (byteswapOnLittleEndian n b).
Proof. unfold byteswapOnLittleEndian. destruct MYHTTP_BYTE_ORDER; [apply bswap_lor|done]. Qed.
Lemma swap_land n a b :
  byteswapOnLittleEndian n (Z.land a b) = Z.land (byteswapOnLittleEndian n a) (byteswapOnLittleEndian n b).
Proof. unfold byteswapOnLittleEndian. destruct MYHTTP_BYTE_ORDER; [apply bswap_land|done]. Qed.
Lemma swap_swap n v :
  in_u (8 * Z.of_nat n) v -> byteswapOnLittleEndian n (byteswapOnLittleEndian n v) = v.
Proof. unfold byteswapOnLittleEndian. destruct MYHTTP_BYTE_ORDER; [apply byteswap_involutive|done]. Qed.

(** The address as the number its text shows. *)
Definition IPv4_number (a : sockaddr_in) : Z := byteswapOnLittleEndian 4 (s_addr a).

Lemma subnet_number len :
  2 <= len <= 32 ->
  exists m, IPv4_subnetMast len = Val m /\ IPv4_number m = 2 ^ 32 - 2 ^ (32 - len) /\
    CountBytes 4 (s_addr m) = len.
Proof.
  intros H. pose (P := fun len => match IPv4_subnetMast len with
    | Val m => (IPv4_number m =? 2 ^ 32 - 2 ^ (32 - len)) && (CountBytes 4 (s_addr m) =? len)
    | _ => false
    end).
  assert (E : P len = true).
  { assert (HP : forallb P (seqZ 2 31) = true).
    { unfold P, IPv4_subnetMast, IPv4_number, byteswapOnLittleEndian.
      destruct MYHTTP_BYTE_ORDER; vm_compute; reflexivity. }
    rewrite forallb_forall in HP. apply HP, list_elem_of_In, elem_of_seqZ. lia. }
  unfold P in E. destruct (IPv4_subnetMast len) as [m| |]; [|done..].
  apply andb_true_iff in E as [E1 E2]. exists m. split; [done|]. split; by apply Z.eqb_eq.
Qed.

(** C40: IPv4 prefixes. For a prefix of 2 to 32 bits: the broadcast address is the address
    with all bits behind the prefix set; the "network address" is the address without
    its prefix, that is its host part, not its network; the mask has exactly the bits of
    the prefix, and counting its bits gives the length back. A prefix of 0 bits shifts an
    [int] by 32, one of 1 bit overflows it, and a longer one than 32 gives null for the
    first two functions but a shift out of range for the mask. *)
Theorem ipv4_prefixes a len (Ha : in_u 32 (s_addr a)) (Hlen : 0 <= len < 2 ^ 32) :
  (2 <= len <= 32 ->
     (exists b, IPv4_broadcastAddress a len = Val (Some b) /\
        IPv4_number b = Z.lor (IPv4_number a) (2 ^ (32 - len) - 1) /\ IPv4_getPort b = IPv4_getPort a) /\
     (exists n, IPv4_networdAddress a len = Val (Some n) /\
        IPv4_number n = IPv4_number a mod 2 ^ (32 - len) /\ IPv4_getPort n = IPv4_getPort a) /\
     (exists m, IPv4_subnetMast len = Val m /\ IPv4_number m = 2 ^ 32 - 2 ^ (32 - len) /\
        CountBytes 4 (s_addr m) = len)) /\
  (len = 0 -> IPv4_broadcastAddress a len = Bad BadShift /\ IPv4_networdAddress a len = Bad BadShift /\
     IPv4_subnetMast len = Bad BadShift) /\
  (len = 1 -> IPv4_broadcastAddress a len = Bad SignedOverflow /\
     IPv4_networdAddress a len = Bad SignedOverflow /\ IPv4_subnetMast len = Bad SignedOverflow) /\
  (32 < len -> IPv4_broadcastAddress a len = Val None /\ IPv4_networdAddress a len = Val None /\
     IPv4_subnetMast len = Bad BadShift).
Proof.
  split_and!.
  - intros H. assert (Hm : CreateMask 4 len = Val (2 ^ (32 - len) - 1)) by (apply create_mask; lia).
    assert (Hr : in_u (8 * Z.of_nat 4) (2 ^ (32 - len) - 1)).
    { unfold in_u. pose proof (Z.pow_pos_nonneg 2 (32 - len)).
      pose proof (Z.pow_le_mono_r 2 (32 - len) 32). lia. }
    split_and!; [| |by apply subnet_number].
    + unfold IPv4_broadcastAddress. rewrite (proj2 (Z.ltb_ge _ _)), Hm by lia. eexists.
      split; [reflexivity|]. split; [|done]. unfold IPv4_number. simpl.
      by rewrite swap_lor, swap_swap.
    + unfold IPv4_networdAddress. rewrite (proj2 (Z.ltb_ge _ _)), Hm by lia. eexists.
      split; [reflexivity|]. split; [|done]. unfold IPv4_number. simpl.
      rewrite swap_land, swap_swap by done. apply land_ones_mod. lia.
  - by intros ->.
  - by intros ->.
  - intros H. unfold IPv4_broadcastAddress, IPv4_networdAddress, IPv4_subnetMast.
    rewrite (proj2 (Z.ltb_lt _ _)) by done. split_and!; try done.
    unfold CreateMask, wrap. change (8 * Z.of_nat 4) with 32.
    rewrite <- (Z.mod_add _ 1), Z.mod_small by lia. rewrite (proj2 (Z.leb_le _ _)) by lia. done.
Qed.
End Prefixes.

#[local] Instance x86 : Host := MYHTTP_LITTLE_ENDIAN.

Lemma ipv4_prefixes_witness :
  let a := IPv4_new 3232235786 80 in  (* 192.168.1.10 *)
  IPv4_insert a = "192.168.1.10:80" /\
  exists n, IPv4_networdAddress a 24 = Val (Some n) /\ IPv4_number n = 10.
Proof.
  intros a. split; [by vm_compute|].
  destruct (ipv4_prefixes a 24) as [H _]; [vm_compute; split; congruence|lia|].
  destruct (H ltac:(lia)) as (_ & (n & E & En & _) & _). exists n. split; [exact E|].
  rewrite En. by vm_compute.
Defined.

(** *** IPv6 *)

(** The address as a number of 128 bits. *)
Definition IPv6_number (l : list byte) : Z := le_combine (reverse l).

Lemma testbit_number l i :
  length l = 16%nat -> 0 <= i ->
  Z.testbit (IPv6_number l) i =
  (i <? 128) && Z.testbit (byte.unsigned (default (byte.of_Z 0) (l !! Z.to_nat (15 - i / 8)))) (i mod 8).
Proof.
  intros Hl Hi. unfold IPv6_number. rewrite testbit_combine by done.
  pose proof (Z.div_pos i 8 Hi ltac:(lia)). pose proof (Z.div_mod i 8 ltac:(lia)).
  pose proof (Z.mod_pos_bound i 8 ltac:(lia)).
  destruct (Z.ltb_spec i 128); simpl.
  - rewrite reverse_lookup by lia. rewrite Hl. do 4 f_equal. lia.
  - rewrite lookup_ge_None_2 by (rewrite length_reverse; lia). simpl. apply Z.bits_0.
Qed.

Lemma testbit_ones_minus m i : 0 <= m -> 0 <= i -> Z.testbit (2 ^ m - 1) i = (i <? m).
Proof.
  intros Hm Hi. replace (2 ^ m - 1) with (Z.ones m) by (rewrite Z.ones_equiv; lia).
  by apply Z.testbit_ones_nonneg.
Qed.

Lemma lookup_fill first last l k b :
  l !! k = Some b ->
  fill first last l !! k = Some (if decide (first <= k < last)%nat then byte.of_Z 255 else b).
Proof. intros H. unfold fill. by rewrite list_lookup_imap, H. Qed.

Lemma length_fill first last l : length (fill first last l) = length l.
Proof. apply length_imap. Qed.

Lemma update_byte_val i f l b :
  l !! i = Some b -> update_byte i f l = Val (<[i := byte.of_Z (f (byte.unsigned b))]> l).
Proof. intros H. unfold update_byte. by rewrite H. Qed.

Lemma testbit_255 i : 0 <= i < 8 -> Z.testbit (byte.unsigned (byte.of_Z 255)) i = true.
Proof.
  intros Hi. rewrite testbit_byte by lia. change 255 with (2 ^ 8 - 1). rewrite testbit_ones_minus by lia.
  by rewrite (proj2 (Z.ltb_lt _ _)) by lia.
Qed.

Section Prefixes6.
Context `{host : Host}.
Context (len : Z) (Hlen : 0 <= len < 128).
Local Abbreviation q := (Z.to_nat (len / 8)).

Lemma mask6 : CreateMask 1 (len mod 8) = Val (2 ^ (8 - len mod 8) - 1).
Proof. apply create_mask; pose proof (Z.mod_pos_bound len 8); lia. Qed.

Lemma byte_index (l : list byte) : length l = 16%nat -> exists b, l !! q = Some b.
Proof.
  intros Hl. apply lookup_lt_is_Some_2. rewrite Hl.
  pose proof (Z.div_lt_upper_bound len 8 16). pose proof (Z.div_pos len 8). lia.
Qed.

(** Bit [i] of the number is behind the prefix, by the byte it is in. *)
Lemma behind_prefix i :
  0 <= i < 128 ->
  let k := Z.to_nat (15 - i / 8) in
  (k < 16)%nat /\ 0 <= i mod 8 < 8 /\
  ((k < q)%nat -> 128 - len <= i) /\ ((q < k)%nat -> i < 128 - len) /\
  (k = q -> (i <? 128 - len) = (i mod 8 <? 8 - len mod 8)).
Proof.
  intros Hi k. unfold k. clear k. Z.div_mod_to_equations.
  split_and!; lia.
Qed.

Lemma broadcast_number l b :
  length l = 16%nat -> l !! q = Some b ->
  IPv6_number (fill (q + 1) 16 (<[q := byte.of_Z (Z.lor (byte.unsigned b) (2 ^ (8 - len mod 8) - 1))]> l)) =
  Z.lor (IPv6_number l) (2 ^ (128 - len) - 1).
Proof.
  intros Hl Hb. apply Z.bits_inj'. intros i Hi.
  rewrite Z.lor_spec, testbit_ones_minus, !testbit_number by
    (done || lia || by rewrite length_fill, length_insert).
  destruct (Z.ltb_spec i 128) as [H|H]; simpl; [|symmetry; apply Z.ltb_ge; lia].
  destruct (behind_prefix i ltac:(lia)) as (Hk & Hr & H1 & H2 & H3). set (k := Z.to_nat (15 - _)) in *.
  destruct (lookup_lt_is_Some_2 l k ltac:(lia)) as [c Hc]. rewrite Hc. simpl.
  destruct (Nat.lt_trichotomy k q) as [Hkq|[Hkq|Hkq]].
  - rewrite (lookup_fill _ _ _ _ c) by (by rewrite list_lookup_insert_ne by lia).
    rewrite decide_False by lia. simpl. rewrite (proj2 (Z.ltb_ge _ _)) by auto. by rewrite orb_false_r.
  - rewrite Hkq in *. rewrite Hb in Hc. injection Hc as <-.
    erewrite lookup_fill by (apply list_lookup_insert_eq; lia).
    rewrite decide_False by lia. simpl. pose proof (Z.mod_pos_bound len 8).
    rewrite testbit_byte, Z.lor_spec, testbit_ones_minus, H3 by lia.
    by rewrite (proj2 (Z.ltb_lt (i mod 8) 8)) by lia.
  - rewrite (lookup_fill _ _ _ _ c) by (by rewrite list_lookup_insert_ne by lia).
    rewrite decide_True by lia. simpl. rewrite testbit_255, (proj2 (Z.ltb_lt _ _)) by auto.
    by rewrite orb_true_r.
Qed.

Lemma subnet6_number :
  IPv6_number (fill 0 q (<[q := byte.of_Z (Z.lnot (2 ^ (8 - len mod 8) - 1))]> (zeros 16))) =
  2 ^ 128 - 2 ^ (128 - len).
Proof.
  assert (E : 2 ^ 128 - 2 ^ (128 - len) = Z.ldiff (2 ^ 128 - 1) (2 ^ (128 - len) - 1)).
  { rewrite <- Z.sub_nocarry_ldiff; [lia|]. apply Z.bits_inj'. intros i Hi.
    rewrite Z.ldiff_spec, !testbit_ones_minus, Z.bits_0 by lia. lia. }
  rewrite E. apply Z.bits_inj'. intros i Hi.
  rewrite Z.ldiff_spec, !testbit_ones_minus, testbit_number by
    (done || lia || by rewrite length_fill, length_insert).
  destruct (Z.ltb_spec i 128) as [H|H]; simpl; [|done].
  destruct (behind_prefix i ltac:(lia)) as (Hk & Hr & H1 & H2 & H3). set (k := Z.to_nat (15 - _)) in *.
  assert (Hz : zeros 16 !! k = Some (byte.of_Z 0)) by (by apply lookup_replicate_2).
  destruct (Nat.lt_trichotomy k q) as [Hkq|[Hkq|Hkq]].
  - rewrite (lookup_fill _ _ _ _ (byte.of_Z 0)) by (by rewrite list_lookup_insert_ne by lia).
    rewrite decide_True by lia. simpl. by rewrite testbit_255, (proj2 (Z.ltb_ge _ _)) by auto.
  - rewrite Hkq in *.
    erewrite lookup_fill by (apply list_lookup_insert_eq; simpl; lia).
    rewrite decide_False by lia. simpl. pose proof (Z.mod_pos_bound len 8).
    rewrite testbit_byte, Z.lnot_spec, testbit_ones_minus, H3 by lia.
    by rewrite (proj2 (Z.ltb_lt (i mod 8) 8)) by lia.
  - rewrite (lookup_fill _ _ _ _ (byte.of_Z 0)) by (by rewrite list_lookup_insert_ne by lia).
    rewrite decide_False by lia. simpl. rewrite (proj2 (Z.ltb_lt _ _)) by auto. apply Z.bits_0.
Qed.
End Prefixes6.

(** IPv6 prefixes. For a prefix of less than 128 bits: the broadcast address is the
    address with all bits behind the prefix set, and the mask has exactly the bits of the
    prefix; but the "network address" only loses the bits of the prefix that are in the
    byte in which the prefix ends. A prefix of 128 bits writes behind the array. *)
Theorem ipv6_prefixes (host : Host) a len (Ha : length (s6_addr a) = 16%nat) (Hlen : 0 <= len <= 128) :
  (len < 128 ->
     (exists b, IPv6_broadcastAddress a len = Val b /\
        IPv6_number (s6_addr b) = Z.lor (IPv6_number (s6_addr a)) (2 ^ (128 - len) - 1)) /\
     (exists m, IPv6_subnetMast len = Val m /\ IPv6_number (s6_addr m) = 2 ^ 128 - 2 ^ (128 - len)) /\
     (exists n, IPv6_networdAddress a len = Val n /\
        forall k, s6_addr n !! k = if decide (k = Z.to_nat (len / 8)) then
          (fun b => byte.of_Z (byte.unsigned b mod 2 ^ (8 - len mod 8))) <$> s6_addr a !! k
          else s6_addr a !! k)) /\
  (len = 128 -> IPv6_broadcastAddress a len = Bad OutOfBounds /\
     IPv6_networdAddress a len = Bad OutOfBounds /\ IPv6_subnetMast len = Bad OutOfBounds).
Proof.
  split.
  - intros Hl. destruct (byte_index len ltac:(lia) _ Ha) as [b Hb].
    split_and!.
    + unfold IPv6_broadcastAddress. rewrite mask6 by lia. cbn [mbind res_bind].
      rewrite (update_byte_val _ _ _ b) by done. eexists. split; [reflexivity|].
      apply (broadcast_number len); [lia|done..].
    + unfold IPv6_subnetMast. rewrite mask6 by lia. cbn [mbind res_bind].
      destruct (byte_index len ltac:(lia) (zeros 16) eq_refl) as [z Hz].
      rewrite (update_byte_val _ _ _ z) by done. eexists. split; [reflexivity|].
      apply (subnet6_number len). lia.
    + unfold IPv6_networdAddress. rewrite mask6 by lia. cbn [mbind res_bind].
      rewrite (update_byte_val _ _ _ b) by done. eexists. split; [reflexivity|]. intros k. simpl.
      case_decide as Hk.
      * subst k. rewrite list_lookup_insert_eq by (by eapply lookup_lt_Some). rewrite Hb. simpl.
        rewrite land_ones_mod; [done|]. pose proof (Z.mod_pos_bound len 8). lia.
      * by rewrite list_lookup_insert_ne.
  - intros ->. unfold IPv6_broadcastAddress, IPv6_networdAddress, IPv6_subnetMast, update_byte.
    assert (E : s6_addr a !! Z.to_nat (128 / 8) = None) by (apply lookup_ge_None_2; rewrite Ha; by vm_compute; lia).
    change (CreateMask 1 (128 mod 8)) with (Val 255). cbn [mbind res_bind]. rewrite E. done.
Qed.

Lemma ipv6_prefixes_witness :
  let a := IPv6_new (String.list_byte_of_string "0123456789abcdef") 80 in
  length (s6_addr a) = 16%nat /\
  IPv6_insert a = "[3031:3233:3435:3637:3839:6162:6364:6566]:80" /\
  exists m, IPv6_subnetMast 60 = Val m /\ IPv6_number (s6_addr m) = 2 ^ 128 - 2 ^ 68.
Proof.
  intros a. split; [done|]. split; [by vm_compute|].
  destruct (ipv6_prefixes MYHTTP_LITTLE_ENDIAN a 60) as [H _]; [done|lia|].
  destruct (H ltac:(lia)) as (_ & Hm & _). exact Hm.
Defined.

(** *** The order *)

Section Order.
Context `{host : Host}.

(** The bytes that are compared. *)
Definition addr_bytes (a : Address) : list byte := take (Z.to_nat (getAddrLen a)) (memory a).
Definition addr_ok (a : Address) : Prop := 0 <= getAddrLen a <= Z.of_nat (length (memory a)).

(** The lexicographic order of bytes. *)
Fixpoint bytes_less (s t : list byte) : bool :=
  match s, t with
  | _, [] => false
  | [], _ :: _ => true
  | b :: s, c :: t =>
      if byte.unsigned b =? byte.unsigned c then bytes_less s t else byte.unsigned b <? byte.unsigned c
  end.

Lemma unsigned_inj b c : byte.unsigned b = byte.unsigned c -> b = c.
Proof. intros H. rewrite <- (byte.of_Z_unsigned b), <- (byte.of_Z_unsigned c). by rewrite H. Qed.

#[local] Instance byte_eq_dec : EqDecision byte.
Proof.
  refine (fun b c => cast_if (decide (byte.unsigned b = byte.unsigned c)));
    [by apply unsigned_inj|by intros ->].
Defined.

(** [memcmp] of the common part, and then the lengths. *)
Lemma memcmp_less s t :
  let n := (length s `min` length t)%nat in
  let r := memcmp (take n s) (take n t) in
  (if r <? 0 then true else if 0 <? r then false else Z.of_nat (length s) <? Z.of_nat (length t)) =
  bytes_less s t.
Proof.
  cbv zeta. revert t; induction s as [|b s IH]; intros [|c t]; try done.
  cbn [length Nat.min take memcmp bytes_less].
  destruct (Z.eqb_spec (byte.unsigned b - byte.unsigned c) 0) as [E|E];
    destruct (Z.eqb_spec (byte.unsigned b) (byte.unsigned c)); try lia.
  - rewrite <- IH. replace (Z.of_nat (S (length s)) <? Z.of_nat (S (length t)))
      with (Z.of_nat (length s) <? Z.of_nat (length t)); [done|].
    apply eq_true_iff_eq. rewrite !Z.ltb_lt. lia.
  - destruct (Z.ltb_spec (byte.unsigned b) (byte.unsigned c)).
    + by rewrite (proj2 (Z.ltb_lt _ _)) by lia.
    + by rewrite (proj2 (Z.ltb_ge _ 0)), (proj2 (Z.ltb_lt 0 _)) by lia.
Qed.

Lemma memcmp_equal s t : length s = length t -> memcmp s t = 0 <-> s = t.
Proof.
  revert t; induction s as [|b s IH]; intros [|c t] H; try done. simpl in *.
  destruct (Z.eqb_spec (byte.unsigned b - byte.unsigned c) 0) as [E|E].
  - rewrite IH by lia. split; [intros ->; f_equal; apply unsigned_inj; lia|by intros [=]].
  - split; [lia|]. intros [= -> _]. lia.
Qed.

#[local] Ltac byte_cases b c :=
  destruct (Z.eqb_spec (byte.unsigned b) (byte.unsigned c)); try lia.

#[local] Instance bytes_less_order : StrictWeak bytes_less.
Proof.
  split.
  - induction x as [|b l IH]; simpl; [done|]. by rewrite Z.eqb_refl.
  - induction x as [|b l IH]; intros [|c m] [|d n]; simpl; try done.
    intros H1 H2. byte_cases b c; byte_cases c d; byte_cases b d. by apply (IH m).
  - induction x as [|b l IH]; intros [|c m] [|d n]; simpl; try done.
    intros H1 H2. byte_cases b c; byte_cases c d; byte_cases b d. by apply (IH m).
Qed.

Lemma bytes_less_total s t : bytes_less s t = false -> bytes_less t s = false -> s = t.
Proof.
  revert t; induction s as [|b s IH]; intros [|c t]; simpl; try done.
  destruct (Z.eqb_spec (byte.unsigned b) (byte.unsigned c)) as [E|E];
    destruct (Z.eqb_spec (byte.unsigned c) (byte.unsigned b)); try lia.
  - intros H1 H2. f_equal; [by apply unsigned_inj|by apply IH].
Qed.

Lemma length_addr_bytes a : addr_ok a -> length (addr_bytes a) = Z.to_nat (getAddrLen a).
Proof. unfold addr_ok, addr_bytes. rewrite length_take. lia. Qed.

Lemma prefix_bytes a n :
  addr_ok a -> 0 <= n <= getAddrLen a -> prefix a n = Val (take (Z.to_nat n) (addr_bytes a)).
Proof.
  intros Ha Hn. unfold prefix, addr_ok, addr_bytes in *. rewrite (proj2 (Z.ltb_ge _ _)) by lia.
  rewrite take_take. do 2 f_equal. lia.
Qed.

Lemma address_less_bytes a b :
  addr_ok a -> addr_ok b -> address_less a b = Val (bytes_less (addr_bytes a) (addr_bytes b)).
Proof.
  intros Ha Hb. pose proof Ha as Ha'. pose proof Hb as Hb'. unfold addr_ok in Ha', Hb'.
  unfold address_less. rewrite !prefix_bytes by (done || lia). cbn [mbind res_bind].
  rewrite <- memcmp_less, !length_addr_bytes by done.
  replace (Z.to_nat (getAddrLen a `min` getAddrLen b))
    with (Z.to_nat (getAddrLen a) `min` Z.to_nat (getAddrLen b))%nat by lia.
  rewrite !Z2Nat.id by lia. repeat destruct (_ <? _); done.
Qed.

Lemma address_equal_bytes a b :
  addr_ok a -> addr_ok b -> address_equal a b = Val (bool_decide (addr_bytes a = addr_bytes b)).
Proof.
  intros Ha Hb. pose proof Ha as Ha'. pose proof Hb as Hb'. unfold addr_ok in Ha', Hb'.
  pose proof (length_addr_bytes a Ha). pose proof (length_addr_bytes b Hb).
  unfold address_equal. destruct (Z.eqb_spec (getAddrLen a) (getAddrLen b)) as [E|E].
  - rewrite !prefix_bytes by (done || lia). cbn [mbind res_bind]. rewrite !take_ge by lia.
    f_equal. apply eq_true_iff_eq. rewrite Z.eqb_eq, bool_decide_eq_true. apply memcmp_equal. lia.
  - f_equal. symmetry. apply bool_decide_eq_false. intros He. apply (f_equal length) in He. lia.
Qed.

(** C39: Comparing addresses. For addresses whose length stays in their structure the
    comparisons return, [operator==] says whether the bytes are the same, and
    [operator<] is a strict total order with it: exactly one of less, equal and greater
    holds, and less is transitive. *)
Theorem address_order a b c (Ha : addr_ok a) (Hb : addr_ok b) (Hc : addr_ok c) :
  (address_equal a b = Val true <-> addr_bytes a = addr_bytes b) /\
  (address_different a b = Val true <-> addr_bytes a <> addr_bytes b) /\
  (exists x y z, address_less a b = Val x /\ address_equal a b = Val y /\ address_less b a = Val z /\
     (x, y, z) ∈ [(true, false, false); (false, true, false); (false, false, true)]) /\
  (address_less a b = Val true -> address_less b c = Val true -> address_less a c = Val true).
Proof.
  unfold address_different. rewrite !address_less_bytes, !address_equal_bytes by done. split_and!.
  - split; [intros [= H%bool_decide_eq_true]; done|intros H; by rewrite bool_decide_true].
  - simpl. split; [intros [= H%negb_true_iff%bool_decide_eq_false]; done|].
    intros H. by rewrite bool_decide_false.
  - do 3 eexists. split; [done|]. split; [done|]. split; [done|]. rewrite !elem_of_cons.
    destruct (decide (addr_bytes a = addr_bytes b)) as [->|N].
    + rewrite sw_irrefl, bool_decide_true; auto.
    + rewrite bool_decide_false by done.
      destruct (bytes_less (addr_bytes a) (addr_bytes b)) eqn:E1,
        (bytes_less (addr_bytes b) (addr_bytes a)) eqn:E2; auto.
      * pose proof (sw_trans _ _ _ E1 E2) as H. by rewrite sw_irrefl in H.
      * by destruct N; apply bytes_less_total.
  - intros [= H1] [= H2]. f_equal. by eapply sw_trans.
Qed.
End Order.

Lemma address_order_witness :
  let a := IPv4Address (IPv4_new 3232235786 80) in
  let b := IPv6Address IPv6_default in
  addr_ok a /\ addr_ok b /\
  (address_less a b = Val true -> address_less b a = Val true -> address_less a a = Val true) /\
  address_less a b = Val true.
Proof.
  intros a b. assert (Ha : addr_ok a) by (split; [by vm_compute|vm_compute; congruence]).
  assert (Hb : addr_ok b) by (split; [by vm_compute|vm_compute; congruence]).
  split; [done|]. split; [done|]. split; [|by vm_compute].
  destruct (address_order a b a Ha Hb Ha) as (_ & _ & _ & H). exact H.
Defined.

(** *** Hosts *)

Lemma find_char_app c a b : find_char c a = None -> find_char c (a ++ String c b) = Some (a, b).
Proof.
  induction a as [|d a IH]; simpl; intros H; [by rewrite decide_True|].
  case_decide; [done|]. destruct (find_char c a) as [[]|] eqn:E; [done|]. by rewrite IH.
Qed.

Lemma find_char_none_app c a b :
  find_char c a = None -> find_char c b = None -> find_char c (a ++ b) = None.
Proof.
  induction a as [|d a IH]; simpl; intros Ha Hb; [done|].
  case_decide; [done|]. destruct (find_char c a) as [[]|] eqn:E; [done|]. by rewrite IH.
Qed.

Lemma find_char_some c p q : exists r, find_char c (p ++ String c q) = Some r.
Proof.
  induction p as [|d p [[x y] IH]]; simpl; [rewrite decide_True by done; eauto|].
  case_decide; [eauto|]. rewrite IH. simpl. eauto.
Qed.

(** Host and service. A bracketed address is the node, with the text behind "]:" as
    service, if there is one; a host with one colon is split there; a host without a colon
    has no service. But for an address with two or more colons and no brackets, which is
    an IPv6 address, the whole is the node and the text from the first colon on is passed
    as its service. *)
Theorem lookup_split a p (Ha : a <> "") :
  (find_char closing a = None ->
     split_host ("[" ++ a ++ "]") = (a, None) /\ split_host ("[" ++ a ++ "]:" ++ p) = (a, Some p)) /\
  (find_char opening a = None -> find_char colon a = None ->
     split_host a = (a, None) /\
     (find_char colon p = None -> split_host (a ++ ":" ++ p) = (a, Some p)) /\
     forall q, let h := a ++ ":" ++ p ++ ":" ++ q in split_host h = (h, Some (":" ++ p ++ ":" ++ q))).
Proof.
  assert (Hb : forall s, find_char opening a = None -> bracketed (a ++ s) = ("", None)).
  { intros s H. destruct a as [|c r]; [done|]. simpl in *. by case_decide. }
  split.
  - intros Hc.
    assert (E : forall s, bracketed ("[" ++ a ++ "]" ++ s) =
      match s with String d r => (a, if decide (d = colon) then Some r else None) | "" => (a, None) end).
    { intros s. change ("[" ++ ?x)%string with (String opening x). unfold bracketed. rewrite decide_True by done.
      change ("]" ++ s)%string with (String closing s). by rewrite find_char_app. }
    split; unfold split_host.
    + pose proof (E "") as E0. rewrite string_app_nil in E0. rewrite E0. by rewrite !decide_False.
    + pose proof (E (String colon p)) as E1. change ("]" ++ String colon p) with ("]:" ++ p) in E1. rewrite E1.
      rewrite !decide_False by done. by rewrite decide_True.
  - intros Ho Hc. unfold split_host. split_and!.
    + pose proof (Hb "" Ho) as E. rewrite string_app_nil in E. rewrite E. simpl. by rewrite Hc.
    + intros Hp. rewrite Hb by done. change (":" ++ p)%string with (String colon p).
      rewrite decide_True, find_char_app, Hp by done. by rewrite decide_False.
    + intros q. cbv zeta. rewrite Hb by done.
      change (a ++ ":" ++ p ++ ":" ++ q)%string with (a ++ String colon (p ++ String colon q))%string.
      rewrite decide_True, find_char_app by done. destruct (find_char_some colon p q) as [r ->]. done.
Qed.

Lemma lookup_split_witness :
  split_host "localhost:80" = ("localhost", Some "80") /\
  split_host "fe:80:1" = ("fe:80:1", Some ":80:1").
Proof.
  split.
  - destruct (lookup_split "localhost" "80") as [_ H]; [discriminate|].
    destruct (H eq_refl eq_refl) as (_ & K & _). exact (K eq_refl).
  - destruct (lookup_split "fe" "80") as [_ H]; [discriminate|].
    destruct (H eq_refl eq_refl) as (_ & _ & K). exact (K "1").
Defined.
