(* ===== verification/Uri.v ===== *)
(** * URIs (uri.h and the hand-written part of uri.rl.cc)

    The record a URI is parsed into, its accessors, and [dump]/[toString]. The
    parser [Uri::Create] is modelled in UriMachine.v and UriParser.v. *)
From stdpp Require Import base tactics option list strings pretty numbers.
From S2P Require Import Prelude CString Http.

Open Scope string_scope.
Open Scope Z_scope.

Record Uri := mkUri {
  m_scheme : string;
  m_userinfo : string;
  m_host : string;
  m_port : Z;
  m_path : string;
  m_query : string;
  m_fragment : string
}.

Definition Uri_new : Uri := mkUri "" "" "" 0 "" "" "".

Definition setScheme v (u : Uri) :=
  mkUri v (m_userinfo u) (m_host u) (m_port u) (m_path u) (m_query u) (m_fragment u).
Definition setUserinfo v (u : Uri) :=
  mkUri (m_scheme u) v (m_host u) (m_port u) (m_path u) (m_query u) (m_fragment u).
Definition setHost v (u : Uri) :=
  mkUri (m_scheme u) (m_userinfo u) v (m_port u) (m_path u) (m_query u) (m_fragment u).
Definition setPort v (u : Uri) :=
  mkUri (m_scheme u) (m_userinfo u) (m_host u) v (m_path u) (m_query u) (m_fragment u).
Definition setPath v (u : Uri) :=
  mkUri (m_scheme u) (m_userinfo u) (m_host u) (m_port u) v (m_query u) (m_fragment u).
Definition setQuery v (u : Uri) :=
  mkUri (m_scheme u) (m_userinfo u) (m_host u) (m_port u) (m_path u) v (m_fragment u).
Definition setFragment v (u : Uri) :=
  mkUri (m_scheme u) (m_userinfo u) (m_host u) (m_port u) (m_path u) (m_query u) v.

(** The port a scheme implies. *)
Definition is_http (s : string) : bool := bool_decide (s = "http" \/ s = "ws").
Definition is_https (s : string) : bool := bool_decide (s = "https" \/ s = "wss").

Definition isDefaultPort (u : Uri) : bool :=
  if m_port u =? 0 then true
  else if is_http (m_scheme u) then m_port u =? 80
  else if is_https (m_scheme u) then m_port u =? 443
  else false.

Definition getPath (u : Uri) : string := if decide (m_path u = "") then "/" else m_path u.

Definition getPort (u : Uri) : Z :=
  if negb (m_port u =? 0) then m_port u
  else if is_http (m_scheme u) then 80
  else if is_https (m_scheme u) then 443
  else m_port u.

Definition Uri_dump (u : Uri) : string :=
  m_scheme u ++ "://"
    ++ m_userinfo u ++ (if decide (m_userinfo u = "") then "" else "@")
    ++ m_host u
    ++ (if isDefaultPort u then "" else ":" ++ pretty (m_port u))
    ++ getPath u
    ++ (if decide (m_query u = "") then "" else "?") ++ m_query u
    ++ (if decide (m_fragment u = "") then "" else "#") ++ m_fragment u.
Definition Uri_toString := Uri_dump.

(** [createAddress]: [lookup] is [Address::LookupAnyIPAddress], [set_port] the
    address's [setPort]. *)
Definition createAddress {A} (lookup : string -> option A) (set_port : Z -> A -> A) (u : Uri) :
    option A :=
  set_port (getPort u) <$> lookup (m_host u).

(** ** Reading a URI back: the decomposition of RFC 3986, appendix B *)

(** The part of [s] before the first character that satisfies [P], and the rest. *)
Fixpoint break (P : Ascii.ascii -> bool) (s : string) : string * string :=
  match s with
  | EmptyString => ("", "")
  | String c s' => if P c then ("", s) else let '(a, b) := break P s' in (String c a, b)
  end.

Definition chr_is (n : nat) (c : Ascii.ascii) : bool := bool_decide (c = Ascii.ascii_of_nat n).
Definition colon := chr_is 58.
Definition slash := chr_is 47.
Definition question := chr_is 63.
Definition hash := chr_is 35.
Definition at_sign := chr_is 64.

(** [tail s]: without the delimiter [s] begins with, if any. *)
Definition tail (s : string) : string := match s with String _ s' => s' | "" => "" end.

Record parts := mkParts {
  p_scheme : string; p_authority : string; p_path : string; p_query : string;
  p_fragment : string
}.

Definition split_uri (s : string) : option parts :=
  let '(scheme, r) := break colon s in
  match r with
  | String _ (String _ (String _ r)) =>
      let '(authority, r) := break (fun c => slash c || question c || hash c) r in
      let '(path, r) := break (fun c => question c || hash c) r in
      let '(query, r) := break hash r in
      Some (mkParts scheme authority path (tail query) (tail r))
  | _ => None
  end.

(** The authority a URI stands for: the port is shown unless it is the scheme's. *)
Definition authority (u : Uri) : string :=
  m_userinfo u ++ (if decide (m_userinfo u = "") then "" else "@") ++ m_host u
    ++ (if isDefaultPort u then "" else ":" ++ pretty (m_port u)).

(** No component holds a delimiter that would end it, as in a parsed URI. *)
Definition well_formed (u : Uri) : Prop :=
  chars (fun c => negb (colon c)) (m_scheme u) = true /\
  chars (fun c => negb (slash c || question c || hash c)) (m_userinfo u) = true /\
  chars (fun c => negb (slash c || question c || hash c)) (m_host u) = true /\
  (m_path u = "" \/ String.prefix "/" (m_path u) = true) /\
  chars (fun c => negb (question c || hash c)) (m_path u) = true /\
  chars (fun c => negb (hash c)) (m_query u) = true /\
  0 <= m_port u < 2 ^ 31.

#[local] Arguments String.append !_ _ : simpl nomatch.

Lemma break_app P s t :
  chars (fun c => negb (P c)) s = true ->
  (match t with String c _ => P c = true | "" => True end) ->
  break P (s ++ t) = (s, t).
Proof.
  intros Hs Ht. induction s as [|c s IH].
  - destruct t as [|d t]; [done|]. simpl. by rewrite Ht.
  - simpl in Hs. apply andb_true_iff in Hs as [Hc Hs]. apply negb_true_iff in Hc.
    change (String c s ++ t) with (String c (s ++ t)). cbn [break]. rewrite Hc.
    by rewrite (IH Hs).
Qed.

Lemma prefix_app p s : String.prefix p s = true -> exists r, s = p ++ r.
Proof.
  revert s. induction p as [|c p IH]; intros s; [by exists s|].
  destruct s as [|d s]; [done|]. simpl. destruct (Ascii.ascii_dec c d) as [->|]; [|done].
  intros [r ->]%IH. by exists r.
Qed.

Lemma pretty_port_chars P z :
  0 <= z -> (forall d, P (pretty_N_char d) = true) -> chars P (pretty z) = true.
Proof.
  intros Hz HP. pose proof (chars_decimal P z HP) as H. unfold decimal in H.
  destruct z as [|p|p]; [exact H|exact H|lia].
Qed.

Lemma authority_chars u :
  well_formed u -> chars (fun c => negb (slash c || question c || hash c)) (authority u) = true.
Proof.
  intros (_ & Hu & Hh & _ & _ & _ & Hp). unfold authority.
  rewrite !chars_app, Hu, Hh. case_decide; simpl; destruct (isDefaultPort u); try done;
    (apply pretty_port_chars; [lia|]);
    intros d; unfold pretty_N_char; by repeat case_match.
Qed.

(** A dumped URI can be read back. For a URI whose components hold no
    delimiter of a following component, the standard decomposition of [toString]
    yields the scheme, the authority (user, host, and the port exactly when it is not
    the scheme's default), [getPath] (at least "/"), the query and the fragment; and
    the port that is connected to, [getPort], is the shown one, or the default. *)
Theorem uri_read_back u (Hw : well_formed u) :
  split_uri (Uri_toString u) =
    Some (mkParts (m_scheme u) (authority u) (getPath u) (m_query u) (m_fragment u)) /\
  (isDefaultPort u = false -> getPort u = m_port u /\ m_port u <> 0) /\
  (isDefaultPort u = true ->
     getPort u = if is_http (m_scheme u) then 80 else if is_https (m_scheme u) then 443 else 0).
Proof.
  pose proof (authority_chars u Hw) as Ha.
  destruct Hw as (Hs & _ & _ & Hp & Hp' & Hq & _). split; [|split].
  - unfold split_uri, Uri_toString.
    assert (E : Uri_dump u = m_scheme u ++ "://" ++ authority u ++ getPath u
      ++ ((if decide (m_query u = "") then "" else "?") ++ m_query u)
      ++ (if decide (m_fragment u = "") then "" else "#") ++ m_fragment u)
      by (unfold Uri_dump, authority; by rewrite !string_app_assoc).
    set (Q := (if decide (m_query u = "") then "" else "?") ++ m_query u) in *.
    set (F := (if decide (m_fragment u = "") then "" else "#") ++ m_fragment u) in *.
    assert (HF : tail F = m_fragment u /\
      match F with String c _ => hash c = true | "" => True end).
    { subst F. destruct (decide (m_fragment u = "")) as [->|]; done. }
    destruct HF as [HF1 HF2].
    assert (HQ : match Q ++ F with String c _ => question c || hash c = true | "" => True end /\
      break hash (Q ++ F) = (Q, F) /\ tail Q = m_query u).
    { subst Q. destruct (decide (m_query u = "")) as [->|].
      - split; [|by rewrite break_app]. destruct F; [done|]. simpl. by rewrite HF2, orb_true_r.
      - split; [done|]. split; [|done]. by apply break_app. }
    assert (Hpath : chars (fun c => negb (question c || hash c)) (getPath u) = true /\
      exists r, getPath u = "/" ++ r).
    { unfold getPath. case_decide as He; [split; [done|by exists ""]|]. split; [done|].
      destruct Hp as [|Hp]; [done|]. by apply prefix_app. }
    destruct Hpath as [Hpc [r Hr]], HQ as (HQ1 & HQ2 & HQ3).
    rewrite E, break_app by done. cbn [String.append].
    rewrite break_app; [|exact Ha|by rewrite Hr].
    rewrite (break_app _ (getPath u)) by done. by rewrite HQ2, HQ3, HF1.
  - intros H. unfold isDefaultPort, getPort in *. by destruct (Z.eqb_spec (m_port u) 0).
  - intros H. unfold isDefaultPort, getPort in *. destruct (Z.eqb_spec (m_port u) 0) as [->|];
      simpl in *; [done|]. repeat case_match; try done; lia.
Qed.

Definition demo_uri : Uri := mkUri "http" "me" "example.org" 8080 "" "a=1?" "top".

Lemma uri_read_back_witness :
  Uri_toString demo_uri = "http://me@example.org:8080/?a=1?#top" /\
  split_uri (Uri_toString demo_uri) =
    Some (mkParts "http" "me@example.org:8080" "/" "a=1?" "top").
Proof.
  split; [by vm_compute|]. refine (proj1 (uri_read_back demo_uri _)).
  repeat split; try done. by left.
Defined.
