(* ===== verification/HttpClient.v ===== *)
(** * The HTTP client and its connection pool (http/http_connection.h, .cpp)

    The request [doRequest] builds from the caller's headers, the result codes of
    an exchange, and [HttpConnectionPool]: the idle list, the connections in use
    (handed out as shared pointers whose deleter is [ReleasePtr]) and the counter
    [m_total]. The network is outside: whether an address, a socket and a
    connection were obtained, what the send returned and whether a response came
    are arguments, as are the clock readings. Reading the response
    ([recvResponse]) is not modelled here. *)
From stdpp Require Import base tactics option list strings gmap numbers.
From S2P Require Import Prelude OrdSet CString Uri Http.

Open Scope string_scope.
Open Scope Z_scope.

(** ** Building a request *)

(** The loop over the caller's headers, a [std::map<std::string, std::string>] in
    its order. *)
Fixpoint add_headers (headers : list (string * string)) (req : HttpRequest) (has_host : bool) :
    HttpRequest * bool :=
  match headers with
  | [] => (req, has_host)
  | (k, v) :: rest =>
      if strcasecmp k "connection" =? 0 then
        add_headers rest (if strcasecmp v "keep-alive" =? 0 then setClose req false else req)
          has_host
      else
        add_headers rest (setHeader req k v)
          (if negb has_host && (strcasecmp k "host" =? 0) then bool_decide (v <> "")
           else has_host)
  end.

(** From the loop to [setBody]. *)
Definition fill_request (req : HttpRequest) (headers : list (string * string)) (host body : string) :
    HttpRequest :=
  let '(req, has_host) := add_headers headers req false in
  setBody (if has_host then req else setHeader req "Host" host) body.

(** [HttpConnection::DoRequest(method, uri, timeout, headers, body)] *)
Definition DoRequest_build (method : HttpMethod) (uri : Uri) (headers : list (string * string))
    (body : string) : HttpRequest :=
  fill_request
    (setMethod (setFragment (setQuery (setPath (HttpRequest_new 17 true) (getPath uri))
       (Uri.m_query uri)) (Uri.m_fragment uri)) method)
    headers (m_host uri) body.

(** [HttpConnectionPool::doRequest(method, url, timeout, headers, body)] *)
Definition pool_build (host vhost : string) (method : HttpMethod) (url : string)
    (headers : list (string * string)) (body : string) : HttpRequest :=
  fill_request (setClose (setMethod (setPath (HttpRequest_new 17 true) url) method) true)
    headers (if decide (vhost = "") then host else vhost) body.

(** The URL the overloads for a [Uri] pass on. *)
Definition pool_url (uri : Uri) : string :=
  getPath uri ++ (if decide (Uri.m_query uri = "") then "" else "?") ++ Uri.m_query uri
    ++ (if decide (Uri.m_fragment uri = "") then "" else "#") ++ Uri.m_fragment uri.

(** ** Results *)

Inductive Error :=
  | E_OK | INVALID_URL | INVALID_HOST | CONNECT_FAIL | SEND_CLOSE_BY_PEER | SEND_SOCKET_ERROR
  | TIMEOUT | CREATE_SOCKET_ERROR | POOL_GET_CONNECTION | POOL_INVALID_CONNECTION.
Definition Error_num (e : Error) : Z :=
  match e with
  | E_OK => 0 | INVALID_URL => 1 | INVALID_HOST => 2 | CONNECT_FAIL => 3
  | SEND_CLOSE_BY_PEER => 4 | SEND_SOCKET_ERROR => 5 | TIMEOUT => 6 | CREATE_SOCKET_ERROR => 7
  | POOL_GET_CONNECTION => 8 | POOL_INVALID_CONNECTION => 9
  end.

(** The code and the response of an [HttpResult] (the message is not modelled). *)
Definition HttpResult : Type := Z * option HttpResponse.
Definition failure (e : Error) : HttpResult := (Error_num e, None).

(** After the connection: [rt] is the result of [sendRequest]. *)
Definition exchange (rt : Z) (rsp : option HttpResponse) : HttpResult :=
  if rt =? 0 then failure SEND_CLOSE_BY_PEER
  else if rt <? 0 then failure SEND_SOCKET_ERROR
  else match rsp with
       | None => failure TIMEOUT
       | Some r => (Error_num E_OK, Some r)
       end.

(** [DoRequest(req, uri, timeout)] *)
Definition DoRequest (addr sock connected : bool) (rt : Z) (rsp : option HttpResponse) :
    HttpResult :=
  if negb addr then failure INVALID_HOST
  else if negb sock then failure CREATE_SOCKET_ERROR
  else if negb connected then failure CONNECT_FAIL
  else exchange rt rsp.

(** The overloads that take a URL: [uri] is the result of [Uri::Create]. *)
Definition DoRequest_url (uri : option Uri) (addr sock connected : bool) (rt : Z)
    (rsp : option HttpResponse) : HttpResult :=
  match uri with
  | None => failure INVALID_URL
  | Some _ => DoRequest addr sock connected rt rsp
  end.

(** ** The pool *)

(** A connection; [connected] is the state of its socket. *)
Record Conn := mkConn { m_createTime : Z; m_request : Z; connected : bool }.

(** [store]: the live connections, by address. *)
Record Pool := mkPool {
  m_maxSize : Z;
  m_maxAliveTime : Z;
  m_maxRequest : Z;
  m_conns : list Z;
  m_total : Z;
  store : gmap Z Conn
}.

Definition HttpConnectionPool_new (max_size alive_time max_request : Z) : Pool :=
  mkPool max_size alive_time max_request [] 0 ∅.

Definition set_conns l (p : Pool) :=
  mkPool (m_maxSize p) (m_maxAliveTime p) (m_maxRequest p) l (m_total p) (store p).
Definition set_total n (p : Pool) :=
  mkPool (m_maxSize p) (m_maxAliveTime p) (m_maxRequest p) (m_conns p) n (store p).
Definition set_store h (p : Pool) :=
  mkPool (m_maxSize p) (m_maxAliveTime p) (m_maxRequest p) (m_conns p) (m_total p) h.

Definition conn_at (a : Z) : ST Pool Conn := fun p => (deref NullDeref (store p !! a), p).

(** [delete conn] *)
Definition delete_conn (a : Z) : ST Pool unit :=
  conn_at a;; modify (fun p => set_store (base.delete a (store p)) p).

(** The loop under the lock: the connection found and the invalid ones. *)
Fixpoint take_conn (now_ms : Z) (conns : list Z) (invalid : list Z) :
    ST Pool (option Z * list Z) :=
  match conns with
  | [] => modify (set_conns []);; mret (None, invalid)
  | a :: rest =>
      conn ← conn_at a;
      if negb (connected conn) then take_conn now_ms rest (invalid ++ [a])
      else
        alive ← gets m_maxAliveTime;
        if u64 (m_createTime conn + alive) >? now_ms then take_conn now_ms rest (invalid ++ [a])
        else modify (set_conns rest);; mret (Some a, invalid)
  end%list.

Fixpoint delete_all (l : list Z) : ST Pool unit :=
  match l with [] => mret tt | a :: l' => delete_conn a;; delete_all l' end.

(** [fresh]: the address of a new connection when the host resolves, the socket
    is created and connects. *)
Definition getConnection (now_ms : Z) (fresh : option Z) : ST Pool (option Z) :=
  conns ← gets m_conns;
  '(ptr, invalid) ← take_conn now_ms conns [];
  delete_all invalid;;
  modify (fun p => set_total (s32 (m_total p - Z.of_nat (length invalid))) p);;
  match ptr with
  | Some a => mret (Some a)
  | None =>
      match fresh with
      | None => mret None
      | Some a =>
          modify (fun p => set_store (<[a := mkConn 0 0 true]> (store p)) p);;
          modify (fun p => set_total (s32 (m_total p + 1)) p);;
          mret (Some a)
      end
  end.

(** The deleter of the shared pointer. *)
Definition ReleasePtr (now_ms : Z) (a : Z) : ST Pool unit :=
  c ← conn_at a;
  let c' := mkConn (m_createTime c) (u64 (m_request c + 1)) (connected c) in
  modify (fun p => set_store (<[a := c']> (store p)) p);;
  alive ← gets m_maxAliveTime;
  max ← gets m_maxRequest;
  if negb (connected c') || (u64 (m_createTime c' + alive) >=? now_ms) || (m_request c' >? max)
  then
    delete_conn a;;
    modify (fun p => set_total (s32 (m_total p - 1)) p)
  else modify (fun p => set_conns (m_conns p ++ [a])%list p).

(** [HttpConnectionPool::doRequest(req, timeout)], the release on its exit
    included; [has_sock] is whether the connection has a socket. *)
Definition pool_doRequest (now_ms : Z) (fresh : option Z) (has_sock : bool) (rt : Z)
    (rsp : option HttpResponse) (now_ms' : Z) : ST Pool HttpResult :=
  conn ← getConnection now_ms fresh;
  match conn with
  | None => mret (failure POOL_GET_CONNECTION)
  | Some a =>
      ReleasePtr now_ms' a;;
      mret (if has_sock then exchange rt rsp else failure POOL_INVALID_CONNECTION)
  end.

(** ** The request that is built *)

(** What the caller's headers ask for. *)
Definition keep_alive (headers : list (string * string)) : bool :=
  existsb (fun kv => (strcasecmp kv.1 "connection" =? 0) && (strcasecmp kv.2 "keep-alive" =? 0))
    headers.
Definition has_host (headers : list (string * string)) : bool :=
  existsb (fun kv => (strcasecmp kv.1 "host" =? 0) && bool_decide (kv.2 <> "")) headers.
(** The last value given for a name, up to case. *)
Definition last_value (key : string) (o : option string) (headers : list (string * string)) :
    option string :=
  foldl (fun o kv => if decide (fold_case key = fold_case kv.1) then Some kv.2 else o) o headers.

Local Abbreviation header_value := (value CaseInsensitiLess).

Lemma setClose_headers r b : m_headers (setClose r b) = m_headers r.
Proof. by destruct r. Qed.
Lemma setHeader_headers r k v : m_headers (setHeader r k v) = assign (m_headers r) k v.
Proof. by destruct r. Qed.
Lemma setHeader_close r k v : m_close (setHeader r k v) = m_close r.
Proof. by destruct r. Qed.
Lemma setBody_fields r v :
  m_headers (setBody r v) = m_headers r /\ m_close (setBody r v) = m_close r /\
  m_body (setBody r v) = v.
Proof. by destruct r. Qed.

Lemma strcasecmp_spec s t : reflect (fold_case s = fold_case t) (strcasecmp s t =? 0).
Proof. apply iff_reflect. rewrite Z.eqb_eq. symmetry. apply strcasecmp_zero. Qed.

#[local] Arguments fold_case : simpl never.

Lemma add_headers_spec headers req hh key :
  ordered CaseInsensitiLess fst (m_headers req) ->
  let '(req', hh') := add_headers headers req hh in
  ordered CaseInsensitiLess fst (m_headers req') /\
  hh' = hh || has_host headers /\
  m_close req' = m_close req && negb (keep_alive headers) /\
  header_value key (m_headers req') =
    (if decide (fold_case key = fold_case "connection") then header_value key (m_headers req)
     else last_value key (header_value key (m_headers req)) headers).
Proof.
  revert req hh. induction headers as [|[k v] headers IH]; intros req hh Ho; simpl.
  { rewrite orb_false_r, andb_true_r. by case_decide. }
  destruct (strcasecmp_spec k "connection") as [E|E]; simpl.
  - set (req1 := if strcasecmp v "keep-alive" =? 0 then setClose req false else req).
    assert (H1 : m_headers req1 = m_headers req)
      by (subst req1; destruct (strcasecmp v _ =? 0); [apply setClose_headers|done]).
    specialize (IH req1 hh). rewrite H1 in IH. specialize (IH Ho).
    destruct (add_headers headers req1 hh) as [req' hh']. destruct IH as (IH1 & IH2 & IH3 & IH4).
    split; [done|]. split; [|split].
    + rewrite IH2. destruct (strcasecmp_spec k "host") as [E'|E']; [|done].
      by rewrite E' in E.
    + rewrite IH3. subst req1. destruct (strcasecmp v "keep-alive" =? 0); simpl;
        [destruct req; simpl; by rewrite andb_false_r|done].
    + rewrite IH4. case_decide as Hk; [done|]. by rewrite decide_False by congruence.
  - assert (Ho' : ordered CaseInsensitiLess fst (m_headers (setHeader req k v))).
    { rewrite setHeader_headers. by apply (map_assign_ordered CaseInsensitiLess). }
    match goal with |- context [add_headers headers ?r ?h] =>
      specialize (IH r h Ho'); destruct (add_headers headers r h) as [req' hh'] end.
    destruct IH as (IH1 & IH2 & IH3 & IH4). split; [done|]. split; [|split].
    + rewrite IH2. destruct hh; simpl; [done|]. by destruct (strcasecmp k "host" =? 0).
    + by rewrite IH3, setHeader_close.
    + rewrite IH4, setHeader_headers, value_assign_fold by done.
      case_decide as Hk; [|done]. by rewrite decide_False by congruence.
Qed.

(** the request a client call sends, from a URI or from a pool. Whatever the
    caller's headers, the connection is kept alive exactly when one of them says so; a
    "connection" header is never stored; every other name has the last value given for
    it up to case; and when no "host" header has a value, "Host" is set to the host of
    the URI, or to the pool's virtual host or host. *)
Theorem built_request method uri host vhost url headers body key :
  let default_host := if decide (vhost = "") then host else vhost in
  let expected h :=
    if decide (fold_case key = fold_case "connection") then None
    else if decide (fold_case key = fold_case "host" /\ has_host headers = false) then Some h
    else last_value key None headers in
  let r := DoRequest_build method uri headers body in
  let r' := pool_build host vhost method url headers body in
  header_value key (m_headers r) = expected (m_host uri) /\
  header_value key (m_headers r') = expected default_host /\
  m_close r = negb (keep_alive headers) /\ m_close r' = negb (keep_alive headers) /\
  m_body r = body /\ m_body r' = body.
Proof.
  intros default_host expected.
  assert (H : forall req h, m_headers req = [] -> m_close req = true ->
    header_value key (m_headers (fill_request req headers h body)) = expected h /\
    m_close (fill_request req headers h body) = negb (keep_alive headers) /\
    m_body (fill_request req headers h body) = body).
  { intros req h Hh Hc. unfold fill_request.
    assert (Ho : ordered CaseInsensitiLess fst (m_headers req)) by (rewrite Hh; constructor).
    pose proof (add_headers_spec headers req false key Ho) as Hs.
    destruct (add_headers headers req false) as [req' hh].
    destruct Hs as (Ho' & -> & Hcl & Hv). rewrite Hh in Hv. rewrite Hc in Hcl. simpl in *.
    set (r2 := if has_host headers then req' else setHeader req' "Host" h).
    destruct (setBody_fields r2 body) as (-> & -> & ->). subst r2 expected. simpl.
    change (header_value key []) with (@None string) in Hv.
    destruct (has_host headers).
    - rewrite Hv. repeat split; [|done]. case_decide; [done|].
      rewrite decide_False; [done|]. by intros [_ ?].
    - rewrite setHeader_headers, setHeader_close, value_assign_fold by done.
      repeat split; [|done]. rewrite Hv.
      change (fold_case "Host") with (fold_case "host").
      destruct (decide (fold_case key = fold_case "host")) as [Eh|Eh].
      + assert (fold_case key <> fold_case "connection") by (rewrite Eh; by vm_compute).
        by rewrite decide_False, decide_True.
      + destruct (decide (fold_case key = fold_case "connection")); [done|].
        by rewrite decide_False by (by intros [? _]). }
  intros r r'. subst r r'.
  destruct (H (setMethod (setFragment (setQuery (setPath (HttpRequest_new 17 true) (getPath uri))
     (Uri.m_query uri)) (Uri.m_fragment uri)) method) (m_host uri)) as (? & ? & ?); [done..|].
  destruct (H (setClose (setMethod (setPath (HttpRequest_new 17 true) url) method) true)
    default_host) as (? & ? & ?); [done..|]. done.
Qed.

(** ** The pool under any sequence of uses *)

Local Open Scope list_scope.

(** The pool and the connections that are handed out. A call of [getConnection] and a
    release are one step each. The code gives up the lock before it deletes the
    connections it took off the list, corrects [m_total] (an atomic counter) and makes a new connection;
    nobody else reaches these connections, but a release that falls in between still counts
    them, and may then destroy a connection where the step here would keep it. *)
Record World := mkWorld { pool : Pool; in_use : list Z }.

Inductive event :=
  | EGet (now_ms : Z) (fresh : option Z)
  | ERelease (now_ms : Z) (a : Z)
  | EDisconnect (a : Z).      (* the peer, or the user, closes the socket *)

Definition disconnect (a : Z) (p : Pool) : Pool :=
  set_store (alter (fun c => mkConn (m_createTime c) (m_request c) false) a (store p)) p.

Definition exec (e : event) (w : World) : res World :=
  match e with
  | EGet now fresh =>
      match getConnection now fresh (pool w) with
      | (Val (Some a), p) => Val (mkWorld p (a :: in_use w))
      | (Val None, p) => Val (mkWorld p (in_use w))
      | (Exc x, _) => Exc x
      | (Bad f, _) => Bad f
      end
  | ERelease now a =>
      match ReleasePtr now a (pool w) with
      | (Val _, p) => Val (mkWorld p (filter (fun b => b <> a) (in_use w)))
      | (Exc x, _) => Exc x
      | (Bad f, _) => Bad f
      end
  | EDisconnect a => Val (mkWorld (disconnect a (pool w)) (in_use w))
  end.

(** A new object is at an address not in use, and an [int32_t] can count the
    connections; a shared pointer is released once, by a user who has it. *)
Definition legal (e : event) (w : World) : Prop :=
  match e with
  | EGet _ (Some a) => store (pool w) !! a = None /\ Z.of_nat (size (store (pool w))) < 2 ^ 31 - 1
  | EGet _ None | EDisconnect _ => True
  | ERelease _ a => a ∈ in_use w
  end.

Inductive reachable (size alive request : Z) : World -> Prop :=
  | reach_new : reachable size alive request
      (mkWorld (HttpConnectionPool_new size alive request) [])
  | reach_step w e w' :
      reachable size alive request w -> legal e w -> exec e w = Val w' ->
      reachable size alive request w'.

(** Every live connection is idle or in use, once; the counter counts them. *)
Record accounted (w : World) : Prop := {
  acc_nodup : NoDup (m_conns (pool w) ++ in_use w);
  acc_live a : is_Some (store (pool w) !! a) <-> a ∈ m_conns (pool w) ++ in_use w;
  acc_total : m_total (pool w) = Z.of_nat (size (store (pool w)));
  acc_bound : Z.of_nat (size (store (pool w))) < 2 ^ 31;
  acc_created a c : store (pool w) !! a = Some c -> m_createTime c = 0
}.

(** An idle connection the loop passes over. *)
Definition stale (p : Pool) (now_ms : Z) (a : Z) : bool :=
  match store p !! a with
  | Some c => negb (connected c) || (u64 (m_createTime c + m_maxAliveTime p) >? now_ms)
  | None => false
  end.

Lemma take_conn_spec now conns inv p :
  (forall a, a ∈ conns -> is_Some (store p !! a)) ->
  (exists q a rest, conns = q ++ a :: rest /\ forallb (stale p now) q = true /\
     stale p now a = false /\
     take_conn now conns inv p = (Val (Some a, inv ++ q), set_conns rest p)) \/
  (forallb (stale p now) conns = true /\
   take_conn now conns inv p = (Val (None, inv ++ conns), set_conns [] p)).
Proof.
  revert inv. induction conns as [|a conns IH]; intros inv Hl.
  { right. split; [done|]. by rewrite app_nil_r. }
  destruct (Hl a) as [c Hc]; [by left|].
  assert (Hl' : forall b, b ∈ conns -> is_Some (store p !! b)) by (intros b ?; apply Hl; by right).
  cbn [take_conn]. assert (Ec : conn_at a p = (Val c, p)) by (unfold conn_at; by rewrite Hc).
  st_step Ec.
  assert (Est : stale p now a = negb (connected c) || (u64 (m_createTime c + m_maxAliveTime p) >? now))
    by (unfold stale; by rewrite Hc).
  assert (Hrec : stale p now a = true ->
    take_conn now (a :: conns) inv p = take_conn now conns (inv ++ [a]) p).
  { intros Hs. cbn [take_conn]. st_step Ec. rewrite Est in Hs.
    destruct (negb (connected c)); [done|]. simpl in Hs. unfold gets.
    unfold mbind at 1, st_bind at 1. cbn beta iota. by rewrite Hs. }
  cbn [take_conn] in Hrec. rewrite (st_bind_val _ _ _ _ _ Ec) in Hrec. cbv beta in Hrec.
  destruct (stale p now a) eqn:Hs.
  - rewrite Hrec by done. destruct (IH (inv ++ [a])%list Hl') as [(q & b & rest & -> & Hq & Hb & E)|[Hq E]].
    + left. exists (a :: q), b, rest. split; [done|]. split; [simpl; by rewrite Hs|].
      split; [done|]. by rewrite E, <- app_assoc.
    + right. split; [simpl; by rewrite Hs|]. by rewrite E, <- app_assoc.
  - left. exists [], a, conns. split; [done|]. split; [done|]. split; [done|].
    symmetry in Est. apply orb_false_iff in Est as [-> Eu]. unfold gets.
    unfold mbind at 1, st_bind at 1. cbn beta iota. rewrite Eu.
    unfold modify, mbind, st_bind, mret, st_ret. by rewrite app_nil_r.
Qed.

(** Deleting distinct live connections. *)
Lemma delete_all_spec l p :
  NoDup l -> (forall a, a ∈ l -> is_Some (store p !! a)) ->
  exists h, delete_all l p = (Val tt, set_store h p) /\
    (forall a, h !! a = if decide (a ∈ l) then None else store p !! a) /\
    (size h + length l = size (store p))%nat.
Proof.
  revert p. induction l as [|a l IH]; intros p Hnd Hl.
  { exists (store p). split; [by destruct p|]. split; [|simpl; lia].
    intros a. by rewrite decide_False by (by intros ?%not_elem_of_nil). }
  apply list.NoDup_cons in Hnd as [Ha Hnd]. destruct (Hl a) as [c Hc]; [by left|].
  assert (Hd : delete_conn a p = (Val tt, set_store (base.delete a (store p)) p)).
  { unfold delete_conn, conn_at. st_unfold. by rewrite Hc. }
  destruct (IH (set_store (base.delete a (store p)) p)) as (h & Eh & Hh & Hs); [done| |].
  { intros b Hb. simpl. rewrite lookup_delete_ne by (intros ->; done). apply Hl. by right. }
  exists h. simpl. st_step Hd. split; [exact Eh|]. simpl in Hh, Hs. split.
  - intros b. rewrite Hh. destruct (decide (b ∈ l)) as [Hb|Hb].
    + by rewrite decide_True by by right.
    + destruct (decide (b = a)) as [->|Hne].
      * by rewrite lookup_delete_eq, decide_True by by left.
      * rewrite lookup_delete_ne by done. by rewrite decide_False by (rewrite elem_of_cons; tauto).
  - rewrite map_size_delete_Some in Hs by (by exists c).
    assert (size (store p) <> 0)%nat; [|lia].
    intros Hz%map_size_empty_inv. by rewrite Hz, lookup_empty in Hc.
Qed.

(** What [getConnection] does to a pool in order. *)
Lemma getConnection_spec now fresh w :
  accounted w -> legal (EGet now fresh) w ->
  exists q rest r p', getConnection now fresh (pool w) = (Val r, p') /\
    forallb (stale (pool w) now) q = true /\ m_conns p' = rest /\
    m_maxSize p' = m_maxSize (pool w) /\ m_maxAliveTime p' = m_maxAliveTime (pool w) /\
    m_maxRequest p' = m_maxRequest (pool w) /\
    m_total p' = Z.of_nat (size (store p')) /\ Z.of_nat (size (store p')) < 2 ^ 31 /\
    ((exists a, m_conns (pool w) = q ++ a :: rest /\ stale (pool w) now a = false /\ r = Some a /\
        forall b, store p' !! b = if decide (b ∈ q) then None else store (pool w) !! b) \/
     (m_conns (pool w) = q /\ rest = [] /\ r = fresh /\
        forall b, store p' !! b =
          if decide (Some b = fresh) then Some (mkConn 0 0 true)
          else if decide (b ∈ q) then None else store (pool w) !! b)).
Proof.
  intros [Hnd Hlive Htot Hb Hcr] Hleg. set (p := pool w) in *.
  apply list.NoDup_app in Hnd as (Hnd & _ & _).
  assert (Hl : forall a, a ∈ m_conns p -> is_Some (store p !! a))
    by (intros a Ha; apply Hlive, elem_of_app; by left).
  unfold getConnection. rewrite (st_bind_val (gets m_conns) _ p (m_conns p) p) by done. cbv beta.
  assert (Hdel : forall q rest, NoDup q -> (forall a, a ∈ q -> is_Some (store p !! a)) ->
    exists h, (forall B (k : unit -> ST Pool B),
        (delete_all q;;
         modify (fun p => set_total (s32 (m_total p - Z.of_nat (length q))) p) ≫= k)
          (set_conns rest p) =
        k tt (set_total (Z.of_nat (size h)) (set_store h (set_conns rest p)))) /\
      (forall a, h !! a = if decide (a ∈ q) then None else store p !! a) /\
      (size h <= size (store p))%nat).
  { intros q rest Hq Hql.
    destruct (delete_all_spec q (set_conns rest p) Hq Hql) as (h & E & Hh & Hs).
    exists h. simpl in *. split; [|split; [done|lia]].
    intros B k. st_step E. unfold modify, mbind, st_bind. simpl. do 2 f_equal.
    rewrite Htot, swrap_small by (unfold in_s; simpl; lia). lia. }
  destruct (take_conn_spec now (m_conns p) [] p Hl) as
    [(q & a & rest & Hc & Hq & Ha & E)|[Hq E]]; st_step E; cbn [app].
  - rewrite Hc in Hnd, Hl. apply list.NoDup_app in Hnd as (Hnq & _ & _).
    destruct (Hdel q rest) as (h & Ek & Hh & Hs);
      [done|intros b Hb'; apply Hl, elem_of_app; by left|].
    exists q, rest, (Some a). eexists. split; [rewrite Ek; reflexivity|]. simpl.
    repeat (split; [done|]). split; [lia|]. left. by exists a.
  - destruct (Hdel (m_conns p) []) as (h & Ek & Hh & Hs); [done|done|].
    destruct fresh as [a|].
    + destruct Hleg as [Hf Hsz].
      assert (Hha : h !! a = None) by (rewrite Hh; case_decide; done).
      exists (m_conns p), [], (Some a). eexists. split; [rewrite Ek; reflexivity|]. simpl.
      repeat (split; [done|]).
      rewrite map_size_insert_None by done. fold p in Hsz. simpl in Hsz.
      rewrite swrap_small by (unfold in_s; simpl; lia).
      split; [lia|]. split; [lia|]. right. repeat (split; [done|]).
      intros b. destruct (decide (b = a)) as [->|Hne].
      * by rewrite lookup_insert_eq, decide_True.
      * rewrite lookup_insert_ne, Hh by done. by rewrite (decide_False (P := Some b = _)) by congruence.
    + exists (m_conns p), [], None. eexists. split; [rewrite Ek; reflexivity|]. simpl.
      repeat (split; [done|]). split; [lia|]. right. repeat (split; [done|]).
      intros b. by rewrite Hh.
Qed.

(** Whether [ReleasePtr] destroys the connection. *)
Definition dropped (p : Pool) (now_ms : Z) (c : Conn) : bool :=
  negb (connected c) || (u64 (m_createTime c + m_maxAliveTime p) >=? now_ms)
  || (u64 (m_request c + 1) >? m_maxRequest p).
Definition used_once (c : Conn) : Conn :=
  mkConn (m_createTime c) (u64 (m_request c + 1)) (connected c).

Lemma ReleasePtr_spec now a c p :
  store p !! a = Some c ->
  ReleasePtr now a p =
    (Val tt,
     if dropped p now c
     then set_total (s32 (m_total p - 1)) (set_store (base.delete a (store p)) p)
     else set_conns (m_conns p ++ [a]) (set_store (<[a := used_once c]> (store p)) p)).
Proof.
  intros Hc. unfold ReleasePtr.
  assert (Ec : conn_at a p = (Val c, p)) by (unfold conn_at; by rewrite Hc).
  st_step Ec. unfold modify, gets, mbind, st_bind. cbn [m_maxAliveTime m_maxRequest set_store].
  unfold dropped, used_once. cbn [connected m_createTime m_request].
  destruct (negb (connected c) || _ || _); [|done].
  unfold delete_conn, conn_at, mbind, st_bind, modify. cbn [store set_store].
  rewrite lookup_insert_eq. cbn [deref store set_store m_total].
  do 2 f_equal. unfold set_store. f_equal. cbn. by rewrite delete_insert_eq.
Qed.

Lemma accounted_new size alive request :
  accounted (mkWorld (HttpConnectionPool_new size alive request) []).
Proof.
  split; simpl; [constructor| |done|done|].
  - intros a. rewrite lookup_empty. split; [by intros [? ?]|by intros ?%not_elem_of_nil].
  - intros a c. by rewrite lookup_empty.
Qed.

Lemma stale_live p now q : forallb (stale p now) q = true -> forall a, a ∈ q -> is_Some (store p !! a).
Proof.
  intros H a Ha. rewrite forallb_forall in H. apply list_elem_of_In in Ha.
  specialize (H a Ha). unfold stale in H. destruct (store p !! a); [by eexists|done].
Qed.

Lemma accounted_get now fresh w :
  accounted w -> legal (EGet now fresh) w ->
  exists w', exec (EGet now fresh) w = Val w' /\ accounted w'.
Proof.
  intros Hw Hleg. pose proof Hw as [Hnd Hlive Htot Hb Hcr].
  destruct (getConnection_spec now fresh w Hw Hleg) as
    (q & rest & r & p' & E & Hq & Hc & _ & _ & _ & Ht & Hsz & Hcase).
  unfold exec. rewrite E.
  destruct Hcase as [(a & Hconns & Ha & -> & Hst)|(Hconns & -> & -> & Hst)].
  - eexists. split; [done|]. rewrite Hconns in Hnd, Hlive.
    rewrite <- app_assoc in Hnd, Hlive. apply list.NoDup_app in Hnd as (Hnq & Hdis & Hnr).
    simpl in Hnr. split; simpl; rewrite ?Hc; [| |done|done|].
    + by rewrite <- Permutation_middle.
    + intros b. rewrite Hst. rewrite <- Permutation_middle. case_decide as Hbq.
      * split; [by intros [? ?]|]. intros Hb'. by destruct (Hdis b Hbq).
      * rewrite Hlive, elem_of_app. simpl. tauto.
    + intros b c. rewrite Hst. case_decide; [done|]. apply Hcr.
  - apply list.NoDup_app in Hnd as (Hnq & Hdis & Hnr). rewrite Hconns in Hdis, Hlive.
    assert (Hin : forall b, b ∈ in_use w -> is_Some (store (pool w) !! b))
      by (intros b ?; apply Hlive, elem_of_app; by right).
    destruct fresh as [a|]; (eexists; split; [done|]; split; simpl; rewrite ?Hc; simpl; [| |done|done|]).
    + apply list.NoDup_cons. split; [|done]. destruct Hleg as [Hf _].
      intros [c Hcc]%Hin. by rewrite Hf in Hcc.
    + intros b. rewrite Hst, elem_of_cons. destruct (decide (b = a)) as [->|Hne].
      * rewrite decide_True by done. split; [by left|by eexists].
      * rewrite decide_False by congruence. case_decide as Hbq.
        -- split; [by intros [? ?]|]. intros [->|Hb']; [done|]. by destruct (Hdis b Hbq).
        -- rewrite Hlive, elem_of_app. tauto.
    + intros b c. rewrite Hst. case_decide; [by intros [= <-]|]. case_decide; [done|]. apply Hcr.
    + done.
    + intros b. rewrite Hst, decide_False by done. case_decide as Hbq.
      * split; [by intros [? ?]|]. intros Hb'. by destruct (Hdis b Hbq).
      * rewrite Hlive, elem_of_app. tauto.
    + intros b c. rewrite Hst, decide_False by done. case_decide; [done|]. apply Hcr.
Qed.

Lemma accounted_release now a w :
  accounted w -> legal (ERelease now a) w ->
  exists w', exec (ERelease now a) w = Val w' /\ accounted w'.
Proof.
  intros [Hnd Hlive Htot Hb Hcr] Ha. simpl in Ha.
  destruct (proj2 (Hlive a)) as [c Hc]; [apply elem_of_app; by right|].
  unfold exec. rewrite (ReleasePtr_spec _ _ _ _ Hc). eexists. split; [done|].
  apply list.NoDup_app in Hnd as (Hn1 & Hdis & Hn2).
  assert (Hn2' : NoDup (filter (fun b => b <> a) (in_use w))) by by apply list.NoDup_filter.
  assert (Hni : a ∉ m_conns (pool w)) by (intros H; by destruct (Hdis a H)).
  assert (Hsz : size (store (pool w)) <> 0%nat).
  { intros Hz%map_size_empty_inv. by rewrite Hz, lookup_empty in Hc. }
  destruct (dropped (pool w) now c); split; simpl.
  - apply list.NoDup_app. split; [done|]. split; [|done].
    intros b Hb1 [_ Hb2]%list_elem_of_filter. by destruct (Hdis b Hb1).
  - intros b. rewrite elem_of_app, list_elem_of_filter. destruct (decide (b = a)) as [->|Hne].
    + rewrite lookup_delete_eq. split; [by intros [? ?]|]. by intros [?|[? _]].
    + rewrite lookup_delete_ne by done. rewrite Hlive, elem_of_app. tauto.
  - rewrite map_size_delete_Some by (by exists c). rewrite Htot.
    rewrite swrap_small by (unfold in_s; simpl; lia). lia.
  - rewrite map_size_delete_Some by (by exists c). lia.
  - intros b c' [_ Hb']%lookup_delete_Some. by eapply Hcr.
  - rewrite <- app_assoc. apply list.NoDup_app. split; [done|]. split.
    + intros b Hb1 [->|Hb2]%elem_of_cons; [done|].
      apply list_elem_of_filter in Hb2 as [_ Hb2]. by destruct (Hdis b Hb1).
    + simpl. apply list.NoDup_cons. split; [|done]. by intros [? _]%list_elem_of_filter.
  - intros b. rewrite <- app_assoc. simpl. rewrite elem_of_app, elem_of_cons, list_elem_of_filter.
    destruct (decide (b = a)) as [->|Hne].
    + rewrite lookup_insert_eq. split; [by right; left|by eexists].
    + rewrite lookup_insert_ne by done. rewrite Hlive, elem_of_app. tauto.
  - rewrite map_size_insert_Some by (by exists c). done.
  - rewrite map_size_insert_Some by (by exists c). done.
  - intros b c' [[_ <-]|[_ Hb']]%lookup_insert_Some; [|by eapply Hcr]. simpl. by eapply Hcr.
Qed.

Lemma map_size_alter {A} (f : A -> A) (a : Z) (m : gmap Z A) : size (alter f a m) = size m.
Proof.
  destruct (m !! a) as [x|] eqn:E.
  - replace (alter f a m) with (<[a := f x]> m); [by apply map_size_insert_Some; eexists|].
    apply map_eq. intros b. rewrite lookup_alter. case_decide as Hb.
    + subst. by rewrite lookup_insert_eq, E.
    + by rewrite lookup_insert_ne.
  - f_equal. apply map_eq. intros b. rewrite lookup_alter. case_decide; [subst|done]. by rewrite E.
Qed.

Lemma accounted_disconnect a w :
  accounted w -> accounted (mkWorld (disconnect a (pool w)) (in_use w)).
Proof.
  intros [Hnd Hlive Htot Hb Hcr]. split; simpl; [done| | | |].
  - intros b. rewrite <- Hlive. rewrite lookup_alter. case_decide as E; [subst|done].
    by rewrite fmap_is_Some.
  - by rewrite map_size_alter.
  - by rewrite map_size_alter.
  - intros b c. rewrite lookup_alter. case_decide as E; [subst|by apply Hcr].
    intros (c' & Hc' & ->)%fmap_Some. simpl. by eapply Hcr.
Qed.

Lemma exec_keeps_limits e w w' :
  accounted w -> legal e w -> exec e w = Val w' ->
  m_maxSize (pool w') = m_maxSize (pool w) /\
  m_maxAliveTime (pool w') = m_maxAliveTime (pool w) /\
  m_maxRequest (pool w') = m_maxRequest (pool w).
Proof.
  intros Hw Hl. destruct e as [now fresh|now a|a]; simpl.
  - destruct (getConnection_spec now fresh w Hw Hl)
      as (q & rest & r & p' & -> & _ & _ & H1 & H2 & H3 & _).
    destruct r; intros [= <-]; done.
  - simpl in Hl. destruct Hw as [_ Hlive _ _ _].
    destruct (proj2 (Hlive a)) as [c Hc]; [apply elem_of_app; by right|].
    rewrite (ReleasePtr_spec _ _ _ _ Hc). intros [= <-]. simpl. by case_match.
  - by intros [= <-].
Qed.

Lemma reachable_accounted size alive request w :
  reachable size alive request w ->
  accounted w /\ m_maxSize (pool w) = size /\ m_maxAliveTime (pool w) = alive /\
  m_maxRequest (pool w) = request.
Proof.
  induction 1 as [|w e w' _ (Hw & H1 & H2 & H3) Hl E]; [by split; [apply accounted_new|]|].
  destruct (exec_keeps_limits e w w' Hw Hl E) as (-> & -> & ->). split; [|done].
  destruct e as [now fresh|now a|a].
  - destruct (accounted_get now fresh w Hw Hl) as (w2 & E' & Hw2). congruence.
  - destruct (accounted_release now a w Hw Hl) as (w2 & E' & Hw2). congruence.
  - injection E as <-. by apply accounted_disconnect.
Qed.

(** C25: the pool's book-keeping. Whatever the users, the peers and the clock do,
    every live connection is either idle in the pool or in the hands of one user,
    [m_total] is their number, and the next operation neither uses nor deletes a dead
    connection. *)
Theorem pool_accounting size alive request w e
    (Hw : reachable size alive request w) (He : legal e w) :
  accounted w /\ exists w', exec e w = Val w' /\ accounted w'.
Proof.
  destruct (reachable_accounted _ _ _ _ Hw) as (Ha & _). split; [done|].
  destruct e as [now fresh|now a|a]; [by apply accounted_get|by apply accounted_release|].
  eexists. split; [done|]. by apply accounted_disconnect.
Qed.

(** what is reused. A connection's creation time is never recorded, so once the
    clock (milliseconds since 1970) is past the configured alive time, the age of a
    connection plays no role: [getConnection] skips the idle connections that are
    closed and hands out the first open one, however old, and a new one only when there
    is none; [ReleasePtr] puts an open connection back, whatever its age and however
    many are pooled, unless it has served more than the configured number of requests.
    The configured size of the pool is never looked at. *)
Theorem pool_reuse size alive request w now fresh
    (Hw : reachable size alive request w) (Halive : 0 <= alive < 2 ^ 32) (Hnow : alive < now)
    (Hfresh : legal (EGet now fresh) w) :
  let open a := exists c, store (pool w) !! a = Some c /\ connected c = true in
  (exists r p', getConnection now fresh (pool w) = (Val r, p') /\
     ((exists q a rest, m_conns (pool w) = q ++ a :: rest /\ (forall b, b ∈ q -> ~ open b) /\
         open a /\ r = Some a /\ m_conns p' = rest) \/
      ((forall b, b ∈ m_conns (pool w) -> ~ open b) /\ r = fresh /\ m_conns p' = []))) /\
  (forall a c, store (pool w) !! a = Some c ->
     exists p', ReleasePtr now a (pool w) = (Val tt, p') /\
       if connected c && (u64 (m_request c + 1) <=? request)
       then m_conns p' = m_conns (pool w) ++ [a] /\ store p' !! a = Some (used_once c)
       else m_conns p' = m_conns (pool w) /\ store p' !! a = None).
Proof.
  intros open. destruct (reachable_accounted _ _ _ _ Hw) as (Ha & _ & Eal & Erq).
  pose proof Ha as [_ _ _ _ Hcr].
  assert (Hstale : forall a c, store (pool w) !! a = Some c ->
    stale (pool w) now a = negb (connected c)).
  { intros a c Hc. unfold stale. rewrite Hc, (Hcr a c Hc), Eal, wrap_small by (unfold in_u; lia).
    replace (0 + alive >? now) with false by lia. by rewrite orb_false_r. }
  assert (Hopen : forall q, forallb (stale (pool w) now) q = true -> forall b, b ∈ q -> ~ open b).
  { intros q Hq b Hb (c & Hc & Hcc). rewrite forallb_forall in Hq. apply list_elem_of_In in Hb.
    specialize (Hq b Hb). rewrite (Hstale b c Hc), Hcc in Hq. done. }
  split.
  - destruct (getConnection_spec now fresh w Ha Hfresh)
      as (q & rest & r & p' & E & Hq & Hc & _ & _ & _ & _ & _ & Hcase).
    exists r, p'. split; [done|].
    destruct Hcase as [(a & Hconns & Hs & -> & _)|(Hconns & -> & -> & _)].
    + left. exists q, a, rest. split; [done|]. split; [by apply Hopen|].
      split; [|done]. destruct (acc_live _ Ha a) as [_ Hl].
      destruct Hl as [c Hcc]; [rewrite Hconns; rewrite !elem_of_app, elem_of_cons; auto|].
      exists c. split; [done|]. rewrite (Hstale a c Hcc) in Hs. by apply negb_false_iff.
    + right. split; [rewrite Hconns; by apply Hopen|]. done.
  - intros a c Hc. rewrite (ReleasePtr_spec _ _ _ _ Hc). eexists. split; [done|].
    unfold dropped. rewrite (Hcr a c Hc), Eal, Erq, (wrap_small 64 (0 + alive)) by (unfold in_u; lia).
    replace (0 + alive >=? now) with false by lia. rewrite orb_false_r.
    rewrite Z.gtb_ltb, Z.leb_antisym.
    destruct (connected c), (request <? u64 (m_request c + 1)); simpl;
      rewrite ?lookup_delete_eq, ?lookup_insert_eq; done.
Qed.

(** One connection taken, returned, and taken again an hour later. *)
Definition world1 : World :=
  mkWorld (mkPool 10 30000 5 [] 1 {[1 := mkConn 0 0 true]}) [1].
Definition world2 : World :=
  mkWorld (mkPool 10 30000 5 [1] 1 {[1 := mkConn 0 1 true]}) [].

Lemma world1_reachable : reachable 10 30000 5 world1.
Proof.
  apply reach_step with (w := mkWorld (HttpConnectionPool_new 10 30000 5) [])
    (e := EGet 3600000000 (Some 1)); [apply reach_new| |vm_compute; reflexivity].
  split; [done|]. vm_compute. done.
Qed.

Lemma world2_reachable : reachable 10 30000 5 world2.
Proof.
  apply reach_step with (w := world1) (e := ERelease 3600000001 1);
    [apply world1_reachable|by left|vm_compute; reflexivity].
Qed.

Lemma pool_accounting_witness :
  accounted world2 /\ exists w', exec (EGet 7200000000 (Some 2)) world2 = Val w' /\ accounted w'.
Proof.
  apply (pool_accounting 10 30000 5); [apply world2_reachable|]. split; [done|].
  vm_compute. done.
Defined.

Lemma pool_reuse_witness :
  getConnection 7200000000 (Some 2) (pool world2) =
    (Val (Some 1), mkPool 10 30000 5 [] 1 {[1 := mkConn 0 1 true]}) /\
  exists p', ReleasePtr 7200000000 1 (pool world1) = (Val tt, p') /\ m_conns p' = [1].
Proof.
  split; [vm_compute; reflexivity|].
  destruct (pool_reuse 10 30000 5 world1 7200000000 None) as [_ H];
    [apply world1_reachable|lia|lia|done|].
  destruct (H 1 (mkConn 0 0 true)) as (p' & E & Hc & _); [reflexivity|].
  exists p'. split; [exact E|exact Hc].
Defined.
