(* ===== verification/Servlet.v ===== *)
(** * Routing of requests to servlets (http/servlet.h, http/servlet.cpp)

    [ServletDispatch] keeps exact routes in a map, glob routes in a vector and a
    default servlet. A servlet is a shared pointer that may be null; a handler
    may change the request, the response and the session (of type [Sess]).
    [fnmatch] is the C library's, on C strings (0 is a match). *)
From stdpp Require Import base tactics option list strings gmap numbers.
From S2P Require Import Prelude OrdSet CString Http.

Open Scope string_scope.
Open Scope Z_scope.

Section Servlet.
Context {Sess : Type} (fnmatch : string -> string -> Z).

Definition handler : Type :=
  HttpRequest -> HttpResponse -> Sess -> Z * HttpRequest * HttpResponse * Sess.

(** [FunctionServlet] holds a [std::function], which may be empty; [UserServlet]
  stands for any other subclass. *)
Inductive Servlet :=
  | FunctionServlet (m_cb : option handler)
  | NotFoundServlet (m_serverName : string)
  | UserServlet (h : handler).

Record ServletDispatch := mkServletDispatch {
  m_datas : gmap string (option Servlet);
  m_globs : list (string * option Servlet);
  m_default : option Servlet
}.

Definition ServletDispatch_new : ServletDispatch :=
  mkServletDispatch ∅ [] (Some (NotFoundServlet "myhttp")).

Definition addServlet (uri : string) (slt : option Servlet) (d : ServletDispatch) :=
  mkServletDispatch (<[uri := slt]> (m_datas d)) (m_globs d) (m_default d).
Definition addServlet_cb (uri : string) (cb : option handler) (d : ServletDispatch) :=
  addServlet uri (Some (FunctionServlet cb)) d.

(** The loop that erases the first glob registered under [uri]. *)
Fixpoint erase_glob (uri : string) (l : list (string * option Servlet)) :
    list (string * option Servlet) :=
  match l with
  | [] => []
  | e :: l' => if decide (e.1 = uri) then l' else e :: erase_glob uri l'
  end.

Definition addGlobServlet (uri : string) (slt : option Servlet) (d : ServletDispatch) :=
  mkServletDispatch (m_datas d) (erase_glob uri (m_globs d) ++ [(uri, slt)])%list
    (m_default d).
Definition addGlobServlet_cb (uri : string) (cb : option handler) (d : ServletDispatch) :=
  addGlobServlet uri (Some (FunctionServlet cb)) d.
Definition delServlet (uri : string) (d : ServletDispatch) :=
  mkServletDispatch (delete uri (m_datas d)) (m_globs d) (m_default d).
Definition delGolbServlet (uri : string) (d : ServletDispatch) :=
  mkServletDispatch (m_datas d) (erase_glob uri (m_globs d)) (m_default d).
Definition setDefault (v : option Servlet) (d : ServletDispatch) :=
  mkServletDispatch (m_datas d) (m_globs d) v.

Definition getServlet (uri : string) (d : ServletDispatch) : option Servlet :=
  match m_datas d !! uri with Some slt => slt | None => None end.
Fixpoint find_glob (uri : string) (l : list (string * option Servlet)) : option Servlet :=
  match l with
  | [] => None
  | e :: l' => if decide (e.1 = uri) then e.2 else find_glob uri l'
  end.
Definition getGlobServlet (uri : string) (d : ServletDispatch) : option Servlet :=
  find_glob uri (m_globs d).

Fixpoint match_glob (uri : string) (l : list (string * option Servlet)) (def : option Servlet) :
    option Servlet :=
  match l with
  | [] => def
  | e :: l' =>
      if fnmatch (c_str e.1) (c_str uri) =? 0 then e.2 else match_glob uri l' def
  end.
Definition getMatchedServlet (uri : string) (d : ServletDispatch) : option Servlet :=
  match m_datas d !! uri with
  | Some slt => slt
  | None => match_glob uri (m_globs d) (m_default d)
  end.

Definition RSP_BODY : string :=
  "<html><head><title>404 Not Found"
  ++ "</title></head><body><h1>Not Found</h1><p>The requested URL /404/ was not found on this server.</p>"
  ++ "<hr><address>myhttp/1.0,0 Port 80</address></body></html>".

Definition not_found (rsp : HttpResponse) : HttpResponse :=
  rsp_setBody (rsp_setHeader (rsp_setHeader (rsp_setStatus rsp status_NOT_FOUND)
    "Server" "myhttp/1.0.0") "Content-Type" "text/html") RSP_BODY.

(** The virtual [handle]; an empty [std::function] throws [bad_function_call]. *)
Definition Servlet_handle (slt : Servlet) (req : HttpRequest) (rsp : HttpResponse) (ss : Sess) :
    res (Z * HttpRequest * HttpResponse * Sess) :=
  match slt with
  | FunctionServlet None => Bad EmptyFunction
  | FunctionServlet (Some h) | UserServlet h => Val (h req rsp ss)
  | NotFoundServlet _ => Val (0, req, not_found rsp, ss)
  end.

Definition ServletDispatch_handle (d : ServletDispatch) (req : HttpRequest)
    (rsp : HttpResponse) (ss : Sess) : res (Z * HttpRequest * HttpResponse * Sess) :=
  match getMatchedServlet (m_path req) d with
  | Some slt =>
      '(_, req', rsp', ss') ← Servlet_handle slt req rsp ss; mret (0, req', rsp', ss')
  | None => mret (0, req, rsp, ss)
  end.
End Servlet.
Arguments Servlet : clear implicits.
Arguments ServletDispatch : clear implicits.

(** ** Routing *)

Section Proofs.
Context {Sess : Type} (fnmatch : string -> string -> Z).
Implicit Types (d : ServletDispatch Sess) (slt : option (Servlet Sess)).
Local Abbreviation globs := (list (string * option (Servlet Sess))).

(** The calls that change the routes. *)
Inductive route_op :=
  | Add (uri : string) (slt : option (Servlet Sess))
  | AddGlob (uri : string) (slt : option (Servlet Sess))
  | Del (uri : string)
  | DelGlob (uri : string)
  | SetDefault (slt : option (Servlet Sess)).

Definition apply_op d (op : route_op) : ServletDispatch Sess :=
  match op with
  | Add uri slt => addServlet uri slt d
  | AddGlob uri slt => addGlobServlet uri slt d
  | Del uri => delServlet uri d
  | DelGlob uri => delGolbServlet uri d
  | SetDefault slt => setDefault slt d
  end.

(** *** Specification: a function of the history, not of the tables. *)

(** The last exact registration of [uri]: [None] when there is none or it was
  deleted. *)
Definition exact_step (uri : string) (o : option (option (Servlet Sess))) (op : route_op) :
    option (option (Servlet Sess)) :=
  match op with
  | Add u slt => if decide (u = uri) then Some slt else o
  | Del u => if decide (u = uri) then None else o
  | _ => o
  end.
Definition exact_route (ops : list route_op) (uri : string) := foldl (exact_step uri) None ops.

Definition about_glob (uri : string) (op : route_op) : bool :=
  match op with AddGlob u _ | DelGlob u => bool_decide (u = uri) | _ => false end.
(** The glob registrations that no later call is about, in order. *)
Fixpoint live_globs (ops : list route_op) : globs :=
  match ops with
  | [] => []
  | AddGlob u slt :: rest =>
      if existsb (about_glob u) rest then live_globs rest else (u, slt) :: live_globs rest
  | _ :: rest => live_globs rest
  end.
Definition default_route (ops : list route_op) : option (Servlet Sess) :=
  foldl (fun o op => match op with SetDefault slt => slt | _ => o end)
    (Some (NotFoundServlet "myhttp")) ops.

Definition route (ops : list route_op) (uri : string) : option (Servlet Sess) :=
  match exact_route ops uri with
  | Some slt => slt
  | None =>
      match list_find (fun e => fnmatch (c_str e.1) (c_str uri) = 0) (live_globs ops) with
      | Some (_, e) => e.2
      | None => default_route ops
      end
  end.

(** *** Refinement *)

Definition without_glob (uri : string) (l : globs) : globs := filter (fun e => e.1 <> uri) l.

Lemma live_globs_snoc ops op :
  live_globs (ops ++ [op])%list =
    match op with
    | AddGlob u slt => without_glob u (live_globs ops) ++ [(u, slt)]
    | DelGlob u => without_glob u (live_globs ops)
    | _ => live_globs ops
    end%list.
Proof.
  induction ops as [|o ops IH]; [by destruct op|].
  assert (Hex : forall u, existsb (about_glob u) (ops ++ [op])%list =
    existsb (about_glob u) ops || about_glob u op).
  { intros u. rewrite existsb_app. simpl. by rewrite orb_false_r. }
  destruct o as [u slt|u slt|u|u|slt]; simpl; rewrite ?IH; try done.
  rewrite Hex. destruct (existsb (about_glob u) ops); simpl; [done|].
  destruct op as [u' slt'|u' slt'|u'|u'|slt']; simpl; try done;
    (case_bool_decide as E; unfold without_glob;
      [subst; by rewrite list.filter_cons_False by (simpl; naive_solver)
      |by rewrite list.filter_cons_True by (simpl; naive_solver)]).
Qed.

Lemma without_glob_nodup uri (l : globs) : NoDup l.*1 -> NoDup (without_glob uri l).*1.
Proof.
  unfold without_glob. induction l as [|e l IH]; [done|]. intros [Hn Hnd]%list.NoDup_cons.
  destruct (decide (e.1 <> uri)) as [Hne|Hne].
  - rewrite list.filter_cons_True by done. rewrite fmap_cons. constructor; [|by apply IH].
    intros (x & Hx & [_ Hin]%list_elem_of_filter)%list_elem_of_fmap. apply Hn.
    rewrite Hx. by apply list_elem_of_fmap_2.
  - rewrite list.filter_cons_False by done. by apply IH.
Qed.

Lemma without_glob_id uri (l : globs) : uri ∉ l.*1 -> without_glob uri l = l.
Proof.
  unfold without_glob. induction l as [|e l IH]; [done|]. rewrite fmap_cons.
  intros [Hne Hn]%not_elem_of_cons. rewrite list.filter_cons_True by auto. f_equal. by apply IH.
Qed.

Lemma live_globs_nodup ops : NoDup (live_globs ops).*1.
Proof.
  induction ops as [|op ops IH] using rev_ind; [constructor|]. rewrite live_globs_snoc.
  pose proof (fun u => without_glob_nodup u _ IH) as Hf.
  destruct op as [u slt|u slt|u|u|slt]; auto.
  rewrite fmap_app. apply list.NoDup_app. split; [done|]. split.
  - intros x Hx Hx'. apply list_elem_of_singleton in Hx' as ->.
    apply list_elem_of_fmap in Hx as ([u' s'] & Hu & Hin).
    apply list_elem_of_filter in Hin as [Hne _]. by simpl in *.
  - apply NoDup_singleton.
Qed.

Lemma erase_glob_filter uri (l : globs) : NoDup l.*1 -> erase_glob uri l = without_glob uri l.
Proof.
  induction l as [|e l IH]; [done|]. intros [Hn Hnd]%list.NoDup_cons. simpl.
  unfold without_glob. destruct (decide (e.1 = uri)) as [<-|].
  - rewrite list.filter_cons_False by auto. symmetry. by apply without_glob_id.
  - rewrite list.filter_cons_True by auto. f_equal. by apply IH.
Qed.

Lemma match_glob_find uri (l : globs) def :
  match_glob fnmatch uri l def =
    match list_find (fun e => fnmatch (c_str e.1) (c_str uri) = 0) l with
    | Some (_, e) => e.2
    | None => def
    end.
Proof.
  induction l as [|e l IH]; simpl; [done|].
  destruct (Z.eqb_spec (fnmatch (c_str e.1) (c_str uri)) 0) as [E|E].
  - by rewrite decide_True.
  - rewrite decide_False by done. rewrite IH. by destruct (list_find _ l) as [[i e']|].
Qed.

(** The tables hold what the history says. *)
Lemma tables_of_history ops uri :
  let d := foldl apply_op ServletDispatch_new ops in
  m_datas d !! uri = exact_route ops uri /\ m_globs d = live_globs ops /\
  m_default d = default_route ops.
Proof.
  unfold exact_route, default_route.
  induction ops as [|op ops (IHe & IHg & IHd)] using rev_ind; simpl in *.
  { by rewrite lookup_empty. }
  rewrite !foldl_app, live_globs_snoc. simpl. pose proof (live_globs_nodup ops) as Hnd.
  destruct op as [u slt|u slt|u|u|slt]; simpl; rewrite ?IHg, ?IHd;
    rewrite ?erase_glob_filter by done; (split; [|done]); try done.
  - case_decide as E; [by rewrite E, lookup_insert_eq|by rewrite lookup_insert_ne].
  - case_decide as E; [by rewrite E, lookup_delete_eq|by rewrite lookup_delete_ne].
Qed.

(** C38: routing refines its specification. After any registrations and
  deletions, the servlet chosen for a path is the last one registered for exactly
  that path; else that of the first glob, in the order of their last
  registrations, that matches; else the last default. Where this is the initial
  default, [handle] answers 0 and turns the response into the 404 page, keeping
  its version and its connection mode. *)
Theorem routing ops uri :
  let d := foldl apply_op ServletDispatch_new ops in
  getMatchedServlet fnmatch uri d = route ops uri /\
  getServlet uri d = default None (exact_route ops uri) /\
  (forall req rsp ss, m_path req = uri -> route ops uri = Some (NotFoundServlet "myhttp") ->
     exists rsp', ServletDispatch_handle fnmatch d req rsp ss = Val (0, req, rsp', ss) /\
       r_status rsp' = 404 /\ r_body rsp' = RSP_BODY /\
       r_version rsp' = r_version rsp /\ r_close rsp' = r_close rsp /\
       (ordered CaseInsensitiLess fst (r_headers rsp) ->
          rsp_getHead rsp' "content-type" "" = "text/html")).
Proof.
  intros d. destruct (tables_of_history ops uri) as (He & Hg & Hd). fold d in He, Hg, Hd.
  assert (Hm : getMatchedServlet fnmatch uri d = route ops uri).
  { unfold getMatchedServlet, route. rewrite He, Hg, Hd, match_glob_find. done. }
  split; [done|]. split; [unfold getServlet; rewrite He; by destruct (exact_route ops uri)|].
  intros req rsp ss Hp Hr. unfold ServletDispatch_handle. rewrite Hp, Hm, Hr. simpl.
  eexists. split; [done|]. repeat (split; [done|]). intros Ho.
  unfold rsp_getHead, not_found. simpl. rewrite map_get_value.
  rewrite value_assign_fold by (by apply (map_assign_ordered CaseInsensitiLess)).
  by rewrite decide_True.
Qed.
End Proofs.

(** A dispatcher with an exact route, two globs and an unrouted path. *)
Definition hello : handler :=
  fun req rsp (ss : unit) => (0, req, rsp_setBody rsp "hello", ss).
Definition demo_match (pattern uri : string) : Z :=
  if decide (pattern = "/api/*" \/ pattern = uri) then 0 else 1.
Definition demo_routes : list route_op :=
  [AddGlob "/api/*" (Some (UserServlet hello)); Add "/" (Some (FunctionServlet (Some hello)));
   AddGlob "/x" None; DelGlob "/api/*"].

Lemma routing_witness :
  route demo_match demo_routes "/" = Some (FunctionServlet (Some hello)) /\
  route demo_match demo_routes "/api/1" = Some (NotFoundServlet "myhttp") /\
  getMatchedServlet demo_match "/api/1"
    (foldl apply_op ServletDispatch_new demo_routes) = Some (NotFoundServlet "myhttp").
Proof.
  split; [reflexivity|]. split; [reflexivity|].
  exact (proj1 (routing demo_match demo_routes "/api/1")).
Defined.
