(* ===== verification/Dfa.v ===== *)
(** * Generated state machines

    What the three machines ragel generates share: a transition is a list of
    actions and the state the code continues in; [run] is the loop of the goto
    code, which takes one character per state until the buffer ends
    ([++p == pe]), the error state 0 is reached ([goto st0], [p] stays on the
    character) or an action breaks ([p++; cs = n; goto _out]). The lemmas compose
    runs and cross a class of characters that a state maps to itself. *)
From stdpp Require Import base tactics option list strings numbers.
From S2P Require Import Prelude CString.

Open Scope Z_scope.

(** A label trN: its actions, the label stN it goes to, and whether the last action
    ends with [goto _out]. *)
Record transition (A : Type) := Trans { acts : list A; target : Z; brk : bool }.
Arguments Trans {A} acts target brk.
Arguments acts {A} t.
Arguments target {A} t.
Arguments brk {A} t.

#[export] Instance transition_eq_dec A `{EqDecision A} : EqDecision (transition A).
Proof. solve_decision. Defined.

(** [goto stN] *)
Definition st {A} (n : Z) : transition A := Trans [] n false.
Definition tr {A} (l : list A) (n : Z) : transition A := Trans l n false.
Definition tr_break {A} (l : list A) (n : Z) : transition A := Trans l n true.

(** [switch(x) { case k: goto v; ... }], then the code that follows it. *)
Fixpoint switch {B} (x : Z) (cases : list (Z * B)) (rest : B) : B :=
  match cases with
  | [] => rest
  | (k, v) :: cases' => if x =? k then v else switch x cases' rest
  end.

(** [*p] where [char] is signed. *)
Definition schar (c : Ascii.ascii) : Z := if code c <? 128 then code c else code c - 256.

(** ** Running a machine

    [dispatch] is the switch on the state, [fall] the state of the first _test_eof
    label, where a state without a case ends up; [act a p s] executes the action
    [a] with [p - buffer = p]. *)
Section Run.
Context {A S : Type}.
Context (dispatch : Z -> Z -> option (transition A)) (fall : Z).
Context (act : A -> Z -> S -> res S).

Fixpoint do_acts (l : list A) (p : Z) (s : S) : res S :=
  match l with
  | [] => Val s
  | a :: l => s ← act a p s; do_acts l p s
  end.

(** The state [cs], the position and the data when the loop is left. *)
Fixpoint run (cs p : Z) (rest : string) (s : S) : res (Z * Z * S) :=
  match rest with
  | EmptyString => Val (cs, p, s)
  | String c rest =>
      match dispatch cs (schar c) with
      | None => Val (fall, p, s)
      | Some t =>
          s ← do_acts (acts t) p s;
          if brk t then Val (target t, p + 1, s)
          else if target t =? 0 then Val (0, p, s)
          else run (target t) (p + 1) rest s
      end
  end.

(** The control of the machine alone: the state, the position, and whether the loop
  was left before the end of the buffer. *)
Fixpoint control (cs p : Z) (rest : string) : Z * Z * bool :=
  match rest with
  | EmptyString => (cs, p, false)
  | String c rest =>
      match dispatch cs (schar c) with
      | None => (fall, p, true)
      | Some t =>
          if brk t then (target t, p + 1, true)
          else if target t =? 0 then (0, p, true)
          else control (target t) (p + 1) rest
      end
  end.

(** The characters the machine gets past. *)
Fixpoint passed (cs : Z) (rest : string) : string :=
  match rest with
  | EmptyString => EmptyString
  | String c rest =>
      match dispatch cs (schar c) with
      | None => EmptyString
      | Some t =>
          if brk t then String c EmptyString
          else if target t =? 0 then EmptyString
          else String c (passed (target t) rest)
      end
  end.

(** The run over [str] from [q] at position [p] ends in [q'] with the data [s'], and
  goes on from there. *)
Definition moves (q p : Z) (s : S) (str : string) (q' : Z) (s' : S) : Prop :=
  forall rest, run q p (str ++ rest)%string s =
    run q' (p + Z.of_nat (String.length str)) rest s'.

Lemma moves_nil q p s : moves q p s "" q s.
Proof. intros rest. simpl. by rewrite Z.add_0_r. Qed.

Lemma moves_app q p s u q1 s1 v q2 s2 :
  moves q p s u q1 s1 -> moves q1 (p + Z.of_nat (String.length u)) s1 v q2 s2 ->
  moves q p s (u ++ v)%string q2 s2.
Proof.
  intros H1 H2 rest. rewrite string_app_assoc, H1, H2. f_equal.
  rewrite string_length_app. lia.
Qed.

(** The same with positions that are lengths of what was read. *)
Lemma moves_seq q pre s u q1 s1 v q2 s2 :
  moves q (Z.of_nat (String.length pre)) s u q1 s1 ->
  moves q1 (Z.of_nat (String.length (pre ++ u)%string)) s1 v q2 s2 ->
  moves q (Z.of_nat (String.length pre)) s (u ++ v)%string q2 s2.
Proof.
  rewrite string_length_app, Nat2Z.inj_add. apply moves_app.
Qed.

Lemma moves_step q p s c t s' :
  dispatch q (schar c) = Some t -> brk t = false -> target t <> 0 ->
  do_acts (acts t) p s = Val s' -> moves q p s (String c "") (target t) s'.
Proof.
  intros Hd Hb Ht Ha rest. simpl. rewrite Hd, Ha. cbn [mbind res_bind].
  by rewrite Hb, (proj2 (Z.eqb_neq _ _) Ht).
Qed.

Lemma moves_cons q p s c t s' str q' s2 :
  dispatch q (schar c) = Some t -> brk t = false -> target t <> 0 ->
  do_acts (acts t) p s = Val s' -> moves (target t) (p + 1) s' str q' s2 ->
  moves q p s (String c str) q' s2.
Proof.
  intros Hd Hb Ht Ha Hm. change (String c str) with (String c "" ++ str)%string.
  eapply moves_app; [by apply moves_step|done].
Qed.

Lemma run_break q p s c t rest :
  dispatch q (schar c) = Some t -> brk t = true ->
  run q p (String c rest) s = s ← do_acts (acts t) p s; Val (target t, p + 1, s).
Proof. intros Hd Hb. simpl. by rewrite Hd, Hb. Qed.

(** A class of characters on which [q] stays, without actions. *)
Lemma moves_class (cls : Ascii.ascii -> bool) q p s str :
  (forall c, cls c = true -> dispatch q (schar c) = Some (st q)) -> q <> 0 ->
  chars cls str = true -> moves q p s str q s.
Proof.
  intros Hq H0. revert p. induction str as [|c str IH]; intros p Hc; [apply moves_nil|].
  simpl in Hc. apply andb_true_iff in Hc as [Hc Hs].
  eapply (moves_cons _ _ _ _ (st q)); try done; [by apply Hq|]. by apply IH.
Qed.

(** What actions that cannot fail do to the control: nothing. *)
Lemma run_control cs p rest s cs' p' s' :
  run cs p rest s = Val (cs', p', s') -> (control cs p rest).1 = (cs', p').
Proof.
  revert cs p s. induction rest as [|c rest IH]; intros cs p s; simpl; [by intros [= -> -> ->]|].
  destruct (dispatch cs (schar c)) as [t|]; [|by intros [= -> -> ->]].
  destruct (do_acts _ _ _) as [s1| |]; try done. cbn [mbind res_bind].
  destruct (brk t); [by intros [= -> -> ->]|]. destruct (target t =? 0); [by intros [= -> -> ->]|].
  apply IH.
Qed.

Lemma control_app cs p u v :
  control cs p (u ++ v)%string =
    (let '(q, p', stop) := control cs p u in if stop then (q, p', true) else control q p' v).
Proof.
  revert cs p. induction u as [|c u IH]; intros cs p; simpl; [done|].
  destruct (dispatch cs (schar c)) as [t|]; [|done].
  destruct (brk t); [done|]. destruct (target t =? 0); [done|]. apply IH.
Qed.

Lemma control_bounds cs p rest :
  p <= (control cs p rest).1.2 <= p + Z.of_nat (String.length rest) /\
  ((control cs p rest).2 = false -> (control cs p rest).1.2 = p + Z.of_nat (String.length rest)).
Proof.
  revert cs p. induction rest as [|c rest IH]; intros cs p; simpl; [lia|].
  destruct (dispatch cs (schar c)) as [t|]; [|simpl; split; [lia|done]].
  destruct (brk t); [simpl; split; [lia|done]|].
  destruct (target t =? 0); [simpl; split; [lia|done]|].
  destruct (IH (target t) (p + 1)) as [Hb He]. split; [lia|].
  intros Hw. rewrite (He Hw). lia.
Qed.
End Run.

(** ** Facts about every character, by computation *)

Definition bytes : list Ascii.ascii := Ascii.ascii_of_nat <$> seq 0 256.

Lemma bytes_all c : c ∈ bytes.
Proof.
  unfold bytes. rewrite <- (Ascii.ascii_nat_embedding c). apply list_elem_of_fmap_2, elem_of_seq.
  pose proof (Ascii.nat_ascii_bounded c). lia.
Qed.

Lemma forall_chars (P : Ascii.ascii -> bool) : forallb P bytes = true -> forall c, P c = true.
Proof.
  intros H c. rewrite forallb_forall in H. apply H, list_elem_of_In, bytes_all.
Qed.

(** [on_class cls f t]: on the class [cls], the state [f] takes the transition [t]. *)
Definition on_class {A} `{EqDecision A} (cls : Ascii.ascii -> bool)
    (f : Z -> option (transition A)) (t : transition A) : bool :=
  forallb (fun c => implb (cls c) (bool_decide (f (schar c) = Some t))) bytes.

Lemma on_class_spec {A} `{EqDecision A} cls (f : Z -> option (transition A)) t c :
  on_class cls f t = true -> cls c = true -> f (schar c) = Some t.
Proof.
  intros H Hc. pose proof (forall_chars _ H c) as Hi. simpl in Hi. rewrite Hc in Hi.
  by apply bool_decide_eq_true in Hi.
Qed.

Lemma chars_impl (P Q : Ascii.ascii -> bool) s :
  forallb (fun c => implb (P c) (Q c)) bytes = true -> chars P s = true -> chars Q s = true.
Proof.
  intros H. induction s as [|c s IH]; simpl; [done|]. intros [Hc Hs]%andb_true_iff.
  pose proof (forall_chars _ H c) as Hi. simpl in Hi. rewrite Hc in Hi. rewrite IH by done.
  by rewrite andb_true_r.
Qed.

Lemma forall_range (P : Z -> bool) lo n i :
  forallb P (seqZ lo n) = true -> lo <= i < lo + n -> P i = true.
Proof. intros H Hi. rewrite forallb_forall in H. by apply H, list_elem_of_In, elem_of_seqZ. Qed.

Definition within (ranges : list (Z * Z)) (q : Z) : bool :=
  existsb (fun r => (r.1 <=? q) && (q <=? r.2)) ranges.

(** A decidable property of every state, character and flag. *)
Definition table (P : Z -> Ascii.ascii -> bool) (states : list Z) : bool :=
  forallb (fun q => forallb (P q) bytes) states.

Lemma table_spec P states q c : table P states = true -> q ∈ states -> P q c = true.
Proof.
  intros H Hq. unfold table in H. rewrite forallb_forall in H.
  apply forall_chars, H. by apply list_elem_of_In.
Qed.

(** Two interpretations of the actions that agree on those of a closed set of states. *)
Lemma run_agree {A S} (dispatch : Z -> Z -> option (transition A)) fall
    (act1 act2 : A -> Z -> S -> res S) (P : A -> bool) (Q : list Z) :
  (forall a p s, P a = true -> act1 a p s = act2 a p s) ->
  table (fun q c => match dispatch q (schar c) with
    | Some t => forallb P (acts t) && (brk t || (target t =? 0) || bool_decide (target t ∈ Q))
    | None => true end) Q = true ->
  forall rest q p s, q ∈ Q ->
  run dispatch fall act1 q p rest s = run dispatch fall act2 q p rest s.
Proof.
  intros Hact HQ. induction rest as [|c rest IH]; intros q p s Hq; [done|]. cbn [run].
  pose proof (table_spec _ _ _ c HQ Hq) as H. cbv beta in H.
  destruct (dispatch q (schar c)) as [t|]; [|done]. apply andb_true_iff in H as [Hp Ht].
  assert (E : do_acts act1 (acts t) p s = do_acts act2 (acts t) p s).
  { clear -Hact Hp. revert s. induction (acts t) as [|a l IHl]; intros s; [done|].
    cbn [do_acts forallb] in *. apply andb_true_iff in Hp as [Ha Hl]. rewrite Hact by done.
    destruct (act2 a p s); [by apply IHl|done..]. }
  rewrite E. destruct (do_acts act2 (acts t) p s) as [s'| |]; [|done..]. cbn [mbind res_bind].
  destruct (brk t); [done|]. destruct (target t =? 0); [done|]. apply IH. by apply bool_decide_eq_true in Ht.
Qed.

(** ** Classes of characters *)

Definition between (a b : Z) (c : Ascii.ascii) : bool := (a <=? code c) && (code c <=? b).
Definition one_of (s : string) (c : Ascii.ascii) : bool :=
  existsb (Ascii.eqb c) (String.list_ascii_of_string s).

Definition digit : Ascii.ascii -> bool := between 48 57.
Definition alpha (c : Ascii.ascii) : bool := between 65 90 c || between 97 122 c.
Definition xdigit (c : Ascii.ascii) : bool := digit c || between 65 70 c || between 97 102 c.
Definition unreserved (c : Ascii.ascii) : bool := alpha c || digit c || one_of "-._~" c.
Definition sub_delims : Ascii.ascii -> bool := one_of "!$&'()*+,;=".
Definition pchar (c : Ascii.ascii) : bool := unreserved c || sub_delims c || one_of ":@" c.

Definition percent : Ascii.ascii := Ascii.ascii_of_nat 37.

(** Strings over [cls] and percent-encoded characters, of any length. *)
Fixpoint pct_string (cls : Ascii.ascii -> bool) (s : string) : bool :=
  match s with
  | EmptyString => true
  | String c s =>
      if Ascii.eqb c percent then
        match s with
        | String a (String b s) => xdigit a && xdigit b && pct_string cls s
        | _ => false
        end
      else cls c && pct_string cls s
  end.

(** The first character, if any, is in [cls] or a percent sign. *)
Definition starts (cls : Ascii.ascii -> bool) (s : string) : bool :=
  match s with EmptyString => true | String c _ => Ascii.eqb c percent || cls c end.

Lemma pct_starts cls s : pct_string cls s = true -> starts cls s = true.
Proof.
  destruct s as [|c s]; [done|]. cbn [pct_string starts].
  destruct (Ascii.eqb c percent); [done|]. by intros [-> _]%andb_true_iff.
Qed.

(** ** Sets of states

    A token that is part of several alternatives (a host name that may still be a
    number, a header name that may still be a keyword) is read in many states: what
    matters is that all of them are in one set. *)
Section States.
Context {A S : Type} `{EqDecision A}.
Context (dispatch : Z -> Z -> option (transition A)) (fall : Z).
Context (act : A -> Z -> S -> res S).
Local Abbreviation moves := (moves dispatch fall act).

(** The transition performs [l] and leads into [Q]. *)
Definition goes (l : list A) (Q : list Z) (o : option (transition A)) : bool :=
  match o with
  | Some t => bool_decide (t = tr l (target t)) && existsb (Z.eqb (target t)) Q
              && negb (target t =? 0)
  | None => false
  end.

Definition class_goes (cls : Ascii.ascii -> bool) (q : Z) (l : list A) (Q : list Z) : bool :=
  forallb (fun c => implb (cls c) (goes l Q (dispatch q (schar c)))) bytes.

(** [Q] is closed under [cls] and percent-encoded characters, whose digits are read
  in [a] and [b]. *)
Definition closed (cls : Ascii.ascii -> bool) (Q : list Z) (a b : Z) : bool :=
  forallb (fun q => class_goes cls q [] Q && goes [] [a] (dispatch q 37)) Q
  && class_goes xdigit a [] [b] && class_goes xdigit b [] Q.

(** From [q0], [cls] and a percent sign lead into [Q], with the actions [l]. *)
Definition enters (cls : Ascii.ascii -> bool) (q0 : Z) (l : list A) (Q : list Z) (a : Z) : bool :=
  class_goes cls q0 l Q && goes l [a] (dispatch q0 37).

Lemma goes_moves q c l Q p s s' :
  goes l Q (dispatch q (schar c)) = true -> do_acts act l p s = Val s' ->
  exists q', q' ∈ Q /\ moves q p s (String c "") q' s'.
Proof.
  unfold goes. destruct (dispatch q (schar c)) as [t|] eqn:Hd; [|done].
  intros [[Ht Hin]%andb_true_iff H0]%andb_true_iff Ha. apply bool_decide_eq_true in Ht.
  exists (target t). split.
  - rewrite existsb_exists in Hin. destruct Hin as (x & Hx & ->%Z.eqb_eq).
    by apply list_elem_of_In.
  - apply negb_true_iff, Z.eqb_neq in H0. eapply moves_step; try done; by rewrite Ht.
Qed.

Lemma class_goes_moves cls q c l Q p s s' :
  class_goes cls q l Q = true -> cls c = true -> do_acts act l p s = Val s' ->
  exists q', q' ∈ Q /\ moves q p s (String c "") q' s'.
Proof.
  intros H Hc. apply goes_moves. pose proof (forall_chars _ H c) as Hi. cbv beta in Hi.
  by rewrite Hc in Hi.
Qed.

(** [Q] is closed under [cls]. *)
Lemma moves_class_in cls Q q p s str :
  forallb (fun q => class_goes cls q [] Q) Q = true -> q ∈ Q -> chars cls str = true ->
  exists q', q' ∈ Q /\ moves q p s str q' s.
Proof.
  intros HQ. revert q p. induction str as [|c str IH]; intros q p Hq Hs.
  { exists q. split; [done|apply moves_nil]. }
  simpl in Hs. apply andb_true_iff in Hs as [Hc Hs].
  assert (Hg : class_goes cls q [] Q = true)
    by (rewrite forallb_forall in HQ; by apply HQ, list_elem_of_In).
  destruct (class_goes_moves cls q c [] Q p s s Hg Hc eq_refl) as (q1 & Hq1 & M1).
  destruct (IH q1 (p + 1) Hq1 Hs) as (q' & Hq' & M2).
  exists q'. split; [done|]. change (String c str) with (String c "" ++ str)%string.
  by eapply moves_app.
Qed.

Context (cls : Ascii.ascii -> bool) (Q : list Z) (a b : Z) (Hclosed : closed cls Q a b = true).

Lemma moves_hex p s c d :
  xdigit c = true -> xdigit d = true ->
  exists q, q ∈ Q /\ moves a p s (String c (String d "")) q s.
Proof.
  intros Hc Hd. apply andb_true_iff in Hclosed as [[_ Ha]%andb_true_iff Hb].
  destruct (class_goes_moves _ _ c _ _ p s s Ha Hc eq_refl) as (q1 & ->%list_elem_of_singleton & M1).
  destruct (class_goes_moves _ _ d _ _ (p + 1) s s Hb Hd eq_refl) as (q & Hq & M2).
  exists q. split; [done|]. change (String c (String d "")) with (String c "" ++ String d "")%string.
  by eapply moves_app.
Qed.

Lemma moves_closed q p s str :
  q ∈ Q -> pct_string cls str = true -> exists q', q' ∈ Q /\ moves q p s str q' s.
Proof.
  revert q p. induction str as [str IH] using (induction_ltof1 _ String.length). unfold ltof in IH.
  intros q p Hq Hs. destruct str as [|c str]; [exists q; split; [done|apply moves_nil]|].
  assert (Hstep : class_goes cls q [] Q = true /\ goes [] [a] (dispatch q 37) = true).
  { pose proof Hclosed as [[Hall _]%andb_true_iff _]%andb_true_iff. rewrite forallb_forall in Hall.
    by apply andb_true_iff, Hall, list_elem_of_In. }
  destruct Hstep as [Hcls Hpct]. cbn [pct_string] in Hs.
  destruct (Ascii.eqb_spec c percent) as [->|Hc].
  - destruct str as [|d [|e str]]; try done.
    apply andb_true_iff in Hs as [[Hd He]%andb_true_iff Hs].
    destruct (goes_moves q percent [] [a] p s s Hpct eq_refl)
      as (q1 & ->%list_elem_of_singleton & M1).
    destruct (moves_hex (p + 1) s d e Hd He) as (q2 & Hq2 & M2).
    destruct (IH str ltac:(simpl; lia) q2 (p + 1 + 2) Hq2 Hs) as (q' & Hq' & M3).
    exists q'. split; [done|].
    change (String percent (String d (String e str)))
      with (String percent "" ++ String d (String e "") ++ str)%string.
    eapply moves_app; [exact M1|]. eapply moves_app; [exact M2|]. exact M3.
  - apply andb_true_iff in Hs as [Hcc Hs].
    destruct (class_goes_moves cls q c [] Q p s s Hcls Hcc eq_refl) as (q1 & Hq1 & M1).
    destruct (IH str ltac:(simpl; lia) q1 (p + 1) Hq1 Hs) as (q' & Hq' & M2).
    exists q'. split; [done|]. change (String c str) with (String c "" ++ str)%string.
    by eapply moves_app.
Qed.

Lemma moves_enter cls0 q0 l p s s' str :
  enters cls0 q0 l Q a = true -> do_acts act l p s = Val s' -> str <> ""%string ->
  starts cls0 str = true -> pct_string cls str = true ->
  exists q', q' ∈ Q /\ moves q0 p s str q' s'.
Proof.
  intros [Hcls Hpct]%andb_true_iff Hl Hne Hst Hs. destruct str as [|c str]; [done|].
  cbn [pct_string starts] in *. destruct (Ascii.eqb_spec c percent) as [->|Hc].
  - destruct str as [|d [|e str]]; try done.
    apply andb_true_iff in Hs as [[Hd He]%andb_true_iff Hs].
    destruct (goes_moves q0 percent l [a] p s s' Hpct Hl) as (q1 & ->%list_elem_of_singleton & M1).
    destruct (moves_hex (p + 1) s' d e Hd He) as (q2 & Hq2 & M2).
    destruct (moves_closed q2 (p + 1 + 2) s' str Hq2 Hs) as (q' & Hq' & M3).
    exists q'. split; [done|].
    change (String percent (String d (String e str)))
      with (String percent "" ++ String d (String e "") ++ str)%string.
    eapply moves_app; [exact M1|]. eapply moves_app; [exact M2|]. exact M3.
  - apply andb_true_iff in Hs as [Hcc Hs].
    destruct (class_goes_moves cls0 q0 c l Q p s s' Hcls Hst Hl) as (q1 & Hq1 & M1).
    destruct (moves_closed q1 (p + 1) s' str Hq1 Hs) as (q' & Hq' & M2).
    exists q'. split; [done|]. change (String c str) with (String c "" ++ str)%string.
    by eapply moves_app.
Qed.
End States.

(** A set of one state. *)
Section State.
Context {A S : Type} `{EqDecision A}.
Context (dispatch : Z -> Z -> option (transition A)) (fall : Z).
Context (act : A -> Z -> S -> res S).
Context (cls : Ascii.ascii -> bool) (q a b : Z) (Hclosed : closed dispatch cls [q] a b = true).
Local Abbreviation moves := (moves dispatch fall act).

Lemma moves_pct p s str : pct_string cls str = true -> moves q p s str q s.
Proof.
  intros Hs. destruct (moves_closed dispatch fall act cls [q] a b Hclosed q p s str)
    as (q' & ->%list_elem_of_singleton & M); [by apply list_elem_of_singleton|done|done].
Qed.

Lemma moves_pct_entry cls0 q0 l p s s' str :
  enters dispatch cls0 q0 l [q] a = true -> do_acts act l p s = Val s' -> str <> ""%string ->
  starts cls0 str = true -> pct_string cls str = true -> moves q0 p s str q s'.
Proof.
  intros He Hl Hne Hst Hs.
  by destruct (moves_enter dispatch fall act cls [q] a b Hclosed cls0 q0 l p s s' str He Hl Hne Hst Hs)
    as (q' & ->%list_elem_of_singleton & M).
Qed.
End State.
