(* ===== verification/UriMachine.v ===== *)
(** * The state machine of the URI parser (uri.rl.cc)

    The goto code of [Uri::Create], label by label, as in Http11Machine.v, with
    the switch on the state at the end of the input in [eof_actions]. The actions,
    written in uri.rl, are named here and executed in UriParser.v. *)
From stdpp Require Import base tactics option list strings numbers.
From S2P Require Import Prelude Dfa.

Open Scope Z_scope.

Inductive action :=
  | Marku | Markh | SaveScheme | SavePort | SaveUserinfo | SaveHost | SavePath | SaveQuery
  | SaveFragment.
#[export] Instance action_eq_dec : EqDecision action.
Proof. solve_decision. Defined.

Definition uri_parser_start : Z := 451.
Definition uri_parser_first_final : Z := 451.
Definition uri_parser_error : Z := 0.

(** ** The transitions *)

Definition tr38 : transition action := tr [SaveUserinfo] 469.
Definition tr263 : transition action := tr [SaveUserinfo] 522.
Definition tr461 : transition action := tr [Marku] 508.
Definition tr462 : transition action := tr [Marku] 454.
Definition tr463 : transition action := tr [Marku] 1.
Definition tr466 : transition action := tr [Marku] 457.
Definition tr467 : transition action := tr [Marku; SaveQuery] 453.
Definition tr468 : transition action := tr [Marku] 7.
Definition tr469 : transition action := tr [SaveQuery] 453.
Definition tr472 : transition action := tr [Markh] 9.
Definition tr473 : transition action := tr [Markh] 467.
Definition tr474 : transition action := tr [Markh; SaveHost] 453.
Definition tr475 : transition action := tr [Markh] 31.
Definition tr476 : transition action := tr [Markh; SaveHost] 455.
Definition tr477 : transition action := tr [Markh] 490.
Definition tr478 : transition action := tr [Markh] 504.
Definition tr479 : transition action := tr [Markh] 506.
Definition tr480 : transition action := tr [Markh] 505.
Definition tr481 : transition action := tr [Markh; SaveHost] 468.
Definition tr482 : transition action := tr [Markh; SaveHost] 456.
Definition tr483 : transition action := tr [Markh; SaveUserinfo] 469.
Definition tr484 : transition action := tr [Markh] 38.
Definition tr485 : transition action := tr [SaveHost] 453.
Definition tr486 : transition action := tr [SaveHost] 455.
Definition tr487 : transition action := tr [SaveHost] 461.
Definition tr488 : transition action := tr [SaveHost] 456.
Definition tr489 : transition action := tr [Markh; SavePort] 453.
Definition tr490 : transition action := tr [Markh; SavePort] 455.
Definition tr491 : transition action := tr [Markh] 462.
Definition tr492 : transition action := tr [Markh; SavePort] 456.
Definition tr493 : transition action := tr [SavePort] 453.
Definition tr494 : transition action := tr [SavePort] 455.
Definition tr496 : transition action := tr [SavePort] 456.
Definition tr499 : transition action := tr [SaveHost] 468.
Definition tr500 : transition action := tr [Markh] 489.
Definition tr501 : transition action := tr [Markh] 470.
Definition tr502 : transition action := tr [Markh] 36.
Definition tr503 : transition action := tr [Markh] 471.
Definition tr504 : transition action := tr [Markh] 485.
Definition tr505 : transition action := tr [Markh] 487.
Definition tr506 : transition action := tr [Markh] 486.
Definition tr507 : transition action := tr [Markh; SaveHost] 461.
Definition tr543 : transition action := tr [SaveScheme] 509.
Definition tr546 : transition action := tr [Markh] 229.
Definition tr547 : transition action := tr [Markh] 520.
Definition tr548 : transition action := tr [Markh; SaveHost; SavePath] 453.
Definition tr549 : transition action := tr [Markh] 253.
Definition tr550 : transition action := tr [Markh; SaveHost] 513.
Definition tr551 : transition action := tr [Markh] 543.
Definition tr552 : transition action := tr [Markh] 557.
Definition tr553 : transition action := tr [Markh] 559.
Definition tr554 : transition action := tr [Markh] 558.
Definition tr555 : transition action := tr [Markh; SaveHost] 521.
Definition tr556 : transition action := tr [Markh; SaveHost; SavePath] 456.
Definition tr557 : transition action := tr [Markh; SaveUserinfo] 522.
Definition tr558 : transition action := tr [Markh] 260.
Definition tr559 : transition action := tr [SaveHost; Markh; SavePath] 453.
Definition tr560 : transition action := tr [SaveHost; Markh] 513.
Definition tr561 : transition action := tr [SaveHost] 514.
Definition tr562 : transition action := tr [SaveHost; Markh; SavePath] 456.
Definition tr563 : transition action := tr [SavePath] 453.
Definition tr565 : transition action := tr [SavePath] 456.
Definition tr566 : transition action := tr [Markh; SavePort; SavePath] 453.
Definition tr567 : transition action := tr [Markh; SavePort] 513.
Definition tr568 : transition action := tr [Markh] 515.
Definition tr569 : transition action := tr [Markh; SavePort; SavePath] 456.
Definition tr570 : transition action := tr [SavePort; Markh; SavePath] 453.
Definition tr571 : transition action := tr [SavePort; Markh] 513.
Definition tr573 : transition action := tr [SavePort; Markh; SavePath] 456.
Definition tr576 : transition action := tr [SaveHost] 521.
Definition tr577 : transition action := tr [Markh] 542.
Definition tr578 : transition action := tr [Markh] 523.
Definition tr579 : transition action := tr [Markh] 258.
Definition tr580 : transition action := tr [Markh] 524.
Definition tr581 : transition action := tr [Markh] 538.
Definition tr582 : transition action := tr [Markh] 540.
Definition tr583 : transition action := tr [Markh] 539.
Definition tr584 : transition action := tr [Markh; SaveHost] 514.

(** ** The states *)

Definition case_1 (c : Z) : transition action :=
  if c <? 65 then
    if (48 <=? c) && (c <=? 57) then st 2
    else st 0
  else if 70 <? c then
    if (97 <=? c) && (c <=? 102) then st 2
    else st 0
  else st 2.

Definition case_2 (c : Z) : transition action :=
  if c <? 65 then
    if (48 <=? c) && (c <=? 57) then st 454
    else st 0
  else if 70 <? c then
    if (97 <=? c) && (c <=? 102) then st 454
    else st 0
  else st 454.

Definition case_3 (c : Z) : transition action :=
  if c <? 65 then
    if (48 <=? c) && (c <=? 57) then st 4
    else st 0
  else if 70 <? c then
    if (97 <=? c) && (c <=? 102) then st 4
    else st 0
  else st 4.

Definition case_4 (c : Z) : transition action :=
  if c <? 65 then
    if (48 <=? c) && (c <=? 57) then st 452
    else st 0
  else if 70 <? c then
    if (97 <=? c) && (c <=? 102) then st 452
    else st 0
  else st 452.

Definition case_5 (c : Z) : transition action :=
  if c <? 65 then
    if (48 <=? c) && (c <=? 57) then st 6
    else st 0
  else if 70 <? c then
    if (97 <=? c) && (c <=? 102) then st 6
    else st 0
  else st 6.

Definition case_6 (c : Z) : transition action :=
  if c <? 65 then
    if (48 <=? c) && (c <=? 57) then st 455
    else st 0
  else if 70 <? c then
    if (97 <=? c) && (c <=? 102) then st 455
    else st 0
  else st 455.

Definition case_7 (c : Z) : transition action :=
  if c <? 65 then
    if (48 <=? c) && (c <=? 57) then st 8
    else st 0
  else if 70 <? c then
    if (97 <=? c) && (c <=? 102) then st 8
    else st 0
  else st 8.

Definition case_8 (c : Z) : transition action :=
  if c <? 65 then
    if (48 <=? c) && (c <=? 57) then st 457
    else st 0
  else if 70 <? c then
    if (97 <=? c) && (c <=? 102) then st 457
    else st 0
  else st 457.

Definition case_9 (c : Z) : transition action :=
  if (48 <=? c) && (c <=? 52) then st 10
  else st 0.

Definition case_10 (c : Z) : transition action :=
  if (48 <=? c) && (c <=? 57) then st 11
  else st 0.

Definition case_11 (c : Z) : transition action :=
  if c =? 46 then st 12
  else st 0.

Definition case_12 (c : Z) : transition action :=
  switch c [(2, st 13); (48, st 15); (49, st 27); (50, st 29)]
  (if (51 <=? c) && (c <=? 57) then st 28
  else st 0).

Definition case_13 (c : Z) : transition action :=
  if (48 <=? c) && (c <=? 52) then st 14
  else st 0.

Definition case_14 (c : Z) : transition action :=
  if (48 <=? c) && (c <=? 57) then st 15
  else st 0.

Definition case_15 (c : Z) : transition action :=
  if c =? 46 then st 16
  else st 0.

Definition case_16 (c : Z) : transition action :=
  switch c [(2, st 17); (48, st 19); (49, st 23); (50, st 25)]
  (if (51 <=? c) && (c <=? 57) then st 24
  else st 0).

Definition case_17 (c : Z) : transition action :=
  if (48 <=? c) && (c <=? 52) then st 18
  else st 0.

Definition case_18 (c : Z) : transition action :=
  if (48 <=? c) && (c <=? 57) then st 19
  else st 0.

Definition case_19 (c : Z) : transition action :=
  if c =? 46 then st 20
  else st 0.

Definition case_20 (c : Z) : transition action :=
  switch c [(2, st 21); (48, st 460); (49, st 463); (50, st 465)]
  (if (51 <=? c) && (c <=? 57) then st 464
  else st 0).

Definition case_21 (c : Z) : transition action :=
  if (48 <=? c) && (c <=? 52) then st 22
  else st 0.

Definition case_22 (c : Z) : transition action :=
  if (48 <=? c) && (c <=? 57) then st 460
  else st 0.

Definition case_23 (c : Z) : transition action :=
  if c =? 46 then st 20
  else if (48 <=? c) && (c <=? 57) then st 24
  else st 0.

Definition case_24 (c : Z) : transition action :=
  if c =? 46 then st 20
  else if (48 <=? c) && (c <=? 57) then st 19
  else st 0.

Definition case_25 (c : Z) : transition action :=
  switch c [(46, st 20); (53, st 26)]
  (if (48 <=? c) && (c <=? 57) then st 19
  else st 0).

Definition case_26 (c : Z) : transition action :=
  if c =? 46 then st 20
  else if (48 <=? c) && (c <=? 53) then st 19
  else st 0.

Definition case_27 (c : Z) : transition action :=
  if c =? 46 then st 16
  else if (48 <=? c) && (c <=? 57) then st 28
  else st 0.

Definition case_28 (c : Z) : transition action :=
  if c =? 46 then st 16
  else if (48 <=? c) && (c <=? 57) then st 15
  else st 0.

Definition case_29 (c : Z) : transition action :=
  switch c [(46, st 16); (53, st 30)]
  (if (48 <=? c) && (c <=? 57) then st 15
  else st 0).

Definition case_30 (c : Z) : transition action :=
  if c =? 46 then st 16
  else if (48 <=? c) && (c <=? 53) then st 15
  else st 0.

Definition case_31 (c : Z) : transition action :=
  if c <? 65 then
    if (48 <=? c) && (c <=? 57) then st 32
    else st 0
  else if 70 <? c then
    if (97 <=? c) && (c <=? 102) then st 32
    else st 0
  else st 32.

Definition case_32 (c : Z) : transition action :=
  if c <? 65 then
    if (48 <=? c) && (c <=? 57) then st 467
    else st 0
  else if 70 <? c then
    if (97 <=? c) && (c <=? 102) then st 467
    else st 0
  else st 467.

Definition case_33 (c : Z) : transition action :=
  switch c [(33, st 33); (37, st 34); (61, st 33); (64, tr38); (95, st 33); (126, st 33)]
  (if c <? 48 then
    if (36 <=? c) && (c <=? 46) then st 33
    else st 0
  else if 59 <? c then
    if 90 <? c then
      if (97 <=? c) && (c <=? 122) then st 33
      else st 0
    else if 65 <=? c then st 33
    else st 0
  else st 33).

Definition case_34 (c : Z) : transition action :=
  if c <? 65 then
    if (48 <=? c) && (c <=? 57) then st 35
    else st 0
  else if 70 <? c then
    if (97 <=? c) && (c <=? 102) then st 35
    else st 0
  else st 35.

Definition case_35 (c : Z) : transition action :=
  if c <? 65 then
    if (48 <=? c) && (c <=? 57) then st 33
    else st 0
  else if 70 <? c then
    if (97 <=? c) && (c <=? 102) then st 33
    else st 0
  else st 33.

Definition case_36 (c : Z) : transition action :=
  if c <? 65 then
    if (48 <=? c) && (c <=? 57) then st 37
    else st 0
  else if 70 <? c then
    if (97 <=? c) && (c <=? 102) then st 37
    else st 0
  else st 37.

Definition case_37 (c : Z) : transition action :=
  if c <? 65 then
    if (48 <=? c) && (c <=? 57) then st 470
    else st 0
  else if 70 <? c then
    if (97 <=? c) && (c <=? 102) then st 470
    else st 0
  else st 470.

Definition case_38 (c : Z) : transition action :=
  switch c [(58, st 146); (118, st 225)]
  (if c <? 65 then
    if (48 <=? c) && (c <=? 57) then st 39
    else st 0
  else if 70 <? c then
    if (97 <=? c) && (c <=? 102) then st 39
    else st 0
  else st 39).

Definition case_39 (c : Z) : transition action :=
  if c =? 58 then st 43
  else if c <? 65 then
    if (48 <=? c) && (c <=? 57) then st 40
    else st 0
  else if 70 <? c then
    if (97 <=? c) && (c <=? 102) then st 40
    else st 0
  else st 40.

Definition case_40 (c : Z) : transition action :=
  if c =? 58 then st 43
  else if c <? 65 then
    if (48 <=? c) && (c <=? 57) then st 41
    else st 0
  else if 70 <? c then
    if (97 <=? c) && (c <=? 102) then st 41
    else st 0
  else st 41.

Definition case_41 (c : Z) : transition action :=
  if c =? 58 then st 43
  else if c <? 65 then
    if (48 <=? c) && (c <=? 57) then st 42
    else st 0
  else if 70 <? c then
    if (97 <=? c) && (c <=? 102) then st 42
    else st 0
  else st 42.

Definition case_42 (c : Z) : transition action :=
  if c =? 58 then st 43
  else st 0.

Definition case_43 (c : Z) : transition action :=
  if c =? 58 then st 141
  else if c <? 65 then
    if (48 <=? c) && (c <=? 57) then st 44
    else st 0
  else if 70 <? c then
    if (97 <=? c) && (c <=? 102) then st 44
    else st 0
  else st 44.

Definition case_44 (c : Z) : transition action :=
  if c =? 58 then st 48
  else if c <? 65 then
    if (48 <=? c) && (c <=? 57) then st 45
    else st 0
  else if 70 <? c then
    if (97 <=? c) && (c <=? 102) then st 45
    else st 0
  else st 45.

Definition case_45 (c : Z) : transition action :=
  if c =? 58 then st 48
  else if c <? 65 then
    if (48 <=? c) && (c <=? 57) then st 46
    else st 0
  else if 70 <? c then
    if (97 <=? c) && (c <=? 102) then st 46
    else st 0
  else st 46.

Definition case_46 (c : Z) : transition action :=
  if c =? 58 then st 48
  else if c <? 65 then
    if (48 <=? c) && (c <=? 57) then st 47
    else st 0
  else if 70 <? c then
    if (97 <=? c) && (c <=? 102) then st 47
    else st 0
  else st 47.

Definition case_47 (c : Z) : transition action :=
  if c =? 58 then st 48
  else st 0.

Definition case_48 (c : Z) : transition action :=
  if c =? 58 then st 136
  else if c <? 65 then
    if (48 <=? c) && (c <=? 57) then st 49
    else st 0
  else if 70 <? c then
    if (97 <=? c) && (c <=? 102) then st 49
    else st 0
  else st 49.

Definition case_49 (c : Z) : transition action :=
  if c =? 58 then st 53
  else if c <? 65 then
    if (48 <=? c) && (c <=? 57) then st 50
    else st 0
  else if 70 <? c then
    if (97 <=? c) && (c <=? 102) then st 50
    else st 0
  else st 50.

Definition case_50 (c : Z) : transition action :=
  if c =? 58 then st 53
  else if c <? 65 then
    if (48 <=? c) && (c <=? 57) then st 51
    else st 0
  else if 70 <? c then
    if (97 <=? c) && (c <=? 102) then st 51
    else st 0
  else st 51.

Definition case_51 (c : Z) : transition action :=
  if c =? 58 then st 53
  else if c <? 65 then
    if (48 <=? c) && (c <=? 57) then st 52
    else st 0
  else if 70 <? c then
    if (97 <=? c) && (c <=? 102) then st 52
    else st 0
  else st 52.

Definition case_52 (c : Z) : transition action :=
  if c =? 58 then st 53
  else st 0.

Definition case_53 (c : Z) : transition action :=
  if c =? 58 then st 131
  else if c <? 65 then
    if (48 <=? c) && (c <=? 57) then st 54
    else st 0
  else if 70 <? c then
    if (97 <=? c) && (c <=? 102) then st 54
    else st 0
  else st 54.

Definition case_54 (c : Z) : transition action :=
  if c =? 58 then st 58
  else if c <? 65 then
    if (48 <=? c) && (c <=? 57) then st 55
    else st 0
  else if 70 <? c then
    if (97 <=? c) && (c <=? 102) then st 55
    else st 0
  else st 55.

Definition case_55 (c : Z) : transition action :=
  if c =? 58 then st 58
  else if c <? 65 then
    if (48 <=? c) && (c <=? 57) then st 56
    else st 0
  else if 70 <? c then
    if (97 <=? c) && (c <=? 102) then st 56
    else st 0
  else st 56.

Definition case_56 (c : Z) : transition action :=
  if c =? 58 then st 58
  else if c <? 65 then
    if (48 <=? c) && (c <=? 57) then st 57
    else st 0
  else if 70 <? c then
    if (97 <=? c) && (c <=? 102) then st 57
    else st 0
  else st 57.

Definition case_57 (c : Z) : transition action :=
  if c =? 58 then st 58
  else st 0.

Definition case_58 (c : Z) : transition action :=
  if c =? 58 then st 126
  else if c <? 65 then
    if (48 <=? c) && (c <=? 57) then st 59
    else st 0
  else if 70 <? c then
    if (97 <=? c) && (c <=? 102) then st 59
    else st 0
  else st 59.

Definition case_59 (c : Z) : transition action :=
  if c =? 58 then st 63
  else if c <? 65 then
    if (48 <=? c) && (c <=? 57) then st 60
    else st 0
  else if 70 <? c then
    if (97 <=? c) && (c <=? 102) then st 60
    else st 0
  else st 60.

Definition case_60 (c : Z) : transition action :=
  if c =? 58 then st 63
  else if c <? 65 then
    if (48 <=? c) && (c <=? 57) then st 61
    else st 0
  else if 70 <? c then
    if (97 <=? c) && (c <=? 102) then st 61
    else st 0
  else st 61.

Definition case_61 (c : Z) : transition action :=
  if c =? 58 then st 63
  else if c <? 65 then
    if (48 <=? c) && (c <=? 57) then st 62
    else st 0
  else if 70 <? c then
    if (97 <=? c) && (c <=? 102) then st 62
    else st 0
  else st 62.

Definition case_62 (c : Z) : transition action :=
  if c =? 58 then st 63
  else st 0.

Definition case_63 (c : Z) : transition action :=
  if c =? 58 then st 113
  else if c <? 65 then
    if (48 <=? c) && (c <=? 57) then st 64
    else st 0
  else if 70 <? c then
    if (97 <=? c) && (c <=? 102) then st 64
    else st 0
  else st 64.

Definition case_64 (c : Z) : transition action :=
  if c =? 58 then st 68
  else if c <? 65 then
    if (48 <=? c) && (c <=? 57) then st 65
    else st 0
  else if 70 <? c then
    if (97 <=? c) && (c <=? 102) then st 65
    else st 0
  else st 65.

Definition case_65 (c : Z) : transition action :=
  if c =? 58 then st 68
  else if c <? 65 then
    if (48 <=? c) && (c <=? 57) then st 66
    else st 0
  else if 70 <? c then
    if (97 <=? c) && (c <=? 102) then st 66
    else st 0
  else st 66.

Definition case_66 (c : Z) : transition action :=
  if c =? 58 then st 68
  else if c <? 65 then
    if (48 <=? c) && (c <=? 57) then st 67
    else st 0
  else if 70 <? c then
    if (97 <=? c) && (c <=? 102) then st 67
    else st 0
  else st 67.

Definition case_67 (c : Z) : transition action :=
  if c =? 58 then st 68
  else st 0.

Definition case_68 (c : Z) : transition action :=
  switch c [(2, st 69); (48, st 96); (49, st 104); (50, st 107); (58, st 111)]
  (if c <? 65 then
    if (51 <=? c) && (c <=? 57) then st 110
    else st 0
  else if 70 <? c then
    if (97 <=? c) && (c <=? 102) then st 112
    else st 0
  else st 112).

Definition case_69 (c : Z) : transition action :=
  if (48 <=? c) && (c <=? 52) then st 70
  else st 0.

Definition case_70 (c : Z) : transition action :=
  if (48 <=? c) && (c <=? 57) then st 71
  else st 0.

Definition case_71 (c : Z) : transition action :=
  if c =? 46 then st 72
  else st 0.

Definition case_72 (c : Z) : transition action :=
  switch c [(2, st 73); (48, st 75); (49, st 92); (50, st 94)]
  (if (51 <=? c) && (c <=? 57) then st 93
  else st 0).

Definition case_73 (c : Z) : transition action :=
  if (48 <=? c) && (c <=? 52) then st 74
  else st 0.

Definition case_74 (c : Z) : transition action :=
  if (48 <=? c) && (c <=? 57) then st 75
  else st 0.

Definition case_75 (c : Z) : transition action :=
  if c =? 46 then st 76
  else st 0.

Definition case_76 (c : Z) : transition action :=
  switch c [(2, st 77); (48, st 79); (49, st 88); (50, st 90)]
  (if (51 <=? c) && (c <=? 57) then st 89
  else st 0).

Definition case_77 (c : Z) : transition action :=
  if (48 <=? c) && (c <=? 52) then st 78
  else st 0.

Definition case_78 (c : Z) : transition action :=
  if (48 <=? c) && (c <=? 57) then st 79
  else st 0.

Definition case_79 (c : Z) : transition action :=
  if c =? 46 then st 80
  else st 0.

Definition case_80 (c : Z) : transition action :=
  switch c [(2, st 81); (48, st 83); (49, st 84); (50, st 86)]
  (if (51 <=? c) && (c <=? 57) then st 85
  else st 0).

Definition case_81 (c : Z) : transition action :=
  if (48 <=? c) && (c <=? 52) then st 82
  else st 0.

Definition case_82 (c : Z) : transition action :=
  if (48 <=? c) && (c <=? 57) then st 83
  else st 0.

Definition case_83 (c : Z) : transition action :=
  if c =? 93 then st 460
  else st 0.

Definition case_84 (c : Z) : transition action :=
  if c =? 93 then st 460
  else if (48 <=? c) && (c <=? 57) then st 85
  else st 0.

Definition case_85 (c : Z) : transition action :=
  if c =? 93 then st 460
  else if (48 <=? c) && (c <=? 57) then st 83
  else st 0.

Definition case_86 (c : Z) : transition action :=
  switch c [(53, st 87); (93, st 460)]
  (if (48 <=? c) && (c <=? 57) then st 83
  else st 0).

Definition case_87 (c : Z) : transition action :=
  if c =? 93 then st 460
  else if (48 <=? c) && (c <=? 53) then st 83
  else st 0.

Definition case_88 (c : Z) : transition action :=
  if c =? 46 then st 80
  else if (48 <=? c) && (c <=? 57) then st 89
  else st 0.

Definition case_89 (c : Z) : transition action :=
  if c =? 46 then st 80
  else if (48 <=? c) && (c <=? 57) then st 79
  else st 0.

Definition case_90 (c : Z) : transition action :=
  switch c [(46, st 80); (53, st 91)]
  (if (48 <=? c) && (c <=? 57) then st 79
  else st 0).

Definition case_91 (c : Z) : transition action :=
  if c =? 46 then st 80
  else if (48 <=? c) && (c <=? 53) then st 79
  else st 0.

Definition case_92 (c : Z) : transition action :=
  if c =? 46 then st 76
  else if (48 <=? c) && (c <=? 57) then st 93
  else st 0.

Definition case_93 (c : Z) : transition action :=
  if c =? 46 then st 76
  else if (48 <=? c) && (c <=? 57) then st 75
  else st 0.

Definition case_94 (c : Z) : transition action :=
  switch c [(46, st 76); (53, st 95)]
  (if (48 <=? c) && (c <=? 57) then st 75
  else st 0).

Definition case_95 (c : Z) : transition action :=
  if c =? 46 then st 76
  else if (48 <=? c) && (c <=? 53) then st 75
  else st 0.

Definition case_96 (c : Z) : transition action :=
  switch c [(46, st 72); (58, st 100)]
  (if c <? 65 then
    if (48 <=? c) && (c <=? 57) then st 97
    else st 0
  else if 70 <? c then
    if (97 <=? c) && (c <=? 102) then st 97
    else st 0
  else st 97).

Definition case_97 (c : Z) : transition action :=
  if c =? 58 then st 100
  else if c <? 65 then
    if (48 <=? c) && (c <=? 57) then st 98
    else st 0
  else if 70 <? c then
    if (97 <=? c) && (c <=? 102) then st 98
    else st 0
  else st 98.

Definition case_98 (c : Z) : transition action :=
  if c =? 58 then st 100
  else if c <? 65 then
    if (48 <=? c) && (c <=? 57) then st 99
    else st 0
  else if 70 <? c then
    if (97 <=? c) && (c <=? 102) then st 99
    else st 0
  else st 99.

Definition case_99 (c : Z) : transition action :=
  if c =? 58 then st 100
  else st 0.

Definition case_100 (c : Z) : transition action :=
  if c =? 58 then st 83
  else if c <? 65 then
    if (48 <=? c) && (c <=? 57) then st 101
    else st 0
  else if 70 <? c then
    if (97 <=? c) && (c <=? 102) then st 101
    else st 0
  else st 101.

Definition case_101 (c : Z) : transition action :=
  if c =? 93 then st 460
  else if c <? 65 then
    if (48 <=? c) && (c <=? 57) then st 102
    else st 0
  else if 70 <? c then
    if (97 <=? c) && (c <=? 102) then st 102
    else st 0
  else st 102.

Definition case_102 (c : Z) : transition action :=
  if c =? 93 then st 460
  else if c <? 65 then
    if (48 <=? c) && (c <=? 57) then st 103
    else st 0
  else if 70 <? c then
    if (97 <=? c) && (c <=? 102) then st 103
    else st 0
  else st 103.

Definition case_103 (c : Z) : transition action :=
  if c =? 93 then st 460
  else if c <? 65 then
    if (48 <=? c) && (c <=? 57) then st 83
    else st 0
  else if 70 <? c then
    if (97 <=? c) && (c <=? 102) then st 83
    else st 0
  else st 83.

Definition case_104 (c : Z) : transition action :=
  switch c [(46, st 72); (58, st 100)]
  (if c <? 65 then
    if (48 <=? c) && (c <=? 57) then st 105
    else st 0
  else if 70 <? c then
    if (97 <=? c) && (c <=? 102) then st 97
    else st 0
  else st 97).

Definition case_105 (c : Z) : transition action :=
  switch c [(46, st 72); (58, st 100)]
  (if c <? 65 then
    if (48 <=? c) && (c <=? 57) then st 106
    else st 0
  else if 70 <? c then
    if (97 <=? c) && (c <=? 102) then st 98
    else st 0
  else st 98).

Definition case_106 (c : Z) : transition action :=
  switch c [(46, st 72); (58, st 100)]
  (if c <? 65 then
    if (48 <=? c) && (c <=? 57) then st 99
    else st 0
  else if 70 <? c then
    if (97 <=? c) && (c <=? 102) then st 99
    else st 0
  else st 99).

Definition case_107 (c : Z) : transition action :=
  switch c [(46, st 72); (53, st 109); (58, st 100)]
  (if c <? 65 then
    if (48 <=? c) && (c <=? 57) then st 108
    else st 0
  else if 70 <? c then
    if (97 <=? c) && (c <=? 102) then st 97
    else st 0
  else st 97).

Definition case_108 (c : Z) : transition action :=
  switch c [(46, st 72); (58, st 100)]
  (if c <? 65 then
    if (48 <=? c) && (c <=? 57) then st 98
    else st 0
  else if 70 <? c then
    if (97 <=? c) && (c <=? 102) then st 98
    else st 0
  else st 98).

Definition case_109 (c : Z) : transition action :=
  switch c [(46, st 72); (58, st 100)]
  (if c <? 54 then
    if (48 <=? c) && (c <=? 53) then st 106
    else st 0
  else if 57 <? c then
    if 70 <? c then
      if (97 <=? c) && (c <=? 102) then st 98
      else st 0
    else if 65 <=? c then st 98
    else st 0
  else st 98).

Definition case_110 (c : Z) : transition action :=
  switch c [(46, st 72); (58, st 100)]
  (if c <? 65 then
    if (48 <=? c) && (c <=? 57) then st 108
    else st 0
  else if 70 <? c then
    if (97 <=? c) && (c <=? 102) then st 97
    else st 0
  else st 97).

Definition case_111 (c : Z) : transition action :=
  if c <? 65 then
    if (48 <=? c) && (c <=? 57) then st 101
    else st 0
  else if 70 <? c then
    if (97 <=? c) && (c <=? 102) then st 101
    else st 0
  else st 101.

Definition case_112 (c : Z) : transition action :=
  if c =? 58 then st 100
  else if c <? 65 then
    if (48 <=? c) && (c <=? 57) then st 97
    else st 0
  else if 70 <? c then
    if (97 <=? c) && (c <=? 102) then st 97
    else st 0
  else st 97.

Definition case_113 (c : Z) : transition action :=
  switch c [(2, st 69); (48, st 114); (49, st 118); (50, st 121)]
  (if c <? 65 then
    if (51 <=? c) && (c <=? 57) then st 124
    else st 0
  else if 70 <? c then
    if (97 <=? c) && (c <=? 102) then st 125
    else st 0
  else st 125).

Definition case_114 (c : Z) : transition action :=
  switch c [(46, st 72); (58, st 111)]
  (if c <? 65 then
    if (48 <=? c) && (c <=? 57) then st 115
    else st 0
  else if 70 <? c then
    if (97 <=? c) && (c <=? 102) then st 115
    else st 0
  else st 115).

Definition case_115 (c : Z) : transition action :=
  if c =? 58 then st 111
  else if c <? 65 then
    if (48 <=? c) && (c <=? 57) then st 116
    else st 0
  else if 70 <? c then
    if (97 <=? c) && (c <=? 102) then st 116
    else st 0
  else st 116.

Definition case_116 (c : Z) : transition action :=
  if c =? 58 then st 111
  else if c <? 65 then
    if (48 <=? c) && (c <=? 57) then st 117
    else st 0
  else if 70 <? c then
    if (97 <=? c) && (c <=? 102) then st 117
    else st 0
  else st 117.

Definition case_117 (c : Z) : transition action :=
  if c =? 58 then st 111
  else st 0.

Definition case_118 (c : Z) : transition action :=
  switch c [(46, st 72); (58, st 111)]
  (if c <? 65 then
    if (48 <=? c) && (c <=? 57) then st 119
    else st 0
  else if 70 <? c then
    if (97 <=? c) && (c <=? 102) then st 115
    else st 0
  else st 115).

Definition case_119 (c : Z) : transition action :=
  switch c [(46, st 72); (58, st 111)]
  (if c <? 65 then
    if (48 <=? c) && (c <=? 57) then st 120
    else st 0
  else if 70 <? c then
    if (97 <=? c) && (c <=? 102) then st 116
    else st 0
  else st 116).

Definition case_120 (c : Z) : transition action :=
  switch c [(46, st 72); (58, st 111)]
  (if c <? 65 then
    if (48 <=? c) && (c <=? 57) then st 117
    else st 0
  else if 70 <? c then
    if (97 <=? c) && (c <=? 102) then st 117
    else st 0
  else st 117).

Definition case_121 (c : Z) : transition action :=
  switch c [(46, st 72); (53, st 123); (58, st 111)]
  (if c <? 65 then
    if (48 <=? c) && (c <=? 57) then st 122
    else st 0
  else if 70 <? c then
    if (97 <=? c) && (c <=? 102) then st 115
    else st 0
  else st 115).

Definition case_122 (c : Z) : transition action :=
  switch c [(46, st 72); (58, st 111)]
  (if c <? 65 then
    if (48 <=? c) && (c <=? 57) then st 116
    else st 0
  else if 70 <? c then
    if (97 <=? c) && (c <=? 102) then st 116
    else st 0
  else st 116).

Definition case_123 (c : Z) : transition action :=
  switch c [(46, st 72); (58, st 111)]
  (if c <? 54 then
    if (48 <=? c) && (c <=? 53) then st 120
    else st 0
  else if 57 <? c then
    if 70 <? c then
      if (97 <=? c) && (c <=? 102) then st 116
      else st 0
    else if 65 <=? c then st 116
    else st 0
  else st 116).

Definition case_124 (c : Z) : transition action :=
  switch c [(46, st 72); (58, st 111)]
  (if c <? 65 then
    if (48 <=? c) && (c <=? 57) then st 122
    else st 0
  else if 70 <? c then
    if (97 <=? c) && (c <=? 102) then st 115
    else st 0
  else st 115).

Definition case_125 (c : Z) : transition action :=
  if c =? 58 then st 111
  else if c <? 65 then
    if (48 <=? c) && (c <=? 57) then st 115
    else st 0
  else if 70 <? c then
    if (97 <=? c) && (c <=? 102) then st 115
    else st 0
  else st 115.

Definition case_126 (c : Z) : transition action :=
  if c <? 65 then
    if (48 <=? c) && (c <=? 57) then st 127
    else st 0
  else if 70 <? c then
    if (97 <=? c) && (c <=? 102) then st 127
    else st 0
  else st 127.

Definition case_127 (c : Z) : transition action :=
  if c =? 58 then st 113
  else if c <? 65 then
    if (48 <=? c) && (c <=? 57) then st 128
    else st 0
  else if 70 <? c then
    if (97 <=? c) && (c <=? 102) then st 128
    else st 0
  else st 128.

Definition case_128 (c : Z) : transition action :=
  if c =? 58 then st 113
  else if c <? 65 then
    if (48 <=? c) && (c <=? 57) then st 129
    else st 0
  else if 70 <? c then
    if (97 <=? c) && (c <=? 102) then st 129
    else st 0
  else st 129.

Definition case_129 (c : Z) : transition action :=
  if c =? 58 then st 113
  else if c <? 65 then
    if (48 <=? c) && (c <=? 57) then st 130
    else st 0
  else if 70 <? c then
    if (97 <=? c) && (c <=? 102) then st 130
    else st 0
  else st 130.

Definition case_130 (c : Z) : transition action :=
  if c =? 58 then st 113
  else st 0.

Definition case_131 (c : Z) : transition action :=
  if c <? 65 then
    if (48 <=? c) && (c <=? 57) then st 132
    else st 0
  else if 70 <? c then
    if (97 <=? c) && (c <=? 102) then st 132
    else st 0
  else st 132.

Definition case_132 (c : Z) : transition action :=
  if c =? 58 then st 126
  else if c <? 65 then
    if (48 <=? c) && (c <=? 57) then st 133
    else st 0
  else if 70 <? c then
    if (97 <=? c) && (c <=? 102) then st 133
    else st 0
  else st 133.

Definition case_133 (c : Z) : transition action :=
  if c =? 58 then st 126
  else if c <? 65 then
    if (48 <=? c) && (c <=? 57) then st 134
    else st 0
  else if 70 <? c then
    if (97 <=? c) && (c <=? 102) then st 134
    else st 0
  else st 134.

Definition case_134 (c : Z) : transition action :=
  if c =? 58 then st 126
  else if c <? 65 then
    if (48 <=? c) && (c <=? 57) then st 135
    else st 0
  else if 70 <? c then
    if (97 <=? c) && (c <=? 102) then st 135
    else st 0
  else st 135.

Definition case_135 (c : Z) : transition action :=
  if c =? 58 then st 126
  else st 0.

Definition case_136 (c : Z) : transition action :=
  if c <? 65 then
    if (48 <=? c) && (c <=? 57) then st 137
    else st 0
  else if 70 <? c then
    if (97 <=? c) && (c <=? 102) then st 137
    else st 0
  else st 137.

Definition case_137 (c : Z) : transition action :=
  if c =? 58 then st 131
  else if c <? 65 then
    if (48 <=? c) && (c <=? 57) then st 138
    else st 0
  else if 70 <? c then
    if (97 <=? c) && (c <=? 102) then st 138
    else st 0
  else st 138.

Definition case_138 (c : Z) : transition action :=
  if c =? 58 then st 131
  else if c <? 65 then
    if (48 <=? c) && (c <=? 57) then st 139
    else st 0
  else if 70 <? c then
    if (97 <=? c) && (c <=? 102) then st 139
    else st 0
  else st 139.

Definition case_139 (c : Z) : transition action :=
  if c =? 58 then st 131
  else if c <? 65 then
    if (48 <=? c) && (c <=? 57) then st 140
    else st 0
  else if 70 <? c then
    if (97 <=? c) && (c <=? 102) then st 140
    else st 0
  else st 140.

Definition case_140 (c : Z) : transition action :=
  if c =? 58 then st 131
  else st 0.

Definition case_141 (c : Z) : transition action :=
  if c <? 65 then
    if (48 <=? c) && (c <=? 57) then st 142
    else st 0
  else if 70 <? c then
    if (97 <=? c) && (c <=? 102) then st 142
    else st 0
  else st 142.

Definition case_142 (c : Z) : transition action :=
  if c =? 58 then st 136
  else if c <? 65 then
    if (48 <=? c) && (c <=? 57) then st 143
    else st 0
  else if 70 <? c then
    if (97 <=? c) && (c <=? 102) then st 143
    else st 0
  else st 143.

Definition case_143 (c : Z) : transition action :=
  if c =? 58 then st 136
  else if c <? 65 then
    if (48 <=? c) && (c <=? 57) then st 144
    else st 0
  else if 70 <? c then
    if (97 <=? c) && (c <=? 102) then st 144
    else st 0
  else st 144.

Definition case_144 (c : Z) : transition action :=
  if c =? 58 then st 136
  else if c <? 65 then
    if (48 <=? c) && (c <=? 57) then st 145
    else st 0
  else if 70 <? c then
    if (97 <=? c) && (c <=? 102) then st 145
    else st 0
  else st 145.

Definition case_145 (c : Z) : transition action :=
  if c =? 58 then st 136
  else st 0.

Definition case_146 (c : Z) : transition action :=
  if c =? 58 then st 147
  else st 0.

Definition case_147 (c : Z) : transition action :=
  switch c [(2, st 69); (48, st 148); (49, st 217); (50, st 220); (93, st 460)]
  (if c <? 65 then
    if (51 <=? c) && (c <=? 57) then st 223
    else st 0
  else if 70 <? c then
    if (97 <=? c) && (c <=? 102) then st 224
    else st 0
  else st 224).

Definition case_148 (c : Z) : transition action :=
  switch c [(46, st 72); (58, st 152); (93, st 460)]
  (if c <? 65 then
    if (48 <=? c) && (c <=? 57) then st 149
    else st 0
  else if 70 <? c then
    if (97 <=? c) && (c <=? 102) then st 149
    else st 0
  else st 149).

Definition case_149 (c : Z) : transition action :=
  switch c [(58, st 152); (93, st 460)]
  (if c <? 65 then
    if (48 <=? c) && (c <=? 57) then st 150
    else st 0
  else if 70 <? c then
    if (97 <=? c) && (c <=? 102) then st 150
    else st 0
  else st 150).

Definition case_150 (c : Z) : transition action :=
  switch c [(58, st 152); (93, st 460)]
  (if c <? 65 then
    if (48 <=? c) && (c <=? 57) then st 151
    else st 0
  else if 70 <? c then
    if (97 <=? c) && (c <=? 102) then st 151
    else st 0
  else st 151).

Definition case_151 (c : Z) : transition action :=
  switch c [(58, st 152); (93, st 460)]
  (st 0).

Definition case_152 (c : Z) : transition action :=
  switch c [(2, st 69); (48, st 153); (49, st 209); (50, st 212)]
  (if c <? 65 then
    if (51 <=? c) && (c <=? 57) then st 215
    else st 0
  else if 70 <? c then
    if (97 <=? c) && (c <=? 102) then st 216
    else st 0
  else st 216).

Definition case_153 (c : Z) : transition action :=
  switch c [(46, st 72); (58, st 157); (93, st 460)]
  (if c <? 65 then
    if (48 <=? c) && (c <=? 57) then st 154
    else st 0
  else if 70 <? c then
    if (97 <=? c) && (c <=? 102) then st 154
    else st 0
  else st 154).

Definition case_154 (c : Z) : transition action :=
  switch c [(58, st 157); (93, st 460)]
  (if c <? 65 then
    if (48 <=? c) && (c <=? 57) then st 155
    else st 0
  else if 70 <? c then
    if (97 <=? c) && (c <=? 102) then st 155
    else st 0
  else st 155).

Definition case_155 (c : Z) : transition action :=
  switch c [(58, st 157); (93, st 460)]
  (if c <? 65 then
    if (48 <=? c) && (c <=? 57) then st 156
    else st 0
  else if 70 <? c then
    if (97 <=? c) && (c <=? 102) then st 156
    else st 0
  else st 156).

Definition case_156 (c : Z) : transition action :=
  switch c [(58, st 157); (93, st 460)]
  (st 0).

Definition case_157 (c : Z) : transition action :=
  switch c [(2, st 69); (48, st 158); (49, st 201); (50, st 204)]
  (if c <? 65 then
    if (51 <=? c) && (c <=? 57) then st 207
    else st 0
  else if 70 <? c then
    if (97 <=? c) && (c <=? 102) then st 208
    else st 0
  else st 208).

Definition case_158 (c : Z) : transition action :=
  switch c [(46, st 72); (58, st 162); (93, st 460)]
  (if c <? 65 then
    if (48 <=? c) && (c <=? 57) then st 159
    else st 0
  else if 70 <? c then
    if (97 <=? c) && (c <=? 102) then st 159
    else st 0
  else st 159).

Definition case_159 (c : Z) : transition action :=
  switch c [(58, st 162); (93, st 460)]
  (if c <? 65 then
    if (48 <=? c) && (c <=? 57) then st 160
    else st 0
  else if 70 <? c then
    if (97 <=? c) && (c <=? 102) then st 160
    else st 0
  else st 160).

Definition case_160 (c : Z) : transition action :=
  switch c [(58, st 162); (93, st 460)]
  (if c <? 65 then
    if (48 <=? c) && (c <=? 57) then st 161
    else st 0
  else if 70 <? c then
    if (97 <=? c) && (c <=? 102) then st 161
    else st 0
  else st 161).

Definition case_161 (c : Z) : transition action :=
  switch c [(58, st 162); (93, st 460)]
  (st 0).

Definition case_162 (c : Z) : transition action :=
  switch c [(2, st 69); (48, st 163); (49, st 193); (50, st 196)]
  (if c <? 65 then
    if (51 <=? c) && (c <=? 57) then st 199
    else st 0
  else if 70 <? c then
    if (97 <=? c) && (c <=? 102) then st 200
    else st 0
  else st 200).

Definition case_163 (c : Z) : transition action :=
  switch c [(46, st 72); (58, st 167); (93, st 460)]
  (if c <? 65 then
    if (48 <=? c) && (c <=? 57) then st 164
    else st 0
  else if 70 <? c then
    if (97 <=? c) && (c <=? 102) then st 164
    else st 0
  else st 164).

Definition case_164 (c : Z) : transition action :=
  switch c [(58, st 167); (93, st 460)]
  (if c <? 65 then
    if (48 <=? c) && (c <=? 57) then st 165
    else st 0
  else if 70 <? c then
    if (97 <=? c) && (c <=? 102) then st 165
    else st 0
  else st 165).

Definition case_165 (c : Z) : transition action :=
  switch c [(58, st 167); (93, st 460)]
  (if c <? 65 then
    if (48 <=? c) && (c <=? 57) then st 166
    else st 0
  else if 70 <? c then
    if (97 <=? c) && (c <=? 102) then st 166
    else st 0
  else st 166).

Definition case_166 (c : Z) : transition action :=
  switch c [(58, st 167); (93, st 460)]
  (st 0).

Definition case_167 (c : Z) : transition action :=
  switch c [(2, st 69); (48, st 168); (49, st 185); (50, st 188)]
  (if c <? 65 then
    if (51 <=? c) && (c <=? 57) then st 191
    else st 0
  else if 70 <? c then
    if (97 <=? c) && (c <=? 102) then st 192
    else st 0
  else st 192).

Definition case_168 (c : Z) : transition action :=
  switch c [(46, st 72); (58, st 172); (93, st 460)]
  (if c <? 65 then
    if (48 <=? c) && (c <=? 57) then st 169
    else st 0
  else if 70 <? c then
    if (97 <=? c) && (c <=? 102) then st 169
    else st 0
  else st 169).

Definition case_169 (c : Z) : transition action :=
  switch c [(58, st 172); (93, st 460)]
  (if c <? 65 then
    if (48 <=? c) && (c <=? 57) then st 170
    else st 0
  else if 70 <? c then
    if (97 <=? c) && (c <=? 102) then st 170
    else st 0
  else st 170).

Definition case_170 (c : Z) : transition action :=
  switch c [(58, st 172); (93, st 460)]
  (if c <? 65 then
    if (48 <=? c) && (c <=? 57) then st 171
    else st 0
  else if 70 <? c then
    if (97 <=? c) && (c <=? 102) then st 171
    else st 0
  else st 171).

Definition case_171 (c : Z) : transition action :=
  switch c [(58, st 172); (93, st 460)]
  (st 0).

Definition case_172 (c : Z) : transition action :=
  switch c [(2, st 69); (48, st 173); (49, st 177); (50, st 180)]
  (if c <? 65 then
    if (51 <=? c) && (c <=? 57) then st 183
    else st 0
  else if 70 <? c then
    if (97 <=? c) && (c <=? 102) then st 184
    else st 0
  else st 184).

Definition case_173 (c : Z) : transition action :=
  switch c [(46, st 72); (58, st 111); (93, st 460)]
  (if c <? 65 then
    if (48 <=? c) && (c <=? 57) then st 174
    else st 0
  else if 70 <? c then
    if (97 <=? c) && (c <=? 102) then st 174
    else st 0
  else st 174).

Definition case_174 (c : Z) : transition action :=
  switch c [(58, st 111); (93, st 460)]
  (if c <? 65 then
    if (48 <=? c) && (c <=? 57) then st 175
    else st 0
  else if 70 <? c then
    if (97 <=? c) && (c <=? 102) then st 175
    else st 0
  else st 175).

Definition case_175 (c : Z) : transition action :=
  switch c [(58, st 111); (93, st 460)]
  (if c <? 65 then
    if (48 <=? c) && (c <=? 57) then st 176
    else st 0
  else if 70 <? c then
    if (97 <=? c) && (c <=? 102) then st 176
    else st 0
  else st 176).

Definition case_176 (c : Z) : transition action :=
  switch c [(58, st 111); (93, st 460)]
  (st 0).

Definition case_177 (c : Z) : transition action :=
  switch c [(46, st 72); (58, st 111); (93, st 460)]
  (if c <? 65 then
    if (48 <=? c) && (c <=? 57) then st 178
    else st 0
  else if 70 <? c then
    if (97 <=? c) && (c <=? 102) then st 174
    else st 0
  else st 174).

Definition case_178 (c : Z) : transition action :=
  switch c [(46, st 72); (58, st 111); (93, st 460)]
  (if c <? 65 then
    if (48 <=? c) && (c <=? 57) then st 179
    else st 0
  else if 70 <? c then
    if (97 <=? c) && (c <=? 102) then st 175
    else st 0
  else st 175).

Definition case_179 (c : Z) : transition action :=
  switch c [(46, st 72); (58, st 111); (93, st 460)]
  (if c <? 65 then
    if (48 <=? c) && (c <=? 57) then st 176
    else st 0
  else if 70 <? c then
    if (97 <=? c) && (c <=? 102) then st 176
    else st 0
  else st 176).

Definition case_180 (c : Z) : transition action :=
  switch c [(46, st 72); (53, st 182); (58, st 111); (93, st 460)]
  (if c <? 65 then
    if (48 <=? c) && (c <=? 57) then st 181
    else st 0
  else if 70 <? c then
    if (97 <=? c) && (c <=? 102) then st 174
    else st 0
  else st 174).

Definition case_181 (c : Z) : transition action :=
  switch c [(46, st 72); (58, st 111); (93, st 460)]
  (if c <? 65 then
    if (48 <=? c) && (c <=? 57) then st 175
    else st 0
  else if 70 <? c then
    if (97 <=? c) && (c <=? 102) then st 175
    else st 0
  else st 175).

Definition case_182 (c : Z) : transition action :=
  switch c [(46, st 72); (58, st 111); (93, st 460)]
  (if c <? 54 then
    if (48 <=? c) && (c <=? 53) then st 179
    else st 0
  else if 57 <? c then
    if 70 <? c then
      if (97 <=? c) && (c <=? 102) then st 175
      else st 0
    else if 65 <=? c then st 175
    else st 0
  else st 175).

Definition case_183 (c : Z) : transition action :=
  switch c [(46, st 72); (58, st 111); (93, st 460)]
  (if c <? 65 then
    if (48 <=? c) && (c <=? 57) then st 181
    else st 0
  else if 70 <? c then
    if (97 <=? c) && (c <=? 102) then st 174
    else st 0
  else st 174).

Definition case_184 (c : Z) : transition action :=
  switch c [(58, st 111); (93, st 460)]
  (if c <? 65 then
    if (48 <=? c) && (c <=? 57) then st 174
    else st 0
  else if 70 <? c then
    if (97 <=? c) && (c <=? 102) then st 174
    else st 0
  else st 174).

Definition case_185 (c : Z) : transition action :=
  switch c [(46, st 72); (58, st 172); (93, st 460)]
  (if c <? 65 then
    if (48 <=? c) && (c <=? 57) then st 186
    else st 0
  else if 70 <? c then
    if (97 <=? c) && (c <=? 102) then st 169
    else st 0
  else st 169).

Definition case_186 (c : Z) : transition action :=
  switch c [(46, st 72); (58, st 172); (93, st 460)]
  (if c <? 65 then
    if (48 <=? c) && (c <=? 57) then st 187
    else st 0
  else if 70 <? c then
    if (97 <=? c) && (c <=? 102) then st 170
    else st 0
  else st 170).

Definition case_187 (c : Z) : transition action :=
  switch c [(46, st 72); (58, st 172); (93, st 460)]
  (if c <? 65 then
    if (48 <=? c) && (c <=? 57) then st 171
    else st 0
  else if 70 <? c then
    if (97 <=? c) && (c <=? 102) then st 171
    else st 0
  else st 171).

Definition case_188 (c : Z) : transition action :=
  switch c [(46, st 72); (53, st 190); (58, st 172); (93, st 460)]
  (if c <? 65 then
    if (48 <=? c) && (c <=? 57) then st 189
    else st 0
  else if 70 <? c then
    if (97 <=? c) && (c <=? 102) then st 169
    else st 0
  else st 169).

Definition case_189 (c : Z) : transition action :=
  switch c [(46, st 72); (58, st 172); (93, st 460)]
  (if c <? 65 then
    if (48 <=? c) && (c <=? 57) then st 170
    else st 0
  else if 70 <? c then
    if (97 <=? c) && (c <=? 102) then st 170
    else st 0
  else st 170).

Definition case_190 (c : Z) : transition action :=
  switch c [(46, st 72); (58, st 172); (93, st 460)]
  (if c <? 54 then
    if (48 <=? c) && (c <=? 53) then st 187
    else st 0
  else if 57 <? c then
    if 70 <? c then
      if (97 <=? c) && (c <=? 102) then st 170
      else st 0
    else if 65 <=? c then st 170
    else st 0
  else st 170).

Definition case_191 (c : Z) : transition action :=
  switch c [(46, st 72); (58, st 172); (93, st 460)]
  (if c <? 65 then
    if (48 <=? c) && (c <=? 57) then st 189
    else st 0
  else if 70 <? c then
    if (97 <=? c) && (c <=? 102) then st 169
    else st 0
  else st 169).

Definition case_192 (c : Z) : transition action :=
  switch c [(58, st 172); (93, st 460)]
  (if c <? 65 then
    if (48 <=? c) && (c <=? 57) then st 169
    else st 0
  else if 70 <? c then
    if (97 <=? c) && (c <=? 102) then st 169
    else st 0
  else st 169).

Definition case_193 (c : Z) : transition action :=
  switch c [(46, st 72); (58, st 167); (93, st 460)]
  (if c <? 65 then
    if (48 <=? c) && (c <=? 57) then st 194
    else st 0
  else if 70 <? c then
    if (97 <=? c) && (c <=? 102) then st 164
    else st 0
  else st 164).

Definition case_194 (c : Z) : transition action :=
  switch c [(46, st 72); (58, st 167); (93, st 460)]
  (if c <? 65 then
    if (48 <=? c) && (c <=? 57) then st 195
    else st 0
  else if 70 <? c then
    if (97 <=? c) && (c <=? 102) then st 165
    else st 0
  else st 165).

Definition case_195 (c : Z) : transition action :=
  switch c [(46, st 72); (58, st 167); (93, st 460)]
  (if c <? 65 then
    if (48 <=? c) && (c <=? 57) then st 166
    else st 0
  else if 70 <? c then
    if (97 <=? c) && (c <=? 102) then st 166
    else st 0
  else st 166).

Definition case_196 (c : Z) : transition action :=
  switch c [(46, st 72); (53, st 198); (58, st 167); (93, st 460)]
  (if c <? 65 then
    if (48 <=? c) && (c <=? 57) then st 197
    else st 0
  else if 70 <? c then
    if (97 <=? c) && (c <=? 102) then st 164
    else st 0
  else st 164).

Definition case_197 (c : Z) : transition action :=
  switch c [(46, st 72); (58, st 167); (93, st 460)]
  (if c <? 65 then
    if (48 <=? c) && (c <=? 57) then st 165
    else st 0
  else if 70 <? c then
    if (97 <=? c) && (c <=? 102) then st 165
    else st 0
  else st 165).

Definition case_198 (c : Z) : transition action :=
  switch c [(46, st 72); (58, st 167); (93, st 460)]
  (if c <? 54 then
    if (48 <=? c) && (c <=? 53) then st 195
    else st 0
  else if 57 <? c then
    if 70 <? c then
      if (97 <=? c) && (c <=? 102) then st 165
      else st 0
    else if 65 <=? c then st 165
    else st 0
  else st 165).

Definition case_199 (c : Z) : transition action :=
  switch c [(46, st 72); (58, st 167); (93, st 460)]
  (if c <? 65 then
    if (48 <=? c) && (c <=? 57) then st 197
    else st 0
  else if 70 <? c then
    if (97 <=? c) && (c <=? 102) then st 164
    else st 0
  else st 164).

Definition case_200 (c : Z) : transition action :=
  switch c [(58, st 167); (93, st 460)]
  (if c <? 65 then
    if (48 <=? c) && (c <=? 57) then st 164
    else st 0
  else if 70 <? c then
    if (97 <=? c) && (c <=? 102) then st 164
    else st 0
  else st 164).

Definition case_201 (c : Z) : transition action :=
  switch c [(46, st 72); (58, st 162); (93, st 460)]
  (if c <? 65 then
    if (48 <=? c) && (c <=? 57) then st 202
    else st 0
  else if 70 <? c then
    if (97 <=? c) && (c <=? 102) then st 159
    else st 0
  else st 159).

Definition case_202 (c : Z) : transition action :=
  switch c [(46, st 72); (58, st 162); (93, st 460)]
  (if c <? 65 then
    if (48 <=? c) && (c <=? 57) then st 203
    else st 0
  else if 70 <? c then
    if (97 <=? c) && (c <=? 102) then st 160
    else st 0
  else st 160).

Definition case_203 (c : Z) : transition action :=
  switch c [(46, st 72); (58, st 162); (93, st 460)]
  (if c <? 65 then
    if (48 <=? c) && (c <=? 57) then st 161
    else st 0
  else if 70 <? c then
    if (97 <=? c) && (c <=? 102) then st 161
    else st 0
  else st 161).

Definition case_204 (c : Z) : transition action :=
  switch c [(46, st 72); (53, st 206); (58, st 162); (93, st 460)]
  (if c <? 65 then
    if (48 <=? c) && (c <=? 57) then st 205
    else st 0
  else if 70 <? c then
    if (97 <=? c) && (c <=? 102) then st 159
    else st 0
  else st 159).

Definition case_205 (c : Z) : transition action :=
  switch c [(46, st 72); (58, st 162); (93, st 460)]
  (if c <? 65 then
    if (48 <=? c) && (c <=? 57) then st 160
    else st 0
  else if 70 <? c then
    if (97 <=? c) && (c <=? 102) then st 160
    else st 0
  else st 160).

Definition case_206 (c : Z) : transition action :=
  switch c [(46, st 72); (58, st 162); (93, st 460)]
  (if c <? 54 then
    if (48 <=? c) && (c <=? 53) then st 203
    else st 0
  else if 57 <? c then
    if 70 <? c then
      if (97 <=? c) && (c <=? 102) then st 160
      else st 0
    else if 65 <=? c then st 160
    else st 0
  else st 160).

Definition case_207 (c : Z) : transition action :=
  switch c [(46, st 72); (58, st 162); (93, st 460)]
  (if c <? 65 then
    if (48 <=? c) && (c <=? 57) then st 205
    else st 0
  else if 70 <? c then
    if (97 <=? c) && (c <=? 102) then st 159
    else st 0
  else st 159).

Definition case_208 (c : Z) : transition action :=
  switch c [(58, st 162); (93, st 460)]
  (if c <? 65 then
    if (48 <=? c) && (c <=? 57) then st 159
    else st 0
  else if 70 <? c then
    if (97 <=? c) && (c <=? 102) then st 159
    else st 0
  else st 159).

Definition case_209 (c : Z) : transition action :=
  switch c [(46, st 72); (58, st 157); (93, st 460)]
  (if c <? 65 then
    if (48 <=? c) && (c <=? 57) then st 210
    else st 0
  else if 70 <? c then
    if (97 <=? c) && (c <=? 102) then st 154
    else st 0
  else st 154).

Definition case_210 (c : Z) : transition action :=
  switch c [(46, st 72); (58, st 157); (93, st 460)]
  (if c <? 65 then
    if (48 <=? c) && (c <=? 57) then st 211
    else st 0
  else if 70 <? c then
    if (97 <=? c) && (c <=? 102) then st 155
    else st 0
  else st 155).

Definition case_211 (c : Z) : transition action :=
  switch c [(46, st 72); (58, st 157); (93, st 460)]
  (if c <? 65 then
    if (48 <=? c) && (c <=? 57) then st 156
    else st 0
  else if 70 <? c then
    if (97 <=? c) && (c <=? 102) then st 156
    else st 0
  else st 156).

Definition case_212 (c : Z) : transition action :=
  switch c [(46, st 72); (53, st 214); (58, st 157); (93, st 460)]
  (if c <? 65 then
    if (48 <=? c) && (c <=? 57) then st 213
    else st 0
  else if 70 <? c then
    if (97 <=? c) && (c <=? 102) then st 154
    else st 0
  else st 154).

Definition case_213 (c : Z) : transition action :=
  switch c [(46, st 72); (58, st 157); (93, st 460)]
  (if c <? 65 then
    if (48 <=? c) && (c <=? 57) then st 155
    else st 0
  else if 70 <? c then
    if (97 <=? c) && (c <=? 102) then st 155
    else st 0
  else st 155).

Definition case_214 (c : Z) : transition action :=
  switch c [(46, st 72); (58, st 157); (93, st 460)]
  (if c <? 54 then
    if (48 <=? c) && (c <=? 53) then st 211
    else st 0
  else if 57 <? c then
    if 70 <? c then
      if (97 <=? c) && (c <=? 102) then st 155
      else st 0
    else if 65 <=? c then st 155
    else st 0
  else st 155).

Definition case_215 (c : Z) : transition action :=
  switch c [(46, st 72); (58, st 157); (93, st 460)]
  (if c <? 65 then
    if (48 <=? c) && (c <=? 57) then st 213
    else st 0
  else if 70 <? c then
    if (97 <=? c) && (c <=? 102) then st 154
    else st 0
  else st 154).

Definition case_216 (c : Z) : transition action :=
  switch c [(58, st 157); (93, st 460)]
  (if c <? 65 then
    if (48 <=? c) && (c <=? 57) then st 154
    else st 0
  else if 70 <? c then
    if (97 <=? c) && (c <=? 102) then st 154
    else st 0
  else st 154).

Definition case_217 (c : Z) : transition action :=
  switch c [(46, st 72); (58, st 152); (93, st 460)]
  (if c <? 65 then
    if (48 <=? c) && (c <=? 57) then st 218
    else st 0
  else if 70 <? c then
    if (97 <=? c) && (c <=? 102) then st 149
    else st 0
  else st 149).

Definition case_218 (c : Z) : transition action :=
  switch c [(46, st 72); (58, st 152); (93, st 460)]
  (if c <? 65 then
    if (48 <=? c) && (c <=? 57) then st 219
    else st 0
  else if 70 <? c then
    if (97 <=? c) && (c <=? 102) then st 150
    else st 0
  else st 150).

Definition case_219 (c : Z) : transition action :=
  switch c [(46, st 72); (58, st 152); (93, st 460)]
  (if c <? 65 then
    if (48 <=? c) && (c <=? 57) then st 151
    else st 0
  else if 70 <? c then
    if (97 <=? c) && (c <=? 102) then st 151
    else st 0
  else st 151).

Definition case_220 (c : Z) : transition action :=
  switch c [(46, st 72); (53, st 222); (58, st 152); (93, st 460)]
  (if c <? 65 then
    if (48 <=? c) && (c <=? 57) then st 221
    else st 0
  else if 70 <? c then
    if (97 <=? c) && (c <=? 102) then st 149
    else st 0
  else st 149).

Definition case_221 (c : Z) : transition action :=
  switch c [(46, st 72); (58, st 152); (93, st 460)]
  (if c <? 65 then
    if (48 <=? c) && (c <=? 57) then st 150
    else st 0
  else if 70 <? c then
    if (97 <=? c) && (c <=? 102) then st 150
    else st 0
  else st 150).

Definition case_222 (c : Z) : transition action :=
  switch c [(46, st 72); (58, st 152); (93, st 460)]
  (if c <? 54 then
    if (48 <=? c) && (c <=? 53) then st 219
    else st 0
  else if 57 <? c then
    if 70 <? c then
      if (97 <=? c) && (c <=? 102) then st 150
      else st 0
    else if 65 <=? c then st 150
    else st 0
  else st 150).

Definition case_223 (c : Z) : transition action :=
  switch c [(46, st 72); (58, st 152); (93, st 460)]
  (if c <? 65 then
    if (48 <=? c) && (c <=? 57) then st 221
    else st 0
  else if 70 <? c then
    if (97 <=? c) && (c <=? 102) then st 149
    else st 0
  else st 149).

Definition case_224 (c : Z) : transition action :=
  switch c [(58, st 152); (93, st 460)]
  (if c <? 65 then
    if (48 <=? c) && (c <=? 57) then st 149
    else st 0
  else if 70 <? c then
    if (97 <=? c) && (c <=? 102) then st 149
    else st 0
  else st 149).

Definition case_225 (c : Z) : transition action :=
  if c <? 65 then
    if (48 <=? c) && (c <=? 57) then st 226
    else st 0
  else if 70 <? c then
    if (97 <=? c) && (c <=? 102) then st 226
    else st 0
  else st 226.

Definition case_226 (c : Z) : transition action :=
  if c =? 46 then st 227
  else if c <? 65 then
    if (48 <=? c) && (c <=? 57) then st 226
    else st 0
  else if 70 <? c then
    if (97 <=? c) && (c <=? 102) then st 226
    else st 0
  else st 226.

Definition case_227 (c : Z) : transition action :=
  switch c [(33, st 228); (36, st 228); (61, st 228); (95, st 228); (126, st 228)]
  (if c <? 48 then
    if (38 <=? c) && (c <=? 46) then st 228
    else st 0
  else if 59 <? c then
    if 90 <? c then
      if (97 <=? c) && (c <=? 122) then st 228
      else st 0
    else if 65 <=? c then st 228
    else st 0
  else st 228).

Definition case_228 (c : Z) : transition action :=
  switch c [(33, st 228); (36, st 228); (61, st 228); (93, st 460); (95, st 228);
    (126, st 228)]
  (if c <? 48 then
    if (38 <=? c) && (c <=? 46) then st 228
    else st 0
  else if 59 <? c then
    if 90 <? c then
      if (97 <=? c) && (c <=? 122) then st 228
      else st 0
    else if 65 <=? c then st 228
    else st 0
  else st 228).

Definition case_229 (c : Z) : transition action :=
  if (48 <=? c) && (c <=? 52) then st 230
  else st 0.

Definition case_230 (c : Z) : transition action :=
  if (48 <=? c) && (c <=? 57) then st 231
  else st 0.

Definition case_231 (c : Z) : transition action :=
  if c =? 46 then st 232
  else st 0.

Definition case_232 (c : Z) : transition action :=
  switch c [(2, st 233); (48, st 235); (49, st 249); (50, st 251)]
  (if (51 <=? c) && (c <=? 57) then st 250
  else st 0).

Definition case_233 (c : Z) : transition action :=
  if (48 <=? c) && (c <=? 52) then st 234
  else st 0.

Definition case_234 (c : Z) : transition action :=
  if (48 <=? c) && (c <=? 57) then st 235
  else st 0.

Definition case_235 (c : Z) : transition action :=
  if c =? 46 then st 236
  else st 0.

Definition case_236 (c : Z) : transition action :=
  switch c [(2, st 237); (48, st 239); (49, st 245); (50, st 247)]
  (if (51 <=? c) && (c <=? 57) then st 246
  else st 0).

Definition case_237 (c : Z) : transition action :=
  if (48 <=? c) && (c <=? 52) then st 238
  else st 0.

Definition case_238 (c : Z) : transition action :=
  if (48 <=? c) && (c <=? 57) then st 239
  else st 0.

Definition case_239 (c : Z) : transition action :=
  if c =? 46 then st 240
  else st 0.

Definition case_240 (c : Z) : transition action :=
  switch c [(2, st 241); (48, st 512); (49, st 516); (50, st 518)]
  (if (51 <=? c) && (c <=? 57) then st 517
  else st 0).

Definition case_241 (c : Z) : transition action :=
  if (48 <=? c) && (c <=? 52) then st 242
  else st 0.

Definition case_242 (c : Z) : transition action :=
  if (48 <=? c) && (c <=? 57) then st 512
  else st 0.

Definition case_243 (c : Z) : transition action :=
  if c <? 65 then
    if (48 <=? c) && (c <=? 57) then st 244
    else st 0
  else if 70 <? c then
    if (97 <=? c) && (c <=? 102) then st 244
    else st 0
  else st 244.

Definition case_244 (c : Z) : transition action :=
  if c <? 65 then
    if (48 <=? c) && (c <=? 57) then st 513
    else st 0
  else if 70 <? c then
    if (97 <=? c) && (c <=? 102) then st 513
    else st 0
  else st 513.

Definition case_245 (c : Z) : transition action :=
  if c =? 46 then st 240
  else if (48 <=? c) && (c <=? 57) then st 246
  else st 0.

Definition case_246 (c : Z) : transition action :=
  if c =? 46 then st 240
  else if (48 <=? c) && (c <=? 57) then st 239
  else st 0.

Definition case_247 (c : Z) : transition action :=
  switch c [(46, st 240); (53, st 248)]
  (if (48 <=? c) && (c <=? 57) then st 239
  else st 0).

Definition case_248 (c : Z) : transition action :=
  if c =? 46 then st 240
  else if (48 <=? c) && (c <=? 53) then st 239
  else st 0.

Definition case_249 (c : Z) : transition action :=
  if c =? 46 then st 236
  else if (48 <=? c) && (c <=? 57) then st 250
  else st 0.

Definition case_250 (c : Z) : transition action :=
  if c =? 46 then st 236
  else if (48 <=? c) && (c <=? 57) then st 235
  else st 0.

Definition case_251 (c : Z) : transition action :=
  switch c [(46, st 236); (53, st 252)]
  (if (48 <=? c) && (c <=? 57) then st 235
  else st 0).

Definition case_252 (c : Z) : transition action :=
  if c =? 46 then st 236
  else if (48 <=? c) && (c <=? 53) then st 235
  else st 0.

Definition case_253 (c : Z) : transition action :=
  if c <? 65 then
    if (48 <=? c) && (c <=? 57) then st 254
    else st 0
  else if 70 <? c then
    if (97 <=? c) && (c <=? 102) then st 254
    else st 0
  else st 254.

Definition case_254 (c : Z) : transition action :=
  if c <? 65 then
    if (48 <=? c) && (c <=? 57) then st 520
    else st 0
  else if 70 <? c then
    if (97 <=? c) && (c <=? 102) then st 520
    else st 0
  else st 520.

Definition case_255 (c : Z) : transition action :=
  switch c [(33, st 255); (37, st 256); (61, st 255); (64, tr263); (95, st 255);
    (126, st 255)]
  (if c <? 48 then
    if (36 <=? c) && (c <=? 46) then st 255
    else st 0
  else if 59 <? c then
    if 90 <? c then
      if (97 <=? c) && (c <=? 122) then st 255
      else st 0
    else if 65 <=? c then st 255
    else st 0
  else st 255).

Definition case_256 (c : Z) : transition action :=
  if c <? 65 then
    if (48 <=? c) && (c <=? 57) then st 257
    else st 0
  else if 70 <? c then
    if (97 <=? c) && (c <=? 102) then st 257
    else st 0
  else st 257.

Definition case_257 (c : Z) : transition action :=
  if c <? 65 then
    if (48 <=? c) && (c <=? 57) then st 255
    else st 0
  else if 70 <? c then
    if (97 <=? c) && (c <=? 102) then st 255
    else st 0
  else st 255.

Definition case_258 (c : Z) : transition action :=
  if c <? 65 then
    if (48 <=? c) && (c <=? 57) then st 259
    else st 0
  else if 70 <? c then
    if (97 <=? c) && (c <=? 102) then st 259
    else st 0
  else st 259.

Definition case_259 (c : Z) : transition action :=
  if c <? 65 then
    if (48 <=? c) && (c <=? 57) then st 523
    else st 0
  else if 70 <? c then
    if (97 <=? c) && (c <=? 102) then st 523
    else st 0
  else st 523.

Definition case_260 (c : Z) : transition action :=
  switch c [(58, st 368); (118, st 447)]
  (if c <? 65 then
    if (48 <=? c) && (c <=? 57) then st 261
    else st 0
  else if 70 <? c then
    if (97 <=? c) && (c <=? 102) then st 261
    else st 0
  else st 261).

Definition case_261 (c : Z) : transition action :=
  if c =? 58 then st 265
  else if c <? 65 then
    if (48 <=? c) && (c <=? 57) then st 262
    else st 0
  else if 70 <? c then
    if (97 <=? c) && (c <=? 102) then st 262
    else st 0
  else st 262.

Definition case_262 (c : Z) : transition action :=
  if c =? 58 then st 265
  else if c <? 65 then
    if (48 <=? c) && (c <=? 57) then st 263
    else st 0
  else if 70 <? c then
    if (97 <=? c) && (c <=? 102) then st 263
    else st 0
  else st 263.

Definition case_263 (c : Z) : transition action :=
  if c =? 58 then st 265
  else if c <? 65 then
    if (48 <=? c) && (c <=? 57) then st 264
    else st 0
  else if 70 <? c then
    if (97 <=? c) && (c <=? 102) then st 264
    else st 0
  else st 264.

Definition case_264 (c : Z) : transition action :=
  if c =? 58 then st 265
  else st 0.

Definition case_265 (c : Z) : transition action :=
  if c =? 58 then st 363
  else if c <? 65 then
    if (48 <=? c) && (c <=? 57) then st 266
    else st 0
  else if 70 <? c then
    if (97 <=? c) && (c <=? 102) then st 266
    else st 0
  else st 266.

Definition case_266 (c : Z) : transition action :=
  if c =? 58 then st 270
  else if c <? 65 then
    if (48 <=? c) && (c <=? 57) then st 267
    else st 0
  else if 70 <? c then
    if (97 <=? c) && (c <=? 102) then st 267
    else st 0
  else st 267.

Definition case_267 (c : Z) : transition action :=
  if c =? 58 then st 270
  else if c <? 65 then
    if (48 <=? c) && (c <=? 57) then st 268
    else st 0
  else if 70 <? c then
    if (97 <=? c) && (c <=? 102) then st 268
    else st 0
  else st 268.

Definition case_268 (c : Z) : transition action :=
  if c =? 58 then st 270
  else if c <? 65 then
    if (48 <=? c) && (c <=? 57) then st 269
    else st 0
  else if 70 <? c then
    if (97 <=? c) && (c <=? 102) then st 269
    else st 0
  else st 269.

Definition case_269 (c : Z) : transition action :=
  if c =? 58 then st 270
  else st 0.

Definition case_270 (c : Z) : transition action :=
  if c =? 58 then st 358
  else if c <? 65 then
    if (48 <=? c) && (c <=? 57) then st 271
    else st 0
  else if 70 <? c then
    if (97 <=? c) && (c <=? 102) then st 271
    else st 0
  else st 271.

Definition case_271 (c : Z) : transition action :=
  if c =? 58 then st 275
  else if c <? 65 then
    if (48 <=? c) && (c <=? 57) then st 272
    else st 0
  else if 70 <? c then
    if (97 <=? c) && (c <=? 102) then st 272
    else st 0
  else st 272.

Definition case_272 (c : Z) : transition action :=
  if c =? 58 then st 275
  else if c <? 65 then
    if (48 <=? c) && (c <=? 57) then st 273
    else st 0
  else if 70 <? c then
    if (97 <=? c) && (c <=? 102) then st 273
    else st 0
  else st 273.

Definition case_273 (c : Z) : transition action :=
  if c =? 58 then st 275
  else if c <? 65 then
    if (48 <=? c) && (c <=? 57) then st 274
    else st 0
  else if 70 <? c then
    if (97 <=? c) && (c <=? 102) then st 274
    else st 0
  else st 274.

Definition case_274 (c : Z) : transition action :=
  if c =? 58 then st 275
  else st 0.

Definition case_275 (c : Z) : transition action :=
  if c =? 58 then st 353
  else if c <? 65 then
    if (48 <=? c) && (c <=? 57) then st 276
    else st 0
  else if 70 <? c then
    if (97 <=? c) && (c <=? 102) then st 276
    else st 0
  else st 276.

Definition case_276 (c : Z) : transition action :=
  if c =? 58 then st 280
  else if c <? 65 then
    if (48 <=? c) && (c <=? 57) then st 277
    else st 0
  else if 70 <? c then
    if (97 <=? c) && (c <=? 102) then st 277
    else st 0
  else st 277.

Definition case_277 (c : Z) : transition action :=
  if c =? 58 then st 280
  else if c <? 65 then
    if (48 <=? c) && (c <=? 57) then st 278
    else st 0
  else if 70 <? c then
    if (97 <=? c) && (c <=? 102) then st 278
    else st 0
  else st 278.

Definition case_278 (c : Z) : transition action :=
  if c =? 58 then st 280
  else if c <? 65 then
    if (48 <=? c) && (c <=? 57) then st 279
    else st 0
  else if 70 <? c then
    if (97 <=? c) && (c <=? 102) then st 279
    else st 0
  else st 279.

Definition case_279 (c : Z) : transition action :=
  if c =? 58 then st 280
  else st 0.

Definition case_280 (c : Z) : transition action :=
  if c =? 58 then st 348
  else if c <? 65 then
    if (48 <=? c) && (c <=? 57) then st 281
    else st 0
  else if 70 <? c then
    if (97 <=? c) && (c <=? 102) then st 281
    else st 0
  else st 281.

Definition case_281 (c : Z) : transition action :=
  if c =? 58 then st 285
  else if c <? 65 then
    if (48 <=? c) && (c <=? 57) then st 282
    else st 0
  else if 70 <? c then
    if (97 <=? c) && (c <=? 102) then st 282
    else st 0
  else st 282.

Definition case_282 (c : Z) : transition action :=
  if c =? 58 then st 285
  else if c <? 65 then
    if (48 <=? c) && (c <=? 57) then st 283
    else st 0
  else if 70 <? c then
    if (97 <=? c) && (c <=? 102) then st 283
    else st 0
  else st 283.

Definition case_283 (c : Z) : transition action :=
  if c =? 58 then st 285
  else if c <? 65 then
    if (48 <=? c) && (c <=? 57) then st 284
    else st 0
  else if 70 <? c then
    if (97 <=? c) && (c <=? 102) then st 284
    else st 0
  else st 284.

Definition case_284 (c : Z) : transition action :=
  if c =? 58 then st 285
  else st 0.

Definition case_285 (c : Z) : transition action :=
  if c =? 58 then st 335
  else if c <? 65 then
    if (48 <=? c) && (c <=? 57) then st 286
    else st 0
  else if 70 <? c then
    if (97 <=? c) && (c <=? 102) then st 286
    else st 0
  else st 286.

Definition case_286 (c : Z) : transition action :=
  if c =? 58 then st 290
  else if c <? 65 then
    if (48 <=? c) && (c <=? 57) then st 287
    else st 0
  else if 70 <? c then
    if (97 <=? c) && (c <=? 102) then st 287
    else st 0
  else st 287.

Definition case_287 (c : Z) : transition action :=
  if c =? 58 then st 290
  else if c <? 65 then
    if (48 <=? c) && (c <=? 57) then st 288
    else st 0
  else if 70 <? c then
    if (97 <=? c) && (c <=? 102) then st 288
    else st 0
  else st 288.

Definition case_288 (c : Z) : transition action :=
  if c =? 58 then st 290
  else if c <? 65 then
    if (48 <=? c) && (c <=? 57) then st 289
    else st 0
  else if 70 <? c then
    if (97 <=? c) && (c <=? 102) then st 289
    else st 0
  else st 289.

Definition case_289 (c : Z) : transition action :=
  if c =? 58 then st 290
  else st 0.

Definition case_290 (c : Z) : transition action :=
  switch c [(2, st 291); (48, st 318); (49, st 326); (50, st 329); (58, st 333)]
  (if c <? 65 then
    if (51 <=? c) && (c <=? 57) then st 332
    else st 0
  else if 70 <? c then
    if (97 <=? c) && (c <=? 102) then st 334
    else st 0
  else st 334).

Definition case_291 (c : Z) : transition action :=
  if (48 <=? c) && (c <=? 52) then st 292
  else st 0.

Definition case_292 (c : Z) : transition action :=
  if (48 <=? c) && (c <=? 57) then st 293
  else st 0.

Definition case_293 (c : Z) : transition action :=
  if c =? 46 then st 294
  else st 0.

Definition case_294 (c : Z) : transition action :=
  switch c [(2, st 295); (48, st 297); (49, st 314); (50, st 316)]
  (if (51 <=? c) && (c <=? 57) then st 315
  else st 0).

Definition case_295 (c : Z) : transition action :=
  if (48 <=? c) && (c <=? 52) then st 296
  else st 0.

Definition case_296 (c : Z) : transition action :=
  if (48 <=? c) && (c <=? 57) then st 297
  else st 0.

Definition case_297 (c : Z) : transition action :=
  if c =? 46 then st 298
  else st 0.

Definition case_298 (c : Z) : transition action :=
  switch c [(2, st 299); (48, st 301); (49, st 310); (50, st 312)]
  (if (51 <=? c) && (c <=? 57) then st 311
  else st 0).

Definition case_299 (c : Z) : transition action :=
  if (48 <=? c) && (c <=? 52) then st 300
  else st 0.

Definition case_300 (c : Z) : transition action :=
  if (48 <=? c) && (c <=? 57) then st 301
  else st 0.

Definition case_301 (c : Z) : transition action :=
  if c =? 46 then st 302
  else st 0.

Definition case_302 (c : Z) : transition action :=
  switch c [(2, st 303); (48, st 305); (49, st 306); (50, st 308)]
  (if (51 <=? c) && (c <=? 57) then st 307
  else st 0).

Definition case_303 (c : Z) : transition action :=
  if (48 <=? c) && (c <=? 52) then st 304
  else st 0.

Definition case_304 (c : Z) : transition action :=
  if (48 <=? c) && (c <=? 57) then st 305
  else st 0.

Definition case_305 (c : Z) : transition action :=
  if c =? 93 then st 512
  else st 0.

Definition case_306 (c : Z) : transition action :=
  if c =? 93 then st 512
  else if (48 <=? c) && (c <=? 57) then st 307
  else st 0.

Definition case_307 (c : Z) : transition action :=
  if c =? 93 then st 512
  else if (48 <=? c) && (c <=? 57) then st 305
  else st 0.

Definition case_308 (c : Z) : transition action :=
  switch c [(53, st 309); (93, st 512)]
  (if (48 <=? c) && (c <=? 57) then st 305
  else st 0).

Definition case_309 (c : Z) : transition action :=
  if c =? 93 then st 512
  else if (48 <=? c) && (c <=? 53) then st 305
  else st 0.

Definition case_310 (c : Z) : transition action :=
  if c =? 46 then st 302
  else if (48 <=? c) && (c <=? 57) then st 311
  else st 0.

Definition case_311 (c : Z) : transition action :=
  if c =? 46 then st 302
  else if (48 <=? c) && (c <=? 57) then st 301
  else st 0.

Definition case_312 (c : Z) : transition action :=
  switch c [(46, st 302); (53, st 313)]
  (if (48 <=? c) && (c <=? 57) then st 301
  else st 0).

Definition case_313 (c : Z) : transition action :=
  if c =? 46 then st 302
  else if (48 <=? c) && (c <=? 53) then st 301
  else st 0.

Definition case_314 (c : Z) : transition action :=
  if c =? 46 then st 298
  else if (48 <=? c) && (c <=? 57) then st 315
  else st 0.

Definition case_315 (c : Z) : transition action :=
  if c =? 46 then st 298
  else if (48 <=? c) && (c <=? 57) then st 297
  else st 0.

Definition case_316 (c : Z) : transition action :=
  switch c [(46, st 298); (53, st 317)]
  (if (48 <=? c) && (c <=? 57) then st 297
  else st 0).

Definition case_317 (c : Z) : transition action :=
  if c =? 46 then st 298
  else if (48 <=? c) && (c <=? 53) then st 297
  else st 0.

Definition case_318 (c : Z) : transition action :=
  switch c [(46, st 294); (58, st 322)]
  (if c <? 65 then
    if (48 <=? c) && (c <=? 57) then st 319
    else st 0
  else if 70 <? c then
    if (97 <=? c) && (c <=? 102) then st 319
    else st 0
  else st 319).

Definition case_319 (c : Z) : transition action :=
  if c =? 58 then st 322
  else if c <? 65 then
    if (48 <=? c) && (c <=? 57) then st 320
    else st 0
  else if 70 <? c then
    if (97 <=? c) && (c <=? 102) then st 320
    else st 0
  else st 320.

Definition case_320 (c : Z) : transition action :=
  if c =? 58 then st 322
  else if c <? 65 then
    if (48 <=? c) && (c <=? 57) then st 321
    else st 0
  else if 70 <? c then
    if (97 <=? c) && (c <=? 102) then st 321
    else st 0
  else st 321.

Definition case_321 (c : Z) : transition action :=
  if c =? 58 then st 322
  else st 0.

Definition case_322 (c : Z) : transition action :=
  if c =? 58 then st 305
  else if c <? 65 then
    if (48 <=? c) && (c <=? 57) then st 323
    else st 0
  else if 70 <? c then
    if (97 <=? c) && (c <=? 102) then st 323
    else st 0
  else st 323.

Definition case_323 (c : Z) : transition action :=
  if c =? 93 then st 512
  else if c <? 65 then
    if (48 <=? c) && (c <=? 57) then st 324
    else st 0
  else if 70 <? c then
    if (97 <=? c) && (c <=? 102) then st 324
    else st 0
  else st 324.

Definition case_324 (c : Z) : transition action :=
  if c =? 93 then st 512
  else if c <? 65 then
    if (48 <=? c) && (c <=? 57) then st 325
    else st 0
  else if 70 <? c then
    if (97 <=? c) && (c <=? 102) then st 325
    else st 0
  else st 325.

Definition case_325 (c : Z) : transition action :=
  if c =? 93 then st 512
  else if c <? 65 then
    if (48 <=? c) && (c <=? 57) then st 305
    else st 0
  else if 70 <? c then
    if (97 <=? c) && (c <=? 102) then st 305
    else st 0
  else st 305.

Definition case_326 (c : Z) : transition action :=
  switch c [(46, st 294); (58, st 322)]
  (if c <? 65 then
    if (48 <=? c) && (c <=? 57) then st 327
    else st 0
  else if 70 <? c then
    if (97 <=? c) && (c <=? 102) then st 319
    else st 0
  else st 319).

Definition case_327 (c : Z) : transition action :=
  switch c [(46, st 294); (58, st 322)]
  (if c <? 65 then
    if (48 <=? c) && (c <=? 57) then st 328
    else st 0
  else if 70 <? c then
    if (97 <=? c) && (c <=? 102) then st 320
    else st 0
  else st 320).

Definition case_328 (c : Z) : transition action :=
  switch c [(46, st 294); (58, st 322)]
  (if c <? 65 then
    if (48 <=? c) && (c <=? 57) then st 321
    else st 0
  else if 70 <? c then
    if (97 <=? c) && (c <=? 102) then st 321
    else st 0
  else st 321).

Definition case_329 (c : Z) : transition action :=
  switch c [(46, st 294); (53, st 331); (58, st 322)]
  (if c <? 65 then
    if (48 <=? c) && (c <=? 57) then st 330
    else st 0
  else if 70 <? c then
    if (97 <=? c) && (c <=? 102) then st 319
    else st 0
  else st 319).

Definition case_330 (c : Z) : transition action :=
  switch c [(46, st 294); (58, st 322)]
  (if c <? 65 then
    if (48 <=? c) && (c <=? 57) then st 320
    else st 0
  else if 70 <? c then
    if (97 <=? c) && (c <=? 102) then st 320
    else st 0
  else st 320).

Definition case_331 (c : Z) : transition action :=
  switch c [(46, st 294); (58, st 322)]
  (if c <? 54 then
    if (48 <=? c) && (c <=? 53) then st 328
    else st 0
  else if 57 <? c then
    if 70 <? c then
      if (97 <=? c) && (c <=? 102) then st 320
      else st 0
    else if 65 <=? c then st 320
    else st 0
  else st 320).

Definition case_332 (c : Z) : transition action :=
  switch c [(46, st 294); (58, st 322)]
  (if c <? 65 then
    if (48 <=? c) && (c <=? 57) then st 330
    else st 0
  else if 70 <? c then
    if (97 <=? c) && (c <=? 102) then st 319
    else st 0
  else st 319).

Definition case_333 (c : Z) : transition action :=
  if c <? 65 then
    if (48 <=? c) && (c <=? 57) then st 323
    else st 0
  else if 70 <? c then
    if (97 <=? c) && (c <=? 102) then st 323
    else st 0
  else st 323.

Definition case_334 (c : Z) : transition action :=
  if c =? 58 then st 322
  else if c <? 65 then
    if (48 <=? c) && (c <=? 57) then st 319
    else st 0
  else if 70 <? c then
    if (97 <=? c) && (c <=? 102) then st 319
    else st 0
  else st 319.

Definition case_335 (c : Z) : transition action :=
  switch c [(2, st 291); (48, st 336); (49, st 340); (50, st 343)]
  (if c <? 65 then
    if (51 <=? c) && (c <=? 57) then st 346
    else st 0
  else if 70 <? c then
    if (97 <=? c) && (c <=? 102) then st 347
    else st 0
  else st 347).

Definition case_336 (c : Z) : transition action :=
  switch c [(46, st 294); (58, st 333)]
  (if c <? 65 then
    if (48 <=? c) && (c <=? 57) then st 337
    else st 0
  else if 70 <? c then
    if (97 <=? c) && (c <=? 102) then st 337
    else st 0
  else st 337).

Definition case_337 (c : Z) : transition action :=
  if c =? 58 then st 333
  else if c <? 65 then
    if (48 <=? c) && (c <=? 57) then st 338
    else st 0
  else if 70 <? c then
    if (97 <=? c) && (c <=? 102) then st 338
    else st 0
  else st 338.

Definition case_338 (c : Z) : transition action :=
  if c =? 58 then st 333
  else if c <? 65 then
    if (48 <=? c) && (c <=? 57) then st 339
    else st 0
  else if 70 <? c then
    if (97 <=? c) && (c <=? 102) then st 339
    else st 0
  else st 339.

Definition case_339 (c : Z) : transition action :=
  if c =? 58 then st 333
  else st 0.

Definition case_340 (c : Z) : transition action :=
  switch c [(46, st 294); (58, st 333)]
  (if c <? 65 then
    if (48 <=? c) && (c <=? 57) then st 341
    else st 0
  else if 70 <? c then
    if (97 <=? c) && (c <=? 102) then st 337
    else st 0
  else st 337).

Definition case_341 (c : Z) : transition action :=
  switch c [(46, st 294); (58, st 333)]
  (if c <? 65 then
    if (48 <=? c) && (c <=? 57) then st 342
    else st 0
  else if 70 <? c then
    if (97 <=? c) && (c <=? 102) then st 338
    else st 0
  else st 338).

Definition case_342 (c : Z) : transition action :=
  switch c [(46, st 294); (58, st 333)]
  (if c <? 65 then
    if (48 <=? c) && (c <=? 57) then st 339
    else st 0
  else if 70 <? c then
    if (97 <=? c) && (c <=? 102) then st 339
    else st 0
  else st 339).

Definition case_343 (c : Z) : transition action :=
  switch c [(46, st 294); (53, st 345); (58, st 333)]
  (if c <? 65 then
    if (48 <=? c) && (c <=? 57) then st 344
    else st 0
  else if 70 <? c then
    if (97 <=? c) && (c <=? 102) then st 337
    else st 0
  else st 337).

Definition case_344 (c : Z) : transition action :=
  switch c [(46, st 294); (58, st 333)]
  (if c <? 65 then
    if (48 <=? c) && (c <=? 57) then st 338
    else st 0
  else if 70 <? c then
    if (97 <=? c) && (c <=? 102) then st 338
    else st 0
  else st 338).

Definition case_345 (c : Z) : transition action :=
  switch c [(46, st 294); (58, st 333)]
  (if c <? 54 then
    if (48 <=? c) && (c <=? 53) then st 342
    else st 0
  else if 57 <? c then
    if 70 <? c then
      if (97 <=? c) && (c <=? 102) then st 338
      else st 0
    else if 65 <=? c then st 338
    else st 0
  else st 338).

Definition case_346 (c : Z) : transition action :=
  switch c [(46, st 294); (58, st 333)]
  (if c <? 65 then
    if (48 <=? c) && (c <=? 57) then st 344
    else st 0
  else if 70 <? c then
    if (97 <=? c) && (c <=? 102) then st 337
    else st 0
  else st 337).

Definition case_347 (c : Z) : transition action :=
  if c =? 58 then st 333
  else if c <? 65 then
    if (48 <=? c) && (c <=? 57) then st 337
    else st 0
  else if 70 <? c then
    if (97 <=? c) && (c <=? 102) then st 337
    else st 0
  else st 337.

Definition case_348 (c : Z) : transition action :=
  if c <? 65 then
    if (48 <=? c) && (c <=? 57) then st 349
    else st 0
  else if 70 <? c then
    if (97 <=? c) && (c <=? 102) then st 349
    else st 0
  else st 349.

Definition case_349 (c : Z) : transition action :=
  if c =? 58 then st 335
  else if c <? 65 then
    if (48 <=? c) && (c <=? 57) then st 350
    else st 0
  else if 70 <? c then
    if (97 <=? c) && (c <=? 102) then st 350
    else st 0
  else st 350.

Definition case_350 (c : Z) : transition action :=
  if c =? 58 then st 335
  else if c <? 65 then
    if (48 <=? c) && (c <=? 57) then st 351
    else st 0
  else if 70 <? c then
    if (97 <=? c) && (c <=? 102) then st 351
    else st 0
  else st 351.

Definition case_351 (c : Z) : transition action :=
  if c =? 58 then st 335
  else if c <? 65 then
    if (48 <=? c) && (c <=? 57) then st 352
    else st 0
  else if 70 <? c then
    if (97 <=? c) && (c <=? 102) then st 352
    else st 0
  else st 352.

Definition case_352 (c : Z) : transition action :=
  if c =? 58 then st 335
  else st 0.

Definition case_353 (c : Z) : transition action :=
  if c <? 65 then
    if (48 <=? c) && (c <=? 57) then st 354
    else st 0
  else if 70 <? c then
    if (97 <=? c) && (c <=? 102) then st 354
    else st 0
  else st 354.

Definition case_354 (c : Z) : transition action :=
  if c =? 58 then st 348
  else if c <? 65 then
    if (48 <=? c) && (c <=? 57) then st 355
    else st 0
  else if 70 <? c then
    if (97 <=? c) && (c <=? 102) then st 355
    else st 0
  else st 355.

Definition case_355 (c : Z) : transition action :=
  if c =? 58 then st 348
  else if c <? 65 then
    if (48 <=? c) && (c <=? 57) then st 356
    else st 0
  else if 70 <? c then
    if (97 <=? c) && (c <=? 102) then st 356
    else st 0
  else st 356.

Definition case_356 (c : Z) : transition action :=
  if c =? 58 then st 348
  else if c <? 65 then
    if (48 <=? c) && (c <=? 57) then st 357
    else st 0
  else if 70 <? c then
    if (97 <=? c) && (c <=? 102) then st 357
    else st 0
  else st 357.

Definition case_357 (c : Z) : transition action :=
  if c =? 58 then st 348
  else st 0.

Definition case_358 (c : Z) : transition action :=
  if c <? 65 then
    if (48 <=? c) && (c <=? 57) then st 359
    else st 0
  else if 70 <? c then
    if (97 <=? c) && (c <=? 102) then st 359
    else st 0
  else st 359.

Definition case_359 (c : Z) : transition action :=
  if c =? 58 then st 353
  else if c <? 65 then
    if (48 <=? c) && (c <=? 57) then st 360
    else st 0
  else if 70 <? c then
    if (97 <=? c) && (c <=? 102) then st 360
    else st 0
  else st 360.

Definition case_360 (c : Z) : transition action :=
  if c =? 58 then st 353
  else if c <? 65 then
    if (48 <=? c) && (c <=? 57) then st 361
    else st 0
  else if 70 <? c then
    if (97 <=? c) && (c <=? 102) then st 361
    else st 0
  else st 361.

Definition case_361 (c : Z) : transition action :=
  if c =? 58 then st 353
  else if c <? 65 then
    if (48 <=? c) && (c <=? 57) then st 362
    else st 0
  else if 70 <? c then
    if (97 <=? c) && (c <=? 102) then st 362
    else st 0
  else st 362.

Definition case_362 (c : Z) : transition action :=
  if c =? 58 then st 353
  else st 0.

Definition case_363 (c : Z) : transition action :=
  if c <? 65 then
    if (48 <=? c) && (c <=? 57) then st 364
    else st 0
  else if 70 <? c then
    if (97 <=? c) && (c <=? 102) then st 364
    else st 0
  else st 364.

Definition case_364 (c : Z) : transition action :=
  if c =? 58 then st 358
  else if c <? 65 then
    if (48 <=? c) && (c <=? 57) then st 365
    else st 0
  else if 70 <? c then
    if (97 <=? c) && (c <=? 102) then st 365
    else st 0
  else st 365.

Definition case_365 (c : Z) : transition action :=
  if c =? 58 then st 358
  else if c <? 65 then
    if (48 <=? c) && (c <=? 57) then st 366
    else st 0
  else if 70 <? c then
    if (97 <=? c) && (c <=? 102) then st 366
    else st 0
  else st 366.

Definition case_366 (c : Z) : transition action :=
  if c =? 58 then st 358
  else if c <? 65 then
    if (48 <=? c) && (c <=? 57) then st 367
    else st 0
  else if 70 <? c then
    if (97 <=? c) && (c <=? 102) then st 367
    else st 0
  else st 367.

Definition case_367 (c : Z) : transition action :=
  if c =? 58 then st 358
  else st 0.

Definition case_368 (c : Z) : transition action :=
  if c =? 58 then st 369
  else st 0.

Definition case_369 (c : Z) : transition action :=
  switch c [(2, st 291); (48, st 370); (49, st 439); (50, st 442); (93, st 512)]
  (if c <? 65 then
    if (51 <=? c) && (c <=? 57) then st 445
    else st 0
  else if 70 <? c then
    if (97 <=? c) && (c <=? 102) then st 446
    else st 0
  else st 446).

Definition case_370 (c : Z) : transition action :=
  switch c [(46, st 294); (58, st 374); (93, st 512)]
  (if c <? 65 then
    if (48 <=? c) && (c <=? 57) then st 371
    else st 0
  else if 70 <? c then
    if (97 <=? c) && (c <=? 102) then st 371
    else st 0
  else st 371).

Definition case_371 (c : Z) : transition action :=
  switch c [(58, st 374); (93, st 512)]
  (if c <? 65 then
    if (48 <=? c) && (c <=? 57) then st 372
    else st 0
  else if 70 <? c then
    if (97 <=? c) && (c <=? 102) then st 372
    else st 0
  else st 372).

Definition case_372 (c : Z) : transition action :=
  switch c [(58, st 374); (93, st 512)]
  (if c <? 65 then
    if (48 <=? c) && (c <=? 57) then st 373
    else st 0
  else if 70 <? c then
    if (97 <=? c) && (c <=? 102) then st 373
    else st 0
  else st 373).

Definition case_373 (c : Z) : transition action :=
  switch c [(58, st 374); (93, st 512)]
  (st 0).

Definition case_374 (c : Z) : transition action :=
  switch c [(2, st 291); (48, st 375); (49, st 431); (50, st 434)]
  (if c <? 65 then
    if (51 <=? c) && (c <=? 57) then st 437
    else st 0
  else if 70 <? c then
    if (97 <=? c) && (c <=? 102) then st 438
    else st 0
  else st 438).

Definition case_375 (c : Z) : transition action :=
  switch c [(46, st 294); (58, st 379); (93, st 512)]
  (if c <? 65 then
    if (48 <=? c) && (c <=? 57) then st 376
    else st 0
  else if 70 <? c then
    if (97 <=? c) && (c <=? 102) then st 376
    else st 0
  else st 376).

Definition case_376 (c : Z) : transition action :=
  switch c [(58, st 379); (93, st 512)]
  (if c <? 65 then
    if (48 <=? c) && (c <=? 57) then st 377
    else st 0
  else if 70 <? c then
    if (97 <=? c) && (c <=? 102) then st 377
    else st 0
  else st 377).

Definition case_377 (c : Z) : transition action :=
  switch c [(58, st 379); (93, st 512)]
  (if c <? 65 then
    if (48 <=? c) && (c <=? 57) then st 378
    else st 0
  else if 70 <? c then
    if (97 <=? c) && (c <=? 102) then st 378
    else st 0
  else st 378).

Definition case_378 (c : Z) : transition action :=
  switch c [(58, st 379); (93, st 512)]
  (st 0).

Definition case_379 (c : Z) : transition action :=
  switch c [(2, st 291); (48, st 380); (49, st 423); (50, st 426)]
  (if c <? 65 then
    if (51 <=? c) && (c <=? 57) then st 429
    else st 0
  else if 70 <? c then
    if (97 <=? c) && (c <=? 102) then st 430
    else st 0
  else st 430).

Definition case_380 (c : Z) : transition action :=
  switch c [(46, st 294); (58, st 384); (93, st 512)]
  (if c <? 65 then
    if (48 <=? c) && (c <=? 57) then st 381
    else st 0
  else if 70 <? c then
    if (97 <=? c) && (c <=? 102) then st 381
    else st 0
  else st 381).

Definition case_381 (c : Z) : transition action :=
  switch c [(58, st 384); (93, st 512)]
  (if c <? 65 then
    if (48 <=? c) && (c <=? 57) then st 382
    else st 0
  else if 70 <? c then
    if (97 <=? c) && (c <=? 102) then st 382
    else st 0
  else st 382).

Definition case_382 (c : Z) : transition action :=
  switch c [(58, st 384); (93, st 512)]
  (if c <? 65 then
    if (48 <=? c) && (c <=? 57) then st 383
    else st 0
  else if 70 <? c then
    if (97 <=? c) && (c <=? 102) then st 383
    else st 0
  else st 383).

Definition case_383 (c : Z) : transition action :=
  switch c [(58, st 384); (93, st 512)]
  (st 0).

Definition case_384 (c : Z) : transition action :=
  switch c [(2, st 291); (48, st 385); (49, st 415); (50, st 418)]
  (if c <? 65 then
    if (51 <=? c) && (c <=? 57) then st 421
    else st 0
  else if 70 <? c then
    if (97 <=? c) && (c <=? 102) then st 422
    else st 0
  else st 422).

Definition case_385 (c : Z) : transition action :=
  switch c [(46, st 294); (58, st 389); (93, st 512)]
  (if c <? 65 then
    if (48 <=? c) && (c <=? 57) then st 386
    else st 0
  else if 70 <? c then
    if (97 <=? c) && (c <=? 102) then st 386
    else st 0
  else st 386).

Definition case_386 (c : Z) : transition action :=
  switch c [(58, st 389); (93, st 512)]
  (if c <? 65 then
    if (48 <=? c) && (c <=? 57) then st 387
    else st 0
  else if 70 <? c then
    if (97 <=? c) && (c <=? 102) then st 387
    else st 0
  else st 387).

Definition case_387 (c : Z) : transition action :=
  switch c [(58, st 389); (93, st 512)]
  (if c <? 65 then
    if (48 <=? c) && (c <=? 57) then st 388
    else st 0
  else if 70 <? c then
    if (97 <=? c) && (c <=? 102) then st 388
    else st 0
  else st 388).

Definition case_388 (c : Z) : transition action :=
  switch c [(58, st 389); (93, st 512)]
  (st 0).

Definition case_389 (c : Z) : transition action :=
  switch c [(2, st 291); (48, st 390); (49, st 407); (50, st 410)]
  (if c <? 65 then
    if (51 <=? c) && (c <=? 57) then st 413
    else st 0
  else if 70 <? c then
    if (97 <=? c) && (c <=? 102) then st 414
    else st 0
  else st 414).

Definition case_390 (c : Z) : transition action :=
  switch c [(46, st 294); (58, st 394); (93, st 512)]
  (if c <? 65 then
    if (48 <=? c) && (c <=? 57) then st 391
    else st 0
  else if 70 <? c then
    if (97 <=? c) && (c <=? 102) then st 391
    else st 0
  else st 391).

Definition case_391 (c : Z) : transition action :=
  switch c [(58, st 394); (93, st 512)]
  (if c <? 65 then
    if (48 <=? c) && (c <=? 57) then st 392
    else st 0
  else if 70 <? c then
    if (97 <=? c) && (c <=? 102) then st 392
    else st 0
  else st 392).

Definition case_392 (c : Z) : transition action :=
  switch c [(58, st 394); (93, st 512)]
  (if c <? 65 then
    if (48 <=? c) && (c <=? 57) then st 393
    else st 0
  else if 70 <? c then
    if (97 <=? c) && (c <=? 102) then st 393
    else st 0
  else st 393).

Definition case_393 (c : Z) : transition action :=
  switch c [(58, st 394); (93, st 512)]
  (st 0).

Definition case_394 (c : Z) : transition action :=
  switch c [(2, st 291); (48, st 395); (49, st 399); (50, st 402)]
  (if c <? 65 then
    if (51 <=? c) && (c <=? 57) then st 405
    else st 0
  else if 70 <? c then
    if (97 <=? c) && (c <=? 102) then st 406
    else st 0
  else st 406).

Definition case_395 (c : Z) : transition action :=
  switch c [(46, st 294); (58, st 333); (93, st 512)]
  (if c <? 65 then
    if (48 <=? c) && (c <=? 57) then st 396
    else st 0
  else if 70 <? c then
    if (97 <=? c) && (c <=? 102) then st 396
    else st 0
  else st 396).

Definition case_396 (c : Z) : transition action :=
  switch c [(58, st 333); (93, st 512)]
  (if c <? 65 then
    if (48 <=? c) && (c <=? 57) then st 397
    else st 0
  else if 70 <? c then
    if (97 <=? c) && (c <=? 102) then st 397
    else st 0
  else st 397).

Definition case_397 (c : Z) : transition action :=
  switch c [(58, st 333); (93, st 512)]
  (if c <? 65 then
    if (48 <=? c) && (c <=? 57) then st 398
    else st 0
  else if 70 <? c then
    if (97 <=? c) && (c <=? 102) then st 398
    else st 0
  else st 398).

Definition case_398 (c : Z) : transition action :=
  switch c [(58, st 333); (93, st 512)]
  (st 0).

Definition case_399 (c : Z) : transition action :=
  switch c [(46, st 294); (58, st 333); (93, st 512)]
  (if c <? 65 then
    if (48 <=? c) && (c <=? 57) then st 400
    else st 0
  else if 70 <? c then
    if (97 <=? c) && (c <=? 102) then st 396
    else st 0
  else st 396).

Definition case_400 (c : Z) : transition action :=
  switch c [(46, st 294); (58, st 333); (93, st 512)]
  (if c <? 65 then
    if (48 <=? c) && (c <=? 57) then st 401
    else st 0
  else if 70 <? c then
    if (97 <=? c) && (c <=? 102) then st 397
    else st 0
  else st 397).

Definition case_401 (c : Z) : transition action :=
  switch c [(46, st 294); (58, st 333); (93, st 512)]
  (if c <? 65 then
    if (48 <=? c) && (c <=? 57) then st 398
    else st 0
  else if 70 <? c then
    if (97 <=? c) && (c <=? 102) then st 398
    else st 0
  else st 398).

Definition case_402 (c : Z) : transition action :=
  switch c [(46, st 294); (53, st 404); (58, st 333); (93, st 512)]
  (if c <? 65 then
    if (48 <=? c) && (c <=? 57) then st 403
    else st 0
  else if 70 <? c then
    if (97 <=? c) && (c <=? 102) then st 396
    else st 0
  else st 396).

Definition case_403 (c : Z) : transition action :=
  switch c [(46, st 294); (58, st 333); (93, st 512)]
  (if c <? 65 then
    if (48 <=? c) && (c <=? 57) then st 397
    else st 0
  else if 70 <? c then
    if (97 <=? c) && (c <=? 102) then st 397
    else st 0
  else st 397).

Definition case_404 (c : Z) : transition action :=
  switch c [(46, st 294); (58, st 333); (93, st 512)]
  (if c <? 54 then
    if (48 <=? c) && (c <=? 53) then st 401
    else st 0
  else if 57 <? c then
    if 70 <? c then
      if (97 <=? c) && (c <=? 102) then st 397
      else st 0
    else if 65 <=? c then st 397
    else st 0
  else st 397).

Definition case_405 (c : Z) : transition action :=
  switch c [(46, st 294); (58, st 333); (93, st 512)]
  (if c <? 65 then
    if (48 <=? c) && (c <=? 57) then st 403
    else st 0
  else if 70 <? c then
    if (97 <=? c) && (c <=? 102) then st 396
    else st 0
  else st 396).

Definition case_406 (c : Z) : transition action :=
  switch c [(58, st 333); (93, st 512)]
  (if c <? 65 then
    if (48 <=? c) && (c <=? 57) then st 396
    else st 0
  else if 70 <? c then
    if (97 <=? c) && (c <=? 102) then st 396
    else st 0
  else st 396).

Definition case_407 (c : Z) : transition action :=
  switch c [(46, st 294); (58, st 394); (93, st 512)]
  (if c <? 65 then
    if (48 <=? c) && (c <=? 57) then st 408
    else st 0
  else if 70 <? c then
    if (97 <=? c) && (c <=? 102) then st 391
    else st 0
  else st 391).

Definition case_408 (c : Z) : transition action :=
  switch c [(46, st 294); (58, st 394); (93, st 512)]
  (if c <? 65 then
    if (48 <=? c) && (c <=? 57) then st 409
    else st 0
  else if 70 <? c then
    if (97 <=? c) && (c <=? 102) then st 392
    else st 0
  else st 392).

Definition case_409 (c : Z) : transition action :=
  switch c [(46, st 294); (58, st 394); (93, st 512)]
  (if c <? 65 then
    if (48 <=? c) && (c <=? 57) then st 393
    else st 0
  else if 70 <? c then
    if (97 <=? c) && (c <=? 102) then st 393
    else st 0
  else st 393).

Definition case_410 (c : Z) : transition action :=
  switch c [(46, st 294); (53, st 412); (58, st 394); (93, st 512)]
  (if c <? 65 then
    if (48 <=? c) && (c <=? 57) then st 411
    else st 0
  else if 70 <? c then
    if (97 <=? c) && (c <=? 102) then st 391
    else st 0
  else st 391).

Definition case_411 (c : Z) : transition action :=
  switch c [(46, st 294); (58, st 394); (93, st 512)]
  (if c <? 65 then
    if (48 <=? c) && (c <=? 57) then st 392
    else st 0
  else if 70 <? c then
    if (97 <=? c) && (c <=? 102) then st 392
    else st 0
  else st 392).

Definition case_412 (c : Z) : transition action :=
  switch c [(46, st 294); (58, st 394); (93, st 512)]
  (if c <? 54 then
    if (48 <=? c) && (c <=? 53) then st 409
    else st 0
  else if 57 <? c then
    if 70 <? c then
      if (97 <=? c) && (c <=? 102) then st 392
      else st 0
    else if 65 <=? c then st 392
    else st 0
  else st 392).

Definition case_413 (c : Z) : transition action :=
  switch c [(46, st 294); (58, st 394); (93, st 512)]
  (if c <? 65 then
    if (48 <=? c) && (c <=? 57) then st 411
    else st 0
  else if 70 <? c then
    if (97 <=? c) && (c <=? 102) then st 391
    else st 0
  else st 391).

Definition case_414 (c : Z) : transition action :=
  switch c [(58, st 394); (93, st 512)]
  (if c <? 65 then
    if (48 <=? c) && (c <=? 57) then st 391
    else st 0
  else if 70 <? c then
    if (97 <=? c) && (c <=? 102) then st 391
    else st 0
  else st 391).

Definition case_415 (c : Z) : transition action :=
  switch c [(46, st 294); (58, st 389); (93, st 512)]
  (if c <? 65 then
    if (48 <=? c) && (c <=? 57) then st 416
    else st 0
  else if 70 <? c then
    if (97 <=? c) && (c <=? 102) then st 386
    else st 0
  else st 386).

Definition case_416 (c : Z) : transition action :=
  switch c [(46, st 294); (58, st 389); (93, st 512)]
  (if c <? 65 then
    if (48 <=? c) && (c <=? 57) then st 417
    else st 0
  else if 70 <? c then
    if (97 <=? c) && (c <=? 102) then st 387
    else st 0
  else st 387).

Definition case_417 (c : Z) : transition action :=
  switch c [(46, st 294); (58, st 389); (93, st 512)]
  (if c <? 65 then
    if (48 <=? c) && (c <=? 57) then st 388
    else st 0
  else if 70 <? c then
    if (97 <=? c) && (c <=? 102) then st 388
    else st 0
  else st 388).

Definition case_418 (c : Z) : transition action :=
  switch c [(46, st 294); (53, st 420); (58, st 389); (93, st 512)]
  (if c <? 65 then
    if (48 <=? c) && (c <=? 57) then st 419
    else st 0
  else if 70 <? c then
    if (97 <=? c) && (c <=? 102) then st 386
    else st 0
  else st 386).

Definition case_419 (c : Z) : transition action :=
  switch c [(46, st 294); (58, st 389); (93, st 512)]
  (if c <? 65 then
    if (48 <=? c) && (c <=? 57) then st 387
    else st 0
  else if 70 <? c then
    if (97 <=? c) && (c <=? 102) then st 387
    else st 0
  else st 387).

Definition case_420 (c : Z) : transition action :=
  switch c [(46, st 294); (58, st 389); (93, st 512)]
  (if c <? 54 then
    if (48 <=? c) && (c <=? 53) then st 417
    else st 0
  else if 57 <? c then
    if 70 <? c then
      if (97 <=? c) && (c <=? 102) then st 387
      else st 0
    else if 65 <=? c then st 387
    else st 0
  else st 387).

Definition case_421 (c : Z) : transition action :=
  switch c [(46, st 294); (58, st 389); (93, st 512)]
  (if c <? 65 then
    if (48 <=? c) && (c <=? 57) then st 419
    else st 0
  else if 70 <? c then
    if (97 <=? c) && (c <=? 102) then st 386
    else st 0
  else st 386).

Definition case_422 (c : Z) : transition action :=
  switch c [(58, st 389); (93, st 512)]
  (if c <? 65 then
    if (48 <=? c) && (c <=? 57) then st 386
    else st 0
  else if 70 <? c then
    if (97 <=? c) && (c <=? 102) then st 386
    else st 0
  else st 386).

Definition case_423 (c : Z) : transition action :=
  switch c [(46, st 294); (58, st 384); (93, st 512)]
  (if c <? 65 then
    if (48 <=? c) && (c <=? 57) then st 424
    else st 0
  else if 70 <? c then
    if (97 <=? c) && (c <=? 102) then st 381
    else st 0
  else st 381).

Definition case_424 (c : Z) : transition action :=
  switch c [(46, st 294); (58, st 384); (93, st 512)]
  (if c <? 65 then
    if (48 <=? c) && (c <=? 57) then st 425
    else st 0
  else if 70 <? c then
    if (97 <=? c) && (c <=? 102) then st 382
    else st 0
  else st 382).

Definition case_425 (c : Z) : transition action :=
  switch c [(46, st 294); (58, st 384); (93, st 512)]
  (if c <? 65 then
    if (48 <=? c) && (c <=? 57) then st 383
    else st 0
  else if 70 <? c then
    if (97 <=? c) && (c <=? 102) then st 383
    else st 0
  else st 383).

Definition case_426 (c : Z) : transition action :=
  switch c [(46, st 294); (53, st 428); (58, st 384); (93, st 512)]
  (if c <? 65 then
    if (48 <=? c) && (c <=? 57) then st 427
    else st 0
  else if 70 <? c then
    if (97 <=? c) && (c <=? 102) then st 381
    else st 0
  else st 381).

Definition case_427 (c : Z) : transition action :=
  switch c [(46, st 294); (58, st 384); (93, st 512)]
  (if c <? 65 then
    if (48 <=? c) && (c <=? 57) then st 382
    else st 0
  else if 70 <? c then
    if (97 <=? c) && (c <=? 102) then st 382
    else st 0
  else st 382).

Definition case_428 (c : Z) : transition action :=
  switch c [(46, st 294); (58, st 384); (93, st 512)]
  (if c <? 54 then
    if (48 <=? c) && (c <=? 53) then st 425
    else st 0
  else if 57 <? c then
    if 70 <? c then
      if (97 <=? c) && (c <=? 102) then st 382
      else st 0
    else if 65 <=? c then st 382
    else st 0
  else st 382).

Definition case_429 (c : Z) : transition action :=
  switch c [(46, st 294); (58, st 384); (93, st 512)]
  (if c <? 65 then
    if (48 <=? c) && (c <=? 57) then st 427
    else st 0
  else if 70 <? c then
    if (97 <=? c) && (c <=? 102) then st 381
    else st 0
  else st 381).

Definition case_430 (c : Z) : transition action :=
  switch c [(58, st 384); (93, st 512)]
  (if c <? 65 then
    if (48 <=? c) && (c <=? 57) then st 381
    else st 0
  else if 70 <? c then
    if (97 <=? c) && (c <=? 102) then st 381
    else st 0
  else st 381).

Definition case_431 (c : Z) : transition action :=
  switch c [(46, st 294); (58, st 379); (93, st 512)]
  (if c <? 65 then
    if (48 <=? c) && (c <=? 57) then st 432
    else st 0
  else if 70 <? c then
    if (97 <=? c) && (c <=? 102) then st 376
    else st 0
  else st 376).

Definition case_432 (c : Z) : transition action :=
  switch c [(46, st 294); (58, st 379); (93, st 512)]
  (if c <? 65 then
    if (48 <=? c) && (c <=? 57) then st 433
    else st 0
  else if 70 <? c then
    if (97 <=? c) && (c <=? 102) then st 377
    else st 0
  else st 377).

Definition case_433 (c : Z) : transition action :=
  switch c [(46, st 294); (58, st 379); (93, st 512)]
  (if c <? 65 then
    if (48 <=? c) && (c <=? 57) then st 378
    else st 0
  else if 70 <? c then
    if (97 <=? c) && (c <=? 102) then st 378
    else st 0
  else st 378).

Definition case_434 (c : Z) : transition action :=
  switch c [(46, st 294); (53, st 436); (58, st 379); (93, st 512)]
  (if c <? 65 then
    if (48 <=? c) && (c <=? 57) then st 435
    else st 0
  else if 70 <? c then
    if (97 <=? c) && (c <=? 102) then st 376
    else st 0
  else st 376).

Definition case_435 (c : Z) : transition action :=
  switch c [(46, st 294); (58, st 379); (93, st 512)]
  (if c <? 65 then
    if (48 <=? c) && (c <=? 57) then st 377
    else st 0
  else if 70 <? c then
    if (97 <=? c) && (c <=? 102) then st 377
    else st 0
  else st 377).

Definition case_436 (c : Z) : transition action :=
  switch c [(46, st 294); (58, st 379); (93, st 512)]
  (if c <? 54 then
    if (48 <=? c) && (c <=? 53) then st 433
    else st 0
  else if 57 <? c then
    if 70 <? c then
      if (97 <=? c) && (c <=? 102) then st 377
      else st 0
    else if 65 <=? c then st 377
    else st 0
  else st 377).

Definition case_437 (c : Z) : transition action :=
  switch c [(46, st 294); (58, st 379); (93, st 512)]
  (if c <? 65 then
    if (48 <=? c) && (c <=? 57) then st 435
    else st 0
  else if 70 <? c then
    if (97 <=? c) && (c <=? 102) then st 376
    else st 0
  else st 376).

Definition case_438 (c : Z) : transition action :=
  switch c [(58, st 379); (93, st 512)]
  (if c <? 65 then
    if (48 <=? c) && (c <=? 57) then st 376
    else st 0
  else if 70 <? c then
    if (97 <=? c) && (c <=? 102) then st 376
    else st 0
  else st 376).

Definition case_439 (c : Z) : transition action :=
  switch c [(46, st 294); (58, st 374); (93, st 512)]
  (if c <? 65 then
    if (48 <=? c) && (c <=? 57) then st 440
    else st 0
  else if 70 <? c then
    if (97 <=? c) && (c <=? 102) then st 371
    else st 0
  else st 371).

Definition case_440 (c : Z) : transition action :=
  switch c [(46, st 294); (58, st 374); (93, st 512)]
  (if c <? 65 then
    if (48 <=? c) && (c <=? 57) then st 441
    else st 0
  else if 70 <? c then
    if (97 <=? c) && (c <=? 102) then st 372
    else st 0
  else st 372).

Definition case_441 (c : Z) : transition action :=
  switch c [(46, st 294); (58, st 374); (93, st 512)]
  (if c <? 65 then
    if (48 <=? c) && (c <=? 57) then st 373
    else st 0
  else if 70 <? c then
    if (97 <=? c) && (c <=? 102) then st 373
    else st 0
  else st 373).

Definition case_442 (c : Z) : transition action :=
  switch c [(46, st 294); (53, st 444); (58, st 374); (93, st 512)]
  (if c <? 65 then
    if (48 <=? c) && (c <=? 57) then st 443
    else st 0
  else if 70 <? c then
    if (97 <=? c) && (c <=? 102) then st 371
    else st 0
  else st 371).

Definition case_443 (c : Z) : transition action :=
  switch c [(46, st 294); (58, st 374); (93, st 512)]
  (if c <? 65 then
    if (48 <=? c) && (c <=? 57) then st 372
    else st 0
  else if 70 <? c then
    if (97 <=? c) && (c <=? 102) then st 372
    else st 0
  else st 372).

Definition case_444 (c : Z) : transition action :=
  switch c [(46, st 294); (58, st 374); (93, st 512)]
  (if c <? 54 then
    if (48 <=? c) && (c <=? 53) then st 441
    else st 0
  else if 57 <? c then
    if 70 <? c then
      if (97 <=? c) && (c <=? 102) then st 372
      else st 0
    else if 65 <=? c then st 372
    else st 0
  else st 372).

Definition case_445 (c : Z) : transition action :=
  switch c [(46, st 294); (58, st 374); (93, st 512)]
  (if c <? 65 then
    if (48 <=? c) && (c <=? 57) then st 443
    else st 0
  else if 70 <? c then
    if (97 <=? c) && (c <=? 102) then st 371
    else st 0
  else st 371).

Definition case_446 (c : Z) : transition action :=
  switch c [(58, st 374); (93, st 512)]
  (if c <? 65 then
    if (48 <=? c) && (c <=? 57) then st 371
    else st 0
  else if 70 <? c then
    if (97 <=? c) && (c <=? 102) then st 371
    else st 0
  else st 371).

Definition case_447 (c : Z) : transition action :=
  if c <? 65 then
    if (48 <=? c) && (c <=? 57) then st 448
    else st 0
  else if 70 <? c then
    if (97 <=? c) && (c <=? 102) then st 448
    else st 0
  else st 448.

Definition case_448 (c : Z) : transition action :=
  if c =? 46 then st 449
  else if c <? 65 then
    if (48 <=? c) && (c <=? 57) then st 448
    else st 0
  else if 70 <? c then
    if (97 <=? c) && (c <=? 102) then st 448
    else st 0
  else st 448.

Definition case_449 (c : Z) : transition action :=
  switch c [(33, st 450); (36, st 450); (61, st 450); (95, st 450); (126, st 450)]
  (if c <? 48 then
    if (38 <=? c) && (c <=? 46) then st 450
    else st 0
  else if 59 <? c then
    if 90 <? c then
      if (97 <=? c) && (c <=? 122) then st 450
      else st 0
    else if 65 <=? c then st 450
    else st 0
  else st 450).

Definition case_450 (c : Z) : transition action :=
  switch c [(33, st 450); (36, st 450); (61, st 450); (93, st 512); (95, st 450);
    (126, st 450)]
  (if c <? 48 then
    if (38 <=? c) && (c <=? 46) then st 450
    else st 0
  else if 59 <? c then
    if 90 <? c then
      if (97 <=? c) && (c <=? 122) then st 450
      else st 0
    else if 65 <=? c then st 450
    else st 0
  else st 450).

Definition case_451 (c : Z) : transition action :=
  switch c [(34, st 0); (35, st 453); (37, st 3); (47, st 458); (58, st 0); (60, st 0);
    (62, st 0); (63, st 456); (96, st 0); (127, st 0)]
  (if c <? 91 then
    if 32 <? c then
      if (65 <=? c) && (c <=? 90) then tr461
      else st 452
    else if 0 <=? c then st 0
    else st 452
  else if 94 <? c then
    if 122 <? c then
      if (123 <=? c) && (c <=? 125) then st 0
      else st 452
    else if 97 <=? c then tr461
    else st 452
  else st 0).

Definition case_452 (c : Z) : transition action :=
  switch c [(34, st 0); (35, st 453); (37, st 3); (47, st 455); (58, st 0); (60, st 0);
    (62, st 0); (63, st 456); (96, st 0); (127, st 0)]
  (if c <? 91 then
    if (0 <=? c) && (c <=? 32) then st 0
    else st 452
  else if 94 <? c then
    if (123 <=? c) && (c <=? 125) then st 0
    else st 452
  else st 0).

Definition case_453 (c : Z) : transition action :=
  switch c [(37, tr463); (60, st 0); (62, st 0); (96, st 0); (127, st 0)]
  (if c <? 34 then
    if (0 <=? c) && (c <=? 32) then st 0
    else tr462
  else if 35 <? c then
    if 94 <? c then
      if (123 <=? c) && (c <=? 125) then st 0
      else tr462
    else if 91 <=? c then st 0
    else tr462
  else st 0).

Definition case_454 (c : Z) : transition action :=
  switch c [(37, st 1); (60, st 0); (62, st 0); (96, st 0); (127, st 0)]
  (if c <? 34 then
    if (0 <=? c) && (c <=? 32) then st 0
    else st 454
  else if 35 <? c then
    if 94 <? c then
      if (123 <=? c) && (c <=? 125) then st 0
      else st 454
    else if 91 <=? c then st 0
    else st 454
  else st 0).

Definition case_455 (c : Z) : transition action :=
  switch c [(34, st 0); (35, st 453); (37, st 5); (60, st 0); (62, st 0); (63, st 456);
    (96, st 0); (127, st 0)]
  (if c <? 91 then
    if (0 <=? c) && (c <=? 32) then st 0
    else st 455
  else if 94 <? c then
    if (123 <=? c) && (c <=? 125) then st 0
    else st 455
  else st 0).

Definition case_456 (c : Z) : transition action :=
  switch c [(34, st 0); (35, tr467); (37, tr468); (60, st 0); (62, st 0); (96, st 0);
    (127, st 0)]
  (if c <? 91 then
    if (0 <=? c) && (c <=? 32) then st 0
    else tr466
  else if 94 <? c then
    if (123 <=? c) && (c <=? 125) then st 0
    else tr466
  else st 0).

Definition case_457 (c : Z) : transition action :=
  switch c [(34, st 0); (35, tr469); (37, st 7); (60, st 0); (62, st 0); (96, st 0);
    (127, st 0)]
  (if c <? 91 then
    if (0 <=? c) && (c <=? 32) then st 0
    else st 457
  else if 94 <? c then
    if (123 <=? c) && (c <=? 125) then st 0
    else st 457
  else st 0).

Definition case_458 (c : Z) : transition action :=
  switch c [(34, st 0); (35, st 453); (37, st 5); (47, st 459); (60, st 0); (62, st 0);
    (63, st 456); (96, st 0); (127, st 0)]
  (if c <? 91 then
    if (0 <=? c) && (c <=? 32) then st 0
    else st 455
  else if 94 <? c then
    if (123 <=? c) && (c <=? 125) then st 0
    else st 455
  else st 0).

Definition case_459 (c : Z) : transition action :=
  switch c [(2, tr472); (33, tr473); (35, tr474); (37, tr475); (47, tr476); (48, tr477);
    (49, tr478); (50, tr479); (58, tr481); (59, tr473); (61, tr473); (63, tr482);
    (64, tr483); (91, tr484); (95, tr473); (126, tr473)]
  (if c <? 51 then
    if (36 <=? c) && (c <=? 46) then tr473
    else st 0
  else if 57 <? c then
    if 90 <? c then
      if (97 <=? c) && (c <=? 122) then tr473
      else st 0
    else if 65 <=? c then tr473
    else st 0
  else tr480).

Definition case_460 (c : Z) : transition action :=
  switch c [(35, tr485); (47, tr486); (58, tr487); (63, tr488)]
  (st 0).

Definition case_461 (c : Z) : transition action :=
  switch c [(35, tr489); (47, tr490); (63, tr492)]
  (if (48 <=? c) && (c <=? 57) then tr491
  else st 0).

Definition case_462 (c : Z) : transition action :=
  switch c [(35, tr493); (47, tr494); (63, tr496)]
  (if (48 <=? c) && (c <=? 57) then st 462
  else st 0).

Definition case_463 (c : Z) : transition action :=
  switch c [(35, tr485); (47, tr486); (58, tr487); (63, tr488)]
  (if (48 <=? c) && (c <=? 57) then st 464
  else st 0).

Definition case_464 (c : Z) : transition action :=
  switch c [(35, tr485); (47, tr486); (58, tr487); (63, tr488)]
  (if (48 <=? c) && (c <=? 57) then st 460
  else st 0).

Definition case_465 (c : Z) : transition action :=
  switch c [(35, tr485); (47, tr486); (53, st 466); (58, tr487); (63, tr488)]
  (if (48 <=? c) && (c <=? 57) then st 460
  else st 0).

Definition case_466 (c : Z) : transition action :=
  switch c [(35, tr485); (47, tr486); (58, tr487); (63, tr488)]
  (if (48 <=? c) && (c <=? 53) then st 460
  else st 0).

Definition case_467 (c : Z) : transition action :=
  switch c [(33, st 467); (35, tr485); (37, st 31); (47, tr486); (58, tr499);
    (61, st 467); (63, tr488); (64, tr38); (95, st 467); (126, st 467)]
  (if c <? 65 then
    if (36 <=? c) && (c <=? 59) then st 467
    else st 0
  else if 90 <? c then
    if (97 <=? c) && (c <=? 122) then st 467
    else st 0
  else st 467).

Definition case_468 (c : Z) : transition action :=
  switch c [(33, st 33); (35, tr489); (37, st 34); (47, tr490); (61, st 33); (63, tr492);
    (64, tr38); (95, st 33); (126, st 33)]
  (if c <? 58 then
    if 46 <? c then
      if (48 <=? c) && (c <=? 57) then tr500
      else st 0
    else if 36 <=? c then st 33
    else st 0
  else if 59 <? c then
    if 90 <? c then
      if (97 <=? c) && (c <=? 122) then st 33
      else st 0
    else if 65 <=? c then st 33
    else st 0
  else st 33).

Definition case_469 (c : Z) : transition action :=
  switch c [(2, tr472); (33, tr501); (35, tr474); (37, tr502); (47, tr476); (48, tr503);
    (49, tr504); (50, tr505); (58, tr507); (59, tr501); (61, tr501); (63, tr482);
    (91, tr484); (95, tr501); (126, tr501)]
  (if c <? 51 then
    if (36 <=? c) && (c <=? 46) then tr501
    else st 0
  else if 57 <? c then
    if 90 <? c then
      if (97 <=? c) && (c <=? 122) then tr501
      else st 0
    else if 65 <=? c then tr501
    else st 0
  else tr506).

Definition case_470 (c : Z) : transition action :=
  switch c [(33, st 470); (35, tr485); (37, st 36); (47, tr486); (58, tr487);
    (61, st 470); (63, tr488); (95, st 470); (126, st 470)]
  (if c <? 65 then
    if (36 <=? c) && (c <=? 59) then st 470
    else st 0
  else if 90 <? c then
    if (97 <=? c) && (c <=? 122) then st 470
    else st 0
  else st 470).

Definition case_471 (c : Z) : transition action :=
  switch c [(33, st 470); (35, tr485); (37, st 36); (46, st 472); (47, tr486);
    (58, tr487); (61, st 470); (63, tr488); (95, st 470); (126, st 470)]
  (if c <? 65 then
    if (36 <=? c) && (c <=? 59) then st 470
    else st 0
  else if 90 <? c then
    if (97 <=? c) && (c <=? 122) then st 470
    else st 0
  else st 470).

Definition case_472 (c : Z) : transition action :=
  switch c [(2, st 13); (33, st 470); (35, tr485); (37, st 36); (47, tr486);
    (48, st 473); (49, st 481); (50, st 483); (58, tr487); (59, st 470);
    (61, st 470); (63, tr488); (95, st 470); (126, st 470)]
  (if c <? 51 then
    if (36 <=? c) && (c <=? 46) then st 470
    else st 0
  else if 57 <? c then
    if 90 <? c then
      if (97 <=? c) && (c <=? 122) then st 470
      else st 0
    else if 65 <=? c then st 470
    else st 0
  else st 482).

Definition case_473 (c : Z) : transition action :=
  switch c [(33, st 470); (35, tr485); (37, st 36); (46, st 474); (47, tr486);
    (58, tr487); (61, st 470); (63, tr488); (95, st 470); (126, st 470)]
  (if c <? 65 then
    if (36 <=? c) && (c <=? 59) then st 470
    else st 0
  else if 90 <? c then
    if (97 <=? c) && (c <=? 122) then st 470
    else st 0
  else st 470).

Definition case_474 (c : Z) : transition action :=
  switch c [(2, st 17); (33, st 470); (35, tr485); (37, st 36); (47, tr486);
    (48, st 475); (49, st 477); (50, st 479); (58, tr487); (59, st 470);
    (61, st 470); (63, tr488); (95, st 470); (126, st 470)]
  (if c <? 51 then
    if (36 <=? c) && (c <=? 46) then st 470
    else st 0
  else if 57 <? c then
    if 90 <? c then
      if (97 <=? c) && (c <=? 122) then st 470
      else st 0
    else if 65 <=? c then st 470
    else st 0
  else st 478).

Definition case_475 (c : Z) : transition action :=
  switch c [(33, st 470); (35, tr485); (37, st 36); (46, st 476); (47, tr486);
    (58, tr487); (61, st 470); (63, tr488); (95, st 470); (126, st 470)]
  (if c <? 65 then
    if (36 <=? c) && (c <=? 59) then st 470
    else st 0
  else if 90 <? c then
    if (97 <=? c) && (c <=? 122) then st 470
    else st 0
  else st 470).

Definition case_476 (c : Z) : transition action :=
  switch c [(2, st 21); (33, st 470); (35, tr485); (37, st 36); (47, tr486); (58, tr487);
    (61, st 470); (63, tr488); (95, st 470); (126, st 470)]
  (if c <? 65 then
    if (36 <=? c) && (c <=? 59) then st 470
    else st 0
  else if 90 <? c then
    if (97 <=? c) && (c <=? 122) then st 470
    else st 0
  else st 470).

Definition case_477 (c : Z) : transition action :=
  switch c [(33, st 470); (35, tr485); (37, st 36); (46, st 476); (47, tr486);
    (58, tr487); (59, st 470); (61, st 470); (63, tr488); (95, st 470);
    (126, st 470)]
  (if c <? 48 then
    if (36 <=? c) && (c <=? 45) then st 470
    else st 0
  else if 57 <? c then
    if 90 <? c then
      if (97 <=? c) && (c <=? 122) then st 470
      else st 0
    else if 65 <=? c then st 470
    else st 0
  else st 478).

Definition case_478 (c : Z) : transition action :=
  switch c [(33, st 470); (35, tr485); (37, st 36); (46, st 476); (47, tr486);
    (58, tr487); (59, st 470); (61, st 470); (63, tr488); (95, st 470);
    (126, st 470)]
  (if c <? 48 then
    if (36 <=? c) && (c <=? 45) then st 470
    else st 0
  else if 57 <? c then
    if 90 <? c then
      if (97 <=? c) && (c <=? 122) then st 470
      else st 0
    else if 65 <=? c then st 470
    else st 0
  else st 475).

Definition case_479 (c : Z) : transition action :=
  switch c [(33, st 470); (35, tr485); (37, st 36); (46, st 476); (47, tr486);
    (53, st 480); (58, tr487); (59, st 470); (61, st 470); (63, tr488);
    (95, st 470); (126, st 470)]
  (if c <? 48 then
    if (36 <=? c) && (c <=? 45) then st 470
    else st 0
  else if 57 <? c then
    if 90 <? c then
      if (97 <=? c) && (c <=? 122) then st 470
      else st 0
    else if 65 <=? c then st 470
    else st 0
  else st 475).

Definition case_480 (c : Z) : transition action :=
  switch c [(33, st 470); (35, tr485); (37, st 36); (46, st 476); (47, tr486);
    (58, tr487); (61, st 470); (63, tr488); (95, st 470); (126, st 470)]
  (if c <? 54 then
    if 45 <? c then
      if (48 <=? c) && (c <=? 53) then st 475
      else st 0
    else if 36 <=? c then st 470
    else st 0
  else if 59 <? c then
    if 90 <? c then
      if (97 <=? c) && (c <=? 122) then st 470
      else st 0
    else if 65 <=? c then st 470
    else st 0
  else st 470).

Definition case_481 (c : Z) : transition action :=
  switch c [(33, st 470); (35, tr485); (37, st 36); (46, st 474); (47, tr486);
    (58, tr487); (59, st 470); (61, st 470); (63, tr488); (95, st 470);
    (126, st 470)]
  (if c <? 48 then
    if (36 <=? c) && (c <=? 45) then st 470
    else st 0
  else if 57 <? c then
    if 90 <? c then
      if (97 <=? c) && (c <=? 122) then st 470
      else st 0
    else if 65 <=? c then st 470
    else st 0
  else st 482).

Definition case_482 (c : Z) : transition action :=
  switch c [(33, st 470); (35, tr485); (37, st 36); (46, st 474); (47, tr486);
    (58, tr487); (59, st 470); (61, st 470); (63, tr488); (95, st 470);
    (126, st 470)]
  (if c <? 48 then
    if (36 <=? c) && (c <=? 45) then st 470
    else st 0
  else if 57 <? c then
    if 90 <? c then
      if (97 <=? c) && (c <=? 122) then st 470
      else st 0
    else if 65 <=? c then st 470
    else st 0
  else st 473).

Definition case_483 (c : Z) : transition action :=
  switch c [(33, st 470); (35, tr485); (37, st 36); (46, st 474); (47, tr486);
    (53, st 484); (58, tr487); (59, st 470); (61, st 470); (63, tr488);
    (95, st 470); (126, st 470)]
  (if c <? 48 then
    if (36 <=? c) && (c <=? 45) then st 470
    else st 0
  else if 57 <? c then
    if 90 <? c then
      if (97 <=? c) && (c <=? 122) then st 470
      else st 0
    else if 65 <=? c then st 470
    else st 0
  else st 473).

Definition case_484 (c : Z) : transition action :=
  switch c [(33, st 470); (35, tr485); (37, st 36); (46, st 474); (47, tr486);
    (58, tr487); (61, st 470); (63, tr488); (95, st 470); (126, st 470)]
  (if c <? 54 then
    if 45 <? c then
      if (48 <=? c) && (c <=? 53) then st 473
      else st 0
    else if 36 <=? c then st 470
    else st 0
  else if 59 <? c then
    if 90 <? c then
      if (97 <=? c) && (c <=? 122) then st 470
      else st 0
    else if 65 <=? c then st 470
    else st 0
  else st 470).

Definition case_485 (c : Z) : transition action :=
  switch c [(33, st 470); (35, tr485); (37, st 36); (46, st 472); (47, tr486);
    (58, tr487); (59, st 470); (61, st 470); (63, tr488); (95, st 470);
    (126, st 470)]
  (if c <? 48 then
    if (36 <=? c) && (c <=? 45) then st 470
    else st 0
  else if 57 <? c then
    if 90 <? c then
      if (97 <=? c) && (c <=? 122) then st 470
      else st 0
    else if 65 <=? c then st 470
    else st 0
  else st 486).

Definition case_486 (c : Z) : transition action :=
  switch c [(33, st 470); (35, tr485); (37, st 36); (46, st 472); (47, tr486);
    (58, tr487); (59, st 470); (61, st 470); (63, tr488); (95, st 470);
    (126, st 470)]
  (if c <? 48 then
    if (36 <=? c) && (c <=? 45) then st 470
    else st 0
  else if 57 <? c then
    if 90 <? c then
      if (97 <=? c) && (c <=? 122) then st 470
      else st 0
    else if 65 <=? c then st 470
    else st 0
  else st 471).

Definition case_487 (c : Z) : transition action :=
  switch c [(33, st 470); (35, tr485); (37, st 36); (46, st 472); (47, tr486);
    (53, st 488); (58, tr487); (59, st 470); (61, st 470); (63, tr488);
    (95, st 470); (126, st 470)]
  (if c <? 48 then
    if (36 <=? c) && (c <=? 45) then st 470
    else st 0
  else if 57 <? c then
    if 90 <? c then
      if (97 <=? c) && (c <=? 122) then st 470
      else st 0
    else if 65 <=? c then st 470
    else st 0
  else st 471).

Definition case_488 (c : Z) : transition action :=
  switch c [(33, st 470); (35, tr485); (37, st 36); (46, st 472); (47, tr486);
    (58, tr487); (61, st 470); (63, tr488); (95, st 470); (126, st 470)]
  (if c <? 54 then
    if 45 <? c then
      if (48 <=? c) && (c <=? 53) then st 471
      else st 0
    else if 36 <=? c then st 470
    else st 0
  else if 59 <? c then
    if 90 <? c then
      if (97 <=? c) && (c <=? 122) then st 470
      else st 0
    else if 65 <=? c then st 470
    else st 0
  else st 470).

Definition case_489 (c : Z) : transition action :=
  switch c [(33, st 33); (35, tr493); (37, st 34); (47, tr494); (61, st 33); (63, tr496);
    (64, tr38); (95, st 33); (126, st 33)]
  (if c <? 58 then
    if 46 <? c then
      if (48 <=? c) && (c <=? 57) then st 489
      else st 0
    else if 36 <=? c then st 33
    else st 0
  else if 59 <? c then
    if 90 <? c then
      if (97 <=? c) && (c <=? 122) then st 33
      else st 0
    else if 65 <=? c then st 33
    else st 0
  else st 33).

Definition case_490 (c : Z) : transition action :=
  switch c [(33, st 467); (35, tr485); (37, st 31); (46, st 491); (47, tr486);
    (58, tr499); (61, st 467); (63, tr488); (64, tr38); (95, st 467);
    (126, st 467)]
  (if c <? 65 then
    if (36 <=? c) && (c <=? 59) then st 467
    else st 0
  else if 90 <? c then
    if (97 <=? c) && (c <=? 122) then st 467
    else st 0
  else st 467).

Definition case_491 (c : Z) : transition action :=
  switch c [(2, st 13); (33, st 467); (35, tr485); (37, st 31); (47, tr486);
    (48, st 492); (49, st 500); (50, st 502); (58, tr499); (59, st 467);
    (61, st 467); (63, tr488); (64, tr38); (95, st 467); (126, st 467)]
  (if c <? 51 then
    if (36 <=? c) && (c <=? 46) then st 467
    else st 0
  else if 57 <? c then
    if 90 <? c then
      if (97 <=? c) && (c <=? 122) then st 467
      else st 0
    else if 65 <=? c then st 467
    else st 0
  else st 501).

Definition case_492 (c : Z) : transition action :=
  switch c [(33, st 467); (35, tr485); (37, st 31); (46, st 493); (47, tr486);
    (58, tr499); (61, st 467); (63, tr488); (64, tr38); (95, st 467);
    (126, st 467)]
  (if c <? 65 then
    if (36 <=? c) && (c <=? 59) then st 467
    else st 0
  else if 90 <? c then
    if (97 <=? c) && (c <=? 122) then st 467
    else st 0
  else st 467).

Definition case_493 (c : Z) : transition action :=
  switch c [(2, st 17); (33, st 467); (35, tr485); (37, st 31); (47, tr486);
    (48, st 494); (49, st 496); (50, st 498); (58, tr499); (59, st 467);
    (61, st 467); (63, tr488); (64, tr38); (95, st 467); (126, st 467)]
  (if c <? 51 then
    if (36 <=? c) && (c <=? 46) then st 467
    else st 0
  else if 57 <? c then
    if 90 <? c then
      if (97 <=? c) && (c <=? 122) then st 467
      else st 0
    else if 65 <=? c then st 467
    else st 0
  else st 497).

Definition case_494 (c : Z) : transition action :=
  switch c [(33, st 467); (35, tr485); (37, st 31); (46, st 495); (47, tr486);
    (58, tr499); (61, st 467); (63, tr488); (64, tr38); (95, st 467);
    (126, st 467)]
  (if c <? 65 then
    if (36 <=? c) && (c <=? 59) then st 467
    else st 0
  else if 90 <? c then
    if (97 <=? c) && (c <=? 122) then st 467
    else st 0
  else st 467).

Definition case_495 (c : Z) : transition action :=
  switch c [(2, st 21); (33, st 467); (35, tr485); (37, st 31); (47, tr486); (58, tr499);
    (61, st 467); (63, tr488); (64, tr38); (95, st 467); (126, st 467)]
  (if c <? 65 then
    if (36 <=? c) && (c <=? 59) then st 467
    else st 0
  else if 90 <? c then
    if (97 <=? c) && (c <=? 122) then st 467
    else st 0
  else st 467).

Definition case_496 (c : Z) : transition action :=
  switch c [(33, st 467); (35, tr485); (37, st 31); (46, st 495); (47, tr486);
    (58, tr499); (59, st 467); (61, st 467); (63, tr488); (64, tr38);
    (95, st 467); (126, st 467)]
  (if c <? 48 then
    if (36 <=? c) && (c <=? 45) then st 467
    else st 0
  else if 57 <? c then
    if 90 <? c then
      if (97 <=? c) && (c <=? 122) then st 467
      else st 0
    else if 65 <=? c then st 467
    else st 0
  else st 497).

Definition case_497 (c : Z) : transition action :=
  switch c [(33, st 467); (35, tr485); (37, st 31); (46, st 495); (47, tr486);
    (58, tr499); (59, st 467); (61, st 467); (63, tr488); (64, tr38);
    (95, st 467); (126, st 467)]
  (if c <? 48 then
    if (36 <=? c) && (c <=? 45) then st 467
    else st 0
  else if 57 <? c then
    if 90 <? c then
      if (97 <=? c) && (c <=? 122) then st 467
      else st 0
    else if 65 <=? c then st 467
    else st 0
  else st 494).

Definition case_498 (c : Z) : transition action :=
  switch c [(33, st 467); (35, tr485); (37, st 31); (46, st 495); (47, tr486);
    (53, st 499); (58, tr499); (59, st 467); (61, st 467); (63, tr488);
    (64, tr38); (95, st 467); (126, st 467)]
  (if c <? 48 then
    if (36 <=? c) && (c <=? 45) then st 467
    else st 0
  else if 57 <? c then
    if 90 <? c then
      if (97 <=? c) && (c <=? 122) then st 467
      else st 0
    else if 65 <=? c then st 467
    else st 0
  else st 494).

Definition case_499 (c : Z) : transition action :=
  switch c [(33, st 467); (35, tr485); (37, st 31); (46, st 495); (47, tr486);
    (58, tr499); (61, st 467); (63, tr488); (64, tr38); (95, st 467);
    (126, st 467)]
  (if c <? 54 then
    if 45 <? c then
      if (48 <=? c) && (c <=? 53) then st 494
      else st 0
    else if 36 <=? c then st 467
    else st 0
  else if 59 <? c then
    if 90 <? c then
      if (97 <=? c) && (c <=? 122) then st 467
      else st 0
    else if 65 <=? c then st 467
    else st 0
  else st 467).

Definition case_500 (c : Z) : transition action :=
  switch c [(33, st 467); (35, tr485); (37, st 31); (46, st 493); (47, tr486);
    (58, tr499); (59, st 467); (61, st 467); (63, tr488); (64, tr38);
    (95, st 467); (126, st 467)]
  (if c <? 48 then
    if (36 <=? c) && (c <=? 45) then st 467
    else st 0
  else if 57 <? c then
    if 90 <? c then
      if (97 <=? c) && (c <=? 122) then st 467
      else st 0
    else if 65 <=? c then st 467
    else st 0
  else st 501).

Definition case_501 (c : Z) : transition action :=
  switch c [(33, st 467); (35, tr485); (37, st 31); (46, st 493); (47, tr486);
    (58, tr499); (59, st 467); (61, st 467); (63, tr488); (64, tr38);
    (95, st 467); (126, st 467)]
  (if c <? 48 then
    if (36 <=? c) && (c <=? 45) then st 467
    else st 0
  else if 57 <? c then
    if 90 <? c then
      if (97 <=? c) && (c <=? 122) then st 467
      else st 0
    else if 65 <=? c then st 467
    else st 0
  else st 492).

Definition case_502 (c : Z) : transition action :=
  switch c [(33, st 467); (35, tr485); (37, st 31); (46, st 493); (47, tr486);
    (53, st 503); (58, tr499); (59, st 467); (61, st 467); (63, tr488);
    (64, tr38); (95, st 467); (126, st 467)]
  (if c <? 48 then
    if (36 <=? c) && (c <=? 45) then st 467
    else st 0
  else if 57 <? c then
    if 90 <? c then
      if (97 <=? c) && (c <=? 122) then st 467
      else st 0
    else if 65 <=? c then st 467
    else st 0
  else st 492).

Definition case_503 (c : Z) : transition action :=
  switch c [(33, st 467); (35, tr485); (37, st 31); (46, st 493); (47, tr486);
    (58, tr499); (61, st 467); (63, tr488); (64, tr38); (95, st 467);
    (126, st 467)]
  (if c <? 54 then
    if 45 <? c then
      if (48 <=? c) && (c <=? 53) then st 492
      else st 0
    else if 36 <=? c then st 467
    else st 0
  else if 59 <? c then
    if 90 <? c then
      if (97 <=? c) && (c <=? 122) then st 467
      else st 0
    else if 65 <=? c then st 467
    else st 0
  else st 467).

Definition case_504 (c : Z) : transition action :=
  switch c [(33, st 467); (35, tr485); (37, st 31); (46, st 491); (47, tr486);
    (58, tr499); (59, st 467); (61, st 467); (63, tr488); (64, tr38);
    (95, st 467); (126, st 467)]
  (if c <? 48 then
    if (36 <=? c) && (c <=? 45) then st 467
    else st 0
  else if 57 <? c then
    if 90 <? c then
      if (97 <=? c) && (c <=? 122) then st 467
      else st 0
    else if 65 <=? c then st 467
    else st 0
  else st 505).

Definition case_505 (c : Z) : transition action :=
  switch c [(33, st 467); (35, tr485); (37, st 31); (46, st 491); (47, tr486);
    (58, tr499); (59, st 467); (61, st 467); (63, tr488); (64, tr38);
    (95, st 467); (126, st 467)]
  (if c <? 48 then
    if (36 <=? c) && (c <=? 45) then st 467
    else st 0
  else if 57 <? c then
    if 90 <? c then
      if (97 <=? c) && (c <=? 122) then st 467
      else st 0
    else if 65 <=? c then st 467
    else st 0
  else st 490).

Definition case_506 (c : Z) : transition action :=
  switch c [(33, st 467); (35, tr485); (37, st 31); (46, st 491); (47, tr486);
    (53, st 507); (58, tr499); (59, st 467); (61, st 467); (63, tr488);
    (64, tr38); (95, st 467); (126, st 467)]
  (if c <? 48 then
    if (36 <=? c) && (c <=? 45) then st 467
    else st 0
  else if 57 <? c then
    if 90 <? c then
      if (97 <=? c) && (c <=? 122) then st 467
      else st 0
    else if 65 <=? c then st 467
    else st 0
  else st 490).

Definition case_507 (c : Z) : transition action :=
  switch c [(33, st 467); (35, tr485); (37, st 31); (46, st 491); (47, tr486);
    (58, tr499); (61, st 467); (63, tr488); (64, tr38); (95, st 467);
    (126, st 467)]
  (if c <? 54 then
    if 45 <? c then
      if (48 <=? c) && (c <=? 53) then st 490
      else st 0
    else if 36 <=? c then st 467
    else st 0
  else if 59 <? c then
    if 90 <? c then
      if (97 <=? c) && (c <=? 122) then st 467
      else st 0
    else if 65 <=? c then st 467
    else st 0
  else st 467).

Definition case_508 (c : Z) : transition action :=
  switch c [(34, st 0); (35, st 453); (37, st 3); (43, st 508); (47, st 455);
    (58, tr543); (60, st 0); (62, st 0); (63, st 456); (96, st 0); (127, st 0)]
  (if c <? 65 then
    if 32 <? c then
      if (45 <=? c) && (c <=? 57) then st 508
      else st 452
    else if 0 <=? c then st 0
    else st 452
  else if 90 <? c then
    if c <? 97 then
      if (91 <=? c) && (c <=? 94) then st 0
      else st 452
    else if 122 <? c then
      if (123 <=? c) && (c <=? 125) then st 0
      else st 452
    else st 508
  else st 508).

Definition case_509 (c : Z) : transition action :=
  switch c [(34, st 0); (35, st 453); (37, st 5); (47, st 510); (60, st 0); (62, st 0);
    (63, st 456); (96, st 0); (127, st 0)]
  (if c <? 91 then
    if (0 <=? c) && (c <=? 32) then st 0
    else st 455
  else if 94 <? c then
    if (123 <=? c) && (c <=? 125) then st 0
    else st 455
  else st 0).

Definition case_510 (c : Z) : transition action :=
  switch c [(34, st 0); (35, st 453); (37, st 5); (47, st 511); (60, st 0); (62, st 0);
    (63, st 456); (96, st 0); (127, st 0)]
  (if c <? 91 then
    if (0 <=? c) && (c <=? 32) then st 0
    else st 455
  else if 94 <? c then
    if (123 <=? c) && (c <=? 125) then st 0
    else st 455
  else st 0).

Definition case_511 (c : Z) : transition action :=
  switch c [(2, tr546); (33, tr547); (35, tr548); (37, tr549); (47, tr550); (48, tr551);
    (49, tr552); (50, tr553); (58, tr555); (59, tr547); (61, tr547); (63, tr556);
    (64, tr557); (91, tr558); (95, tr547); (126, tr547)]
  (if c <? 51 then
    if (36 <=? c) && (c <=? 46) then tr547
    else st 0
  else if 57 <? c then
    if 90 <? c then
      if (97 <=? c) && (c <=? 122) then tr547
      else st 0
    else if 65 <=? c then tr547
    else st 0
  else tr554).

Definition case_512 (c : Z) : transition action :=
  switch c [(35, tr559); (47, tr560); (58, tr561); (63, tr562)]
  (st 0).

Definition case_513 (c : Z) : transition action :=
  switch c [(34, st 0); (35, tr563); (37, st 243); (60, st 0); (62, st 0); (63, tr565);
    (96, st 0); (127, st 0)]
  (if c <? 91 then
    if (0 <=? c) && (c <=? 32) then st 0
    else st 513
  else if 94 <? c then
    if (123 <=? c) && (c <=? 125) then st 0
    else st 513
  else st 0).

Definition case_514 (c : Z) : transition action :=
  switch c [(35, tr566); (47, tr567); (63, tr569)]
  (if (48 <=? c) && (c <=? 57) then tr568
  else st 0).

Definition case_515 (c : Z) : transition action :=
  switch c [(35, tr570); (47, tr571); (63, tr573)]
  (if (48 <=? c) && (c <=? 57) then st 515
  else st 0).

Definition case_516 (c : Z) : transition action :=
  switch c [(35, tr559); (47, tr560); (58, tr561); (63, tr562)]
  (if (48 <=? c) && (c <=? 57) then st 517
  else st 0).

Definition case_517 (c : Z) : transition action :=
  switch c [(35, tr559); (47, tr560); (58, tr561); (63, tr562)]
  (if (48 <=? c) && (c <=? 57) then st 512
  else st 0).

Definition case_518 (c : Z) : transition action :=
  switch c [(35, tr559); (47, tr560); (53, st 519); (58, tr561); (63, tr562)]
  (if (48 <=? c) && (c <=? 57) then st 512
  else st 0).

Definition case_519 (c : Z) : transition action :=
  switch c [(35, tr559); (47, tr560); (58, tr561); (63, tr562)]
  (if (48 <=? c) && (c <=? 53) then st 512
  else st 0).

Definition case_520 (c : Z) : transition action :=
  switch c [(33, st 520); (35, tr559); (37, st 253); (47, tr560); (58, tr576);
    (61, st 520); (63, tr562); (64, tr263); (95, st 520); (126, st 520)]
  (if c <? 65 then
    if (36 <=? c) && (c <=? 59) then st 520
    else st 0
  else if 90 <? c then
    if (97 <=? c) && (c <=? 122) then st 520
    else st 0
  else st 520).

Definition case_521 (c : Z) : transition action :=
  switch c [(33, st 255); (35, tr566); (37, st 256); (47, tr567); (61, st 255);
    (63, tr569); (64, tr263); (95, st 255); (126, st 255)]
  (if c <? 58 then
    if 46 <? c then
      if (48 <=? c) && (c <=? 57) then tr577
      else st 0
    else if 36 <=? c then st 255
    else st 0
  else if 59 <? c then
    if 90 <? c then
      if (97 <=? c) && (c <=? 122) then st 255
      else st 0
    else if 65 <=? c then st 255
    else st 0
  else st 255).

Definition case_522 (c : Z) : transition action :=
  switch c [(2, tr546); (33, tr578); (35, tr548); (37, tr579); (47, tr550); (48, tr580);
    (49, tr581); (50, tr582); (58, tr584); (59, tr578); (61, tr578); (63, tr556);
    (91, tr558); (95, tr578); (126, tr578)]
  (if c <? 51 then
    if (36 <=? c) && (c <=? 46) then tr578
    else st 0
  else if 57 <? c then
    if 90 <? c then
      if (97 <=? c) && (c <=? 122) then tr578
      else st 0
    else if 65 <=? c then tr578
    else st 0
  else tr583).

Definition case_523 (c : Z) : transition action :=
  switch c [(33, st 523); (35, tr559); (37, st 258); (47, tr560); (58, tr561);
    (61, st 523); (63, tr562); (95, st 523); (126, st 523)]
  (if c <? 65 then
    if (36 <=? c) && (c <=? 59) then st 523
    else st 0
  else if 90 <? c then
    if (97 <=? c) && (c <=? 122) then st 523
    else st 0
  else st 523).

Definition case_524 (c : Z) : transition action :=
  switch c [(33, st 523); (35, tr559); (37, st 258); (46, st 525); (47, tr560);
    (58, tr561); (61, st 523); (63, tr562); (95, st 523); (126, st 523)]
  (if c <? 65 then
    if (36 <=? c) && (c <=? 59) then st 523
    else st 0
  else if 90 <? c then
    if (97 <=? c) && (c <=? 122) then st 523
    else st 0
  else st 523).

Definition case_525 (c : Z) : transition action :=
  switch c [(2, st 233); (33, st 523); (35, tr559); (37, st 258); (47, tr560);
    (48, st 526); (49, st 534); (50, st 536); (58, tr561); (59, st 523);
    (61, st 523); (63, tr562); (95, st 523); (126, st 523)]
  (if c <? 51 then
    if (36 <=? c) && (c <=? 46) then st 523
    else st 0
  else if 57 <? c then
    if 90 <? c then
      if (97 <=? c) && (c <=? 122) then st 523
      else st 0
    else if 65 <=? c then st 523
    else st 0
  else st 535).

Definition case_526 (c : Z) : transition action :=
  switch c [(33, st 523); (35, tr559); (37, st 258); (46, st 527); (47, tr560);
    (58, tr561); (61, st 523); (63, tr562); (95, st 523); (126, st 523)]
  (if c <? 65 then
    if (36 <=? c) && (c <=? 59) then st 523
    else st 0
  else if 90 <? c then
    if (97 <=? c) && (c <=? 122) then st 523
    else st 0
  else st 523).

Definition case_527 (c : Z) : transition action :=
  switch c [(2, st 237); (33, st 523); (35, tr559); (37, st 258); (47, tr560);
    (48, st 528); (49, st 530); (50, st 532); (58, tr561); (59, st 523);
    (61, st 523); (63, tr562); (95, st 523); (126, st 523)]
  (if c <? 51 then
    if (36 <=? c) && (c <=? 46) then st 523
    else st 0
  else if 57 <? c then
    if 90 <? c then
      if (97 <=? c) && (c <=? 122) then st 523
      else st 0
    else if 65 <=? c then st 523
    else st 0
  else st 531).

Definition case_528 (c : Z) : transition action :=
  switch c [(33, st 523); (35, tr559); (37, st 258); (46, st 529); (47, tr560);
    (58, tr561); (61, st 523); (63, tr562); (95, st 523); (126, st 523)]
  (if c <? 65 then
    if (36 <=? c) && (c <=? 59) then st 523
    else st 0
  else if 90 <? c then
    if (97 <=? c) && (c <=? 122) then st 523
    else st 0
  else st 523).

Definition case_529 (c : Z) : transition action :=
  switch c [(2, st 241); (33, st 523); (35, tr559); (37, st 258); (47, tr560);
    (58, tr561); (61, st 523); (63, tr562); (95, st 523); (126, st 523)]
  (if c <? 65 then
    if (36 <=? c) && (c <=? 59) then st 523
    else st 0
  else if 90 <? c then
    if (97 <=? c) && (c <=? 122) then st 523
    else st 0
  else st 523).

Definition case_530 (c : Z) : transition action :=
  switch c [(33, st 523); (35, tr559); (37, st 258); (46, st 529); (47, tr560);
    (58, tr561); (59, st 523); (61, st 523); (63, tr562); (95, st 523);
    (126, st 523)]
  (if c <? 48 then
    if (36 <=? c) && (c <=? 45) then st 523
    else st 0
  else if 57 <? c then
    if 90 <? c then
      if (97 <=? c) && (c <=? 122) then st 523
      else st 0
    else if 65 <=? c then st 523
    else st 0
  else st 531).

Definition case_531 (c : Z) : transition action :=
  switch c [(33, st 523); (35, tr559); (37, st 258); (46, st 529); (47, tr560);
    (58, tr561); (59, st 523); (61, st 523); (63, tr562); (95, st 523);
    (126, st 523)]
  (if c <? 48 then
    if (36 <=? c) && (c <=? 45) then st 523
    else st 0
  else if 57 <? c then
    if 90 <? c then
      if (97 <=? c) && (c <=? 122) then st 523
      else st 0
    else if 65 <=? c then st 523
    else st 0
  else st 528).

Definition case_532 (c : Z) : transition action :=
  switch c [(33, st 523); (35, tr559); (37, st 258); (46, st 529); (47, tr560);
    (53, st 533); (58, tr561); (59, st 523); (61, st 523); (63, tr562);
    (95, st 523); (126, st 523)]
  (if c <? 48 then
    if (36 <=? c) && (c <=? 45) then st 523
    else st 0
  else if 57 <? c then
    if 90 <? c then
      if (97 <=? c) && (c <=? 122) then st 523
      else st 0
    else if 65 <=? c then st 523
    else st 0
  else st 528).

Definition case_533 (c : Z) : transition action :=
  switch c [(33, st 523); (35, tr559); (37, st 258); (46, st 529); (47, tr560);
    (58, tr561); (61, st 523); (63, tr562); (95, st 523); (126, st 523)]
  (if c <? 54 then
    if 45 <? c then
      if (48 <=? c) && (c <=? 53) then st 528
      else st 0
    else if 36 <=? c then st 523
    else st 0
  else if 59 <? c then
    if 90 <? c then
      if (97 <=? c) && (c <=? 122) then st 523
      else st 0
    else if 65 <=? c then st 523
    else st 0
  else st 523).

Definition case_534 (c : Z) : transition action :=
  switch c [(33, st 523); (35, tr559); (37, st 258); (46, st 527); (47, tr560);
    (58, tr561); (59, st 523); (61, st 523); (63, tr562); (95, st 523);
    (126, st 523)]
  (if c <? 48 then
    if (36 <=? c) && (c <=? 45) then st 523
    else st 0
  else if 57 <? c then
    if 90 <? c then
      if (97 <=? c) && (c <=? 122) then st 523
      else st 0
    else if 65 <=? c then st 523
    else st 0
  else st 535).

Definition case_535 (c : Z) : transition action :=
  switch c [(33, st 523); (35, tr559); (37, st 258); (46, st 527); (47, tr560);
    (58, tr561); (59, st 523); (61, st 523); (63, tr562); (95, st 523);
    (126, st 523)]
  (if c <? 48 then
    if (36 <=? c) && (c <=? 45) then st 523
    else st 0
  else if 57 <? c then
    if 90 <? c then
      if (97 <=? c) && (c <=? 122) then st 523
      else st 0
    else if 65 <=? c then st 523
    else st 0
  else st 526).

Definition case_536 (c : Z) : transition action :=
  switch c [(33, st 523); (35, tr559); (37, st 258); (46, st 527); (47, tr560);
    (53, st 537); (58, tr561); (59, st 523); (61, st 523); (63, tr562);
    (95, st 523); (126, st 523)]
  (if c <? 48 then
    if (36 <=? c) && (c <=? 45) then st 523
    else st 0
  else if 57 <? c then
    if 90 <? c then
      if (97 <=? c) && (c <=? 122) then st 523
      else st 0
    else if 65 <=? c then st 523
    else st 0
  else st 526).

Definition case_537 (c : Z) : transition action :=
  switch c [(33, st 523); (35, tr559); (37, st 258); (46, st 527); (47, tr560);
    (58, tr561); (61, st 523); (63, tr562); (95, st 523); (126, st 523)]
  (if c <? 54 then
    if 45 <? c then
      if (48 <=? c) && (c <=? 53) then st 526
      else st 0
    else if 36 <=? c then st 523
    else st 0
  else if 59 <? c then
    if 90 <? c then
      if (97 <=? c) && (c <=? 122) then st 523
      else st 0
    else if 65 <=? c then st 523
    else st 0
  else st 523).

Definition case_538 (c : Z) : transition action :=
  switch c [(33, st 523); (35, tr559); (37, st 258); (46, st 525); (47, tr560);
    (58, tr561); (59, st 523); (61, st 523); (63, tr562); (95, st 523);
    (126, st 523)]
  (if c <? 48 then
    if (36 <=? c) && (c <=? 45) then st 523
    else st 0
  else if 57 <? c then
    if 90 <? c then
      if (97 <=? c) && (c <=? 122) then st 523
      else st 0
    else if 65 <=? c then st 523
    else st 0
  else st 539).

Definition case_539 (c : Z) : transition action :=
  switch c [(33, st 523); (35, tr559); (37, st 258); (46, st 525); (47, tr560);
    (58, tr561); (59, st 523); (61, st 523); (63, tr562); (95, st 523);
    (126, st 523)]
  (if c <? 48 then
    if (36 <=? c) && (c <=? 45) then st 523
    else st 0
  else if 57 <? c then
    if 90 <? c then
      if (97 <=? c) && (c <=? 122) then st 523
      else st 0
    else if 65 <=? c then st 523
    else st 0
  else st 524).

Definition case_540 (c : Z) : transition action :=
  switch c [(33, st 523); (35, tr559); (37, st 258); (46, st 525); (47, tr560);
    (53, st 541); (58, tr561); (59, st 523); (61, st 523); (63, tr562);
    (95, st 523); (126, st 523)]
  (if c <? 48 then
    if (36 <=? c) && (c <=? 45) then st 523
    else st 0
  else if 57 <? c then
    if 90 <? c then
      if (97 <=? c) && (c <=? 122) then st 523
      else st 0
    else if 65 <=? c then st 523
    else st 0
  else st 524).

Definition case_541 (c : Z) : transition action :=
  switch c [(33, st 523); (35, tr559); (37, st 258); (46, st 525); (47, tr560);
    (58, tr561); (61, st 523); (63, tr562); (95, st 523); (126, st 523)]
  (if c <? 54 then
    if 45 <? c then
      if (48 <=? c) && (c <=? 53) then st 524
      else st 0
    else if 36 <=? c then st 523
    else st 0
  else if 59 <? c then
    if 90 <? c then
      if (97 <=? c) && (c <=? 122) then st 523
      else st 0
    else if 65 <=? c then st 523
    else st 0
  else st 523).

Definition case_542 (c : Z) : transition action :=
  switch c [(33, st 255); (35, tr570); (37, st 256); (47, tr571); (61, st 255);
    (63, tr573); (64, tr263); (95, st 255); (126, st 255)]
  (if c <? 58 then
    if 46 <? c then
      if (48 <=? c) && (c <=? 57) then st 542
      else st 0
    else if 36 <=? c then st 255
    else st 0
  else if 59 <? c then
    if 90 <? c then
      if (97 <=? c) && (c <=? 122) then st 255
      else st 0
    else if 65 <=? c then st 255
    else st 0
  else st 255).

Definition case_543 (c : Z) : transition action :=
  switch c [(33, st 520); (35, tr559); (37, st 253); (46, st 544); (47, tr560);
    (58, tr576); (61, st 520); (63, tr562); (64, tr263); (95, st 520);
    (126, st 520)]
  (if c <? 65 then
    if (36 <=? c) && (c <=? 59) then st 520
    else st 0
  else if 90 <? c then
    if (97 <=? c) && (c <=? 122) then st 520
    else st 0
  else st 520).

Definition case_544 (c : Z) : transition action :=
  switch c [(2, st 233); (33, st 520); (35, tr559); (37, st 253); (47, tr560);
    (48, st 545); (49, st 553); (50, st 555); (58, tr576); (59, st 520);
    (61, st 520); (63, tr562); (64, tr263); (95, st 520); (126, st 520)]
  (if c <? 51 then
    if (36 <=? c) && (c <=? 46) then st 520
    else st 0
  else if 57 <? c then
    if 90 <? c then
      if (97 <=? c) && (c <=? 122) then st 520
      else st 0
    else if 65 <=? c then st 520
    else st 0
  else st 554).

Definition case_545 (c : Z) : transition action :=
  switch c [(33, st 520); (35, tr559); (37, st 253); (46, st 546); (47, tr560);
    (58, tr576); (61, st 520); (63, tr562); (64, tr263); (95, st 520);
    (126, st 520)]
  (if c <? 65 then
    if (36 <=? c) && (c <=? 59) then st 520
    else st 0
  else if 90 <? c then
    if (97 <=? c) && (c <=? 122) then st 520
    else st 0
  else st 520).

Definition case_546 (c : Z) : transition action :=
  switch c [(2, st 237); (33, st 520); (35, tr559); (37, st 253); (47, tr560);
    (48, st 547); (49, st 549); (50, st 551); (58, tr576); (59, st 520);
    (61, st 520); (63, tr562); (64, tr263); (95, st 520); (126, st 520)]
  (if c <? 51 then
    if (36 <=? c) && (c <=? 46) then st 520
    else st 0
  else if 57 <? c then
    if 90 <? c then
      if (97 <=? c) && (c <=? 122) then st 520
      else st 0
    else if 65 <=? c then st 520
    else st 0
  else st 550).

Definition case_547 (c : Z) : transition action :=
  switch c [(33, st 520); (35, tr559); (37, st 253); (46, st 548); (47, tr560);
    (58, tr576); (61, st 520); (63, tr562); (64, tr263); (95, st 520);
    (126, st 520)]
  (if c <? 65 then
    if (36 <=? c) && (c <=? 59) then st 520
    else st 0
  else if 90 <? c then
    if (97 <=? c) && (c <=? 122) then st 520
    else st 0
  else st 520).

Definition case_548 (c : Z) : transition action :=
  switch c [(2, st 241); (33, st 520); (35, tr559); (37, st 253); (47, tr560);
    (58, tr576); (61, st 520); (63, tr562); (64, tr263); (95, st 520);
    (126, st 520)]
  (if c <? 65 then
    if (36 <=? c) && (c <=? 59) then st 520
    else st 0
  else if 90 <? c then
    if (97 <=? c) && (c <=? 122) then st 520
    else st 0
  else st 520).

Definition case_549 (c : Z) : transition action :=
  switch c [(33, st 520); (35, tr559); (37, st 253); (46, st 548); (47, tr560);
    (58, tr576); (59, st 520); (61, st 520); (63, tr562); (64, tr263);
    (95, st 520); (126, st 520)]
  (if c <? 48 then
    if (36 <=? c) && (c <=? 45) then st 520
    else st 0
  else if 57 <? c then
    if 90 <? c then
      if (97 <=? c) && (c <=? 122) then st 520
      else st 0
    else if 65 <=? c then st 520
    else st 0
  else st 550).

Definition case_550 (c : Z) : transition action :=
  switch c [(33, st 520); (35, tr559); (37, st 253); (46, st 548); (47, tr560);
    (58, tr576); (59, st 520); (61, st 520); (63, tr562); (64, tr263);
    (95, st 520); (126, st 520)]
  (if c <? 48 then
    if (36 <=? c) && (c <=? 45) then st 520
    else st 0
  else if 57 <? c then
    if 90 <? c then
      if (97 <=? c) && (c <=? 122) then st 520
      else st 0
    else if 65 <=? c then st 520
    else st 0
  else st 547).

Definition case_551 (c : Z) : transition action :=
  switch c [(33, st 520); (35, tr559); (37, st 253); (46, st 548); (47, tr560);
    (53, st 552); (58, tr576); (59, st 520); (61, st 520); (63, tr562);
    (64, tr263); (95, st 520); (126, st 520)]
  (if c <? 48 then
    if (36 <=? c) && (c <=? 45) then st 520
    else st 0
  else if 57 <? c then
    if 90 <? c then
      if (97 <=? c) && (c <=? 122) then st 520
      else st 0
    else if 65 <=? c then st 520
    else st 0
  else st 547).

Definition case_552 (c : Z) : transition action :=
  switch c [(33, st 520); (35, tr559); (37, st 253); (46, st 548); (47, tr560);
    (58, tr576); (61, st 520); (63, tr562); (64, tr263); (95, st 520);
    (126, st 520)]
  (if c <? 54 then
    if 45 <? c then
      if (48 <=? c) && (c <=? 53) then st 547
      else st 0
    else if 36 <=? c then st 520
    else st 0
  else if 59 <? c then
    if 90 <? c then
      if (97 <=? c) && (c <=? 122) then st 520
      else st 0
    else if 65 <=? c then st 520
    else st 0
  else st 520).

Definition case_553 (c : Z) : transition action :=
  switch c [(33, st 520); (35, tr559); (37, st 253); (46, st 546); (47, tr560);
    (58, tr576); (59, st 520); (61, st 520); (63, tr562); (64, tr263);
    (95, st 520); (126, st 520)]
  (if c <? 48 then
    if (36 <=? c) && (c <=? 45) then st 520
    else st 0
  else if 57 <? c then
    if 90 <? c then
      if (97 <=? c) && (c <=? 122) then st 520
      else st 0
    else if 65 <=? c then st 520
    else st 0
  else st 554).

Definition case_554 (c : Z) : transition action :=
  switch c [(33, st 520); (35, tr559); (37, st 253); (46, st 546); (47, tr560);
    (58, tr576); (59, st 520); (61, st 520); (63, tr562); (64, tr263);
    (95, st 520); (126, st 520)]
  (if c <? 48 then
    if (36 <=? c) && (c <=? 45) then st 520
    else st 0
  else if 57 <? c then
    if 90 <? c then
      if (97 <=? c) && (c <=? 122) then st 520
      else st 0
    else if 65 <=? c then st 520
    else st 0
  else st 545).

Definition case_555 (c : Z) : transition action :=
  switch c [(33, st 520); (35, tr559); (37, st 253); (46, st 546); (47, tr560);
    (53, st 556); (58, tr576); (59, st 520); (61, st 520); (63, tr562);
    (64, tr263); (95, st 520); (126, st 520)]
  (if c <? 48 then
    if (36 <=? c) && (c <=? 45) then st 520
    else st 0
  else if 57 <? c then
    if 90 <? c then
      if (97 <=? c) && (c <=? 122) then st 520
      else st 0
    else if 65 <=? c then st 520
    else st 0
  else st 545).

Definition case_556 (c : Z) : transition action :=
  switch c [(33, st 520); (35, tr559); (37, st 253); (46, st 546); (47, tr560);
    (58, tr576); (61, st 520); (63, tr562); (64, tr263); (95, st 520);
    (126, st 520)]
  (if c <? 54 then
    if 45 <? c then
      if (48 <=? c) && (c <=? 53) then st 545
      else st 0
    else if 36 <=? c then st 520
    else st 0
  else if 59 <? c then
    if 90 <? c then
      if (97 <=? c) && (c <=? 122) then st 520
      else st 0
    else if 65 <=? c then st 520
    else st 0
  else st 520).

Definition case_557 (c : Z) : transition action :=
  switch c [(33, st 520); (35, tr559); (37, st 253); (46, st 544); (47, tr560);
    (58, tr576); (59, st 520); (61, st 520); (63, tr562); (64, tr263);
    (95, st 520); (126, st 520)]
  (if c <? 48 then
    if (36 <=? c) && (c <=? 45) then st 520
    else st 0
  else if 57 <? c then
    if 90 <? c then
      if (97 <=? c) && (c <=? 122) then st 520
      else st 0
    else if 65 <=? c then st 520
    else st 0
  else st 558).

Definition case_558 (c : Z) : transition action :=
  switch c [(33, st 520); (35, tr559); (37, st 253); (46, st 544); (47, tr560);
    (58, tr576); (59, st 520); (61, st 520); (63, tr562); (64, tr263);
    (95, st 520); (126, st 520)]
  (if c <? 48 then
    if (36 <=? c) && (c <=? 45) then st 520
    else st 0
  else if 57 <? c then
    if 90 <? c then
      if (97 <=? c) && (c <=? 122) then st 520
      else st 0
    else if 65 <=? c then st 520
    else st 0
  else st 543).

Definition case_559 (c : Z) : transition action :=
  switch c [(33, st 520); (35, tr559); (37, st 253); (46, st 544); (47, tr560);
    (53, st 560); (58, tr576); (59, st 520); (61, st 520); (63, tr562);
    (64, tr263); (95, st 520); (126, st 520)]
  (if c <? 48 then
    if (36 <=? c) && (c <=? 45) then st 520
    else st 0
  else if 57 <? c then
    if 90 <? c then
      if (97 <=? c) && (c <=? 122) then st 520
      else st 0
    else if 65 <=? c then st 520
    else st 0
  else st 543).

Definition case_560 (c : Z) : transition action :=
  switch c [(33, st 520); (35, tr559); (37, st 253); (46, st 544); (47, tr560);
    (58, tr576); (61, st 520); (63, tr562); (64, tr263); (95, st 520);
    (126, st 520)]
  (if c <? 54 then
    if 45 <? c then
      if (48 <=? c) && (c <=? 53) then st 543
      else st 0
    else if 36 <=? c then st 520
    else st 0
  else if 59 <? c then
    if 90 <? c then
      if (97 <=? c) && (c <=? 122) then st 520
      else st 0
    else if 65 <=? c then st 520
    else st 0
  else st 520).

(** [switch ( cs )]: a value without a case falls through to _test_eof452. *)
Definition dispatch (cs c : Z) : option (transition action) :=
  match cs with
  | 1 => Some (case_1 c)
  | 2 => Some (case_2 c)
  | 3 => Some (case_3 c)
  | 4 => Some (case_4 c)
  | 5 => Some (case_5 c)
  | 6 => Some (case_6 c)
  | 7 => Some (case_7 c)
  | 8 => Some (case_8 c)
  | 9 => Some (case_9 c)
  | 10 => Some (case_10 c)
  | 11 => Some (case_11 c)
  | 12 => Some (case_12 c)
  | 13 => Some (case_13 c)
  | 14 => Some (case_14 c)
  | 15 => Some (case_15 c)
  | 16 => Some (case_16 c)
  | 17 => Some (case_17 c)
  | 18 => Some (case_18 c)
  | 19 => Some (case_19 c)
  | 20 => Some (case_20 c)
  | 21 => Some (case_21 c)
  | 22 => Some (case_22 c)
  | 23 => Some (case_23 c)
  | 24 => Some (case_24 c)
  | 25 => Some (case_25 c)
  | 26 => Some (case_26 c)
  | 27 => Some (case_27 c)
  | 28 => Some (case_28 c)
  | 29 => Some (case_29 c)
  | 30 => Some (case_30 c)
  | 31 => Some (case_31 c)
  | 32 => Some (case_32 c)
  | 33 => Some (case_33 c)
  | 34 => Some (case_34 c)
  | 35 => Some (case_35 c)
  | 36 => Some (case_36 c)
  | 37 => Some (case_37 c)
  | 38 => Some (case_38 c)
  | 39 => Some (case_39 c)
  | 40 => Some (case_40 c)
  | 41 => Some (case_41 c)
  | 42 => Some (case_42 c)
  | 43 => Some (case_43 c)
  | 44 => Some (case_44 c)
  | 45 => Some (case_45 c)
  | 46 => Some (case_46 c)
  | 47 => Some (case_47 c)
  | 48 => Some (case_48 c)
  | 49 => Some (case_49 c)
  | 50 => Some (case_50 c)
  | 51 => Some (case_51 c)
  | 52 => Some (case_52 c)
  | 53 => Some (case_53 c)
  | 54 => Some (case_54 c)
  | 55 => Some (case_55 c)
  | 56 => Some (case_56 c)
  | 57 => Some (case_57 c)
  | 58 => Some (case_58 c)
  | 59 => Some (case_59 c)
  | 60 => Some (case_60 c)
  | 61 => Some (case_61 c)
  | 62 => Some (case_62 c)
  | 63 => Some (case_63 c)
  | 64 => Some (case_64 c)
  | 65 => Some (case_65 c)
  | 66 => Some (case_66 c)
  | 67 => Some (case_67 c)
  | 68 => Some (case_68 c)
  | 69 => Some (case_69 c)
  | 70 => Some (case_70 c)
  | 71 => Some (case_71 c)
  | 72 => Some (case_72 c)
  | 73 => Some (case_73 c)
  | 74 => Some (case_74 c)
  | 75 => Some (case_75 c)
  | 76 => Some (case_76 c)
  | 77 => Some (case_77 c)
  | 78 => Some (case_78 c)
  | 79 => Some (case_79 c)
  | 80 => Some (case_80 c)
  | 81 => Some (case_81 c)
  | 82 => Some (case_82 c)
  | 83 => Some (case_83 c)
  | 84 => Some (case_84 c)
  | 85 => Some (case_85 c)
  | 86 => Some (case_86 c)
  | 87 => Some (case_87 c)
  | 88 => Some (case_88 c)
  | 89 => Some (case_89 c)
  | 90 => Some (case_90 c)
  | 91 => Some (case_91 c)
  | 92 => Some (case_92 c)
  | 93 => Some (case_93 c)
  | 94 => Some (case_94 c)
  | 95 => Some (case_95 c)
  | 96 => Some (case_96 c)
  | 97 => Some (case_97 c)
  | 98 => Some (case_98 c)
  | 99 => Some (case_99 c)
  | 100 => Some (case_100 c)
  | 101 => Some (case_101 c)
  | 102 => Some (case_102 c)
  | 103 => Some (case_103 c)
  | 104 => Some (case_104 c)
  | 105 => Some (case_105 c)
  | 106 => Some (case_106 c)
  | 107 => Some (case_107 c)
  | 108 => Some (case_108 c)
  | 109 => Some (case_109 c)
  | 110 => Some (case_110 c)
  | 111 => Some (case_111 c)
  | 112 => Some (case_112 c)
  | 113 => Some (case_113 c)
  | 114 => Some (case_114 c)
  | 115 => Some (case_115 c)
  | 116 => Some (case_116 c)
  | 117 => Some (case_117 c)
  | 118 => Some (case_118 c)
  | 119 => Some (case_119 c)
  | 120 => Some (case_120 c)
  | 121 => Some (case_121 c)
  | 122 => Some (case_122 c)
  | 123 => Some (case_123 c)
  | 124 => Some (case_124 c)
  | 125 => Some (case_125 c)
  | 126 => Some (case_126 c)
  | 127 => Some (case_127 c)
  | 128 => Some (case_128 c)
  | 129 => Some (case_129 c)
  | 130 => Some (case_130 c)
  | 131 => Some (case_131 c)
  | 132 => Some (case_132 c)
  | 133 => Some (case_133 c)
  | 134 => Some (case_134 c)
  | 135 => Some (case_135 c)
  | 136 => Some (case_136 c)
  | 137 => Some (case_137 c)
  | 138 => Some (case_138 c)
  | 139 => Some (case_139 c)
  | 140 => Some (case_140 c)
  | 141 => Some (case_141 c)
  | 142 => Some (case_142 c)
  | 143 => Some (case_143 c)
  | 144 => Some (case_144 c)
  | 145 => Some (case_145 c)
  | 146 => Some (case_146 c)
  | 147 => Some (case_147 c)
  | 148 => Some (case_148 c)
  | 149 => Some (case_149 c)
  | 150 => Some (case_150 c)
  | 151 => Some (case_151 c)
  | 152 => Some (case_152 c)
  | 153 => Some (case_153 c)
  | 154 => Some (case_154 c)
  | 155 => Some (case_155 c)
  | 156 => Some (case_156 c)
  | 157 => Some (case_157 c)
  | 158 => Some (case_158 c)
  | 159 => Some (case_159 c)
  | 160 => Some (case_160 c)
  | 161 => Some (case_161 c)
  | 162 => Some (case_162 c)
  | 163 => Some (case_163 c)
  | 164 => Some (case_164 c)
  | 165 => Some (case_165 c)
  | 166 => Some (case_166 c)
  | 167 => Some (case_167 c)
  | 168 => Some (case_168 c)
  | 169 => Some (case_169 c)
  | 170 => Some (case_170 c)
  | 171 => Some (case_171 c)
  | 172 => Some (case_172 c)
  | 173 => Some (case_173 c)
  | 174 => Some (case_174 c)
  | 175 => Some (case_175 c)
  | 176 => Some (case_176 c)
  | 177 => Some (case_177 c)
  | 178 => Some (case_178 c)
  | 179 => Some (case_179 c)
  | 180 => Some (case_180 c)
  | 181 => Some (case_181 c)
  | 182 => Some (case_182 c)
  | 183 => Some (case_183 c)
  | 184 => Some (case_184 c)
  | 185 => Some (case_185 c)
  | 186 => Some (case_186 c)
  | 187 => Some (case_187 c)
  | 188 => Some (case_188 c)
  | 189 => Some (case_189 c)
  | 190 => Some (case_190 c)
  | 191 => Some (case_191 c)
  | 192 => Some (case_192 c)
  | 193 => Some (case_193 c)
  | 194 => Some (case_194 c)
  | 195 => Some (case_195 c)
  | 196 => Some (case_196 c)
  | 197 => Some (case_197 c)
  | 198 => Some (case_198 c)
  | 199 => Some (case_199 c)
  | 200 => Some (case_200 c)
  | 201 => Some (case_201 c)
  | 202 => Some (case_202 c)
  | 203 => Some (case_203 c)
  | 204 => Some (case_204 c)
  | 205 => Some (case_205 c)
  | 206 => Some (case_206 c)
  | 207 => Some (case_207 c)
  | 208 => Some (case_208 c)
  | 209 => Some (case_209 c)
  | 210 => Some (case_210 c)
  | 211 => Some (case_211 c)
  | 212 => Some (case_212 c)
  | 213 => Some (case_213 c)
  | 214 => Some (case_214 c)
  | 215 => Some (case_215 c)
  | 216 => Some (case_216 c)
  | 217 => Some (case_217 c)
  | 218 => Some (case_218 c)
  | 219 => Some (case_219 c)
  | 220 => Some (case_220 c)
  | 221 => Some (case_221 c)
  | 222 => Some (case_222 c)
  | 223 => Some (case_223 c)
  | 224 => Some (case_224 c)
  | 225 => Some (case_225 c)
  | 226 => Some (case_226 c)
  | 227 => Some (case_227 c)
  | 228 => Some (case_228 c)
  | 229 => Some (case_229 c)
  | 230 => Some (case_230 c)
  | 231 => Some (case_231 c)
  | 232 => Some (case_232 c)
  | 233 => Some (case_233 c)
  | 234 => Some (case_234 c)
  | 235 => Some (case_235 c)
  | 236 => Some (case_236 c)
  | 237 => Some (case_237 c)
  | 238 => Some (case_238 c)
  | 239 => Some (case_239 c)
  | 240 => Some (case_240 c)
  | 241 => Some (case_241 c)
  | 242 => Some (case_242 c)
  | 243 => Some (case_243 c)
  | 244 => Some (case_244 c)
  | 245 => Some (case_245 c)
  | 246 => Some (case_246 c)
  | 247 => Some (case_247 c)
  | 248 => Some (case_248 c)
  | 249 => Some (case_249 c)
  | 250 => Some (case_250 c)
  | 251 => Some (case_251 c)
  | 252 => Some (case_252 c)
  | 253 => Some (case_253 c)
  | 254 => Some (case_254 c)
  | 255 => Some (case_255 c)
  | 256 => Some (case_256 c)
  | 257 => Some (case_257 c)
  | 258 => Some (case_258 c)
  | 259 => Some (case_259 c)
  | 260 => Some (case_260 c)
  | 261 => Some (case_261 c)
  | 262 => Some (case_262 c)
  | 263 => Some (case_263 c)
  | 264 => Some (case_264 c)
  | 265 => Some (case_265 c)
  | 266 => Some (case_266 c)
  | 267 => Some (case_267 c)
  | 268 => Some (case_268 c)
  | 269 => Some (case_269 c)
  | 270 => Some (case_270 c)
  | 271 => Some (case_271 c)
  | 272 => Some (case_272 c)
  | 273 => Some (case_273 c)
  | 274 => Some (case_274 c)
  | 275 => Some (case_275 c)
  | 276 => Some (case_276 c)
  | 277 => Some (case_277 c)
  | 278 => Some (case_278 c)
  | 279 => Some (case_279 c)
  | 280 => Some (case_280 c)
  | 281 => Some (case_281 c)
  | 282 => Some (case_282 c)
  | 283 => Some (case_283 c)
  | 284 => Some (case_284 c)
  | 285 => Some (case_285 c)
  | 286 => Some (case_286 c)
  | 287 => Some (case_287 c)
  | 288 => Some (case_288 c)
  | 289 => Some (case_289 c)
  | 290 => Some (case_290 c)
  | 291 => Some (case_291 c)
  | 292 => Some (case_292 c)
  | 293 => Some (case_293 c)
  | 294 => Some (case_294 c)
  | 295 => Some (case_295 c)
  | 296 => Some (case_296 c)
  | 297 => Some (case_297 c)
  | 298 => Some (case_298 c)
  | 299 => Some (case_299 c)
  | 300 => Some (case_300 c)
  | 301 => Some (case_301 c)
  | 302 => Some (case_302 c)
  | 303 => Some (case_303 c)
  | 304 => Some (case_304 c)
  | 305 => Some (case_305 c)
  | 306 => Some (case_306 c)
  | 307 => Some (case_307 c)
  | 308 => Some (case_308 c)
  | 309 => Some (case_309 c)
  | 310 => Some (case_310 c)
  | 311 => Some (case_311 c)
  | 312 => Some (case_312 c)
  | 313 => Some (case_313 c)
  | 314 => Some (case_314 c)
  | 315 => Some (case_315 c)
  | 316 => Some (case_316 c)
  | 317 => Some (case_317 c)
  | 318 => Some (case_318 c)
  | 319 => Some (case_319 c)
  | 320 => Some (case_320 c)
  | 321 => Some (case_321 c)
  | 322 => Some (case_322 c)
  | 323 => Some (case_323 c)
  | 324 => Some (case_324 c)
  | 325 => Some (case_325 c)
  | 326 => Some (case_326 c)
  | 327 => Some (case_327 c)
  | 328 => Some (case_328 c)
  | 329 => Some (case_329 c)
  | 330 => Some (case_330 c)
  | 331 => Some (case_331 c)
  | 332 => Some (case_332 c)
  | 333 => Some (case_333 c)
  | 334 => Some (case_334 c)
  | 335 => Some (case_335 c)
  | 336 => Some (case_336 c)
  | 337 => Some (case_337 c)
  | 338 => Some (case_338 c)
  | 339 => Some (case_339 c)
  | 340 => Some (case_340 c)
  | 341 => Some (case_341 c)
  | 342 => Some (case_342 c)
  | 343 => Some (case_343 c)
  | 344 => Some (case_344 c)
  | 345 => Some (case_345 c)
  | 346 => Some (case_346 c)
  | 347 => Some (case_347 c)
  | 348 => Some (case_348 c)
  | 349 => Some (case_349 c)
  | 350 => Some (case_350 c)
  | 351 => Some (case_351 c)
  | 352 => Some (case_352 c)
  | 353 => Some (case_353 c)
  | 354 => Some (case_354 c)
  | 355 => Some (case_355 c)
  | 356 => Some (case_356 c)
  | 357 => Some (case_357 c)
  | 358 => Some (case_358 c)
  | 359 => Some (case_359 c)
  | 360 => Some (case_360 c)
  | 361 => Some (case_361 c)
  | 362 => Some (case_362 c)
  | 363 => Some (case_363 c)
  | 364 => Some (case_364 c)
  | 365 => Some (case_365 c)
  | 366 => Some (case_366 c)
  | 367 => Some (case_367 c)
  | 368 => Some (case_368 c)
  | 369 => Some (case_369 c)
  | 370 => Some (case_370 c)
  | 371 => Some (case_371 c)
  | 372 => Some (case_372 c)
  | 373 => Some (case_373 c)
  | 374 => Some (case_374 c)
  | 375 => Some (case_375 c)
  | 376 => Some (case_376 c)
  | 377 => Some (case_377 c)
  | 378 => Some (case_378 c)
  | 379 => Some (case_379 c)
  | 380 => Some (case_380 c)
  | 381 => Some (case_381 c)
  | 382 => Some (case_382 c)
  | 383 => Some (case_383 c)
  | 384 => Some (case_384 c)
  | 385 => Some (case_385 c)
  | 386 => Some (case_386 c)
  | 387 => Some (case_387 c)
  | 388 => Some (case_388 c)
  | 389 => Some (case_389 c)
  | 390 => Some (case_390 c)
  | 391 => Some (case_391 c)
  | 392 => Some (case_392 c)
  | 393 => Some (case_393 c)
  | 394 => Some (case_394 c)
  | 395 => Some (case_395 c)
  | 396 => Some (case_396 c)
  | 397 => Some (case_397 c)
  | 398 => Some (case_398 c)
  | 399 => Some (case_399 c)
  | 400 => Some (case_400 c)
  | 401 => Some (case_401 c)
  | 402 => Some (case_402 c)
  | 403 => Some (case_403 c)
  | 404 => Some (case_404 c)
  | 405 => Some (case_405 c)
  | 406 => Some (case_406 c)
  | 407 => Some (case_407 c)
  | 408 => Some (case_408 c)
  | 409 => Some (case_409 c)
  | 410 => Some (case_410 c)
  | 411 => Some (case_411 c)
  | 412 => Some (case_412 c)
  | 413 => Some (case_413 c)
  | 414 => Some (case_414 c)
  | 415 => Some (case_415 c)
  | 416 => Some (case_416 c)
  | 417 => Some (case_417 c)
  | 418 => Some (case_418 c)
  | 419 => Some (case_419 c)
  | 420 => Some (case_420 c)
  | 421 => Some (case_421 c)
  | 422 => Some (case_422 c)
  | 423 => Some (case_423 c)
  | 424 => Some (case_424 c)
  | 425 => Some (case_425 c)
  | 426 => Some (case_426 c)
  | 427 => Some (case_427 c)
  | 428 => Some (case_428 c)
  | 429 => Some (case_429 c)
  | 430 => Some (case_430 c)
  | 431 => Some (case_431 c)
  | 432 => Some (case_432 c)
  | 433 => Some (case_433 c)
  | 434 => Some (case_434 c)
  | 435 => Some (case_435 c)
  | 436 => Some (case_436 c)
  | 437 => Some (case_437 c)
  | 438 => Some (case_438 c)
  | 439 => Some (case_439 c)
  | 440 => Some (case_440 c)
  | 441 => Some (case_441 c)
  | 442 => Some (case_442 c)
  | 443 => Some (case_443 c)
  | 444 => Some (case_444 c)
  | 445 => Some (case_445 c)
  | 446 => Some (case_446 c)
  | 447 => Some (case_447 c)
  | 448 => Some (case_448 c)
  | 449 => Some (case_449 c)
  | 450 => Some (case_450 c)
  | 451 => Some (case_451 c)
  | 452 => Some (case_452 c)
  | 453 => Some (case_453 c)
  | 454 => Some (case_454 c)
  | 455 => Some (case_455 c)
  | 456 => Some (case_456 c)
  | 457 => Some (case_457 c)
  | 458 => Some (case_458 c)
  | 459 => Some (case_459 c)
  | 460 => Some (case_460 c)
  | 461 => Some (case_461 c)
  | 462 => Some (case_462 c)
  | 463 => Some (case_463 c)
  | 464 => Some (case_464 c)
  | 465 => Some (case_465 c)
  | 466 => Some (case_466 c)
  | 467 => Some (case_467 c)
  | 468 => Some (case_468 c)
  | 469 => Some (case_469 c)
  | 470 => Some (case_470 c)
  | 471 => Some (case_471 c)
  | 472 => Some (case_472 c)
  | 473 => Some (case_473 c)
  | 474 => Some (case_474 c)
  | 475 => Some (case_475 c)
  | 476 => Some (case_476 c)
  | 477 => Some (case_477 c)
  | 478 => Some (case_478 c)
  | 479 => Some (case_479 c)
  | 480 => Some (case_480 c)
  | 481 => Some (case_481 c)
  | 482 => Some (case_482 c)
  | 483 => Some (case_483 c)
  | 484 => Some (case_484 c)
  | 485 => Some (case_485 c)
  | 486 => Some (case_486 c)
  | 487 => Some (case_487 c)
  | 488 => Some (case_488 c)
  | 489 => Some (case_489 c)
  | 490 => Some (case_490 c)
  | 491 => Some (case_491 c)
  | 492 => Some (case_492 c)
  | 493 => Some (case_493 c)
  | 494 => Some (case_494 c)
  | 495 => Some (case_495 c)
  | 496 => Some (case_496 c)
  | 497 => Some (case_497 c)
  | 498 => Some (case_498 c)
  | 499 => Some (case_499 c)
  | 500 => Some (case_500 c)
  | 501 => Some (case_501 c)
  | 502 => Some (case_502 c)
  | 503 => Some (case_503 c)
  | 504 => Some (case_504 c)
  | 505 => Some (case_505 c)
  | 506 => Some (case_506 c)
  | 507 => Some (case_507 c)
  | 508 => Some (case_508 c)
  | 509 => Some (case_509 c)
  | 510 => Some (case_510 c)
  | 511 => Some (case_511 c)
  | 512 => Some (case_512 c)
  | 513 => Some (case_513 c)
  | 514 => Some (case_514 c)
  | 515 => Some (case_515 c)
  | 516 => Some (case_516 c)
  | 517 => Some (case_517 c)
  | 518 => Some (case_518 c)
  | 519 => Some (case_519 c)
  | 520 => Some (case_520 c)
  | 521 => Some (case_521 c)
  | 522 => Some (case_522 c)
  | 523 => Some (case_523 c)
  | 524 => Some (case_524 c)
  | 525 => Some (case_525 c)
  | 526 => Some (case_526 c)
  | 527 => Some (case_527 c)
  | 528 => Some (case_528 c)
  | 529 => Some (case_529 c)
  | 530 => Some (case_530 c)
  | 531 => Some (case_531 c)
  | 532 => Some (case_532 c)
  | 533 => Some (case_533 c)
  | 534 => Some (case_534 c)
  | 535 => Some (case_535 c)
  | 536 => Some (case_536 c)
  | 537 => Some (case_537 c)
  | 538 => Some (case_538 c)
  | 539 => Some (case_539 c)
  | 540 => Some (case_540 c)
  | 541 => Some (case_541 c)
  | 542 => Some (case_542 c)
  | 543 => Some (case_543 c)
  | 544 => Some (case_544 c)
  | 545 => Some (case_545 c)
  | 546 => Some (case_546 c)
  | 547 => Some (case_547 c)
  | 548 => Some (case_548 c)
  | 549 => Some (case_549 c)
  | 550 => Some (case_550 c)
  | 551 => Some (case_551 c)
  | 552 => Some (case_552 c)
  | 553 => Some (case_553 c)
  | 554 => Some (case_554 c)
  | 555 => Some (case_555 c)
  | 556 => Some (case_556 c)
  | 557 => Some (case_557 c)
  | 558 => Some (case_558 c)
  | 559 => Some (case_559 c)
  | 560 => Some (case_560 c)
  | _ => None
  end.
Definition fallthrough : Z := 452.

(** The labels are closed under [dispatch]: the states that have a case. *)
Definition states : list Z := seqZ 1 560.

(** The switch on the state when [p == eof]. *)
Definition eof_actions (cs : Z) : list action :=
  match cs with
  | 462 | 489 => [SavePort]
  | 460 | 463 | 464 | 465 | 466 | 467 | 470 | 471 | 472 | 473 | 474 | 475 | 476 | 477
  | 478 | 479 | 480 | 481 | 482 | 483 | 484 | 485 | 486 | 487 | 488 | 490 | 491 | 492
  | 493 | 494 | 495 | 496 | 497 | 498 | 499 | 500 | 501 | 502 | 503 | 504 | 505 | 506
  | 507 => [SaveHost]
  | 513 => [SavePath]
  | 457 => [SaveQuery]
  | 454 => [SaveFragment]
  | 456 => [Marku; SaveQuery]
  | 453 => [Marku; SaveFragment]
  | 461 | 468 => [Markh; SavePort]
  | 459 | 469 => [Markh; SaveHost]
  | 514 | 521 => [Markh; SavePort; SavePath]
  | 511 | 522 => [Markh; SaveHost; SavePath]
  | 515 | 542 => [SavePort; Markh; SavePath]
  | 512 | 516 | 517 | 518 | 519 | 520 | 523 | 524 | 525 | 526 | 527 | 528 | 529 | 530
  | 531 | 532 | 533 | 534 | 535 | 536 | 537 | 538 | 539 | 540 | 541 | 543 | 544 | 545
  | 546 | 547 | 548 | 549 | 550 | 551 | 552 | 553 | 554 | 555 | 556 | 557 | 558 | 559
  | 560 => [SaveHost; Markh; SavePath]
  | _ => []
  end.
