(* ===== verification/UriParser.v ===== *)
(** * Parsing a URI (uri.rl.cc)

    [Uri::Create]: the machine of UriMachine.v run over the whole string, with the
    actions of uri.rl and those at the end of the input. [mark] is a pointer into the
    string, or null. The theorems say when a null mark is used, and that a printed
    URI is parsed to what was printed. *)
From stdpp Require Import base tactics option list strings pretty numbers.
From S2P Require Import Prelude CString Http Uri Dfa UriMachine.

Open Scope string_scope.
Open Scope Z_scope.

#[local] Arguments String.append !_ _ : simpl nomatch.

(** The local variables of [Create] that the actions change. *)
Record parse_state := mkState { mark : option Z; uri : Uri }.

Definition set_mark (m : option Z) (s : parse_state) : parse_state := mkState m (uri s).
Definition set_uri (f : Uri -> Uri) (s : parse_state) : parse_state := mkState (mark s) (f (uri s)).

Section Create.
Context (uristr : string).

(** [std::string(mark, fpc - mark)] of a mark that must not be null. *)
Definition marked (s : parse_state) (p : Z) : res string :=
  m ← deref NullDeref (mark s);
  std_string (str_drop (Z.to_nat m) uristr) (u64 (p - m)).

(** [fpc != mark], then [atoi(mark)]: it reads up to the NUL behind the string. *)
Definition save_port (s : parse_state) (p : Z) : res parse_state :=
  s ← (if decide (mark s = Some p) then Val s
       else m ← deref NullDeref (mark s);
            mret (set_uri (setPort (atoi (str_drop (Z.to_nat m) uristr))) s));
  mret (set_mark None s).

(** [if(mark) uri->f(std::string(mark, fpc - mark))] *)
Definition save_if (f : string -> Uri -> Uri) (s : parse_state) (p : Z) : res parse_state :=
  match mark s with
  | Some _ => v ← marked s p; mret (set_uri (f v) s)
  | None => mret s
  end.

Definition save (f : string -> Uri -> Uri) (s : parse_state) (p : Z) : res parse_state :=
  v ← marked s p; mret (set_mark None (set_uri (f v) s)).

Definition act (a : action) (p : Z) (s : parse_state) : res parse_state :=
  match a with
  | Marku | Markh => mret (set_mark (Some p) s)
  | SaveScheme => save setScheme s p
  | SavePort => save_port s p
  | SaveUserinfo => s ← save_if setUserinfo s p; mret (set_mark None s)
  | SaveHost => save_if setHost s p
  | SavePath => save setPath s p
  | SaveQuery => save setQuery s p
  | SaveFragment => save setFragment s p
  end.

(** [Uri::Create(uristr)]: [None] is the null pointer. *)
Definition Uri_Create : res (option Uri) :=
  '(cs, p, s) ← run dispatch fallthrough act uri_parser_start 0 uristr (mkState None Uri_new);
  s ← (if p =? Z.of_nat (String.length uristr) then do_acts act (eof_actions cs) p s else mret s);
  mret (if cs =? uri_parser_error then None
        else if uri_parser_first_final <=? cs then Some (uri s) else None).
End Create.

Example create_full :
  Uri_Create "http://me@example.org:8080/a/b?x=1#top" =
    Val (Some (mkUri "http" "me" "example.org" 8080 "/a/b" "x=1" "top")).
Proof. by vm_compute. Qed.
Example create_empty_port : Uri_Create "http://host:/" = Bad NullDeref.
Proof. by vm_compute. Qed.

(** ** Marks *)

(** The states in which the mark is set, those of an authority behind "scheme://",
    and those behind the colon of a port still empty. *)
Definition marked_state : Z -> bool :=
  within [(1, 2); (7, 450); (454, 454); (457, 457); (460, 468); (470, 508); (512, 521);
    (523, 560)].
Definition authority_state : Z -> bool := within [(229, 242); (245, 450); (511, 512); (514, 560)].
Definition port_state : Z -> bool := within [(514, 514); (521, 521)].
Definition delimiter : Ascii.ascii -> bool := one_of "/?#".

(** Is the mark set after an action, if it was before? [None]: the action needs it. *)
Definition flow (m : option bool) (a : action) : option bool :=
  m ← m;
  match a with
  | Marku | Markh => Some true
  | SaveScheme | SavePort | SavePath | SaveQuery | SaveFragment => if m : bool then Some false else None
  | SaveUserinfo => Some false
  | SaveHost => Some m
  end.

Definition transition_ok (q : Z) (c : Ascii.ascii) (t : transition action) : bool :=
  (port_state q && delimiter c ||
   match foldl flow (Some (marked_state q)) (acts t) with
   | Some m => implb (marked_state (target t)) m
   | None => false
   end)
  && negb (brk t) && ((0 <=? target t) && (target t <=? 560))
  && implb (authority_state (target t))
       (authority_state q && negb (delimiter c) || (q =? 510) && one_of "/" c)
  && implb (target t =? 510) (one_of "/" c)
  && implb (port_state (target t)) (one_of ":" c).

Lemma uri_transitions_ok q c :
  1 <= q <= 560 -> exists t, dispatch q (schar c) = Some t /\ transition_ok q c t = true.
Proof.
  intros Hq.
  assert (H : table (fun q c => match dispatch q (schar c) with
      | Some t => transition_ok q c t | None => false end) states = true)
    by (vm_compute; reflexivity).
  apply (table_spec _ _ q c) in H; [|unfold states; rewrite elem_of_seqZ; lia].
  cbv beta in H. destruct (dispatch q (schar c)) as [t|]; [by exists t|done].
Qed.

(** At the end of the input the actions find their mark, but behind an empty port. *)
Lemma eof_ok q :
  1 <= q <= 560 -> port_state q = false -> is_Some (foldl flow (Some (marked_state q)) (eof_actions q)).
Proof.
  intros Hq Hp.
  assert (H : forallb (fun q => port_state q ||
    bool_decide (is_Some (foldl flow (Some (marked_state q)) (eof_actions q)))) states = true)
    by (vm_compute; reflexivity).
  apply (forall_range _ _ _ q) in H; [|lia]. cbv beta in H. rewrite Hp in H.
  by apply bool_decide_eq_true in H.
Qed.

(** No port of the string is empty: in what follows a "//" up to the next "/", "?",
    "#" or the end, a last colon has something behind it. *)
Definition no_empty_port (s : string) : Prop :=
  forall pre a rest, s = pre ++ "//" ++ a ++ ":" ++ rest ->
    chars (fun c => negb (delimiter c)) a = true ->
    match rest with EmptyString => False | String c _ => delimiter c = false end.

Local Abbreviation len s := (Z.of_nat (String.length s)).

Section Marks.
Context (text : string) (Htext : len text < 2 ^ 31).

Definition mark_ok (m : bool) (p : Z) (s : parse_state) : Prop :=
  (forall z, mark s = Some z -> 0 <= z <= p) /\ (m = true -> is_Some (mark s)).

Lemma marked_ok p s : p <= len text -> mark_ok true p s -> exists v, marked text s p = Val v.
Proof.
  intros Hp [Hm Hs]. destruct (Hs eq_refl) as [z Hz]. specialize (Hm z Hz).
  unfold marked. rewrite Hz. cbn [deref mbind res_bind]. unfold std_string.
  rewrite wrap_small by (unfold in_u; lia). rewrite str_drop_length.
  rewrite (proj2 (Z.leb_gt _ _)), (proj2 (Z.ltb_ge _ _)) by lia. by eexists.
Qed.

Lemma uri_act_ok a p s m m' :
  0 <= p <= len text -> mark_ok m p s -> flow (Some m) a = Some m' ->
  exists s', act text a p s = Val s' /\ mark_ok m' p s'.
Proof.
  intros Hp Hs Hf.
  assert (Hsave : forall f, m = true -> exists s', save text f s p = Val s' /\ mark_ok false p s').
  { intros f ->. destruct (marked_ok p s ltac:(lia) Hs) as [v E]. unfold save. rewrite E.
    eexists. split; [reflexivity|]. by split. }
  assert (Hif : forall f, exists s', save_if text f s p = Val s' /\ mark s' = mark s).
  { intros f. unfold save_if. destruct (mark s) as [z|] eqn:Ez; [|by exists s].
    destruct (marked_ok p s) as [v E]; [lia|split; [apply Hs|by rewrite Ez]|].
    rewrite E. by eexists. }
  destruct a; cbn [flow mbind option_bind] in Hf; try (destruct m; [|done]); injection Hf as <-;
    cbn [act]; try (by apply Hsave).
  1,2: eexists; split; [reflexivity|]; split; [|by eexists]; intros z [= <-]; lia.
  - unfold save_port. case_decide; [eexists; split; [reflexivity|by split]|].
    destruct (proj2 Hs eq_refl) as [z Hz]. rewrite Hz. eexists. split; [reflexivity|by split].
  - destruct (Hif setUserinfo) as (s' & -> & _). eexists. split; [reflexivity|by split].
  - destruct (Hif setHost) as (s' & -> & E). exists s'. split; [done|].
    unfold mark_ok. by rewrite E.
Qed.

Lemma uri_acts_ok l p s m m' :
  0 <= p <= len text -> mark_ok m p s -> foldl flow (Some m) l = Some m' ->
  exists s', do_acts (act text) l p s = Val s' /\ mark_ok m' p s'.
Proof.
  intros Hp. revert s m. induction l as [|a l IH]; intros s m Hs Hf.
  { simpl in Hf. simplify_eq. by exists s. }
  cbn [foldl] in Hf. destruct (flow (Some m) a) as [m1|] eqn:Ha.
  - destruct (uri_act_ok a p s m m1 Hp Hs Ha) as (s1 & E & Hs1). cbn [do_acts]. rewrite E.
    cbn [mbind res_bind]. by apply (IH s1 m1).
  - exfalso. clear -Hf. induction l as [|b l IH]; [done|]. by apply IH.
Qed.
Definition in_authority (pre : string) : Prop :=
  exists before a, pre = before ++ "//" ++ a /\ chars (fun c => negb (delimiter c)) a = true.
Definition after_colon (pre : string) : Prop :=
  exists before a, pre = before ++ "//" ++ a ++ ":" /\ chars (fun c => negb (delimiter c)) a = true.

(** What has been read when the machine is in state [q]. *)
Definition read_ok (q : Z) (pre : string) : Prop :=
  (authority_state q = true -> in_authority pre) /\
  (q = 510 -> exists before, pre = before ++ "/") /\
  (port_state q = true -> after_colon pre).

Lemma chars_snoc P s c : chars P s = true -> P c = true -> chars P (s ++ String c "") = true.
Proof. intros Hs Hc. rewrite chars_app, Hs. simpl. by rewrite Hc. Qed.

Lemma one_of_1 d c : one_of (String d "") c = true -> c = d.
Proof. unfold one_of. simpl. rewrite orb_false_r. apply Ascii.eqb_eq. Qed.

Lemma uri_read_step q pre c t :
  read_ok q pre -> transition_ok q c t = true -> read_ok (target t) (pre ++ String c "").
Proof.
  intros (Ha & H1 & _) Ht. unfold transition_ok in Ht. rewrite !andb_true_iff in Ht.
  destruct Ht as [[[_ Hauth] H510] Hport].
  assert (Hin : authority_state (target t) = true ->
    (authority_state q = true /\ delimiter c = false) \/ q = 510 /\ c = Ascii.ascii_of_nat 47).
  { intros E. rewrite E in Hauth. simpl in Hauth. apply orb_true_iff in Hauth.
    destruct Hauth as [[? ?%negb_true_iff]%andb_true_iff|[?%Z.eqb_eq ?%one_of_1]%andb_true_iff];
      [by left|by right]. }
  split; [|split].
  - intros [[Eq Hd]|[Eq ->]]%Hin.
    + destruct (Ha Eq) as (before & a & -> & Hc). exists before, (a ++ String c "").
      split; [by rewrite !string_app_assoc|]. apply chars_snoc; [done|by rewrite Hd].
    + destruct (H1 Eq) as [before ->]. exists before, "". split; [by rewrite string_app_assoc|done].
  - intros E. rewrite E in H510. apply one_of_1 in H510 as ->. by exists pre.
  - intros E. rewrite E in Hport. apply one_of_1 in Hport as ->.
    assert (E' : authority_state (target t) = true).
    { unfold port_state, within in E. simpl in E.
      assert (target t = 514 \/ target t = 521) as [-> | ->] by lia; reflexivity. }
    destruct (Hin E') as [[Eq _]|[_ ?]]; [|done].
    destruct (Ha Eq) as (before & a & -> & Hc). exists before, a.
    split; [by rewrite !string_app_assoc|done].
Qed.

Context (Hport : no_empty_port text).

Lemma run_ok q pre rest s :
  text = pre ++ rest -> 1 <= q <= 560 -> read_ok q pre -> mark_ok (marked_state q) (len pre) s ->
  exists q' p' s', run dispatch fallthrough (act text) q (len pre) rest s = Val (q', p', s') /\
    (p' = len text -> exists s2, do_acts (act text) (eof_actions q') p' s' = Val s2).
Proof.
  intros Etext. revert q pre s Etext. induction rest as [|c rest IH]; intros q pre s Etext Hq Hr Hm.
  { rewrite string_app_nil in Etext. exists q, (len pre), s. split; [done|]. intros _.
    destruct (port_state q) eqn:Ep.
    - destruct (proj2 (proj2 Hr) Ep) as (before & a & E & Hc).
      destruct (Hport before a "") as []; [|done]. by rewrite string_app_nil, Etext.
    - destruct (eof_ok q Hq Ep) as [m' Hm'].
      destruct (uri_acts_ok (eof_actions q) (len pre) s _ m' ltac:(subst; lia) Hm Hm') as (s2 & E & _).
      by exists s2. }
  destruct (uri_transitions_ok q c Hq) as (t & Hd & Ht).
  pose proof (uri_read_step q pre c t Hr Ht) as Hr'.
  unfold transition_ok in Ht. rewrite !andb_true_iff in Ht.
  destruct Ht as [[[[[Hflow Hb%negb_true_iff] [H0 H560]] _] _] _].
  assert (Hnp : port_state q && delimiter c = false).
  { apply andb_false_iff. destruct (port_state q) eqn:Ep; [right|by left].
    destruct (proj2 (proj2 Hr) Ep) as (before & a & E & Hc).
    apply (Hport before a (String c rest)); [|done].
    rewrite Etext, E, !string_app_assoc. done. }
  rewrite Hnp in Hflow. simpl in Hflow.
  destruct (foldl flow _ _) as [m'|] eqn:Hf; [|done].
  assert (Hlen : len pre < len text) by (rewrite Etext, string_length_app; simpl; lia).
  destruct (uri_acts_ok (acts t) (len pre) s _ m' ltac:(lia) Hm Hf) as (s1 & E1 & Hm1).
  cbn [run]. rewrite Hd, E1. cbn [mbind res_bind]. rewrite Hb.
  destruct (Z.eqb_spec (target t) 0) as [_|Hne].
  { exists 0, (len pre), s1. split; [done|]. lia. }
  assert (Ep : len pre + 1 = len (pre ++ String c "")) by (rewrite string_length_app; simpl; lia).
  rewrite Ep. apply IH; [by rewrite string_app_assoc|lia|done|].
  rewrite <- Ep. split.
  - intros z Hz. apply (proj1 Hm1) in Hz. lia.
  - intros Hmk. apply (proj2 Hm1). rewrite Hmk in Hflow. by destruct m'.
Qed.
End Marks.

Lemma one_of_or a b c : one_of (String a (String b "")) c = true -> c = a \/ c = b.
Proof.
  unfold one_of. simpl. rewrite orb_false_r. intros [?|?]%orb_true_iff; [left|right];
    by apply Ascii.eqb_eq.
Qed.

(** C28: [Uri::Create] never builds a string from a null mark, whatever the string,
    as long as no authority behind a "//" ends in a colon with nothing behind it: it
    returns a URI or the null pointer. *)
Theorem Create_returns (text : string) :
  len text < 2 ^ 31 -> no_empty_port text -> exists r, Uri_Create text = Val r.
Proof.
  intros Hlen Hport.
  destruct (run_ok text Hlen Hport uri_parser_start "" text (mkState None Uri_new))
    as (q & p & s & E & Heof).
  - done.
  - unfold uri_parser_start. lia.
  - by repeat split.
  - by split.
  - unfold Uri_Create. change 0 with (len ""). rewrite E. cbn [mbind res_bind].
    destruct (Z.eqb_spec p (len text)) as [Ep|_]; [|by eexists].
    destruct (Heof Ep) as [s2 E2]. rewrite E2. by eexists.
Qed.

Lemma Create_returns_witness :
  no_empty_port "//h:80/" /\ exists r, Uri_Create "//h:80/" = Val r.
Proof.
  assert (H : no_empty_port "//h:80/").
  { intros pre a rest E Ha. no_split. }
  split; [exact H|]. apply (Create_returns "//h:80/"); [reflexivity|exact H].
Defined.

(** ** A printed URI is parsed to what was printed *)

Definition scheme_char (c : Ascii.ascii) : bool := alpha c || digit c || one_of "+-." c.
Definition name_char (c : Ascii.ascii) : bool := unreserved c || sub_delims c.
Definition uri_pchar (c : Ascii.ascii) : bool := pchar c || (128 <=? code c).
Definition uri_path_char (c : Ascii.ascii) : bool := uri_pchar c || one_of "/" c.
Definition uri_query_char (c : Ascii.ascii) : bool := uri_pchar c || one_of "/?" c.

(** The URIs of "scheme://" whose host is a name or an IPv4 address, and whose user
    has no password. *)
Definition parsable (u : Uri) : bool :=
  match m_scheme u with String c t => alpha c && chars scheme_char t | "" => false end
  && pct_string name_char (m_userinfo u) && pct_string name_char (m_host u)
  && ((0 <=? m_port u) && (m_port u <? 2 ^ 31))
  && match m_path u with
     | String c t => Ascii.eqb c (Ascii.ascii_of_nat 47) && pct_string uri_path_char t
     | "" => true
     end
  && pct_string uri_query_char (m_query u) && pct_string uri_query_char (m_fragment u).

(** What the parser makes of [toString]: the port is stored if it is shown, and the
    path is at least "/". *)
Definition reparsed (u : Uri) : Uri :=
  setPath (getPath u) (setPort (if isDefaultPort u then 0 else m_port u) u).

Section RoundTrip.
Context (text : string) (Htext : len text < 2 ^ 31).
Local Abbreviation moves := (moves dispatch fallthrough (act text)).
Local Abbreviation at_ m u := (mkState (Some m) u).

Lemma marked_token pre tok post u :
  text = pre ++ tok ++ post ->
  marked text (at_ (len pre) u) (len (pre ++ tok)) = Val tok.
Proof.
  intros E. rewrite string_length_app. unfold marked. cbn [mark deref mbind res_bind].
  assert (Hl : len text = len pre + len tok + len post)
    by (rewrite E, !string_length_app; lia).
  rewrite wrap_small by (unfold in_u; lia).
  rewrite Nat2Z.inj_add, Z.add_simpl_l, E, Nat2Z.id. apply std_string_slice. lia.
Qed.

Lemma save_token f pre tok post u :
  text = pre ++ tok ++ post ->
  save text f (at_ (len pre) u) (len (pre ++ tok)) = Val (mkState None (f tok u)).
Proof. intros E. unfold save. by rewrite (marked_token pre tok post u E). Qed.

Lemma save_if_token f pre tok post u :
  text = pre ++ tok ++ post ->
  save_if text f (at_ (len pre) u) (len (pre ++ tok)) = Val (at_ (len pre) (f tok u)).
Proof. intros E. unfold save_if. cbn [mark]. by rewrite (marked_token pre tok post u E). Qed.

(** One character, the actions computed beforehand. *)
Lemma moves_char q p s c l q' s' :
  dispatch q (schar c) = Some (tr l q') -> q' <> 0 -> do_acts (act text) l p s = Val s' ->
  moves q p s (String c "") q' s'.
Proof. intros Hd Hq Ha. exact (moves_step _ _ _ _ _ _ _ (tr l q') s' Hd eq_refl Hq Ha). Qed.

Lemma moves_scheme c t post u :
  alpha c = true -> chars scheme_char t = true -> text = String c t ++ "://" ++ post ->
  moves 451 0 (mkState None u) (String c t ++ "://") 511 (mkState None (setScheme (String c t) u)).
Proof.
  intros Hc Ht E. change 0 with (len "").
  apply (moves_seq _ _ _ _ _ _ _ 508 (at_ (len "") u)).
  - eapply (moves_cons _ _ _ _ _ _ _ (tr [Marku] 508)).
    + by eapply (on_class_spec alpha); [vm_compute; reflexivity|].
    + done.
    + done.
    + reflexivity.
    + apply (moves_class _ _ _ scheme_char); [|done|exact Ht].
      intros d Hd. by eapply (on_class_spec scheme_char); [vm_compute; reflexivity|].
  - eapply (moves_cons _ _ _ _ _ _ _ (tr [SaveScheme] 509)); [reflexivity|done|done| |].
    + cbn [acts tr do_acts act mark set_mark].
      rewrite (save_token setScheme "" (String c t) ("://" ++ post)) by done. reflexivity.
    + eapply (moves_cons _ _ _ _ _ _ _ (st 510)); [reflexivity|done|done|reflexivity|].
      eapply (moves_cons _ _ _ _ _ _ _ (st 511)); [reflexivity|done|done|reflexivity|].
      apply moves_nil.
Qed.

(** The states of a name: [q0] in front of it, [Q] in it, [a] and [b] in a
  percent-encoded character, [port] behind the colon, [digits] in the port. *)
Record name_states := Names { n_start : Z; n_set : list Z; n_a : Z; n_b : Z; n_port : Z; n_digits : Z }.
Definition authority_names : name_states := Names 511 (520 :: seqZ 543 18) 253 254 521 542.
Definition host_names : name_states := Names 522 (seqZ 523 19) 258 259 514 515.

Definition names_ok (n : name_states) : bool :=
  closed dispatch name_char (n_set n) (n_a n) (n_b n)
  && enters dispatch name_char (n_start n) [Markh] (n_set n) (n_a n)
  && forallb (fun q => bool_decide (dispatch q 58 = Some (tr [SaveHost] (n_port n))) &&
       bool_decide (dispatch q 47 = Some (tr [SaveHost; Markh] 513))) (n_set n)
  && bool_decide (dispatch (n_start n) 58 = Some (tr [Markh; SaveHost] (n_port n)))
  && bool_decide (dispatch (n_start n) 47 = Some (tr [Markh; SaveHost] 513))
  && class_goes dispatch digit (n_port n) [Markh] [n_digits n]
  && class_goes dispatch digit (n_digits n) [] [n_digits n]
  && bool_decide (dispatch (n_digits n) 47 = Some (tr [SavePort; Markh] 513))
  && negb (n_port n =? 0) && negb (n_digits n =? 0).

(** A token of a name: the mark stands at its start. *)
Lemma uri_moves_name n pre tok m u :
  names_ok n = true -> tok <> "" -> pct_string name_char tok = true ->
  exists q, q ∈ n_set n /\
    moves (n_start n) (len pre) (mkState m u) tok q (at_ (len pre) u).
Proof.
  intros Hn Hne Hs. unfold names_ok in Hn. rewrite !andb_true_iff in Hn.
  apply (moves_enter dispatch fallthrough (act text) name_char (n_set n) (n_a n) (n_b n))
    with (cls0 := name_char) (l := [Markh]); try tauto. by apply pct_starts.
Qed.

Lemma moves_userinfo pre ui post m u :
  text = pre ++ ui ++ "@" ++ post -> ui <> "" -> pct_string name_char ui = true ->
  moves 511 (len pre) (mkState m u) (ui ++ "@") 522 (mkState None (setUserinfo ui u)).
Proof.
  intros E Hne Hs.
  destruct (uri_moves_name authority_names pre ui m u) as (q & Hq & M);
    [by vm_compute|done|done|]. eapply moves_seq; [exact M|].
  assert (Hd : dispatch q 64 = Some (tr [SaveUserinfo] 522)).
  { assert (H : forallb (fun q => bool_decide (dispatch q 64 = Some (tr [SaveUserinfo] 522)))
      (n_set authority_names) = true) by by vm_compute.
    rewrite forallb_forall in H. by apply list_elem_of_In, H, bool_decide_eq_true in Hq. }
  eapply moves_char; [exact Hd|done|]. cbn [do_acts act].
  by rewrite (save_if_token setUserinfo pre ui ("@" ++ post)).
Qed.

(** A host, up to the colon or the slash behind it. *)
Lemma moves_host n pre h d post m u :
  names_ok n = true -> pct_string name_char h = true -> text = pre ++ h ++ String d "" ++ post ->
  (code d = 58 -> exists k, moves (n_start n) (len pre) (mkState m u) (h ++ String d "") (n_port n)
     (at_ k (setHost h u))) /\
  (code d = 47 -> moves (n_start n) (len pre) (mkState m u) (h ++ String d "") 513
     (at_ (len (pre ++ h)) (setHost h u))).
Proof.
  intros Hn Hs E. pose proof Hn as Hok. unfold names_ok in Hn. rewrite !andb_true_iff in Hn.
  destruct Hn as [[[[[[[[[_ _] Hset] Hc%bool_decide_eq_true] Hd%bool_decide_eq_true] _] _] _] Hp0] _].
  apply negb_true_iff, Z.eqb_neq in Hp0.
  assert (Hcode : code d < 128 -> schar d = code d)
    by (intros; unfold schar; by rewrite (proj2 (Z.ltb_lt _ _))).
  destruct (decide (h = "")) as [->|Hne].
  - rewrite string_app_nil.
    pose proof (save_if_token setHost pre "" (String d "" ++ post) u E) as Hsave.
    rewrite string_app_nil in Hsave.
    split; intros Hd'; [exists (len pre)|];
      (eapply moves_char; [rewrite Hcode by lia; rewrite Hd'; eassumption|done|]);
      cbn [do_acts act]; unfold set_mark; cbn [mbind res_bind mret res_ret uri]; by rewrite Hsave.
  - destruct (uri_moves_name n pre h m u Hok Hne Hs) as (q & Hq & M).
    rewrite forallb_forall in Hset.
    apply list_elem_of_In, Hset, andb_true_iff in Hq as [Hq1%bool_decide_eq_true Hq2%bool_decide_eq_true].
    pose proof (save_if_token setHost pre h (String d "" ++ post) u E) as Hsave.
    split; intros Hd'; [exists (len pre)|]; (eapply moves_seq; [exact M|]);
      (eapply moves_char; [rewrite Hcode by lia; rewrite Hd'; eassumption|done|]);
      cbn [do_acts act]; by rewrite Hsave.
Qed.

(** A port, up to the slash behind it. *)
Lemma moves_port n pre z post k u :
  names_ok n = true -> 0 <= z < 2 ^ 31 -> text = pre ++ pretty z ++ "/" ++ post ->
  moves (n_port n) (len pre) (at_ k u) (pretty z ++ "/") 513
    (at_ (len (pre ++ pretty z)) (setPort z u)).
Proof.
  intros Hn Hz E. unfold names_ok in Hn. rewrite !andb_true_iff in Hn.
  destruct Hn as [[[[[_ Hent] Hstay] Hend%bool_decide_eq_true] _] H0%negb_true_iff%Z.eqb_neq].
  assert (Hpz : pretty z = pretty (Z.to_N z)) by (destruct z; [done|done|lia]).
  destruct (pretty_head (Z.to_N z)) as (c & s & Es & _).
  assert (Hdig : chars digit (pretty z) = true)
    by (apply pretty_port_chars; [lia|]; intros d; unfold pretty_N_char; by repeat case_match).
  rewrite Hpz, Es in Hdig. apply andb_true_iff in Hdig as [Hc Hdig].
  eapply moves_seq.
  - rewrite Hpz, Es. change (String c s) with (String c "" ++ s).
    destruct (class_goes_moves dispatch fallthrough (act text) digit (n_port n) c [Markh] _ (len pre)
      (at_ k u) (at_ (len pre) u) Hent Hc eq_refl) as (q & ->%list_elem_of_singleton & M).
    eapply moves_app; [exact M|]. apply (moves_class _ _ _ digit); [|done|exact Hdig].
    intros d Hd. pose proof (forall_chars _ Hstay d) as Hi. cbv beta in Hi. rewrite Hd in Hi.
    simpl in Hi. unfold goes in Hi. destruct (dispatch (n_digits n) (schar d)) as [t|]; [|done].
    rewrite !andb_true_iff in Hi. destruct Hi as [[Ht%bool_decide_eq_true Hin] _].
    rewrite Ht. simpl in Hin. rewrite orb_false_r in Hin. apply Z.eqb_eq in Hin. by rewrite Hin.
  - eapply moves_char; [exact Hend|done|]. cbn [do_acts act]. unfold save_port. cbn [mark].
    rewrite decide_False by (intros [= E']; revert E'; rewrite string_length_app, Hpz, Es; simpl; lia).
    cbn [deref mbind res_bind mret res_ret]. unfold set_mark, set_uri. cbn [mark uri].
    assert (Ha : atoi (str_drop (Z.to_nat (len pre)) text) = z).
    { unfold atoi. rewrite E, Nat2Z.id, str_drop_app, Hpz, strtol_pretty; [|lia|done].
      rewrite Z2N.id by lia. apply swrap_small; unfold in_s; lia. }
    by rewrite Ha.
Qed.

(** The rest of [Uri_Create] from a state of the machine. *)
Definition conclude (q p : Z) (rest : string) (s : parse_state) : res (option Uri) :=
  '(cs, p, s) ← run dispatch fallthrough (act text) q p rest s;
  s ← (if p =? len text then do_acts (act text) (eof_actions cs) p s else mret s);
  mret (if cs =? uri_parser_error then None
        else if uri_parser_first_final <=? cs then Some (uri s) else None).

Lemma conclude_moves q pre str rest s q' s' :
  moves q (len pre) s str q' s' ->
  conclude q (len pre) (str ++ rest) s = conclude q' (len (pre ++ str)) rest s'.
Proof. intros M. unfold conclude. by rewrite M, string_length_app, Nat2Z.inj_add. Qed.

(** A token is saved at the end of the input. *)
Lemma conclude_end q f pre tok u :
  eof_actions q = [f] -> 451 <= q -> text = pre ++ tok -> forall upd,
  (forall p s, act text f p s = save text upd s p) ->
  conclude q (len (pre ++ tok)) "" (at_ (len pre) u) = Val (Some (upd tok u)).
Proof.
  intros Hf Hq E upd Hact. unfold conclude. cbn [run mbind res_bind]. rewrite <- E at 1.
  rewrite Z.eqb_refl, Hf. cbn [do_acts]. rewrite Hact.
  rewrite (save_token upd pre tok "") by (by rewrite string_app_nil).
  cbn [mbind res_bind mret res_ret]. unfold uri_parser_error, uri_parser_first_final.
  by rewrite (proj2 (Z.eqb_neq _ _)), (proj2 (Z.leb_le _ _)) by lia.
Qed.

Definition optional (d f : string) : string := (if decide (f = "") then "" else d) ++ f.

Lemma conclude_fragment pre f u :
  text = pre ++ f -> f <> "" -> pct_string uri_query_char f = true ->
  conclude 453 (len pre) f (mkState None u) = Val (Some (setFragment f u)).
Proof.
  intros E Hne Hs. rewrite <- (string_app_nil f) at 1.
  rewrite (conclude_moves 453 pre f "" _ 454 (at_ (len pre) u)).
  - by apply (conclude_end 454 SaveFragment).
  - by apply (moves_pct_entry _ _ _ uri_query_char 454 1 2) with (cls0 := uri_query_char) (l := [Marku]);
      [vm_compute..| | |apply pct_starts|].
Qed.

(** What follows a token that the state [q] reads: the fragment, or nothing. *)
Lemma conclude_hash q f pre tok upd frag u :
  eof_actions q = [f] -> dispatch q 35 = Some (tr [f] 453) -> 451 <= q ->
  (forall p s, act text f p s = save text upd s p) ->
  text = pre ++ tok ++ optional "#" frag -> pct_string uri_query_char frag = true ->
  m_fragment (upd tok u) = "" ->
  conclude q (len (pre ++ tok)) (optional "#" frag) (at_ (len pre) u) =
    Val (Some (setFragment frag (upd tok u))).
Proof.
  intros Hf Hd Hq Hact E Hs Hnone. destruct (decide (frag = "")) as [->|Hne].
  - change (optional "#" "") with "" in *. rewrite string_app_nil in E.
    rewrite (conclude_end q f pre tok u Hf Hq E upd Hact). f_equal. f_equal.
    destruct (upd tok u). simpl in Hnone. by subst.
  - assert (Eq : optional "#" frag = "#" ++ frag) by (unfold optional; by rewrite decide_False).
    rewrite Eq in *. rewrite (conclude_moves q (pre ++ tok) "#" frag _ 453 (mkState None (upd tok u))).
    + apply conclude_fragment; [by rewrite E, !string_app_assoc|done|done].
    + eapply moves_char; [exact Hd|done|]. cbn [do_acts]. rewrite Hact.
      by rewrite (save_token upd pre tok ("#" ++ frag)).
Qed.

Lemma conclude_query pre q frag u :
  text = pre ++ q ++ optional "#" frag -> q <> "" -> pct_string uri_query_char q = true ->
  pct_string uri_query_char frag = true -> m_fragment u = "" ->
  conclude 456 (len pre) (q ++ optional "#" frag) (mkState None u) =
    Val (Some (setFragment frag (setQuery q u))).
Proof.
  intros E Hne Hq Hs Hnone. rewrite (conclude_moves 456 pre q _ _ 457 (at_ (len pre) u)).
  - by apply (conclude_hash 457 SaveQuery).
  - by apply (moves_pct_entry _ _ _ uri_query_char 457 7 8) with (cls0 := uri_query_char) (l := [Marku]);
      [vm_compute..| | |apply pct_starts|].
Qed.

(** From behind the slash that begins the path. *)
Lemma conclude_path pre t q frag u :
  text = pre ++ ("/" ++ t) ++ optional "?" q ++ optional "#" frag ->
  pct_string uri_path_char t = true -> pct_string uri_query_char q = true ->
  pct_string uri_query_char frag = true -> m_query u = "" -> m_fragment u = "" ->
  conclude 513 (len (pre ++ "/")) (t ++ optional "?" q ++ optional "#" frag) (at_ (len pre) u) =
    Val (Some (setFragment frag (setQuery q (setPath ("/" ++ t) u)))).
Proof.
  intros E Ht Hq Hs Hnq Hnf.
  rewrite (conclude_moves 513 (pre ++ "/") t _ _ 513 (at_ (len pre) u))
    by (apply (moves_pct _ _ _ uri_path_char 513 243 244); [by vm_compute|done]).
  rewrite string_app_assoc. set (path := "/" ++ t) in *.
  destruct (decide (q = "")) as [->|Hne].
  - change (optional "?" "") with "" in *. cbn [String.append] in *.
    rewrite (conclude_hash 513 SavePath pre path setPath) by done.
    destruct u; simpl in *. by subst.
  - assert (Eq : optional "?" q = "?" ++ q) by (unfold optional; by rewrite decide_False).
    rewrite Eq in *. rewrite string_app_assoc in *.
    rewrite (conclude_moves 513 (pre ++ path) "?" _ _ 456 (mkState None (setPath path u))).
    + apply conclude_query; try done. by rewrite E, !string_app_assoc.
    + eapply moves_char; [reflexivity|done|]. cbn [do_acts act].
      by rewrite (save_token setPath pre path ("?" ++ q ++ optional "#" frag)).
Qed.

Definition port_part (shown : bool) (z : Z) : string := if shown then ":" ++ pretty z else "".

Lemma conclude_host n pre h shown z rest m u :
  names_ok n = true -> pct_string name_char h = true -> 0 <= z < 2 ^ 31 -> m_port u = 0 ->
  text = pre ++ h ++ port_part shown z ++ "/" ++ rest ->
  let before := pre ++ h ++ port_part shown z in
  conclude (n_start n) (len pre) (h ++ port_part shown z ++ "/" ++ rest) (mkState m u) =
  conclude 513 (len (before ++ "/")) rest
    (at_ (len before) (setPort (if shown then z else 0) (setHost h u))).
Proof.
  intros Hn Hh Hz Hu E. destruct shown; cbn [port_part] in *; cbv zeta.
  - rewrite string_app_assoc in *. cbn [String.append] in E.
    destruct (moves_host n pre h (Ascii.ascii_of_nat 58) (pretty z ++ "/" ++ rest) m u Hn Hh E)
      as [(k & M)%(fun f => f eq_refl) _].
    change (h ++ ":" ++ pretty z ++ "/" ++ rest) with (h ++ (":" ++ (pretty z ++ "/" ++ rest))).
    rewrite <- (string_app_assoc h ":").
    rewrite (conclude_moves _ pre _ _ _ _ _ M).
    rewrite <- (string_app_assoc (pretty z) "/").
    assert (M2 := moves_port n (pre ++ h ++ ":") z rest k (setHost h u) Hn Hz
      ltac:(by rewrite E, !string_app_assoc)).
    rewrite (conclude_moves _ _ _ _ _ _ _ M2). by rewrite !string_app_assoc.
  - rewrite string_app_nil. cbn [String.append] in E.
    destruct (moves_host n pre h (Ascii.ascii_of_nat 47) rest m u Hn Hh E)
      as [_ M%(fun f => f eq_refl)].
    change (h ++ "" ++ "/" ++ rest) with (h ++ "/" ++ rest). rewrite <- (string_app_assoc h "/" rest).
    rewrite (conclude_moves _ pre _ _ _ _ _ M), string_app_assoc.
    do 3 f_equal. destruct u; simpl in *. by subst.
Qed.

Lemma conclude_authority pre ui h shown z rest u :
  pct_string name_char ui = true -> pct_string name_char h = true -> 0 <= z < 2 ^ 31 ->
  m_userinfo u = "" -> m_port u = 0 ->
  let part := (if decide (ui = "") then "" else ui ++ "@") ++ h ++ port_part shown z in
  text = pre ++ part ++ "/" ++ rest ->
  conclude 511 (len pre) (part ++ "/" ++ rest) (mkState None u) =
  conclude 513 (len ((pre ++ part) ++ "/")) rest
    (at_ (len (pre ++ part)) (setPort (if shown then z else 0) (setHost h (setUserinfo ui u)))).
Proof.
  intros Hui Hh Hz Hnu Hnp part E. subst part. case_decide as Hne.
  - subst ui. cbn [String.append] in *. rewrite string_app_assoc in *.
    rewrite (conclude_host authority_names pre h shown z rest) by (done || by vm_compute).
    do 4 f_equal. destruct u; simpl in *. by subst.
  - rewrite !string_app_assoc in *.
    assert (M := moves_userinfo pre ui (h ++ port_part shown z ++ "/" ++ rest) None u E Hne Hui).
    rewrite <- (string_app_assoc ui "@").
    rewrite (conclude_moves _ pre _ _ _ _ _ M).
    rewrite (conclude_host host_names (pre ++ ui ++ "@") h shown z rest)
      by (done || (by vm_compute) || (rewrite E, !string_app_assoc; done)).
    by rewrite !string_app_assoc.
Qed.
End RoundTrip.

(** C27: a printed URI is parsed to what was printed, if its parts are of the grammar and
    the text is shorter than 2^31 bytes: the scheme a letter and letters, digits and "+-.", the
    user and the host names, that is any number of characters [name_char] (so without a colon: the
    user has no password, the host is a name or an IPv4 address and not in brackets) and
    percent-encoded ones, the port from 0 to 2^31 - 1, the path empty or "/" and path
    characters, query and fragment query characters. Then [Create] of [toString] yields the
    same scheme, user, host, query and fragment, the path (at least "/"), and the port
    if it was shown; the port that is connected to is the same, and printing again
    yields the same text. (For a user with a colon it does not hold: of "me:12@" the machine
    keeps "12".) *)
Theorem Create_toString u :
  parsable u = true -> len (Uri_toString u) < 2 ^ 31 ->
  Uri_Create (Uri_toString u) = Val (Some (reparsed u)) /\
  getPort (reparsed u) = getPort u /\ Uri_toString (reparsed u) = Uri_toString u.
Proof.
  intros Hp Hlen. unfold parsable in Hp. rewrite !andb_true_iff in Hp.
  destruct Hp as [[[[[[Hs Hui] Hh] [Hz1 Hz2]] Hpath] Hq] Hf].
  assert (Hgp : exists t, getPath u = "/" ++ t /\ pct_string uri_path_char t = true).
  { unfold getPath. case_decide as Hne; [by exists ""|]. destruct (m_path u) as [|c t]; [done|].
    apply andb_true_iff in Hpath as [->%Ascii.eqb_eq Ht]. by exists t. }
  destruct Hgp as (t & Et & Ht). split; [|split].
  - destruct (m_scheme u) as [|c sch] eqn:Es; [done|]. apply andb_true_iff in Hs as [Hc Hsch].
    set (text := Uri_toString u) in *.
    set (part := (if decide (m_userinfo u = "") then "" else m_userinfo u ++ "@") ++ m_host u
      ++ port_part (negb (isDefaultPort u)) (m_port u)).
    set (Q := optional "?" (m_query u)). set (F := optional "#" (m_fragment u)).
    assert (E : text = (String c sch ++ "://") ++ part ++ "/" ++ (t ++ Q ++ F)).
    { unfold text, Uri_toString, Uri_dump, part, Q, F, optional, port_part. rewrite Et, Es.
      destruct (isDefaultPort u); repeat case_decide; rewrite ?string_app_assoc; simpl;
        rewrite ?string_app_assoc; try done; by replace (m_userinfo u) with "". }
    unfold Uri_Create. change (conclude text uri_parser_start (len "") text (mkState None Uri_new)
      = Val (Some (reparsed u))). rewrite E at 2.
    rewrite (conclude_moves text 451 "" (String c sch ++ "://") _ _ 511
      (mkState None (setScheme (String c sch) Uri_new))).
    2:{ by apply (moves_scheme text Hlen c sch (part ++ "/" ++ t ++ Q ++ F));
          [| |rewrite E, string_app_assoc]. }
    change ("" ++ (String c sch ++ "://")) with (String c sch ++ "://").
    subst part. rewrite (conclude_authority text Hlen) by (done || lia).
    subst Q F. rewrite (conclude_path text Hlen) by (done || by rewrite E, !string_app_assoc).
    unfold reparsed. rewrite Et. clear -Es.
    destruct (isDefaultPort u), u; simpl in *; by subst.
  - unfold reparsed, getPort, isDefaultPort. destruct u as [s ? ? z ? ? ?]; simpl in *.
    destruct (Z.eqb_spec z 0) as [->|Hz]; [done|]. simpl.
    destruct (is_http s); [|destruct (is_https s)].
    + destruct (Z.eqb_spec z 80) as [->|]; [done|]. by rewrite (proj2 (Z.eqb_neq z 0)).
    + destruct (Z.eqb_spec z 443) as [->|]; [done|]. by rewrite (proj2 (Z.eqb_neq z 0)).
    + by rewrite (proj2 (Z.eqb_neq z 0)).
  - assert (Hd : isDefaultPort (reparsed u) = isDefaultPort u).
    { unfold reparsed. destruct (isDefaultPort u) eqn:Ed; [done|]. by destruct u. }
    assert (Hp : getPath (reparsed u) = getPath u).
    { unfold getPath at 1. unfold reparsed at 1 2. simpl. rewrite Et. by case_decide. }
    unfold Uri_toString, Uri_dump. rewrite Hd, Hp. unfold reparsed. by destruct (isDefaultPort u).
Qed.

(** A password that begins with digits moves the mark of the user. *)
Example password_replaces_user :
  exists u, Uri_Create "http://me:12@host/" = Val (Some u) /\ m_userinfo u = "12" /\ m_host u = "host".
Proof. eexists. split; [vm_compute; reflexivity|]. split; reflexivity. Qed.

Lemma Create_toString_witness :
  Uri_toString demo_uri = "http://me@example.org:8080/?a=1?#top" /\ Uri_Create "http://me@example.org:8080/?a=1?#top" =
    Val (Some (mkUri "http" "me" "example.org" 8080 "/" "a=1?" "top")).
Proof.
  split; [by vm_compute|]. refine (proj1 (Create_toString demo_uri _ _)); [by vm_compute|done].
Defined.

(** An empty port leaves no mark behind. *)
Lemma empty_port_acts text p s l :
  do_acts (act text) (Markh :: SavePort :: l) p s = do_acts (act text) l p (mkState None (uri s)).
Proof.
  cbn [do_acts act mbind res_bind mret res_ret set_mark]. unfold save_port. cbn [mark].
  by rewrite decide_True by done.
Qed.

(** and an empty port does build a string from a null mark: "scheme://host:" with
    an empty port, whatever follows it (a path or none; then nothing, a query or a
    fragment), makes [Create] dereference it. *)
Theorem empty_port_faults c sch h path rest :
  alpha c = true -> chars scheme_char sch = true -> pct_string name_char h = true ->
  (path = "" \/ exists t, path = "/" ++ t /\ pct_string uri_path_char t = true) ->
  match rest with String d _ => one_of "?#" d = true | "" => True end ->
  let text := String c sch ++ "://" ++ h ++ ":" ++ path ++ rest in
  len text < 2 ^ 31 -> Uri_Create text = Bad NullDeref.
Proof.
  intros Hc Hs Hh Hpath Hrest text Hlen.
  assert (E : text = (String c sch ++ "://") ++ h ++ ":" ++ path ++ rest)
    by (unfold text; by rewrite !string_app_assoc).
  change (conclude text 451 (len "") text (mkState None Uri_new) = Bad NullDeref). rewrite E at 2.
  rewrite (conclude_moves text 451 "" (String c sch ++ "://") _ _ 511
    (mkState None (setScheme (String c sch) Uri_new)))
    by (by apply (moves_scheme text Hlen c sch (h ++ ":" ++ path ++ rest))).
  destruct (moves_host text Hlen authority_names (String c sch ++ "://") h (Ascii.ascii_of_nat 58)
    (path ++ rest) None (setScheme (String c sch) Uri_new) ltac:(by vm_compute) Hh E)
    as [(k & M)%(fun f => f eq_refl) _].
  rewrite <- (string_app_assoc h ":").
  change ("" ++ (String c sch ++ "://")) with (String c sch ++ "://").
  rewrite (conclude_moves text 511 _ (h ++ ":") (path ++ rest) _ 521 _ M).
  set (pre := (String c sch ++ "://") ++ h ++ ":").
  assert (Hend : len (pre ++ path ++ rest) = len text)
    by (rewrite E; unfold pre; by rewrite !string_app_assoc).
  destruct Hpath as [-> | (t & -> & Ht)].
  - unfold conclude. cbn [String.append]. destruct rest as [|d rest].
    + cbn [run mbind res_bind]. change (pre ++ "" ++ "") with (pre ++ "") in Hend.
      rewrite string_app_nil in Hend. rewrite Hend, Z.eqb_refl.
      change (eof_actions 521) with [Markh; SavePort; SavePath]. by rewrite empty_port_acts.
    + assert (Hd : exists q, dispatch 521 (schar d) = Some (tr [Markh; SavePort; SavePath] q))
        by (apply one_of_or in Hrest as [-> | ->]; by eexists).
      destruct Hd as [q Hd]. cbn [run]. rewrite Hd. cbn [acts tr]. by rewrite empty_port_acts.
  - change (("/" ++ t) ++ rest) with ("/" ++ (t ++ rest)).
    rewrite (conclude_moves text 521 pre "/" _ _ 513 (mkState None (setHost h
      (setScheme (String c sch) Uri_new))))
      by (eapply moves_char; [reflexivity|done|apply empty_port_acts]).
    rewrite (conclude_moves text 513 (pre ++ "/") t _ _ 513 _ (moves_pct dispatch fallthrough
      (act text) uri_path_char 513 243 244 ltac:(by vm_compute) _ _ t Ht)).
    unfold conclude. destruct rest as [|d rest].
    + cbn [run mbind res_bind]. rewrite string_app_nil in Hend. rewrite string_app_assoc.
      by rewrite Hend, Z.eqb_refl.
    + apply one_of_or in Hrest as [-> | ->]; reflexivity.
Qed.

Lemma empty_port_faults_witness : Uri_Create "http://host:/a?x" = Bad NullDeref.
Proof.
  apply (empty_port_faults (Ascii.ascii_of_nat 104) "ttp" "host" "/a" "?x"); try done.
  right. by exists "a".
Defined.
