(* ===== verification/Headers.v ===== *)
(** * Headers on the wire

    What the round trips of the two parsers share: the characters of header names and
    values, the lines a message prints for its headers, and the map a parser fills
    from them. *)
From stdpp Require Import base tactics option list sorting strings pretty numbers.
From S2P Require Import Prelude OrdSet CString Http Dfa.

Open Scope string_scope.
Open Scope Z_scope.

#[local] Arguments String.append !_ _ : simpl nomatch.

Definition tchar (c : Ascii.ascii) : bool := alpha c || digit c || one_of "!#$%&'*+-.^_`|~" c.

Definition blank (c : Ascii.ascii) : bool := one_of (String (Ascii.ascii_of_nat 9) " ") c.

Definition value_char (c : Ascii.ascii) : bool :=
  negb ((code c =? 0) || (code c =? 10) || (code c =? 13) || (code c =? 127)).

(** A value without the blanks before it. *)
Fixpoint skip_blanks (s : string) : string :=
  match s with String c s' => if blank c then skip_blanks s' else s | EmptyString => EmptyString end.

Definition starts_blank (s : string) : bool :=
  match s with String c _ => blank c | EmptyString => false end.

Lemma skip_blanks_length u : (String.length (skip_blanks u) <= String.length u)%nat.
Proof. induction u as [|a u IH]; simpl; [lia|]. destruct (blank a); simpl; lia. Qed.

Lemma skip_blanks_starts u : starts_blank (skip_blanks u) = false.
Proof. induction u as [|c u IH]; [done|]. cbn [skip_blanks]. destruct (blank c) eqn:E; done. Qed.
Lemma skip_blanks_idem w : skip_blanks (skip_blanks w) = skip_blanks w.
Proof.
  induction w as [|c w IH]; [done|]. cbn [skip_blanks].
  destruct (blank c) eqn:E; [done|]. cbn [skip_blanks]. by rewrite E.
Qed.

Lemma chars_skip_blanks P w : chars P w = true -> chars P (skip_blanks w) = true.
Proof.
  induction w as [|c w IH]; [done|]. cbn [skip_blanks]. intros H.
  destruct (blank c); [|done]. simpl in H. apply andb_true_iff in H as [_ H]. by apply IH.
Qed.

(** A line as it is printed for a header. *)
Definition sends (l : string) (kv : string * string) : Prop :=
  exists w, l = kv.1 ++ ":" ++ w /\ skip_blanks w = skip_blanks kv.2 /\
    kv.1 <> "" /\ chars tchar kv.1 = true /\ chars value_char w = true.

Lemma decimal_value_char z : chars value_char (decimal z) = true.
Proof. apply chars_decimal. intros d. unfold pretty_N_char. by repeat case_match. Qed.

Lemma sends_header sep kv :
  sep = ":" \/ sep = ": " ->
  kv.1 <> "" -> chars tchar kv.1 = true -> chars value_char kv.2 = true ->
  sends (header_line sep kv) kv.
Proof.
  intros Hsep H1 H2 H3. destruct Hsep as [-> | ->].
  - by exists kv.2.
  - exists (" " ++ kv.2). unfold header_line. split_and!; done.
Qed.

Lemma render_app ls u v : render ls u ++ v = render ls (u ++ v).
Proof. induction ls as [|l ls IH]; [done|]. cbn [render]. by rewrite !string_app_assoc, IH. Qed.

Lemma render_lines ls body : render ls body = foldr (fun l s => l ++ CRLF ++ s) "" ls ++ CRLF ++ body.
Proof. induction ls as [|l ls IH]; [done|]. cbn [render foldr]. by rewrite IH, !string_app_assoc. Qed.

Lemma skip_blanks_decimal n : skip_blanks (decimal n) = decimal n.
Proof.
  assert (H : chars (fun c => negb (blank c)) (decimal n) = true)
    by (apply chars_decimal; intros d; unfold pretty_N_char; by repeat case_match).
  destruct (decimal n) as [|c u]; [done|]. simpl in *.
  apply andb_true_iff in H as [H _]. by destruct (blank c).
Qed.

(** ** The headers a parser has stored *)

Local Abbreviation map_ordered := (ordered CaseInsensitiLess fst).
Local Abbreviation map_value := (value CaseInsensitiLess).

(** The value under a name after the headers [kvs]: the last one of that name. *)
Definition last_value (key : string) (o : option string) (kvs : list (string * string)) : option string :=
  foldl (fun o kv => if decide (fold_case key = fold_case kv.1) then Some (skip_blanks kv.2) else o)
    o kvs.

Lemma received_value key kvs m :
  map_ordered m ->
  map_value key (foldl (fun m kv => assign m kv.1 (skip_blanks kv.2)) m kvs) =
    last_value key (map_value key m) kvs.
Proof.
  revert m. induction kvs as [|kv kvs IH]; intros m Hm; [done|]. cbn [foldl].
  rewrite IH by by apply (map_assign_ordered CaseInsensitiLess).
  by rewrite value_assign_fold by done.
Qed.

Lemma last_value_other key o kvs :
  (forall kv, kv ∈ kvs -> fold_case key <> fold_case kv.1) -> last_value key o kvs = o.
Proof.
  revert o. induction kvs as [|kv kvs IH]; intros o H; [done|]. unfold last_value. cbn [foldl].
  rewrite decide_False by (apply H; by left). apply IH. intros kv' ?. apply H. by right.
Qed.

(** In a map, a name up to case occurs once. *)
Lemma last_value_map key m :
  map_ordered m -> last_value key None (printed m) =
    if decide (fold_case key = fold_case "connection") then None else skip_blanks <$> map_value key m.
Proof.
  intros Hm.
  assert (Hmem : forall v, map_value key m = Some v <-> exists k', (k', v) ∈ m /\ fold_case key = fold_case k').
  { intros v. rewrite (value_Some CaseInsensitiLess) by done. split; intros (k' & Hin & Hk); exists k'; (split; [done|by apply CaseInsensitiLess_equiv]). }
  case_decide as Hc.
  { apply last_value_other. intros kv [Hp _]%list_elem_of_filter Hk.
    rewrite strcasecmp_zero in Hp. congruence. }
  destruct (map_value key m) as [v|] eqn:E; simpl.
  - destruct (proj1 (Hmem v) eq_refl) as (k' & Hin & Hk). apply list_elem_of_split in Hin as (l1 & l2 & ->).
    unfold printed. rewrite list.filter_app, list.filter_cons_True
      by (cbn [fst]; rewrite strcasecmp_zero; congruence).
    unfold last_value. rewrite foldl_app. cbn [foldl fst snd]. rewrite decide_True by done.
    apply (last_value_other key (Some (skip_blanks v))).
    intros kv [_ Hkv]%list_elem_of_filter Hk'.
    destruct (ordered_app_inv _ _ l1 ((k', v) :: l2) Hm) as (_ & Ho & _).
    apply StronglySorted_inv in Ho as [_ Hf].
    pose proof (proj1 (list.Forall_forall _ _) Hf kv Hkv) as Hlt. unfold key_lt in Hlt. simpl in Hlt.
    assert (equiv_key CaseInsensitiLess k' kv.1) as [H1 _] by (apply CaseInsensitiLess_equiv; congruence).
    congruence.
  - apply last_value_other. intros kv [_ Hin]%list_elem_of_filter Hk.
    assert (None = Some kv.2) by (apply Hmem; exists kv.1; by destruct kv). done.
Qed.

(** ** The length a message announces *)

Lemma getAs_value {T} (lexical_cast : string -> option T) m key d :
  getAs lexical_cast m key d = default d (map_value key m ≫= lexical_cast).
Proof.
  unfold getAs, value, find. destruct (set_find _ _ _ _) as [[k w]|]; simpl; [|done].
  by destruct (lexical_cast w).
Qed.

(** The "content-length" that [dump] prints is the length of the body, 0 if there is none. *)
Lemma announced_length (lexical_cast : string -> option Z) m body :
  (forall n, 0 <= n < 2 ^ 64 -> lexical_cast (decimal n) = Some n) ->
  Z.of_nat (String.length body) < 2 ^ 64 ->
  map_value "content-length" m =
    (if decide (body = "") then None
     else Some (skip_blanks (decimal (Z.of_nat (String.length body))))) ->
  getAs lexical_cast m "content-length" 0 = Z.of_nat (String.length body).
Proof.
  intros Hcast Hl E. rewrite getAs_value, E. case_decide as Hb; [by rewrite Hb|].
  cbn [mbind option_bind]. by rewrite skip_blanks_decimal, Hcast by lia.
Qed.

(** boost's [lexical_cast<uint64_t>] on plain decimal numbers. *)
Definition demo_cast (s : string) : option Z :=
  if chars digit s && negb (bool_decide (s = "")) then Some (digits 10 0 s) else None.

Lemma demo_cast_decimal n : 0 <= n < 2 ^ 64 -> demo_cast (decimal n) = Some n.
Proof.
  intros Hn. unfold demo_cast.
  rewrite (chars_decimal digit) by (intros d; unfold pretty_N_char; by repeat case_match).
  unfold decimal. destruct (pretty_head (Z.to_N n)) as (c & u & E & _).
  rewrite bool_decide_eq_false_2 by (by rewrite E). simpl. f_equal.
  pose proof (digits_pretty (Z.to_N n) "") as H. rewrite string_app_nil in H. rewrite H. simpl. lia.
Qed.
