(* ===== verification/ParserCommon.v ===== *)
(** * What the two HTTP parsers share (http/http11_common.h and the macros of the
    generated files)

    The callback types, [PTR_TO], [LEN], the guarded calls, and what a callback may
    rely on: the slices it gets lie in the buffer. *)
From stdpp Require Import base tactics option list strings numbers.
From S2P Require Import Prelude CString.

Open Scope Z_scope.

(** [element_cb], [field_cb]: what [data] points to is threaded through. *)
Definition element_cb (D : Type) : Type := D -> string -> Z -> res D.
Definition field_cb (D : Type) : Type := D -> string -> Z -> string -> Z -> res D.

Definition assert (b : bool) : res unit := if b then Val tt else Bad AssertFailed.

Section Macros.
Context {D : Type} (buffer : string).
Implicit Types (d : D).

(** [PTR_TO(F)], [LEN(AT, FPC)]; [MARK] is the setter of the member. *)
Definition PTR_TO (f : Z) : string := str_drop (Z.to_nat f) buffer.
Definition LEN (f fpc : Z) : Z := u64 (fpc - f).

(** [if(parser->f != NULL) parser->f(parser->data, at, length)] *)
Definition element (f : option (element_cb D)) d (at_ : string) (length : Z) : res D :=
  match f with Some f => f d at_ length | None => Val d end.

End Macros.

(** ** The contract of a callback: on a slice of the buffer it returns, and keeps an
    invariant of its data. *)

Definition slice_ok (at_ : string) (length : Z) : Prop :=
  0 <= length <= Z.of_nat (String.length at_) /\ length < 2 ^ 31.

Section Contract.
Context {D : Type} (I : D -> Prop).

Definition element_total (f : option (element_cb D)) : Prop :=
  forall g d at_ n, f = Some g -> I d -> slice_ok at_ n ->
  exists d', g d at_ n = Val d' /\ I d'.
Definition field_total (f : option (field_cb D)) : Prop :=
  forall g d at1 n1 at2 n2, f = Some g -> I d -> slice_ok at1 n1 -> slice_ok at2 n2 ->
  exists d', g d at1 n1 at2 n2 = Val d' /\ I d'.

Lemma PTR_TO_length (buffer : string) f :
  0 <= f -> String.length (PTR_TO buffer f) = (String.length buffer - Z.to_nat f)%nat.
Proof. intros. unfold PTR_TO. by rewrite str_drop_length. Qed.

Lemma LEN_slice (buffer : string) f p :
  Z.of_nat (String.length buffer) < 2 ^ 31 -> 0 <= f <= p -> p <= Z.of_nat (String.length buffer) ->
  LEN f p = p - f /\ slice_ok (PTR_TO buffer f) (LEN f p).
Proof.
  intros Hlen Hf Hp. assert (E : LEN f p = p - f).
  { unfold LEN. apply wrap_small. unfold in_u. lia. }
  split; [done|]. rewrite E. unfold slice_ok. rewrite PTR_TO_length; lia.
Qed.

Lemma element_ok f d at_ n :
  element_total f -> I d -> slice_ok at_ n -> exists d', element f d at_ n = Val d' /\ I d'.
Proof. intros Hf Hd Hs. unfold element. destruct f as [g|]; [by eapply Hf|by exists d]. Qed.

End Contract.

(** The token [tok] behind [pre] in the text. *)
Lemma token (text pre tok rest : string) :
  Z.of_nat (String.length text) < 2 ^ 31 ->
  text = (pre ++ tok ++ rest)%string ->
  PTR_TO text (Z.of_nat (String.length pre)) = (tok ++ rest)%string /\
  LEN (Z.of_nat (String.length pre)) (Z.of_nat (String.length pre) + Z.of_nat (String.length tok)) = Z.of_nat (String.length tok) /\
  std_string (PTR_TO text (Z.of_nat (String.length pre))) (Z.of_nat (String.length tok)) = Val tok.
Proof.
  intros Htext E. assert (Hl : Z.of_nat (String.length tok) < 2 ^ 31) by (rewrite E, !string_length_app in Htext; lia).
  split; [|split].
  - unfold PTR_TO. rewrite Nat2Z.id, E. apply str_drop_app.
  - unfold LEN. rewrite wrap_small; [lia|unfold in_u; lia].
  - unfold PTR_TO. rewrite Nat2Z.id, E. apply std_string_slice. lia.
Qed.

(** [memmove(data, data + offset, len - offset)] *)
Definition memmove_front (data : string) (len offset : nat) : string :=
  str_drop offset (str_take len data) ++ str_drop (len - offset) data.

(** A slice makes a string. *)
Lemma std_string_ok at_ n : slice_ok at_ n -> exists s, std_string at_ n = Val s.
Proof.
  intros Hs. unfold std_string, slice_ok in *.
  rewrite (proj2 (Z.leb_gt _ _)), (proj2 (Z.ltb_ge _ _)) by lia. by eexists.
Qed.

(** What is left behind the consumed bytes. *)
Lemma memmove_rest head tail z :
  str_take (String.length tail)
    (memmove_front ((head ++ tail) ++ z)%string (String.length (head ++ tail)%string) (String.length head)) = tail.
Proof. unfold memmove_front. rewrite str_take_app, str_drop_app. apply str_take_app. Qed.
