(* ===== verification/Http11Machine.v ===== *)
(** * The state machine of the request parser (http/http11_parser.rl.cc)

    The goto code of [http_parser_execute], label by label: [case_N] is the
    dispatch on the next character in state N, [trN] the actions of the label trN
    with the state it continues in, [dispatch] the switch on [cs]. The actions,
    written in http11_parser.rl, are named here and executed in Http11.v; [c] is
    the character as a [signed char], [relaxed] is [parser->uri_relaxed]. *)
From stdpp Require Import base tactics option list strings numbers.
From S2P Require Import Prelude Dfa.

Open Scope Z_scope.

Inductive action :=
  | Mark | StartField | WriteField | StartValue | WriteValue | RequestMethod | RequestUri
  | Fragment | StartQuery | QueryString | HttpVersion | RequestPath | Done | Xml | Json.
#[export] Instance action_eq_dec : EqDecision action.
Proof. solve_decision. Defined.

Definition http_parser_start : Z := 1.
Definition http_parser_first_final : Z := 348.
Definition http_parser_error : Z := 0.

(** ** The transitions *)

Definition tr0 : transition action := tr [Mark] 2.
Definition tr2 : transition action := tr [Mark] 194.
Definition tr3 : transition action := tr [Mark] 198.
Definition tr4 : transition action := tr [RequestMethod] 3.
Definition tr6 : transition action := tr [Mark; RequestPath; RequestUri] 4.
Definition tr7 : transition action := tr [Mark] 19.
Definition tr8 : transition action := tr [Mark; RequestPath; RequestUri] 20.
Definition tr9 : transition action := tr [Mark] 24.
Definition tr10 : transition action := tr [Mark] 33.
Definition tr11 : transition action := tr [Mark; RequestPath] 29.
Definition tr12 : transition action := tr [Mark] 173.
Definition tr13 : transition action := tr [Mark] 5.
Definition tr21 : transition action := tr [HttpVersion] 13.
Definition tr22 : transition action := tr [HttpVersion] 17.
Definition tr23 : transition action := tr [StartField] 14.
Definition tr24 : transition action := tr_break [StartField; Done] 348.
Definition tr25 : transition action := tr [StartField] 18.
Definition tr27 : transition action := tr [WriteField] 15.
Definition tr28 : transition action := tr [StartValue] 16.
Definition tr29 : transition action := tr [StartValue] 15.
Definition tr30 : transition action := tr [StartValue; WriteValue] 13.
Definition tr31 : transition action := tr [StartValue; WriteValue] 17.
Definition tr33 : transition action := tr [WriteValue] 13.
Definition tr34 : transition action := tr [WriteValue] 17.
Definition tr36 : transition action := tr_break [Done] 348.
Definition tr37 : transition action := tr [RequestPath; RequestUri] 4.
Definition tr39 : transition action := tr [RequestPath; RequestUri] 20.
Definition tr42 : transition action := tr [RequestPath] 29.
Definition tr43 : transition action := tr [Mark; Fragment] 4.
Definition tr44 : transition action := tr [Mark] 21.
Definition tr45 : transition action := tr [Mark] 22.
Definition tr46 : transition action := tr [Fragment] 4.
Definition tr53 : transition action := tr [StartQuery; QueryString; RequestUri] 4.
Definition tr54 : transition action := tr [StartQuery] 30.
Definition tr55 : transition action := tr [StartQuery; QueryString; RequestUri] 20.
Definition tr56 : transition action := tr [StartQuery] 31.
Definition tr57 : transition action := tr [QueryString; RequestUri] 4.
Definition tr59 : transition action := tr [QueryString; RequestUri] 20.
Definition tr203 : transition action := tr [Mark] 26.
Definition tr204 : transition action := tr [Mark] 27.
Definition tr224 : transition action := tr [RequestPath] 196.
Definition tr227 : transition action := tr_break [Xml; Done] 349.
Definition tr228 : transition action := tr [RequestPath] 199.
Definition tr232 : transition action := tr [Mark] 200.
Definition tr235 : transition action := tr_break [Json; Done] 349.

(** ** The states *)

(** [_widec]: the characters 94, 123 and 125 are widened, and moved again when the
    parser is relaxed. *)
Definition widec (relaxed : bool) (c : Z) : Z :=
  let wide := 128 + (c - -128) in
  if c <? 123 then
    if (94 <=? c) && (c <=? 94) then (if relaxed then wide + 256 else wide) else c
  else if 123 <? c then
    if (125 <=? c) && (c <=? 125) then (if relaxed then wide + 256 else wide) else c
  else (if relaxed then wide + 256 else wide).

Definition case_1 (c : Z) : transition action :=
  switch c [(60, tr2); (64, tr3)]
  (if 57 <? c then
    if (65 <=? c) && (c <=? 90) then tr0
    else st 0
  else if 48 <=? c then tr0
  else st 0).

Definition case_2 (c : Z) : transition action :=
  if c =? 32 then tr4
  else if 57 <? c then
    if (65 <=? c) && (c <=? 90) then st 175
    else st 0
  else if 48 <=? c then st 175
  else st 0.

Definition case_3 (relaxed : bool) (c : Z) : transition action :=
  let w := widec relaxed c in
  switch w [(32, tr6); (33, tr7); (35, tr8); (37, tr9); (47, tr10); (59, tr7); (61, tr7);
    (63, tr11); (64, tr7); (95, tr7); (126, tr7); (606, tr7); (635, tr7);
    (637, tr7)]
  (if w <? 65 then
    if (36 <=? w) && (w <=? 57) then tr7
    else st 0
  else if 90 <? w then
    if (97 <=? w) && (w <=? 122) then tr12
    else st 0
  else tr12).

Definition case_4 (c : Z) : transition action :=
  if c =? 72 then tr13
  else st 0.

Definition case_5 (c : Z) : transition action :=
  if c =? 84 then st 6
  else st 0.

Definition case_6 (c : Z) : transition action :=
  if c =? 84 then st 7
  else st 0.

Definition case_7 (c : Z) : transition action :=
  if c =? 80 then st 8
  else st 0.

Definition case_8 (c : Z) : transition action :=
  if c =? 47 then st 9
  else st 0.

Definition case_9 (c : Z) : transition action :=
  if c =? 49 then st 10
  else st 0.

Definition case_10 (c : Z) : transition action :=
  if c =? 46 then st 11
  else st 0.

Definition case_11 (c : Z) : transition action :=
  if (48 <=? c) && (c <=? 49) then st 12
  else st 0.

Definition case_12 (c : Z) : transition action :=
  switch c [(10, tr21); (13, tr22)]
  (st 0).

Definition case_13 (c : Z) : transition action :=
  switch c [(10, tr24); (13, tr25); (33, tr23); (124, tr23); (126, tr23)]
  (if c <? 42 then
    if c <? 11 then
      if (1 <=? c) && (c <=? 8) then tr23
      else st 0
    else if 31 <? c then
      if (35 <=? c) && (c <=? 39) then tr23
      else st 0
    else tr23
  else if 43 <? c then
    if c <? 48 then
      if (45 <=? c) && (c <=? 46) then tr23
      else st 0
    else if 57 <? c then
      if 90 <? c then
        if (94 <=? c) && (c <=? 122) then tr23
        else st 0
      else if 65 <=? c then tr23
      else st 0
    else tr23
  else tr23).

Definition case_14 (c : Z) : transition action :=
  switch c [(33, st 14); (58, tr27); (124, st 14); (126, st 14)]
  (if c <? 42 then
    if c <? 10 then
      if (1 <=? c) && (c <=? 8) then st 14
      else st 0
    else if 31 <? c then
      if (35 <=? c) && (c <=? 39) then st 14
      else st 0
    else st 14
  else if 43 <? c then
    if c <? 48 then
      if (45 <=? c) && (c <=? 46) then st 14
      else st 0
    else if 57 <? c then
      if 90 <? c then
        if (94 <=? c) && (c <=? 122) then st 14
        else st 0
      else if 65 <=? c then st 14
      else st 0
    else st 14
  else st 14).

Definition case_15 (c : Z) : transition action :=
  switch c [(0, st 0); (9, tr29); (10, tr30); (13, tr31); (32, tr29); (127, st 0)]
  (tr28).

Definition case_16 (c : Z) : transition action :=
  switch c [(0, st 0); (10, tr33); (13, tr34); (127, st 0)]
  (st 16).

Definition case_17 (c : Z) : transition action :=
  if c =? 10 then st 13
  else st 0.

Definition case_18 (c : Z) : transition action :=
  switch c [(10, tr36); (33, st 14); (58, tr27); (124, st 14); (126, st 14)]
  (if c <? 42 then
    if c <? 11 then
      if (1 <=? c) && (c <=? 8) then st 14
      else st 0
    else if 31 <? c then
      if (35 <=? c) && (c <=? 39) then st 14
      else st 0
    else st 14
  else if 43 <? c then
    if c <? 48 then
      if (45 <=? c) && (c <=? 46) then st 14
      else st 0
    else if 57 <? c then
      if 90 <? c then
        if (94 <=? c) && (c <=? 122) then st 14
        else st 0
      else if 65 <=? c then st 14
      else st 0
    else st 14
  else st 14).

Definition case_19 (relaxed : bool) (c : Z) : transition action :=
  let w := widec relaxed c in
  switch w [(32, tr37); (33, st 19); (35, tr39); (37, st 24); (47, st 26); (59, st 19);
    (61, st 19); (63, tr42); (95, st 19); (126, st 19); (606, st 19);
    (635, st 19); (637, st 19)]
  (if w <? 64 then
    if (36 <=? w) && (w <=? 57) then st 19
    else st 0
  else if 90 <? w then
    if (97 <=? w) && (w <=? 122) then st 19
    else st 0
  else st 19).

Definition case_20 (relaxed : bool) (c : Z) : transition action :=
  let w := widec relaxed c in
  switch w [(32, tr43); (33, tr44); (37, tr45); (61, tr44); (95, tr44); (126, tr44);
    (606, tr44); (635, tr44); (637, tr44)]
  (if w <? 63 then
    if (36 <=? w) && (w <=? 59) then tr44
    else st 0
  else if 90 <? w then
    if (97 <=? w) && (w <=? 122) then tr44
    else st 0
  else tr44).

Definition case_21 (relaxed : bool) (c : Z) : transition action :=
  let w := widec relaxed c in
  switch w [(32, tr46); (33, st 21); (37, st 22); (61, st 21); (95, st 21); (126, st 21);
    (606, st 21); (635, st 21); (637, st 21)]
  (if w <? 63 then
    if (36 <=? w) && (w <=? 59) then st 21
    else st 0
  else if 90 <? w then
    if (97 <=? w) && (w <=? 122) then st 21
    else st 0
  else st 21).

Definition case_22 (c : Z) : transition action :=
  if c <? 65 then
    if (48 <=? c) && (c <=? 57) then st 23
    else st 0
  else if 70 <? c then
    if (97 <=? c) && (c <=? 102) then st 23
    else st 0
  else st 23.

Definition case_23 (c : Z) : transition action :=
  if c <? 65 then
    if (48 <=? c) && (c <=? 57) then st 21
    else st 0
  else if 70 <? c then
    if (97 <=? c) && (c <=? 102) then st 21
    else st 0
  else st 21.

Definition case_24 (c : Z) : transition action :=
  if c <? 65 then
    if (48 <=? c) && (c <=? 57) then st 25
    else st 0
  else if 70 <? c then
    if (97 <=? c) && (c <=? 102) then st 25
    else st 0
  else st 25.

Definition case_25 (c : Z) : transition action :=
  if c <? 65 then
    if (48 <=? c) && (c <=? 57) then st 19
    else st 0
  else if 70 <? c then
    if (97 <=? c) && (c <=? 102) then st 19
    else st 0
  else st 19.

Definition case_26 (relaxed : bool) (c : Z) : transition action :=
  let w := widec relaxed c in
  switch w [(32, tr37); (33, st 26); (35, tr39); (37, st 27); (61, st 26); (63, tr42);
    (95, st 26); (126, st 26); (606, st 26); (635, st 26); (637, st 26)]
  (if w <? 64 then
    if (36 <=? w) && (w <=? 59) then st 26
    else st 0
  else if 90 <? w then
    if (97 <=? w) && (w <=? 122) then st 26
    else st 0
  else st 26).

Definition case_27 (c : Z) : transition action :=
  if c <? 65 then
    if (48 <=? c) && (c <=? 57) then st 28
    else st 0
  else if 70 <? c then
    if (97 <=? c) && (c <=? 102) then st 28
    else st 0
  else st 28.

Definition case_28 (c : Z) : transition action :=
  if c <? 65 then
    if (48 <=? c) && (c <=? 57) then st 26
    else st 0
  else if 70 <? c then
    if (97 <=? c) && (c <=? 102) then st 26
    else st 0
  else st 26.

Definition case_29 (relaxed : bool) (c : Z) : transition action :=
  let w := widec relaxed c in
  switch w [(32, tr53); (33, tr54); (35, tr55); (37, tr56); (61, tr54); (95, tr54);
    (126, tr54); (606, tr54); (635, tr54); (637, tr54)]
  (if w <? 63 then
    if (36 <=? w) && (w <=? 59) then tr54
    else st 0
  else if 90 <? w then
    if (97 <=? w) && (w <=? 122) then tr54
    else st 0
  else tr54).

Definition case_30 (relaxed : bool) (c : Z) : transition action :=
  let w := widec relaxed c in
  switch w [(32, tr57); (33, st 30); (35, tr59); (37, st 31); (61, st 30); (95, st 30);
    (126, st 30); (606, st 30); (635, st 30); (637, st 30)]
  (if w <? 63 then
    if (36 <=? w) && (w <=? 59) then st 30
    else st 0
  else if 90 <? w then
    if (97 <=? w) && (w <=? 122) then st 30
    else st 0
  else st 30).

Definition case_31 (c : Z) : transition action :=
  if c <? 65 then
    if (48 <=? c) && (c <=? 57) then st 32
    else st 0
  else if 70 <? c then
    if (97 <=? c) && (c <=? 102) then st 32
    else st 0
  else st 32.

Definition case_32 (c : Z) : transition action :=
  if c <? 65 then
    if (48 <=? c) && (c <=? 57) then st 30
    else st 0
  else if 70 <? c then
    if (97 <=? c) && (c <=? 102) then st 30
    else st 0
  else st 30.

Definition case_33 (relaxed : bool) (c : Z) : transition action :=
  let w := widec relaxed c in
  switch w [(32, tr37); (33, st 26); (35, tr39); (37, st 27); (47, st 34); (61, st 26);
    (63, tr42); (95, st 26); (126, st 26); (606, st 26); (635, st 26);
    (637, st 26)]
  (if w <? 64 then
    if (36 <=? w) && (w <=? 59) then st 26
    else st 0
  else if 90 <? w then
    if (97 <=? w) && (w <=? 122) then st 26
    else st 0
  else st 26).

Definition case_34 (relaxed : bool) (c : Z) : transition action :=
  let w := widec relaxed c in
  switch w [(32, tr37); (33, st 35); (35, tr39); (37, st 36); (47, st 26); (58, st 38);
    (61, st 35); (63, tr42); (64, st 42); (91, st 47); (95, st 35); (126, st 35);
    (606, st 35); (635, st 35); (637, st 35)]
  (if w <? 65 then
    if (36 <=? w) && (w <=? 59) then st 35
    else st 0
  else if 90 <? w then
    if (97 <=? w) && (w <=? 122) then st 35
    else st 0
  else st 35).

Definition case_35 (relaxed : bool) (c : Z) : transition action :=
  let w := widec relaxed c in
  switch w [(32, tr37); (33, st 35); (35, tr39); (37, st 36); (47, st 26); (58, st 38);
    (61, st 35); (63, tr42); (64, st 42); (95, st 35); (126, st 35);
    (606, st 35); (635, st 35); (637, st 35)]
  (if w <? 65 then
    if (36 <=? w) && (w <=? 59) then st 35
    else st 0
  else if 90 <? w then
    if (97 <=? w) && (w <=? 122) then st 35
    else st 0
  else st 35).

Definition case_36 (c : Z) : transition action :=
  if c <? 65 then
    if (48 <=? c) && (c <=? 57) then st 37
    else st 0
  else if 70 <? c then
    if (97 <=? c) && (c <=? 102) then st 37
    else st 0
  else st 37.

Definition case_37 (c : Z) : transition action :=
  if c <? 65 then
    if (48 <=? c) && (c <=? 57) then st 35
    else st 0
  else if 70 <? c then
    if (97 <=? c) && (c <=? 102) then st 35
    else st 0
  else st 35.

Definition case_38 (relaxed : bool) (c : Z) : transition action :=
  let w := widec relaxed c in
  switch w [(32, tr37); (33, st 39); (35, tr39); (37, st 40); (47, st 26); (61, st 39);
    (63, tr42); (64, st 42); (95, st 39); (126, st 39); (606, st 39);
    (635, st 39); (637, st 39)]
  (if w <? 58 then
    if 46 <? w then
      if (48 <=? w) && (w <=? 57) then st 38
      else st 0
    else if 36 <=? w then st 39
    else st 0
  else if 59 <? w then
    if 90 <? w then
      if (97 <=? w) && (w <=? 122) then st 39
      else st 0
    else if 65 <=? w then st 39
    else st 0
  else st 39).

Definition case_39 (relaxed : bool) (c : Z) : transition action :=
  let w := widec relaxed c in
  switch w [(33, st 39); (37, st 40); (61, st 39); (64, st 42); (95, st 39);
    (126, st 39); (606, st 39); (635, st 39); (637, st 39)]
  (if w <? 48 then
    if (36 <=? w) && (w <=? 46) then st 39
    else st 0
  else if 59 <? w then
    if 90 <? w then
      if (97 <=? w) && (w <=? 122) then st 39
      else st 0
    else if 65 <=? w then st 39
    else st 0
  else st 39).

Definition case_40 (c : Z) : transition action :=
  if c <? 65 then
    if (48 <=? c) && (c <=? 57) then st 41
    else st 0
  else if 70 <? c then
    if (97 <=? c) && (c <=? 102) then st 41
    else st 0
  else st 41.

Definition case_41 (c : Z) : transition action :=
  if c <? 65 then
    if (48 <=? c) && (c <=? 57) then st 39
    else st 0
  else if 70 <? c then
    if (97 <=? c) && (c <=? 102) then st 39
    else st 0
  else st 39.

Definition case_42 (relaxed : bool) (c : Z) : transition action :=
  let w := widec relaxed c in
  switch w [(32, tr37); (33, st 43); (35, tr39); (37, st 44); (47, st 26); (58, st 46);
    (61, st 43); (63, tr42); (91, st 47); (95, st 43); (126, st 43);
    (606, st 43); (635, st 43); (637, st 43)]
  (if w <? 65 then
    if (36 <=? w) && (w <=? 59) then st 43
    else st 0
  else if 90 <? w then
    if (97 <=? w) && (w <=? 122) then st 43
    else st 0
  else st 43).

Definition case_43 (relaxed : bool) (c : Z) : transition action :=
  let w := widec relaxed c in
  switch w [(32, tr37); (33, st 43); (35, tr39); (37, st 44); (47, st 26); (58, st 46);
    (61, st 43); (63, tr42); (95, st 43); (126, st 43); (606, st 43);
    (635, st 43); (637, st 43)]
  (if w <? 65 then
    if (36 <=? w) && (w <=? 59) then st 43
    else st 0
  else if 90 <? w then
    if (97 <=? w) && (w <=? 122) then st 43
    else st 0
  else st 43).

Definition case_44 (c : Z) : transition action :=
  if c <? 65 then
    if (48 <=? c) && (c <=? 57) then st 45
    else st 0
  else if 70 <? c then
    if (97 <=? c) && (c <=? 102) then st 45
    else st 0
  else st 45.

Definition case_45 (c : Z) : transition action :=
  if c <? 65 then
    if (48 <=? c) && (c <=? 57) then st 43
    else st 0
  else if 70 <? c then
    if (97 <=? c) && (c <=? 102) then st 43
    else st 0
  else st 43.

Definition case_46 (c : Z) : transition action :=
  switch c [(32, tr37); (35, tr39); (47, st 26); (63, tr42)]
  (if (48 <=? c) && (c <=? 57) then st 46
  else st 0).

Definition case_47 (c : Z) : transition action :=
  switch c [(6, st 48); (58, st 167); (118, st 169)]
  (if c <? 65 then
    if (48 <=? c) && (c <=? 57) then st 91
    else st 0
  else if 70 <? c then
    if (97 <=? c) && (c <=? 102) then st 91
    else st 0
  else st 91).

Definition case_48 (c : Z) : transition action :=
  if c <? 65 then
    if (48 <=? c) && (c <=? 57) then st 49
    else st 0
  else if 70 <? c then
    if (97 <=? c) && (c <=? 102) then st 49
    else st 0
  else st 49.

Definition case_49 (c : Z) : transition action :=
  if c =? 58 then st 53
  else if c <? 65 then
    if (48 <=? c) && (c <=? 57) then st 50
    else st 0
  else if 70 <? c then
    if (97 <=? c) && (c <=? 102) then st 50
    else st 0
  else st 50.

Definition case_50 (c : Z) : transition action :=
  if c =? 58 then st 53
  else if c <? 65 then
    if (48 <=? c) && (c <=? 57) then st 51
    else st 0
  else if 70 <? c then
    if (97 <=? c) && (c <=? 102) then st 51
    else st 0
  else st 51.

Definition case_51 (c : Z) : transition action :=
  if c =? 58 then st 53
  else if c <? 65 then
    if (48 <=? c) && (c <=? 57) then st 52
    else st 0
  else if 70 <? c then
    if (97 <=? c) && (c <=? 102) then st 52
    else st 0
  else st 52.

Definition case_52 (c : Z) : transition action :=
  if c =? 58 then st 53
  else st 0.

Definition case_53 (c : Z) : transition action :=
  switch c [(49, st 84); (50, st 87)]
  (if c <? 65 then
    if (48 <=? c) && (c <=? 57) then st 54
    else st 0
  else if 70 <? c then
    if (97 <=? c) && (c <=? 102) then st 90
    else st 0
  else st 90).

Definition case_54 (c : Z) : transition action :=
  switch c [(46, st 55); (58, st 80)]
  (if c <? 65 then
    if (48 <=? c) && (c <=? 57) then st 77
    else st 0
  else if 70 <? c then
    if (97 <=? c) && (c <=? 102) then st 77
    else st 0
  else st 77).

Definition case_55 (c : Z) : transition action :=
  switch c [(49, st 72); (50, st 74)]
  (if (48 <=? c) && (c <=? 57) then st 56
  else st 0).

Definition case_56 (c : Z) : transition action :=
  if c =? 46 then st 57
  else st 0.

Definition case_57 (c : Z) : transition action :=
  switch c [(49, st 67); (50, st 69)]
  (if (48 <=? c) && (c <=? 57) then st 58
  else st 0).

Definition case_58 (c : Z) : transition action :=
  if c =? 46 then st 59
  else st 0.

Definition case_59 (c : Z) : transition action :=
  switch c [(49, st 62); (50, st 64)]
  (if (48 <=? c) && (c <=? 57) then st 60
  else st 0).

Definition case_60 (c : Z) : transition action :=
  if c =? 93 then st 61
  else st 0.

Definition case_61 (c : Z) : transition action :=
  switch c [(32, tr37); (35, tr39); (47, st 26); (58, st 46); (63, tr42)]
  (st 0).

Definition case_62 (c : Z) : transition action :=
  if c =? 93 then st 61
  else if (48 <=? c) && (c <=? 57) then st 63
  else st 0.

Definition case_63 (c : Z) : transition action :=
  if c =? 93 then st 61
  else if (48 <=? c) && (c <=? 57) then st 60
  else st 0.

Definition case_64 (c : Z) : transition action :=
  switch c [(48, st 65); (53, st 66); (93, st 61)]
  (st 0).

Definition case_65 (c : Z) : transition action :=
  if (48 <=? c) && (c <=? 57) then st 60
  else st 0.

Definition case_66 (c : Z) : transition action :=
  if c =? 48 then st 60
  else st 0.

Definition case_67 (c : Z) : transition action :=
  if c =? 46 then st 59
  else if (48 <=? c) && (c <=? 57) then st 68
  else st 0.

Definition case_68 (c : Z) : transition action :=
  if c =? 46 then st 59
  else if (48 <=? c) && (c <=? 57) then st 58
  else st 0.

Definition case_69 (c : Z) : transition action :=
  switch c [(46, st 59); (48, st 70); (53, st 71)]
  (st 0).

Definition case_70 (c : Z) : transition action :=
  if (48 <=? c) && (c <=? 57) then st 58
  else st 0.

Definition case_71 (c : Z) : transition action :=
  if c =? 48 then st 58
  else st 0.

Definition case_72 (c : Z) : transition action :=
  if c =? 46 then st 57
  else if (48 <=? c) && (c <=? 57) then st 73
  else st 0.

Definition case_73 (c : Z) : transition action :=
  if c =? 46 then st 57
  else if (48 <=? c) && (c <=? 57) then st 56
  else st 0.

Definition case_74 (c : Z) : transition action :=
  switch c [(46, st 57); (48, st 75); (53, st 76)]
  (st 0).

Definition case_75 (c : Z) : transition action :=
  if (48 <=? c) && (c <=? 57) then st 56
  else st 0.

Definition case_76 (c : Z) : transition action :=
  if c =? 48 then st 56
  else st 0.

Definition case_77 (c : Z) : transition action :=
  if c =? 58 then st 80
  else if c <? 65 then
    if (48 <=? c) && (c <=? 57) then st 78
    else st 0
  else if 70 <? c then
    if (97 <=? c) && (c <=? 102) then st 78
    else st 0
  else st 78.

Definition case_78 (c : Z) : transition action :=
  if c =? 58 then st 80
  else if c <? 65 then
    if (48 <=? c) && (c <=? 57) then st 79
    else st 0
  else if 70 <? c then
    if (97 <=? c) && (c <=? 102) then st 79
    else st 0
  else st 79.

Definition case_79 (c : Z) : transition action :=
  if c =? 58 then st 80
  else st 0.

Definition case_80 (c : Z) : transition action :=
  if c <? 65 then
    if (48 <=? c) && (c <=? 57) then st 81
    else st 0
  else if 70 <? c then
    if (97 <=? c) && (c <=? 102) then st 81
    else st 0
  else st 81.

Definition case_81 (c : Z) : transition action :=
  if c =? 93 then st 61
  else if c <? 65 then
    if (48 <=? c) && (c <=? 57) then st 82
    else st 0
  else if 70 <? c then
    if (97 <=? c) && (c <=? 102) then st 82
    else st 0
  else st 82.

Definition case_82 (c : Z) : transition action :=
  if c =? 93 then st 61
  else if c <? 65 then
    if (48 <=? c) && (c <=? 57) then st 83
    else st 0
  else if 70 <? c then
    if (97 <=? c) && (c <=? 102) then st 83
    else st 0
  else st 83.

Definition case_83 (c : Z) : transition action :=
  if c =? 93 then st 61
  else if c <? 65 then
    if (48 <=? c) && (c <=? 57) then st 60
    else st 0
  else if 70 <? c then
    if (97 <=? c) && (c <=? 102) then st 60
    else st 0
  else st 60.

Definition case_84 (c : Z) : transition action :=
  switch c [(46, st 55); (58, st 80)]
  (if c <? 65 then
    if (48 <=? c) && (c <=? 57) then st 85
    else st 0
  else if 70 <? c then
    if (97 <=? c) && (c <=? 102) then st 77
    else st 0
  else st 77).

Definition case_85 (c : Z) : transition action :=
  switch c [(46, st 55); (58, st 80)]
  (if c <? 65 then
    if (48 <=? c) && (c <=? 57) then st 86
    else st 0
  else if 70 <? c then
    if (97 <=? c) && (c <=? 102) then st 78
    else st 0
  else st 78).

Definition case_86 (c : Z) : transition action :=
  switch c [(46, st 55); (58, st 80)]
  (if c <? 65 then
    if (48 <=? c) && (c <=? 57) then st 79
    else st 0
  else if 70 <? c then
    if (97 <=? c) && (c <=? 102) then st 79
    else st 0
  else st 79).

Definition case_87 (c : Z) : transition action :=
  switch c [(46, st 55); (48, st 88); (53, st 89); (58, st 80)]
  (if c <? 65 then
    if (49 <=? c) && (c <=? 57) then st 77
    else st 0
  else if 70 <? c then
    if (97 <=? c) && (c <=? 102) then st 77
    else st 0
  else st 77).

Definition case_88 (c : Z) : transition action :=
  if c =? 58 then st 80
  else if c <? 65 then
    if (48 <=? c) && (c <=? 57) then st 86
    else st 0
  else if 70 <? c then
    if (97 <=? c) && (c <=? 102) then st 78
    else st 0
  else st 78.

Definition case_89 (c : Z) : transition action :=
  switch c [(48, st 86); (58, st 80)]
  (if c <? 65 then
    if (49 <=? c) && (c <=? 57) then st 78
    else st 0
  else if 70 <? c then
    if (97 <=? c) && (c <=? 102) then st 78
    else st 0
  else st 78).

Definition case_90 (c : Z) : transition action :=
  if c =? 58 then st 80
  else if c <? 65 then
    if (48 <=? c) && (c <=? 57) then st 77
    else st 0
  else if 70 <? c then
    if (97 <=? c) && (c <=? 102) then st 77
    else st 0
  else st 77.

Definition case_91 (c : Z) : transition action :=
  if c =? 58 then st 95
  else if c <? 65 then
    if (48 <=? c) && (c <=? 57) then st 92
    else st 0
  else if 70 <? c then
    if (97 <=? c) && (c <=? 102) then st 92
    else st 0
  else st 92.

Definition case_92 (c : Z) : transition action :=
  if c =? 58 then st 95
  else if c <? 65 then
    if (48 <=? c) && (c <=? 57) then st 93
    else st 0
  else if 70 <? c then
    if (97 <=? c) && (c <=? 102) then st 93
    else st 0
  else st 93.

Definition case_93 (c : Z) : transition action :=
  if c =? 58 then st 95
  else if c <? 65 then
    if (48 <=? c) && (c <=? 57) then st 94
    else st 0
  else if 70 <? c then
    if (97 <=? c) && (c <=? 102) then st 94
    else st 0
  else st 94.

Definition case_94 (c : Z) : transition action :=
  if c =? 58 then st 95
  else st 0.

Definition case_95 (c : Z) : transition action :=
  if c =? 58 then st 166
  else if c <? 65 then
    if (48 <=? c) && (c <=? 57) then st 96
    else st 0
  else if 70 <? c then
    if (97 <=? c) && (c <=? 102) then st 96
    else st 0
  else st 96.

Definition case_96 (c : Z) : transition action :=
  if c =? 58 then st 100
  else if c <? 65 then
    if (48 <=? c) && (c <=? 57) then st 97
    else st 0
  else if 70 <? c then
    if (97 <=? c) && (c <=? 102) then st 97
    else st 0
  else st 97.

Definition case_97 (c : Z) : transition action :=
  if c =? 58 then st 100
  else if c <? 65 then
    if (48 <=? c) && (c <=? 57) then st 98
    else st 0
  else if 70 <? c then
    if (97 <=? c) && (c <=? 102) then st 98
    else st 0
  else st 98.

Definition case_98 (c : Z) : transition action :=
  if c =? 58 then st 100
  else if c <? 65 then
    if (48 <=? c) && (c <=? 57) then st 99
    else st 0
  else if 70 <? c then
    if (97 <=? c) && (c <=? 102) then st 99
    else st 0
  else st 99.

Definition case_99 (c : Z) : transition action :=
  if c =? 58 then st 100
  else st 0.

Definition case_100 (c : Z) : transition action :=
  if c =? 58 then st 165
  else if c <? 65 then
    if (48 <=? c) && (c <=? 57) then st 101
    else st 0
  else if 70 <? c then
    if (97 <=? c) && (c <=? 102) then st 101
    else st 0
  else st 101.

Definition case_101 (c : Z) : transition action :=
  if c =? 58 then st 105
  else if c <? 65 then
    if (48 <=? c) && (c <=? 57) then st 102
    else st 0
  else if 70 <? c then
    if (97 <=? c) && (c <=? 102) then st 102
    else st 0
  else st 102.

Definition case_102 (c : Z) : transition action :=
  if c =? 58 then st 105
  else if c <? 65 then
    if (48 <=? c) && (c <=? 57) then st 103
    else st 0
  else if 70 <? c then
    if (97 <=? c) && (c <=? 102) then st 103
    else st 0
  else st 103.

Definition case_103 (c : Z) : transition action :=
  if c =? 58 then st 105
  else if c <? 65 then
    if (48 <=? c) && (c <=? 57) then st 104
    else st 0
  else if 70 <? c then
    if (97 <=? c) && (c <=? 102) then st 104
    else st 0
  else st 104.

Definition case_104 (c : Z) : transition action :=
  if c =? 58 then st 105
  else st 0.

Definition case_105 (c : Z) : transition action :=
  if c =? 58 then st 164
  else if c <? 65 then
    if (48 <=? c) && (c <=? 57) then st 106
    else st 0
  else if 70 <? c then
    if (97 <=? c) && (c <=? 102) then st 106
    else st 0
  else st 106.

Definition case_106 (c : Z) : transition action :=
  if c =? 58 then st 110
  else if c <? 65 then
    if (48 <=? c) && (c <=? 57) then st 107
    else st 0
  else if 70 <? c then
    if (97 <=? c) && (c <=? 102) then st 107
    else st 0
  else st 107.

Definition case_107 (c : Z) : transition action :=
  if c =? 58 then st 110
  else if c <? 65 then
    if (48 <=? c) && (c <=? 57) then st 108
    else st 0
  else if 70 <? c then
    if (97 <=? c) && (c <=? 102) then st 108
    else st 0
  else st 108.

Definition case_108 (c : Z) : transition action :=
  if c =? 58 then st 110
  else if c <? 65 then
    if (48 <=? c) && (c <=? 57) then st 109
    else st 0
  else if 70 <? c then
    if (97 <=? c) && (c <=? 102) then st 109
    else st 0
  else st 109.

Definition case_109 (c : Z) : transition action :=
  if c =? 58 then st 110
  else st 0.

Definition case_110 (c : Z) : transition action :=
  if c =? 58 then st 163
  else if c <? 65 then
    if (48 <=? c) && (c <=? 57) then st 111
    else st 0
  else if 70 <? c then
    if (97 <=? c) && (c <=? 102) then st 111
    else st 0
  else st 111.

Definition case_111 (c : Z) : transition action :=
  if c =? 58 then st 115
  else if c <? 65 then
    if (48 <=? c) && (c <=? 57) then st 112
    else st 0
  else if 70 <? c then
    if (97 <=? c) && (c <=? 102) then st 112
    else st 0
  else st 112.

Definition case_112 (c : Z) : transition action :=
  if c =? 58 then st 115
  else if c <? 65 then
    if (48 <=? c) && (c <=? 57) then st 113
    else st 0
  else if 70 <? c then
    if (97 <=? c) && (c <=? 102) then st 113
    else st 0
  else st 113.

Definition case_113 (c : Z) : transition action :=
  if c =? 58 then st 115
  else if c <? 65 then
    if (48 <=? c) && (c <=? 57) then st 114
    else st 0
  else if 70 <? c then
    if (97 <=? c) && (c <=? 102) then st 114
    else st 0
  else st 114.

Definition case_114 (c : Z) : transition action :=
  if c =? 58 then st 115
  else st 0.

Definition case_115 (c : Z) : transition action :=
  if c =? 58 then st 151
  else if c <? 65 then
    if (48 <=? c) && (c <=? 57) then st 116
    else st 0
  else if 70 <? c then
    if (97 <=? c) && (c <=? 102) then st 116
    else st 0
  else st 116.

Definition case_116 (c : Z) : transition action :=
  if c =? 58 then st 120
  else if c <? 65 then
    if (48 <=? c) && (c <=? 57) then st 117
    else st 0
  else if 70 <? c then
    if (97 <=? c) && (c <=? 102) then st 117
    else st 0
  else st 117.

Definition case_117 (c : Z) : transition action :=
  if c =? 58 then st 120
  else if c <? 65 then
    if (48 <=? c) && (c <=? 57) then st 118
    else st 0
  else if 70 <? c then
    if (97 <=? c) && (c <=? 102) then st 118
    else st 0
  else st 118.

Definition case_118 (c : Z) : transition action :=
  if c =? 58 then st 120
  else if c <? 65 then
    if (48 <=? c) && (c <=? 57) then st 119
    else st 0
  else if 70 <? c then
    if (97 <=? c) && (c <=? 102) then st 119
    else st 0
  else st 119.

Definition case_119 (c : Z) : transition action :=
  if c =? 58 then st 120
  else st 0.

Definition case_120 (c : Z) : transition action :=
  if c =? 58 then st 150
  else if c <? 65 then
    if (48 <=? c) && (c <=? 57) then st 121
    else st 0
  else if 70 <? c then
    if (97 <=? c) && (c <=? 102) then st 121
    else st 0
  else st 121.

Definition case_121 (c : Z) : transition action :=
  if c =? 58 then st 125
  else if c <? 65 then
    if (48 <=? c) && (c <=? 57) then st 122
    else st 0
  else if 70 <? c then
    if (97 <=? c) && (c <=? 102) then st 122
    else st 0
  else st 122.

Definition case_122 (c : Z) : transition action :=
  if c =? 58 then st 125
  else if c <? 65 then
    if (48 <=? c) && (c <=? 57) then st 123
    else st 0
  else if 70 <? c then
    if (97 <=? c) && (c <=? 102) then st 123
    else st 0
  else st 123.

Definition case_123 (c : Z) : transition action :=
  if c =? 58 then st 125
  else if c <? 65 then
    if (48 <=? c) && (c <=? 57) then st 124
    else st 0
  else if 70 <? c then
    if (97 <=? c) && (c <=? 102) then st 124
    else st 0
  else st 124.

Definition case_124 (c : Z) : transition action :=
  if c =? 58 then st 125
  else st 0.

Definition case_125 (c : Z) : transition action :=
  if c =? 58 then st 126
  else if c <? 65 then
    if (48 <=? c) && (c <=? 57) then st 121
    else st 0
  else if 70 <? c then
    if (97 <=? c) && (c <=? 102) then st 121
    else st 0
  else st 121.

Definition case_126 (c : Z) : transition action :=
  switch c [(49, st 143); (50, st 146); (93, st 61)]
  (if c <? 48 then
    if (2 <=? c) && (c <=? 3) then st 48
    else st 0
  else if 57 <? c then
    if 70 <? c then
      if (97 <=? c) && (c <=? 102) then st 149
      else st 0
    else if 65 <=? c then st 149
    else st 0
  else st 127).

Definition case_127 (c : Z) : transition action :=
  switch c [(46, st 55); (58, st 131); (93, st 61)]
  (if c <? 65 then
    if (48 <=? c) && (c <=? 57) then st 128
    else st 0
  else if 70 <? c then
    if (97 <=? c) && (c <=? 102) then st 128
    else st 0
  else st 128).

Definition case_128 (c : Z) : transition action :=
  switch c [(58, st 131); (93, st 61)]
  (if c <? 65 then
    if (48 <=? c) && (c <=? 57) then st 129
    else st 0
  else if 70 <? c then
    if (97 <=? c) && (c <=? 102) then st 129
    else st 0
  else st 129).

Definition case_129 (c : Z) : transition action :=
  switch c [(58, st 131); (93, st 61)]
  (if c <? 65 then
    if (48 <=? c) && (c <=? 57) then st 130
    else st 0
  else if 70 <? c then
    if (97 <=? c) && (c <=? 102) then st 130
    else st 0
  else st 130).

Definition case_130 (c : Z) : transition action :=
  switch c [(58, st 131); (93, st 61)]
  (st 0).

Definition case_131 (c : Z) : transition action :=
  switch c [(49, st 136); (50, st 139)]
  (if c <? 65 then
    if (48 <=? c) && (c <=? 57) then st 132
    else st 0
  else if 70 <? c then
    if (97 <=? c) && (c <=? 102) then st 142
    else st 0
  else st 142).

Definition case_132 (c : Z) : transition action :=
  switch c [(46, st 55); (58, st 80); (93, st 61)]
  (if c <? 65 then
    if (48 <=? c) && (c <=? 57) then st 133
    else st 0
  else if 70 <? c then
    if (97 <=? c) && (c <=? 102) then st 133
    else st 0
  else st 133).

Definition case_133 (c : Z) : transition action :=
  switch c [(58, st 80); (93, st 61)]
  (if c <? 65 then
    if (48 <=? c) && (c <=? 57) then st 134
    else st 0
  else if 70 <? c then
    if (97 <=? c) && (c <=? 102) then st 134
    else st 0
  else st 134).

Definition case_134 (c : Z) : transition action :=
  switch c [(58, st 80); (93, st 61)]
  (if c <? 65 then
    if (48 <=? c) && (c <=? 57) then st 135
    else st 0
  else if 70 <? c then
    if (97 <=? c) && (c <=? 102) then st 135
    else st 0
  else st 135).

Definition case_135 (c : Z) : transition action :=
  switch c [(58, st 80); (93, st 61)]
  (st 0).

Definition case_136 (c : Z) : transition action :=
  switch c [(46, st 55); (58, st 80); (93, st 61)]
  (if c <? 65 then
    if (48 <=? c) && (c <=? 57) then st 137
    else st 0
  else if 70 <? c then
    if (97 <=? c) && (c <=? 102) then st 133
    else st 0
  else st 133).

Definition case_137 (c : Z) : transition action :=
  switch c [(46, st 55); (58, st 80); (93, st 61)]
  (if c <? 65 then
    if (48 <=? c) && (c <=? 57) then st 138
    else st 0
  else if 70 <? c then
    if (97 <=? c) && (c <=? 102) then st 134
    else st 0
  else st 134).

Definition case_138 (c : Z) : transition action :=
  switch c [(46, st 55); (58, st 80); (93, st 61)]
  (if c <? 65 then
    if (48 <=? c) && (c <=? 57) then st 135
    else st 0
  else if 70 <? c then
    if (97 <=? c) && (c <=? 102) then st 135
    else st 0
  else st 135).

Definition case_139 (c : Z) : transition action :=
  switch c [(46, st 55); (48, st 140); (53, st 141); (58, st 80); (93, st 61)]
  (if c <? 65 then
    if (49 <=? c) && (c <=? 57) then st 133
    else st 0
  else if 70 <? c then
    if (97 <=? c) && (c <=? 102) then st 133
    else st 0
  else st 133).

Definition case_140 (c : Z) : transition action :=
  switch c [(58, st 80); (93, st 61)]
  (if c <? 65 then
    if (48 <=? c) && (c <=? 57) then st 138
    else st 0
  else if 70 <? c then
    if (97 <=? c) && (c <=? 102) then st 134
    else st 0
  else st 134).

Definition case_141 (c : Z) : transition action :=
  switch c [(48, st 138); (58, st 80); (93, st 61)]
  (if c <? 65 then
    if (49 <=? c) && (c <=? 57) then st 134
    else st 0
  else if 70 <? c then
    if (97 <=? c) && (c <=? 102) then st 134
    else st 0
  else st 134).

Definition case_142 (c : Z) : transition action :=
  switch c [(58, st 80); (93, st 61)]
  (if c <? 65 then
    if (48 <=? c) && (c <=? 57) then st 133
    else st 0
  else if 70 <? c then
    if (97 <=? c) && (c <=? 102) then st 133
    else st 0
  else st 133).

Definition case_143 (c : Z) : transition action :=
  switch c [(46, st 55); (58, st 131); (93, st 61)]
  (if c <? 65 then
    if (48 <=? c) && (c <=? 57) then st 144
    else st 0
  else if 70 <? c then
    if (97 <=? c) && (c <=? 102) then st 128
    else st 0
  else st 128).

Definition case_144 (c : Z) : transition action :=
  switch c [(46, st 55); (58, st 131); (93, st 61)]
  (if c <? 65 then
    if (48 <=? c) && (c <=? 57) then st 145
    else st 0
  else if 70 <? c then
    if (97 <=? c) && (c <=? 102) then st 129
    else st 0
  else st 129).

Definition case_145 (c : Z) : transition action :=
  switch c [(46, st 55); (58, st 131); (93, st 61)]
  (if c <? 65 then
    if (48 <=? c) && (c <=? 57) then st 130
    else st 0
  else if 70 <? c then
    if (97 <=? c) && (c <=? 102) then st 130
    else st 0
  else st 130).

Definition case_146 (c : Z) : transition action :=
  switch c [(46, st 55); (48, st 147); (53, st 148); (58, st 131); (93, st 61)]
  (if c <? 65 then
    if (49 <=? c) && (c <=? 57) then st 128
    else st 0
  else if 70 <? c then
    if (97 <=? c) && (c <=? 102) then st 128
    else st 0
  else st 128).

Definition case_147 (c : Z) : transition action :=
  switch c [(58, st 131); (93, st 61)]
  (if c <? 65 then
    if (48 <=? c) && (c <=? 57) then st 145
    else st 0
  else if 70 <? c then
    if (97 <=? c) && (c <=? 102) then st 129
    else st 0
  else st 129).

Definition case_148 (c : Z) : transition action :=
  switch c [(48, st 145); (58, st 131); (93, st 61)]
  (if c <? 65 then
    if (49 <=? c) && (c <=? 57) then st 129
    else st 0
  else if 70 <? c then
    if (97 <=? c) && (c <=? 102) then st 129
    else st 0
  else st 129).

Definition case_149 (c : Z) : transition action :=
  switch c [(58, st 131); (93, st 61)]
  (if c <? 65 then
    if (48 <=? c) && (c <=? 57) then st 128
    else st 0
  else if 70 <? c then
    if (97 <=? c) && (c <=? 102) then st 128
    else st 0
  else st 128).

Definition case_150 (c : Z) : transition action :=
  switch c [(49, st 143); (50, st 146)]
  (if c <? 48 then
    if (2 <=? c) && (c <=? 3) then st 48
    else st 0
  else if 57 <? c then
    if 70 <? c then
      if (97 <=? c) && (c <=? 102) then st 149
      else st 0
    else if 65 <=? c then st 149
    else st 0
  else st 127).

Definition case_151 (c : Z) : transition action :=
  switch c [(49, st 156); (50, st 159)]
  (if c <? 48 then
    if (2 <=? c) && (c <=? 3) then st 48
    else st 0
  else if 57 <? c then
    if 70 <? c then
      if (97 <=? c) && (c <=? 102) then st 162
      else st 0
    else if 65 <=? c then st 162
    else st 0
  else st 152).

Definition case_152 (c : Z) : transition action :=
  switch c [(46, st 55); (58, st 131)]
  (if c <? 65 then
    if (48 <=? c) && (c <=? 57) then st 153
    else st 0
  else if 70 <? c then
    if (97 <=? c) && (c <=? 102) then st 153
    else st 0
  else st 153).

Definition case_153 (c : Z) : transition action :=
  if c =? 58 then st 131
  else if c <? 65 then
    if (48 <=? c) && (c <=? 57) then st 154
    else st 0
  else if 70 <? c then
    if (97 <=? c) && (c <=? 102) then st 154
    else st 0
  else st 154.

Definition case_154 (c : Z) : transition action :=
  if c =? 58 then st 131
  else if c <? 65 then
    if (48 <=? c) && (c <=? 57) then st 155
    else st 0
  else if 70 <? c then
    if (97 <=? c) && (c <=? 102) then st 155
    else st 0
  else st 155.

Definition case_155 (c : Z) : transition action :=
  if c =? 58 then st 131
  else st 0.

Definition case_156 (c : Z) : transition action :=
  switch c [(46, st 55); (58, st 131)]
  (if c <? 65 then
    if (48 <=? c) && (c <=? 57) then st 157
    else st 0
  else if 70 <? c then
    if (97 <=? c) && (c <=? 102) then st 153
    else st 0
  else st 153).

Definition case_157 (c : Z) : transition action :=
  switch c [(46, st 55); (58, st 131)]
  (if c <? 65 then
    if (48 <=? c) && (c <=? 57) then st 158
    else st 0
  else if 70 <? c then
    if (97 <=? c) && (c <=? 102) then st 154
    else st 0
  else st 154).

Definition case_158 (c : Z) : transition action :=
  switch c [(46, st 55); (58, st 131)]
  (if c <? 65 then
    if (48 <=? c) && (c <=? 57) then st 155
    else st 0
  else if 70 <? c then
    if (97 <=? c) && (c <=? 102) then st 155
    else st 0
  else st 155).

Definition case_159 (c : Z) : transition action :=
  switch c [(46, st 55); (48, st 160); (53, st 161); (58, st 131)]
  (if c <? 65 then
    if (49 <=? c) && (c <=? 57) then st 153
    else st 0
  else if 70 <? c then
    if (97 <=? c) && (c <=? 102) then st 153
    else st 0
  else st 153).

Definition case_160 (c : Z) : transition action :=
  if c =? 58 then st 131
  else if c <? 65 then
    if (48 <=? c) && (c <=? 57) then st 158
    else st 0
  else if 70 <? c then
    if (97 <=? c) && (c <=? 102) then st 154
    else st 0
  else st 154.

Definition case_161 (c : Z) : transition action :=
  switch c [(48, st 158); (58, st 131)]
  (if c <? 65 then
    if (49 <=? c) && (c <=? 57) then st 154
    else st 0
  else if 70 <? c then
    if (97 <=? c) && (c <=? 102) then st 154
    else st 0
  else st 154).

Definition case_162 (c : Z) : transition action :=
  if c =? 58 then st 131
  else if c <? 65 then
    if (48 <=? c) && (c <=? 57) then st 153
    else st 0
  else if 70 <? c then
    if (97 <=? c) && (c <=? 102) then st 153
    else st 0
  else st 153.

Definition case_163 (c : Z) : transition action :=
  if c <? 48 then
    if (2 <=? c) && (c <=? 3) then st 48
    else st 0
  else if 57 <? c then
    if 70 <? c then
      if (97 <=? c) && (c <=? 102) then st 49
      else st 0
    else if 65 <=? c then st 49
    else st 0
  else st 49.

Definition case_164 (c : Z) : transition action :=
  if (2 <=? c) && (c <=? 3) then st 48
  else st 0.

Definition case_165 (c : Z) : transition action :=
  if c =? 3 then st 48
  else st 0.

Definition case_166 (c : Z) : transition action :=
  if c =? 4 then st 48
  else st 0.

Definition case_167 (c : Z) : transition action :=
  if c =? 58 then st 168
  else st 0.

Definition case_168 (c : Z) : transition action :=
  switch c [(49, st 143); (50, st 146); (93, st 61)]
  (if c <? 48 then
    if (2 <=? c) && (c <=? 5) then st 48
    else st 0
  else if 57 <? c then
    if 70 <? c then
      if (97 <=? c) && (c <=? 102) then st 149
      else st 0
    else if 65 <=? c then st 149
    else st 0
  else st 127).

Definition case_169 (c : Z) : transition action :=
  if c <? 65 then
    if (48 <=? c) && (c <=? 57) then st 170
    else st 0
  else if 70 <? c then
    if (97 <=? c) && (c <=? 102) then st 170
    else st 0
  else st 170.

Definition case_170 (c : Z) : transition action :=
  if c =? 46 then st 171
  else if c <? 65 then
    if (48 <=? c) && (c <=? 57) then st 170
    else st 0
  else if 70 <? c then
    if (97 <=? c) && (c <=? 102) then st 170
    else st 0
  else st 170.

Definition case_171 (relaxed : bool) (c : Z) : transition action :=
  let w := widec relaxed c in
  switch w [(33, st 172); (36, st 172); (61, st 172); (95, st 172); (126, st 172);
    (606, st 172); (635, st 172); (637, st 172)]
  (if w <? 48 then
    if (38 <=? w) && (w <=? 46) then st 172
    else st 0
  else if 59 <? w then
    if 90 <? w then
      if (97 <=? w) && (w <=? 122) then st 172
      else st 0
    else if 65 <=? w then st 172
    else st 0
  else st 172).

Definition case_172 (relaxed : bool) (c : Z) : transition action :=
  let w := widec relaxed c in
  switch w [(33, st 172); (36, st 172); (61, st 172); (93, st 61); (95, st 172);
    (126, st 172); (606, st 172); (635, st 172); (637, st 172)]
  (if w <? 48 then
    if (38 <=? w) && (w <=? 46) then st 172
    else st 0
  else if 59 <? w then
    if 90 <? w then
      if (97 <=? w) && (w <=? 122) then st 172
      else st 0
    else if 65 <=? w then st 172
    else st 0
  else st 172).

Definition case_173 (relaxed : bool) (c : Z) : transition action :=
  let w := widec relaxed c in
  switch w [(32, tr37); (33, st 19); (35, tr39); (37, st 24); (43, st 173); (47, st 26);
    (58, st 174); (59, st 19); (61, st 19); (63, tr42); (64, st 19); (95, st 19);
    (126, st 19); (606, st 19); (635, st 19); (637, st 19)]
  (if w <? 45 then
    if (36 <=? w) && (w <=? 44) then st 19
    else st 0
  else if 57 <? w then
    if 90 <? w then
      if (97 <=? w) && (w <=? 122) then st 173
      else st 0
    else if 65 <=? w then st 173
    else st 0
  else st 173).

Definition case_174 (relaxed : bool) (c : Z) : transition action :=
  let w := widec relaxed c in
  switch w [(32, tr6); (33, tr203); (35, tr8); (37, tr204); (47, tr10); (61, tr203);
    (63, tr11); (95, tr203); (126, tr203); (606, tr203); (635, tr203);
    (637, tr203)]
  (if w <? 64 then
    if (36 <=? w) && (w <=? 59) then tr203
    else st 0
  else if 90 <? w then
    if (97 <=? w) && (w <=? 122) then tr203
    else st 0
  else tr203).

Definition case_175 (c : Z) : transition action :=
  if c =? 32 then tr4
  else if 57 <? c then
    if (65 <=? c) && (c <=? 90) then st 176
    else st 0
  else if 48 <=? c then st 176
  else st 0.

Definition case_176 (c : Z) : transition action :=
  if c =? 32 then tr4
  else if 57 <? c then
    if (65 <=? c) && (c <=? 90) then st 177
    else st 0
  else if 48 <=? c then st 177
  else st 0.

Definition case_177 (c : Z) : transition action :=
  if c =? 32 then tr4
  else if 57 <? c then
    if (65 <=? c) && (c <=? 90) then st 178
    else st 0
  else if 48 <=? c then st 178
  else st 0.

Definition case_178 (c : Z) : transition action :=
  if c =? 32 then tr4
  else if 57 <? c then
    if (65 <=? c) && (c <=? 90) then st 179
    else st 0
  else if 48 <=? c then st 179
  else st 0.

Definition case_179 (c : Z) : transition action :=
  if c =? 32 then tr4
  else if 57 <? c then
    if (65 <=? c) && (c <=? 90) then st 180
    else st 0
  else if 48 <=? c then st 180
  else st 0.

Definition case_180 (c : Z) : transition action :=
  if c =? 32 then tr4
  else if 57 <? c then
    if (65 <=? c) && (c <=? 90) then st 181
    else st 0
  else if 48 <=? c then st 181
  else st 0.

Definition case_181 (c : Z) : transition action :=
  if c =? 32 then tr4
  else if 57 <? c then
    if (65 <=? c) && (c <=? 90) then st 182
    else st 0
  else if 48 <=? c then st 182
  else st 0.

Definition case_182 (c : Z) : transition action :=
  if c =? 32 then tr4
  else if 57 <? c then
    if (65 <=? c) && (c <=? 90) then st 183
    else st 0
  else if 48 <=? c then st 183
  else st 0.

Definition case_183 (c : Z) : transition action :=
  if c =? 32 then tr4
  else if 57 <? c then
    if (65 <=? c) && (c <=? 90) then st 184
    else st 0
  else if 48 <=? c then st 184
  else st 0.

Definition case_184 (c : Z) : transition action :=
  if c =? 32 then tr4
  else if 57 <? c then
    if (65 <=? c) && (c <=? 90) then st 185
    else st 0
  else if 48 <=? c then st 185
  else st 0.

Definition case_185 (c : Z) : transition action :=
  if c =? 32 then tr4
  else if 57 <? c then
    if (65 <=? c) && (c <=? 90) then st 186
    else st 0
  else if 48 <=? c then st 186
  else st 0.

Definition case_186 (c : Z) : transition action :=
  if c =? 32 then tr4
  else if 57 <? c then
    if (65 <=? c) && (c <=? 90) then st 187
    else st 0
  else if 48 <=? c then st 187
  else st 0.

Definition case_187 (c : Z) : transition action :=
  if c =? 32 then tr4
  else if 57 <? c then
    if (65 <=? c) && (c <=? 90) then st 188
    else st 0
  else if 48 <=? c then st 188
  else st 0.

Definition case_188 (c : Z) : transition action :=
  if c =? 32 then tr4
  else if 57 <? c then
    if (65 <=? c) && (c <=? 90) then st 189
    else st 0
  else if 48 <=? c then st 189
  else st 0.

Definition case_189 (c : Z) : transition action :=
  if c =? 32 then tr4
  else if 57 <? c then
    if (65 <=? c) && (c <=? 90) then st 190
    else st 0
  else if 48 <=? c then st 190
  else st 0.

Definition case_190 (c : Z) : transition action :=
  if c =? 32 then tr4
  else if 57 <? c then
    if (65 <=? c) && (c <=? 90) then st 191
    else st 0
  else if 48 <=? c then st 191
  else st 0.

Definition case_191 (c : Z) : transition action :=
  if c =? 32 then tr4
  else if 57 <? c then
    if (65 <=? c) && (c <=? 90) then st 192
    else st 0
  else if 48 <=? c then st 192
  else st 0.

Definition case_192 (c : Z) : transition action :=
  if c =? 32 then tr4
  else if 57 <? c then
    if (65 <=? c) && (c <=? 90) then st 193
    else st 0
  else if 48 <=? c then st 193
  else st 0.

Definition case_193 (c : Z) : transition action :=
  if c =? 32 then tr4
  else st 0.

Definition case_194 (c : Z) : transition action :=
  if c <? 48 then
    if (45 <=? c) && (c <=? 46) then st 195
    else st 0
  else if 57 <? c then
    if 90 <? c then
      if (97 <=? c) && (c <=? 122) then st 195
      else st 0
    else if 65 <=? c then st 195
    else st 0
  else st 195.

Definition case_195 (c : Z) : transition action :=
  switch c [(32, tr224); (47, tr224); (62, tr224)]
  (if c <? 45 then
    if (9 <=? c) && (c <=? 13) then tr224
    else st 0
  else if 57 <? c then
    if 90 <? c then
      if (97 <=? c) && (c <=? 122) then st 195
      else st 0
    else if 65 <=? c then st 195
    else st 0
  else st 195).

Definition case_196 (c : Z) : transition action :=
  if c =? 62 then st 197
  else st 196.

Definition case_197 (c : Z) : transition action :=
  switch c [(0, tr227); (62, st 197)]
  (st 196).

Definition case_198 (relaxed : bool) (c : Z) : transition action :=
  let w := widec relaxed c in
  switch w [(32, tr228); (33, st 202); (37, st 203); (47, st 208); (59, st 202);
    (61, st 202); (95, st 202); (126, st 202); (606, st 202); (635, st 202);
    (637, st 202)]
  (if w <? 64 then
    if (36 <=? w) && (w <=? 57) then st 202
    else st 0
  else if 90 <? w then
    if (97 <=? w) && (w <=? 122) then st 202
    else st 0
  else st 202).

Definition case_199 (c : Z) : transition action :=
  if c =? 123 then tr232
  else st 0.

Definition case_200 (c : Z) : transition action :=
  if c =? 125 then st 201
  else st 200.

Definition case_201 (c : Z) : transition action :=
  switch c [(0, tr235); (125, st 201)]
  (st 200).

Definition case_202 (relaxed : bool) (c : Z) : transition action :=
  let w := widec relaxed c in
  switch w [(32, tr228); (33, st 202); (37, st 203); (47, st 205); (59, st 202);
    (61, st 202); (95, st 202); (126, st 202); (606, st 202); (635, st 202);
    (637, st 202)]
  (if w <? 64 then
    if (36 <=? w) && (w <=? 57) then st 202
    else st 0
  else if 90 <? w then
    if (97 <=? w) && (w <=? 122) then st 202
    else st 0
  else st 202).

Definition case_203 (c : Z) : transition action :=
  if c <? 65 then
    if (48 <=? c) && (c <=? 57) then st 204
    else st 0
  else if 70 <? c then
    if (97 <=? c) && (c <=? 102) then st 204
    else st 0
  else st 204.

Definition case_204 (c : Z) : transition action :=
  if c <? 65 then
    if (48 <=? c) && (c <=? 57) then st 202
    else st 0
  else if 70 <? c then
    if (97 <=? c) && (c <=? 102) then st 202
    else st 0
  else st 202.

Definition case_205 (relaxed : bool) (c : Z) : transition action :=
  let w := widec relaxed c in
  switch w [(32, tr228); (33, st 205); (37, st 206); (61, st 205); (95, st 205);
    (126, st 205); (606, st 205); (635, st 205); (637, st 205)]
  (if w <? 64 then
    if (36 <=? w) && (w <=? 59) then st 205
    else st 0
  else if 90 <? w then
    if (97 <=? w) && (w <=? 122) then st 205
    else st 0
  else st 205).

Definition case_206 (c : Z) : transition action :=
  if c <? 65 then
    if (48 <=? c) && (c <=? 57) then st 207
    else st 0
  else if 70 <? c then
    if (97 <=? c) && (c <=? 102) then st 207
    else st 0
  else st 207.

Definition case_207 (c : Z) : transition action :=
  if c <? 65 then
    if (48 <=? c) && (c <=? 57) then st 205
    else st 0
  else if 70 <? c then
    if (97 <=? c) && (c <=? 102) then st 205
    else st 0
  else st 205.

Definition case_208 (relaxed : bool) (c : Z) : transition action :=
  let w := widec relaxed c in
  switch w [(32, tr228); (33, st 205); (37, st 206); (47, st 209); (61, st 205);
    (95, st 205); (126, st 205); (606, st 205); (635, st 205); (637, st 205)]
  (if w <? 64 then
    if (36 <=? w) && (w <=? 59) then st 205
    else st 0
  else if 90 <? w then
    if (97 <=? w) && (w <=? 122) then st 205
    else st 0
  else st 205).

Definition case_209 (relaxed : bool) (c : Z) : transition action :=
  let w := widec relaxed c in
  switch w [(32, tr228); (33, st 210); (37, st 211); (47, st 205); (58, st 213);
    (61, st 210); (64, st 217); (91, st 222); (95, st 210); (126, st 210);
    (606, st 210); (635, st 210); (637, st 210)]
  (if w <? 65 then
    if (36 <=? w) && (w <=? 59) then st 210
    else st 0
  else if 90 <? w then
    if (97 <=? w) && (w <=? 122) then st 210
    else st 0
  else st 210).

Definition case_210 (relaxed : bool) (c : Z) : transition action :=
  let w := widec relaxed c in
  switch w [(32, tr228); (33, st 210); (37, st 211); (47, st 205); (58, st 213);
    (61, st 210); (64, st 217); (95, st 210); (126, st 210); (606, st 210);
    (635, st 210); (637, st 210)]
  (if w <? 65 then
    if (36 <=? w) && (w <=? 59) then st 210
    else st 0
  else if 90 <? w then
    if (97 <=? w) && (w <=? 122) then st 210
    else st 0
  else st 210).

Definition case_211 (c : Z) : transition action :=
  if c <? 65 then
    if (48 <=? c) && (c <=? 57) then st 212
    else st 0
  else if 70 <? c then
    if (97 <=? c) && (c <=? 102) then st 212
    else st 0
  else st 212.

Definition case_212 (c : Z) : transition action :=
  if c <? 65 then
    if (48 <=? c) && (c <=? 57) then st 210
    else st 0
  else if 70 <? c then
    if (97 <=? c) && (c <=? 102) then st 210
    else st 0
  else st 210.

Definition case_213 (relaxed : bool) (c : Z) : transition action :=
  let w := widec relaxed c in
  switch w [(32, tr228); (33, st 214); (37, st 215); (47, st 205); (61, st 214);
    (64, st 217); (95, st 214); (126, st 214); (606, st 214); (635, st 214);
    (637, st 214)]
  (if w <? 58 then
    if 46 <? w then
      if (48 <=? w) && (w <=? 57) then st 213
      else st 0
    else if 36 <=? w then st 214
    else st 0
  else if 59 <? w then
    if 90 <? w then
      if (97 <=? w) && (w <=? 122) then st 214
      else st 0
    else if 65 <=? w then st 214
    else st 0
  else st 214).

Definition case_214 (relaxed : bool) (c : Z) : transition action :=
  let w := widec relaxed c in
  switch w [(33, st 214); (37, st 215); (61, st 214); (64, st 217); (95, st 214);
    (126, st 214); (606, st 214); (635, st 214); (637, st 214)]
  (if w <? 48 then
    if (36 <=? w) && (w <=? 46) then st 214
    else st 0
  else if 59 <? w then
    if 90 <? w then
      if (97 <=? w) && (w <=? 122) then st 214
      else st 0
    else if 65 <=? w then st 214
    else st 0
  else st 214).

Definition case_215 (c : Z) : transition action :=
  if c <? 65 then
    if (48 <=? c) && (c <=? 57) then st 216
    else st 0
  else if 70 <? c then
    if (97 <=? c) && (c <=? 102) then st 216
    else st 0
  else st 216.

Definition case_216 (c : Z) : transition action :=
  if c <? 65 then
    if (48 <=? c) && (c <=? 57) then st 214
    else st 0
  else if 70 <? c then
    if (97 <=? c) && (c <=? 102) then st 214
    else st 0
  else st 214.

Definition case_217 (relaxed : bool) (c : Z) : transition action :=
  let w := widec relaxed c in
  switch w [(32, tr228); (33, st 218); (37, st 219); (47, st 205); (58, st 221);
    (61, st 218); (91, st 222); (95, st 218); (126, st 218); (606, st 218);
    (635, st 218); (637, st 218)]
  (if w <? 65 then
    if (36 <=? w) && (w <=? 59) then st 218
    else st 0
  else if 90 <? w then
    if (97 <=? w) && (w <=? 122) then st 218
    else st 0
  else st 218).

Definition case_218 (relaxed : bool) (c : Z) : transition action :=
  let w := widec relaxed c in
  switch w [(32, tr228); (33, st 218); (37, st 219); (47, st 205); (58, st 221);
    (61, st 218); (95, st 218); (126, st 218); (606, st 218); (635, st 218);
    (637, st 218)]
  (if w <? 65 then
    if (36 <=? w) && (w <=? 59) then st 218
    else st 0
  else if 90 <? w then
    if (97 <=? w) && (w <=? 122) then st 218
    else st 0
  else st 218).

Definition case_219 (c : Z) : transition action :=
  if c <? 65 then
    if (48 <=? c) && (c <=? 57) then st 220
    else st 0
  else if 70 <? c then
    if (97 <=? c) && (c <=? 102) then st 220
    else st 0
  else st 220.

Definition case_220 (c : Z) : transition action :=
  if c <? 65 then
    if (48 <=? c) && (c <=? 57) then st 218
    else st 0
  else if 70 <? c then
    if (97 <=? c) && (c <=? 102) then st 218
    else st 0
  else st 218.

Definition case_221 (c : Z) : transition action :=
  switch c [(32, tr228); (47, st 205)]
  (if (48 <=? c) && (c <=? 57) then st 221
  else st 0).

Definition case_222 (c : Z) : transition action :=
  switch c [(6, st 223); (58, st 342); (118, st 344)]
  (if c <? 65 then
    if (48 <=? c) && (c <=? 57) then st 266
    else st 0
  else if 70 <? c then
    if (97 <=? c) && (c <=? 102) then st 266
    else st 0
  else st 266).

Definition case_223 (c : Z) : transition action :=
  if c <? 65 then
    if (48 <=? c) && (c <=? 57) then st 224
    else st 0
  else if 70 <? c then
    if (97 <=? c) && (c <=? 102) then st 224
    else st 0
  else st 224.

Definition case_224 (c : Z) : transition action :=
  if c =? 58 then st 228
  else if c <? 65 then
    if (48 <=? c) && (c <=? 57) then st 225
    else st 0
  else if 70 <? c then
    if (97 <=? c) && (c <=? 102) then st 225
    else st 0
  else st 225.

Definition case_225 (c : Z) : transition action :=
  if c =? 58 then st 228
  else if c <? 65 then
    if (48 <=? c) && (c <=? 57) then st 226
    else st 0
  else if 70 <? c then
    if (97 <=? c) && (c <=? 102) then st 226
    else st 0
  else st 226.

Definition case_226 (c : Z) : transition action :=
  if c =? 58 then st 228
  else if c <? 65 then
    if (48 <=? c) && (c <=? 57) then st 227
    else st 0
  else if 70 <? c then
    if (97 <=? c) && (c <=? 102) then st 227
    else st 0
  else st 227.

Definition case_227 (c : Z) : transition action :=
  if c =? 58 then st 228
  else st 0.

Definition case_228 (c : Z) : transition action :=
  switch c [(49, st 259); (50, st 262)]
  (if c <? 65 then
    if (48 <=? c) && (c <=? 57) then st 229
    else st 0
  else if 70 <? c then
    if (97 <=? c) && (c <=? 102) then st 265
    else st 0
  else st 265).

Definition case_229 (c : Z) : transition action :=
  switch c [(46, st 230); (58, st 255)]
  (if c <? 65 then
    if (48 <=? c) && (c <=? 57) then st 252
    else st 0
  else if 70 <? c then
    if (97 <=? c) && (c <=? 102) then st 252
    else st 0
  else st 252).

Definition case_230 (c : Z) : transition action :=
  switch c [(49, st 247); (50, st 249)]
  (if (48 <=? c) && (c <=? 57) then st 231
  else st 0).

Definition case_231 (c : Z) : transition action :=
  if c =? 46 then st 232
  else st 0.

Definition case_232 (c : Z) : transition action :=
  switch c [(49, st 242); (50, st 244)]
  (if (48 <=? c) && (c <=? 57) then st 233
  else st 0).

Definition case_233 (c : Z) : transition action :=
  if c =? 46 then st 234
  else st 0.

Definition case_234 (c : Z) : transition action :=
  switch c [(49, st 237); (50, st 239)]
  (if (48 <=? c) && (c <=? 57) then st 235
  else st 0).

Definition case_235 (c : Z) : transition action :=
  if c =? 93 then st 236
  else st 0.

Definition case_236 (c : Z) : transition action :=
  switch c [(32, tr228); (47, st 205); (58, st 221)]
  (st 0).

Definition case_237 (c : Z) : transition action :=
  if c =? 93 then st 236
  else if (48 <=? c) && (c <=? 57) then st 238
  else st 0.

Definition case_238 (c : Z) : transition action :=
  if c =? 93 then st 236
  else if (48 <=? c) && (c <=? 57) then st 235
  else st 0.

Definition case_239 (c : Z) : transition action :=
  switch c [(48, st 240); (53, st 241); (93, st 236)]
  (st 0).

Definition case_240 (c : Z) : transition action :=
  if (48 <=? c) && (c <=? 57) then st 235
  else st 0.

Definition case_241 (c : Z) : transition action :=
  if c =? 48 then st 235
  else st 0.

Definition case_242 (c : Z) : transition action :=
  if c =? 46 then st 234
  else if (48 <=? c) && (c <=? 57) then st 243
  else st 0.

Definition case_243 (c : Z) : transition action :=
  if c =? 46 then st 234
  else if (48 <=? c) && (c <=? 57) then st 233
  else st 0.

Definition case_244 (c : Z) : transition action :=
  switch c [(46, st 234); (48, st 245); (53, st 246)]
  (st 0).

Definition case_245 (c : Z) : transition action :=
  if (48 <=? c) && (c <=? 57) then st 233
  else st 0.

Definition case_246 (c : Z) : transition action :=
  if c =? 48 then st 233
  else st 0.

Definition case_247 (c : Z) : transition action :=
  if c =? 46 then st 232
  else if (48 <=? c) && (c <=? 57) then st 248
  else st 0.

Definition case_248 (c : Z) : transition action :=
  if c =? 46 then st 232
  else if (48 <=? c) && (c <=? 57) then st 231
  else st 0.

Definition case_249 (c : Z) : transition action :=
  switch c [(46, st 232); (48, st 250); (53, st 251)]
  (st 0).

Definition case_250 (c : Z) : transition action :=
  if (48 <=? c) && (c <=? 57) then st 231
  else st 0.

Definition case_251 (c : Z) : transition action :=
  if c =? 48 then st 231
  else st 0.

Definition case_252 (c : Z) : transition action :=
  if c =? 58 then st 255
  else if c <? 65 then
    if (48 <=? c) && (c <=? 57) then st 253
    else st 0
  else if 70 <? c then
    if (97 <=? c) && (c <=? 102) then st 253
    else st 0
  else st 253.

Definition case_253 (c : Z) : transition action :=
  if c =? 58 then st 255
  else if c <? 65 then
    if (48 <=? c) && (c <=? 57) then st 254
    else st 0
  else if 70 <? c then
    if (97 <=? c) && (c <=? 102) then st 254
    else st 0
  else st 254.

Definition case_254 (c : Z) : transition action :=
  if c =? 58 then st 255
  else st 0.

Definition case_255 (c : Z) : transition action :=
  if c <? 65 then
    if (48 <=? c) && (c <=? 57) then st 256
    else st 0
  else if 70 <? c then
    if (97 <=? c) && (c <=? 102) then st 256
    else st 0
  else st 256.

Definition case_256 (c : Z) : transition action :=
  if c =? 93 then st 236
  else if c <? 65 then
    if (48 <=? c) && (c <=? 57) then st 257
    else st 0
  else if 70 <? c then
    if (97 <=? c) && (c <=? 102) then st 257
    else st 0
  else st 257.

Definition case_257 (c : Z) : transition action :=
  if c =? 93 then st 236
  else if c <? 65 then
    if (48 <=? c) && (c <=? 57) then st 258
    else st 0
  else if 70 <? c then
    if (97 <=? c) && (c <=? 102) then st 258
    else st 0
  else st 258.

Definition case_258 (c : Z) : transition action :=
  if c =? 93 then st 236
  else if c <? 65 then
    if (48 <=? c) && (c <=? 57) then st 235
    else st 0
  else if 70 <? c then
    if (97 <=? c) && (c <=? 102) then st 235
    else st 0
  else st 235.

Definition case_259 (c : Z) : transition action :=
  switch c [(46, st 230); (58, st 255)]
  (if c <? 65 then
    if (48 <=? c) && (c <=? 57) then st 260
    else st 0
  else if 70 <? c then
    if (97 <=? c) && (c <=? 102) then st 252
    else st 0
  else st 252).

Definition case_260 (c : Z) : transition action :=
  switch c [(46, st 230); (58, st 255)]
  (if c <? 65 then
    if (48 <=? c) && (c <=? 57) then st 261
    else st 0
  else if 70 <? c then
    if (97 <=? c) && (c <=? 102) then st 253
    else st 0
  else st 253).

Definition case_261 (c : Z) : transition action :=
  switch c [(46, st 230); (58, st 255)]
  (if c <? 65 then
    if (48 <=? c) && (c <=? 57) then st 254
    else st 0
  else if 70 <? c then
    if (97 <=? c) && (c <=? 102) then st 254
    else st 0
  else st 254).

Definition case_262 (c : Z) : transition action :=
  switch c [(46, st 230); (48, st 263); (53, st 264); (58, st 255)]
  (if c <? 65 then
    if (49 <=? c) && (c <=? 57) then st 252
    else st 0
  else if 70 <? c then
    if (97 <=? c) && (c <=? 102) then st 252
    else st 0
  else st 252).

Definition case_263 (c : Z) : transition action :=
  if c =? 58 then st 255
  else if c <? 65 then
    if (48 <=? c) && (c <=? 57) then st 261
    else st 0
  else if 70 <? c then
    if (97 <=? c) && (c <=? 102) then st 253
    else st 0
  else st 253.

Definition case_264 (c : Z) : transition action :=
  switch c [(48, st 261); (58, st 255)]
  (if c <? 65 then
    if (49 <=? c) && (c <=? 57) then st 253
    else st 0
  else if 70 <? c then
    if (97 <=? c) && (c <=? 102) then st 253
    else st 0
  else st 253).

Definition case_265 (c : Z) : transition action :=
  if c =? 58 then st 255
  else if c <? 65 then
    if (48 <=? c) && (c <=? 57) then st 252
    else st 0
  else if 70 <? c then
    if (97 <=? c) && (c <=? 102) then st 252
    else st 0
  else st 252.

Definition case_266 (c : Z) : transition action :=
  if c =? 58 then st 270
  else if c <? 65 then
    if (48 <=? c) && (c <=? 57) then st 267
    else st 0
  else if 70 <? c then
    if (97 <=? c) && (c <=? 102) then st 267
    else st 0
  else st 267.

Definition case_267 (c : Z) : transition action :=
  if c =? 58 then st 270
  else if c <? 65 then
    if (48 <=? c) && (c <=? 57) then st 268
    else st 0
  else if 70 <? c then
    if (97 <=? c) && (c <=? 102) then st 268
    else st 0
  else st 268.

Definition case_268 (c : Z) : transition action :=
  if c =? 58 then st 270
  else if c <? 65 then
    if (48 <=? c) && (c <=? 57) then st 269
    else st 0
  else if 70 <? c then
    if (97 <=? c) && (c <=? 102) then st 269
    else st 0
  else st 269.

Definition case_269 (c : Z) : transition action :=
  if c =? 58 then st 270
  else st 0.

Definition case_270 (c : Z) : transition action :=
  if c =? 58 then st 341
  else if c <? 65 then
    if (48 <=? c) && (c <=? 57) then st 271
    else st 0
  else if 70 <? c then
    if (97 <=? c) && (c <=? 102) then st 271
    else st 0
  else st 271.

Definition case_271 (c : Z) : transition action :=
  if c =? 58 then st 275
  else if c <? 65 then
    if (48 <=? c) && (c <=? 57) then st 272
    else st 0
  else if 70 <? c then
    if (97 <=? c) && (c <=? 102) then st 272
    else st 0
  else st 272.

Definition case_272 (c : Z) : transition action :=
  if c =? 58 then st 275
  else if c <? 65 then
    if (48 <=? c) && (c <=? 57) then st 273
    else st 0
  else if 70 <? c then
    if (97 <=? c) && (c <=? 102) then st 273
    else st 0
  else st 273.

Definition case_273 (c : Z) : transition action :=
  if c =? 58 then st 275
  else if c <? 65 then
    if (48 <=? c) && (c <=? 57) then st 274
    else st 0
  else if 70 <? c then
    if (97 <=? c) && (c <=? 102) then st 274
    else st 0
  else st 274.

Definition case_274 (c : Z) : transition action :=
  if c =? 58 then st 275
  else st 0.

Definition case_275 (c : Z) : transition action :=
  if c =? 58 then st 340
  else if c <? 65 then
    if (48 <=? c) && (c <=? 57) then st 276
    else st 0
  else if 70 <? c then
    if (97 <=? c) && (c <=? 102) then st 276
    else st 0
  else st 276.

Definition case_276 (c : Z) : transition action :=
  if c =? 58 then st 280
  else if c <? 65 then
    if (48 <=? c) && (c <=? 57) then st 277
    else st 0
  else if 70 <? c then
    if (97 <=? c) && (c <=? 102) then st 277
    else st 0
  else st 277.

Definition case_277 (c : Z) : transition action :=
  if c =? 58 then st 280
  else if c <? 65 then
    if (48 <=? c) && (c <=? 57) then st 278
    else st 0
  else if 70 <? c then
    if (97 <=? c) && (c <=? 102) then st 278
    else st 0
  else st 278.

Definition case_278 (c : Z) : transition action :=
  if c =? 58 then st 280
  else if c <? 65 then
    if (48 <=? c) && (c <=? 57) then st 279
    else st 0
  else if 70 <? c then
    if (97 <=? c) && (c <=? 102) then st 279
    else st 0
  else st 279.

Definition case_279 (c : Z) : transition action :=
  if c =? 58 then st 280
  else st 0.

Definition case_280 (c : Z) : transition action :=
  if c =? 58 then st 339
  else if c <? 65 then
    if (48 <=? c) && (c <=? 57) then st 281
    else st 0
  else if 70 <? c then
    if (97 <=? c) && (c <=? 102) then st 281
    else st 0
  else st 281.

Definition case_281 (c : Z) : transition action :=
  if c =? 58 then st 285
  else if c <? 65 then
    if (48 <=? c) && (c <=? 57) then st 282
    else st 0
  else if 70 <? c then
    if (97 <=? c) && (c <=? 102) then st 282
    else st 0
  else st 282.

Definition case_282 (c : Z) : transition action :=
  if c =? 58 then st 285
  else if c <? 65 then
    if (48 <=? c) && (c <=? 57) then st 283
    else st 0
  else if 70 <? c then
    if (97 <=? c) && (c <=? 102) then st 283
    else st 0
  else st 283.

Definition case_283 (c : Z) : transition action :=
  if c =? 58 then st 285
  else if c <? 65 then
    if (48 <=? c) && (c <=? 57) then st 284
    else st 0
  else if 70 <? c then
    if (97 <=? c) && (c <=? 102) then st 284
    else st 0
  else st 284.

Definition case_284 (c : Z) : transition action :=
  if c =? 58 then st 285
  else st 0.

Definition case_285 (c : Z) : transition action :=
  if c =? 58 then st 338
  else if c <? 65 then
    if (48 <=? c) && (c <=? 57) then st 286
    else st 0
  else if 70 <? c then
    if (97 <=? c) && (c <=? 102) then st 286
    else st 0
  else st 286.

Definition case_286 (c : Z) : transition action :=
  if c =? 58 then st 290
  else if c <? 65 then
    if (48 <=? c) && (c <=? 57) then st 287
    else st 0
  else if 70 <? c then
    if (97 <=? c) && (c <=? 102) then st 287
    else st 0
  else st 287.

Definition case_287 (c : Z) : transition action :=
  if c =? 58 then st 290
  else if c <? 65 then
    if (48 <=? c) && (c <=? 57) then st 288
    else st 0
  else if 70 <? c then
    if (97 <=? c) && (c <=? 102) then st 288
    else st 0
  else st 288.

Definition case_288 (c : Z) : transition action :=
  if c =? 58 then st 290
  else if c <? 65 then
    if (48 <=? c) && (c <=? 57) then st 289
    else st 0
  else if 70 <? c then
    if (97 <=? c) && (c <=? 102) then st 289
    else st 0
  else st 289.

Definition case_289 (c : Z) : transition action :=
  if c =? 58 then st 290
  else st 0.

Definition case_290 (c : Z) : transition action :=
  if c =? 58 then st 326
  else if c <? 65 then
    if (48 <=? c) && (c <=? 57) then st 291
    else st 0
  else if 70 <? c then
    if (97 <=? c) && (c <=? 102) then st 291
    else st 0
  else st 291.

Definition case_291 (c : Z) : transition action :=
  if c =? 58 then st 295
  else if c <? 65 then
    if (48 <=? c) && (c <=? 57) then st 292
    else st 0
  else if 70 <? c then
    if (97 <=? c) && (c <=? 102) then st 292
    else st 0
  else st 292.

Definition case_292 (c : Z) : transition action :=
  if c =? 58 then st 295
  else if c <? 65 then
    if (48 <=? c) && (c <=? 57) then st 293
    else st 0
  else if 70 <? c then
    if (97 <=? c) && (c <=? 102) then st 293
    else st 0
  else st 293.

Definition case_293 (c : Z) : transition action :=
  if c =? 58 then st 295
  else if c <? 65 then
    if (48 <=? c) && (c <=? 57) then st 294
    else st 0
  else if 70 <? c then
    if (97 <=? c) && (c <=? 102) then st 294
    else st 0
  else st 294.

Definition case_294 (c : Z) : transition action :=
  if c =? 58 then st 295
  else st 0.

Definition case_295 (c : Z) : transition action :=
  if c =? 58 then st 325
  else if c <? 65 then
    if (48 <=? c) && (c <=? 57) then st 296
    else st 0
  else if 70 <? c then
    if (97 <=? c) && (c <=? 102) then st 296
    else st 0
  else st 296.

Definition case_296 (c : Z) : transition action :=
  if c =? 58 then st 300
  else if c <? 65 then
    if (48 <=? c) && (c <=? 57) then st 297
    else st 0
  else if 70 <? c then
    if (97 <=? c) && (c <=? 102) then st 297
    else st 0
  else st 297.

Definition case_297 (c : Z) : transition action :=
  if c =? 58 then st 300
  else if c <? 65 then
    if (48 <=? c) && (c <=? 57) then st 298
    else st 0
  else if 70 <? c then
    if (97 <=? c) && (c <=? 102) then st 298
    else st 0
  else st 298.

Definition case_298 (c : Z) : transition action :=
  if c =? 58 then st 300
  else if c <? 65 then
    if (48 <=? c) && (c <=? 57) then st 299
    else st 0
  else if 70 <? c then
    if (97 <=? c) && (c <=? 102) then st 299
    else st 0
  else st 299.

Definition case_299 (c : Z) : transition action :=
  if c =? 58 then st 300
  else st 0.

Definition case_300 (c : Z) : transition action :=
  if c =? 58 then st 301
  else if c <? 65 then
    if (48 <=? c) && (c <=? 57) then st 296
    else st 0
  else if 70 <? c then
    if (97 <=? c) && (c <=? 102) then st 296
    else st 0
  else st 296.

Definition case_301 (c : Z) : transition action :=
  switch c [(49, st 318); (50, st 321); (93, st 236)]
  (if c <? 48 then
    if (2 <=? c) && (c <=? 3) then st 223
    else st 0
  else if 57 <? c then
    if 70 <? c then
      if (97 <=? c) && (c <=? 102) then st 324
      else st 0
    else if 65 <=? c then st 324
    else st 0
  else st 302).

Definition case_302 (c : Z) : transition action :=
  switch c [(46, st 230); (58, st 306); (93, st 236)]
  (if c <? 65 then
    if (48 <=? c) && (c <=? 57) then st 303
    else st 0
  else if 70 <? c then
    if (97 <=? c) && (c <=? 102) then st 303
    else st 0
  else st 303).

Definition case_303 (c : Z) : transition action :=
  switch c [(58, st 306); (93, st 236)]
  (if c <? 65 then
    if (48 <=? c) && (c <=? 57) then st 304
    else st 0
  else if 70 <? c then
    if (97 <=? c) && (c <=? 102) then st 304
    else st 0
  else st 304).

Definition case_304 (c : Z) : transition action :=
  switch c [(58, st 306); (93, st 236)]
  (if c <? 65 then
    if (48 <=? c) && (c <=? 57) then st 305
    else st 0
  else if 70 <? c then
    if (97 <=? c) && (c <=? 102) then st 305
    else st 0
  else st 305).

Definition case_305 (c : Z) : transition action :=
  switch c [(58, st 306); (93, st 236)]
  (st 0).

Definition case_306 (c : Z) : transition action :=
  switch c [(49, st 311); (50, st 314)]
  (if c <? 65 then
    if (48 <=? c) && (c <=? 57) then st 307
    else st 0
  else if 70 <? c then
    if (97 <=? c) && (c <=? 102) then st 317
    else st 0
  else st 317).

Definition case_307 (c : Z) : transition action :=
  switch c [(46, st 230); (58, st 255); (93, st 236)]
  (if c <? 65 then
    if (48 <=? c) && (c <=? 57) then st 308
    else st 0
  else if 70 <? c then
    if (97 <=? c) && (c <=? 102) then st 308
    else st 0
  else st 308).

Definition case_308 (c : Z) : transition action :=
  switch c [(58, st 255); (93, st 236)]
  (if c <? 65 then
    if (48 <=? c) && (c <=? 57) then st 309
    else st 0
  else if 70 <? c then
    if (97 <=? c) && (c <=? 102) then st 309
    else st 0
  else st 309).

Definition case_309 (c : Z) : transition action :=
  switch c [(58, st 255); (93, st 236)]
  (if c <? 65 then
    if (48 <=? c) && (c <=? 57) then st 310
    else st 0
  else if 70 <? c then
    if (97 <=? c) && (c <=? 102) then st 310
    else st 0
  else st 310).

Definition case_310 (c : Z) : transition action :=
  switch c [(58, st 255); (93, st 236)]
  (st 0).

Definition case_311 (c : Z) : transition action :=
  switch c [(46, st 230); (58, st 255); (93, st 236)]
  (if c <? 65 then
    if (48 <=? c) && (c <=? 57) then st 312
    else st 0
  else if 70 <? c then
    if (97 <=? c) && (c <=? 102) then st 308
    else st 0
  else st 308).

Definition case_312 (c : Z) : transition action :=
  switch c [(46, st 230); (58, st 255); (93, st 236)]
  (if c <? 65 then
    if (48 <=? c) && (c <=? 57) then st 313
    else st 0
  else if 70 <? c then
    if (97 <=? c) && (c <=? 102) then st 309
    else st 0
  else st 309).

Definition case_313 (c : Z) : transition action :=
  switch c [(46, st 230); (58, st 255); (93, st 236)]
  (if c <? 65 then
    if (48 <=? c) && (c <=? 57) then st 310
    else st 0
  else if 70 <? c then
    if (97 <=? c) && (c <=? 102) then st 310
    else st 0
  else st 310).

Definition case_314 (c : Z) : transition action :=
  switch c [(46, st 230); (48, st 315); (53, st 316); (58, st 255); (93, st 236)]
  (if c <? 65 then
    if (49 <=? c) && (c <=? 57) then st 308
    else st 0
  else if 70 <? c then
    if (97 <=? c) && (c <=? 102) then st 308
    else st 0
  else st 308).

Definition case_315 (c : Z) : transition action :=
  switch c [(58, st 255); (93, st 236)]
  (if c <? 65 then
    if (48 <=? c) && (c <=? 57) then st 313
    else st 0
  else if 70 <? c then
    if (97 <=? c) && (c <=? 102) then st 309
    else st 0
  else st 309).

Definition case_316 (c : Z) : transition action :=
  switch c [(48, st 313); (58, st 255); (93, st 236)]
  (if c <? 65 then
    if (49 <=? c) && (c <=? 57) then st 309
    else st 0
  else if 70 <? c then
    if (97 <=? c) && (c <=? 102) then st 309
    else st 0
  else st 309).

Definition case_317 (c : Z) : transition action :=
  switch c [(58, st 255); (93, st 236)]
  (if c <? 65 then
    if (48 <=? c) && (c <=? 57) then st 308
    else st 0
  else if 70 <? c then
    if (97 <=? c) && (c <=? 102) then st 308
    else st 0
  else st 308).

Definition case_318 (c : Z) : transition action :=
  switch c [(46, st 230); (58, st 306); (93, st 236)]
  (if c <? 65 then
    if (48 <=? c) && (c <=? 57) then st 319
    else st 0
  else if 70 <? c then
    if (97 <=? c) && (c <=? 102) then st 303
    else st 0
  else st 303).

Definition case_319 (c : Z) : transition action :=
  switch c [(46, st 230); (58, st 306); (93, st 236)]
  (if c <? 65 then
    if (48 <=? c) && (c <=? 57) then st 320
    else st 0
  else if 70 <? c then
    if (97 <=? c) && (c <=? 102) then st 304
    else st 0
  else st 304).

Definition case_320 (c : Z) : transition action :=
  switch c [(46, st 230); (58, st 306); (93, st 236)]
  (if c <? 65 then
    if (48 <=? c) && (c <=? 57) then st 305
    else st 0
  else if 70 <? c then
    if (97 <=? c) && (c <=? 102) then st 305
    else st 0
  else st 305).

Definition case_321 (c : Z) : transition action :=
  switch c [(46, st 230); (48, st 322); (53, st 323); (58, st 306); (93, st 236)]
  (if c <? 65 then
    if (49 <=? c) && (c <=? 57) then st 303
    else st 0
  else if 70 <? c then
    if (97 <=? c) && (c <=? 102) then st 303
    else st 0
  else st 303).

Definition case_322 (c : Z) : transition action :=
  switch c [(58, st 306); (93, st 236)]
  (if c <? 65 then
    if (48 <=? c) && (c <=? 57) then st 320
    else st 0
  else if 70 <? c then
    if (97 <=? c) && (c <=? 102) then st 304
    else st 0
  else st 304).

Definition case_323 (c : Z) : transition action :=
  switch c [(48, st 320); (58, st 306); (93, st 236)]
  (if c <? 65 then
    if (49 <=? c) && (c <=? 57) then st 304
    else st 0
  else if 70 <? c then
    if (97 <=? c) && (c <=? 102) then st 304
    else st 0
  else st 304).

Definition case_324 (c : Z) : transition action :=
  switch c [(58, st 306); (93, st 236)]
  (if c <? 65 then
    if (48 <=? c) && (c <=? 57) then st 303
    else st 0
  else if 70 <? c then
    if (97 <=? c) && (c <=? 102) then st 303
    else st 0
  else st 303).

Definition case_325 (c : Z) : transition action :=
  switch c [(49, st 318); (50, st 321)]
  (if c <? 48 then
    if (2 <=? c) && (c <=? 3) then st 223
    else st 0
  else if 57 <? c then
    if 70 <? c then
      if (97 <=? c) && (c <=? 102) then st 324
      else st 0
    else if 65 <=? c then st 324
    else st 0
  else st 302).

Definition case_326 (c : Z) : transition action :=
  switch c [(49, st 331); (50, st 334)]
  (if c <? 48 then
    if (2 <=? c) && (c <=? 3) then st 223
    else st 0
  else if 57 <? c then
    if 70 <? c then
      if (97 <=? c) && (c <=? 102) then st 337
      else st 0
    else if 65 <=? c then st 337
    else st 0
  else st 327).

Definition case_327 (c : Z) : transition action :=
  switch c [(46, st 230); (58, st 306)]
  (if c <? 65 then
    if (48 <=? c) && (c <=? 57) then st 328
    else st 0
  else if 70 <? c then
    if (97 <=? c) && (c <=? 102) then st 328
    else st 0
  else st 328).

Definition case_328 (c : Z) : transition action :=
  if c =? 58 then st 306
  else if c <? 65 then
    if (48 <=? c) && (c <=? 57) then st 329
    else st 0
  else if 70 <? c then
    if (97 <=? c) && (c <=? 102) then st 329
    else st 0
  else st 329.

Definition case_329 (c : Z) : transition action :=
  if c =? 58 then st 306
  else if c <? 65 then
    if (48 <=? c) && (c <=? 57) then st 330
    else st 0
  else if 70 <? c then
    if (97 <=? c) && (c <=? 102) then st 330
    else st 0
  else st 330.

Definition case_330 (c : Z) : transition action :=
  if c =? 58 then st 306
  else st 0.

Definition case_331 (c : Z) : transition action :=
  switch c [(46, st 230); (58, st 306)]
  (if c <? 65 then
    if (48 <=? c) && (c <=? 57) then st 332
    else st 0
  else if 70 <? c then
    if (97 <=? c) && (c <=? 102) then st 328
    else st 0
  else st 328).

Definition case_332 (c : Z) : transition action :=
  switch c [(46, st 230); (58, st 306)]
  (if c <? 65 then
    if (48 <=? c) && (c <=? 57) then st 333
    else st 0
  else if 70 <? c then
    if (97 <=? c) && (c <=? 102) then st 329
    else st 0
  else st 329).

Definition case_333 (c : Z) : transition action :=
  switch c [(46, st 230); (58, st 306)]
  (if c <? 65 then
    if (48 <=? c) && (c <=? 57) then st 330
    else st 0
  else if 70 <? c then
    if (97 <=? c) && (c <=? 102) then st 330
    else st 0
  else st 330).

Definition case_334 (c : Z) : transition action :=
  switch c [(46, st 230); (48, st 335); (53, st 336); (58, st 306)]
  (if c <? 65 then
    if (49 <=? c) && (c <=? 57) then st 328
    else st 0
  else if 70 <? c then
    if (97 <=? c) && (c <=? 102) then st 328
    else st 0
  else st 328).

Definition case_335 (c : Z) : transition action :=
  if c =? 58 then st 306
  else if c <? 65 then
    if (48 <=? c) && (c <=? 57) then st 333
    else st 0
  else if 70 <? c then
    if (97 <=? c) && (c <=? 102) then st 329
    else st 0
  else st 329.

Definition case_336 (c : Z) : transition action :=
  switch c [(48, st 333); (58, st 306)]
  (if c <? 65 then
    if (49 <=? c) && (c <=? 57) then st 329
    else st 0
  else if 70 <? c then
    if (97 <=? c) && (c <=? 102) then st 329
    else st 0
  else st 329).

Definition case_337 (c : Z) : transition action :=
  if c =? 58 then st 306
  else if c <? 65 then
    if (48 <=? c) && (c <=? 57) then st 328
    else st 0
  else if 70 <? c then
    if (97 <=? c) && (c <=? 102) then st 328
    else st 0
  else st 328.

Definition case_338 (c : Z) : transition action :=
  if c <? 48 then
    if (2 <=? c) && (c <=? 3) then st 223
    else st 0
  else if 57 <? c then
    if 70 <? c then
      if (97 <=? c) && (c <=? 102) then st 224
      else st 0
    else if 65 <=? c then st 224
    else st 0
  else st 224.

Definition case_339 (c : Z) : transition action :=
  if (2 <=? c) && (c <=? 3) then st 223
  else st 0.

Definition case_340 (c : Z) : transition action :=
  if c =? 3 then st 223
  else st 0.

Definition case_341 (c : Z) : transition action :=
  if c =? 4 then st 223
  else st 0.

Definition case_342 (c : Z) : transition action :=
  if c =? 58 then st 343
  else st 0.

Definition case_343 (c : Z) : transition action :=
  switch c [(49, st 318); (50, st 321); (93, st 236)]
  (if c <? 48 then
    if (2 <=? c) && (c <=? 5) then st 223
    else st 0
  else if 57 <? c then
    if 70 <? c then
      if (97 <=? c) && (c <=? 102) then st 324
      else st 0
    else if 65 <=? c then st 324
    else st 0
  else st 302).

Definition case_344 (c : Z) : transition action :=
  if c <? 65 then
    if (48 <=? c) && (c <=? 57) then st 345
    else st 0
  else if 70 <? c then
    if (97 <=? c) && (c <=? 102) then st 345
    else st 0
  else st 345.

Definition case_345 (c : Z) : transition action :=
  if c =? 46 then st 346
  else if c <? 65 then
    if (48 <=? c) && (c <=? 57) then st 345
    else st 0
  else if 70 <? c then
    if (97 <=? c) && (c <=? 102) then st 345
    else st 0
  else st 345.

Definition case_346 (relaxed : bool) (c : Z) : transition action :=
  let w := widec relaxed c in
  switch w [(33, st 347); (36, st 347); (61, st 347); (95, st 347); (126, st 347);
    (606, st 347); (635, st 347); (637, st 347)]
  (if w <? 48 then
    if (38 <=? w) && (w <=? 46) then st 347
    else st 0
  else if 59 <? w then
    if 90 <? w then
      if (97 <=? w) && (w <=? 122) then st 347
      else st 0
    else if 65 <=? w then st 347
    else st 0
  else st 347).

Definition case_347 (relaxed : bool) (c : Z) : transition action :=
  let w := widec relaxed c in
  switch w [(33, st 347); (36, st 347); (61, st 347); (93, st 236); (95, st 347);
    (126, st 347); (606, st 347); (635, st 347); (637, st 347)]
  (if w <? 48 then
    if (38 <=? w) && (w <=? 46) then st 347
    else st 0
  else if 59 <? w then
    if 90 <? w then
      if (97 <=? w) && (w <=? 122) then st 347
      else st 0
    else if 65 <=? w then st 347
    else st 0
  else st 347).

Definition case_348 (c : Z) : transition action :=
  switch c [(33, st 14); (58, tr27); (124, st 14); (126, st 14)]
  (if c <? 42 then
    if c <? 10 then
      if (1 <=? c) && (c <=? 8) then st 14
      else st 0
    else if 31 <? c then
      if (35 <=? c) && (c <=? 39) then st 14
      else st 0
    else st 14
  else if 43 <? c then
    if c <? 48 then
      if (45 <=? c) && (c <=? 46) then st 14
      else st 0
    else if 57 <? c then
      if 90 <? c then
        if (94 <=? c) && (c <=? 122) then st 14
        else st 0
      else if 65 <=? c then st 14
      else st 0
    else st 14
  else st 14).

Definition case_349 (c : Z) : transition action :=
  st 0.

(** [switch ( cs )]: a value without a case falls through to _test_eof2. *)
Definition dispatch (relaxed : bool) (cs c : Z) : option (transition action) :=
  match cs with
  | 1 => Some (case_1 c)
  | 2 => Some (case_2 c)
  | 3 => Some (case_3 relaxed c)
  | 4 => Some (case_4 c)
  | 5 => Some (case_5 c)
  | 6 => Some (case_6 c)
  | 7 => Some (case_7 c)
  | 8 => Some (case_8 c)
  | 9 => Some (case_9 c)
  | 10 => Some (case_10 c)
  | 11 => Some (case_11 c)
  | 12 => Some (case_12 c)
  | 13 => Some (case_13 c)
  | 14 => Some (case_14 c)
  | 15 => Some (case_15 c)
  | 16 => Some (case_16 c)
  | 17 => Some (case_17 c)
  | 18 => Some (case_18 c)
  | 19 => Some (case_19 relaxed c)
  | 20 => Some (case_20 relaxed c)
  | 21 => Some (case_21 relaxed c)
  | 22 => Some (case_22 c)
  | 23 => Some (case_23 c)
  | 24 => Some (case_24 c)
  | 25 => Some (case_25 c)
  | 26 => Some (case_26 relaxed c)
  | 27 => Some (case_27 c)
  | 28 => Some (case_28 c)
  | 29 => Some (case_29 relaxed c)
  | 30 => Some (case_30 relaxed c)
  | 31 => Some (case_31 c)
  | 32 => Some (case_32 c)
  | 33 => Some (case_33 relaxed c)
  | 34 => Some (case_34 relaxed c)
  | 35 => Some (case_35 relaxed c)
  | 36 => Some (case_36 c)
  | 37 => Some (case_37 c)
  | 38 => Some (case_38 relaxed c)
  | 39 => Some (case_39 relaxed c)
  | 40 => Some (case_40 c)
  | 41 => Some (case_41 c)
  | 42 => Some (case_42 relaxed c)
  | 43 => Some (case_43 relaxed c)
  | 44 => Some (case_44 c)
  | 45 => Some (case_45 c)
  | 46 => Some (case_46 c)
  | 47 => Some (case_47 c)
  | 48 => Some (case_48 c)
  | 49 => Some (case_49 c)
  | 50 => Some (case_50 c)
  | 51 => Some (case_51 c)
  | 52 => Some (case_52 c)
  | 53 => Some (case_53 c)
  | 54 => Some (case_54 c)
  | 55 => Some (case_55 c)
  | 56 => Some (case_56 c)
  | 57 => Some (case_57 c)
  | 58 => Some (case_58 c)
  | 59 => Some (case_59 c)
  | 60 => Some (case_60 c)
  | 61 => Some (case_61 c)
  | 62 => Some (case_62 c)
  | 63 => Some (case_63 c)
  | 64 => Some (case_64 c)
  | 65 => Some (case_65 c)
  | 66 => Some (case_66 c)
  | 67 => Some (case_67 c)
  | 68 => Some (case_68 c)
  | 69 => Some (case_69 c)
  | 70 => Some (case_70 c)
  | 71 => Some (case_71 c)
  | 72 => Some (case_72 c)
  | 73 => Some (case_73 c)
  | 74 => Some (case_74 c)
  | 75 => Some (case_75 c)
  | 76 => Some (case_76 c)
  | 77 => Some (case_77 c)
  | 78 => Some (case_78 c)
  | 79 => Some (case_79 c)
  | 80 => Some (case_80 c)
  | 81 => Some (case_81 c)
  | 82 => Some (case_82 c)
  | 83 => Some (case_83 c)
  | 84 => Some (case_84 c)
  | 85 => Some (case_85 c)
  | 86 => Some (case_86 c)
  | 87 => Some (case_87 c)
  | 88 => Some (case_88 c)
  | 89 => Some (case_89 c)
  | 90 => Some (case_90 c)
  | 91 => Some (case_91 c)
  | 92 => Some (case_92 c)
  | 93 => Some (case_93 c)
  | 94 => Some (case_94 c)
  | 95 => Some (case_95 c)
  | 96 => Some (case_96 c)
  | 97 => Some (case_97 c)
  | 98 => Some (case_98 c)
  | 99 => Some (case_99 c)
  | 100 => Some (case_100 c)
  | 101 => Some (case_101 c)
  | 102 => Some (case_102 c)
  | 103 => Some (case_103 c)
  | 104 => Some (case_104 c)
  | 105 => Some (case_105 c)
  | 106 => Some (case_106 c)
  | 107 => Some (case_107 c)
  | 108 => Some (case_108 c)
  | 109 => Some (case_109 c)
  | 110 => Some (case_110 c)
  | 111 => Some (case_111 c)
  | 112 => Some (case_112 c)
  | 113 => Some (case_113 c)
  | 114 => Some (case_114 c)
  | 115 => Some (case_115 c)
  | 116 => Some (case_116 c)
  | 117 => Some (case_117 c)
  | 118 => Some (case_118 c)
  | 119 => Some (case_119 c)
  | 120 => Some (case_120 c)
  | 121 => Some (case_121 c)
  | 122 => Some (case_122 c)
  | 123 => Some (case_123 c)
  | 124 => Some (case_124 c)
  | 125 => Some (case_125 c)
  | 126 => Some (case_126 c)
  | 127 => Some (case_127 c)
  | 128 => Some (case_128 c)
  | 129 => Some (case_129 c)
  | 130 => Some (case_130 c)
  | 131 => Some (case_131 c)
  | 132 => Some (case_132 c)
  | 133 => Some (case_133 c)
  | 134 => Some (case_134 c)
  | 135 => Some (case_135 c)
  | 136 => Some (case_136 c)
  | 137 => Some (case_137 c)
  | 138 => Some (case_138 c)
  | 139 => Some (case_139 c)
  | 140 => Some (case_140 c)
  | 141 => Some (case_141 c)
  | 142 => Some (case_142 c)
  | 143 => Some (case_143 c)
  | 144 => Some (case_144 c)
  | 145 => Some (case_145 c)
  | 146 => Some (case_146 c)
  | 147 => Some (case_147 c)
  | 148 => Some (case_148 c)
  | 149 => Some (case_149 c)
  | 150 => Some (case_150 c)
  | 151 => Some (case_151 c)
  | 152 => Some (case_152 c)
  | 153 => Some (case_153 c)
  | 154 => Some (case_154 c)
  | 155 => Some (case_155 c)
  | 156 => Some (case_156 c)
  | 157 => Some (case_157 c)
  | 158 => Some (case_158 c)
  | 159 => Some (case_159 c)
  | 160 => Some (case_160 c)
  | 161 => Some (case_161 c)
  | 162 => Some (case_162 c)
  | 163 => Some (case_163 c)
  | 164 => Some (case_164 c)
  | 165 => Some (case_165 c)
  | 166 => Some (case_166 c)
  | 167 => Some (case_167 c)
  | 168 => Some (case_168 c)
  | 169 => Some (case_169 c)
  | 170 => Some (case_170 c)
  | 171 => Some (case_171 relaxed c)
  | 172 => Some (case_172 relaxed c)
  | 173 => Some (case_173 relaxed c)
  | 174 => Some (case_174 relaxed c)
  | 175 => Some (case_175 c)
  | 176 => Some (case_176 c)
  | 177 => Some (case_177 c)
  | 178 => Some (case_178 c)
  | 179 => Some (case_179 c)
  | 180 => Some (case_180 c)
  | 181 => Some (case_181 c)
  | 182 => Some (case_182 c)
  | 183 => Some (case_183 c)
  | 184 => Some (case_184 c)
  | 185 => Some (case_185 c)
  | 186 => Some (case_186 c)
  | 187 => Some (case_187 c)
  | 188 => Some (case_188 c)
  | 189 => Some (case_189 c)
  | 190 => Some (case_190 c)
  | 191 => Some (case_191 c)
  | 192 => Some (case_192 c)
  | 193 => Some (case_193 c)
  | 194 => Some (case_194 c)
  | 195 => Some (case_195 c)
  | 196 => Some (case_196 c)
  | 197 => Some (case_197 c)
  | 198 => Some (case_198 relaxed c)
  | 199 => Some (case_199 c)
  | 200 => Some (case_200 c)
  | 201 => Some (case_201 c)
  | 202 => Some (case_202 relaxed c)
  | 203 => Some (case_203 c)
  | 204 => Some (case_204 c)
  | 205 => Some (case_205 relaxed c)
  | 206 => Some (case_206 c)
  | 207 => Some (case_207 c)
  | 208 => Some (case_208 relaxed c)
  | 209 => Some (case_209 relaxed c)
  | 210 => Some (case_210 relaxed c)
  | 211 => Some (case_211 c)
  | 212 => Some (case_212 c)
  | 213 => Some (case_213 relaxed c)
  | 214 => Some (case_214 relaxed c)
  | 215 => Some (case_215 c)
  | 216 => Some (case_216 c)
  | 217 => Some (case_217 relaxed c)
  | 218 => Some (case_218 relaxed c)
  | 219 => Some (case_219 c)
  | 220 => Some (case_220 c)
  | 221 => Some (case_221 c)
  | 222 => Some (case_222 c)
  | 223 => Some (case_223 c)
  | 224 => Some (case_224 c)
  | 225 => Some (case_225 c)
  | 226 => Some (case_226 c)
  | 227 => Some (case_227 c)
  | 228 => Some (case_228 c)
  | 229 => Some (case_229 c)
  | 230 => Some (case_230 c)
  | 231 => Some (case_231 c)
  | 232 => Some (case_232 c)
  | 233 => Some (case_233 c)
  | 234 => Some (case_234 c)
  | 235 => Some (case_235 c)
  | 236 => Some (case_236 c)
  | 237 => Some (case_237 c)
  | 238 => Some (case_238 c)
  | 239 => Some (case_239 c)
  | 240 => Some (case_240 c)
  | 241 => Some (case_241 c)
  | 242 => Some (case_242 c)
  | 243 => Some (case_243 c)
  | 244 => Some (case_244 c)
  | 245 => Some (case_245 c)
  | 246 => Some (case_246 c)
  | 247 => Some (case_247 c)
  | 248 => Some (case_248 c)
  | 249 => Some (case_249 c)
  | 250 => Some (case_250 c)
  | 251 => Some (case_251 c)
  | 252 => Some (case_252 c)
  | 253 => Some (case_253 c)
  | 254 => Some (case_254 c)
  | 255 => Some (case_255 c)
  | 256 => Some (case_256 c)
  | 257 => Some (case_257 c)
  | 258 => Some (case_258 c)
  | 259 => Some (case_259 c)
  | 260 => Some (case_260 c)
  | 261 => Some (case_261 c)
  | 262 => Some (case_262 c)
  | 263 => Some (case_263 c)
  | 264 => Some (case_264 c)
  | 265 => Some (case_265 c)
  | 266 => Some (case_266 c)
  | 267 => Some (case_267 c)
  | 268 => Some (case_268 c)
  | 269 => Some (case_269 c)
  | 270 => Some (case_270 c)
  | 271 => Some (case_271 c)
  | 272 => Some (case_272 c)
  | 273 => Some (case_273 c)
  | 274 => Some (case_274 c)
  | 275 => Some (case_275 c)
  | 276 => Some (case_276 c)
  | 277 => Some (case_277 c)
  | 278 => Some (case_278 c)
  | 279 => Some (case_279 c)
  | 280 => Some (case_280 c)
  | 281 => Some (case_281 c)
  | 282 => Some (case_282 c)
  | 283 => Some (case_283 c)
  | 284 => Some (case_284 c)
  | 285 => Some (case_285 c)
  | 286 => Some (case_286 c)
  | 287 => Some (case_287 c)
  | 288 => Some (case_288 c)
  | 289 => Some (case_289 c)
  | 290 => Some (case_290 c)
  | 291 => Some (case_291 c)
  | 292 => Some (case_292 c)
  | 293 => Some (case_293 c)
  | 294 => Some (case_294 c)
  | 295 => Some (case_295 c)
  | 296 => Some (case_296 c)
  | 297 => Some (case_297 c)
  | 298 => Some (case_298 c)
  | 299 => Some (case_299 c)
  | 300 => Some (case_300 c)
  | 301 => Some (case_301 c)
  | 302 => Some (case_302 c)
  | 303 => Some (case_303 c)
  | 304 => Some (case_304 c)
  | 305 => Some (case_305 c)
  | 306 => Some (case_306 c)
  | 307 => Some (case_307 c)
  | 308 => Some (case_308 c)
  | 309 => Some (case_309 c)
  | 310 => Some (case_310 c)
  | 311 => Some (case_311 c)
  | 312 => Some (case_312 c)
  | 313 => Some (case_313 c)
  | 314 => Some (case_314 c)
  | 315 => Some (case_315 c)
  | 316 => Some (case_316 c)
  | 317 => Some (case_317 c)
  | 318 => Some (case_318 c)
  | 319 => Some (case_319 c)
  | 320 => Some (case_320 c)
  | 321 => Some (case_321 c)
  | 322 => Some (case_322 c)
  | 323 => Some (case_323 c)
  | 324 => Some (case_324 c)
  | 325 => Some (case_325 c)
  | 326 => Some (case_326 c)
  | 327 => Some (case_327 c)
  | 328 => Some (case_328 c)
  | 329 => Some (case_329 c)
  | 330 => Some (case_330 c)
  | 331 => Some (case_331 c)
  | 332 => Some (case_332 c)
  | 333 => Some (case_333 c)
  | 334 => Some (case_334 c)
  | 335 => Some (case_335 c)
  | 336 => Some (case_336 c)
  | 337 => Some (case_337 c)
  | 338 => Some (case_338 c)
  | 339 => Some (case_339 c)
  | 340 => Some (case_340 c)
  | 341 => Some (case_341 c)
  | 342 => Some (case_342 c)
  | 343 => Some (case_343 c)
  | 344 => Some (case_344 c)
  | 345 => Some (case_345 c)
  | 346 => Some (case_346 relaxed c)
  | 347 => Some (case_347 relaxed c)
  | 348 => Some (case_348 c)
  | 349 => Some (case_349 c)
  | _ => None
  end.
Definition fallthrough : Z := 2.

(** The labels are closed under [dispatch]: the states that have a case. *)
Definition states : list Z := seqZ 1 349.
