(* ===== verification/Http11.v ===== *)
(** * The request parser (http/http11_parser.rl.cc)

    The struct [http_parser] with its callbacks, the actions of the machine of
    Http11Machine.v, [http_parser_init], [http_parser_execute] and
    [http_parser_finish]. The buffer is the string of its [len] bytes, a pointer
    into it an offset, and a callback gets the memory from its pointer to the end
    of the buffer. *)
From stdpp Require Import base tactics option list strings numbers.
From S2P Require Import Prelude CString Dfa ParserCommon Http11Machine.

Open Scope Z_scope.

(** ** The struct *)

(** The numeric members of [struct http_parser]. *)
Record http_parser := mkParser {
  cs : Z;
  body_start : Z;
  content_len : Z;
  nread : Z;
  mark : Z;
  field_start : Z;
  field_len : Z;
  query_start : Z;
  xml_sent : Z;
  json_sent : Z;
  uri_relaxed : Z
}.

(** Its function pointers, which may be null. *)
Record callbacks (D : Type) := mkCallbacks {
  http_field : option (field_cb D);
  request_method : option (element_cb D);
  request_uri : option (element_cb D);
  fragment : option (element_cb D);
  request_path : option (element_cb D);
  query_string : option (element_cb D);
  http_version : option (element_cb D);
  header_done : option (element_cb D)
}.
Arguments http_field {D} c.
Arguments request_method {D} c.
Arguments request_uri {D} c.
Arguments fragment {D} c.
Arguments request_path {D} c.
Arguments query_string {D} c.
Arguments http_version {D} c.
Arguments header_done {D} c.

Definition set_cs v (r : http_parser) :=
  let '(mkParser _ b l n m fs fl q x j u) := r in mkParser v b l n m fs fl q x j u.
Definition set_body_start v (r : http_parser) :=
  let '(mkParser c _ l n m fs fl q x j u) := r in mkParser c v l n m fs fl q x j u.
Definition set_content_len v (r : http_parser) :=
  let '(mkParser c b _ n m fs fl q x j u) := r in mkParser c b v n m fs fl q x j u.
Definition set_nread v (r : http_parser) :=
  let '(mkParser c b l _ m fs fl q x j u) := r in mkParser c b l v m fs fl q x j u.
Definition set_mark v (r : http_parser) :=
  let '(mkParser c b l n _ fs fl q x j u) := r in mkParser c b l n v fs fl q x j u.
Definition set_field_start v (r : http_parser) :=
  let '(mkParser c b l n m _ fl q x j u) := r in mkParser c b l n m v fl q x j u.
Definition set_field_len v (r : http_parser) :=
  let '(mkParser c b l n m fs _ q x j u) := r in mkParser c b l n m fs v q x j u.
Definition set_query_start v (r : http_parser) :=
  let '(mkParser c b l n m fs fl _ x j u) := r in mkParser c b l n m fs fl v x j u.
Definition set_xml_sent v (r : http_parser) :=
  let '(mkParser c b l n m fs fl q _ j u) := r in mkParser c b l n m fs fl q v j u.
Definition set_json_sent v (r : http_parser) :=
  let '(mkParser c b l n m fs fl q x _ u) := r in mkParser c b l n m fs fl q x v u.

(** [http_parser_init]: [query_start] and [uri_relaxed] keep what the memory held. *)
Definition http_parser_init (r : http_parser) : http_parser :=
  mkParser http_parser_start 0 0 0 0 0 0 (query_start r) 0 0 (uri_relaxed r).

Definition http_parser_has_error (r : http_parser) : bool := cs r =? http_parser_error.
Definition http_parser_is_finished (r : http_parser) : bool := http_parser_first_final <=? cs r.
Definition http_parser_finish (r : http_parser) : Z :=
  if http_parser_has_error r then -1 else if http_parser_is_finished r then 1 else 0.

Definition relaxed (r : http_parser) : bool := negb (uri_relaxed r =? 0).

(** ** Executing the actions *)

Section Execute.
Context {D : Type} (cb : callbacks D) (buffer : string).
Implicit Types (r : http_parser) (d : D).

Definition write_value r d (p : Z) : res D :=
  match http_field cb with
  | Some f => f d (PTR_TO buffer (field_start r)) (field_len r) (PTR_TO buffer (mark r)) (LEN (mark r) p)
  | None => Val d
  end.

(** The action [done], up to [goto _out]. *)
Definition done_action r d (p : Z) : res (http_parser * D) :=
  if negb (xml_sent r =? 0) || negb (json_sent r =? 0) then
    let b := mark r in
    mret (set_content_len (s32 (p - b + 1)) (set_body_start b r), d)
  else
    d ← element (header_done cb) d (PTR_TO buffer (p + 1)) (Z.of_nat (String.length buffer) - p - 1);
    mret (set_body_start (p + 1) r, d).

Definition act (a : action) (p : Z) (s : http_parser * D) : res (http_parser * D) :=
  let '(r, d) := s in
  let on_mark f := d ← element f d (PTR_TO buffer (mark r)) (LEN (mark r) p); mret (r, d) in
  match a with
  | Mark | StartValue => mret (set_mark p r, d)
  | StartField => mret (set_field_start p r, d)
  | WriteField => mret (set_field_len (LEN (field_start r) p) r, d)
  | WriteValue => d ← write_value r d p; mret (r, d)
  | RequestMethod => on_mark (request_method cb)
  | RequestUri => on_mark (request_uri cb)
  | Fragment => on_mark (fragment cb)
  | StartQuery => mret (set_query_start p r, d)
  | QueryString =>
      d ← element (query_string cb) d (PTR_TO buffer (query_start r)) (LEN (query_start r) p);
      mret (r, d)
  | HttpVersion => on_mark (http_version cb)
  | RequestPath => on_mark (request_path cb)
  | Done => done_action r d p
  | Xml => mret (set_xml_sent 1 r, d)
  | Json => mret (set_json_sent 1 r, d)
  end.

(** The [write exec] block: from the state and [p], with the assignment of [cs]
  left to the caller. *)
Definition exec (rel : bool) (q p : Z) (rest : string) (s : http_parser * D) :
    res (Z * Z * (http_parser * D)) :=
  run (dispatch rel) fallthrough act q p rest s.

(** The members that [http_parser_execute] resets. *)
Definition reset_marks r : http_parser :=
  set_field_start 0 (set_field_len 0 (set_mark 0 (set_nread 0 r))).

(** The end of [http_parser_execute], [q] and [p] being those of the exec block. *)
Definition finish_execute (off q p : Z) r : res (Z * http_parser) :=
  let len := Z.of_nat (String.length buffer) in
  assert (p <=? len);;
  let r := if http_parser_has_error r then r else set_cs q r in
  let r := set_nread (u64 (nread r + (p - off))) r in
  assert (nread r <=? len);;
  assert (body_start r <=? len);;
  assert (mark r <? len);;
  assert (field_len r <=? len);;
  assert (field_start r <? len);;
  mret (nread r, r).

(** [http_parser_execute(parser, buffer, len, off)], [len] the length of [buffer]. *)
Definition http_parser_execute (off : Z) (s : http_parser * D) : res (Z * (http_parser * D)) :=
  let '(r, d) := s in
  let len := Z.of_nat (String.length buffer) in
  if len =? 0 then mret (0, (r, d)) else
  let r := reset_marks r in
  assert (off <=? len);;
  assert (len - off =? s32 (s32 len - s32 off));;
  '(q, p, (r, d)) ← exec (relaxed r) (cs r) off (PTR_TO buffer off) (r, d);
  '(n, r) ← finish_execute off q p r;
  mret (n, (r, d)).
End Execute.

(** ** The parser stays inside its buffer

    A typestate for the members that name a token: [query_start] is valid in the
    states inside a query, [field_start] and [field_len] in those inside a header
    value. [flow] follows it through the actions, [transition_ok] through a
    transition; that every transition is accepted is decided by evaluation. *)

Definition in_query (q : Z) : bool := bool_decide (q ∈ [30; 31; 32]).
Definition in_value (q : Z) : bool := bool_decide (q ∈ [15; 16]).

Definition flow (f : option (bool * bool)) (a : action) : option (bool * bool) :=
  '(query, value) ← f;
  match a with
  | StartQuery => Some (true, value)
  | QueryString => if query : bool then f else None
  | StartField => Some (query, false)
  | WriteField => Some (query, true)
  | WriteValue => if value : bool then f else None
  | _ => f
  end.

Definition transition_ok (q : Z) (t : transition action) : bool :=
  match foldl flow (Some (in_query q, in_value q)) (acts t) with
  | Some (query, value) =>
      (brk t || (implb (in_query (target t)) query && implb (in_value (target t)) value))
      && ((0 <=? target t) && (target t <=? 349))
      && implb (brk t) (http_parser_first_final <=? target t)
  | None => false
  end.

Lemma elem_of_states q : q ∈ states <-> 1 <= q <= 349.
Proof. unfold states. rewrite elem_of_seqZ. lia. Qed.

Lemma transitions_ok rel q c :
  1 <= q <= 349 -> exists t, dispatch rel q (schar c) = Some t /\ transition_ok q t = true.
Proof.
  intros Hq.
  assert (H : table (fun q c => match dispatch rel q (schar c) with
      | Some t => transition_ok q t | None => false end) states = true)
    by (destruct rel; vm_compute; exact eq_refl).
  apply (table_spec _ _ q c) in H; [|by apply elem_of_states].
  cbv beta in H. destruct (dispatch rel q (schar c)) as [t|]; [by exists t|done].
Qed.

(** What the callbacks have to offer: on a slice that lies in the buffer they
    return, and keep an invariant of their data. *)
Section Safe.
Context {D : Type} (I : D -> Prop).

Record callbacks_total (cb : callbacks D) : Prop := {
  total_field : field_total I (http_field cb);
  total_method : element_total I (request_method cb);
  total_uri : element_total I (request_uri cb);
  total_fragment : element_total I (fragment cb);
  total_path : element_total I (request_path cb);
  total_query : element_total I (query_string cb);
  total_version : element_total I (http_version cb);
  total_done : element_total I (header_done cb)
}.

Context (cb : callbacks D) (Hcb : callbacks_total cb) (buffer : string).
Local Abbreviation len := (Z.of_nat (String.length buffer)).
Context (Hlen : len < 2 ^ 31).

(** The members point into the part of the buffer before [p], and below [len]. *)
Definition in_bounds (query value : bool) (p : Z) (r : http_parser) : Prop :=
  0 <= mark r <= p /\ mark r < len /\ 0 <= field_start r <= p /\ field_start r < len /\
  0 <= field_len r <= len /\ body_start r <= len /\
  (query = true -> 0 <= query_start r <= p) /\
  (value = true -> field_start r + field_len r <= p).

Lemma element_mark f r d p query value :
  element_total I f -> I d -> in_bounds query value p r -> p < len ->
  exists d', element f d (PTR_TO buffer (mark r)) (LEN (mark r) p) = Val d' /\ I d'.
Proof.
  intros Hf Hd Hr Hp. apply (element_ok I); [done|done|]. apply LEN_slice; [done|apply Hr|lia].
Qed.

Local Ltac bounds :=
  unfold in_bounds in *; simpl in *; destruct_and?; split_and?; auto; intros; simplify_eq; lia.

Lemma act_ok a p r d query value query' value' :
  p < len -> I d -> in_bounds query value p r ->
  flow (Some (query, value)) a = Some (query', value') ->
  exists r' d', act cb buffer a p (r, d) = Val (r', d') /\ I d' /\
    in_bounds query' value' p r' /\
    cs r' = cs r /\ nread r' = nread r.
Proof.
  intros Hp Hd Hr Hf. destruct Hcb.
  assert (Hmark : forall f, element_total I f -> (query', value') = (query, value) ->
    exists r' d', (d ← element f d (PTR_TO buffer (mark r)) (LEN (mark r) p); mret (r, d))
      = Val (r', d') /\ I d' /\ in_bounds query' value' p r' /\ cs r' = cs r /\ nread r' = nread r).
  { intros f Ht [= -> ->]. destruct (element_mark f r d p query value Ht Hd Hr Hp) as (d' & E & Hd').
    exists r, d'. by rewrite E. }
  pose proof (LEN_slice buffer (mark r) p Hlen) as Hm. pose proof (LEN_slice buffer (field_start r) p Hlen) as Hfs.
  pose proof (LEN_slice buffer (query_start r) p Hlen) as Hq.
  destruct a; simpl in Hf; try (by injection Hf as <- <-; apply Hmark); simpl.
  all: try (injection Hf as <- <-; eexists _, d; split; [reflexivity|]; split; [done|];
    destruct r; bounds).
  - destruct value; [|done]. injection Hf as <- <-.
    assert (exists d', write_value cb buffer r d p = Val d' /\ I d') as (d' & -> & Hd').
    { unfold write_value. destruct (http_field cb) as [f|] eqn:E; [|by exists d].
      eapply total_field0; [done|done| |apply Hm; bounds].
      unfold slice_ok. rewrite PTR_TO_length by bounds. bounds. }
    by exists r, d'.
  - destruct query; [|done]. injection Hf as <- <-.
    destruct (element_ok I (query_string cb) d (PTR_TO buffer (query_start r)) (LEN (query_start r) p))
      as (d' & -> & Hd'); [done|done|apply Hq; bounds|]. by exists r, d'.
  - injection Hf as <- <-. unfold done_action. destruct (_ || _).
    { eexists _, d. split; [reflexivity|]. split; [done|]. destruct r; bounds. }
    destruct (element_ok I (header_done cb) d (PTR_TO buffer (p + 1)) (len - p - 1))
      as (d' & -> & Hd'); [done|done| |].
    { unfold slice_ok. rewrite PTR_TO_length by bounds. bounds. }
    eexists _, d'. split; [reflexivity|]. split; [done|]. destruct r; bounds.
Qed.

Lemma acts_ok l p r d query value query' value' :
  p < len -> I d -> in_bounds query value p r ->
  foldl flow (Some (query, value)) l = Some (query', value') ->
  exists r' d', do_acts (act cb buffer) l p (r, d) = Val (r', d') /\ I d' /\
    in_bounds query' value' p r' /\ cs r' = cs r /\ nread r' = nread r.
Proof.
  intros Hp. revert r d query value. induction l as [|a l IH]; intros r d query value Hd Hr Hf.
  { simpl in Hf. simplify_eq. by exists r, d. }
  cbn [foldl] in Hf. destruct (flow (Some (query, value)) a) as [[q1 v1]|] eqn:Ha.
  - destruct (act_ok a p r d query value q1 v1) as (r1 & d1 & E & Hd1 & Hr1 & Hc1 & Hn1); try done.
    destruct (IH r1 d1 q1 v1) as (r2 & d2 & E2 & Hd2 & Hr2 & Hc2 & Hn2); try done.
    exists r2, d2. cbn [do_acts]. rewrite E. cbn [mbind res_bind]. rewrite E2.
    split; [done|]. split; [done|]. split; [done|]. split; congruence.
  - exfalso. clear -Hf. induction l as [|b l IH]; [done|]. by apply IH.
Qed.

(** The loop, from position [p], [rest] being what follows there. *)
Lemma http11_exec_ok rel rest q p r d :
  p + Z.of_nat (String.length rest) = len -> 1 <= q <= 349 -> I d ->
  in_bounds (in_query q) (in_value q) p r ->
  exists q' p' r' d', exec cb buffer rel q p rest (r, d) = Val (q', p', (r', d')) /\ I d' /\
    in_bounds false false p' r' /\ cs r' = cs r /\ nread r' = nread r /\
    p <= p' <= len /\ 0 <= q' <= 349 /\
    (p' = len \/ q' = 0 \/ http_parser_first_final <= q').
Proof.
  revert q p r d. induction rest as [|c rest IH]; intros q p r d Hp Hq Hd Hr; simpl in Hp.
  { exists q, p, r, d. split; [done|]. split; [done|]. split; [bounds|].
    split; [done|]. split; [done|]. lia. }
  destruct (transitions_ok rel q c Hq) as (t & Ht & Hok).
  unfold transition_ok in Hok.
  destruct (foldl flow _ (acts t)) as [[query value]|] eqn:Hf; [|done].
  destruct (acts_ok (acts t) p r d _ _ _ _ ltac:(lia) Hd Hr Hf)
    as (r1 & d1 & E & Hd1 & Hr1 & Hc1 & Hn1).
  apply andb_true_iff in Hok as [[Hok Htgt]%andb_true_iff Hfin].
  unfold exec. cbn [run]. rewrite Ht, E. cbn [mbind res_bind].
  destruct (brk t); simpl in Hok, Hfin.
  { eexists _, _, r1, d1. split; [reflexivity|]. split; [done|]. split; [bounds|]. lia. }
  destruct (Z.eqb_spec (target t) 0) as [E0|E0].
  { eexists _, _, r1, d1. split; [reflexivity|]. split; [done|]. split; [bounds|]. lia. }
  destruct (IH (target t) (p + 1) r1 d1) as (q' & p' & r' & d' & E' & Hd' & Hr' & Hc' & Hn' & Hp' & H');
    [lia|lia|done| |].
  { apply andb_true_iff in Hok as [Hk1 Hk2]. unfold in_bounds in *. destruct_and!. split_and!; try lia.
    - destruct (in_query (target t)), query; try done; intros; lia.
    - destruct (in_value (target t)), value; try done; intros; lia. }
  exists q', p', r', d'. split; [done|]. split; [done|]. split; [done|]. lia.
Qed.
End Safe.

Lemma finish_execute_ok buffer q p r :
  in_bounds buffer false false p r -> nread r = 0 -> 0 <= p <= Z.of_nat (String.length buffer) ->
  Z.of_nat (String.length buffer) < 2 ^ 31 ->
  finish_execute buffer 0 q p r =
    Val (p, set_nread p (if http_parser_has_error r then r else set_cs q r)).
Proof.
  intros Hr Hn Hp Hl. unfold finish_execute.
  rewrite (proj2 (Z.leb_le p _)) by lia. cbn [assert mbind res_bind].
  set (r1 := if http_parser_has_error r then r else set_cs q r).
  assert (E : nread r1 = 0 /\ body_start r1 = body_start r /\ mark r1 = mark r /\
    field_len r1 = field_len r /\ field_start r1 = field_start r)
    by (subst r1; destruct (http_parser_has_error r), r; done).
  destruct E as (E1 & E2 & E3 & E4 & E5). rewrite E1, Z.add_0_l, Z.sub_0_r.
  rewrite wrap_small by (unfold in_u; lia).
  assert (E : forall f, nread (set_nread f r1) = f /\ body_start (set_nread f r1) = body_start r1 /\
    mark (set_nread f r1) = mark r1 /\ field_len (set_nread f r1) = field_len r1 /\
    field_start (set_nread f r1) = field_start r1) by (intros f; destruct r1; done).
  destruct (E p) as (F1 & F2 & F3 & F4 & F5). rewrite F1, F2, F3, F4, F5, E2, E3, E4, E5.
  unfold in_bounds in Hr. destruct_and!.
  rewrite (proj2 (Z.leb_le (body_start r) _)), (proj2 (Z.leb_le (field_len r) _)), (proj2 (Z.leb_le p _)) by lia.
  rewrite (proj2 (Z.ltb_lt (mark r) _)), (proj2 (Z.ltb_lt (field_start r) _)) by lia. reflexivity.
Qed.

(** [http_parser_execute] on a buffer, as its exec block and what follows. *)
Lemma execute_unfold {D} (cb : callbacks D) buffer r d :
  0 < Z.of_nat (String.length buffer) < 2 ^ 31 ->
  http_parser_execute cb buffer 0 (r, d) =
    ('(q, p, (r, d)) ← exec cb buffer (relaxed r) (cs r) 0 buffer (reset_marks r, d);
     '(n, r) ← finish_execute buffer 0 q p r;
     mret (n, (r, d))).
Proof.
  intros Hlen. set (len := Z.of_nat (String.length buffer)) in *.
  unfold http_parser_execute. fold len. rewrite (proj2 (Z.eqb_neq _ _)) by lia.
  rewrite (proj2 (Z.leb_le _ _)) by lia. cbn [assert mbind res_bind].
  rewrite Z.sub_0_r, !(swrap_small 32 len), (swrap_small 32 0), Z.sub_0_r by (unfold in_s; lia).
  rewrite swrap_small, Z.eqb_refl by (unfold in_s; lia). cbn [assert mbind res_bind].
  replace (relaxed (reset_marks r)) with (relaxed r) by (by destruct r).
  by replace (cs (reset_marks r)) with (cs r) by (by destruct r).
Qed.

Lemma execute_exec {D} (cb : callbacks D) buffer r d q p r1 d1 :
  0 < Z.of_nat (String.length buffer) < 2 ^ 31 ->
  exec cb buffer (relaxed r) (cs r) 0 buffer (reset_marks r, d) = Val (q, p, (r1, d1)) ->
  in_bounds buffer false false p r1 -> nread r1 = 0 ->
  0 <= p <= Z.of_nat (String.length buffer) ->
  http_parser_execute cb buffer 0 (r, d) =
    Val (p, (set_nread p (if http_parser_has_error r1 then r1 else set_cs q r1), d1)).
Proof.
  intros Hlen E Hr1 Hn1 Hp. rewrite execute_unfold, E by done. cbn [mbind res_bind].
  by rewrite (finish_execute_ok buffer q p r1) by done || lia.
Qed.

Lemma reset_in_bounds buffer query value r :
  0 < Z.of_nat (String.length buffer) -> body_start r <= Z.of_nat (String.length buffer) ->
  (query = true -> query_start r = 0) -> in_bounds buffer query value 0 (reset_marks r).
Proof.
  intros Hl Hb Hq. destruct r; unfold in_bounds; simpl in *. split_and!; try lia.
  intros H. rewrite Hq by done. lia.
Qed.

(** C30: the request parser never leaves its buffer. Started on a buffer of at least one and
    fewer than
    2^31 bytes, with a [body_start] that is at most the length of the buffer (it is 0 until a
    head has been read; past the buffer it fails the assertion on it), in any state but the
    middle of a query (or there with [query_start]
    zero), [http_parser_execute] returns: none of its assertions fails, every pointer
    and length it hands to a callback is a slice of the buffer (the callbacks are
    asked to return on such slices only), the state is again one of the machine's,
    and the whole buffer is consumed unless the parser stopped with an error or at
    the end of a request. *)
Theorem execute_in_bounds {D} (I : D -> Prop) (cb : callbacks D) (buffer : string) r d
    (Hcb : callbacks_total I cb)
    (Hlen : 0 < Z.of_nat (String.length buffer) < 2 ^ 31)
    (Hcs : 0 <= cs r <= 349)
    (Hbody : body_start r <= Z.of_nat (String.length buffer))
    (Hquery : in_query (cs r) = true -> query_start r = 0)
    (Hd : I d) :
  exists n r' d', http_parser_execute cb buffer 0 (r, d) = Val (n, (r', d')) /\ I d' /\
    0 <= n <= Z.of_nat (String.length buffer) /\
    0 <= cs r' <= 349 /\ body_start r' <= Z.of_nat (String.length buffer) /\
    (n = Z.of_nat (String.length buffer) \/ http_parser_has_error r' = true \/
       http_parser_is_finished r' = true).
Proof.
  set (len := Z.of_nat (String.length buffer)) in *.
  pose proof (reset_in_bounds buffer (in_query (cs r)) (in_value (cs r)) r ltac:(lia) Hbody Hquery)
    as Hreset.
  assert (Hexec : exists q p r1 d1,
    exec cb buffer (relaxed r) (cs r) 0 buffer (reset_marks r, d) = Val (q, p, (r1, d1)) /\
    I d1 /\ in_bounds buffer false false p r1 /\ cs r1 = cs r /\ nread r1 = 0 /\
    0 <= p <= len /\ 0 <= q <= 349 /\
    (p = len \/ q = 0 \/ http_parser_first_final <= q \/ cs r = 0)).
  { destruct (Z.eq_dec (cs r) 0) as [E0|E0].
    - rewrite E0. destruct buffer as [|c s] eqn:Eb; [simpl in *; lia|]. subst buffer.
      exists 2, 0, (reset_marks r), d. split; [reflexivity|]. split; [done|].
      split; [clear -Hreset; unfold in_bounds in *; destruct_and!; split_and!; auto; discriminate|].
      destruct r; simpl in *. lia.
    - destruct (http11_exec_ok I cb Hcb buffer ltac:(lia) (relaxed r) buffer (cs r) 0
        (reset_marks r) d) as (q & p & r1 & d1 & E & Hd1 & Hr1 & Hc1 & Hn1 & Hp & Hq & Hend);
        [lia|lia|done|done|].
      exists q, p, r1, d1. split; [done|]. split; [done|]. split; [done|].
      destruct r; simpl in *. lia. }
  destruct Hexec as (q & p & r1 & d1 & E & Hd1 & Hr1 & Hc1 & Hn1 & Hp & Hq & Hend).
  rewrite (execute_exec cb buffer r d q p r1 d1) by done || lia.
  eexists p, _, d1. split; [reflexivity|]. split; [done|]. split; [done|].
  unfold http_parser_has_error, http_parser_is_finished, in_bounds, http_parser_first_final,
    http_parser_error in *.
  rewrite Hc1. destruct (Z.eqb_spec (cs r) 0); destruct r1; simpl in *; lia.
Qed.

(** Callbacks that count their calls. *)
Definition counting : callbacks Z :=
  let e : option (element_cb Z) := Some (fun d _ _ => Val (d + 1)) in
  mkCallbacks Z (Some (fun d _ _ _ _ => Val (d + 1))) e e e e e e e.

Lemma execute_in_bounds_witness :
  exists n r d, http_parser_execute counting "GET /a?b#c HTTP/1.1"%string 0
      (http_parser_init (mkParser 7 7 7 7 7 7 7 7 7 7 7), 0) = Val (n, (r, d)) /\
    0 <= d /\ 0 <= n <= 19.
Proof.
  destruct (execute_in_bounds (fun d => 0 <= d) counting "GET /a?b#c HTTP/1.1"%string
    (http_parser_init (mkParser 7 7 7 7 7 7 7 7 7 7 7)) 0) as (n & r & d & E & Hd & Hn & _).
  - split; intros g d at_ n; simpl; [intros at2 n2| ..]; intros [= <-] Hd; intros;
      (eexists; split; [reflexivity|lia]).
  - vm_compute. by split.
  - vm_compute. split; discriminate.
  - vm_compute. discriminate.
  - vm_compute. discriminate.
  - lia.
  - by exists n, r, d.
Defined.
