(* ===== verification/HttpParser.v ===== *)
(** * Parsing a request (http/http_parser.h, http/http_parser.cpp)

    [HttpRequestParser]: the callbacks that fill an [HttpRequest], [execute] with
    its [memmove], [isFinished], [hasError] and [getContentLength]. The theorems run
    the generated machine on serialised requests (Http.v): a request that arrives
    in one piece is read back, one that arrives in two may not be. *)
From stdpp Require Import base tactics option list sorting strings pretty numbers.
From S2P Require Import Prelude OrdSet CString Http Headers Dfa ParserCommon Http11Machine Http11.

Open Scope string_scope.
Open Scope Z_scope.

(** What the [void *data] of the callbacks points to, without the C parser itself. *)
Record request_data := mkData { m_data : HttpRequest; m_error : Z }.

Definition setError (v : Z) (d : request_data) : request_data := mkData (m_data d) v.
Definition update (f : HttpRequest -> HttpRequest) (d : request_data) : request_data :=
  mkData (f (m_data d)) (m_error d).

(** ** The callbacks; what they log is left out. *)

Definition on_request_method : element_cb request_data := fun d at_ length =>
  let m := CharsToHttpMethod at_ in
  if decide (m = HTT_INVALID_METHOD) then mret (setError 1000 d)
  else mret (update (fun r => setMethod r m) d).

Definition on_request_uri : element_cb request_data := fun d at_ length => mret d.

Definition on_request_fragment : element_cb request_data := fun d at_ length =>
  v ← std_string at_ length; mret (update (fun r => setFragment r v) d).

Definition on_request_path : element_cb request_data := fun d at_ length =>
  v ← std_string at_ length; mret (update (fun r => setPath r v) d).

Definition on_request_query : element_cb request_data := fun d at_ length =>
  v ← std_string at_ length; mret (update (fun r => setQuery r v) d).

Definition on_request_version : element_cb request_data := fun d at_ length =>
  let n := Z.to_nat length in
  if strncmp "HTTP/1.1" at_ n =? 0 then mret (update (fun r => setVersion r 17) d)
  else if strncmp "HTTP/1.0" at_ n =? 0 then mret (update (fun r => setVersion r 16) d)
  else mret (setError 1001 d).

Definition on_request_header_done : element_cb request_data := fun d at_ length => mret d.

Definition on_request_http_field : field_cb request_data := fun d field flen value vlen =>
  if flen =? 0 then mret (setError 1002 d)
  else
    k ← std_string field flen;
    v ← std_string value vlen;
    mret (update (fun r => setHeader r k v) d).

(** ** [HttpRequestParser] *)

Definition request_callbacks : callbacks request_data := {|
  http_field := Some on_request_http_field;
  request_method := Some on_request_method;
  request_uri := Some on_request_uri;
  fragment := Some on_request_fragment;
  request_path := Some on_request_path;
  query_string := Some on_request_query;
  http_version := Some on_request_version;
  header_done := Some on_request_header_done
|}.

(** [m_parser] and what the callbacks reach through [data = this]. *)
Definition HttpRequestParser : Type := http_parser * request_data.

(** The constructor; [garbage] is what the memory of [m_parser] held before. *)
Definition HttpRequestParser_new (garbage : http_parser) : HttpRequestParser :=
  (http_parser_init garbage, mkData (HttpRequest_new 17 true) 0).

(** [execute(data, len)]: the number of bytes consumed, the parser and the buffer. *)
Definition execute (P : HttpRequestParser) (data : string) (len : nat) :
    res (Z * HttpRequestParser * string) :=
  '(offset, P) ← http_parser_execute request_callbacks (str_take len data) 0 P;
  mret (offset, P, memmove_front data len (Z.to_nat offset)).

Definition isFinished (P : HttpRequestParser) : Z := http_parser_finish P.1.
Definition hasError (P : HttpRequestParser) : bool :=
  negb (m_error P.2 =? 0) || http_parser_has_error P.1.

(** [lexical_cast] is boost's to [uint64_t]. *)
Definition getContentLength (lexical_cast : string -> option Z) (P : HttpRequestParser) : Z :=
  getAs lexical_cast (m_headers (m_data P.2)) "content-length" 0.

(** The callbacks that the lines of a header can call: not those for the method and the version. *)
Definition header_callbacks : callbacks request_data :=
  let c := request_callbacks in
  mkCallbacks _ (http_field c) None (request_uri c) (fragment c) (request_path c) (query_string c)
    None (header_done c).

(** The callbacks return on every slice of the buffer: they only update the request or
    set an error code, these the code 1002. *)
Lemma header_callbacks_total (I : request_data -> Prop) :
  (forall f d, I d -> I (update f d)) -> (forall d, I d -> I (setError 1002 d)) ->
  callbacks_total I header_callbacks.
Proof.
  intros Hu He.
  assert (Hstr : forall at_ n d (k : string -> HttpRequest -> HttpRequest), I d -> slice_ok at_ n ->
    exists d', (v ← std_string at_ n; mret (update (k v) d)) = Val d' /\ I d').
  { intros at_ n d k Hd [s E]%std_string_ok. rewrite E. eexists. split; [reflexivity|auto]. }
  split; intros g d at_ n; simpl; [intros at2 n2| ..]; intros [= <-] Hd Hs; try intros Hs2;
    try (by apply (Hstr at_ n d)); try (by exists d).
  unfold on_request_http_field. destruct (n =? 0); [eexists; split; [reflexivity|by apply He]|].
  destruct (std_string_ok _ _ Hs) as [k ->], (std_string_ok _ _ Hs2) as [v ->].
  eexists. split; [reflexivity|auto].
Qed.

Lemma request_callbacks_total (I : request_data -> Prop) :
  (forall f d, I d -> I (update f d)) ->
  (forall e d, e <> 0 -> I d -> I (setError e d)) -> callbacks_total I request_callbacks.
Proof.
  intros Hu He. destruct (header_callbacks_total I) as [H1 _ H3 H4 H5 H6 _ H8]; [done|by intros; apply He|].
  split; try done; intros g d at_ n; simpl; intros [= <-] Hd Hs.
  - unfold on_request_method. case_decide; eexists; (split; [reflexivity|]); [by apply He|auto].
  - unfold on_request_version. destruct (_ =? 0); [eexists; split; [reflexivity|auto]|].
    destruct (_ =? 0); eexists; (split; [reflexivity|]); [auto|by apply He].
Qed.

(** The states of the machine in the lines of a header, and behind them. *)
Definition header_states : list Z := [13; 14; 15; 16; 17; 18].

Lemma header_exec text rel rest q p s :
  q ∈ header_states ->
  exec request_callbacks text rel q p rest s = exec header_callbacks text rel q p rest s.
Proof.
  apply (run_agree _ _ _ _ (fun a => match a with RequestMethod | HttpVersion => false | _ => true end)).
  - intros [] p' [r d]; done.
  - destruct rel; vm_compute; reflexivity.
Qed.

(** ** Reading a serialised request *)

#[local] Arguments String.append !_ _ : simpl nomatch.

Local Abbreviation len s := (Z.of_nat (String.length s)).

(** Characters of a path, a query or fragment, a header name and a header value. *)
Definition path_char (c : Ascii.ascii) : bool := pchar c || one_of "/" c.
Definition query_char (c : Ascii.ascii) : bool := pchar c || one_of "/?" c.
(** The members that only the action [done] and the socket requests touch. *)
Definition same_flags (r r' : http_parser) : Prop :=
  xml_sent r' = xml_sent r /\ json_sent r' = json_sent r /\ body_start r' = body_start r.

Local Ltac flags :=
  unfold same_flags in *; destruct_and?; subst;
  repeat match goal with r : http_parser |- _ => destruct r end;
  simpl in *; split_and?; congruence.

Section RoundTrip.
Context (text : string) (Htext : len text < 2 ^ 31) (rel : bool).
Local Abbreviation moves :=
  (moves (dispatch rel) fallthrough (act request_callbacks text)).
Implicit Types (r : http_parser) (d : request_data).

(** The callback calls on a marked token. *)
Lemma http_field_token r d p pre k mid v rest :
  text = pre ++ k ++ mid ++ v ++ rest -> k <> "" ->
  field_start r = len pre -> field_len r = len k -> mark r = len (pre ++ k ++ mid) ->
  p = len (pre ++ k ++ mid ++ v) ->
  act request_callbacks text WriteValue p (r, d) =
    Val (r, update (fun q => setHeader q k v) d).
Proof.
  intros E Hk Hfs Hfl Hm ->. cbn [act]. unfold write_value. simpl http_field.
  destruct (token text pre k (mid ++ v ++ rest) Htext) as (_ & _ & T1); [by rewrite E|].
  destruct (token text (pre ++ k ++ mid) v rest Htext) as (_ & T2 & T3); [by rewrite E, !string_app_assoc|].
  rewrite Hfs, Hfl, Hm. unfold on_request_http_field.
  rewrite (proj2 (Z.eqb_neq _ _)) by (destruct k; [done|simpl; lia]).
  rewrite T1. cbn [mbind res_bind].
  replace (len (pre ++ k ++ mid ++ v)) with (len (pre ++ k ++ mid) + len v)
    by (rewrite !string_length_app; lia).
  rewrite T2, T3. reflexivity.
Qed.

Local Ltac on_char := eapply on_class_spec; [|eassumption]; destruct rel; vm_compute; reflexivity.
Local Ltac step t := eapply (moves_cons _ _ _ _ _ _ _ t); [first [reflexivity|on_char]|reflexivity|discriminate|reflexivity|].

(** From the colon's successor, state 15, over the blanks: the value is marked at
  each of them again. *)
Lemma moves_blanks r d p w :
  exists r' ws, w = ws ++ skip_blanks w /\
    moves 15 p (r, d) ws 15 (r', d) /\ same_flags r r' /\
    field_start r' = field_start r /\ field_len r' = field_len r /\
    (mark r' = mark r \/ p <= mark r' <= p + len ws).
Proof.
  revert r p. induction w as [|c w IH]; intros r p.
  { exists r, "". split_and!; try done; [apply moves_nil|by left]. }
  cbn [skip_blanks]. destruct (blank c) eqn:Hc.
  - destruct (IH (set_mark p r) (p + 1)) as (r' & ws & E & Hm & Hf & H1 & H2 & H3).
    exists r', (String c ws). split; [simpl; by rewrite <- E|].
    split; [step tr29; exact Hm|]. cbn [String.length].
    destruct r; simpl in *; split_and!; try done. right. destruct H3; lia.
  - exists r, "". split_and!; try done; [apply moves_nil|by left].
Qed.
Lemma moves_value_chars r d p v :
  v <> "" -> chars value_char v = true -> starts_blank v = false ->
  moves 15 p (r, d) v 16 (set_mark p r, d).
Proof.
  intros Hne Hv Hs. destruct v as [|c v]; [done|]. simpl in Hv, Hs.
  apply andb_true_iff in Hv as [Hc Hv].
  assert (Hb : value_char c && negb (blank c) = true) by by rewrite Hc, Hs.
  eapply (moves_cons _ _ _ _ _ _ _ tr28); [|reflexivity|discriminate|reflexivity|].
  { refine (on_class_spec (fun c => value_char c && negb (blank c)) _ _ _ _ Hb).
    destruct rel; vm_compute; reflexivity. }
  eapply (moves_class _ _ _ value_char); [intros; on_char|discriminate|exact Hv].
Qed.

(** The first part of a value, in the state 15 as long as it is blank. *)
Lemma moves_value_part r d p w :
  chars value_char w = true ->
  exists q r', (q = 15 \/ q = 16) /\ moves 15 p (r, d) w q (r', d) /\ same_flags r r' /\
    field_start r' = field_start r /\ field_len r' = field_len r /\
    (mark r' = mark r \/ p <= mark r' <= p + len w).
Proof.
  intros Hw. destruct (moves_blanks r d p w) as (r1 & ws & E & M1 & F1 & H1 & H2 & H3).
  assert (Hl : len w = len ws + len (skip_blanks w)) by (rewrite E at 1; rewrite string_length_app; lia).
  destruct (decide (skip_blanks w = "")) as [Hs|Hs].
  - exists 15, r1. rewrite Hs in E, Hl. rewrite string_app_nil in E. simpl in Hl.
    split_and!; try done; [by left|by rewrite E|destruct H3; [by left|right; lia]].
  - exists 16, (set_mark (p + len ws) r1). split; [by right|]. split.
    + rewrite E. eapply moves_app; [exact M1|]. apply moves_value_chars; [done|by apply chars_skip_blanks|].
      apply skip_blanks_starts.
    + destruct r, r1; simpl in *. split; [done|]. split; [done|]. split; [done|]. right. lia.
Qed.

(** The value and the line end. *)
Lemma moves_value r d p pre k mid v rest :
  text = pre ++ k ++ mid ++ v ++ CRLF ++ rest -> k <> "" ->
  field_start r = len pre -> field_len r = len k -> p = len (pre ++ k ++ mid) ->
  chars value_char v = true -> skip_blanks v = v ->
  exists r', moves 15 p (r, d) (v ++ CRLF) 13 (r', update (fun q => setHeader q k v) d) /\
    same_flags r r'.
Proof.
  intros E Hk Hfs Hfl Hp Hv Hs.
  assert (Hw : forall r', field_start r' = len pre -> field_len r' = len k -> mark r' = p ->
    act request_callbacks text WriteValue (p + len v) (r', d) =
      Val (r', update (fun q => setHeader q k v) d)).
  { intros r' H1 H2 H3. eapply http_field_token; [exact E|done|done|done|by rewrite H3|].
    subst p. rewrite !string_length_app. lia. }
  exists (set_mark p r). split; [|by destruct r].
  assert (H1 : field_start (set_mark p r) = len pre) by by destruct r.
  assert (H2 : field_len (set_mark p r) = len k) by by destruct r.
  assert (H3 : mark (set_mark p r) = p) by by destruct r.
  specialize (Hw _ H1 H2 H3). destruct v as [|c v].
  - simpl. eapply (moves_cons _ _ _ _ _ _ _ tr31); [reflexivity|reflexivity|discriminate| |].
    + cbn [acts tr31 tr do_acts]. change (act request_callbacks text StartValue p (r, d)) with (Val (set_mark p r, d)). cbn [mbind res_bind].
      simpl len in Hw. rewrite Z.add_0_r in Hw. by rewrite Hw.
    + step (@st action 13). apply moves_nil.
  - eapply moves_app; [apply moves_value_chars; [done|done|]|].
    { cbn [skip_blanks starts_blank] in *. destruct (blank c); [|done].
      pose proof (skip_blanks_length v) as Hlen. rewrite Hs in Hlen. simpl in Hlen. lia. }
    change CRLF with (String CR (String LF "")). eapply (moves_cons _ _ _ _ _ _ _ tr34); [reflexivity|reflexivity|discriminate| |].
    + cbn [acts tr34 tr do_acts].
      by rewrite Hw.
    + step (@st action 13). apply moves_nil.
Qed.

(** A header name and its colon. *)
Lemma moves_name r d pre k rest :
  text = pre ++ k ++ ":" ++ rest -> k <> "" -> chars tchar k = true ->
  moves 13 (len pre) (r, d) (k ++ ":") 15
    (set_field_len (len k) (set_field_start (len pre) r), d).
Proof.
  intros E Hk Hkc.
  assert (Hlen : 0 <= len pre /\ len pre + len k < 2 ^ 31)
    by (rewrite E, !string_length_app in Htext; lia).
  eapply moves_app with (q1 := 14) (s1 := (set_field_start (len pre) r, d)).
  { destruct k as [|c k]; [done|]. simpl in Hkc. apply andb_true_iff in Hkc as [Hc Hkc].
    step tr23. eapply (moves_class _ _ _ tchar); [intros; on_char|discriminate|exact Hkc]. }
  eapply (moves_cons _ _ _ _ _ _ _ tr27); [reflexivity|reflexivity|discriminate| |apply moves_nil].
  cbn [acts tr27 tr do_acts act mret res_ret mbind res_bind].
  replace (field_start (set_field_start (len pre) r)) with (len pre) by by destruct r.
  unfold LEN. rewrite wrap_small by (unfold in_u; lia).
  by replace (len pre + len k - len pre) with (len k) by lia.
Qed.

(** A header line, from the state 13 before it to the state 13 behind it. *)
Lemma moves_header r d pre k w rest :
  text = pre ++ k ++ ":" ++ w ++ CRLF ++ rest ->
  k <> "" -> chars tchar k = true -> chars value_char w = true ->
  exists r', moves 13 (len pre) (r, d) (k ++ ":" ++ w ++ CRLF) 13
      (r', update (fun q => setHeader q k (skip_blanks w)) d) /\ same_flags r r'.
Proof.
  intros E Hk Hkc Hw.
  set (r1 := set_field_len (len k) (set_field_start (len pre) r)).
  destruct (moves_blanks r1 d (len pre + len k + 1) w)
    as (r2 & ws & Ew & Hm2 & Hf2 & H1 & H2 & _).
  destruct (moves_value r2 d (len pre + len k + 1 + len ws) pre k (":" ++ ws) (skip_blanks w) rest)
    as (r3 & Hm3 & Hf3).
  { rewrite E. rewrite Ew at 1. by rewrite !string_app_assoc. }
  { done. }
  { rewrite H1. subst r1. by destruct r. }
  { rewrite H2. subst r1. by destruct r. }
  { rewrite !string_length_app. simpl. lia. }
  { by apply chars_skip_blanks. }
  { apply skip_blanks_idem. }
  exists r3. split; [|subst r1; clear -Hf2 Hf3; flags].
  replace (k ++ ":" ++ w ++ CRLF) with ((k ++ ":") ++ w ++ CRLF) by by rewrite string_app_assoc.
  eapply moves_app; [exact (moves_name r d pre k (w ++ CRLF ++ rest) E Hk Hkc)|].
  replace (len pre + len (k ++ ":")) with (len pre + len k + 1)
    by (rewrite string_length_app; simpl; lia).
  rewrite Ew at 1. rewrite string_app_assoc.
  eapply moves_app; [exact Hm2|exact Hm3].
Qed.

Definition received_headers (kvs : list (string * string)) (q : HttpRequest) : HttpRequest :=
  foldl (fun q kv => setHeader q kv.1 (skip_blanks kv.2)) q kvs.

Lemma moves_headers ls kvs r d pre rest :
  Forall2 sends ls kvs -> text = pre ++ foldr (fun l s => l ++ CRLF ++ s) "" ls ++ rest ->
  exists r', moves 13 (len pre) (r, d) (foldr (fun l s => l ++ CRLF ++ s) "" ls) 13
      (r', update (received_headers kvs) d) /\ same_flags r r'.
Proof.
  intros H. revert r d pre. induction H as [|l [k v] ls kvs (w & -> & Ew & Hk & Hkc & Hw) _ IH];
    intros r d pre E; simpl fst in *; simpl snd in *.
  - exists r. split; [|done]. replace (update (received_headers []) d) with d by by destruct d.
    apply moves_nil.
  - cbn [foldr] in E. rewrite !string_app_assoc in E.
    destruct (moves_header r d pre k w (foldr (fun l s => l ++ CRLF ++ s) "" ls ++ rest) E Hk Hkc Hw)
      as (r1 & Hm1 & Hf1).
    destruct (IH r1 (update (fun q => setHeader q k (skip_blanks w)) d)
      (pre ++ k ++ ":" ++ w ++ CRLF)) as (r2 & Hm2 & Hf2); [by rewrite E, !string_app_assoc|].
    exists r2. split; [|clear -Hf1 Hf2; flags]. cbn [foldr].
    replace ((k ++ ":" ++ w) ++ CRLF ++ foldr (fun l s => l ++ CRLF ++ s) "" ls)
      with ((k ++ ":" ++ w ++ CRLF) ++ foldr (fun l s => l ++ CRLF ++ s) "" ls)
      by by rewrite !string_app_assoc.
    rewrite Ew in Hm1, Hm2. eapply moves_app; [exact Hm1|].
    rewrite string_length_app, Nat2Z.inj_add in Hm2. exact Hm2.
Qed.

(** *** The request line *)

Definition method_char (c : Ascii.ascii) : bool := between 65 90 c || digit c.
(** The state behind [i] characters of a method. *)
Definition method_state (i : Z) : Z := if i =? 1 then 2 else 173 + i.

Lemma moves_method_chars r d p s i :
  1 <= i -> i + len s <= 20 -> chars method_char s = true ->
  moves (method_state i) p (r, d) s (method_state (i + len s)) (r, d).
Proof.
  revert i p. induction s as [|c s IH]; intros i p Hi Hl Hs.
  { rewrite Z.add_0_r. apply moves_nil. }
  simpl in Hs, Hl. apply andb_true_iff in Hs as [Hc Hs].
  assert (H : forallb (fun i => on_class method_char (dispatch rel (method_state i))
    (st (method_state (i + 1)))) (seqZ 1 19) = true) by (destruct rel; vm_compute; reflexivity).
  apply (forall_range _ _ _ i) in H; [|lia]. pose proof (on_class_spec _ _ _ c H Hc) as Hd.
  eapply moves_cons; [exact Hd|reflexivity| |reflexivity|].
  - simpl. unfold method_state. destruct (_ =? 1); lia.
  - replace (i + len (String c s)) with (i + 1 + len s) by (simpl; lia).
    apply IH; [lia|lia|done].
Qed.

Lemma moves_method r d name m rest :
  text = name ++ " " ++ rest -> CharsToHttpMethod text = m -> m <> HTT_INVALID_METHOD ->
  name <> "" -> len name <= 20 -> chars method_char name = true ->
  moves 1 0 (r, d) (name ++ " ") 3 (set_mark 0 r, update (fun q => setMethod q m) d).
Proof.
  intros E Hm Hv Hne Hl Hc. destruct name as [|c name]; [done|].
  simpl in Hc. apply andb_true_iff in Hc as [Hc Hs]. simpl in Hl.
  change (String c name ++ " ") with (String c (name ++ " ")). step tr0.
  eapply moves_app.
  { apply (moves_method_chars (set_mark 0 r) d 1 name 1); [lia|lia|done]. }
  assert (H : forallb (fun i => bool_decide (dispatch rel (method_state i) 32 = Some tr4))
    (seqZ 1 20) = true) by (destruct rel; vm_compute; reflexivity).
  apply (forall_range _ _ _ (1 + len name)) in H; [|lia]. apply bool_decide_eq_true in H.
  eapply (moves_cons _ _ _ _ _ _ _ tr4); [exact H|reflexivity|discriminate| |apply moves_nil].
  cbn [acts tr4 tr do_acts act]. replace (mark (set_mark 0 r)) with 0 by by destruct r.
  change (PTR_TO text 0) with text. unfold element; simpl request_method.
  cbv iota beta. unfold on_request_method. rewrite Hm, decide_False by done. reflexivity.
Qed.

(** Calls on the marked token. *)
Lemma path_token r d pre tok rest :
  text = pre ++ tok ++ rest -> mark r = len pre ->
  act request_callbacks text RequestPath (len pre + len tok) (r, d) =
    Val (r, update (fun q => setPath q tok) d).
Proof.
  intros E Hm. destruct (token _ _ _ _ Htext E) as (_ & T1 & T2). cbn [act]. rewrite Hm, T1.
  unfold element; simpl request_path. cbv iota beta. unfold on_request_path. by rewrite T2.
Qed.

Lemma fragment_token r d pre tok rest :
  text = pre ++ tok ++ rest -> mark r = len pre ->
  act request_callbacks text Fragment (len pre + len tok) (r, d) =
    Val (r, update (fun q => setFragment q tok) d).
Proof.
  intros E Hm. destruct (token _ _ _ _ Htext E) as (_ & T1 & T2). cbn [act]. rewrite Hm, T1.
  unfold element; simpl fragment. cbv iota beta. unfold on_request_fragment. by rewrite T2.
Qed.

Lemma query_token r d pre tok rest :
  text = pre ++ tok ++ rest -> query_start r = len pre ->
  act request_callbacks text QueryString (len pre + len tok) (r, d) =
    Val (r, update (fun q => setQuery q tok) d).
Proof.
  intros E Hm. destruct (token _ _ _ _ Htext E) as (_ & T1 & T2). cbn [act]. rewrite Hm, T1.
  unfold element; simpl query_string. cbv iota beta. unfold on_request_query. by rewrite T2.
Qed.

(** [request_uri]'s callback does nothing. *)
Lemma uri_token p r d : act request_callbacks text RequestUri p (r, d) = Val (r, d).
Proof. reflexivity. Qed.

(** A path: a slash, and not a second one at once. *)
Definition path_ok (s : string) : Prop :=
  exists t, s = "/" ++ t /\ pct_string path_char t = true /\ starts pchar t = true.

Lemma moves_path r d p path :
  path_ok path ->
  exists q, (q = 33 \/ q = 26) /\ moves 3 p (r, d) path q (set_mark p r, d).
Proof.
  intros (t & -> & Ht & Hst). destruct t as [|c t].
  { exists 33. split; [auto|]. simpl.
    eapply (moves_cons _ _ _ _ _ _ _ tr10); [by destruct rel|reflexivity|discriminate|reflexivity|].
    apply moves_nil. }
  exists 26. split; [auto|]. change ("/" ++ String c t) with (String (Ascii.ascii_of_nat 47) (String c t)).
  eapply (moves_cons _ _ _ _ _ _ _ tr10); [by destruct rel|reflexivity|discriminate|reflexivity|].
  by apply (moves_pct_entry _ _ _ path_char 26 27 28) with (cls0 := pchar) (l := []);
    [destruct rel; vm_compute..| | | |].
Qed.

Lemma moves_fragment r d pre f rest :
  text = pre ++ f ++ " " ++ rest -> f <> "" -> pct_string query_char f = true ->
  moves 20 (len pre) (r, d) (f ++ " ") 4
    (set_mark (len pre) r, update (fun q => setFragment q f) d).
Proof.
  intros E Hf Hc. eapply moves_app.
  - by apply (moves_pct_entry _ _ _ query_char 21 22 23) with (cls0 := query_char) (l := [Mark]);
      [destruct rel; vm_compute..| | |apply pct_starts|].
  - eapply (moves_cons _ _ _ _ _ _ _ tr46); [by destruct rel|reflexivity|discriminate| |apply moves_nil].
    cbn [acts tr46 tr do_acts].
    rewrite (fragment_token _ d pre f (" " ++ rest)) by (done || by destruct r). reflexivity.
Qed.

(** The query, from the state 29 behind the question mark to the state 30. *)
Lemma moves_query r d p q :
  q <> "" -> pct_string query_char q = true ->
  moves 29 p (r, d) q 30 (set_query_start p r, d).
Proof.
  intros Hq Hc.
  by apply (moves_pct_entry _ _ _ query_char 30 31 32) with (cls0 := query_char) (l := [StartQuery]);
    [destruct rel; vm_compute..| | |apply pct_starts|].
Qed.

(** What the parser stores of a target. *)
Definition received_target (path query frag : string) (q : HttpRequest) : HttpRequest :=
  let q := setPath q path in
  let q := if decide (query = "") then q else setQuery q query in
  if decide (frag = "") then q else setFragment q frag.

Definition opt_part (mark s : string) : string := (if decide (s = "") then "" else mark) ++ s.

(** Behind the path or the query, where [l] ends the part read before: a blank, or
  the fragment and a blank. *)
Lemma moves_end r d d' q l pre frag rest :
  text = pre ++ opt_part "#" frag ++ " " ++ rest -> pct_string query_char frag = true ->
  dispatch rel q 32 = Some (tr l 4) -> dispatch rel q 35 = Some (tr l 20) ->
  do_acts (act request_callbacks text) l (len pre) (r, d) = Val (r, d') ->
  exists r', moves q (len pre) (r, d) (opt_part "#" frag ++ " ") 4
    (r', if decide (frag = "") then d' else update (fun x => setFragment x frag) d') /\
    same_flags r r'.
Proof.
  intros E Hf Hsp Hh Hl. unfold opt_part in *. destruct (decide (frag = "")) as [->|Hne].
  - exists r. split; [|done]. simpl.
    eapply (moves_cons _ _ _ _ _ _ _ (tr l 4)); [done|reflexivity|discriminate|exact Hl|apply moves_nil].
  - exists (set_mark (len (pre ++ "#")) r). split; [|by destruct r].
    change (("#" ++ frag) ++ " ") with (String (Ascii.ascii_of_nat 35) (frag ++ " ")).
    eapply (moves_cons _ _ _ _ _ _ _ (tr l 20)); [done|reflexivity|discriminate|exact Hl|].
    change (target (tr l 20)) with 20.
    replace (len pre + 1) with (len (pre ++ "#")) by (rewrite string_length_app; simpl; lia).
    eapply moves_fragment; [|done|done]. rewrite E. by rewrite !string_app_assoc.
Qed.

Lemma moves_target r d pre path query frag rest :
  text = pre ++ path ++ opt_part "?" query ++ opt_part "#" frag ++ " " ++ rest ->
  path_ok path -> pct_string query_char query = true -> pct_string query_char frag = true ->
  exists r', moves 3 (len pre) (r, d) (path ++ opt_part "?" query ++ opt_part "#" frag ++ " ") 4
    (r', update (received_target path query frag) d) /\ same_flags r r'.
Proof.
  intros E Hp Hq Hf. destruct (moves_path r d (len pre) path Hp) as (q0 & Hq0 & Hm).
  set (r1 := set_mark (len pre) r) in *.
  assert (Hpath : act request_callbacks text RequestPath (len pre + len path) (r1, d) =
    Val (r1, update (fun q => setPath q path) d))
    by (eapply path_token; [exact E|subst r1; by destruct r]).
  assert (Hfl : same_flags r r1) by (subst r1; by destruct r).
  unfold received_target. unfold opt_part at 1 in E. unfold opt_part at 1.
  destruct (decide (query = "")) as [->|Hne].
  - destruct (moves_end r1 d (update (fun q => setPath q path) d) q0 [RequestPath; RequestUri]
      (pre ++ path) frag rest) as (r2 & Hm2 & Hf2).
    { rewrite E. by rewrite !string_app_assoc. } { done. }
    { destruct Hq0 as [-> | ->]; by destruct rel. } { destruct Hq0 as [-> | ->]; by destruct rel. }
    { rewrite string_length_app, Nat2Z.inj_add. cbn [do_acts]. by rewrite Hpath. }
    exists r2. split; [|clear -Hfl Hf2; flags].
    eapply moves_app; [exact Hm|]. rewrite string_length_app, Nat2Z.inj_add in Hm2.
    destruct (decide (frag = "")); exact Hm2.
  - set (p1 := pre ++ path ++ "?").
    set (r2 := set_query_start (len p1) r1).
    set (d1 := update (fun q => setPath q path) d) in *.
    destruct (moves_end r2 d1 (update (fun q => setQuery q query) d1) 30 [QueryString; RequestUri]
      (p1 ++ query) frag rest) as (r3 & Hm3 & Hf3).
    { rewrite E. subst p1. by rewrite !string_app_assoc. } { done. }
    { by destruct rel. } { by destruct rel. }
    { rewrite string_length_app, Nat2Z.inj_add. cbn [do_acts].
      rewrite (query_token r2 d1 p1 query (opt_part "#" frag ++ " " ++ rest)); [done| |subst r2; by destruct r1].
      rewrite E. subst p1. by rewrite !string_app_assoc. }
    exists r3. split; [|subst r2; clear -Hfl Hf3; flags].
    eapply moves_app; [exact Hm|].
    change (("?" ++ query) ++ opt_part "#" frag ++ " ")
      with (String (Ascii.ascii_of_nat 63) (query ++ opt_part "#" frag ++ " ")).
    eapply (moves_cons _ _ _ _ _ _ _ tr42);
      [destruct Hq0 as [-> | ->]; by destruct rel|reflexivity|discriminate| |].
    { cbn [acts tr42 tr do_acts]. rewrite Hpath. reflexivity. }
    change (target tr42) with 29.
    replace (len pre + len path + 1) with (len p1) by (subst p1; rewrite !string_length_app; simpl; lia).
    eapply moves_app; [by apply moves_query|]. fold r2.
    rewrite string_length_app, Nat2Z.inj_add in Hm3. destruct (decide (frag = "")); exact Hm3.
Qed.

(** The version, from the blank before it to the next line. *)
Lemma moves_version r d pre v rest :
  text = pre ++ "HTTP/" ++ version_string v ++ CRLF ++ rest -> v = 16 \/ v = 17 ->
  moves 4 (len pre) (r, d) ("HTTP/" ++ version_string v ++ CRLF) 13
    (set_mark (len pre) r, update (fun q => setVersion q v) d).
Proof.
  intros E Hv.
  assert (Hact : do_acts (act request_callbacks text) [HttpVersion] (len pre + 8)
    (set_mark (len pre) r, d) = Val (set_mark (len pre) r, update (fun q => setVersion q v) d)).
  { cbn [do_acts act]. replace (mark (set_mark (len pre) r)) with (len pre) by by destruct r.
    destruct (token text pre ("HTTP/" ++ version_string v) (CRLF ++ rest) Htext) as (-> & T & _);
      [by rewrite E, !string_app_assoc|].
    replace (len ("HTTP/" ++ version_string v)) with 8 in T by by destruct Hv as [-> | ->].
    rewrite T. unfold element; simpl http_version. cbv iota beta. unfold on_request_version.
    change (Z.to_nat 8) with 8%nat. by destruct Hv as [-> | ->]. }
  assert (Hd : forall q, q = 11 -> forall c, between 48 49 c = true ->
    dispatch rel q (schar c) = Some (st 12)) by (intros q -> c Hc; on_char).
  assert (Hrest : moves 12 (len pre + 8) (set_mark (len pre) r, d) CRLF 13
    (set_mark (len pre) r, update (fun q => setVersion q v) d)).
  { eapply (moves_cons _ _ _ _ _ _ _ tr22); [reflexivity|reflexivity|discriminate|exact Hact|].
    step (@st action 13). apply moves_nil. }
  replace (len pre + 8) with (len pre + 1 + 1 + 1 + 1 + 1 + 1 + 1 + 1) in Hrest by lia.
  destruct Hv as [-> | ->]; simpl;
    (step tr13; step (@st action 6); step (@st action 7); step (@st action 8);
     step (@st action 9); step (@st action 10); step (@st action 11);
     step (@st action 12); exact Hrest).
Qed.

(** The empty line, at which the loop is left. *)
Lemma run_end r d p rest :
  xml_sent r = 0 -> json_sent r = 0 ->
  exists r', exec request_callbacks text rel 13 p (CRLF ++ rest) (r, d) = Val (348, p + 2, (r', d)).
Proof.
  intros Hx Hj. set (r1 := set_field_start p r). exists (set_body_start (p + 1 + 1) r1).
  assert (Hm : moves 13 p (r, d) (String CR "") 18 (r1, d)).
  { step tr25. apply moves_nil. }
  change (CRLF ++ rest) with (String CR "" ++ String LF rest). unfold exec. rewrite Hm.
  change (p + len (String CR "")) with (p + 1).
  rewrite (run_break _ _ _ _ _ _ _ tr36) by reflexivity.
  cbn [acts tr36 tr_break do_acts act]. unfold done_action.
  replace (xml_sent r1) with 0 by (subst r1; by destruct r).
  replace (json_sent r1) with 0 by (subst r1; by destruct r).
  simpl. do 3 f_equal. lia.
Qed.

(** *** A whole request *)

Definition sendable (q : HttpRequest) : Prop :=
  m_method q <> HTT_INVALID_METHOD /\ m_method q <> MSEARCH /\
  (m_version q = 16 \/ m_version q = 17) /\
  path_ok (m_path q) /\
  pct_string query_char (m_query q) = true /\ pct_string query_char (m_fragment q) = true /\
  forall k v, (k, v) ∈ m_headers q ->
    k <> "" /\ chars tchar k = true /\ chars value_char v = true.

(** What the parser makes of it, on top of [x]; the body comes later. *)
Definition receive (q x : HttpRequest) : HttpRequest :=
  received_headers (request_headers q)
    (setVersion (received_target (m_path q) (m_query q) (m_fragment q)
      (setMethod x (m_method q))) (m_version q)).

Lemma request_sends q :
  sendable q ->
  Forall2 sends (header_line ": " ("connection", connection_value (m_close q))
      :: (header_line ":" <$> printed (m_headers q))
      ++ (header_line ": " <$> length_header (m_body q))) (request_headers q).
Proof.
  intros (_ & _ & _ & _ & _ & _ & Hh). unfold request_headers. constructor.
  { apply sends_header; [auto|done|done|by destruct (m_close q)]. }
  apply Forall2_app.
  - assert (Hp : forall kv, kv ∈ printed (m_headers q) -> kv ∈ m_headers q)
      by by intros kv [_ H]%list_elem_of_filter.
    revert Hp. generalize (printed (m_headers q)). intros l.
    induction l as [|[k v] l IH]; intros Hp; [constructor|].
    constructor; [|apply IH; intros kv ?; apply Hp; by right].
    destruct (Hh k v) as (? & ? & ?); [apply Hp; by left|]. apply sends_header; auto.
  - unfold length_header. case_decide; [constructor|]. constructor; [|constructor].
    apply sends_header; [auto|done|done|apply decimal_value_char].
Qed.

Lemma method_sent m name :
  m <> HTT_INVALID_METHOD -> m <> MSEARCH -> HttpMethodToString m = Val name ->
  name <> "" /\ len name <= 20 /\ chars method_char name = true.
Proof.
  intros H1 H2 E. destruct m; try done; injection E as <-; (split; [done|split; [by vm_compute|reflexivity]]).
Qed.

Lemma prefix_append p s : String.prefix p (p ++ s) = true.
Proof. induction p as [|c p IH]; [by destruct s|]. simpl. by destruct (Ascii.ascii_dec c c). Qed.

Lemma method_received s m name :
  m <> HTT_INVALID_METHOD -> HttpMethodToString m = Val name -> CharsToHttpMethod (name ++ s) = m.
Proof.
  intros Hm E. destruct (first_match_spec method_map (name ++ s) _ method_map_no_nul eq_refl)
    as [(i & lit & Hi & Hp & _)|[Hbad Hall]]; fold (CharsToHttpMethod (name ++ s)) in *.
  - apply list_elem_of_lookup_2 in Hi. apply method_name in E; [|done].
    destruct (prefix_comparable _ _ _ Hp (prefix_append name s)) as [H|H].
    + by pose proof (method_map_prefix_free (_, _) (_, _) Hi E H) as [= ? ?].
    + by pose proof (method_map_prefix_free (_, _) (_, _) E Hi H) as [= ? ?].
  - exfalso. apply method_name in E; [|done].
    pose proof (proj1 (list.Forall_forall _ _) Hall _ E) as H. simpl in H.
    by rewrite prefix_append in H.
Qed.

(** The head [toString] prints, without the body. *)
Definition head_text (q : HttpRequest) (name : string) : string :=
  render (target_line q name :: header_line ": " ("connection", connection_value (m_close q))
      :: (header_line ":" <$> printed (m_headers q))
      ++ (header_line ": " <$> length_header (m_body q))) "".

Lemma run_request q name r d tail :
  sendable q -> HttpMethodToString (m_method q) = Val name -> text = head_text q name ++ tail ->
  xml_sent r = 0 -> json_sent r = 0 ->
  exists r', exec request_callbacks text rel 1 0 text (r, d) =
    Val (348, len text - len tail, (r', update (receive q) d)).
Proof.
  intros Hq Hn E Hx Hj. pose proof (request_sends q Hq) as Hs.
  destruct Hq as (Hm & Hms & Hv & Hpath & Hquery & Hfrag & _).
  unfold head_text in E. rewrite render_app in E. change ("" ++ tail) with tail in E.
  revert E Hs. generalize (header_line ": " ("connection", connection_value (m_close q))
    :: (header_line ":" <$> printed (m_headers q)) ++ (header_line ": " <$> length_header (m_body q))).
  intros hl E Hs. cbn [render] in E.
  set (T := m_path q ++ opt_part "?" (m_query q) ++ opt_part "#" (m_fragment q) ++ " ").
  set (V := "HTTP/" ++ version_string (m_version q) ++ CRLF).
  set (H := foldr (fun l s => l ++ CRLF ++ s) "" hl).
  assert (Etext : text = (name ++ " ") ++ T ++ V ++ render hl tail).
  { rewrite E. unfold target_line, T, V, opt_part. rewrite !string_app_assoc. reflexivity. }
  destruct (method_sent _ _ Hm Hms Hn) as (Hn1 & Hn2 & Hn3).
  assert (M1 := moves_method r d name (m_method q) (T ++ V ++ render hl tail)).
  rewrite string_app_assoc in Etext. specialize (M1 Etext).
  destruct (moves_target (set_mark 0 r) (update (fun x => setMethod x (m_method q)) d)
    (name ++ " ") (m_path q) (m_query q) (m_fragment q) (V ++ render hl tail))
    as (r2 & M2 & F2); [|done..|].
  { rewrite Etext. unfold T. by rewrite !string_app_assoc. }
  fold T in M2.
  set (d2 := update (received_target (m_path q) (m_query q) (m_fragment q))
    (update (fun x => setMethod x (m_method q)) d)) in *.
  assert (M3 := moves_version r2 d2 ((name ++ " ") ++ T) (m_version q) (render hl tail)).
  destruct (moves_headers hl (request_headers q) (set_mark (len ((name ++ " ") ++ T)) r2)
    (update (fun x => setVersion x (m_version q)) d2)
    (((name ++ " ") ++ T) ++ V) (CRLF ++ tail) Hs) as (r4 & M4 & F4).
  { rewrite Etext, render_lines. by rewrite !string_app_assoc. }
  fold H in M4.
  set (head := (name ++ " ") ++ T ++ V ++ H).
  destruct (run_end r4 (update (receive q) d) (len head) tail) as (r5 & Hend).
  1,2: clear -F2 F4 Hx Hj; flags.
  exists r5.
  assert (Eh : text = head ++ CRLF ++ tail).
  { rewrite Etext, render_lines. unfold head, H. by rewrite !string_app_assoc. }
  replace (len text - len tail) with (len head + 2)
    by (rewrite Eh, !string_length_app; change (String.length CRLF) with 2%nat; lia).
  rewrite <- Hend. clear Hend. unfold exec.
  assert (M : moves 1 (len "") (r, d) head 13 (r4, update (receive q) d)).
  { unfold head.
    eapply moves_seq; [apply M1; [rewrite Etext; by apply method_received|done..]|].
    eapply moves_seq; [exact M2|].
    eapply moves_seq; [apply M3; [|done]|exact M4].
    rewrite Etext. unfold V. by rewrite !string_app_assoc. }
  specialize (M (CRLF ++ tail)). rewrite <- Eh in M. exact M.
Qed.
End RoundTrip.

(** ** Received requests *)

(** [received q]: the request a fresh parser makes of [q]. *)
Definition received (q : HttpRequest) : HttpRequest := receive q (HttpRequest_new 17 true).

Lemma received_headers_fields kvs q :
  m_headers (received_headers kvs q) =
    foldl (fun m kv => assign m kv.1 (skip_blanks kv.2)) (m_headers q) kvs /\
  m_method (received_headers kvs q) = m_method q /\
  m_version (received_headers kvs q) = m_version q /\
  m_close (received_headers kvs q) = m_close q /\
  m_path (received_headers kvs q) = m_path q /\
  m_query (received_headers kvs q) = m_query q /\
  m_fragment (received_headers kvs q) = m_fragment q /\
  m_body (received_headers kvs q) = m_body q.
Proof.
  unfold received_headers. revert q. induction kvs as [|kv kvs IH]; intros q; [done|].
  cbn [foldl]. destruct (IH (setHeader q kv.1 (skip_blanks kv.2))) as (-> & -> & -> & -> & -> & -> & -> & ->).
  by destruct q.
Qed.

Local Abbreviation map_ordered := (ordered CaseInsensitiLess fst).
Local Abbreviation map_value := (value CaseInsensitiLess).

Lemma received_header q key :
  map_ordered (m_headers q) ->
  map_value key (m_headers (received q)) =
    if decide (m_body q <> "" /\ fold_case key = fold_case "content-length")
    then Some (skip_blanks (decimal (Z.of_nat (String.length (m_body q)))))
    else if decide (fold_case key = fold_case "connection")
    then Some (skip_blanks (connection_value (m_close q)))
    else skip_blanks <$> map_value key (m_headers q).
Proof.
  intros Hm. unfold received, receive.
  destruct (received_headers_fields (request_headers q)
    (setVersion (received_target (m_path q) (m_query q) (m_fragment q)
      (setMethod (HttpRequest_new 17 true) (m_method q))) (m_version q))) as (-> & _).
  assert (H0 : m_headers (setVersion (received_target (m_path q) (m_query q) (m_fragment q)
      (setMethod (HttpRequest_new 17 true) (m_method q))) (m_version q)) = [])
    by (unfold received_target; by repeat case_decide).
  rewrite H0, received_value by constructor.
  change (map_value key []) with (@None string). unfold request_headers, last_value.
  cbn [foldl]. rewrite foldl_app. fold (last_value key).
  match goal with |- foldl _ ?o _ = _ => set (o1 := o) end.
  assert (E1 : o1 = if decide (fold_case key = fold_case "connection")
    then Some (skip_blanks (connection_value (m_close q))) else skip_blanks <$> map_value key (m_headers q)).
  { subst o1. cbn [fst snd]. pose proof (last_value_map key (m_headers q) Hm) as Hp.
    destruct (decide (fold_case key = fold_case "connection")) as [Hc|Hc]; [|exact Hp].
    apply last_value_other. intros kv [Hk _]%list_elem_of_filter Hk'.
    rewrite strcasecmp_zero in Hk. congruence. }
  rewrite E1. unfold length_header. destruct (decide (m_body q = "")) as [Hb|Hb]; cbn [foldl fst snd].
  - destruct (decide (m_body q <> "" /\ _)) as [[H _]|]; done.
  - apply decide_ext. naive_solver.
Qed.

(** A run of the machine with these callbacks gives the result of [execute]. *)
Lemma execute_run P text q p r1 d1 :
  let r := P.1 in
  0 < len text < 2 ^ 31 -> 1 <= cs r <= 349 -> body_start r <= len text ->
  (in_query (cs r) = true -> query_start r = 0) ->
  exec request_callbacks text (relaxed r) (cs r) 0 text (reset_marks r, P.2) = Val (q, p, (r1, d1)) ->
  execute P text (String.length text) =
    Val (p, (set_nread p (set_cs q r1), d1), memmove_front text (String.length text) (Z.to_nat p)).
Proof.
  intros r Hl Hcs Hb Hq E. destruct P as [r' d]. subst r. simpl in *.
  destruct (http11_exec_ok (fun _ => True) request_callbacks (request_callbacks_total (fun _ => True) (fun _ _ _ => Logic.I)
      (fun _ _ _ _ => Logic.I))
    text ltac:(lia)
    (relaxed r') text (cs r') 0 (reset_marks r') d)
    as (q' & p' & r2 & d2 & E2 & _ & Hr2 & Hc2 & Hn2 & Hp2 & _);
    [lia|lia|done|by apply reset_in_bounds; [lia|..]|].
  rewrite E in E2. injection E2 as <- <- <- <-.
  assert (Hn : nread r1 = 0) by (rewrite Hn2; by destruct r').
  unfold execute. rewrite str_take_all, (execute_exec _ _ _ _ q p r1 d1) by (done || lia).
  unfold http_parser_has_error. rewrite Hc2.
  replace (cs (reset_marks r')) with (cs r') by (by destruct r').
  rewrite (proj2 (Z.eqb_neq _ _)) by (unfold http_parser_error; lia). reflexivity.
Qed.

Lemma text_split q text :
  m_method q <> HTT_INVALID_METHOD -> HttpRequest_toString q = Val text ->
  exists name, HttpMethodToString (m_method q) = Val name /\ text = head_text q name ++ m_body q.
Proof.
  intros Hm E. assert (exists name, HttpMethodToString (m_method q) = Val name) as [name Hn].
  { destruct (m_method q); try done; by eexists. }
  rewrite (request_render q name Hn) in E. apply Val_inj in E.
  exists name. split; [done|]. rewrite <- E. symmetry. apply (render_app _ "").
Qed.

Lemma received_fields q :
  let r := received q in
  m_method r = m_method q /\ m_version r = m_version q /\ m_path r = m_path q /\
  m_query r = m_query q /\ m_fragment r = m_fragment q /\ m_body r = "" /\ m_close r = true.
Proof.
  intros r. unfold r, received, receive.
  destruct (received_headers_fields (request_headers q)
    (setVersion (received_target (m_path q) (m_query q) (m_fragment q)
      (setMethod (HttpRequest_new 17 true) (m_method q))) (m_version q)))
    as (_ & -> & -> & -> & -> & -> & -> & ->).
  unfold received_target. destruct (decide (m_query q = "")) as [Eq|], (decide (m_fragment q = "")) as [Ef|];
    simpl; rewrite ?Eq, ?Ef; done.
Qed.

(** [execute] on the head of a request and what came with it. *)
Lemma execute_request garbage q name tail :
  sendable q -> HttpMethodToString (m_method q) = Val name ->
  let text := head_text q name ++ tail in len text < 2 ^ 31 ->
  exists r data, execute (HttpRequestParser_new garbage) text (String.length text) =
      Val (len text - len tail, (r, mkData (received q) 0), data) /\
    str_take (String.length tail) data = tail /\ cs r = http_parser_first_final.
Proof.
  intros Hq Hn text Hlen.
  destruct (run_request text Hlen (relaxed (http_parser_init garbage)) q name
    (reset_marks (http_parser_init garbage)) (mkData (HttpRequest_new 17 true) 0) tail Hq Hn)
    as (r1 & E); [reflexivity..|].
  eexists _, _. split; [|split].
  - apply (execute_run (HttpRequestParser_new garbage)); [|done|simpl; lia|done|exact E].
    destruct text; [done|simpl in *; lia].
  - unfold text. rewrite string_length_app.
    replace (Z.to_nat _) with (String.length (head_text q name)) by lia.
    unfold memmove_front. rewrite <- string_length_app, str_take_all, str_drop_app, string_length_app.
    apply str_take_app.
  - by destruct r1.
Qed.

(** C26: a request that arrives in one piece is read back by the generated parser.
    Take a request with a method other than the extension M-SEARCH, version 1.0 or
    1.1, an absolute path not starting with two slashes, percent-encoded components,
    and headers made of name and value characters. Whatever the memory of the parser
    held, [execute] on the text that [toString] prints consumes exactly the head,
    leaves the body at the front of the buffer and finishes without error; method,
    version, path, query and fragment are those that were sent, and every header
    reads back as the value sent without leading blanks, "connection" and
    "content-length" saying what [dump] wrote there. *)
Theorem parse_dumped_request garbage q text
    (Hq : sendable q) (Htext : HttpRequest_toString q = Val text)
    (Hlen : Z.of_nat (String.length text) < 2 ^ 31)
    (Ho : map_ordered (m_headers q)) :
  exists P data, execute (HttpRequestParser_new garbage) text (String.length text) =
      Val (len text - len (m_body q), P, data) /\
    str_take (String.length (m_body q)) data = m_body q /\
    isFinished P = 1 /\ hasError P = false /\
    let r := m_data P.2 in
    m_method r = m_method q /\ m_version r = m_version q /\ m_path r = m_path q /\
    m_query r = m_query q /\ m_fragment r = m_fragment q /\ m_body r = "" /\
    forall key, map_value key (m_headers r) =
      if decide (m_body q <> "" /\ fold_case key = fold_case "content-length")
      then Some (skip_blanks (decimal (Z.of_nat (String.length (m_body q)))))
      else if decide (fold_case key = fold_case "connection")
      then Some (skip_blanks (connection_value (m_close q)))
      else skip_blanks <$> map_value key (m_headers q).
Proof.
  destruct (text_split q text (proj1 Hq) Htext) as (name & Hn & ->).
  destruct (execute_request garbage q name (m_body q) Hq Hn Hlen) as (r & data & E & Hd & Hc).
  exists (r, mkData (received q) 0), data. split; [exact E|]. split; [exact Hd|].
  unfold isFinished, hasError, http_parser_finish, http_parser_is_finished, http_parser_has_error.
  cbn [fst snd m_error]. rewrite Hc. split; [reflexivity|]. split; [reflexivity|].
  destruct (received_fields q) as (H1 & H2 & H3 & H4 & H5 & H6 & _). cbn [m_data].
  split_and!; try done. intros key. by apply received_header.
Qed.

Lemma demo_sendable : sendable demo_request.
Proof.
  split_and!; try (done || by vm_compute); [by right| |].
  - exists "". by split_and!.
  - intros k v [[= -> ->]|[[= -> ->]|Hin]%elem_of_cons]%elem_of_cons; try by split_and!.
    by apply not_elem_of_nil in Hin.
Qed.

(** The memory of a parser before its constructor. *)
Definition demo_garbage : http_parser := mkParser 77 5 5 5 5 5 5 5 5 5 1.

Lemma parse_dumped_request_witness :
  exists text P data, HttpRequest_toString demo_request = Val text /\
    execute (HttpRequestParser_new demo_garbage) text (String.length text) =
      Val (len text - 5, P, data) /\
    str_take 5 data = "hello" /\ isFinished P = 1 /\ hasError P = false /\
    m_query (m_data P.2) = "a=1" /\ getHeader (m_data P.2) "HOST" "" = "example.org".
Proof.
  destruct (parse_dumped_request demo_garbage demo_request
    ("POST /?a=1 HTTP/1.1" ++ CRLF ++ "connection: keep-alive" ++ CRLF ++
     "Host:example.org" ++ CRLF ++ "content-length: 5" ++ CRLF ++ CRLF ++ "hello")
    demo_sendable eq_refl eq_refl)
    as (P & data & E & H1 & H2 & H3 & _ & _ & _ & H4 & _ & _ & H5).
  { repeat constructor. }
  eexists _, P, data. split; [reflexivity|]. split; [exact E|]. split; [exact H1|].
  split; [exact H2|]. split; [exact H3|]. split; [exact H4|].
  unfold getHeader. rewrite map_get_value, H5. reflexivity.
Defined.

(** ** Requests that arrive in two pieces *)

(** A run that consumes the whole buffer. *)
Lemma execute_moves P text q r1 d1 :
  let r := P.1 in
  0 < len text < 2 ^ 31 -> 1 <= cs r <= 349 -> body_start r <= len text ->
  (in_query (cs r) = true -> query_start r = 0) ->
  moves (dispatch (relaxed r)) fallthrough (act request_callbacks text) (cs r) 0
    (reset_marks r, P.2) text q (r1, d1) ->
  execute P text (String.length text) =
    Val (len text, (set_nread (len text) (set_cs q r1), d1),
      memmove_front text (String.length text) (String.length text)).
Proof.
  intros r Hl Hcs Hb Hq Hm. specialize (Hm ""). rewrite string_app_nil in Hm.
  rewrite (execute_run P text q (len text) r1 d1), Nat2Z.id by done. done.
Qed.

Lemma set_nread_cs n q r : set_nread n (set_cs q r) = set_cs q (set_nread n r).
Proof. by destruct r. Qed.

Lemma start_state : 1 <= http_parser_start <= 349.
Proof. by vm_compute. Qed.

Section Split.
Context (garbage : http_parser) (m : HttpMethod) (name path : string).
Context (Hm : m <> HTT_INVALID_METHOD) (Hms : m <> MSEARCH) (Hname : HttpMethodToString m = Val name).
Context (Hpath : path_ok path).
Local Abbreviation P0 := (HttpRequestParser_new garbage).
Local Abbreviation rel := (relaxed P0.1).
Local Abbreviation pre := (name ++ " ").

Lemma moves_method_path text rest :
  text = pre ++ path ++ rest ->
  exists q, (q = 33 \/ q = 26) /\
    moves (dispatch rel) fallthrough (act request_callbacks text) 1 (len "") (reset_marks P0.1, P0.2)
      (pre ++ path) q (set_mark (len pre) (set_mark 0 (reset_marks P0.1)),
        update (fun x => setMethod x m) P0.2).
Proof.
  intros E. destruct (method_sent _ _ Hm Hms Hname) as (H1 & H2 & H3).
  destruct (moves_path text rel (set_mark 0 (reset_marks P0.1))
    (update (fun x => setMethod x m) P0.2) (len pre) path Hpath) as (q & Hq & M).
  exists q. split; [done|]. eapply moves_seq; [|exact M].
  apply (moves_method text rel _ _ _ _ (path ++ rest)); try done;
    [by rewrite E, !string_app_assoc|]. rewrite E, !string_app_assoc. by apply method_received.
Qed.

(** A piece that ends inside the path. *)
Lemma first_path :
  len (pre ++ path) < 2 ^ 31 ->
  exists q r data, (q = 33 \/ q = 26) /\
    execute P0 (pre ++ path) (String.length (pre ++ path)) =
      Val (len (pre ++ path), (set_cs q r, update (fun x => setMethod x m) P0.2), data) /\
    body_start r = 0 /\ uri_relaxed r = uri_relaxed garbage /\ xml_sent r = 0 /\ json_sent r = 0.
Proof.
  intros Hl. destruct (moves_method_path (pre ++ path) "") as (q & Hq & M);
    [by rewrite !string_app_nil|].
  assert (Hpos : 0 < len (pre ++ path)).
  { destruct Hpath as (t & -> & _). rewrite !string_length_app. simpl. lia. }
  pose proof (execute_moves P0 _ _ _ _ (conj Hpos Hl) start_state ltac:(simpl; lia)
    ltac:(done) M) as E.
  exists q, (set_nread (len (pre ++ path)) (set_mark (len pre) (set_mark 0 (reset_marks P0.1)))).
  eexists. split; [done|]. split; [exact E|]. by split_and!.
Qed.

(** A piece that ends inside the query. *)
Lemma first_query q1 :
  q1 <> "" -> pct_string query_char q1 = true -> len (pre ++ path ++ "?" ++ q1) < 2 ^ 31 ->
  exists r data,
    execute P0 (pre ++ path ++ "?" ++ q1) (String.length (pre ++ path ++ "?" ++ q1)) =
      Val (len (pre ++ path ++ "?" ++ q1),
        (set_cs 30 (set_query_start (len (pre ++ path ++ "?")) r),
         update (fun x => setPath (setMethod x m) path) P0.2), data) /\
    body_start r = 0 /\ uri_relaxed r = uri_relaxed garbage.
Proof.
  intros Hne Hq1 Hl. set (text := pre ++ path ++ "?" ++ q1) in *.
  destruct (moves_method_path text ("?" ++ q1)) as (q & Hq & M); [done|].
  set (r1 := set_mark (len pre) (set_mark 0 (reset_marks P0.1))) in *.
  set (d1 := update (fun x => setMethod x m) P0.2) in *.
  assert (Hact : act request_callbacks text RequestPath (len (pre ++ path)) (r1, d1) =
    Val (r1, update (fun x => setPath x path) d1)).
  { rewrite (string_length_app pre), Nat2Z.inj_add. by apply (path_token text Hl r1 d1 pre path ("?" ++ q1)). }
  assert (M' : moves (dispatch rel) fallthrough (act request_callbacks text) 1 (len "")
    (reset_marks P0.1, P0.2) ((pre ++ path) ++ "?" ++ q1) 30
    (set_query_start (len (pre ++ path ++ "?")) r1, update (fun x => setPath x path) d1)).
  { eapply moves_seq; [exact M|]. change (("") ++ pre ++ path) with (pre ++ path).
    eapply (moves_cons _ _ _ _ _ _ _ tr42 (r1, update (fun x => setPath x path) d1));
      [destruct Hq as [-> | ->]; reflexivity|reflexivity|discriminate| |].
    { cbn [acts tr42 tr do_acts]. rewrite Hact. reflexivity. }
    replace (len (pre ++ path) + 1) with (len (pre ++ path ++ "?"))
      by (rewrite !string_length_app; simpl; lia).
    by apply moves_query. }
  rewrite string_app_assoc in M'.
  assert (Hpos : 0 < len text) by (unfold text; rewrite !string_length_app; simpl; lia).
  pose proof (execute_moves P0 _ _ _ _ (conj Hpos Hl) start_state ltac:(simpl; lia)
    ltac:(done) M') as E.
  exists (set_nread (len text) r1). eexists. split; [exact E|]. by split_and!.
Qed.

(** The lines of headers, and that they are well formed. *)
Definition header_text (hs : list (string * string)) : string :=
  foldr (fun l s => l ++ CRLF ++ s) "" (header_line ":" <$> hs).
Definition headers_ok (hs : list (string * string)) : Prop :=
  Forall (fun kv => kv.1 <> "" /\ chars tchar kv.1 = true /\ chars value_char kv.2 = true) hs.

Lemma headers_ok_sends hs : headers_ok hs -> Forall2 sends (header_line ":" <$> hs) hs.
Proof.
  unfold headers_ok. induction 1 as [|kv hs (H1 & H2 & H3) _ IH]; simpl; constructor; [|done].
  apply sends_header; auto.
Qed.

(** A piece that ends inside the value of a header. *)
Lemma first_value version hs k v1 :
  version = 16 \/ version = 17 -> headers_ok hs -> k <> "" -> chars tchar k = true ->
  chars value_char v1 = true ->
  let text := pre ++ path ++ " HTTP/" ++ version_string version ++ CRLF ++ header_text hs ++ k ++ ":" ++ v1 in
  len text < 2 ^ 31 ->
  exists q r d data, (q = 15 \/ q = 16) /\
    execute P0 text (String.length text) = Val (len text, (set_cs q r, d), data) /\
    body_start r = 0 /\ m_error d = 0.
Proof.
  intros Hv Hhs Hk Hkc Hv1 text Hl.
  assert (E : text = pre ++ (path ++ " ") ++ ("HTTP/" ++ version_string version ++ CRLF)
    ++ header_text hs ++ (k ++ ":") ++ v1) by (unfold text; by rewrite !string_app_assoc).
  destruct (method_sent _ _ Hm Hms Hname) as (H1 & H2 & H3).
  assert (M1 := moves_method text rel (reset_marks P0.1) P0.2 name m).
  destruct (moves_target text Hl rel (set_mark 0 (reset_marks P0.1))
    (update (fun x => setMethod x m) P0.2) pre path "" ""
    (("HTTP/" ++ version_string version ++ CRLF) ++ header_text hs ++ (k ++ ":") ++ v1)) as (r2 & M2 & F2);
    [rewrite E; by rewrite !string_app_assoc|done..|].
  change (opt_part "?" "" ++ opt_part "#" "" ++ " ") with " " in M2.
  set (d2 := update (received_target path "" "") (update (fun x => setMethod x m) P0.2)) in *.
  assert (M3 := moves_version text Hl rel r2 d2 (pre ++ path ++ " ") version (header_text hs ++ (k ++ ":") ++ v1)).
  set (r3 := set_mark (len (pre ++ path ++ " ")) r2) in *.
  set (d3 := update (fun q => setVersion q version) d2) in *.
  set (pre3 := (pre ++ path ++ " ") ++ "HTTP/" ++ version_string version ++ CRLF) in *.
  destruct (moves_headers text Hl rel (header_line ":" <$> hs) hs r3 d3 pre3 ((k ++ ":") ++ v1))
    as (rh & Mh & Fh); [by apply headers_ok_sends|rewrite E; unfold pre3, header_text; by rewrite !string_app_assoc|].
  fold (header_text hs) in Mh. set (d4 := update (received_headers hs) d3) in *.
  set (pre4 := pre3 ++ header_text hs) in *.
  assert (M4 := moves_name text Hl rel rh d4 pre4 k v1).
  set (r4 := set_field_len (len k) (set_field_start (len pre4) rh)) in *.
  destruct (moves_value_part text rel r4 d4 (len (pre4 ++ k ++ ":")) v1 Hv1)
    as (q & r5 & Hq & M5 & F5 & _).
  assert (M : moves (dispatch rel) fallthrough (act request_callbacks text) 1 (len "")
    (reset_marks P0.1, P0.2) text q (r5, d4)).
  { rewrite E at 2. eapply moves_seq.
    { apply (M1 (path ++ " HTTP/" ++ version_string version ++ CRLF ++ header_text hs ++ k ++ ":" ++ v1)); try done;
        [unfold text; by rewrite !string_app_assoc|unfold text; rewrite !string_app_assoc;
         by apply method_received]. }
    eapply moves_seq; [exact M2|]. eapply moves_seq; [apply M3; [|done]|].
    { rewrite E. by rewrite !string_app_assoc. }
    eapply moves_seq; [exact Mh|]. eapply moves_seq; [apply M4; [|done..]|exact M5].
    rewrite E. unfold pre4, pre3. by rewrite !string_app_assoc. }
  assert (Hpos : 0 < len text).
  { unfold text. rewrite !string_length_app. simpl. lia. }
  pose proof (execute_moves P0 _ _ _ _ (conj Hpos Hl) start_state ltac:(simpl; lia)
    ltac:(by destruct Hq as [-> | ->]) M) as E5.
  rewrite set_nread_cs in E5. exists q, (set_nread (len text) r5), d4. eexists.
  split; [done|]. split; [exact E5|]. split; [|done]. destruct F2 as (_ & _ & F2), Fh as (_ & _ & Fh), F5 as (_ & _ & F5).
  clear -F2 Fh F5. subst r4 r3. destruct r2, rh, r5. simpl in *. congruence.
Qed.

(** The second piece, from the parser as the first one leaves it. *)

(** In the path: the rest is stored as the path. *)
Lemma second_path q r d p2 version :
  q = 33 \/ q = 26 -> body_start r = 0 -> xml_sent r = 0 -> json_sent r = 0 -> m_error d = 0 ->
  p2 <> "" -> pct_string path_char p2 = true -> starts pchar p2 = true ->
  version = 16 \/ version = 17 ->
  let text := p2 ++ " HTTP/" ++ version_string version ++ CRLF ++ CRLF in
  len text < 2 ^ 31 ->
  exists P data, execute (set_cs q r, d) text (String.length text) = Val (len text, P, data) /\
    isFinished P = 1 /\ hasError P = false /\ m_path (m_data P.2) = p2.
Proof.
  intros Hq Hb Hx Hj He Hne Hp2 Hst Hv text Hl.
  set (r0 := set_cs q r). set (R := relaxed r0).
  assert (M1 : moves (dispatch R) fallthrough (act request_callbacks text) q (len "")
    (reset_marks r0, d) p2 26 (reset_marks r0, d)).
  { destruct Hq as [-> | ->].
    - by apply (moves_pct_entry _ _ _ path_char 26 27 28) with (cls0 := pchar) (l := []);
        [destruct R; vm_compute..| | | |].
    - by apply (moves_pct _ _ _ path_char 26 27 28); [destruct R; vm_compute|]. }
  assert (Hmark : mark (reset_marks r0) = len "") by (subst r0; by destruct r).
  destruct (moves_end text Hl R (reset_marks r0) d (update (fun x => setPath x p2) d) 26
    [RequestPath; RequestUri] p2 "" ("HTTP/" ++ version_string version ++ CRLF ++ CRLF))
    as (r2 & M2 & F2); [done|done|by destruct R|by destruct R| |].
  { cbn [do_acts]. change (len p2) with (len "" + len p2).
    by rewrite (path_token text Hl (reset_marks r0) d "" p2
      (" HTTP/" ++ version_string version ++ CRLF ++ CRLF)). }
  rewrite decide_True in M2 by done.
  assert (M3 := moves_version text Hl R r2 (update (fun x => setPath x p2) d) (p2 ++ " ") version CRLF).
  destruct (run_end text R (set_mark (len (p2 ++ " ")) r2)
    (update (fun q => setVersion q version) (update (fun x => setPath x p2) d))
    (len ((p2 ++ " ") ++ "HTTP/" ++ version_string version ++ CRLF)) "") as (r3 & Hend).
  1,2: subst r0; clear -F2 Hx Hj; flags.
  assert (E : exec request_callbacks text R q 0 text (reset_marks r0, d) = Val (348, len text,
    (r3, update (fun q => setVersion q version) (update (fun x => setPath x p2) d)))).
  { assert (M : moves (dispatch R) fallthrough (act request_callbacks text) q (len "")
      (reset_marks r0, d) (p2 ++ " " ++ "HTTP/" ++ version_string version ++ CRLF) 13
      (set_mark (len (p2 ++ " ")) r2,
       update (fun q => setVersion q version) (update (fun x => setPath x p2) d))).
    { eapply moves_seq; [exact M1|]. eapply moves_seq; [exact M2|]. apply M3; [|done].
      unfold text. by rewrite !string_app_assoc. }
    specialize (M CRLF). rewrite !string_app_assoc in M. change (len "" + _) with (len (p2 ++ " " ++ "HTTP/" ++ version_string version ++ CRLF)) in M.
    unfold exec. etransitivity; [exact M|]. rewrite string_app_assoc in Hend.
    change (CRLF ++ "") with CRLF in Hend. unfold exec in Hend. rewrite Hend. do 3 f_equal.
    unfold text. rewrite !string_length_app. change (String.length CRLF) with 2%nat. simpl. lia. }
  assert (Hpos : 0 < len text) by (unfold text; rewrite !string_length_app; simpl; lia).
  assert (Ecs : cs r0 = q) by (subst r0; by destruct r).
  eexists _, _. split.
  { apply (execute_run (r0, d)); [done|cbn; rewrite Ecs; lia|subst r0; destruct r; simpl in *; lia| |
      cbn; rewrite Ecs; exact E].
    cbn. rewrite Ecs. by destruct Hq as [-> | ->]. }
  unfold isFinished, hasError, http_parser_finish, http_parser_is_finished, http_parser_has_error.
  cbn [fst snd m_error update]. rewrite He. by destruct r3, d as [[]].
Qed.

(** In the query, if the rest of it is shorter than what came before it: its length
  wraps around. *)
Lemma second_query r d s0 q2 rest :
  let text := q2 ++ " " ++ rest in
  pct_string query_char q2 = true -> len q2 < s0 -> s0 < 2 ^ 31 -> len text < 2 ^ 31 ->
  execute (set_cs 30 (set_query_start s0 r), d) text (String.length text) = Exc length_error.
Proof.
  intros text Hq2 Hs0 Hs Hl. unfold execute. rewrite str_take_all.
  assert (Hpos : 0 < len text) by (unfold text; rewrite !string_length_app; simpl; lia).
  rewrite execute_unfold by done.
  set (r0 := set_cs 30 (set_query_start s0 r)).
  set (R := relaxed r0).
  assert (E : exec request_callbacks text R 30 0 text (reset_marks r0, d) = Exc length_error).
  { assert (M : moves (dispatch R) fallthrough (act request_callbacks text) 30 (len "")
      (reset_marks r0, d) q2 30 (reset_marks r0, d)).
    { by apply (moves_pct _ _ _ query_char 30 31 32); [destruct R; vm_compute|]. }
    specialize (M (" " ++ rest)). unfold exec. etransitivity; [exact M|].
    change (" " ++ rest) with (String (Ascii.ascii_of_nat 32) rest). cbn [run].
    replace (dispatch R 30 (schar (Ascii.ascii_of_nat 32))) with (Some tr57) by by destruct R.
    cbn [acts tr57 tr do_acts act]. replace (query_start (reset_marks r0)) with s0
      by (subst r0; by destruct r).
    unfold element; simpl query_string. cbv iota beta. unfold on_request_query, std_string.
    change (len "" + len q2) with (len q2).
    replace (LEN s0 (len q2)) with (len q2 - s0 + 2 ^ 64)
      by (unfold LEN, wrap; apply Z.mod_unique with (-1); lia).
    rewrite (proj2 (Z.leb_le _ _)) by lia. reflexivity. }
  replace (cs r0) with 30 by (subst r0; by destruct r). by rewrite E.
Qed.

(** In a header value: the name of the header is lost. *)
Lemma moves_lost_value text R q r d v2 :
  q = 15 \/ q = 16 -> chars value_char v2 = true -> field_len r = 0 -> mark r = 0 ->
  exists r', moves (dispatch R) fallthrough (act request_callbacks text) q 0 (r, d) (v2 ++ CRLF) 13
      (r', setError 1002 d) /\
    same_flags r r' /\ field_start r' = field_start r /\ field_len r' = 0 /\ 0 <= mark r' <= len v2.
Proof.
  intros Hq Hv Hf Hmk.
  assert (Hpart : exists q1 r1, (q1 = 15 \/ q1 = 16) /\
    moves (dispatch R) fallthrough (act request_callbacks text) q 0 (r, d) v2 q1 (r1, d) /\
    same_flags r r1 /\ field_start r1 = field_start r /\ field_len r1 = 0 /\ 0 <= mark r1 <= len v2).
  { destruct Hq as [-> | ->].
    - destruct (moves_value_part text R r d 0 v2 Hv) as (q1 & r1 & Hq1 & M & F & H1 & H2 & H3).
      exists q1, r1. split_and!; try done; lia.
    - exists 16, r. split; [by right|]. split; [|split_and!; try done; lia].
      eapply (moves_class _ _ _ value_char); [|discriminate|exact Hv].
      intros; eapply on_class_spec; [|eassumption]; destruct R; vm_compute; reflexivity. }
  destruct Hpart as (q1 & r1 & Hq1 & M & F & H1 & H2 & H3).
  assert (Hw : forall r' p, field_len r' = 0 ->
    act request_callbacks text WriteValue p (r', d) = Val (r', setError 1002 d)).
  { intros r' p H. cbn [act]. unfold write_value; simpl http_field. cbv iota beta.
    unfold on_request_http_field. by rewrite H. }
  assert (Hend : forall r', moves (dispatch R) fallthrough (act request_callbacks text) 17 (len v2 + 1)
    (r', setError 1002 d) (String LF "") 13 (r', setError 1002 d)).
  { intros r'. eapply (moves_cons _ _ _ _ _ _ _ (st 13)); [reflexivity|reflexivity|discriminate|reflexivity|].
    apply moves_nil. }
  destruct Hq1 as [-> | ->].
  - exists (set_mark (len v2) r1). split; [|destruct r1; simpl in *; split_and!; try done; lia].
    eapply moves_app; [exact M|]. change CRLF with (String CR (String LF "")).
    eapply (moves_cons _ _ _ _ _ _ _ tr31); [reflexivity|reflexivity|discriminate| |apply Hend].
    cbn [acts tr31 tr do_acts]. change (act request_callbacks text StartValue (0 + len v2) (r1, d))
      with (Val (set_mark (len v2) r1, d)). cbn [mbind res_bind]. by rewrite Hw by by destruct r1.
  - exists r1. split; [|split_and!; try done; lia].
    eapply moves_app; [exact M|]. change CRLF with (String CR (String LF "")).
    eapply (moves_cons _ _ _ _ _ _ _ tr34); [reflexivity|reflexivity|discriminate| |apply Hend].
    cbn [acts tr34 tr do_acts]. by rewrite Hw.
Qed.

Lemma second_value q r d v2 rest :
  let text := v2 ++ CRLF ++ rest in
  q = 15 \/ q = 16 -> body_start r = 0 -> chars value_char v2 = true -> len text < 2 ^ 31 ->
  exists n P data, execute (set_cs q r, d) text (String.length text) = Val (n, P, data) /\
    m_error P.2 = 1002.
Proof.
  intros text Hq Hb Hv2 Hl. set (r0 := set_cs q r). set (R := relaxed r0).
  assert (Hpos : 0 < len text).
  { unfold text. rewrite !string_length_app. change (String.length CRLF) with 2%nat. lia. }
  destruct (moves_lost_value text R q (reset_marks r0) d v2 Hq Hv2) as (r1 & M & F & Hfs & Hfl & Hmk);
    [subst r0; by destruct r..|].
  assert (HI : callbacks_total (fun d => m_error d = 1002) header_callbacks)
    by (apply header_callbacks_total; [intros f d1 H; exact H|done]).
  assert (Hlt : len text = len v2 + 2 + len rest).
  { unfold text. rewrite !string_length_app. change (String.length CRLF) with 2%nat. lia. }
  destruct (http11_exec_ok (fun d => m_error d = 1002) header_callbacks HI text Hl R rest 13
    (len (v2 ++ CRLF)) r1 (setError 1002 d))
    as (q' & p' & r2 & d2 & E2 & Hd2 & Hr2 & Hc2 & Hn2 & Hp2 & _);
    [unfold text; rewrite !string_length_app; lia|lia|done| |].
  { rewrite string_length_app. change (String.length CRLF) with 2%nat. destruct F as (_ & _ & F).
    assert (Hz : field_start (reset_marks r0) = 0 /\ body_start (reset_marks r0) = 0)
      by (subst r0; by destruct r).
    unfold in_bounds. split_and!; try lia; done. }
  rewrite <- header_exec in E2 by left.
  assert (E : exec request_callbacks text R q 0 text (reset_marks r0, d) = Val (q', p', (r2, d2))).
  { specialize (M rest). rewrite string_app_assoc in M. unfold exec. etransitivity; [exact M|].
    exact E2. }
  assert (Ecs : cs r0 = q) by (subst r0; by destruct r).
  eexists _, _, _. split.
  - apply (execute_run (r0, d)); [done|cbn; rewrite Ecs; destruct Hq; lia|subst r0; destruct r; simpl in *; lia| |
      cbn; rewrite Ecs; exact E].
    cbn. rewrite Ecs. by destruct Hq as [-> | ->].
  - done.
Qed.
End Split.

(** C37: a request that arrives in two pieces is not read back, since [execute]
    forgets its marks at every call while the bytes before them are gone. For any
    method but M-SEARCH, paths of the grammar, and cuts outside of percent escapes: a request without headers
    that is cut inside the path, not in front of a "/" or at its end, is accepted with the second
    part as its path; cut behind a first character of
    the query with fewer bytes left of it than came before it, the length of the
    query wraps around and the callback throws [length_error]; with headers (and no query), cut anywhere
    between the colon of any of them and the end of the line, the request is
    refused: whatever follows, the error is 1002, that of a header without a name. *)
Theorem split_request garbage m name path
    (Hm : m <> HTT_INVALID_METHOD) (Hms : m <> MSEARCH) (Hname : HttpMethodToString m = Val name)
    (Hpath : path_ok path) :
  let P0 := HttpRequestParser_new garbage in
  let pre := name ++ " " in
  (forall p2 version,
     p2 <> "" -> pct_string path_char p2 = true -> starts pchar p2 = true ->
     version = 16 \/ version = 17 ->
     let first := pre ++ path in
     let second := p2 ++ " HTTP/" ++ version_string version ++ CRLF ++ CRLF in
     len first < 2 ^ 31 -> len second < 2 ^ 31 ->
     exists P data P' data',
       execute P0 first (String.length first) = Val (len first, P, data) /\
       execute P second (String.length second) = Val (len second, P', data') /\
       isFinished P' = 1 /\ hasError P' = false /\ m_path (m_data P'.2) = p2) /\
  (forall q1 q2 rest,
     q1 <> "" -> pct_string query_char q1 = true -> pct_string query_char q2 = true ->
     let first := pre ++ path ++ "?" ++ q1 in
     let second := q2 ++ " " ++ rest in
     len first < 2 ^ 31 -> len second < 2 ^ 31 -> len q2 < len (pre ++ path ++ "?") ->
     exists P data,
       execute P0 first (String.length first) = Val (len first, P, data) /\
       execute P second (String.length second) = Exc length_error) /\
  (forall version hs k v1 v2 rest,
     version = 16 \/ version = 17 -> headers_ok hs -> k <> "" -> chars tchar k = true ->
     chars value_char v1 = true -> chars value_char v2 = true ->
     let first := pre ++ path ++ " HTTP/" ++ version_string version ++ CRLF ++ header_text hs ++
       k ++ ":" ++ v1 in
     let second := v2 ++ CRLF ++ rest in
     len first < 2 ^ 31 -> len second < 2 ^ 31 ->
     exists P data n P' data',
       execute P0 first (String.length first) = Val (len first, P, data) /\ hasError P = false /\
       execute P second (String.length second) = Val (n, P', data') /\
       m_error P'.2 = 1002 /\ hasError P' = true).
Proof.
  intros P0 pre. split; [|split].
  - intros p2 version Hne Hp2 Hst Hv first second H1 H2.
    destruct (first_path garbage m name path Hm Hms Hname Hpath H1)
      as (q & r & data & Hq & E1 & Hb & _ & Hx & Hj).
    destruct (second_path q r (update (fun x => setMethod x m) P0.2) p2 version)
      as (P' & data' & E2 & H); try done.
    by eexists _, _, P', data'.
  - intros q1 q2 rest Hne Hq1 Hq2 first second H1 H2 Hlt.
    destruct (first_query garbage m name path Hm Hms Hname Hpath q1 Hne Hq1 H1)
      as (r & data & E1 & _ & _).
    eexists _, _. split; [exact E1|]. apply second_query; try done.
    unfold first, pre in H1. clear -H1. rewrite !string_length_app in *. lia.
  - intros version hs k v1 v2 rest Hv Hhs Hk Hkc Hv1 Hv2 first second H1 H2.
    destruct (first_value garbage m name path Hm Hms Hname Hpath version hs k v1 Hv Hhs Hk Hkc Hv1 H1)
      as (q & r & d & data & Hq & E1 & Hb1 & He).
    destruct (second_value q r d v2 rest Hq Hb1 Hv2 H2) as (n & P' & data' & E2 & He').
    eexists _, _, n, P', data'. split; [exact E1|]. unfold hasError. rewrite He'. cbn [fst snd].
    rewrite He. split; [by destruct Hq as [-> | ->], r|]. by split.
Qed.

Lemma split_request_witness :
  exists P data P' data',
    execute (HttpRequestParser_new demo_garbage) "GET /in" 7 = Val (7, P, data) /\
    execute P ("dex HTTP/1.1" ++ CRLF ++ CRLF) 16 = Val (16, P', data') /\
    isFinished P' = 1 /\ hasError P' = false /\ m_path (m_data P'.2) = "dex".
Proof.
  refine (proj1 (split_request demo_garbage GET "GET" "/in" _ _ eq_refl _) "dex" 17 _ _ _ _ _ _);
    try done; [by exists "in"|by right].
Defined.
