(* ===== verification/Channel.v ===== *)
(** * The socket as the HTTP code sees it

    The results of the reads and writes on the socket are an input, in the order the
    calls are made. What [HttpSession::recvRequest] and [HttpConnection::recvResponse]
    do alike: one read behind the bytes left in the buffer, and the body whose length
    a header announces. *)
From stdpp Require Import base tactics option list strings pretty numbers.
From coqutil Require Import Byte.
From S2P Require Import Prelude CString Stream.

Open Scope string_scope.
Open Scope Z_scope.

(** The socket of a session: the results of the reads and, per [writeFixSize], of the
    writes to come; the texts handed to [writeFixSize] so far; whether it is open. *)
Record session := mkSession {
  reads : list read_result;
  sends : list (list Z);
  sent : list string;
  is_open : bool
}.

Definition set_reads rs (s : session) := mkSession rs (sends s) (sent s) (is_open s).

Definition bytes_of (s : string) : list byte := String.list_byte_of_string s.
Definition string_of (l : list byte) : string := String.string_of_list_byte l.

(** One call of the virtual [read]. *)
Definition read_once : ST session read_result := fun s =>
  match reads s with
  | [] => (Bad NoFuel, s)
  | r :: rs => (Val r, set_reads rs s)
  end.

(** [memcpy] of [d] over [data] at [offset]. *)
Definition overwrite (data : string) (offset : nat) (d : string) : res string :=
  if (String.length data <? offset + String.length d)%nat then Bad OutOfBounds
  else Val (str_take offset data ++ d ++ str_drop (offset + String.length d) data).

(** [readFixSize(&body[len], n)] where [n] bytes are left of [body]. *)
Definition read_body (n : Z) : ST session (Z * string) := fun s =>
  match readFixSize_rest (replicate (Z.to_nat n) (byte.of_Z 0)) (reads s) with
  | Val (rt, b, rs) => (Val (rt, string_of b), set_reads rs s)
  | Exc e => (Exc e, s)
  | Bad f => (Bad f, s)
  end.

(** The body of [length] bytes, of which the first [offset] bytes of [data] hold the
    start: [Some None] if there is none, [None] if the socket ends.
    [body.resize] throws for a length no string can have. *)
Definition recv_body (length : Z) (data : string) (offset : Z) :
    ST session (option (option string)) :=
  if 0 <? length then
    if 2 ^ 62 <=? length then throw length_error else
    let front := str_take (Z.to_nat (if offset <=? length then offset else length)) data in
    let left := length - offset in
    if 0 <? left then
      '(rt, rest) ← read_body left;
      if rt <=? 0 then mret None else mret (Some (Some (front ++ rest)))
    else mret (Some (Some front))
  else mret (Some None).

(** ** Lemmas *)

Local Abbreviation len s := (Z.of_nat (String.length s)).

Lemma string_of_bytes s : string_of (bytes_of s) = s.
Proof. apply String.string_of_list_byte_of_string. Qed.

Lemma bytes_of_length s : length (bytes_of s) = String.length s.
Proof.
  unfold bytes_of, String.list_byte_of_string. rewrite List.length_map.
  induction s as [|c s IH]; [done|]. simpl. by rewrite IH.
Qed.

Lemma string_of_length l : String.length (string_of l) = length l.
Proof.
  rewrite <- bytes_of_length. unfold bytes_of, string_of.
  by rewrite String.list_byte_of_string_of_list_byte.
Qed.

Lemma str_take_take m n s : (m <= n)%nat -> str_take m (str_take n s) = str_take m s.
Proof.
  revert n s. induction m as [|m IH]; intros n s H; [by destruct n, s|].
  destruct n; [lia|]. destruct s as [|c s]; [done|]. simpl. f_equal. apply IH. lia.
Qed.

Lemma bytes_of_app s t : bytes_of (s ++ t) = (bytes_of s ++ bytes_of t)%list.
Proof.
  unfold bytes_of, String.list_byte_of_string. rewrite <- List.map_app. f_equal.
  induction s as [|c s IH]; [done|]. simpl. f_equal. exact IH.
Qed.

Lemma overwrite_front data d :
  (String.length d <= String.length data)%nat ->
  overwrite data 0 d = Val (d ++ str_drop (String.length d) data).
Proof.
  intros H. unfold overwrite. rewrite (proj2 (Nat.ltb_ge _ _)) by (simpl; lia).
  by destruct data.
Qed.

(** The body [b]: [b1] came with the head, [chunks] hold the rest. *)
Lemma recv_body_ok b data tail b1 chunks rs s :
  len b < 2 ^ 31 -> str_take (String.length tail) data = tail ->
  (exists extra, tail = b1 ++ extra) -> (chunks <> [] -> tail = b1) ->
  b = b1 ++ string_of (concat chunks) -> Forall (fun d => d <> []) chunks ->
  reads s = ((RData <$> chunks) ++ rs)%list ->
  recv_body (len b) data (len tail) s =
    (Val (Some (if decide (b = "") then None else Some b)), set_reads rs s).
Proof.
  intros Hl Hd [extra Ht] Hc Hb Hne Hr. unfold recv_body.
  assert (Hset : forall l, reads s = l -> set_reads l s = s) by (by intros l <-; destruct s).
  assert (Hlen : len b = len b1 + Z.of_nat (length (concat chunks)))
    by (rewrite Hb, string_length_app, string_of_length; lia).
  assert (Hfront : str_take (String.length b1) data = b1).
  { rewrite <- (str_take_take _ (String.length tail)), Hd, Ht by (rewrite Ht, string_length_app; lia).
    apply str_take_app. }
  assert (Htl : len b1 <= len tail) by (rewrite Ht, string_length_app; lia).
  destruct chunks as [|c chunks].
  - rewrite (Hset rs) by done. simpl concat in *. rewrite string_app_nil in Hb. subst b1.
    case_decide as Hb; [by subst b|].
    assert (Hpos : 0 < len b) by (destruct b; [done|simpl; lia]).
    rewrite (proj2 (Z.ltb_lt 0 (len b))), (proj2 (Z.leb_gt _ _)), (proj2 (Z.ltb_ge 0 _)) by lia.
    replace (if len tail <=? len b then len tail else len b)
      with (len b) by (destruct (Z.leb_spec (len tail) (len b)); simpl in *; lia).
    rewrite Nat2Z.id, Hfront. reflexivity.
  - assert (Hcl : (0 < length (concat (c :: chunks)))%nat).
    { apply list.Forall_cons in Hne as [Hc0 _]. simpl. rewrite length_app.
      destruct c; [done|simpl; lia]. }
    rewrite decide_False by (intros E; rewrite E in Hlen; simpl String.length in Hlen; lia).
    rewrite (Hc ltac:(done)) in *. rewrite (proj2 (Z.ltb_lt 0 (len b))) by lia.
    rewrite (proj2 (Z.leb_gt _ _)), (proj2 (Z.leb_le (len b1) _)), (proj2 (Z.ltb_lt 0 _)) by lia.
    rewrite Nat2Z.id, Hfront.
    unfold mbind, st_bind, read_body. rewrite Hr.
    replace (Z.to_nat (len b - len b1)) with (length (concat (c :: chunks))) by lia.
    rewrite readFixSize_rest_data by (rewrite ?length_replicate; (done || lia)).
    rewrite length_replicate, (proj2 (Z.leb_gt _ _)) by lia. by rewrite Hb.
Qed.
