(* ===== verification/HttpSession.v ===== *)
(** * Server sessions (http/http_session.h, .cpp, http/http_server.h, .cpp)

    [HttpSession::recvRequest] and [sendResponse] over the fixed-size transfers of
    Stream.v (see Channel.v), and the loop of [HttpServer::handleClient] over the
    dispatcher of Servlet.v. *)
From stdpp Require Import base tactics option list strings pretty gmap numbers.
From coqutil Require Import Byte.
From S2P Require Import Prelude OrdSet CString Http Headers Stream Channel Servlet Dfa ParserCommon.
From S2P Require Import Http11Machine Http11 HttpParser.

Open Scope string_scope.
Open Scope Z_scope.

Section Session.
Context (lexical_cast : string -> option Z) (buff_size : Z).

(** The [do ... while(true)] of [recvRequest]: the parser, the buffer and [offset]
  when it breaks, [None] when it returns [nullptr]. The fuel bounds the reads. *)
Fixpoint head_loop (fuel : nat) (P : HttpRequestParser) (data : string) (offset : Z) :
    ST session (option (HttpRequestParser * string * Z)) :=
  match fuel with
  | O => crash NoFuel
  | S fuel =>
      r ← read_once;
      match r with
      | RError => mret None
      | RData d =>
          if decide (d = []) then mret None else
          data ← lift (overwrite data (Z.to_nat offset) (string_of d));
          let len := s32 (Z.of_nat (length d) + offset) in
          '(nparser, P, data) ← lift (execute P data (Z.to_nat len));
          if hasError P then mret None else
          let offset := s32 (len - nparser) in
          if offset =? s32 buff_size then mret None
          else if negb (isFinished P =? 0) then mret (Some (P, data, offset))
          else head_loop fuel P data offset
      end
  end.

(** From [getContentLength] to the end. *)
Definition finish_request (P : HttpRequestParser) (data : string) (offset : Z) :
    ST session (option HttpRequest) :=
  r ← recv_body (s64 (getContentLength lexical_cast P)) data offset;
  mret (b ← r; Some (match b with Some b => setBody (m_data P.2) b | None => m_data P.2 end)).

(** [recvRequest()]: [garbage] and [buffer] are what the new parser and the new
  buffer of [buff_size] bytes held. Every round of the loop reads once. *)
Definition recvRequest (garbage : http_parser) (buffer : string) :
    ST session (option HttpRequest) :=
  n ← gets (fun s => length (reads s));
  r ← head_loop (S n) (HttpRequestParser_new garbage) buffer 0;
  match r with
  | Some (P, data, offset) => finish_request P data offset
  | None => mret None
  end.

(** [sendResponse(rsp)] *)
Definition sendResponse (rsp : HttpResponse) : ST session Z := fun s =>
  let data := HttpResponse_toString rsp in
  let rs := default [] (head (sends s)) in
  (writeFixSize (Z.of_nat (String.length data)) rs,
   mkSession (reads s) (tail (sends s)) (sent s ++ [data]) (is_open s)).

(** ** [HttpServer] *)

Context (fnmatch : string -> string -> Z).

Record HttpServer := mkServer {
  m_isKeepalive : bool;
  m_dispatch : ServletDispatch session
}.

(** [m_dispatch->handle(req, rsp, session)], of which only the response is used. *)
Definition dispatch_request (srv : HttpServer) (req : HttpRequest) (rsp : HttpResponse) :
    ST session HttpResponse := fun s =>
  match ServletDispatch_handle fnmatch (m_dispatch srv) req rsp s with
  | Val (_, _, rsp, s') => (Val rsp, s')
  | Exc e => (Exc e, s)
  | Bad f => (Bad f, s)
  end.

Definition close_session : ST session unit :=
  modify (fun s => mkSession (reads s) (sends s) (sent s) false).

(** The loop of [handleClient]; [memory i] is what request [i] finds in the memory of
  its parser and buffer. *)
Fixpoint serve (fuel : nat) (memory : nat -> http_parser * string) (i : nat)
    (srv : HttpServer) : ST session unit :=
  match fuel with
  | O => crash NoFuel
  | S fuel =>
      req ← recvRequest (memory i).1 (memory i).2;
      match req with
      | None => mret tt
      | Some req =>
          rsp ← dispatch_request srv req
            (HttpResponse_new (m_version req) (m_close req || negb (m_isKeepalive srv)));
          sendResponse rsp;;
          if m_isKeepalive srv then serve fuel memory (S i) srv else mret tt
      end
  end.

Definition handleClient (fuel : nat) memory (srv : HttpServer) : ST session unit :=
  serve fuel memory 0 srv;;
  close_session.
End Session.

(** ** Lemmas *)

Local Abbreviation len s := (Z.of_nat (String.length s)).






(** Only the first [len] bytes of the buffer matter to [execute]. *)
Lemma execute_prefix P text z n P' data :
  execute P text (String.length text) = Val (n, P', data) ->
  execute P (text ++ z) (String.length text) =
    Val (n, P', memmove_front (text ++ z) (String.length text) (Z.to_nat n)).
Proof.
  unfold execute. rewrite str_take_all, str_take_app.
  destruct (http_parser_execute _ _ _ _) as [[n' P1]| |]; try done.
  cbn [mbind res_bind mret res_ret]. by intros [= -> -> _].
Qed.


Section Proofs.
Context (lexical_cast : string -> option Z) (buff_size : Z).
Context (Hbuff : 0 < buff_size < 2 ^ 31).

(** The head of a request and [tail] come with one read. *)
Lemma head_loop_request fuel garbage buffer q name tail rs s :
  len buffer = buff_size -> sendable q -> HttpMethodToString (m_method q) = Val name ->
  len (head_text q name ++ tail) <= buff_size ->
  reads s = RData (bytes_of (head_text q name ++ tail)) :: rs ->
  exists r data,
    head_loop buff_size (S fuel) (HttpRequestParser_new garbage) buffer 0 s =
      (Val (Some ((r, mkData (received q) 0), data, len tail)), set_reads rs s) /\
    str_take (String.length tail) data = tail.
Proof.
  intros Hb Hq Hn Hl Hr.
  destruct (execute_request garbage q name tail Hq Hn ltac:(lia)) as (r & data & E & _ & Hc).
  assert (Hhead : 0 < len (head_text q name)).
  { unfold head_text. simpl. rewrite string_length_app. change (String.length CRLF) with 2%nat.
    rewrite string_length_app. simpl. lia. }
  assert (Htl : len (head_text q name ++ tail) = len (head_text q name) + len tail)
    by (rewrite string_length_app; lia).
  apply execute_prefix with (z := str_drop (String.length (head_text q name ++ tail)) buffer) in E.
  replace (Z.to_nat (len _ - len _)) with (String.length (head_text q name)) in E by lia.
  exists r. eexists. split; [|apply memmove_rest].
  cbn [head_loop]. unfold read_once at 1, mbind at 1, st_bind at 1. rewrite Hr.
  cbv beta iota. rewrite decide_False.
  2: { intros H. apply (f_equal (@length _)) in H. rewrite bytes_of_length in H. simpl in H. lia. }
  rewrite string_of_bytes, bytes_of_length. unfold lift at 1, mbind at 1, st_bind at 1.
  change (Z.to_nat 0) with 0%nat. rewrite overwrite_front by lia. cbv beta iota.
  rewrite Z.add_0_r, (swrap_small 32 (len _)), Nat2Z.id by (unfold in_s; lia).
  unfold lift at 1, mbind at 1, st_bind at 1. rewrite E. cbv beta iota.
  unfold hasError, isFinished, http_parser_finish, http_parser_is_finished, http_parser_has_error.
  cbn [fst snd HttpParser.m_error]. rewrite Hc.
  change (http_parser_first_final =? http_parser_error) with false. cbn [negb orb Z.eqb].
  replace (len (head_text q name ++ tail) - _) with (len tail) by lia.
  rewrite !swrap_small by (unfold in_s; lia). rewrite (proj2 (Z.eqb_neq _ _)) by lia.
  reflexivity.
Qed.

(** The length the parser reads: [dump]'s. *)
Context (Hcast : forall n, 0 <= n < 2 ^ 64 -> lexical_cast (decimal n) = Some n).

(** The request has a length header only if it has a body, and is read as a map. *)
Definition framed (q : HttpRequest) : Prop :=
  ordered CaseInsensitiLess fst (m_headers q) /\
  len (m_body q) < 2 ^ 31 /\
  (m_body q = "" -> value CaseInsensitiLess "content-length" (m_headers q) = None).

Lemma received_length q r e :
  framed q -> getContentLength lexical_cast (r, mkData (received q) e) = len (m_body q).
Proof.
  intros (Ho & Hl & Hno). apply announced_length; [done|lia|].
  cbn [snd m_data]. rewrite received_header by done. destruct (decide (m_body q = "")) as [Hb|Hb].
  - rewrite decide_False by naive_solver. rewrite decide_False by (by vm_compute).
    by rewrite Hno.
  - by rewrite decide_True.
Qed.

Lemma received_body q : received q = setBody (received q) "".
Proof. destruct (received_fields q) as (_ & _ & _ & _ & _ & H & _). destruct (received q). simpl in *. by rewrite H. Qed.

(** The body: [b1] came with the head, [chunks] hold the rest. *)
Lemma finish_request_body q r data tail b1 chunks rs s :
  framed q -> str_take (String.length tail) data = tail ->
  (exists extra, tail = b1 ++ extra) -> (chunks <> [] -> tail = b1) ->
  m_body q = b1 ++ string_of (concat chunks) -> Forall (fun d => d <> []) chunks ->
  reads s = ((RData <$> chunks) ++ rs)%list ->
  finish_request lexical_cast (r, mkData (received q) 0) data (len tail) s =
    (Val (Some (setBody (received q) (m_body q))), set_reads rs s).
Proof.
  intros Hf Hd Ht Hc Hb Hne Hr. unfold finish_request. rewrite (received_length q r 0 Hf).
  destruct Hf as (_ & Hl & _). rewrite swrap_small by (unfold in_s; lia).
  rewrite (st_bind_val _ _ _ _ _ (recv_body_ok (m_body q) data tail b1 chunks rs s Hl Hd Ht Hc Hb Hne Hr)).
  case_decide as E; [|done]. rewrite E, <- received_body. done.
Qed.

(** A request whose head came with [tail] in the first read. *)
Lemma recv_request garbage buffer q name tail b1 chunks rs s :
  len buffer = buff_size -> sendable q -> framed q -> HttpMethodToString (m_method q) = Val name ->
  len (head_text q name ++ tail) <= buff_size ->
  (exists extra, tail = b1 ++ extra) -> (chunks <> [] -> tail = b1) ->
  m_body q = b1 ++ string_of (concat chunks) -> Forall (fun d => d <> []) chunks ->
  reads s = (RData (bytes_of (head_text q name ++ tail)) :: (RData <$> chunks) ++ rs)%list ->
  recvRequest lexical_cast buff_size garbage buffer s =
    (Val (Some (setBody (received q) (m_body q))), set_reads rs s).
Proof.
  intros Hbl Hq Hf Hn Hl Hex Hc Hb Hne Hr.
  destruct (head_loop_request (length (reads s)) garbage buffer q name tail ((RData <$> chunks) ++ rs)
    s Hbl Hq Hn Hl Hr) as (r & data & E & Hd).
  unfold recvRequest, gets, mbind, st_bind. rewrite E.
  rewrite (finish_request_body q r data tail b1 chunks rs) by done. by destruct s.
Qed.
End Proofs.

(** C32: what [recvRequest] makes of a request on the wire. If the head arrives with
    the first read, with the beginning of the body or all of it, the request is
    returned as it was sent: the fields of [received] and the whole body, which the
    content-length that [toString] wrote delimits, however the rest of the body is cut
    into reads. If the first read brings more than the request, the bytes behind it
    are dropped: the next [recvRequest] starts from the next read, so a pipelined
    second request is lost. *)
Theorem recv_sent_request (lexical_cast : string -> option Z) buff_size garbage buffer q name s
    (Hbuff : 0 < buff_size < 2 ^ 31) (Hbl : len buffer = buff_size)
    (Hcast : forall n, 0 <= n < 2 ^ 64 -> lexical_cast (decimal n) = Some n)
    (Hq : sendable q) (Hf : framed q) (Hname : HttpMethodToString (m_method q) = Val name) :
  (forall b1 chunks rs,
     m_body q = b1 ++ string_of (concat chunks) -> Forall (fun d => d <> []) chunks ->
     len (head_text q name ++ b1) <= buff_size ->
     reads s = (RData (bytes_of (head_text q name ++ b1)) :: (RData <$> chunks) ++ rs)%list ->
     recvRequest lexical_cast buff_size garbage buffer s =
       (Val (Some (setBody (received q) (m_body q))), set_reads rs s)) /\
  (forall extra rs,
     len (head_text q name ++ m_body q ++ extra) <= buff_size ->
     reads s = RData (bytes_of (head_text q name ++ m_body q ++ extra)) :: rs ->
     recvRequest lexical_cast buff_size garbage buffer s =
       (Val (Some (setBody (received q) (m_body q))), set_reads rs s)).
Proof.
  split.
  - intros b1 chunks rs Hb Hne Hl Hr.
    apply (recv_request lexical_cast buff_size Hbuff Hcast garbage buffer q name b1 b1 chunks); try done.
    exists "". by rewrite string_app_nil.
  - intros extra rs Hl Hr.
    apply (recv_request lexical_cast buff_size Hbuff Hcast garbage buffer q name (m_body q ++ extra)
      (m_body q) []); try done; [by exists extra|by rewrite string_app_nil].
Qed.


(** ** Serving a connection *)

Section Serve.
Context (lexical_cast : string -> option Z) (buff_size : Z) (fnmatch : string -> string -> Z).
Context (Hbuff : 0 < buff_size < 2 ^ 31).
Context (Hcast : forall n, 0 <= n < 2 ^ 64 -> lexical_cast (decimal n) = Some n).
Context (srv : HttpServer) (answer : HttpRequest -> HttpResponse -> HttpResponse).
(** The servlets return and leave the connection alone. *)
Context (Hservlets : forall req rsp s,
  dispatch_request fnmatch srv req rsp s = (Val (answer req rsp), s)).
Context (memory : nat -> http_parser * string) (Hmemory : forall i, len (memory i).2 = buff_size).

(** What is answered to a request: the response starts out with its version and
  "close". *)
Definition reply (q : HttpRequest) : string :=
  HttpResponse_toString (answer (setBody (received q) (m_body q)) (HttpResponse_new (m_version q) true)).

(** A request as one read brings it. *)
Definition arrives (q : HttpRequest) (r : read_result) : Prop :=
  sendable q /\ framed q /\ exists text, HttpRequest_toString q = Val text /\
    len text <= buff_size /\ r = RData (bytes_of text).

Lemma write_whole n : 0 < n < 2 ^ 31 -> writeFixSize n [n] = Val n.
Proof.
  intros Hn. unfold writeFixSize. cbn [size_loop].
  rewrite decide_True, wrap_small by (try (unfold in_u); lia). rewrite decide_False by lia.
  rewrite Z.sub_diag. cbn. by rewrite swrap_small by (unfold in_s; lia).
Qed.

Lemma reply_length q : 0 < len (reply q).
Proof.
  unfold reply, HttpResponse_toString, HttpResponse_dump. rewrite string_length_app. simpl. lia.
Qed.

(** One round of the loop. *)
Lemma serve_step fuel i q r rs ss s :
  m_isKeepalive srv = true -> arrives q r -> len (reply q) < 2 ^ 31 ->
  reads s = r :: rs -> sends s = [len (reply q)] :: ss ->
  serve lexical_cast buff_size fnmatch (S fuel) memory i srv s =
    serve lexical_cast buff_size fnmatch fuel memory (S i) srv
      (mkSession rs ss (sent s ++ [reply q]) (is_open s)).
Proof.
  intros Hk (Hq & Hf & text & Ht & Hl & ->) Hrl Hr Hs.
  destruct (text_split q text (proj1 Hq) Ht) as (name & Hn & ->).
  assert (E : recvRequest lexical_cast buff_size (memory i).1 (memory i).2 s =
    (Val (Some (setBody (received q) (m_body q))), set_reads rs s)).
  { apply (recv_request lexical_cast buff_size Hbuff Hcast _ _ q name (m_body q) (m_body q) [] rs);
      try done; [exists ""|]; by rewrite string_app_nil. }
  cbn [serve]. rewrite (st_bind_val _ _ _ _ _ E). cbv beta iota.
  rewrite (st_bind_val _ _ _ _ _ (Hservlets _ _ _)).
  assert (Hclose : m_close (setBody (received q) (m_body q)) = true /\
    m_version (setBody (received q) (m_body q)) = m_version q).
  { destruct (received_fields q) as (_ & Hv & _ & _ & _ & _ & Hc).
    by destruct (received q). }
  destruct Hclose as [-> ->]. cbn [orb].
  assert (Esend : sendResponse (answer (setBody (received q) (m_body q))
      (HttpResponse_new (m_version q) true)) (set_reads rs s) =
    (Val (len (reply q)), mkSession rs ss (sent s ++ [reply q]) (is_open s))).
  { unfold sendResponse. fold (reply q). cbn [reads sends sent is_open set_reads]. rewrite Hs.
    cbn [head default tail List.tl]. rewrite write_whole; [done|]. pose proof (reply_length q). lia. }
  rewrite (st_bind_val _ _ _ _ _ Esend), Hk. reflexivity.
Qed.
End Serve.

(** C29: on a kept-alive connection every request that arrives is answered, in
    order. If each read brings one whole request and then the client closes, if the
    servlets return without touching the connection and every response is written,
    [handleClient] ends, has sent exactly the servlets' responses in the order of the
    requests, and has closed the session. The responses start out with the version of
    the request and with "connection: close", whatever the client asked for. *)
Theorem serve_requests lexical_cast buff_size fnmatch srv answer memory qs arrivals rs fuel s
    (Hbuff : 0 < buff_size < 2 ^ 31)
    (Hcast : forall n, 0 <= n < 2 ^ 64 -> lexical_cast (decimal n) = Some n)
    (Hservlets : forall req rsp s,
       dispatch_request fnmatch srv req rsp s = (Val (answer req rsp), s))
    (Hmemory : forall i, len (memory i).2 = buff_size)
    (Hkeep : m_isKeepalive srv = true)
    (Hqs : Forall2 (arrives buff_size) qs arrivals)
    (Hreplies : Forall (fun q => len (reply answer q) < 2 ^ 31) qs)
    (Hreads : reads s = (arrivals ++ RData [] :: rs)%list)
    (Hsends : sends s = (fun q => [len (reply answer q)]) <$> qs)
    (Hfuel : (length qs < fuel)%nat) :
  handleClient lexical_cast buff_size fnmatch fuel memory srv s =
    (Val tt, mkSession rs [] (sent s ++ (reply answer <$> qs)) false).
Proof.
  unfold handleClient.
  assert (H : forall i, serve lexical_cast buff_size fnmatch fuel memory i srv s =
    (Val tt, mkSession rs [] (sent s ++ (reply answer <$> qs)) (is_open s))).
  { revert s fuel Hreads Hsends Hfuel. induction Hqs as [|q r qs arrivals Hq Hqs' IH];
      intros s fuel Hreads Hsends Hfuel i; (destruct fuel as [|fuel]; [simpl in Hfuel; lia|]).
    - cbn [serve]. simpl in Hreads, Hsends.
      assert (E : recvRequest lexical_cast buff_size (memory i).1 (memory i).2 s = (Val None, set_reads rs s)).
      { unfold recvRequest, gets, mbind, st_bind. cbn [head_loop].
        unfold mbind, st_bind, read_once. rewrite Hreads. reflexivity. }
      rewrite (st_bind_val _ _ _ _ _ E). unfold mret, st_ret, set_reads. rewrite Hsends.
      by rewrite app_nil_r.
    - apply list.Forall_cons in Hreplies as [Hr1 Hreplies].
      rewrite (serve_step lexical_cast buff_size fnmatch Hbuff Hcast srv answer Hservlets memory
        Hmemory fuel i q r (arrivals ++ RData [] :: rs) ((fun q => [len (reply answer q)]) <$> qs) s)
        by done.
      rewrite IH by (done || (simpl in Hfuel; lia)). cbn [sent is_open].
      by rewrite fmap_cons, <- app_assoc. }
  rewrite (st_bind_val _ _ _ _ _ (H 0%nat)). reflexivity.
Qed.

Definition demo_session : session :=
  mkSession [RData (bytes_of (head_text demo_request "POST" ++ "he")); RData (bytes_of "l");
             RData (bytes_of "lo"); RData []] [] [] true.

Lemma recv_sent_request_witness :
  recvRequest demo_cast 4096 demo_garbage (string_of (replicate 4096 (byte.of_Z 0))) demo_session =
    (Val (Some (setBody (received demo_request) "hello")), set_reads [RData []] demo_session).
Proof.
  refine (proj1 (recv_sent_request demo_cast 4096 demo_garbage _ demo_request "POST" demo_session
    _ _ demo_cast_decimal demo_sendable _ _) "he" [bytes_of "l"; bytes_of "lo"] [RData []] _ _ _ _);
    try reflexivity; try done.
  - split; [|split; [done|done]]. repeat constructor.
  - repeat constructor; done.
Defined.

Definition demo_server : HttpServer := mkServer true ServletDispatch_new.
Definition demo_get : HttpRequest := setPath (HttpRequest_new 16 true) "/a%20b".
Definition demo_text : string := "GET /a%20b HTTP/1.0" ++ CRLF ++ "connection: close" ++ CRLF ++ CRLF.

Lemma demo_arrives : arrives 4096 demo_get (RData (bytes_of demo_text)).
Proof.
  split; [|split].
  - split_and!; try (done || by vm_compute); [by left| |].
    + exists "a%20b". by split_and!.
    + intros k v Hin. by apply not_elem_of_nil in Hin.
  - split; [constructor|by split].
  - exists demo_text. by split_and!.
Qed.

Lemma serve_requests_witness :
  let body := reply (fun _ rsp => not_found rsp) demo_get in
  handleClient demo_cast 4096 (fun _ _ => 1) 3
    (fun _ => (demo_garbage, string_of (replicate 4096 (byte.of_Z 0)))) demo_server
    (mkSession [RData (bytes_of demo_text); RData (bytes_of demo_text); RData []]
      [[len body]; [len body]] [] true) =
  (Val tt, mkSession [] [] [body; body] false).
Proof.
  intros body.
  refine (serve_requests demo_cast 4096 (fun _ _ => 1) demo_server (fun _ rsp => not_found rsp)
    _ [demo_get; demo_get] [RData (bytes_of demo_text); RData (bytes_of demo_text)] [] 3 _
    _ demo_cast_decimal _ _ _ _ _ _ _ _); try reflexivity; try done.
  - constructor; [exact demo_arrives|]. constructor; [exact demo_arrives|constructor].
  - constructor; [by vm_compute|]. constructor; [by vm_compute|constructor].
  - simpl. lia.
Defined.
