(* ===== verification/ClientMachine.v ===== *)
(** * The state machine of the response parser (http/httpclient_parser.rl.cc)

    The goto code of [httpclient_parser_execute], label by label, as in
    Http11Machine.v. The actions, written in httpclient_parser.rl, are named here
    and executed in HttpResponseParser.v. *)
From stdpp Require Import base tactics option list strings numbers.
From S2P Require Import Prelude Dfa.

Open Scope Z_scope.

Inductive action :=
  | Mark | StartField | WriteField | StartValue | WriteContentLen | WriteConnectionClose
  | WriteValue | ReasonPhrase | StatusCode | HttpVersion | ChunkSize | TransChunked | Done.
#[export] Instance action_eq_dec : EqDecision action.
Proof. solve_decision. Defined.

Definition httpclient_parser_start : Z := 1.
Definition httpclient_parser_first_final : Z := 120.
Definition httpclient_parser_error : Z := 0.

(** ** The transitions *)

Definition tr0 : transition action := tr [Mark] 2.
Definition tr2 : transition action := tr [Mark] 8.
Definition tr3 : transition action := tr_break [ChunkSize; Done] 120.
Definition tr4 : transition action := tr [ChunkSize] 3.
Definition tr6 : transition action := tr [ChunkSize] 4.
Definition tr7 : transition action := tr_break [Done] 120.
Definition tr8 : transition action := tr [StartField] 5.
Definition tr9 : transition action := tr_break [WriteField; StartValue; WriteValue; Done] 120.
Definition tr10 : transition action := tr [WriteField; StartValue; WriteValue] 3.
Definition tr12 : transition action := tr [WriteField; StartValue; WriteValue] 4.
Definition tr13 : transition action := tr [WriteField; StartValue] 6.
Definition tr14 : transition action := tr [StartValue] 7.
Definition tr15 : transition action := tr_break [WriteValue; Done] 120.
Definition tr16 : transition action := tr [WriteValue] 3.
Definition tr18 : transition action := tr [WriteValue] 4.
Definition tr26 : transition action := tr [HttpVersion] 16.
Definition tr27 : transition action := tr [Mark] 17.
Definition tr28 : transition action := tr [StatusCode] 18.
Definition tr30 : transition action := tr [Mark] 19.
Definition tr32 : transition action := tr [ReasonPhrase] 20.
Definition tr33 : transition action := tr [ReasonPhrase] 24.
Definition tr35 : transition action := tr [StartField] 21.
Definition tr36 : transition action := tr [StartField] 25.
Definition tr37 : transition action := tr [StartField] 44.
Definition tr39 : transition action := tr [WriteField] 22.
Definition tr40 : transition action := tr [StartValue] 23.
Definition tr41 : transition action := tr [StartValue] 22.
Definition tr42 : transition action := tr [StartValue; WriteValue] 20.
Definition tr43 : transition action := tr [StartValue; WriteValue] 24.
Definition tr45 : transition action := tr [WriteValue] 20.
Definition tr46 : transition action := tr [WriteValue] 24.
Definition tr58 : transition action := tr [WriteField] 35.
Definition tr59 : transition action := tr [StartValue] 35.
Definition tr60 : transition action := tr [StartValue; WriteValue] 36.
Definition tr61 : transition action := tr [StartValue; WriteValue] 95.
Definition tr62 : transition action := tr [StartValue] 96.
Definition tr64 : transition action := tr_break [Done] 122.
Definition tr66 : transition action := tr [StartField] 90.
Definition tr74 : transition action := tr_break [WriteConnectionClose; Done] 120.
Definition tr75 : transition action := tr [WriteConnectionClose] 3.
Definition tr76 : transition action := tr [WriteConnectionClose; StartField] 21.
Definition tr77 : transition action := tr [WriteConnectionClose; StartField] 25.
Definition tr78 : transition action := tr [WriteConnectionClose; StartField] 44.
Definition tr95 : transition action := tr [WriteField] 61.
Definition tr96 : transition action := tr [StartValue] 61.
Definition tr97 : transition action := tr [StartValue; WriteValue] 62.
Definition tr98 : transition action := tr [StartValue; WriteValue] 80.
Definition tr99 : transition action := tr [StartValue] 81.
Definition tr101 : transition action := tr_break [Done] 121.
Definition tr103 : transition action := tr [StartValue; StartField] 73.
Definition tr104 : transition action := tr [StartValue] 64.
Definition tr111 : transition action := tr [WriteValue; TransChunked] 20.
Definition tr112 : transition action := tr [WriteValue] 71.
Definition tr113 : transition action := tr [TransChunked] 20.
Definition tr136 : transition action := tr [WriteValue] 43.
Definition tr137 : transition action := tr [WriteValue] 88.
Definition tr148 : transition action := tr [WriteField] 112.
Definition tr149 : transition action := tr [StartValue] 112.
Definition tr150 : transition action := tr [StartValue; WriteValue] 113.
Definition tr151 : transition action := tr [StartValue; WriteValue] 118.
Definition tr152 : transition action := tr [StartValue] 119.
Definition tr154 : transition action := tr_break [Done] 123.
Definition tr156 : transition action := tr [StartValue; StartField] 117.
Definition tr157 : transition action := tr [StartValue] 115.
Definition tr158 : transition action := tr [WriteContentLen; WriteValue] 20.
Definition tr159 : transition action := tr [WriteContentLen; WriteValue] 24.

(** ** The states *)

Definition case_1 (c : Z) : transition action :=
  if c =? 72 then tr2
  else if c <? 65 then
    if (48 <=? c) && (c <=? 57) then tr0
    else st 0
  else if 70 <? c then
    if (97 <=? c) && (c <=? 102) then tr0
    else st 0
  else tr0.

Definition case_2 (c : Z) : transition action :=
  switch c [(10, tr3); (13, tr4); (59, tr6)]
  (if c <? 65 then
    if (48 <=? c) && (c <=? 57) then st 2
    else st 0
  else if 70 <? c then
    if (97 <=? c) && (c <=? 102) then st 2
    else st 0
  else st 2).

Definition case_3 (c : Z) : transition action :=
  if c =? 10 then tr7
  else st 0.

Definition case_4 (c : Z) : transition action :=
  switch c [(33, tr8); (124, tr8); (126, tr8)]
  (if c <? 45 then
    if 39 <? c then
      if (42 <=? c) && (c <=? 43) then tr8
      else st 0
    else if 35 <=? c then tr8
    else st 0
  else if 46 <? c then
    if c <? 65 then
      if (48 <=? c) && (c <=? 57) then tr8
      else st 0
    else if 90 <? c then
      if (94 <=? c) && (c <=? 122) then tr8
      else st 0
    else tr8
  else tr8).

Definition case_5 (c : Z) : transition action :=
  switch c [(10, tr9); (13, tr10); (33, st 5); (59, tr12); (61, tr13); (124, st 5);
    (126, st 5)]
  (if c <? 45 then
    if 39 <? c then
      if (42 <=? c) && (c <=? 43) then st 5
      else st 0
    else if 35 <=? c then st 5
    else st 0
  else if 46 <? c then
    if c <? 65 then
      if (48 <=? c) && (c <=? 57) then st 5
      else st 0
    else if 90 <? c then
      if (94 <=? c) && (c <=? 122) then st 5
      else st 0
    else st 5
  else st 5).

Definition case_6 (c : Z) : transition action :=
  switch c [(33, tr14); (124, tr14); (126, tr14)]
  (if c <? 45 then
    if 39 <? c then
      if (42 <=? c) && (c <=? 43) then tr14
      else st 0
    else if 35 <=? c then tr14
    else st 0
  else if 46 <? c then
    if c <? 65 then
      if (48 <=? c) && (c <=? 57) then tr14
      else st 0
    else if 90 <? c then
      if (94 <=? c) && (c <=? 122) then tr14
      else st 0
    else tr14
  else tr14).

Definition case_7 (c : Z) : transition action :=
  switch c [(10, tr15); (13, tr16); (33, st 7); (59, tr18); (124, st 7); (126, st 7)]
  (if c <? 45 then
    if 39 <? c then
      if (42 <=? c) && (c <=? 43) then st 7
      else st 0
    else if 35 <=? c then st 7
    else st 0
  else if 46 <? c then
    if c <? 65 then
      if (48 <=? c) && (c <=? 57) then st 7
      else st 0
    else if 90 <? c then
      if (94 <=? c) && (c <=? 122) then st 7
      else st 0
    else st 7
  else st 7).

Definition case_8 (c : Z) : transition action :=
  if c =? 84 then st 9
  else st 0.

Definition case_9 (c : Z) : transition action :=
  if c =? 84 then st 10
  else st 0.

Definition case_10 (c : Z) : transition action :=
  if c =? 80 then st 11
  else st 0.

Definition case_11 (c : Z) : transition action :=
  if c =? 47 then st 12
  else st 0.

Definition case_12 (c : Z) : transition action :=
  if (48 <=? c) && (c <=? 57) then st 13
  else st 0.

Definition case_13 (c : Z) : transition action :=
  if c =? 46 then st 14
  else if (48 <=? c) && (c <=? 57) then st 13
  else st 0.

Definition case_14 (c : Z) : transition action :=
  if (48 <=? c) && (c <=? 57) then st 15
  else st 0.

Definition case_15 (c : Z) : transition action :=
  if c =? 32 then tr26
  else if (48 <=? c) && (c <=? 57) then st 15
  else st 0.

Definition case_16 (c : Z) : transition action :=
  if (48 <=? c) && (c <=? 57) then tr27
  else st 0.

Definition case_17 (c : Z) : transition action :=
  if c =? 32 then tr28
  else if (48 <=? c) && (c <=? 57) then st 17
  else st 0.

Definition case_18 (c : Z) : transition action :=
  if c =? 10 then st 0
  else tr30.

Definition case_19 (c : Z) : transition action :=
  switch c [(10, tr32); (13, tr33)]
  (st 19).

Definition case_20 (c : Z) : transition action :=
  switch c [(10, tr7); (13, st 3); (33, tr35); (67, tr36); (84, tr37); (99, tr36);
    (116, tr37); (124, tr35); (126, tr35)]
  (if c <? 45 then
    if 39 <? c then
      if (42 <=? c) && (c <=? 43) then tr35
      else st 0
    else if 35 <=? c then tr35
    else st 0
  else if 46 <? c then
    if c <? 65 then
      if (48 <=? c) && (c <=? 57) then tr35
      else st 0
    else if 90 <? c then
      if (94 <=? c) && (c <=? 122) then tr35
      else st 0
    else tr35
  else tr35).

Definition case_21 (c : Z) : transition action :=
  switch c [(33, st 21); (58, tr39); (124, st 21); (126, st 21)]
  (if c <? 45 then
    if 39 <? c then
      if (42 <=? c) && (c <=? 43) then st 21
      else st 0
    else if 35 <=? c then st 21
    else st 0
  else if 46 <? c then
    if c <? 65 then
      if (48 <=? c) && (c <=? 57) then st 21
      else st 0
    else if 90 <? c then
      if (94 <=? c) && (c <=? 122) then st 21
      else st 0
    else st 21
  else st 21).

Definition case_22 (c : Z) : transition action :=
  switch c [(10, tr42); (13, tr43); (32, tr41)]
  (if (9 <=? c) && (c <=? 12) then tr41
  else tr40).

Definition case_23 (c : Z) : transition action :=
  switch c [(10, tr45); (13, tr46)]
  (st 23).

Definition case_24 (c : Z) : transition action :=
  if c =? 10 then st 20
  else st 0.

Definition case_25 (c : Z) : transition action :=
  switch c [(33, st 21); (58, tr39); (79, st 26); (111, st 26); (124, st 21);
    (126, st 21)]
  (if c <? 45 then
    if 39 <? c then
      if (42 <=? c) && (c <=? 43) then st 21
      else st 0
    else if 35 <=? c then st 21
    else st 0
  else if 46 <? c then
    if c <? 65 then
      if (48 <=? c) && (c <=? 57) then st 21
      else st 0
    else if 90 <? c then
      if (94 <=? c) && (c <=? 122) then st 21
      else st 0
    else st 21
  else st 21).

Definition case_26 (c : Z) : transition action :=
  switch c [(33, st 21); (58, tr39); (78, st 27); (110, st 27); (124, st 21);
    (126, st 21)]
  (if c <? 45 then
    if 39 <? c then
      if (42 <=? c) && (c <=? 43) then st 21
      else st 0
    else if 35 <=? c then st 21
    else st 0
  else if 46 <? c then
    if c <? 65 then
      if (48 <=? c) && (c <=? 57) then st 21
      else st 0
    else if 90 <? c then
      if (94 <=? c) && (c <=? 122) then st 21
      else st 0
    else st 21
  else st 21).

Definition case_27 (c : Z) : transition action :=
  switch c [(33, st 21); (58, tr39); (78, st 28); (84, st 101); (110, st 28);
    (116, st 101); (124, st 21); (126, st 21)]
  (if c <? 45 then
    if 39 <? c then
      if (42 <=? c) && (c <=? 43) then st 21
      else st 0
    else if 35 <=? c then st 21
    else st 0
  else if 46 <? c then
    if c <? 65 then
      if (48 <=? c) && (c <=? 57) then st 21
      else st 0
    else if 90 <? c then
      if (94 <=? c) && (c <=? 122) then st 21
      else st 0
    else st 21
  else st 21).

Definition case_28 (c : Z) : transition action :=
  switch c [(33, st 21); (58, tr39); (69, st 29); (101, st 29); (124, st 21);
    (126, st 21)]
  (if c <? 45 then
    if 39 <? c then
      if (42 <=? c) && (c <=? 43) then st 21
      else st 0
    else if 35 <=? c then st 21
    else st 0
  else if 46 <? c then
    if c <? 65 then
      if (48 <=? c) && (c <=? 57) then st 21
      else st 0
    else if 90 <? c then
      if (94 <=? c) && (c <=? 122) then st 21
      else st 0
    else st 21
  else st 21).

Definition case_29 (c : Z) : transition action :=
  switch c [(33, st 21); (58, tr39); (67, st 30); (99, st 30); (124, st 21);
    (126, st 21)]
  (if c <? 45 then
    if 39 <? c then
      if (42 <=? c) && (c <=? 43) then st 21
      else st 0
    else if 35 <=? c then st 21
    else st 0
  else if 46 <? c then
    if c <? 65 then
      if (48 <=? c) && (c <=? 57) then st 21
      else st 0
    else if 90 <? c then
      if (94 <=? c) && (c <=? 122) then st 21
      else st 0
    else st 21
  else st 21).

Definition case_30 (c : Z) : transition action :=
  switch c [(33, st 21); (58, tr39); (84, st 31); (116, st 31); (124, st 21);
    (126, st 21)]
  (if c <? 45 then
    if 39 <? c then
      if (42 <=? c) && (c <=? 43) then st 21
      else st 0
    else if 35 <=? c then st 21
    else st 0
  else if 46 <? c then
    if c <? 65 then
      if (48 <=? c) && (c <=? 57) then st 21
      else st 0
    else if 90 <? c then
      if (94 <=? c) && (c <=? 122) then st 21
      else st 0
    else st 21
  else st 21).

Definition case_31 (c : Z) : transition action :=
  switch c [(33, st 21); (58, tr39); (73, st 32); (105, st 32); (124, st 21);
    (126, st 21)]
  (if c <? 45 then
    if 39 <? c then
      if (42 <=? c) && (c <=? 43) then st 21
      else st 0
    else if 35 <=? c then st 21
    else st 0
  else if 46 <? c then
    if c <? 65 then
      if (48 <=? c) && (c <=? 57) then st 21
      else st 0
    else if 90 <? c then
      if (94 <=? c) && (c <=? 122) then st 21
      else st 0
    else st 21
  else st 21).

Definition case_32 (c : Z) : transition action :=
  switch c [(33, st 21); (58, tr39); (79, st 33); (111, st 33); (124, st 21);
    (126, st 21)]
  (if c <? 45 then
    if 39 <? c then
      if (42 <=? c) && (c <=? 43) then st 21
      else st 0
    else if 35 <=? c then st 21
    else st 0
  else if 46 <? c then
    if c <? 65 then
      if (48 <=? c) && (c <=? 57) then st 21
      else st 0
    else if 90 <? c then
      if (94 <=? c) && (c <=? 122) then st 21
      else st 0
    else st 21
  else st 21).

Definition case_33 (c : Z) : transition action :=
  switch c [(33, st 21); (58, tr39); (78, st 34); (110, st 34); (124, st 21);
    (126, st 21)]
  (if c <? 45 then
    if 39 <? c then
      if (42 <=? c) && (c <=? 43) then st 21
      else st 0
    else if 35 <=? c then st 21
    else st 0
  else if 46 <? c then
    if c <? 65 then
      if (48 <=? c) && (c <=? 57) then st 21
      else st 0
    else if 90 <? c then
      if (94 <=? c) && (c <=? 122) then st 21
      else st 0
    else st 21
  else st 21).

Definition case_34 (c : Z) : transition action :=
  switch c [(33, st 21); (58, tr58); (124, st 21); (126, st 21)]
  (if c <? 45 then
    if 39 <? c then
      if (42 <=? c) && (c <=? 43) then st 21
      else st 0
    else if 35 <=? c then st 21
    else st 0
  else if 46 <? c then
    if c <? 65 then
      if (48 <=? c) && (c <=? 57) then st 21
      else st 0
    else if 90 <? c then
      if (94 <=? c) && (c <=? 122) then st 21
      else st 0
    else st 21
  else st 21).

Definition case_35 (c : Z) : transition action :=
  switch c [(10, tr60); (13, tr61); (32, tr59); (67, tr62); (99, tr62)]
  (if (9 <=? c) && (c <=? 12) then tr59
  else tr40).

Definition case_36 (c : Z) : transition action :=
  switch c [(10, tr64); (13, st 89); (32, st 37); (33, tr35); (67, tr66); (84, tr37);
    (99, tr66); (116, tr37); (124, tr35); (126, tr35)]
  (if c <? 45 then
    if c <? 35 then
      if (9 <=? c) && (c <=? 12) then st 37
      else st 0
    else if 39 <? c then
      if (42 <=? c) && (c <=? 43) then tr35
      else st 0
    else tr35
  else if 46 <? c then
    if c <? 65 then
      if (48 <=? c) && (c <=? 57) then tr35
      else st 0
    else if 90 <? c then
      if (94 <=? c) && (c <=? 122) then tr35
      else st 0
    else tr35
  else tr35).

Definition case_37 (c : Z) : transition action :=
  switch c [(32, st 37); (67, st 38); (99, st 38)]
  (if (9 <=? c) && (c <=? 13) then st 37
  else st 0).

Definition case_38 (c : Z) : transition action :=
  switch c [(76, st 39); (108, st 39)]
  (st 0).

Definition case_39 (c : Z) : transition action :=
  switch c [(79, st 40); (111, st 40)]
  (st 0).

Definition case_40 (c : Z) : transition action :=
  switch c [(83, st 41); (115, st 41)]
  (st 0).

Definition case_41 (c : Z) : transition action :=
  switch c [(69, st 42); (101, st 42)]
  (st 0).

Definition case_42 (c : Z) : transition action :=
  switch c [(10, st 43); (13, st 88)]
  (st 0).

Definition case_43 (c : Z) : transition action :=
  switch c [(10, tr74); (13, tr75); (33, tr76); (67, tr77); (84, tr78); (99, tr77);
    (116, tr78); (124, tr76); (126, tr76)]
  (if c <? 45 then
    if 39 <? c then
      if (42 <=? c) && (c <=? 43) then tr76
      else st 0
    else if 35 <=? c then tr76
    else st 0
  else if 46 <? c then
    if c <? 65 then
      if (48 <=? c) && (c <=? 57) then tr76
      else st 0
    else if 90 <? c then
      if (94 <=? c) && (c <=? 122) then tr76
      else st 0
    else tr76
  else tr76).

Definition case_44 (c : Z) : transition action :=
  switch c [(33, st 21); (58, tr39); (82, st 45); (114, st 45); (124, st 21);
    (126, st 21)]
  (if c <? 45 then
    if 39 <? c then
      if (42 <=? c) && (c <=? 43) then st 21
      else st 0
    else if 35 <=? c then st 21
    else st 0
  else if 46 <? c then
    if c <? 65 then
      if (48 <=? c) && (c <=? 57) then st 21
      else st 0
    else if 90 <? c then
      if (94 <=? c) && (c <=? 122) then st 21
      else st 0
    else st 21
  else st 21).

Definition case_45 (c : Z) : transition action :=
  switch c [(33, st 21); (58, tr39); (65, st 46); (97, st 46); (124, st 21);
    (126, st 21)]
  (if c <? 45 then
    if 39 <? c then
      if (42 <=? c) && (c <=? 43) then st 21
      else st 0
    else if 35 <=? c then st 21
    else st 0
  else if 46 <? c then
    if c <? 66 then
      if (48 <=? c) && (c <=? 57) then st 21
      else st 0
    else if 90 <? c then
      if (94 <=? c) && (c <=? 122) then st 21
      else st 0
    else st 21
  else st 21).

Definition case_46 (c : Z) : transition action :=
  switch c [(33, st 21); (58, tr39); (78, st 47); (110, st 47); (124, st 21);
    (126, st 21)]
  (if c <? 45 then
    if 39 <? c then
      if (42 <=? c) && (c <=? 43) then st 21
      else st 0
    else if 35 <=? c then st 21
    else st 0
  else if 46 <? c then
    if c <? 65 then
      if (48 <=? c) && (c <=? 57) then st 21
      else st 0
    else if 90 <? c then
      if (94 <=? c) && (c <=? 122) then st 21
      else st 0
    else st 21
  else st 21).

Definition case_47 (c : Z) : transition action :=
  switch c [(33, st 21); (58, tr39); (83, st 48); (115, st 48); (124, st 21);
    (126, st 21)]
  (if c <? 45 then
    if 39 <? c then
      if (42 <=? c) && (c <=? 43) then st 21
      else st 0
    else if 35 <=? c then st 21
    else st 0
  else if 46 <? c then
    if c <? 65 then
      if (48 <=? c) && (c <=? 57) then st 21
      else st 0
    else if 90 <? c then
      if (94 <=? c) && (c <=? 122) then st 21
      else st 0
    else st 21
  else st 21).

Definition case_48 (c : Z) : transition action :=
  switch c [(33, st 21); (58, tr39); (70, st 49); (102, st 49); (124, st 21);
    (126, st 21)]
  (if c <? 45 then
    if 39 <? c then
      if (42 <=? c) && (c <=? 43) then st 21
      else st 0
    else if 35 <=? c then st 21
    else st 0
  else if 46 <? c then
    if c <? 65 then
      if (48 <=? c) && (c <=? 57) then st 21
      else st 0
    else if 90 <? c then
      if (94 <=? c) && (c <=? 122) then st 21
      else st 0
    else st 21
  else st 21).

Definition case_49 (c : Z) : transition action :=
  switch c [(33, st 21); (58, tr39); (69, st 50); (101, st 50); (124, st 21);
    (126, st 21)]
  (if c <? 45 then
    if 39 <? c then
      if (42 <=? c) && (c <=? 43) then st 21
      else st 0
    else if 35 <=? c then st 21
    else st 0
  else if 46 <? c then
    if c <? 65 then
      if (48 <=? c) && (c <=? 57) then st 21
      else st 0
    else if 90 <? c then
      if (94 <=? c) && (c <=? 122) then st 21
      else st 0
    else st 21
  else st 21).

Definition case_50 (c : Z) : transition action :=
  switch c [(33, st 21); (58, tr39); (82, st 51); (114, st 51); (124, st 21);
    (126, st 21)]
  (if c <? 45 then
    if 39 <? c then
      if (42 <=? c) && (c <=? 43) then st 21
      else st 0
    else if 35 <=? c then st 21
    else st 0
  else if 46 <? c then
    if c <? 65 then
      if (48 <=? c) && (c <=? 57) then st 21
      else st 0
    else if 90 <? c then
      if (94 <=? c) && (c <=? 122) then st 21
      else st 0
    else st 21
  else st 21).

Definition case_51 (c : Z) : transition action :=
  switch c [(33, st 21); (45, st 52); (46, st 21); (58, tr39); (124, st 21);
    (126, st 21)]
  (if c <? 48 then
    if 39 <? c then
      if (42 <=? c) && (c <=? 43) then st 21
      else st 0
    else if 35 <=? c then st 21
    else st 0
  else if 57 <? c then
    if 90 <? c then
      if (94 <=? c) && (c <=? 122) then st 21
      else st 0
    else if 65 <=? c then st 21
    else st 0
  else st 21).

Definition case_52 (c : Z) : transition action :=
  switch c [(33, st 21); (58, tr39); (69, st 53); (101, st 53); (124, st 21);
    (126, st 21)]
  (if c <? 45 then
    if 39 <? c then
      if (42 <=? c) && (c <=? 43) then st 21
      else st 0
    else if 35 <=? c then st 21
    else st 0
  else if 46 <? c then
    if c <? 65 then
      if (48 <=? c) && (c <=? 57) then st 21
      else st 0
    else if 90 <? c then
      if (94 <=? c) && (c <=? 122) then st 21
      else st 0
    else st 21
  else st 21).

Definition case_53 (c : Z) : transition action :=
  switch c [(33, st 21); (58, tr39); (78, st 54); (110, st 54); (124, st 21);
    (126, st 21)]
  (if c <? 45 then
    if 39 <? c then
      if (42 <=? c) && (c <=? 43) then st 21
      else st 0
    else if 35 <=? c then st 21
    else st 0
  else if 46 <? c then
    if c <? 65 then
      if (48 <=? c) && (c <=? 57) then st 21
      else st 0
    else if 90 <? c then
      if (94 <=? c) && (c <=? 122) then st 21
      else st 0
    else st 21
  else st 21).

Definition case_54 (c : Z) : transition action :=
  switch c [(33, st 21); (58, tr39); (67, st 55); (99, st 55); (124, st 21);
    (126, st 21)]
  (if c <? 45 then
    if 39 <? c then
      if (42 <=? c) && (c <=? 43) then st 21
      else st 0
    else if 35 <=? c then st 21
    else st 0
  else if 46 <? c then
    if c <? 65 then
      if (48 <=? c) && (c <=? 57) then st 21
      else st 0
    else if 90 <? c then
      if (94 <=? c) && (c <=? 122) then st 21
      else st 0
    else st 21
  else st 21).

Definition case_55 (c : Z) : transition action :=
  switch c [(33, st 21); (58, tr39); (79, st 56); (111, st 56); (124, st 21);
    (126, st 21)]
  (if c <? 45 then
    if 39 <? c then
      if (42 <=? c) && (c <=? 43) then st 21
      else st 0
    else if 35 <=? c then st 21
    else st 0
  else if 46 <? c then
    if c <? 65 then
      if (48 <=? c) && (c <=? 57) then st 21
      else st 0
    else if 90 <? c then
      if (94 <=? c) && (c <=? 122) then st 21
      else st 0
    else st 21
  else st 21).

Definition case_56 (c : Z) : transition action :=
  switch c [(33, st 21); (58, tr39); (68, st 57); (100, st 57); (124, st 21);
    (126, st 21)]
  (if c <? 45 then
    if 39 <? c then
      if (42 <=? c) && (c <=? 43) then st 21
      else st 0
    else if 35 <=? c then st 21
    else st 0
  else if 46 <? c then
    if c <? 65 then
      if (48 <=? c) && (c <=? 57) then st 21
      else st 0
    else if 90 <? c then
      if (94 <=? c) && (c <=? 122) then st 21
      else st 0
    else st 21
  else st 21).

Definition case_57 (c : Z) : transition action :=
  switch c [(33, st 21); (58, tr39); (73, st 58); (105, st 58); (124, st 21);
    (126, st 21)]
  (if c <? 45 then
    if 39 <? c then
      if (42 <=? c) && (c <=? 43) then st 21
      else st 0
    else if 35 <=? c then st 21
    else st 0
  else if 46 <? c then
    if c <? 65 then
      if (48 <=? c) && (c <=? 57) then st 21
      else st 0
    else if 90 <? c then
      if (94 <=? c) && (c <=? 122) then st 21
      else st 0
    else st 21
  else st 21).

Definition case_58 (c : Z) : transition action :=
  switch c [(33, st 21); (58, tr39); (78, st 59); (110, st 59); (124, st 21);
    (126, st 21)]
  (if c <? 45 then
    if 39 <? c then
      if (42 <=? c) && (c <=? 43) then st 21
      else st 0
    else if 35 <=? c then st 21
    else st 0
  else if 46 <? c then
    if c <? 65 then
      if (48 <=? c) && (c <=? 57) then st 21
      else st 0
    else if 90 <? c then
      if (94 <=? c) && (c <=? 122) then st 21
      else st 0
    else st 21
  else st 21).

Definition case_59 (c : Z) : transition action :=
  switch c [(33, st 21); (58, tr39); (71, st 60); (103, st 60); (124, st 21);
    (126, st 21)]
  (if c <? 45 then
    if 39 <? c then
      if (42 <=? c) && (c <=? 43) then st 21
      else st 0
    else if 35 <=? c then st 21
    else st 0
  else if 46 <? c then
    if c <? 65 then
      if (48 <=? c) && (c <=? 57) then st 21
      else st 0
    else if 90 <? c then
      if (94 <=? c) && (c <=? 122) then st 21
      else st 0
    else st 21
  else st 21).

Definition case_60 (c : Z) : transition action :=
  switch c [(33, st 21); (58, tr95); (124, st 21); (126, st 21)]
  (if c <? 45 then
    if 39 <? c then
      if (42 <=? c) && (c <=? 43) then st 21
      else st 0
    else if 35 <=? c then st 21
    else st 0
  else if 46 <? c then
    if c <? 65 then
      if (48 <=? c) && (c <=? 57) then st 21
      else st 0
    else if 90 <? c then
      if (94 <=? c) && (c <=? 122) then st 21
      else st 0
    else st 21
  else st 21).

Definition case_61 (c : Z) : transition action :=
  switch c [(10, tr97); (13, tr98); (32, tr96); (67, tr99); (99, tr99)]
  (if (9 <=? c) && (c <=? 12) then tr96
  else tr40).

Definition case_62 (c : Z) : transition action :=
  switch c [(10, tr101); (13, st 72); (32, st 63); (33, tr35); (67, tr103); (84, tr37);
    (99, tr103); (116, tr37); (124, tr35); (126, tr35)]
  (if c <? 45 then
    if c <? 35 then
      if (9 <=? c) && (c <=? 12) then st 63
      else st 0
    else if 39 <? c then
      if (42 <=? c) && (c <=? 43) then tr35
      else st 0
    else tr35
  else if 46 <? c then
    if c <? 65 then
      if (48 <=? c) && (c <=? 57) then tr35
      else st 0
    else if 90 <? c then
      if (94 <=? c) && (c <=? 122) then tr35
      else st 0
    else tr35
  else tr35).

Definition case_63 (c : Z) : transition action :=
  switch c [(32, st 63); (67, tr104); (99, tr104)]
  (if (9 <=? c) && (c <=? 13) then st 63
  else st 0).

Definition case_64 (c : Z) : transition action :=
  switch c [(72, st 65); (104, st 65)]
  (st 0).

Definition case_65 (c : Z) : transition action :=
  switch c [(85, st 66); (117, st 66)]
  (st 0).

Definition case_66 (c : Z) : transition action :=
  switch c [(78, st 67); (110, st 67)]
  (st 0).

Definition case_67 (c : Z) : transition action :=
  switch c [(75, st 68); (107, st 68)]
  (st 0).

Definition case_68 (c : Z) : transition action :=
  switch c [(69, st 69); (101, st 69)]
  (st 0).

Definition case_69 (c : Z) : transition action :=
  switch c [(68, st 70); (100, st 70)]
  (st 0).

Definition case_70 (c : Z) : transition action :=
  switch c [(10, tr111); (13, tr112)]
  (st 0).

Definition case_71 (c : Z) : transition action :=
  if c =? 10 then tr113
  else st 0.

Definition case_72 (c : Z) : transition action :=
  switch c [(10, tr101); (32, st 63); (67, tr104); (99, tr104)]
  (if (9 <=? c) && (c <=? 13) then st 63
  else st 0).

Definition case_73 (c : Z) : transition action :=
  switch c [(33, st 21); (58, tr39); (72, st 74); (79, st 26); (104, st 74);
    (111, st 26); (124, st 21); (126, st 21)]
  (if c <? 45 then
    if 39 <? c then
      if (42 <=? c) && (c <=? 43) then st 21
      else st 0
    else if 35 <=? c then st 21
    else st 0
  else if 46 <? c then
    if c <? 65 then
      if (48 <=? c) && (c <=? 57) then st 21
      else st 0
    else if 90 <? c then
      if (94 <=? c) && (c <=? 122) then st 21
      else st 0
    else st 21
  else st 21).

Definition case_74 (c : Z) : transition action :=
  switch c [(33, st 21); (58, tr39); (85, st 75); (117, st 75); (124, st 21);
    (126, st 21)]
  (if c <? 45 then
    if 39 <? c then
      if (42 <=? c) && (c <=? 43) then st 21
      else st 0
    else if 35 <=? c then st 21
    else st 0
  else if 46 <? c then
    if c <? 65 then
      if (48 <=? c) && (c <=? 57) then st 21
      else st 0
    else if 90 <? c then
      if (94 <=? c) && (c <=? 122) then st 21
      else st 0
    else st 21
  else st 21).

Definition case_75 (c : Z) : transition action :=
  switch c [(33, st 21); (58, tr39); (78, st 76); (110, st 76); (124, st 21);
    (126, st 21)]
  (if c <? 45 then
    if 39 <? c then
      if (42 <=? c) && (c <=? 43) then st 21
      else st 0
    else if 35 <=? c then st 21
    else st 0
  else if 46 <? c then
    if c <? 65 then
      if (48 <=? c) && (c <=? 57) then st 21
      else st 0
    else if 90 <? c then
      if (94 <=? c) && (c <=? 122) then st 21
      else st 0
    else st 21
  else st 21).

Definition case_76 (c : Z) : transition action :=
  switch c [(33, st 21); (58, tr39); (75, st 77); (107, st 77); (124, st 21);
    (126, st 21)]
  (if c <? 45 then
    if 39 <? c then
      if (42 <=? c) && (c <=? 43) then st 21
      else st 0
    else if 35 <=? c then st 21
    else st 0
  else if 46 <? c then
    if c <? 65 then
      if (48 <=? c) && (c <=? 57) then st 21
      else st 0
    else if 90 <? c then
      if (94 <=? c) && (c <=? 122) then st 21
      else st 0
    else st 21
  else st 21).

Definition case_77 (c : Z) : transition action :=
  switch c [(33, st 21); (58, tr39); (69, st 78); (101, st 78); (124, st 21);
    (126, st 21)]
  (if c <? 45 then
    if 39 <? c then
      if (42 <=? c) && (c <=? 43) then st 21
      else st 0
    else if 35 <=? c then st 21
    else st 0
  else if 46 <? c then
    if c <? 65 then
      if (48 <=? c) && (c <=? 57) then st 21
      else st 0
    else if 90 <? c then
      if (94 <=? c) && (c <=? 122) then st 21
      else st 0
    else st 21
  else st 21).

Definition case_78 (c : Z) : transition action :=
  switch c [(33, st 21); (58, tr39); (68, st 79); (100, st 79); (124, st 21);
    (126, st 21)]
  (if c <? 45 then
    if 39 <? c then
      if (42 <=? c) && (c <=? 43) then st 21
      else st 0
    else if 35 <=? c then st 21
    else st 0
  else if 46 <? c then
    if c <? 65 then
      if (48 <=? c) && (c <=? 57) then st 21
      else st 0
    else if 90 <? c then
      if (94 <=? c) && (c <=? 122) then st 21
      else st 0
    else st 21
  else st 21).

Definition case_79 (c : Z) : transition action :=
  switch c [(10, tr111); (13, tr112); (33, st 21); (58, tr39); (124, st 21);
    (126, st 21)]
  (if c <? 45 then
    if 39 <? c then
      if (42 <=? c) && (c <=? 43) then st 21
      else st 0
    else if 35 <=? c then st 21
    else st 0
  else if 46 <? c then
    if c <? 65 then
      if (48 <=? c) && (c <=? 57) then st 21
      else st 0
    else if 90 <? c then
      if (94 <=? c) && (c <=? 122) then st 21
      else st 0
    else st 21
  else st 21).

Definition case_80 (c : Z) : transition action :=
  switch c [(10, st 62); (32, st 63); (67, tr104); (99, tr104)]
  (if (9 <=? c) && (c <=? 13) then st 63
  else st 0).

Definition case_81 (c : Z) : transition action :=
  switch c [(10, tr45); (13, tr46); (72, st 82); (104, st 82)]
  (st 23).

Definition case_82 (c : Z) : transition action :=
  switch c [(10, tr45); (13, tr46); (85, st 83); (117, st 83)]
  (st 23).

Definition case_83 (c : Z) : transition action :=
  switch c [(10, tr45); (13, tr46); (78, st 84); (110, st 84)]
  (st 23).

Definition case_84 (c : Z) : transition action :=
  switch c [(10, tr45); (13, tr46); (75, st 85); (107, st 85)]
  (st 23).

Definition case_85 (c : Z) : transition action :=
  switch c [(10, tr45); (13, tr46); (69, st 86); (101, st 86)]
  (st 23).

Definition case_86 (c : Z) : transition action :=
  switch c [(10, tr45); (13, tr46); (68, st 87); (100, st 87)]
  (st 23).

Definition case_87 (c : Z) : transition action :=
  switch c [(10, tr111); (13, tr112)]
  (st 23).

Definition case_88 (c : Z) : transition action :=
  if c =? 10 then st 43
  else st 0.

Definition case_89 (c : Z) : transition action :=
  switch c [(10, tr64); (32, st 37); (67, st 38); (99, st 38)]
  (if (9 <=? c) && (c <=? 13) then st 37
  else st 0).

Definition case_90 (c : Z) : transition action :=
  switch c [(33, st 21); (58, tr39); (76, st 91); (79, st 26); (108, st 91);
    (111, st 26); (124, st 21); (126, st 21)]
  (if c <? 45 then
    if 39 <? c then
      if (42 <=? c) && (c <=? 43) then st 21
      else st 0
    else if 35 <=? c then st 21
    else st 0
  else if 46 <? c then
    if c <? 65 then
      if (48 <=? c) && (c <=? 57) then st 21
      else st 0
    else if 90 <? c then
      if (94 <=? c) && (c <=? 122) then st 21
      else st 0
    else st 21
  else st 21).

Definition case_91 (c : Z) : transition action :=
  switch c [(33, st 21); (58, tr39); (79, st 92); (111, st 92); (124, st 21);
    (126, st 21)]
  (if c <? 45 then
    if 39 <? c then
      if (42 <=? c) && (c <=? 43) then st 21
      else st 0
    else if 35 <=? c then st 21
    else st 0
  else if 46 <? c then
    if c <? 65 then
      if (48 <=? c) && (c <=? 57) then st 21
      else st 0
    else if 90 <? c then
      if (94 <=? c) && (c <=? 122) then st 21
      else st 0
    else st 21
  else st 21).

Definition case_92 (c : Z) : transition action :=
  switch c [(33, st 21); (58, tr39); (83, st 93); (115, st 93); (124, st 21);
    (126, st 21)]
  (if c <? 45 then
    if 39 <? c then
      if (42 <=? c) && (c <=? 43) then st 21
      else st 0
    else if 35 <=? c then st 21
    else st 0
  else if 46 <? c then
    if c <? 65 then
      if (48 <=? c) && (c <=? 57) then st 21
      else st 0
    else if 90 <? c then
      if (94 <=? c) && (c <=? 122) then st 21
      else st 0
    else st 21
  else st 21).

Definition case_93 (c : Z) : transition action :=
  switch c [(33, st 21); (58, tr39); (69, st 94); (101, st 94); (124, st 21);
    (126, st 21)]
  (if c <? 45 then
    if 39 <? c then
      if (42 <=? c) && (c <=? 43) then st 21
      else st 0
    else if 35 <=? c then st 21
    else st 0
  else if 46 <? c then
    if c <? 65 then
      if (48 <=? c) && (c <=? 57) then st 21
      else st 0
    else if 90 <? c then
      if (94 <=? c) && (c <=? 122) then st 21
      else st 0
    else st 21
  else st 21).

Definition case_94 (c : Z) : transition action :=
  switch c [(10, st 43); (13, st 88); (33, st 21); (58, tr39); (124, st 21);
    (126, st 21)]
  (if c <? 45 then
    if 39 <? c then
      if (42 <=? c) && (c <=? 43) then st 21
      else st 0
    else if 35 <=? c then st 21
    else st 0
  else if 46 <? c then
    if c <? 65 then
      if (48 <=? c) && (c <=? 57) then st 21
      else st 0
    else if 90 <? c then
      if (94 <=? c) && (c <=? 122) then st 21
      else st 0
    else st 21
  else st 21).

Definition case_95 (c : Z) : transition action :=
  switch c [(10, st 36); (32, st 37); (67, st 38); (99, st 38)]
  (if (9 <=? c) && (c <=? 13) then st 37
  else st 0).

Definition case_96 (c : Z) : transition action :=
  switch c [(10, tr45); (13, tr46); (76, st 97); (108, st 97)]
  (st 23).

Definition case_97 (c : Z) : transition action :=
  switch c [(10, tr45); (13, tr46); (79, st 98); (111, st 98)]
  (st 23).

Definition case_98 (c : Z) : transition action :=
  switch c [(10, tr45); (13, tr46); (83, st 99); (115, st 99)]
  (st 23).

Definition case_99 (c : Z) : transition action :=
  switch c [(10, tr45); (13, tr46); (69, st 100); (101, st 100)]
  (st 23).

Definition case_100 (c : Z) : transition action :=
  switch c [(10, tr136); (13, tr137)]
  (st 23).

Definition case_101 (c : Z) : transition action :=
  switch c [(33, st 21); (58, tr39); (69, st 102); (101, st 102); (124, st 21);
    (126, st 21)]
  (if c <? 45 then
    if 39 <? c then
      if (42 <=? c) && (c <=? 43) then st 21
      else st 0
    else if 35 <=? c then st 21
    else st 0
  else if 46 <? c then
    if c <? 65 then
      if (48 <=? c) && (c <=? 57) then st 21
      else st 0
    else if 90 <? c then
      if (94 <=? c) && (c <=? 122) then st 21
      else st 0
    else st 21
  else st 21).

Definition case_102 (c : Z) : transition action :=
  switch c [(33, st 21); (58, tr39); (78, st 103); (110, st 103); (124, st 21);
    (126, st 21)]
  (if c <? 45 then
    if 39 <? c then
      if (42 <=? c) && (c <=? 43) then st 21
      else st 0
    else if 35 <=? c then st 21
    else st 0
  else if 46 <? c then
    if c <? 65 then
      if (48 <=? c) && (c <=? 57) then st 21
      else st 0
    else if 90 <? c then
      if (94 <=? c) && (c <=? 122) then st 21
      else st 0
    else st 21
  else st 21).

Definition case_103 (c : Z) : transition action :=
  switch c [(33, st 21); (58, tr39); (84, st 104); (116, st 104); (124, st 21);
    (126, st 21)]
  (if c <? 45 then
    if 39 <? c then
      if (42 <=? c) && (c <=? 43) then st 21
      else st 0
    else if 35 <=? c then st 21
    else st 0
  else if 46 <? c then
    if c <? 65 then
      if (48 <=? c) && (c <=? 57) then st 21
      else st 0
    else if 90 <? c then
      if (94 <=? c) && (c <=? 122) then st 21
      else st 0
    else st 21
  else st 21).

Definition case_104 (c : Z) : transition action :=
  switch c [(33, st 21); (45, st 105); (46, st 21); (58, tr39); (124, st 21);
    (126, st 21)]
  (if c <? 48 then
    if 39 <? c then
      if (42 <=? c) && (c <=? 43) then st 21
      else st 0
    else if 35 <=? c then st 21
    else st 0
  else if 57 <? c then
    if 90 <? c then
      if (94 <=? c) && (c <=? 122) then st 21
      else st 0
    else if 65 <=? c then st 21
    else st 0
  else st 21).

Definition case_105 (c : Z) : transition action :=
  switch c [(33, st 21); (58, tr39); (76, st 106); (108, st 106); (124, st 21);
    (126, st 21)]
  (if c <? 45 then
    if 39 <? c then
      if (42 <=? c) && (c <=? 43) then st 21
      else st 0
    else if 35 <=? c then st 21
    else st 0
  else if 46 <? c then
    if c <? 65 then
      if (48 <=? c) && (c <=? 57) then st 21
      else st 0
    else if 90 <? c then
      if (94 <=? c) && (c <=? 122) then st 21
      else st 0
    else st 21
  else st 21).

Definition case_106 (c : Z) : transition action :=
  switch c [(33, st 21); (58, tr39); (69, st 107); (101, st 107); (124, st 21);
    (126, st 21)]
  (if c <? 45 then
    if 39 <? c then
      if (42 <=? c) && (c <=? 43) then st 21
      else st 0
    else if 35 <=? c then st 21
    else st 0
  else if 46 <? c then
    if c <? 65 then
      if (48 <=? c) && (c <=? 57) then st 21
      else st 0
    else if 90 <? c then
      if (94 <=? c) && (c <=? 122) then st 21
      else st 0
    else st 21
  else st 21).

Definition case_107 (c : Z) : transition action :=
  switch c [(33, st 21); (58, tr39); (78, st 108); (110, st 108); (124, st 21);
    (126, st 21)]
  (if c <? 45 then
    if 39 <? c then
      if (42 <=? c) && (c <=? 43) then st 21
      else st 0
    else if 35 <=? c then st 21
    else st 0
  else if 46 <? c then
    if c <? 65 then
      if (48 <=? c) && (c <=? 57) then st 21
      else st 0
    else if 90 <? c then
      if (94 <=? c) && (c <=? 122) then st 21
      else st 0
    else st 21
  else st 21).

Definition case_108 (c : Z) : transition action :=
  switch c [(33, st 21); (58, tr39); (71, st 109); (103, st 109); (124, st 21);
    (126, st 21)]
  (if c <? 45 then
    if 39 <? c then
      if (42 <=? c) && (c <=? 43) then st 21
      else st 0
    else if 35 <=? c then st 21
    else st 0
  else if 46 <? c then
    if c <? 65 then
      if (48 <=? c) && (c <=? 57) then st 21
      else st 0
    else if 90 <? c then
      if (94 <=? c) && (c <=? 122) then st 21
      else st 0
    else st 21
  else st 21).

Definition case_109 (c : Z) : transition action :=
  switch c [(33, st 21); (58, tr39); (84, st 110); (116, st 110); (124, st 21);
    (126, st 21)]
  (if c <? 45 then
    if 39 <? c then
      if (42 <=? c) && (c <=? 43) then st 21
      else st 0
    else if 35 <=? c then st 21
    else st 0
  else if 46 <? c then
    if c <? 65 then
      if (48 <=? c) && (c <=? 57) then st 21
      else st 0
    else if 90 <? c then
      if (94 <=? c) && (c <=? 122) then st 21
      else st 0
    else st 21
  else st 21).

Definition case_110 (c : Z) : transition action :=
  switch c [(33, st 21); (58, tr39); (72, st 111); (104, st 111); (124, st 21);
    (126, st 21)]
  (if c <? 45 then
    if 39 <? c then
      if (42 <=? c) && (c <=? 43) then st 21
      else st 0
    else if 35 <=? c then st 21
    else st 0
  else if 46 <? c then
    if c <? 65 then
      if (48 <=? c) && (c <=? 57) then st 21
      else st 0
    else if 90 <? c then
      if (94 <=? c) && (c <=? 122) then st 21
      else st 0
    else st 21
  else st 21).

Definition case_111 (c : Z) : transition action :=
  switch c [(33, st 21); (58, tr148); (124, st 21); (126, st 21)]
  (if c <? 45 then
    if 39 <? c then
      if (42 <=? c) && (c <=? 43) then st 21
      else st 0
    else if 35 <=? c then st 21
    else st 0
  else if 46 <? c then
    if c <? 65 then
      if (48 <=? c) && (c <=? 57) then st 21
      else st 0
    else if 90 <? c then
      if (94 <=? c) && (c <=? 122) then st 21
      else st 0
    else st 21
  else st 21).

Definition case_112 (c : Z) : transition action :=
  switch c [(10, tr150); (13, tr151); (32, tr149)]
  (if 12 <? c then
    if (48 <=? c) && (c <=? 57) then tr152
    else tr40
  else if 9 <=? c then tr149
  else tr40).

Definition case_113 (c : Z) : transition action :=
  switch c [(10, tr154); (13, st 116); (32, st 114); (33, tr35); (67, tr36); (84, tr37);
    (99, tr36); (116, tr37); (124, tr35); (126, tr35)]
  (if c <? 45 then
    if c <? 35 then
      if (9 <=? c) && (c <=? 12) then st 114
      else st 0
    else if 39 <? c then
      if (42 <=? c) && (c <=? 43) then tr35
      else st 0
    else tr35
  else if 46 <? c then
    if c <? 65 then
      if (48 <=? c) && (c <=? 57) then tr156
      else st 0
    else if 90 <? c then
      if (94 <=? c) && (c <=? 122) then tr35
      else st 0
    else tr35
  else tr35).

Definition case_114 (c : Z) : transition action :=
  if c =? 32 then st 114
  else if 13 <? c then
    if (48 <=? c) && (c <=? 57) then tr157
    else st 0
  else if 9 <=? c then st 114
  else st 0.

Definition case_115 (c : Z) : transition action :=
  switch c [(10, tr158); (13, tr159)]
  (if (48 <=? c) && (c <=? 57) then st 115
  else st 0).

Definition case_116 (c : Z) : transition action :=
  switch c [(10, tr154); (32, st 114)]
  (if 13 <? c then
    if (48 <=? c) && (c <=? 57) then tr157
    else st 0
  else if 9 <=? c then st 114
  else st 0).

Definition case_117 (c : Z) : transition action :=
  switch c [(10, tr158); (13, tr159); (33, st 21); (58, tr39); (124, st 21);
    (126, st 21)]
  (if c <? 45 then
    if 39 <? c then
      if (42 <=? c) && (c <=? 43) then st 21
      else st 0
    else if 35 <=? c then st 21
    else st 0
  else if 46 <? c then
    if c <? 65 then
      if (48 <=? c) && (c <=? 57) then st 117
      else st 0
    else if 90 <? c then
      if (94 <=? c) && (c <=? 122) then st 21
      else st 0
    else st 21
  else st 21).

Definition case_118 (c : Z) : transition action :=
  switch c [(10, st 113); (32, st 114)]
  (if 13 <? c then
    if (48 <=? c) && (c <=? 57) then tr157
    else st 0
  else if 9 <=? c then st 114
  else st 0).

Definition case_119 (c : Z) : transition action :=
  switch c [(10, tr158); (13, tr159)]
  (if (48 <=? c) && (c <=? 57) then st 119
  else st 23).

Definition case_120 (c : Z) : transition action :=
  st 0.

Definition case_121 (c : Z) : transition action :=
  switch c [(32, st 63); (67, tr104); (99, tr104)]
  (if (9 <=? c) && (c <=? 13) then st 63
  else st 0).

Definition case_122 (c : Z) : transition action :=
  switch c [(32, st 37); (67, st 38); (99, st 38)]
  (if (9 <=? c) && (c <=? 13) then st 37
  else st 0).

Definition case_123 (c : Z) : transition action :=
  if c =? 32 then st 114
  else if 13 <? c then
    if (48 <=? c) && (c <=? 57) then tr157
    else st 0
  else if 9 <=? c then st 114
  else st 0.

(** [switch ( cs )]: a value without a case falls through to _test_eof2. *)
Definition dispatch (cs c : Z) : option (transition action) :=
  match cs with
  | 1 => Some (case_1 c)
  | 2 => Some (case_2 c)
  | 3 => Some (case_3 c)
  | 4 => Some (case_4 c)
  | 5 => Some (case_5 c)
  | 6 => Some (case_6 c)
  | 7 => Some (case_7 c)
  | 8 => Some (case_8 c)
  | 9 => Some (case_9 c)
  | 10 => Some (case_10 c)
  | 11 => Some (case_11 c)
  | 12 => Some (case_12 c)
  | 13 => Some (case_13 c)
  | 14 => Some (case_14 c)
  | 15 => Some (case_15 c)
  | 16 => Some (case_16 c)
  | 17 => Some (case_17 c)
  | 18 => Some (case_18 c)
  | 19 => Some (case_19 c)
  | 20 => Some (case_20 c)
  | 21 => Some (case_21 c)
  | 22 => Some (case_22 c)
  | 23 => Some (case_23 c)
  | 24 => Some (case_24 c)
  | 25 => Some (case_25 c)
  | 26 => Some (case_26 c)
  | 27 => Some (case_27 c)
  | 28 => Some (case_28 c)
  | 29 => Some (case_29 c)
  | 30 => Some (case_30 c)
  | 31 => Some (case_31 c)
  | 32 => Some (case_32 c)
  | 33 => Some (case_33 c)
  | 34 => Some (case_34 c)
  | 35 => Some (case_35 c)
  | 36 => Some (case_36 c)
  | 37 => Some (case_37 c)
  | 38 => Some (case_38 c)
  | 39 => Some (case_39 c)
  | 40 => Some (case_40 c)
  | 41 => Some (case_41 c)
  | 42 => Some (case_42 c)
  | 43 => Some (case_43 c)
  | 44 => Some (case_44 c)
  | 45 => Some (case_45 c)
  | 46 => Some (case_46 c)
  | 47 => Some (case_47 c)
  | 48 => Some (case_48 c)
  | 49 => Some (case_49 c)
  | 50 => Some (case_50 c)
  | 51 => Some (case_51 c)
  | 52 => Some (case_52 c)
  | 53 => Some (case_53 c)
  | 54 => Some (case_54 c)
  | 55 => Some (case_55 c)
  | 56 => Some (case_56 c)
  | 57 => Some (case_57 c)
  | 58 => Some (case_58 c)
  | 59 => Some (case_59 c)
  | 60 => Some (case_60 c)
  | 61 => Some (case_61 c)
  | 62 => Some (case_62 c)
  | 63 => Some (case_63 c)
  | 64 => Some (case_64 c)
  | 65 => Some (case_65 c)
  | 66 => Some (case_66 c)
  | 67 => Some (case_67 c)
  | 68 => Some (case_68 c)
  | 69 => Some (case_69 c)
  | 70 => Some (case_70 c)
  | 71 => Some (case_71 c)
  | 72 => Some (case_72 c)
  | 73 => Some (case_73 c)
  | 74 => Some (case_74 c)
  | 75 => Some (case_75 c)
  | 76 => Some (case_76 c)
  | 77 => Some (case_77 c)
  | 78 => Some (case_78 c)
  | 79 => Some (case_79 c)
  | 80 => Some (case_80 c)
  | 81 => Some (case_81 c)
  | 82 => Some (case_82 c)
  | 83 => Some (case_83 c)
  | 84 => Some (case_84 c)
  | 85 => Some (case_85 c)
  | 86 => Some (case_86 c)
  | 87 => Some (case_87 c)
  | 88 => Some (case_88 c)
  | 89 => Some (case_89 c)
  | 90 => Some (case_90 c)
  | 91 => Some (case_91 c)
  | 92 => Some (case_92 c)
  | 93 => Some (case_93 c)
  | 94 => Some (case_94 c)
  | 95 => Some (case_95 c)
  | 96 => Some (case_96 c)
  | 97 => Some (case_97 c)
  | 98 => Some (case_98 c)
  | 99 => Some (case_99 c)
  | 100 => Some (case_100 c)
  | 101 => Some (case_101 c)
  | 102 => Some (case_102 c)
  | 103 => Some (case_103 c)
  | 104 => Some (case_104 c)
  | 105 => Some (case_105 c)
  | 106 => Some (case_106 c)
  | 107 => Some (case_107 c)
  | 108 => Some (case_108 c)
  | 109 => Some (case_109 c)
  | 110 => Some (case_110 c)
  | 111 => Some (case_111 c)
  | 112 => Some (case_112 c)
  | 113 => Some (case_113 c)
  | 114 => Some (case_114 c)
  | 115 => Some (case_115 c)
  | 116 => Some (case_116 c)
  | 117 => Some (case_117 c)
  | 118 => Some (case_118 c)
  | 119 => Some (case_119 c)
  | 120 => Some (case_120 c)
  | 121 => Some (case_121 c)
  | 122 => Some (case_122 c)
  | 123 => Some (case_123 c)
  | _ => None
  end.
Definition fallthrough : Z := 2.

(** The labels are closed under [dispatch]: the states that have a case. *)
Definition states : list Z := seqZ 1 123.
