(* ===== verification/HttpClientParser.v ===== *)
(** * The response parser (http/httpclient_parser.rl.cc)

    The struct [httpclient_parser] with its callbacks, the actions of the machine of
    ClientMachine.v, [httpclient_parser_init], [httpclient_parser_execute] and
    [httpclient_parser_finish]; as in Http11.v, but for the NUL that has to stand
    behind the buffer. The theorem says that the parser stays in its buffer. *)
From stdpp Require Import base tactics option list strings numbers.
From S2P Require Import Prelude CString Http Dfa ParserCommon ClientMachine.

Open Scope Z_scope.

#[local] Arguments String.append !_ _ : simpl nomatch.

(** ** The struct *)

Record httpclient_parser := mkParser {
  cs : Z;
  body_start : Z;
  content_len : Z;
  status : Z;
  chunked : Z;
  chunks_done : Z;
  close : Z;
  nread : Z;
  mark : Z;
  field_start : Z;
  field_len : Z
}.

Record callbacks (D : Type) := mkCallbacks {
  http_field : option (field_cb D);
  reason_phrase : option (element_cb D);
  status_code : option (element_cb D);
  chunk_size : option (element_cb D);
  http_version : option (element_cb D);
  header_done : option (element_cb D);
  last_chunk : option (element_cb D)
}.
Arguments http_field {D} c.
Arguments reason_phrase {D} c.
Arguments status_code {D} c.
Arguments chunk_size {D} c.
Arguments http_version {D} c.
Arguments header_done {D} c.
Arguments last_chunk {D} c.

Definition set_cs v (r : httpclient_parser) :=
  let '(mkParser _ b l s k e o n m fs fl) := r in mkParser v b l s k e o n m fs fl.
Definition set_body_start v (r : httpclient_parser) :=
  let '(mkParser c _ l s k e o n m fs fl) := r in mkParser c v l s k e o n m fs fl.
Definition set_content_len v (r : httpclient_parser) :=
  let '(mkParser c b _ s k e o n m fs fl) := r in mkParser c b v s k e o n m fs fl.
Definition set_status v (r : httpclient_parser) :=
  let '(mkParser c b l _ k e o n m fs fl) := r in mkParser c b l v k e o n m fs fl.
Definition set_chunked v (r : httpclient_parser) :=
  let '(mkParser c b l s _ e o n m fs fl) := r in mkParser c b l s v e o n m fs fl.
Definition set_chunks_done v (r : httpclient_parser) :=
  let '(mkParser c b l s k _ o n m fs fl) := r in mkParser c b l s k v o n m fs fl.
Definition set_close v (r : httpclient_parser) :=
  let '(mkParser c b l s k e _ n m fs fl) := r in mkParser c b l s k e v n m fs fl.
Definition set_nread v (r : httpclient_parser) :=
  let '(mkParser c b l s k e o _ m fs fl) := r in mkParser c b l s k e o v m fs fl.
Definition set_mark v (r : httpclient_parser) :=
  let '(mkParser c b l s k e o n _ fs fl) := r in mkParser c b l s k e o n v fs fl.
Definition set_field_start v (r : httpclient_parser) :=
  let '(mkParser c b l s k e o n m _ fl) := r in mkParser c b l s k e o n m v fl.
Definition set_field_len v (r : httpclient_parser) :=
  let '(mkParser c b l s k e o n m fs _) := r in mkParser c b l s k e o n m fs v.

(** [httpclient_parser_init]: [status] keeps what the memory held. *)
Definition httpclient_parser_init (r : httpclient_parser) : httpclient_parser :=
  mkParser httpclient_parser_start 0 (-1) (status r) 0 0 0 0 0 0 0.

Definition httpclient_parser_has_error (r : httpclient_parser) : bool :=
  cs r =? httpclient_parser_error.
Definition httpclient_parser_is_finished (r : httpclient_parser) : bool :=
  cs r =? httpclient_parser_first_final.
Definition httpclient_parser_finish (r : httpclient_parser) : Z :=
  if httpclient_parser_has_error r then -1 else if httpclient_parser_is_finished r then 1 else 0.

(** ** Executing the actions

    [buffer] is the memory from the pointer of that name on, [len] the argument. *)

Section Execute.
Context {D : Type} (cb : callbacks D) (buffer : string) (len : Z).
Implicit Types (r : httpclient_parser) (d : D).

Definition write_value r d (p : Z) : res D :=
  match http_field cb with
  | Some f => f d (PTR_TO buffer (field_start r)) (field_len r) (PTR_TO buffer (mark r)) (LEN (mark r) p)
  | None => Val d
  end.

(** The action [chunk_size]; the number ends before the character at [p], which is
    none of a prefix "0x". *)
Definition chunk_size_action r d (p : Z) : res (httpclient_parser * D) :=
  let n := s32 (strtol (PTR_TO buffer (mark r)) 16) in
  let r := set_chunks_done (if n <=? 0 then 1 else 0) (set_content_len n (set_chunked 1 r)) in
  d ← match last_chunk cb with
      | Some f => if n <=? 0 then f d (PTR_TO buffer (mark r)) (LEN (mark r) p)
                  else element (chunk_size cb) d (PTR_TO buffer (mark r)) (LEN (mark r) p)
      | None => element (chunk_size cb) d (PTR_TO buffer (mark r)) (LEN (mark r) p)
      end;
  mret (r, d).

Definition act (a : action) (p : Z) (s : httpclient_parser * D) : res (httpclient_parser * D) :=
  let '(r, d) := s in
  let on_mark r f := d ← element f d (PTR_TO buffer (mark r)) (LEN (mark r) p); mret (r, d) in
  match a with
  | Mark | StartValue => mret (set_mark p r, d)
  | StartField => mret (set_field_start p r, d)
  | WriteField => mret (set_field_len (LEN (field_start r) p) r, d)
  | WriteContentLen => mret (set_content_len (s32 (strtol (PTR_TO buffer (mark r)) 10)) r, d)
  | WriteConnectionClose => mret (set_close 1 r, d)
  | WriteValue => d ← write_value r d p; mret (r, d)
  | ReasonPhrase => on_mark r (reason_phrase cb)
  | StatusCode =>
      on_mark (set_status (s32 (strtol (PTR_TO buffer (mark r)) 10)) r) (status_code cb)
  | HttpVersion => on_mark r (http_version cb)
  | ChunkSize => chunk_size_action r d p
  | TransChunked => mret (set_chunked 1 r, d)
  | Done =>
      let r := set_body_start (p + 1) r in
      d ← element (header_done cb) d (PTR_TO buffer (p + 1)) (len - p - 1);
      mret (r, d)
  end.

Definition exec (q p : Z) (rest : string) (s : httpclient_parser * D) :
    res (Z * Z * (httpclient_parser * D)) :=
  run dispatch fallthrough act q p rest s.

Definition reset_marks r : httpclient_parser :=
  set_field_start 0 (set_field_len 0 (set_mark 0 (set_nread 0 r))).

(** The end of [httpclient_parser_execute]. *)
Definition finish_execute (off q p : Z) r : res (Z * httpclient_parser) :=
  let r := set_cs q r in
  let r := set_nread (u64 (nread r + (p - off))) r in
  assert (p <=? len);;
  assert (nread r <=? len);;
  assert (body_start r <=? len);;
  mret (s32 (nread r), r).
End Execute.

(** [assert( *pe == '\0')]: there is memory behind the [len] characters. *)
Definition nul_at (buffer : string) (len : nat) : res unit :=
  match String.get len buffer with
  | Some c => assert (code c =? 0)
  | None => Bad OutOfBounds
  end.

(** [httpclient_parser_execute(parser, buffer, len, off)] *)
Definition httpclient_parser_execute {D} (cb : callbacks D) (buffer : string) (len : nat) (off : Z)
    (s : httpclient_parser * D) : res (Z * (httpclient_parser * D)) :=
  let '(r, d) := s in
  let n := Z.of_nat len in
  let r := reset_marks r in
  assert (off <=? n);;
  nul_at buffer len;;
  assert (n - off =? s32 (s32 n - s32 off));;
  '(q, p, (r, d)) ← exec cb buffer n (cs r) off (PTR_TO (str_take len buffer) off) (r, d);
  '(k, r) ← finish_execute n off q p r;
  mret (k, (r, d)).

(** ** The parser stays inside its buffer

    As in Http11.v, [field_start] and [field_len] are followed through the states:
    where a header value is read they name what was read before it. The grammar
    takes line ends for blanks in front of the values of three headers, so that
    behind an empty value ([empty_state]) a new header may begin as well: there the
    two members can go out of step. [blank_state]s read the blanks behind a colon. *)

Definition in_value (q : Z) : bool :=
  within [(6, 7); (22, 23); (35, 43); (61, 100); (112, 119); (121, 123)] q.
Definition blank_state (q : Z) : bool := bool_decide (q ∈ [35; 61; 112; 80; 95; 118]).
Definition empty_state (q : Z) : bool := bool_decide (q ∈ [36; 62; 113]).

Definition flow (f : option bool) (a : action) : option bool :=
  value ← f;
  match a with
  | StartField => Some false
  | WriteField => Some true
  | WriteValue => if value : bool then f else None
  | _ => f
  end.

Definition transition_ok (q : Z) (c : Ascii.ascii) (t : transition action) : bool :=
  (empty_state q ||
   match foldl flow (Some (in_value q)) (acts t) with
   | Some value => brk t || implb (in_value (target t)) value
   | None => false
   end)
  && ((0 <=? target t) && (target t <=? 123))
  && implb (brk t) (httpclient_parser_first_final <=? target t)
  && implb (blank_state (target t)) (one_of ":" c || blank_state q && isspace c)
  && implb (empty_state (target t)) (blank_state q && (code c =? 10)).

Lemma client_transitions_ok q c :
  1 <= q <= 123 -> exists t, dispatch q (schar c) = Some t /\ transition_ok q c t = true.
Proof.
  intros Hq.
  assert (H : table (fun q c => match dispatch q (schar c) with
      | Some t => transition_ok q c t | None => false end) states = true)
    by (vm_compute; exact eq_refl).
  apply (table_spec _ _ q c) in H; [|unfold states; rewrite elem_of_seqZ; lia].
  cbv beta in H. destruct (dispatch q (schar c)) as [t|]; [by exists t|done].
Qed.

(** No value is empty: a colon is not followed by blanks and a line feed. *)
Definition no_empty_value (s : string) : Prop :=
  forall before w rest, s = (before ++ ":" ++ w ++ String (Ascii.ascii_of_nat 10) rest)%string ->
    chars isspace w = true -> False.

(** What has been read in front of the state [q]. *)
Definition read_ok (q : Z) (pre : string) : Prop :=
  empty_state q = false /\
  (blank_state q = true ->
     exists before w, pre = (before ++ ":" ++ w)%string /\ chars isspace w = true).

Lemma client_read_step q pre c t rest :
  read_ok q pre -> transition_ok q c t = true -> no_empty_value (pre ++ String c rest)%string ->
  read_ok (target t) (pre ++ String c "")%string.
Proof.
  intros [He Hb] Ht Hno. unfold transition_ok in Ht. rewrite !andb_true_iff in Ht.
  destruct Ht as [[_ Hblank] Hempty]. split.
  - destruct (empty_state (target t)); [|done]. exfalso.
    apply andb_true_iff in Hempty as [Hq Hc%Z.eqb_eq].
    assert (c = Ascii.ascii_of_nat 10) as -> by by apply code_inj.
    destruct (Hb Hq) as (before & w & -> & Hw). apply (Hno before w rest); [|done].
    by rewrite !string_app_assoc.
  - intros E. rewrite E in Hblank. apply orb_true_iff in Hblank as [H|[Hq Hc]%andb_true_iff].
    + unfold one_of in H. simpl in H. rewrite orb_false_r in H. apply Ascii.eqb_eq in H as ->.
      exists pre, ""%string. split; [done|reflexivity].
    + destruct (Hb Hq) as (before & w & -> & Hw). exists before, (w ++ String c "")%string.
      rewrite chars_app, Hw. simpl. rewrite Hc. by rewrite !string_app_assoc.
Qed.

Section Safe.
Context {D : Type} (I : D -> Prop).

Record callbacks_total (cb : callbacks D) : Prop := {
  total_field : field_total I (http_field cb);
  total_reason : element_total I (reason_phrase cb);
  total_status : element_total I (status_code cb);
  total_chunk : element_total I (chunk_size cb);
  total_version : element_total I (http_version cb);
  total_done : element_total I (header_done cb);
  total_last : element_total I (last_chunk cb)
}.

Context (cb : callbacks D) (Hcb : callbacks_total cb) (buffer : string) (len : Z).
Context (Hlen : 0 <= len <= Z.of_nat (String.length buffer)).
Context (Hsmall : Z.of_nat (String.length buffer) < 2 ^ 31).

Definition in_bounds (value : bool) (p : Z) (r : httpclient_parser) : Prop :=
  0 <= mark r <= p /\ 0 <= field_start r <= p /\ 0 <= field_len r <= len /\ body_start r <= len /\
  (value = true -> field_start r + field_len r <= p).

Local Ltac bounds :=
  match goal with
  | H : in_bounds ?v _ _ |- _ => destruct H as (? & ? & ? & ? & ?); try destruct v
  end; repeat split; simpl in *; intros; try done; lia.

Definition same_run (r r' : httpclient_parser) : Prop := cs r' = cs r /\ nread r' = nread r.

Lemma client_act_ok a p r d value value' :
  0 <= p < len -> I d -> in_bounds value p r -> flow (Some value) a = Some value' ->
  exists r' d', act cb buffer len a p (r, d) = Val (r', d') /\ I d' /\ in_bounds value' p r' /\
    same_run r r'.
Proof.
  intros Hp Hd Hr Hf. destruct Hcb.
  assert (Hmark : forall f r1, element_total I f -> mark r1 = mark r ->
    exists d', element f d (PTR_TO buffer (mark r1)) (LEN (mark r1) p) = Val d' /\ I d').
  { intros f r1 Ht ->. apply (element_ok I); [done|done|].
    apply LEN_slice; [done|apply Hr|lia]. }
  assert (Hmark' : forall f r1, element_total I f -> mark r1 = mark r -> in_bounds value p r1 ->
    same_run r r1 -> exists r' d',
    (d ← element f d (PTR_TO buffer (mark r1)) (LEN (mark r1) p); mret (r1, d)) = Val (r', d') /\
    I d' /\ in_bounds value p r' /\ same_run r r').
  { intros f r1 Ht Hm Hb Hs. destruct (Hmark f r1 Ht Hm) as (d' & -> & Hd'). by exists r1, d'. }
  pose proof (LEN_slice buffer (mark r) p Hsmall) as Hm.
  pose proof (LEN_slice buffer (field_start r) p Hsmall) as Hfs.
  assert (Hkeep : forall r1, mark r1 = mark r /\ field_start r1 = field_start r /\
    field_len r1 = field_len r /\ body_start r1 = body_start r -> in_bounds value p r1).
  { intros r1 (E1 & E2 & E3 & E4). unfold in_bounds. by rewrite E1, E2, E3, E4. }
  destruct a; simpl in Hf; try (destruct value; [|done]); injection Hf as <-; cbn [act].
  all: try (by apply Hmark'; [eauto|by destruct r|by apply Hkeep; destruct r|by destruct r]).
  all: try (eexists _, d; split; [reflexivity|]; split; [done|]; split; [|by destruct r];
    by apply Hkeep; destruct r).
  1,2,4: eexists _, d; split; [reflexivity|]; split; [done|]; split; [|by destruct r];
    clear Hm Hfs Hkeep Hmark Hmark'; destruct r; bounds.
  - eexists _, d. split; [reflexivity|]. split; [done|]. split; [|by destruct r].
    destruct Hfs as [E _]; [bounds|bounds|]. rewrite E. clear Hm E Hkeep Hmark Hmark'.
    destruct r; bounds.
  - assert (exists d', write_value cb buffer r d p = Val d' /\ I d') as (d' & -> & Hd').
    { unfold write_value. destruct (http_field cb) as [f|] eqn:E; [|by exists d].
      eapply total_field0; [done|done| |apply Hm; bounds].
      unfold slice_ok. rewrite PTR_TO_length by bounds. bounds. }
    by exists r, d'.
  - unfold chunk_size_action. set (n := s32 _). set (r1 := set_chunks_done _ _).
    assert (Hr1 : in_bounds value p r1 /\ same_run r r1 /\ mark r1 = mark r)
      by (subst r1; destruct r; split_and!; done).
    destruct Hr1 as (Hb1 & Hs1 & Hm1).
    assert (exists d', match last_chunk cb with
      | Some f => if n <=? 0 then f d (PTR_TO buffer (mark r1)) (LEN (mark r1) p)
                  else element (chunk_size cb) d (PTR_TO buffer (mark r1)) (LEN (mark r1) p)
      | None => element (chunk_size cb) d (PTR_TO buffer (mark r1)) (LEN (mark r1) p)
      end = Val d' /\ I d') as (d' & -> & Hd').
    { destruct (last_chunk cb) as [f|] eqn:El; [|by apply Hmark].
      destruct (n <=? 0); [|by apply Hmark]. rewrite Hm1.
      eapply total_last0; [done|done|apply Hm; bounds]. }
    by exists r1, d'.
  - destruct (element_ok I (header_done cb) d (PTR_TO buffer (p + 1)) (len - p - 1))
      as (d' & -> & Hd'); [done|done| |].
    { unfold slice_ok. rewrite PTR_TO_length by bounds. bounds. }
    eexists _, d'. split; [reflexivity|]. split; [done|]. destruct r; split; [bounds|done].
Qed.

Lemma client_acts_ok l p r d value value' :
  0 <= p < len -> I d -> in_bounds value p r -> foldl flow (Some value) l = Some value' ->
  exists r' d', do_acts (act cb buffer len) l p (r, d) = Val (r', d') /\ I d' /\
    in_bounds value' p r' /\ same_run r r'.
Proof.
  intros Hp. revert r d value. induction l as [|a l IH]; intros r d value Hd Hr Hf.
  { simpl in Hf. simplify_eq. by exists r, d. }
  cbn [foldl] in Hf. destruct (flow (Some value) a) as [v1|] eqn:Ha.
  - destruct (client_act_ok a p r d value v1) as (r1 & d1 & E & Hd1 & Hr1 & Hc1 & Hn1); try done.
    destruct (IH r1 d1 v1) as (r2 & d2 & E2 & Hd2 & Hr2 & Hc2 & Hn2); try done.
    exists r2, d2. cbn [do_acts]. rewrite E. cbn [mbind res_bind]. rewrite E2.
    split; [done|]. split; [done|]. split; [done|]. split; congruence.
  - exfalso. clear -Hf. induction l as [|b l IH]; [done|]. by apply IH.
Qed.

(** The loop, [pre] being what was read and [rest] what follows. *)
Lemma client_exec_ok rest q pre r d :
  Z.of_nat (String.length (pre ++ rest)%string) = len -> 1 <= q <= 123 -> I d ->
  in_bounds (in_value q) (Z.of_nat (String.length pre)) r -> read_ok q pre ->
  no_empty_value (pre ++ passed dispatch q rest)%string ->
  exists q' p' r' d', exec cb buffer len q (Z.of_nat (String.length pre)) rest (r, d) =
      Val (q', p', (r', d')) /\ I d' /\
    in_bounds false p' r' /\ same_run r r' /\ 0 <= p' <= len /\ 0 <= q' <= 123 /\
    (p' = len \/ q' = 0 \/ httpclient_parser_first_final <= q').
Proof.
  revert q pre r d. induction rest as [|c rest IH]; intros q pre r d Hp Hq Hd Hr Hread Hno.
  { rewrite string_app_nil in Hp. eexists q, _, r, d. split; [reflexivity|]. split; [done|].
    split; [bounds|]. split; [done|]. lia. }
  destruct (client_transitions_ok q c Hq) as (t & Ht & Hok).
  pose proof Hok as Hk. unfold transition_ok in Hk. rewrite (proj1 Hread), !andb_true_iff in Hk.
  destruct Hk as [[[[Hflow [H0%Z.leb_le H123%Z.leb_le]] Hfin] _] _]. simpl orb in Hflow.
  pose proof (fun Hno => client_read_step q pre c t (passed dispatch (target t) rest) Hread Hok Hno) as Hread'.
  assert (Hbrk : brk t = true -> httpclient_parser_first_final <= target t)
    by (intros Eb; rewrite Eb in Hfin; by apply Z.leb_le in Hfin).
  clear Hok Hfin.
  destruct (foldl flow _ (acts t)) as [value|] eqn:Hf; [|done].
  assert (Hlt : 0 <= Z.of_nat (String.length pre) < len)
    by (rewrite string_length_app in Hp; simpl in Hp; lia).
  destruct (client_acts_ok (acts t) _ r d _ _ Hlt Hd Hr Hf) as (r1 & d1 & E & Hd1 & Hr1 & Hs1).
  unfold exec. cbn [run]. rewrite Ht, E. cbn [mbind res_bind].
  cbn [passed] in Hno. rewrite Ht in Hno.
  destruct (brk t).
  { eexists _, _, r1, d1. split; [reflexivity|]. split; [done|]. split; [bounds|].
    specialize (Hbrk eq_refl). split; [done|]. clear -Hlt H0 H123 Hbrk. lia. }
  destruct (Z.eqb_spec (target t) 0) as [E0|E0].
  { eexists _, _, r1, d1. split; [reflexivity|]. split; [done|]. split; [bounds|]. split; [done|].
    clear -Hlt E0. lia. }
  assert (Ep : Z.of_nat (String.length pre) + 1 = Z.of_nat (String.length (pre ++ String c "")%string))
    by (rewrite string_length_app; simpl; lia).
  rewrite Ep.
  destruct (IH (target t) (pre ++ String c "")%string r1 d1)
    as (q' & p' & r' & d' & E' & Hd' & Hr' & Hs' & Hrest).
  - by rewrite string_app_assoc.
  - clear -H0 H123 E0. lia.
  - done.
  - rewrite <- Ep. simpl in Hflow. clear -Hr1 Hflow Hlt. destruct Hr1 as (? & ? & ? & ? & Hv).
    repeat split; try lia. intros E. rewrite E in Hflow. specialize (Hv Hflow). lia.
  - by apply Hread'.
  - by rewrite string_app_assoc.
  - exists q', p', r', d'. split; [done|]. split; [done|]. split; [done|].
    split; [|done]. destruct Hs1, Hs'. split; congruence.
Qed.
End Safe.

Lemma client_reset_in_bounds len value r :
  0 <= len -> body_start r <= len -> in_bounds len value 0 (reset_marks r).
Proof. intros Hl Hb. destruct r. unfold in_bounds. simpl in *. repeat split; lia. Qed.

Lemma get_length n s c : String.get n s = Some c -> (n < String.length s)%nat.
Proof.
  revert n. induction s as [|a s IH]; intros n; [done|]. destruct n; simpl; [lia|].
  intros H%IH. lia.
Qed.

Lemma str_take_length n s : (n <= String.length s)%nat -> String.length (str_take n s) = n.
Proof.
  revert s. induction n as [|n IH]; intros [|c s] H; simpl in *; try lia. rewrite IH; lia.
Qed.

(** [httpclient_parser_execute], as its exec block and what follows. *)
Lemma client_execute_exec {D} (cb : callbacks D) buffer len r d q p r1 d1 c :
  String.get len buffer = Some c -> code c = 0 -> Z.of_nat len < 2 ^ 31 ->
  exec cb buffer (Z.of_nat len) (cs r) 0 (str_take len buffer) (reset_marks r, d) =
    Val (q, p, (r1, d1)) ->
  nread r1 = 0 -> 0 <= p <= Z.of_nat len -> body_start r1 <= Z.of_nat len ->
  httpclient_parser_execute cb buffer len 0 (r, d) = Val (p, (set_nread p (set_cs q r1), d1)).
Proof.
  intros Hg Hc Hl E Hn Hp Hb. set (n := Z.of_nat len) in *.
  unfold httpclient_parser_execute. fold n.
  rewrite (proj2 (Z.leb_le 0 n)) by lia. unfold nul_at. rewrite Hg, Hc. cbn [assert mbind res_bind].
  rewrite Z.eqb_refl. cbn [assert mbind res_bind].
  rewrite Z.sub_0_r, !(swrap_small 32 n), (swrap_small 32 0), Z.sub_0_r by (unfold in_s; lia).
  rewrite swrap_small, Z.eqb_refl by (unfold in_s; lia). cbn [assert mbind res_bind].
  replace (cs (reset_marks r)) with (cs r) by (by destruct r).
  change (PTR_TO (str_take len buffer) 0) with (str_take len buffer). rewrite E.
  cbn [mbind res_bind]. unfold finish_execute.
  assert (E1 : nread (set_cs q r1) = 0 /\ body_start (set_cs q r1) = body_start r1)
    by (by destruct r1).
  destruct E1 as [-> E2]. rewrite Z.add_0_l, Z.sub_0_r, wrap_small by (unfold in_u; lia).
  assert (E3 : nread (set_nread p (set_cs q r1)) = p /\
    body_start (set_nread p (set_cs q r1)) = body_start r1) by (by destruct r1).
  destruct E3 as [-> ->].
  rewrite (proj2 (Z.leb_le p n)), (proj2 (Z.leb_le (body_start r1) n)) by lia.
  cbn [assert mbind res_bind]. rewrite swrap_small by (unfold in_s; lia). reflexivity.
Qed.

(** C31: the response parser never leaves its buffer, as long as no header value it
    reads is empty. On a buffer with a NUL behind its [len] characters, all in less than 2^31
    bytes of memory, with a [body_start] that is at most [len] (it is 0 until a head has been
    read; past the buffer it fails the assertion on it), in any state
    but the error and those behind a colon, [httpclient_parser_execute] returns: none
    of its assertions fails, every pointer and length it hands to a callback is a slice
    of the memory in front of the position (the callbacks are asked to return on slices
    of the memory only), the state is again one of the machine's, and
    the whole buffer is consumed unless the parser stopped with an error or at the
    end of a head. *)
Theorem response_in_bounds {D} (I : D -> Prop) (cb : callbacks D) (buffer : string) (len : nat) r d
    (Hcb : callbacks_total I cb)
    (Hnul : String.get len buffer = Some (Ascii.ascii_of_nat 0))
    (Hsmall : Z.of_nat (String.length buffer) < 2 ^ 31)
    (Hcs : 1 <= cs r <= 123) (Hstate : blank_state (cs r) || empty_state (cs r) = false)
    (Hbody : body_start r <= Z.of_nat len)
    (Hvalues : no_empty_value (passed dispatch (cs r) (str_take len buffer)))
    (Hd : I d) :
  exists n r' d', httpclient_parser_execute cb buffer len 0 (r, d) = Val (n, (r', d')) /\ I d' /\
    0 <= n <= Z.of_nat len /\ 0 <= cs r' <= 123 /\ body_start r' <= Z.of_nat len /\
    (n = Z.of_nat len \/ httpclient_parser_has_error r' = true \/
       httpclient_parser_first_final <= cs r').
Proof.
  pose proof (get_length _ _ _ Hnul) as Hlen. apply orb_false_iff in Hstate as [Hblank Hempty].
  destruct (client_exec_ok I cb Hcb buffer (Z.of_nat len) ltac:(lia) Hsmall (str_take len buffer) (cs r) ""
    (reset_marks r) d) as (q & p & r1 & d1 & E & Hd1 & Hr1 & [Hc1 Hn1] & Hp & Hq & Hend).
  - change ("" ++ str_take len buffer)%string with (str_take len buffer).
    rewrite str_take_length by lia. done.
  - done.
  - done.
  - apply client_reset_in_bounds; [lia|done].
  - split; [done|]. by rewrite Hblank.
  - exact Hvalues.
  - destruct Hr1 as (_ & _ & _ & Hb1 & _).
    rewrite (client_execute_exec cb buffer len r d q p r1 d1 (Ascii.ascii_of_nat 0)); try done; try lia.
    2: { rewrite Hn1. by destruct r. }
    eexists p, _, d1. split; [reflexivity|]. split; [done|]. split; [done|].
    unfold httpclient_parser_has_error, httpclient_parser_error.
    destruct r1; simpl in *. rewrite Z.eqb_eq. lia.
Qed.

(** Callbacks that count their calls. *)
Definition counting : callbacks Z :=
  let e : option (element_cb Z) := Some (fun d _ _ => Val (d + 1)) in
  mkCallbacks Z (Some (fun d _ _ _ _ => Val (d + 1))) e e e e e e.

Lemma response_in_bounds_witness :
  exists n r d, httpclient_parser_execute counting
      ("HTTP/1.1 200 OK" ++ CRLF ++ "a:b" ++ CRLF ++ CRLF ++ String (Ascii.ascii_of_nat 0) "")%string 24 0
      (httpclient_parser_init (mkParser 7 7 7 7 7 7 7 7 7 7 7), 0) = Val (n, (r, d)) /\
    0 <= d /\ 0 <= n <= 24.
Proof.
  destruct (response_in_bounds (fun d => 0 <= d) counting
    ("HTTP/1.1 200 OK" ++ CRLF ++ "a:b" ++ CRLF ++ CRLF ++ String (Ascii.ascii_of_nat 0) "")%string 24
    (httpclient_parser_init (mkParser 7 7 7 7 7 7 7 7 7 7 7)) 0) as (n & r & d & E & Hd & Hn & _).
  - split; intros g d at_ n; simpl; [intros at2 n2| ..]; intros [= <-] Hd; intros;
      (eexists; split; [reflexivity|lia]).
  - reflexivity.
  - reflexivity.
  - vm_compute. split; discriminate.
  - reflexivity.
  - vm_compute. discriminate.
  - intros before w rest.
    change (passed _ _ _) with ("HTTP/1.1 200 OK" ++ CRLF ++ "a:b" ++ CRLF ++ CRLF)%string.
    intros E Hw. unfold CRLF in E. no_split.
  - lia.
  - by exists n, r, d.
Defined.
