(* ===== verification/HttpResponseParser.v ===== *)
(** * Parsing a response (http/http_parser.h, http/http_parser.cpp)

    [HttpResponseParser]: the callbacks that fill an [HttpResponse], [execute] with its
    [memmove], [isFinished], [hasError] and [getContentLength]. The theorem runs the
    generated machine on the head that [toString] prints. *)
From stdpp Require Import base tactics option list sorting strings pretty numbers.
From S2P Require Import Prelude OrdSet CString Http Headers Dfa ParserCommon ClientMachine HttpClientParser.

Open Scope string_scope.
Open Scope Z_scope.

(** What the [void *data] of the callbacks points to, without the C parser itself. *)
Record response_data := mkData { m_data : HttpResponse; m_error : Z }.

Definition setError (v : Z) (d : response_data) : response_data := mkData (m_data d) v.
Definition update (f : HttpResponse -> HttpResponse) (d : response_data) : response_data :=
  mkData (f (m_data d)) (m_error d).

(** ** The callbacks; what they log is left out. *)

Definition on_response_reason : element_cb response_data := fun d at_ length =>
  v ← std_string at_ length; mret (update (fun r => rsp_setReason r v) d).

Definition on_response_status : element_cb response_data := fun d at_ length =>
  mret (update (fun r => rsp_setStatus r (atoi at_)) d).

Definition on_response_chunk : element_cb response_data := fun d at_ length =>
  v ← std_string at_ length; mret (update (fun r => rsp_setReason r v) d).

Definition on_response_version : element_cb response_data := fun d at_ length =>
  let n := Z.to_nat length in
  if strncmp at_ "HTTP/1.1" n =? 0 then mret (update (fun r => rsp_setVersion r 17) d)
  else if strncmp at_ "HTTP/1.0" n =? 0 then mret (update (fun r => rsp_setVersion r 16) d)
  else mret (setError 1001 d).

Definition on_response_header_done : element_cb response_data := fun d at_ length => mret d.
Definition on_response_last_chunk : element_cb response_data := fun d at_ length => mret d.

Definition on_response_http_field : field_cb response_data := fun d field flen value vlen =>
  if flen =? 0 then mret (setError 1002 d)
  else
    k ← std_string field flen;
    v ← std_string value vlen;
    mret (update (fun r => rsp_setHeader r k v) d).

(** ** [HttpResponseParser] *)

Definition response_callbacks : callbacks response_data := {|
  http_field := Some on_response_http_field;
  reason_phrase := Some on_response_reason;
  status_code := Some on_response_status;
  chunk_size := Some on_response_chunk;
  http_version := Some on_response_version;
  header_done := Some on_response_header_done;
  last_chunk := Some on_response_last_chunk
|}.

(** [m_parser] and what the callbacks reach through [data = this]. *)
Definition HttpResponseParser : Type := httpclient_parser * response_data.

(** The constructor; [garbage] is what the memory of [m_parser] held before. *)
Definition HttpResponseParser_new (garbage : httpclient_parser) : HttpResponseParser :=
  (httpclient_parser_init garbage, mkData (HttpResponse_new 17 true) 0).

(** [execute(data, len, chunck)]: the number of bytes consumed, the parser and the
    memory. *)
Definition execute (P : HttpResponseParser) (data : string) (len : nat) (chunck : bool) :
    res (Z * HttpResponseParser * string) :=
  let P := if chunck then (httpclient_parser_init P.1, P.2) else P in
  '(offset, P) ← httpclient_parser_execute response_callbacks data len 0 P;
  mret (offset, P, memmove_front data len (Z.to_nat offset)).

Definition isFinished (P : HttpResponseParser) : Z := httpclient_parser_finish P.1.
Definition hasError (P : HttpResponseParser) : bool :=
  negb (m_error P.2 =? 0) || httpclient_parser_has_error P.1.

(** [lexical_cast] is boost's to [uint64_t]. *)
Definition getContentLength (lexical_cast : string -> option Z) (P : HttpResponseParser) : Z :=
  getAs lexical_cast (r_headers (m_data P.2)) "content-length" 0.

(** The callbacks return on every slice of the buffer: they only update the response
    or set an error code. *)
Lemma response_callbacks_total (I : response_data -> Prop) :
  (forall f d, I d -> I (update f d)) ->
  (forall e d, e <> 0 -> I d -> I (setError e d)) -> callbacks_total I response_callbacks.
Proof.
  intros Hu He.
  assert (Hstr : forall at_ n d (k : string -> HttpResponse -> HttpResponse), I d -> slice_ok at_ n ->
    exists d', (v ← std_string at_ n; mret (update (k v) d)) = Val d' /\ I d').
  { intros at_ n d k Hd [s E]%std_string_ok. rewrite E. eexists. split; [reflexivity|auto]. }
  split; intros g d at_ n; simpl; [intros at2 n2| ..]; intros [= <-] Hd Hs; try intros Hs2.
  - unfold on_response_http_field. destruct (n =? 0); [eexists; split; [reflexivity|by apply He]|].
    destruct (std_string_ok _ _ Hs) as [k ->], (std_string_ok _ _ Hs2) as [v ->].
    eexists. split; [reflexivity|auto].
  - by apply (Hstr at_ n d (fun v r => rsp_setReason r v)).
  - eexists. split; [reflexivity|auto].
  - by apply (Hstr at_ n d (fun v r => rsp_setReason r v)).
  - unfold on_response_version. destruct (_ =? 0); [eexists; split; [reflexivity|auto]|].
    destruct (_ =? 0); eexists; (split; [reflexivity|]); [auto|by apply He].
  - by exists d.
  - by exists d.
Qed.

(** ** Reading a serialised response *)

#[local] Arguments String.append !_ _ : simpl nomatch.

Local Abbreviation len s := (Z.of_nat (String.length s)).

Definition line_char (c : Ascii.ascii) : bool := negb ((code c =? 10) || (code c =? 13)).

(** The names with states of their own. *)
Definition keyword (l : list Z) : Prop :=
  l = fold_case "connection" \/ l = fold_case "content-length".

(** A header whose value the machine reads as it is meant: an empty value of these two
    names is not delimited, and "transfer-encoding" is another case. *)
Definition plain (kv : string * string) : Prop :=
  fold_case kv.1 <> fold_case "transfer-encoding" /\
  (keyword (fold_case kv.1) -> skip_blanks kv.2 <> "") /\
  match skip_blanks kv.2 with String c _ => isspace c = false | "" => True end.

(** The header that announces a body in chunks. *)
Definition chunk_header (kv : string * string) : bool := bool_decide (kv.1 = "transfer-encoding").
Definition header_ok (kv : string * string) : Prop :=
  plain kv \/ chunk_header kv = true /\ skip_blanks kv.2 = "chunked".

Lemma header_ok_sent k v w : skip_blanks w = skip_blanks v -> header_ok (k, v) -> header_ok (k, w).
Proof. unfold header_ok, plain, chunk_header. simpl. by intros ->. Qed.

Lemma plain_no_chunk kv : plain kv -> chunk_header kv = false.
Proof. intros (H & _). unfold chunk_header. case_bool_decide as E; [|done]. by rewrite E in H. Qed.

(** The member that says how the body is framed ([b]: set on the way), and the counters. *)
Definition keeps (b : bool) (r r' : httpclient_parser) : Prop :=
  chunked r' = (if b then 1 else chunked r) /\ nread r' = nread r /\ body_start r' = body_start r.

Lemma keeps_trans b1 b2 r1 r2 r3 : keeps b1 r1 r2 -> keeps b2 r2 r3 -> keeps (b1 || b2) r1 r3.
Proof. unfold keeps. intros (-> & -> & ->) (-> & -> & ->). by destruct b1, b2. Qed.

(** *** The names in the machine *)

Definition name_state (q : Z) : bool := within [(21, 21); (25, 34); (44, 60); (101, 111)] q.

(** What a state in the middle of a keyword has read of it. *)
Definition trie (q : Z) : option (list Z) :=
  if within [(25, 34)] q then Some (take (Z.to_nat (q - 24)) (fold_case "connection"))
  else if within [(101, 111)] q then Some (take (Z.to_nat (q - 97)) (fold_case "content-length"))
  else if within [(44, 60)] q then Some (take (Z.to_nat (q - 43)) (fold_case "transfer-encoding"))
  else None.

Definition follows (t : Z) (before : list Z) (c : Ascii.ascii) : bool :=
  name_state t && match trie t with
  | Some l => bool_decide (l = (before ++ [tolower (code c)])%list)
  | None => true
  end.

(** A header line starts in [q], on the actions [l]. *)
Definition starts_name (q : Z) (l : list action) : bool :=
  forallb (fun c => implb (tchar c)
    (match dispatch q (schar c) with
     | Some t => bool_decide (t = tr l (target t)) && follows (target t) [] c
     | None => false
     end)) bytes.

Lemma name_starts : starts_name 20 [StartField] && starts_name 43 [WriteConnectionClose; StartField] = true.
Proof. vm_compute. reflexivity. Qed.

Definition name_step (q : Z) (c : Ascii.ascii) : bool :=
  implb (name_state q && tchar c)
    (match dispatch q (schar c) with
     | Some t => bool_decide (t = st (target t)) && name_state (target t) &&
         match trie (target t), trie q with
         | Some l, Some l' => bool_decide (l = (l' ++ [tolower (code c)])%list)
         | Some _, None => false
         | None, _ => true
         end
     | None => false
     end).

Lemma name_steps q c : 1 <= q <= 123 -> name_step q c = true.
Proof.
  intros Hq. apply (table_spec name_step states); [vm_compute; reflexivity|].
  unfold states. rewrite elem_of_seqZ. lia.
Qed.

(** The state behind the colon. *)
Definition value_start (q : Z) : Z :=
  if q =? 34 then 35 else if q =? 60 then 61 else if q =? 111 then 112 else 22.
Lemma name_colon q :
  1 <= q <= 123 -> name_state q = true -> dispatch q 58 = Some (tr [WriteField] (value_start q)).
Proof.
  intros Hq Hn.
  assert (H : forallb (fun q => implb (name_state q)
    (bool_decide (dispatch q 58 = Some (tr [WriteField] (value_start q))))) (seqZ 1 123) = true)
    by (vm_compute; reflexivity).
  apply (forall_range _ _ _ q) in H; [|lia]. cbv beta in H. rewrite Hn in H.
  by apply bool_decide_eq_true in H.
Qed.

Lemma fold_case_snoc s c :
  chars (fun c => negb (code c =? 0)) s = true -> code c <> 0 ->
  fold_case (s ++ String c "") = (fold_case s ++ [tolower (code c)])%list.
Proof.
  intros Hs Hc. induction s as [|a s IH]; simpl.
  - by rewrite (proj2 (Z.eqb_neq _ _)).
  - simpl in Hs. apply andb_true_iff in Hs as [Ha Hs]. apply negb_true_iff in Ha.
    rewrite Ha, IH by done. done.
Qed.

Section RoundTrip.
Context (text : string) (Htext : len text < 2 ^ 31) (n : Z).
Local Abbreviation moves := (moves dispatch fallthrough (act response_callbacks text n)).
Implicit Types (r : httpclient_parser) (d : response_data).

Local Ltac on_char := eapply on_class_spec; [|eassumption]; vm_compute; reflexivity.
Local Ltac step t := eapply (moves_cons _ _ _ _ _ _ _ t);
  [first [reflexivity|on_char]|reflexivity|discriminate|reflexivity|].

(** *** The status line *)

Lemma response_moves_version r d v rest :
  text = "HTTP/" ++ version_string v ++ " " ++ rest -> v = 16 \/ v = 17 ->
  moves 1 0 (r, d) ("HTTP/" ++ version_string v ++ " ") 16
    (set_mark 0 r, update (fun q => rsp_setVersion q v) d).
Proof.
  intros E Hv.
  assert (Hact : do_acts (act response_callbacks text n) [HttpVersion] 8 (set_mark 0 r, d) =
    Val (set_mark 0 r, update (fun q => rsp_setVersion q v) d)).
  { cbn [do_acts act]. replace (mark (set_mark 0 r)) with 0 by by destruct r.
    destruct (token text "" ("HTTP/" ++ version_string v) (" " ++ rest) Htext) as (H1 & H2 & _);
      [by rewrite E, !string_app_assoc|].
    change (Z.of_nat (String.length "")) with 0 in *. rewrite H1.
    replace (0 + len ("HTTP/" ++ version_string v)) with 8 in H2 by by destruct Hv as [-> | ->].
    rewrite H2. replace (len ("HTTP/" ++ version_string v)) with 8 by by destruct Hv as [-> | ->].
    unfold element; simpl http_version. cbv iota beta. unfold on_response_version.
    change (Z.to_nat 8) with 8%nat. by destruct Hv as [-> | ->]. }
  assert (Hlast : moves 15 8 (set_mark 0 r, d) " " 16
    (set_mark 0 r, update (fun q => rsp_setVersion q v) d)).
  { eapply (moves_cons _ _ _ _ _ _ _ tr26); [reflexivity|reflexivity|discriminate|exact Hact|].
    apply moves_nil. }
  destruct Hv as [-> | ->]; simpl;
    (step tr2; step (@st action 9); step (@st action 10); step (@st action 11);
     step (@st action 12); step (@st action 13); step (@st action 14); step (@st action 15);
     exact Hlast).
Qed.

Lemma moves_status r d pre z rest :
  text = pre ++ decimal z ++ " " ++ rest -> 0 <= z < 2 ^ 31 ->
  moves 16 (len pre) (r, d) (decimal z ++ " ") 18
    (set_status z (set_mark (len pre) r), update (fun q => rsp_setStatus q z) d).
Proof.
  intros E Hz.
  assert (Hd : chars digit (decimal z) = true)
    by (apply chars_decimal; intros c; unfold pretty_N_char; by repeat case_match).
  assert (Hpz : decimal z = pretty (Z.to_N z)) by (destruct z; [done|done|lia]).
  destruct (pretty_head (Z.to_N z)) as (c & s & Es & _).
  eapply moves_app with (q1 := 17) (s1 := (set_mark (len pre) r, d)).
  { rewrite Hpz, Es in *. apply andb_true_iff in Hd as [Hc Hd]. step tr27.
    eapply (moves_class _ _ _ digit); [intros; on_char|discriminate|exact Hd]. }
  assert (Hn : strtol (PTR_TO text (len pre)) 10 = z).
  { unfold PTR_TO. rewrite Nat2Z.id, E, str_drop_app, Hpz, strtol_pretty; [lia|lia|done]. }
  eapply (moves_cons _ _ _ _ _ _ _ tr28); [reflexivity|reflexivity|discriminate| |apply moves_nil].
  cbn [acts tr28 tr do_acts act].
  replace (mark (set_mark (len pre) r)) with (len pre) by by destruct r.
  rewrite Hn, swrap_small by (unfold in_s; lia).
  replace (mark (set_status z (set_mark (len pre) r))) with (len pre) by by destruct r.
  unfold element; simpl status_code. cbv iota beta. unfold on_response_status, atoi.
  by rewrite Hn, swrap_small by (unfold in_s; lia).
Qed.

Lemma moves_reason r d pre s rest :
  text = pre ++ s ++ CRLF ++ rest -> s <> "" -> chars line_char s = true ->
  moves 18 (len pre) (r, d) (s ++ CRLF) 20
    (set_mark (len pre) r, update (fun q => rsp_setReason q s) d).
Proof.
  intros E Hne Hs. eapply moves_app with (q1 := 19) (s1 := (set_mark (len pre) r, d)).
  { destruct s as [|c s]; [done|]. apply andb_true_iff in Hs as [Hc Hs]. step tr30.
    eapply (moves_class _ _ _ line_char); [intros; on_char|discriminate|exact Hs]. }
  eapply (moves_cons _ _ _ _ _ _ _ tr33); [reflexivity|reflexivity|discriminate| |].
  { cbn [acts tr33 tr do_acts act].
    replace (mark (set_mark (len pre) r)) with (len pre) by by destruct r.
    destruct (token text pre s (CRLF ++ rest) Htext E) as (_ & H2 & H3). rewrite H2.
    unfold element; simpl reason_phrase. cbv iota beta. unfold on_response_reason.
    by rewrite H3. }
  step (@st action 20). apply moves_nil.
Qed.

(** *** Headers *)

Lemma name_state_range q : name_state q = true -> 1 <= q <= 123.
Proof. unfold name_state, within. simpl. lia. Qed.

Lemma tchar_code c : tchar c = true -> code c <> 0.
Proof.
  intros H. pose proof (forall_chars (fun c => implb (tchar c) (negb (code c =? 0)))
    ltac:(vm_compute; reflexivity) c) as Hi. cbv beta in Hi. rewrite H in Hi. simpl in Hi. lia.
Qed.

Lemma moves_name_chars q p r d before k :
  name_state q = true -> trie q = None \/ trie q = Some (fold_case before) ->
  chars tchar before = true -> chars tchar k = true ->
  exists q', name_state q' = true /\ (trie q' = None \/ trie q' = Some (fold_case (before ++ k))) /\
    moves q p (r, d) k q' (r, d).
Proof.
  revert q p before. induction k as [|c k IH]; intros q p before Hn Ht Hb Hk.
  { rewrite string_app_nil. exists q. split; [done|]. split; [done|]. apply moves_nil. }
  simpl in Hk. apply andb_true_iff in Hk as [Hc Hk].
  pose proof (name_steps q c (name_state_range q Hn)) as H. unfold name_step in H.
  rewrite Hn, Hc in H. simpl in H. destruct (dispatch q (schar c)) as [t|] eqn:Hd; [|done].
  rewrite !andb_true_iff in H. destruct H as [[Hst%bool_decide_eq_true Hn'] Htrie].
  destruct (IH (target t) (p + 1) (before ++ String c "")) as (q' & H1 & H2 & H3); try done.
  - destruct (trie (target t)) as [l|]; [right|by left].
    destruct Ht as [Ht|Ht]; rewrite Ht in Htrie; [done|]. apply bool_decide_eq_true in Htrie as ->.
    rewrite fold_case_snoc; [done| |by apply tchar_code].
    refine (chars_impl tchar _ before _ Hb). vm_compute. reflexivity.
  - rewrite chars_app, Hb. simpl. by rewrite Hc.
  - exists q'. split; [done|]. rewrite string_app_assoc in H2. split; [exact H2|].
    eapply moves_cons; [exact Hd|by rewrite Hst| |by rewrite Hst|exact H3].
    pose proof (name_state_range _ Hn'). lia.
Qed.

(** Between two header lines. *)
Definition line_state (q : Z) : Prop := q = 20 \/ q = 43.

Lemma response_moves_name q r d pre k rest :
  line_state q -> text = pre ++ k ++ ":" ++ rest -> k <> "" -> chars tchar k = true ->
  fold_case k <> fold_case "transfer-encoding" ->
  exists v r', moves q (len pre) (r, d) (k ++ ":") v (r', d) /\ keeps false r r' /\
    field_start r' = len pre /\ field_len r' = len k /\
    (v = 22 \/ (v = 35 \/ v = 112) /\ keyword (fold_case k)).
Proof.
  intros Hq E Hk Hkc Hte.
  assert (Hlen : 0 <= len pre /\ len pre + len k < 2 ^ 31)
    by (rewrite E, !string_length_app in Htext; lia).
  destruct k as [|c k]; [done|]. simpl in Hkc. apply andb_true_iff in Hkc as [Hc Hkc].
  assert (Hstart : exists l r1, starts_name q l = true /\
    do_acts (act response_callbacks text n) l (len pre) (r, d) = Val (r1, d) /\ keeps false r r1 /\
    field_start r1 = len pre).
  { pose proof name_starts as [H20 H43]%andb_true_iff. destruct Hq as [-> | ->].
    - exists [StartField], (set_field_start (len pre) r). split; [exact H20|clear H20 H43; by destruct r].
    - exists [WriteConnectionClose; StartField], (set_field_start (len pre) (set_close 1 r)).
      split; [exact H43|clear H20 H43; by destruct r]. }
  destruct Hstart as (l & r1 & Hs & Hact & Hk1 & Hfs).
  pose proof (forall_chars _ Hs c) as H. cbv beta in H. rewrite Hc in H. simpl in H.
  destruct (dispatch q (schar c)) as [t|] eqn:Hd; [|done].
  apply andb_true_iff in H as [Ht%bool_decide_eq_true [Hn Htrie]%andb_true_iff].
  destruct (moves_name_chars (target t) (len pre + 1) r1 d (String c "") k) as (q1 & Hn1 & Ht1 & M);
    try done.
  { destruct (trie (target t)); [right|by left]. apply bool_decide_eq_true in Htrie as ->.
    simpl. by rewrite (proj2 (Z.eqb_neq _ _)) by by apply tchar_code. }
  { simpl. by rewrite Hc. }
  exists (value_start q1), (set_field_len (len (String c k)) r1). split; [|split_and!].
  - eapply moves_app with (q1 := q1) (s1 := (r1, d)).
    { eapply moves_cons; [exact Hd|by rewrite Ht| |rewrite Ht; exact Hact|exact M].
      pose proof (name_state_range _ Hn). lia. }
    eapply (moves_cons _ _ _ _ _ _ _ (tr [WriteField] (value_start q1)));
      [by apply name_colon; [apply name_state_range|]|done| | |apply moves_nil].
    { unfold value_start. simpl. repeat case_match; lia. }
    cbn [acts tr do_acts act mret res_ret mbind res_bind]. rewrite Hfs. unfold LEN.
    rewrite Z.add_simpl_l, wrap_small by (unfold in_u; lia). done.
  - apply (keeps_trans false false _ r1); [exact Hk1|]. by destruct r1.
  - by destruct r1.
  - by destruct r1.
  - change (String c "" ++ k) with (String c k) in Ht1. unfold value_start.
    assert (Hkw : forall l, trie q1 = Some l -> l = fold_case (String c k))
      by (intros l' El; rewrite El in Ht1; destruct Ht1; congruence).
    destruct (Z.eqb_spec q1 34) as [->|_]; [right; split; [by left|]; left; symmetry; by apply Hkw|].
    destruct (Z.eqb_spec q1 60) as [->|_]; [exfalso; apply Hte; symmetry; by apply Hkw|].
    destruct (Z.eqb_spec q1 111) as [->|_]; [|by left].
    right; split; [by right|]; right; symmetry; by apply Hkw.
Qed.

Lemma response_moves_blanks v r d p w :
  v = 22 \/ v = 35 \/ v = 112 \/ v = 61 ->
  exists r' ws, w = ws ++ skip_blanks w /\ moves v p (r, d) ws v (r', d) /\ keeps false r r' /\
    field_start r' = field_start r /\ field_len r' = field_len r.
Proof.
  intros Hv. revert r p. induction w as [|c w IH]; intros r p.
  { exists r, "". split_and!; try done. apply moves_nil. }
  cbn [skip_blanks]. destruct (blank c) eqn:Hc.
  - destruct (IH (set_mark p r) (p + 1)) as (r' & ws & E & Hm & Hf & H1 & H2).
    exists r', (String c ws). split; [simpl; by rewrite <- E|].
    split; [|by destruct r].
    eapply (moves_cons _ _ _ _ _ _ _ (tr [StartValue] v)); [|done| |reflexivity|exact Hm].
    + destruct Hv as [-> |[-> |[-> | ->]]]; on_char.
    + destruct Hv as [-> |[-> |[-> | ->]]]; done.
  - exists r, "". split_and!; try done. apply moves_nil.
Qed.

(** The callback calls on a marked token. *)
Lemma write_value_token r d p pre k mid v rest :
  text = pre ++ k ++ mid ++ v ++ rest -> k <> "" ->
  field_start r = len pre -> field_len r = len k -> mark r = len (pre ++ k ++ mid) ->
  p = mark r + len v ->
  act response_callbacks text n WriteValue p (r, d) =
    Val (r, update (fun q => rsp_setHeader q k v) d).
Proof.
  intros E Hk Hfs Hfl Hm ->. cbn [act]. unfold write_value. simpl http_field.
  destruct (token text pre k (mid ++ v ++ rest) Htext) as (_ & _ & T1); [by rewrite E|].
  destruct (token text (pre ++ k ++ mid) v rest Htext) as (_ & T2 & T3); [by rewrite E, !string_app_assoc|].
  rewrite Hfs, Hfl, Hm. unfold on_response_http_field.
  rewrite (proj2 (Z.eqb_neq _ _)) by (destruct k; [done|simpl; lia]).
  rewrite T1. cbn [mbind res_bind]. by rewrite T2, T3.
Qed.

(** The states in a value, and its end. *)
Definition value_states : list Z := [23; 96; 97; 98; 99; 100; 119].
Definition ends_value (q : Z) : bool :=
  bool_decide (dispatch q 13 ∈ [Some (tr [WriteValue] 24); Some (tr [WriteValue] 88);
    Some (tr [WriteContentLen; WriteValue] 24)]).

Lemma response_moves_value v r d pre k mid u rest :
  text = pre ++ k ++ mid ++ u ++ CRLF ++ rest -> k <> "" ->
  field_start r = len pre -> field_len r = len k ->
  v = 22 \/ (v = 35 \/ v = 112) /\ u <> "" ->
  chars value_char u = true ->
  match u with String c _ => isspace c = false | "" => True end ->
  exists q' r', line_state q' /\ moves v (len (pre ++ k ++ mid)) (r, d) (u ++ CRLF) q'
      (r', update (fun q => rsp_setHeader q k u) d) /\ keeps false r r'.
Proof.
  intros E Hk Hfs Hfl Hv Hu Hsp. set (p := len (pre ++ k ++ mid)).
  assert (Hw : forall r', field_start r' = len pre -> field_len r' = len k -> mark r' = p ->
    act response_callbacks text n WriteValue (p + len u) (r', d) =
      Val (r', update (fun q => rsp_setHeader q k u) d)).
  { intros r' H1 H2 H3. eapply write_value_token; [exact E|done|done|done|done|by rewrite H3]. }
  set (r1 := set_mark p r).
  assert (H1 : field_start r1 = len pre /\ field_len r1 = len k /\ mark r1 = p /\ keeps false r r1)
    by (subst r1; by destruct r).
  destruct H1 as (H1 & H2 & H3 & H4). destruct u as [|c u].
  - destruct Hv as [->|[_ ?]]; [|done]. exists 20, r1. split; [by left|]. split; [|done].
    simpl. eapply (moves_cons _ _ _ _ _ _ _ tr43); [reflexivity|reflexivity|discriminate| |].
    + cbn [acts tr43 tr do_acts].
      change (act response_callbacks text n StartValue p (r, d)) with (Val (r1, d)).
      cbn [mbind res_bind]. specialize (Hw r1 H1 H2 H3). simpl len in Hw. rewrite Z.add_0_r in Hw.
      by rewrite Hw.
    + step (@st action 20). apply moves_nil.
  - simpl in Hu. apply andb_true_iff in Hu as [Hc Hu].
    assert (Hcls : (fun c => value_char c && negb (isspace c)) c = true) by by rewrite Hc, Hsp.
    destruct (class_goes_moves dispatch fallthrough (act response_callbacks text n)
      (fun c => value_char c && negb (isspace c)) v c [StartValue] value_states p (r, d) (r1, d))
      as (q1 & Hq1 & M1); [|done|reflexivity|].
    { destruct Hv as [->|[[-> | ->] _]]; vm_compute; reflexivity. }
    destruct (moves_class_in dispatch fallthrough (act response_callbacks text n) value_char
      value_states q1 (p + 1) (r1, d) u) as (q2 & Hq2 & M2); [vm_compute; reflexivity|done|done|].
    assert (M : moves v p (r, d) (String c u) q2 (r1, d)).
    { change (String c u) with (String c "" ++ u). eapply moves_app; [exact M1|exact M2]. }
    assert (Hend : ends_value q2 = true).
    { assert (H : forallb ends_value value_states = true) by (vm_compute; reflexivity).
      rewrite forallb_forall in H. by apply H, list_elem_of_In. }
    apply bool_decide_eq_true in Hend. rewrite !elem_of_cons in Hend.
    change CRLF with (String CR (String LF "")).
    destruct Hend as [Hd|[Hd|[Hd|Hd]]]; [..|by apply not_elem_of_nil in Hd].
    + exists 20, r1. split; [by left|]. split; [|done]. eapply moves_app; [exact M|].
      eapply (moves_cons _ _ _ _ _ _ _ (tr [WriteValue] 24)); [exact Hd|done|done| |].
      { cbn [acts tr do_acts]. by rewrite Hw. }
      step (@st action 20). apply moves_nil.
    + exists 43, r1. split; [by right|]. split; [|done]. eapply moves_app; [exact M|].
      eapply (moves_cons _ _ _ _ _ _ _ (tr [WriteValue] 88)); [exact Hd|done|done| |].
      { cbn [acts tr do_acts]. by rewrite Hw. }
      step (@st action 43). apply moves_nil.
    + set (r2 := set_content_len (s32 (strtol (PTR_TO text (mark r1)) 10)) r1).
      assert (H5 : field_start r2 = len pre /\ field_len r2 = len k /\ mark r2 = p /\ keeps false r r2).
      { split_and!; [by rewrite <- H1; subst r2; destruct r1|by rewrite <- H2; subst r2; destruct r1
          |by rewrite <- H3; subst r2; destruct r1|].
        apply (keeps_trans false false _ r1); [exact H4|]. subst r2. by destruct r1. }
      destruct H5 as (H5 & H6 & H7 & H8).
      exists 20, r2. split; [by left|]. split; [|done]. eapply moves_app; [exact M|].
      eapply (moves_cons _ _ _ _ _ _ _ (tr [WriteContentLen; WriteValue] 24));
        [exact Hd|done|done| |].
      { cbn [acts tr do_acts].
        change (act response_callbacks text n WriteContentLen (p + len (String c u)) (r1, d))
          with (Val (r2, d)). cbn [mbind res_bind]. by rewrite Hw. }
      step (@st action 20). apply moves_nil.
Qed.

(** A header line, from the state before it to the one behind it. *)
Lemma moves_plain_header q r d pre k w rest :
  line_state q -> text = pre ++ k ++ ":" ++ w ++ CRLF ++ rest ->
  k <> "" -> chars tchar k = true -> chars value_char w = true -> plain (k, w) ->
  exists q' r', line_state q' /\ moves q (len pre) (r, d) (k ++ ":" ++ w ++ CRLF) q'
      (r', update (fun x => rsp_setHeader x k (skip_blanks w)) d) /\ keeps false r r'.
Proof.
  intros Hq E Hk Hkc Hw (Hte & Hkw & Hsp). simpl in Hte, Hkw, Hsp.
  destruct (response_moves_name q r d pre k (w ++ CRLF ++ rest) Hq E Hk Hkc Hte)
    as (v & r1 & M1 & K1 & F1 & F2 & Hv).
  destruct (response_moves_blanks v r1 d (len (pre ++ k ++ ":")) w) as (r2 & ws & Ew & M2 & K2 & F3 & F4);
    [destruct Hv as [|[? _]]; tauto|].
  destruct (response_moves_value v r2 d pre k (":" ++ ws) (skip_blanks w) rest) as (q' & r3 & Hq' & M3 & K3).
  { rewrite E. rewrite Ew at 1. by rewrite !string_app_assoc. }
  { done. } { by rewrite F3. } { by rewrite F4. }
  { destruct Hv as [|[Hv Hkey]]; [by left|right]. split; [done|by apply Hkw]. }
  { by apply chars_skip_blanks. }
  { exact Hsp. }
  exists q', r3. split; [done|]. split; [|by apply (keeps_trans false false _ r1), (keeps_trans false false _ r2)].
  replace (k ++ ":" ++ w ++ CRLF) with ((k ++ ":") ++ w ++ CRLF) by by rewrite string_app_assoc.
  eapply moves_seq; [exact M1|]. rewrite Ew at 1. rewrite string_app_assoc.
  eapply moves_seq; [exact M2|]. rewrite !string_app_assoc in *. exact M3.
Qed.

(** The announcement of chunks. *)
Lemma moves_chunk_header q r d pre w rest :
  line_state q -> text = pre ++ "transfer-encoding" ++ ":" ++ w ++ CRLF ++ rest ->
  skip_blanks w = "chunked" ->
  exists q' r', line_state q' /\ moves q (len pre) (r, d) ("transfer-encoding" ++ ":" ++ w ++ CRLF) q'
      (r', update (fun x => rsp_setHeader x "transfer-encoding" (skip_blanks w)) d) /\
    keeps true r r'.
Proof.
  intros Hq E Hw.
  assert (Hlen : 0 <= len pre < 2 ^ 31) by (rewrite E, string_length_app in Htext; lia).
  assert (exists r1, moves q (len pre) (r, d) ("transfer-encoding" ++ ":") 61 (r1, d) /\
    keeps false r r1 /\ field_start r1 = len pre /\ field_len r1 = 17) as (r1 & M1 & K1 & F1 & F2).
  { assert (Hrest : forall r1, field_start r1 = len pre ->
      moves 44 (len pre + 1) (r1, d) "ransfer-encoding:" 61 (set_field_len 17 r1, d)).
    { intros r1 Hr1. do 16 (eapply moves_cons; [reflexivity|reflexivity|discriminate|reflexivity|]).
      eapply (moves_cons _ _ _ _ _ _ _ tr95); [reflexivity|reflexivity|discriminate| |apply moves_nil].
      cbn [acts tr95 tr do_acts act mret res_ret mbind res_bind]. rewrite Hr1. unfold LEN.
      rewrite wrap_small by (unfold in_u; lia). do 3 f_equal. lia. }
    change ("transfer-encoding" ++ ":") with (String (Ascii.ascii_of_nat 116) "ransfer-encoding:").
    destruct Hq as [-> | ->].
    - exists (set_field_len 17 (set_field_start (len pre) r)). split; [|by destruct r].
      eapply (moves_cons _ _ _ _ _ _ _ tr37); [reflexivity|reflexivity|discriminate|reflexivity|].
      apply Hrest. by destruct r.
    - exists (set_field_len 17 (set_field_start (len pre) (set_close 1 r))). split; [|by destruct r].
      eapply (moves_cons _ _ _ _ _ _ _ tr78); [reflexivity|reflexivity|discriminate|reflexivity|].
      apply Hrest. by destruct r. }
  set (p2 := pre ++ "transfer-encoding" ++ ":") in *.
  destruct (response_moves_blanks 61 r1 d (len p2) w) as (r2 & ws & Ew & M2 & K2 & F3 & F4); [tauto|].
  rewrite Hw in Ew |- *. set (p3 := pre ++ "transfer-encoding" ++ (":" ++ ws)).
  set (r3 := set_mark (len p3) r2). exists 20, (set_chunked 1 r3). split; [by left|]. split.
  2: { assert (K : keeps false r r2) by (by apply (keeps_trans false false _ r1)).
       destruct K as (_ & Kn & Kb). destruct r2; simpl in *. by split_and!. }
  assert (M3 : moves 61 (len p3) (r2, d) ("chunked" ++ CRLF) 20 (set_chunked 1 r3,
    update (fun x => rsp_setHeader x "transfer-encoding" "chunked") d)).
  { eapply moves_app with (q1 := 87) (s1 := (r3, d)).
    - do 7 (eapply moves_cons; [reflexivity|reflexivity|discriminate|reflexivity|]). apply moves_nil.
    - eapply (moves_cons _ _ _ _ _ _ _ tr112); [reflexivity|reflexivity|discriminate| |].
      { cbn [acts tr112 tr do_acts].
        rewrite (write_value_token r3 d _ pre "transfer-encoding" (":" ++ ws) "chunked" (CRLF ++ rest));
          [reflexivity|rewrite E, Ew; by rewrite !string_app_assoc|done| | | |].
        - rewrite <- F1, <- F3. by destruct r2.
        - transitivity (field_len r2); [by destruct r2|]. by rewrite F4, F2.
        - by destruct r2.
        - replace (mark r3) with (len p3) by (by destruct r2). done. }
      step tr113. apply moves_nil. }
  replace ("transfer-encoding" ++ ":" ++ w ++ CRLF) with
    (("transfer-encoding" ++ ":") ++ ws ++ ("chunked" ++ CRLF))
    by (rewrite Ew; by rewrite !string_app_assoc).
  eapply moves_seq; [exact M1|]. eapply moves_seq; [exact M2|].
  unfold p2, p3 in *. rewrite !string_app_assoc in *. exact M3.
Qed.

Lemma response_moves_header q r d pre k w rest :
  line_state q -> text = pre ++ k ++ ":" ++ w ++ CRLF ++ rest ->
  k <> "" -> chars tchar k = true -> chars value_char w = true -> header_ok (k, w) ->
  exists q' r', line_state q' /\ moves q (len pre) (r, d) (k ++ ":" ++ w ++ CRLF) q'
      (r', update (fun x => rsp_setHeader x k (skip_blanks w)) d) /\
    keeps (chunk_header (k, w)) r r'.
Proof.
  intros Hq E Hk Hkc Hw [Hp|[Hc Hv]].
  - rewrite (plain_no_chunk _ Hp). by eapply moves_plain_header.
  - rewrite Hc. apply bool_decide_eq_true in Hc. simpl in Hc, Hv. subst k.
    by eapply moves_chunk_header.
Qed.

Definition stored (kvs : list (string * string)) (x : HttpResponse) : HttpResponse :=
  foldl (fun x kv => rsp_setHeader x kv.1 (skip_blanks kv.2)) x kvs.

Lemma response_moves_headers ls kvs q r d pre rest :
  line_state q -> Forall2 (fun l kv => sends l kv /\ header_ok kv) ls kvs ->
  text = pre ++ render ls "" ++ rest ->
  exists q' r', line_state q' /\
    moves q (len pre) (r, d) (foldr (fun l s => l ++ CRLF ++ s) "" ls) q' (r', update (stored kvs) d) /\
    keeps (existsb chunk_header kvs) r r'.
Proof.
  intros Hq H. revert q r d pre Hq.
  induction H as [|l [k v] ls kvs [(w & -> & Ew & Hk & Hkc & Hw) Hp] _ IH];
    intros q r d pre Hq E; simpl fst in *; simpl snd in *.
  - exists q, r. split; [done|]. split; [|done].
    replace (update (stored []) d) with d by by destruct d. apply moves_nil.
  - cbn [render] in E. rewrite !string_app_assoc in E.
    assert (Hpw : header_ok (k, w)) by by eapply header_ok_sent.
    destruct (response_moves_header q r d pre k w (render ls "" ++ rest) Hq E Hk Hkc Hw Hpw)
      as (q1 & r1 & Hq1 & M1 & K1).
    destruct (IH q1 r1 (update (fun x => rsp_setHeader x k (skip_blanks w)) d)
      (pre ++ k ++ ":" ++ w ++ CRLF) Hq1) as (q2 & r2 & Hq2 & M2 & K2);
      [by rewrite E, !string_app_assoc|].
    exists q2, r2. split; [done|]. split; [|by apply (keeps_trans _ _ _ r1)].
    cbn [foldr].
    replace ((k ++ ":" ++ w) ++ CRLF ++ foldr (fun l s => l ++ CRLF ++ s) "" ls)
      with ((k ++ ":" ++ w ++ CRLF) ++ foldr (fun l s => l ++ CRLF ++ s) "" ls)
      by by rewrite !string_app_assoc.
    rewrite Ew in M1, M2. eapply moves_seq; [exact M1|exact M2].
Qed.

(** The empty line, at which the loop is left. *)
Lemma response_run_end q r d p rest :
  line_state q ->
  exists r', exec response_callbacks text n q p (CRLF ++ rest) (r, d) = Val (120, p + 2, (r', d)) /\
    body_start r' = p + 2 /\ chunked r' = chunked r /\ nread r' = nread r.
Proof.
  intros Hq. change (CRLF ++ rest) with (String CR "" ++ String LF rest).
  assert (exists r1, moves q p (r, d) (String CR "") 3 (r1, d) /\ keeps false r r1) as (r1 & M & K).
  { destruct Hq as [-> | ->].
    - exists r. split; [|done]. step (@st action 3). apply moves_nil.
    - exists (set_close 1 r). split; [step tr75; apply moves_nil|by destruct r]. }
  exists (set_body_start (p + 2) r1). unfold exec. rewrite M.
  change (p + len (String CR "")) with (p + 1).
  rewrite (run_break _ _ _ _ _ _ _ tr7) by reflexivity.
  replace (p + 2) with (p + 1 + 1) by lia. destruct K as (K1 & K2 & _).
  split; [reflexivity|]. destruct r1; simpl in *. by rewrite K1, K2.
Qed.

(** *** A whole head *)

Lemma run_head lines kvs v z s r d tail beyond :
  let line := "HTTP/" ++ version_string v ++ " " ++ decimal z ++ " " ++ s in
  let head := render (line :: lines) "" in
  text = head ++ beyond -> v = 16 \/ v = 17 -> 0 <= z < 2 ^ 31 -> s <> "" -> chars line_char s = true ->
  Forall2 (fun l kv => sends l kv /\ header_ok kv) lines kvs ->
  exists r', exec response_callbacks text n 1 0 (head ++ tail) (r, d) =
      Val (120, len head, (r', update (fun x => stored kvs (rsp_setReason (rsp_setStatus
        (rsp_setVersion x v) z) s)) d)) /\
    body_start r' = len head /\ chunked r' = (if existsb chunk_header kvs then 1 else chunked r) /\
    nread r' = nread r.
Proof.
  intros line head E Hv Hz Hne Hs Hsend.
  set (H := foldr (fun l s => l ++ CRLF ++ s) "" lines).
  set (A := "HTTP/" ++ version_string v ++ " ").
  set (start := A ++ (decimal z ++ " ") ++ (s ++ CRLF)).
  assert (Eh : forall u, head ++ u = start ++ H ++ CRLF ++ u).
  { intros u. unfold head. rewrite render_app. cbn [render]. rewrite render_lines.
    unfold start, A, line, H. by rewrite !string_app_assoc. }
  rewrite Eh in E. unfold start in E. rewrite !string_app_assoc in E.
  assert (M1 := response_moves_version r d v (decimal z ++ " " ++ s ++ CRLF ++ H ++ CRLF ++ beyond)
    ltac:(rewrite E; unfold A; by rewrite !string_app_assoc) Hv).
  assert (M2 := moves_status (set_mark 0 r) (update (fun q => rsp_setVersion q v) d) A z
    (s ++ CRLF ++ H ++ CRLF ++ beyond) ltac:(rewrite E; unfold A; by rewrite !string_app_assoc) Hz).
  set (r2 := set_status z (set_mark (len A) (set_mark 0 r))) in *.
  assert (M3 := moves_reason r2 (update (fun q => rsp_setStatus q z) (update (fun q => rsp_setVersion q v) d))
    (A ++ decimal z ++ " ") s (H ++ CRLF ++ beyond)
    ltac:(rewrite E; unfold A; by rewrite !string_app_assoc) Hne Hs).
  set (r3 := set_mark _ r2) in *.
  destruct (response_moves_headers lines kvs 20 r3 (update (fun q => rsp_setReason q s)
    (update (fun q => rsp_setStatus q z) (update (fun q => rsp_setVersion q v) d))) start
    beyond) as (q4 & r4 & Hq4 & M4 & K4); [by left|done| |].
  { rewrite render_app, render_lines. rewrite E. unfold start, A. by rewrite !string_app_assoc. }
  destruct (response_run_end q4 r4 (update (fun x => stored kvs (rsp_setReason (rsp_setStatus
        (rsp_setVersion x v) z) s)) d) (len (start ++ H)) tail Hq4) as (r5 & Hend & B5 & C5 & N5).
  assert (K : keeps (existsb chunk_header kvs) r r4)
    by (apply (keeps_trans false _ _ r3); [by destruct r|exact K4]).
  destruct K as (Kc & Kn & _).
  assert (El : len head = len (start ++ H) + 2).
  { rewrite <- (string_app_nil head), Eh, <- string_app_assoc, (string_length_app (start ++ H)).
    change (String.length (CRLF ++ "")) with 2%nat. clear. lia. }
  exists r5. rewrite El. split; [|split_and!; [exact B5|congruence|congruence]].
  rewrite <- Hend. unfold exec.
  assert (M : moves 1 (len "") (r, d) (start ++ H) q4
    (r4, update (fun x => stored kvs (rsp_setReason (rsp_setStatus (rsp_setVersion x v) z) s)) d)).
  { eapply moves_seq; [|exact M4]. eapply moves_seq; [exact M1|].
    eapply moves_seq; [exact M2|exact M3]. }
  specialize (M (CRLF ++ tail)). rewrite Eh, <- (string_app_assoc start). exact M.
Qed.
End RoundTrip.

(** ** Received responses *)

Definition shown_reason (r : HttpResponse) : string :=
  if decide (r_reason r = "") then HttpStatusToString (r_status r) else r_reason r.

Definition sendable (r : HttpResponse) : Prop :=
  (r_version r = 16 \/ r_version r = 17) /\ 0 <= r_status r < 2 ^ 31 /\
  chars line_char (r_reason r) = true /\
  forall k v, (k, v) ∈ r_headers r ->
    k <> "" /\ chars tchar k = true /\ chars value_char v = true /\ header_ok (k, v).

(** What the parser makes of a head on top of the response [x]. *)
Definition receive (r x : HttpResponse) : HttpResponse :=
  stored (response_headers r)
    (rsp_setReason (rsp_setStatus (rsp_setVersion x (r_version r)) (r_status r)) (shown_reason r)).

(** [received r]: the response a fresh parser makes of [r]. *)
Definition received (r : HttpResponse) : HttpResponse := receive r (HttpResponse_new 17 true).

(** The head [toString] prints, without the body. *)
Definition head_text (r : HttpResponse) : string :=
  render (status_line r :: (header_line ": " <$> printed (r_headers r))
    ++ header_line ": " ("connection", connection_value (r_close r))
    :: (header_line ": " <$> length_header (r_body r))) "".

Local Abbreviation map_ordered := (ordered CaseInsensitiLess fst).
Local Abbreviation map_value := (value CaseInsensitiLess).

Lemma response_text_split r : HttpResponse_toString r = head_text r ++ r_body r.
Proof. rewrite response_render. unfold head_text. by rewrite render_app. Qed.

Lemma status_reason z : HttpStatusToString z <> "" /\ chars line_char (HttpStatusToString z) = true.
Proof.
  unfold HttpStatusToString. destruct (list_find _ _) as [[i [z' msg]]|] eqn:E; [|done].
  apply list_find_Some in E as (E & _ & _). apply list_elem_of_lookup_2, list_elem_of_In in E.
  assert (H : forallb (fun e : Z * string => bool_decide (e.2 <> "") && chars line_char e.2)
    status_map = true) by by vm_compute.
  rewrite forallb_forall in H. specialize (H _ E). simpl in H.
  apply andb_true_iff in H as [H1%bool_decide_eq_true H2]. done.
Qed.

Lemma shown_reason_ok r :
  chars line_char (r_reason r) = true -> shown_reason r <> "" /\ chars line_char (shown_reason r) = true.
Proof. intros H. unfold shown_reason. case_decide; [apply status_reason|done]. Qed.

Lemma plain_decimal k z :
  fold_case k <> fold_case "transfer-encoding" -> 0 <= z -> plain (k, decimal z).
Proof.
  intros Hk Hz. unfold plain. simpl. rewrite skip_blanks_decimal.
  assert (Hpz : decimal z = pretty (Z.to_N z)) by (destruct z; [done|done|lia]).
  destruct (pretty_head (Z.to_N z)) as (c & s & E & Hc). rewrite Hpz, E.
  split; [done|]. split; [done|]. unfold isspace. lia.
Qed.

Lemma response_sends r :
  sendable r ->
  Forall2 (fun l kv => sends l kv /\ header_ok kv) ((header_line ": " <$> printed (r_headers r))
    ++ header_line ": " ("connection", connection_value (r_close r))
    :: (header_line ": " <$> length_header (r_body r))) (response_headers r).
Proof.
  intros (_ & _ & _ & Hh). unfold response_headers. apply Forall2_app; [|constructor].
  - assert (Hp : forall kv, kv ∈ printed (r_headers r) -> kv ∈ r_headers r)
      by by intros kv [_ H]%list_elem_of_filter.
    revert Hp. generalize (printed (r_headers r)). intros l.
    induction l as [|[k v] l IH]; intros Hp; [constructor|].
    constructor; [|apply IH; intros kv ?; apply Hp; by right].
    destruct (Hh k v) as (? & ? & ? & ?); [apply Hp; by left|].
    split; [by apply sends_header; [right|..]|done].
  - split; [apply sends_header; [by right|done|done|by destruct (r_close r)]|].
    left. unfold plain, keyword. simpl. destruct (r_close r); by split_and!.
  - unfold length_header. case_decide; [constructor|]. constructor; [|constructor].
    split; [apply sends_header; [by right|done|done|apply decimal_value_char]|].
    left. apply plain_decimal; [done|lia].
Qed.

Lemma stored_fields kvs x :
  r_headers (stored kvs x) = foldl (fun m kv => assign m kv.1 (skip_blanks kv.2)) (r_headers x) kvs /\
  r_status (stored kvs x) = r_status x /\ r_version (stored kvs x) = r_version x /\
  r_reason (stored kvs x) = r_reason x /\ r_body (stored kvs x) = r_body x /\
  r_close (stored kvs x) = r_close x.
Proof.
  unfold stored. revert x. induction kvs as [|kv kvs IH]; intros x; [done|]. cbn [foldl].
  destruct (IH (rsp_setHeader x kv.1 (skip_blanks kv.2))) as (-> & -> & -> & -> & -> & ->).
  by destruct x.
Qed.

Lemma response_received_fields r :
  let x := received r in
  r_status x = r_status r /\ r_version x = r_version r /\ r_reason x = shown_reason r /\
  r_body x = "" /\ r_close x = true.
Proof.
  intros x. subst x. unfold received, receive.
  match goal with |- context [stored ?k ?y] => destruct (stored_fields k y) as (_ & -> & -> & -> & -> & ->) end.
  done.
Qed.

Lemma response_received_header r key :
  map_ordered (r_headers r) ->
  map_value key (r_headers (received r)) =
    if decide (r_body r <> "" /\ fold_case key = fold_case "content-length")
    then Some (skip_blanks (decimal (Z.of_nat (String.length (r_body r)))))
    else if decide (fold_case key = fold_case "connection")
    then Some (skip_blanks (connection_value (r_close r)))
    else skip_blanks <$> map_value key (r_headers r).
Proof.
  intros Hm. unfold received, receive.
  match goal with |- context [stored ?k ?y] => destruct (stored_fields k y) as (-> & _) end.
  rewrite received_value by constructor.
  change (map_value key _) with (@None string) at 1. unfold response_headers, last_value.
  rewrite foldl_app. cbn [foldl fst snd]. fold (last_value key).
  pose proof (last_value_map key (r_headers r) Hm) as Hp. unfold last_value in Hp. rewrite Hp.
  unfold length_header.
  destruct (decide (r_body r = "")) as [Hb|Hb]; cbn [foldl fst snd];
    repeat case_decide; try done; naive_solver.
Qed.

Lemma get_app s c t : String.get (String.length s) (s ++ String c t) = Some c.
Proof. induction s; simpl; auto. Qed.

(** [execute] on the head of a response and what came with it. *)
Lemma execute_response garbage r (tail beyond : string) :
  sendable r ->
  let buffer := head_text r ++ tail ++ String (Ascii.ascii_of_nat 0) beyond in
  let n := String.length (head_text r ++ tail) in
  len buffer < 2 ^ 31 ->
  exists c data, execute (HttpResponseParser_new garbage) buffer n false =
      Val (len (head_text r), (c, mkData (received r) 0), data) /\
    data = memmove_front buffer n (String.length (head_text r)) /\
    cs c = httpclient_parser_first_final /\
    chunked c = (if existsb chunk_header (response_headers r) then 1 else 0).
Proof.
  intros Hr buffer n Hlen. pose proof (response_sends r Hr) as Hs.
  destruct Hr as (Hv & Hz & Hreason & _).
  destruct (shown_reason_ok r Hreason) as [Hne Hline].
  set (r0 := httpclient_parser_init garbage).
  assert (Hn : len buffer = Z.of_nat n + 1 + len beyond).
  { unfold buffer, n. rewrite !string_length_app. simpl String.length. lia. }
  set (lines := ((header_line ": " <$> printed (r_headers r))
    ++ header_line ": " ("connection", connection_value (r_close r))
    :: (header_line ": " <$> length_header (r_body r)))%list) in *.
  assert (Eh : head_text r = render (("HTTP/" ++ version_string (r_version r) ++ " " ++
      decimal (r_status r) ++ " " ++ shown_reason r) :: lines) "").
  { unfold head_text, status_line. rewrite wrap_small; [done|]. unfold in_u. lia. }
  destruct (run_head buffer Hlen (Z.of_nat n) lines (response_headers r) (r_version r) (r_status r)
    (shown_reason r) (reset_marks r0) (mkData (HttpResponse_new 17 true) 0) tail
    (tail ++ String (Ascii.ascii_of_nat 0) beyond)) as (r1 & E & B & C & N); try done.
  { by rewrite <- Eh. }
  rewrite <- Eh in E, B.
  eexists _, _. split; [|split; [reflexivity|split]].
  - unfold execute. cbv iota zeta beta.
    change (HttpResponseParser_new garbage) with (r0, mkData (HttpResponse_new 17 true) 0).
    rewrite (client_execute_exec response_callbacks buffer n r0 (mkData (HttpResponse_new 17 true) 0)
      120 (len (head_text r)) r1 (mkData (received r) 0) (Ascii.ascii_of_nat 0)).
    + cbn [mbind res_bind mret res_ret]. rewrite Nat2Z.id. reflexivity.
    + unfold buffer, n. rewrite <- string_app_assoc. apply get_app.
    + reflexivity.
    + lia.
    + unfold buffer at 2, n at 2. rewrite <- string_app_assoc, str_take_app. exact E.
    + rewrite N. reflexivity.
    + unfold n. rewrite string_length_app. lia.
    + rewrite B. unfold n. rewrite string_length_app. lia.
  - by destruct r1.
  - destruct r1. simpl in *. by rewrite C.
Qed.

(** C33: a response that arrives in one piece is read back by the generated parser.
    Take a response of version 1.0 or 1.1 with a non-negative status, a reason without
    line ends, and headers made of name and value characters, of which "connection" and
    "content-length" have a value, and "transfer-encoding", if it occurs, is "chunked".
    Whatever the memory of the parser and the buffer behind the text hold,
    [execute] on what [toString] prints consumes exactly the head, leaves the body at
    the front of the buffer and finishes without error; version, status and the reason
    shown are those that were sent, every header reads back as the value sent without
    leading blanks, and the parser is set to chunks exactly if they were announced. *)
Theorem parse_dumped_response garbage r beyond
    (Hr : sendable r) (Ho : map_ordered (r_headers r))
    (Hlen : len (HttpResponse_toString r ++ String (Ascii.ascii_of_nat 0) beyond) < 2 ^ 31) :
  exists P data,
    execute (HttpResponseParser_new garbage)
        (HttpResponse_toString r ++ String (Ascii.ascii_of_nat 0) beyond)
        (String.length (HttpResponse_toString r)) false =
      Val (len (HttpResponse_toString r) - len (r_body r), P, data) /\
    str_take (String.length (r_body r)) data = r_body r /\
    isFinished P = 1 /\ hasError P = false /\
    chunked P.1 = (if existsb chunk_header (response_headers r) then 1 else 0) /\
    let x := m_data P.2 in
    r_version x = r_version r /\ r_status x = r_status r /\ r_reason x = shown_reason r /\
    r_body x = "" /\
    forall key, map_value key (r_headers x) =
      if decide (r_body r <> "" /\ fold_case key = fold_case "content-length")
      then Some (skip_blanks (decimal (Z.of_nat (String.length (r_body r)))))
      else if decide (fold_case key = fold_case "connection")
      then Some (skip_blanks (connection_value (r_close r)))
      else skip_blanks <$> map_value key (r_headers r).
Proof.
  rewrite response_text_split in *. rewrite string_app_assoc in *.
  destruct (execute_response garbage r (r_body r) beyond Hr Hlen) as (c & data & E & Ed & Hc & Hk).
  replace (len (head_text r ++ r_body r) - len (r_body r)) with (len (head_text r))
    by (rewrite string_length_app; lia).
  exists (c, mkData (received r) 0), data. split; [exact E|]. split.
  { rewrite Ed, <- string_app_assoc. apply memmove_rest. }
  unfold isFinished, hasError, httpclient_parser_finish, httpclient_parser_is_finished,
    httpclient_parser_has_error. cbn [fst snd m_error m_data]. rewrite Hc.
  destruct (response_received_fields r) as (H1 & H2 & H3 & H4 & _).
  split_and!; try done. intros key. by apply response_received_header.
Qed.

Definition demo_memory : httpclient_parser := mkParser 77 5 5 5 5 5 5 5 5 5 5.

Lemma demo_response_sendable : sendable demo_response.
Proof.
  split_and!; try (done || by vm_compute); [by right|].
  intros k v Hin. repeat (apply elem_of_cons in Hin as [[= -> ->]|Hin]);
    try (by apply not_elem_of_nil in Hin); split_and!; try done; left; unfold plain; by split_and!.
Qed.

Lemma parse_dumped_response_witness :
  exists P data,
    execute (HttpResponseParser_new demo_memory)
        (HttpResponse_toString demo_response ++ String (Ascii.ascii_of_nat 0) "junk")
        (String.length (HttpResponse_toString demo_response)) false =
      Val (len (HttpResponse_toString demo_response) - len (r_body demo_response), P, data) /\
    isFinished P = 1 /\ hasError P = false /\ chunked P.1 = 0 /\
    r_status (m_data P.2) = r_status demo_response.
Proof.
  destruct (parse_dumped_response demo_memory demo_response "junk" demo_response_sendable)
    as (P & data & E & _ & H1 & H2 & H3 & _ & H4 & _).
  - vm_compute. repeat constructor.
  - vm_compute. reflexivity.
  - exists P, data. split; [exact E|]. split; [exact H1|]. split; [exact H2|]. split; [exact H3|exact H4].
Defined.

(** an empty "content-length" is not delimited. Behind it, a line that begins with a
    digit makes the parser take the length of "content-length" for that of the new name:
    the stored header name runs on into the memory behind the received bytes, whatever
    it holds. And if the empty line follows, the parser stops in a final state that
    [isFinished] does not know: the head is consumed, and the caller reads on. *)
Theorem empty_length_value garbage leak (Hleak : String.length leak = 10%nat) :
  let head := "HTTP/1.1 200 OK" ++ CRLF ++ "content-length:" in
  let behind := String (Ascii.ascii_of_nat 0) leak in
  (exists P data,
     execute (HttpResponseParser_new garbage)
       (head ++ String LF ("5" ++ CRLF) ++ behind) 36 false = Val (36, P, data) /\
     hasError P = false /\ ("5" ++ CRLF ++ behind, "5") ∈ r_headers (m_data P.2)) /\
  (exists P data,
     execute (HttpResponseParser_new garbage) (head ++ CRLF ++ CRLF ++ behind) 36 false =
       Val (36, P, data) /\
     hasError P = false /\ isFinished P = 0).
Proof.
  do 10 (destruct leak as [|? leak]; [done|]). destruct leak; [|done]. destruct garbage.
  split; eexists _, _; (split; [vm_compute; reflexivity|]).
  - split; [reflexivity|]. vm_compute. repeat constructor.
  - split; reflexivity.
Qed.

Lemma empty_length_value_witness :
  exists P data, execute (HttpResponseParser_new demo_memory)
      ("HTTP/1.1 200 OK" ++ CRLF ++ "content-length:" ++ String LF ("5" ++ CRLF) ++
       String (Ascii.ascii_of_nat 0) "top secret") 36 false = Val (36, P, data) /\
    hasError P = false /\
    ("5" ++ CRLF ++ String (Ascii.ascii_of_nat 0) "top secret", "5") ∈ r_headers (m_data P.2).
Proof. exact (proj1 (empty_length_value demo_memory "top secret" eq_refl)). Defined.

(** ** The first line of a chunk *)

Definition hex_value (h : string) : Z := digits 16 0 h.

Lemma digits_hex a h t :
  chars xdigit h = true -> digits 16 a (h ++ CRLF ++ t) = digits 16 a h.
Proof.
  revert a. induction h as [|c h IH]; intros a Hh; [done|]. simpl in Hh.
  apply andb_true_iff in Hh as [Hc Hh]. simpl.
  destruct (digit_value 16 c) as [v|] eqn:E; [by apply IH|].
  pose proof (forall_chars (fun c => implb (xdigit c)
    match digit_value 16 c with Some _ => true | None => false end) ltac:(vm_compute; reflexivity) c) as H.
  cbv beta in H. by rewrite Hc, E in H.
Qed.

Lemma strtol_hex h t :
  h <> "" -> chars xdigit h = true -> 0 <= hex_value h < 2 ^ 31 ->
  s32 (strtol (h ++ CRLF ++ t) 16) = hex_value h.
Proof.
  intros Hne Hh Hv. unfold hex_value in *. pose proof (digits_hex 0 h t Hh) as E.
  destruct h as [|c h]; [done|]. simpl in Hh. apply andb_true_iff in Hh as [Hc _].
  pose proof (forall_chars (fun c => implb (xdigit c) (negb (isspace c) && negb (code c =? 45)
    && negb (code c =? 43))) ltac:(vm_compute; reflexivity) c) as H. cbv beta in H.
  rewrite Hc in H. simpl in H. rewrite !andb_true_iff, !negb_true_iff in H.
  destruct H as [[H1 H2] H3]. change (String c h ++ CRLF ++ t) with (String c (h ++ CRLF ++ t)) in *.
  unfold strtol. cbn [skip_space]. rewrite H1, H2, H3, E, swrap_small; [lia|done|].
  unfold in_s. lia.
Qed.

(** [execute] in the mode for chunks. *)
Lemma execute_chunk P h rest beyond :
  h <> "" -> chars xdigit h = true -> 0 <= hex_value h < 2 ^ 31 ->
  let buffer := h ++ CRLF ++ rest ++ String (Ascii.ascii_of_nat 0) beyond in
  let n := String.length (h ++ CRLF ++ rest) in
  len buffer < 2 ^ 31 ->
  exists c, execute P buffer n true =
      Val (len (h ++ CRLF), (c, if hex_value h <=? 0 then P.2 else update (fun r => rsp_setReason r h) P.2),
        memmove_front buffer n (String.length (h ++ CRLF))) /\
    cs c = httpclient_parser_first_final /\ content_len c = hex_value h /\
    chunks_done c = (if hex_value h <=? 0 then 1 else 0).
Proof.
  intros Hne Hh Hv buffer n Hlen.
  set (r0 := reset_marks (httpclient_parser_init P.1)).
  set (r1 := set_mark 0 r0). set (d := if hex_value h <=? 0 then _ else _).
  set (r2 := set_chunks_done (if hex_value h <=? 0 then 1 else 0)
    (set_content_len (hex_value h) (set_chunked 1 r1))).
  assert (Hm : mark r1 = 0) by by destruct P as [[] ?].
  destruct (token buffer "" h (CRLF ++ rest ++ String (Ascii.ascii_of_nat 0) beyond) Hlen eq_refl)
    as (T1 & T2 & T3). change (len "") with 0 in *. rewrite Z.add_0_l in T2.
  assert (Hn : len buffer = Z.of_nat n + 1 + len beyond).
  { unfold buffer, n. rewrite !string_length_app. simpl String.length. lia. }
  assert (Hact : act response_callbacks buffer (Z.of_nat n) ChunkSize (len h) (r1, P.2) = Val (r2, d)).
  { cbn [act]. unfold chunk_size_action. rewrite Hm, T1, (strtol_hex h _ Hne Hh Hv). fold r2.
    replace (mark r2) with 0 by (unfold r2; by destruct P as [[] ?]). rewrite T1, T2.
    unfold d. cbn [last_chunk chunk_size response_callbacks].
    destruct (hex_value h <=? 0); [done|]. unfold element, on_response_chunk.
    rewrite <- T1, T3. done. }
  assert (M : moves dispatch fallthrough (act response_callbacks buffer (Z.of_nat n)) 1 0 (r0, P.2)
    (h ++ String CR "") 3 (r2, d)).
  { eapply moves_app with (q1 := 2) (s1 := (r1, P.2)).
    - destruct h as [|c h]; [done|]. simpl in Hh. apply andb_true_iff in Hh as [Hc Hh].
      eapply (moves_cons _ _ _ _ _ _ _ tr0); [|done|done|reflexivity|].
      + by eapply (on_class_spec xdigit); [vm_compute; reflexivity|].
      + apply (moves_class _ _ _ xdigit); [|done|exact Hh].
        intros e He. by eapply (on_class_spec xdigit); [vm_compute; reflexivity|].
    - eapply (moves_cons _ _ _ _ _ _ _ tr4); [reflexivity|done|done| |apply moves_nil].
      cbn [acts tr4 tr do_acts]. rewrite Z.add_0_l. by rewrite Hact. }
  exists (set_nread (len h + 2) (set_cs 120 (set_body_start (len h + 2) r2))).
  assert (El : len (h ++ CRLF) = len h + 2) by (rewrite string_length_app; simpl; lia).
  assert (Ef : 0 <= len h /\ len h + 2 <= Z.of_nat n).
  { unfold n. rewrite !string_length_app. simpl. lia. }
  assert (Eb : buffer = (h ++ CRLF ++ rest) ++ String (Ascii.ascii_of_nat 0) beyond)
    by (unfold buffer; by rewrite !string_app_assoc).
  split; [|destruct P as [[] ?]; split_and!; reflexivity].
  unfold execute. cbv iota zeta beta. cbn [snd].
  rewrite (client_execute_exec response_callbacks buffer n (httpclient_parser_init P.1) P.2 120
    (len h + 2) (set_body_start (len h + 2) r2) d (Ascii.ascii_of_nat 0)).
  - cbn [mbind res_bind mret res_ret]. rewrite El. do 3 f_equal.
    unfold memmove_front. do 2 f_equal; rewrite string_length_app; change (String.length CRLF) with 2%nat;
      f_equal; lia.
  - rewrite Eb. apply get_app.
  - reflexivity.
  - lia.
  - replace (str_take n buffer) with ((h ++ String CR "") ++ String LF rest).
    + unfold exec. change (cs (httpclient_parser_init P.1)) with 1. fold r0. rewrite M.
      rewrite (run_break _ _ _ _ _ _ _ tr7) by reflexivity.
      rewrite string_length_app. change (String.length (String CR "")) with 1%nat.
      replace (0 + Z.of_nat (String.length h + 1)) with (len h + 1) by lia.
      replace (len h + 2) with (len h + 1 + 1) by lia. reflexivity.
    + rewrite Eb. unfold n. rewrite str_take_app. by rewrite string_app_assoc.
  - by destruct P as [[] ?].
  - lia.
  - transitivity (len h + 2); [by destruct P as [[] ?]|lia].
Qed.
