(* ===== verification/HttpConnection.v ===== *)
(** * Client connections (http/http_connection.h, .cpp)

    [HttpConnection::recvResponse], with a body of a known length or in chunks, and
    [sendRequest], over Channel.v. The theorems: a response whose length is announced is
    received however its body is cut, a response in chunks only if every read
    returns exactly one of them. *)
From stdpp Require Import base tactics option list strings pretty numbers.
From coqutil Require Import Byte.
From S2P Require Import Prelude OrdSet CString Http Headers Stream Channel Dfa ParserCommon ClientMachine HttpClientParser HttpResponseParser.

Open Scope string_scope.
Open Scope Z_scope.

#[local] Arguments String.append !_ _ : simpl nomatch.

Section Connection.
Context (lexical_cast : string -> option Z) (buff_size : Z).

(** [data[len] = '\0'] *)
Definition put_nul (data : string) (len : nat) : res string :=
  overwrite data len (String (Ascii.ascii_of_nat 0) "").

(** What [read] got behind the [len] bytes of [data] is parsed: the parser, the buffer and
    the number of bytes left, or [None] where the code returns [nullptr]. *)
Definition parse_more (P : HttpResponseParser) (data : string) (len : Z) (chunck : bool) :
    ST session (option (HttpResponseParser * string * Z)) :=
  r ← read_once;
  match r with
  | RError => mret None
  | RData d =>
      if decide (d = []) then mret None else
      data ← lift (overwrite data (Z.to_nat len) (string_of d));
      let len := s32 (Z.of_nat (length d) + len) in
      data ← lift (put_nul data (Z.to_nat len));
      '(nparser, P, data) ← lift (execute P data (Z.to_nat len) chunck);
      if hasError P then mret None else
      let len := s32 (len - nparser) in
      if len =? s32 buff_size then mret None else mret (Some (P, data, len))
  end.

(** The loop around it until [isFinished]: for the head ([chunck] is false) and for the
    first line of a chunk. The fuel bounds the reads. *)
Fixpoint parse_loop (fuel : nat) (P : HttpResponseParser) (data : string) (len : Z) (chunck : bool) :
    ST session (option (HttpResponseParser * string * Z)) :=
  match fuel with
  | O => crash NoFuel
  | S fuel =>
      r ← parse_more P data len chunck;
      match r with
      | Some (P, data, len) =>
          if negb (isFinished P =? 0) then mret (Some (P, data, len))
          else parse_loop fuel P data len chunck
      | None => mret None
      end
  end.

(** [while(left > 0)]: the rest of a chunk. *)
Fixpoint left_loop (fuel : nat) (data body : string) (left : Z) : ST session (option (string * string)) :=
  if left <=? 0 then mret (Some (data, body)) else
  match fuel with
  | O => crash NoFuel
  | S fuel =>
      r ← read_once;
      match r with
      | RError => mret None
      | RData d =>
          if decide (d = []) then mret None else
          data ← lift (overwrite data 0 (string_of d));
          left_loop fuel data (body ++ string_of d) (s32 (left - Z.of_nat (length d)))
      end
  end.

(** From [len -= 2] to the end of the loop's body: the buffer, the bytes left in it, and
    [body]; [content_len] is a parameter. A negative number of bytes is converted to
    [size_t] by [append]. *)
Definition chunk_data (fuel : nat) (content_len : Z) (data body : string) (len : Z) :
    ST session (option (string * Z * string)) :=
  let len := s32 (len - 2) in
  if content_len <=? len then
    piece ← lift (std_string data (u64 content_len));
    mret (Some (memmove_front data (Z.to_nat len) (Z.to_nat content_len), s32 (len - content_len),
      body ++ piece))
  else
    piece ← lift (std_string data (u64 len));
    r ← left_loop fuel data (body ++ piece) (s32 (content_len - len));
    mret ('(data, body) ← r; Some (data, 0, body)).

(** [do ... while(!client_parser.chunks_done)] *)
Fixpoint chunk_loop (fuel : nat) (P : HttpResponseParser) (data body : string) (len : Z) :
    ST session (option (HttpResponseParser * string)) :=
  match fuel with
  | O => crash NoFuel
  | S fuel =>
      n ← gets (fun s => length (reads s));
      r ← parse_loop (S n) P data len true;
      match r with
      | Some (P, data, len) =>
          n ← gets (fun s => length (reads s));
          r ← chunk_data n (content_len P.1) data body len;
          match r with
          | Some (data, len, body) =>
              if negb (chunks_done P.1 =? 0) then mret (Some (P, body))
              else chunk_loop fuel P data body len
          | None => mret None
          end
      | None => mret None
      end
  end.

(** [recvResponse()]: [garbage] and [buffer] are what the new parser and the new buffer
    of [buff_size + 1] bytes held. *)
Definition recvResponse (garbage : httpclient_parser) (buffer : string) :
    ST session (option HttpResponse) :=
  n ← gets (fun s => length (reads s));
  r ← parse_loop (S n) (HttpResponseParser_new garbage) buffer 0 false;
  match r with
  | Some (P, data, offset) =>
      if negb (chunked P.1 =? 0) then
        r ← chunk_loop (S n) P data "" offset;
        mret ('(P, body) ← r; Some (rsp_setBody (m_data P.2) body))
      else
        r ← recv_body (s64 (getContentLength lexical_cast P)) data offset;
        mret (b ← r; Some (match b with Some b => rsp_setBody (m_data P.2) b | None => m_data P.2 end))
  | None => mret None
  end.

(** [writeFixSize(data.c_str(), data.size())] *)
Definition send_text (data : string) : ST session Z := fun s =>
  (writeFixSize (Z.of_nat (String.length data)) (default [] (head (sends s))),
   mkSession (reads s) (tail (sends s)) (sent s ++ [data]) (is_open s)).

(** [sendRequest(req)] *)
Definition sendRequest (req : HttpRequest) : ST session Z :=
  data ← lift (HttpRequest_toString req); send_text data.
End Connection.

(** ** Lemmas *)

Local Abbreviation len s := (Z.of_nat (String.length s)).
Local Abbreviation NUL := (Ascii.ascii_of_nat 0).

Lemma overwrite_middle a d e b :
  String.length d = String.length e ->
  overwrite (a ++ d ++ b) (String.length a) e = Val (a ++ e ++ b).
Proof.
  intros H. unfold overwrite. rewrite (proj2 (Nat.ltb_ge _ _)) by (rewrite !string_length_app; lia).
  rewrite str_take_app. replace (a ++ d ++ b) with ((a ++ d) ++ b) by apply string_app_assoc.
  by rewrite <- H, <- string_length_app, str_drop_app.
Qed.

Lemma str_split n s : (n <= String.length s)%nat -> s = str_take n s ++ str_drop n s.
Proof.
  revert s. induction n as [|n IH]; intros s H; [done|]. destruct s as [|c s]; [simpl in H; lia|].
  simpl. by rewrite <- IH by (simpl in H; lia).
Qed.

(** What is read into an empty buffer, and the NUL behind it. *)
Lemma read_nul data d :
  (String.length d < String.length data)%nat ->
  exists beyond, overwrite data 0 d = Val (d ++ str_drop (String.length d) data) /\
    put_nul (d ++ str_drop (String.length d) data) (String.length d) =
      Val (d ++ String NUL beyond) /\
    String.length (d ++ String NUL beyond) = String.length data.
Proof.
  intros H. pose proof (str_split (String.length d) data ltac:(lia)) as E.
  pose proof (str_drop_length (String.length d) data) as Hl.
  destruct (str_drop (String.length d) data) as [|c beyond] eqn:Ed; [simpl in Hl; lia|].
  exists beyond. split; [rewrite overwrite_front by lia; by rewrite Ed|]. split.
  - exact (overwrite_middle d (String c "") (String NUL "") beyond eq_refl).
  - rewrite string_length_app. simpl in *. lia.
Qed.

Lemma memmove_front_length data n k :
  (k <= n)%nat -> (n <= String.length data)%nat ->
  String.length (memmove_front data n k) = String.length data.
Proof.
  intros Hk Hn. unfold memmove_front.
  rewrite string_length_app, !str_drop_length, str_take_length by done. lia.
Qed.

Section Proofs.
Context (lexical_cast : string -> option Z) (buff_size : Z).
Context (Hbuff : 0 < buff_size < 2 ^ 31 - 1).

(** A round on an empty buffer, in terms of [execute]. *)
Lemma parse_more_empty P data d rs s chunck :
  len data = buff_size + 1 -> d <> "" -> len d <= buff_size -> reads s = RData (bytes_of d) :: rs ->
  exists beyond, len (d ++ String NUL beyond) = buff_size + 1 /\
    forall n P' data',
      execute P (d ++ String NUL beyond) (String.length d) chunck = Val (n, P', data') ->
      hasError P' = false -> 0 < n <= len d ->
      parse_more buff_size P data 0 chunck s = (Val (Some (P', data', len d - n)), set_reads rs s).
Proof.
  intros Hdata Hne Hd Hr. destruct (read_nul data d ltac:(lia)) as (beyond & E1 & E2 & E3).
  exists beyond. split; [by rewrite E3|]. intros n P' data' E He Hn.
  unfold parse_more.
  assert (Hro : read_once s = (Val (RData (bytes_of d)), set_reads rs s))
    by (unfold read_once; by rewrite Hr).
  rewrite (st_bind_val _ _ _ _ _ Hro).
  rewrite decide_False by (intros H; apply (f_equal length) in H; rewrite bytes_of_length in H;
    destruct d; done).
  rewrite string_of_bytes, bytes_of_length, Z.add_0_r. change (Z.to_nat 0) with 0%nat.
  rewrite (lift_bind _ _ _ _ E1). cbv beta iota zeta.
  rewrite (swrap_small 32 (len d)), Nat2Z.id by (unfold in_s; lia).
  rewrite (lift_bind _ _ _ _ E2), (lift_bind _ _ _ _ E). cbv beta iota zeta. rewrite He.
  rewrite swrap_small, (swrap_small 32 buff_size) by (unfold in_s; lia).
  by rewrite (proj2 (Z.eqb_neq _ _)) by lia.
Qed.

Lemma parse_loop_once fuel P data len chunck s P' data' len' s' :
  parse_more buff_size P data len chunck s = (Val (Some (P', data', len')), s') ->
  isFinished P' = 1 ->
  parse_loop buff_size (S fuel) P data len chunck s = (Val (Some (P', data', len')), s').
Proof. intros E Hf. cbn [parse_loop]. rewrite (st_bind_val _ _ _ _ _ E). by rewrite Hf. Qed.

Lemma finished_spec (c : httpclient_parser) d :
  cs c = httpclient_parser_first_final ->
  isFinished (c, mkData d 0) = 1 /\ hasError (c, mkData d 0) = false.
Proof.
  intros H. unfold isFinished, hasError, httpclient_parser_finish, httpclient_parser_is_finished,
    httpclient_parser_has_error. cbn [fst snd m_error]. by rewrite H.
Qed.

(** The head of a response and [tail] come with one read. *)
Lemma parse_head fuel garbage buffer r tail rs s :
  len buffer = buff_size + 1 -> sendable r -> len (head_text r ++ tail) <= buff_size ->
  reads s = RData (bytes_of (head_text r ++ tail)) :: rs ->
  exists c data,
    parse_loop buff_size (S fuel) (HttpResponseParser_new garbage) buffer 0 false s =
      (Val (Some ((c, mkData (received r) 0), data, len tail)), set_reads rs s) /\
    str_take (String.length tail) data = tail /\ len data = buff_size + 1 /\
    chunked c = if existsb chunk_header (response_headers r) then 1 else 0.
Proof.
  intros Hb Hr Hl Hrs.
  assert (Hhead : 0 < len (head_text r)).
  { unfold head_text. cbn [render]. rewrite string_length_app. change (String.length CRLF) with 2%nat.
    rewrite string_length_app. simpl. lia. }
  assert (Htl : len (head_text r ++ tail) = len (head_text r) + len tail)
    by (rewrite string_length_app; lia).
  destruct (parse_more_empty (HttpResponseParser_new garbage) buffer (head_text r ++ tail) rs s false Hb)
    as (beyond & Hbl & Hstep); [intros E; rewrite E in Htl; simpl in Htl; lia|done|done|].
  rewrite string_app_assoc in Hstep, Hbl.
  destruct (execute_response garbage r tail beyond Hr ltac:(lia)) as (c & data & E & Ed & Hc & Hk).
  destruct (finished_spec c (received r) Hc) as [Hf He].
  exists c, data. split; [|split_and!].
  - apply parse_loop_once; [|done]. rewrite (Hstep _ _ _ E He ltac:(lia)). rewrite Htl. do 4 f_equal. lia.
  - rewrite Ed, <- string_app_assoc. apply memmove_rest.
  - rewrite Ed, memmove_front_length; [done|rewrite string_length_app; lia|].
    rewrite !string_length_app in *. simpl. lia.
  - done.
Qed.

(** *** A body whose length is announced *)

Context (Hcast : forall n, 0 <= n < 2 ^ 64 -> lexical_cast (decimal n) = Some n).

(** The response has a length header only if it has a body, no header that announces
    chunks, and its headers are a map. *)
Definition framed (r : HttpResponse) : Prop :=
  ordered CaseInsensitiLess fst (r_headers r) /\
  existsb chunk_header (r_headers r) = false /\
  (r_body r = "" -> value CaseInsensitiLess "content-length" (r_headers r) = None).

Lemma response_length c r e :
  framed r -> len (r_body r) < 2 ^ 31 ->
  getContentLength lexical_cast (c, mkData (received r) e) = len (r_body r).
Proof.
  clear Hbuff. intros (Ho & _ & Hno) Hl. apply announced_length; [done|lia|].
  cbn [snd m_data]. rewrite response_received_header by done. destruct (decide (r_body r = "")) as [Hb|Hb].
  - rewrite decide_False by naive_solver. rewrite decide_False by (by vm_compute).
    by rewrite Hno.
  - by rewrite decide_True.
Qed.

Lemma no_chunk_header r :
  existsb chunk_header (r_headers r) = false -> existsb chunk_header (response_headers r) = false.
Proof.
  intros H. unfold response_headers. rewrite existsb_app. apply orb_false_iff. split.
  - apply not_true_iff_false. rewrite existsb_exists. intros (kv & Hin & Hkv).
    apply not_true_iff_false in H. apply H, existsb_exists. exists kv. split; [|done].
    apply list_elem_of_In in Hin. apply list_elem_of_In. by apply list_elem_of_filter in Hin as [_ ?].
  - unfold length_header. simpl. by case_decide.
Qed.
End Proofs.

(** C34: a response of an announced length arrives complete. Its text comes in any number
    of reads, of which the first holds the head and perhaps some of what follows, none of
    them empty and none of the later ones reaching beyond the body; then [recvResponse]
    returns what the parser reads from the head, with exactly the body that was sent. *)
Theorem recv_sent_response lexical_cast buff_size garbage buffer r tail b1 chunks rs s
    (Hbuff : 0 < buff_size < 2 ^ 31 - 1) (Hbuffer : len buffer = buff_size + 1)
    (Hcast : forall n, 0 <= n < 2 ^ 64 -> lexical_cast (decimal n) = Some n)
    (Hr : sendable r) (Hf : framed r) (Hbody : len (r_body r) < 2 ^ 31)
    (Hfit : len (head_text r ++ tail) <= buff_size)
    (Htail : exists extra, tail = b1 ++ extra) (Hmore : chunks <> [] -> tail = b1)
    (Hb : r_body r = b1 ++ string_of (concat chunks)) (Hne : Forall (fun d => d <> []) chunks)
    (Hreads : reads s =
      (RData (bytes_of (head_text r ++ tail)) :: (RData <$> chunks) ++ rs)%list) :
  recvResponse lexical_cast buff_size garbage buffer s =
    (Val (Some (rsp_setBody (received r) (r_body r))), set_reads rs s).
Proof.
  destruct (parse_head buff_size Hbuff (length (reads s)) garbage buffer r tail _ s Hbuffer Hr Hfit
    Hreads) as (c & data & E & Hd & _ & Hk).
  unfold recvResponse. rewrite gets_bind, (st_bind_val _ _ _ _ _ E). cbn [fst snd].
  rewrite Hk, (no_chunk_header r (proj1 (proj2 Hf))). change (negb (0 =? 0)) with false. cbv iota.
  rewrite (response_length lexical_cast Hcast c r 0 Hf Hbody), swrap_small by (unfold in_s; lia).
  rewrite (st_bind_val _ _ _ _ _ (recv_body_ok (r_body r) data tail b1 chunks rs
    (set_reads ((RData <$> chunks) ++ rs)%list s) Hbody Hd Htail Hmore Hb Hne eq_refl)).
  cbn [m_data snd]. destruct (response_received_fields r) as (_ & _ & _ & H & _).
  case_decide as Eb; [|done]. cbn [mbind option_bind mret]. rewrite Eb.
  destruct (received r). simpl in *. by rewrite H.
Qed.

(** ** Chunks *)

(** How a chunk of a body comes: with one read, or the line with its size [h] and the
    first part [d1] of the data with one read, the rest [d2] and the end of the line with
    the reads [pieces]. *)
Inductive chunk :=
  | Whole (h d : string)
  | Cut (h d1 d2 : string) (pieces : list (list byte)).

Definition size_text (c : chunk) : string := match c with Whole h _ | Cut h _ _ _ => h end.
Definition chunk_reads (c : chunk) : list read_result :=
  match c with
  | Whole h d => [RData (bytes_of (h ++ CRLF ++ d ++ CRLF))]
  | Cut h d1 _ pieces => RData (bytes_of (h ++ CRLF ++ d1)) :: (RData <$> pieces)
  end.

(** What [recvResponse] appends to the body for the chunk. *)
Definition chunk_got (c : chunk) : string :=
  match c with
  | Whole _ d => d
  | Cut _ d1 d2 _ => str_take (String.length d1 - 2) d1 ++ d2 ++ CRLF
  end.

Definition size_ok (h : string) (n : Z) : Prop :=
  h <> "" /\ chars xdigit h = true /\ hex_value h = n.

(** The chunk is well formed and fits into the buffer. A chunk that came whole came alone in
    its read, with the line of its size and the end of the line behind its data. The first read
    of a chunk that was cut has the whole line of the size and at least two bytes of the data,
    and ends in front of the end of the line behind them; the pieces that follow end with that
    line's end. Other cuts (inside the line of the size, inside the end of the line, a first read with fewer than two
    bytes of data) take other ways through the loop and are not covered here. *)
Definition chunk_ok (buff_size : Z) (c : chunk) : Prop :=
  match c with
  | Whole h d => size_ok h (len d) /\ d <> "" /\ len (h ++ CRLF ++ d ++ CRLF) <= buff_size
  | Cut h d1 d2 pieces =>
      size_ok h (len d1 + len d2) /\ len d1 + len d2 < 2 ^ 31 /\ 2 <= len d1 /\
      len (h ++ CRLF ++ d1) <= buff_size /\ string_of (concat pieces) = d2 ++ CRLF /\
      Forall (fun d => d <> [] /\ Z.of_nat (length d) <= buff_size) pieces
  end.

Fixpoint joined (cs : list chunk) : string :=
  match cs with [] => "" | c :: cs => chunk_got c ++ joined cs end.

(** The callback for a chunk stores the text of its size as the reason phrase. *)
Definition renamed (cs : list chunk) (x : HttpResponse) : HttpResponse :=
  fold_left (fun x c => rsp_setReason x (size_text c)) cs x.

Lemma string_of_app l1 l2 : string_of (l1 ++ l2)%list = string_of l1 ++ string_of l2.
Proof.
  rewrite <- (string_of_bytes (string_of l1 ++ _)), bytes_of_app. unfold bytes_of, string_of.
  by rewrite !String.list_byte_of_string_of_list_byte.
Qed.

Lemma left_loop_reads pieces fuel data body left rs s :
  Forall (fun d => d <> [] /\ (length d <= String.length data)%nat) pieces ->
  left = Z.of_nat (length (concat pieces)) -> left < 2 ^ 31 -> (length pieces <= fuel)%nat ->
  reads s = ((RData <$> pieces) ++ rs)%list ->
  exists data', String.length data' = String.length data /\
    left_loop fuel data body left s =
      (Val (Some (data', body ++ string_of (concat pieces))), set_reads rs s).
Proof.
  revert fuel data body left s.
  induction pieces as [|d pieces IH]; intros fuel data body left s Hp -> Hl Hf Hr.
  - exists data. split; [done|]. simpl concat. change (string_of []) with "". rewrite string_app_nil.
    destruct fuel; simpl; by (destruct s; simpl in Hr; subst).
  - apply list.Forall_cons in Hp as [[Hd Hdl] Hp]. destruct fuel as [|fuel]; [simpl in Hf; lia|].
    simpl concat in *. rewrite length_app in *. assert (length d <> 0)%nat by (by destruct d).
    cbn [left_loop]. rewrite (proj2 (Z.leb_gt _ _)) by lia.
    assert (Hro : read_once s = (Val (RData d), set_reads ((RData <$> pieces) ++ rs)%list s))
      by (unfold read_once; by rewrite Hr).
    rewrite (st_bind_val _ _ _ _ _ Hro), decide_False by done.
    rewrite (lift_bind _ _ _ _ (overwrite_front data (string_of d) ltac:(by rewrite string_of_length))).
    rewrite swrap_small by (unfold in_s; lia).
    set (data1 := string_of d ++ _).
    assert (Hd1 : String.length data1 = String.length data)
      by (unfold data1; rewrite string_length_app, str_drop_length, string_of_length by
            (rewrite string_of_length; lia); lia).
    destruct (IH fuel data1 (body ++ string_of d) (Z.of_nat (length d + length (concat pieces)) -
        Z.of_nat (length d)) (set_reads ((RData <$> pieces) ++ rs)%list s)) as (data' & H1 & H2);
      [by rewrite Hd1|lia|lia|simpl in Hf; lia|done|].
    exists data'. split; [by rewrite H1|]. rewrite H2, string_of_app, string_app_assoc. done.
Qed.

Section Chunks.
Context (buff_size : Z) (Hbuff : 0 < buff_size < 2 ^ 31 - 1).

(** The line [h] and [rest] come with one read. *)
Lemma parse_size fuel P x data h rest n rs s :
  len data = buff_size + 1 -> size_ok h n -> 0 <= n < 2 ^ 31 ->
  len (h ++ CRLF ++ rest) <= buff_size ->
  reads s = RData (bytes_of (h ++ CRLF ++ rest)) :: rs ->
  exists c data',
    parse_loop buff_size (S fuel) (P, mkData x 0) data 0 true s =
      (Val (Some ((c, mkData (if n <=? 0 then x else rsp_setReason x h) 0), data', len rest)),
       set_reads rs s) /\
    str_take (String.length rest) data' = rest /\ len data' = buff_size + 1 /\
    content_len c = n /\ chunks_done c = (if n <=? 0 then 1 else 0).
Proof.
  intros Hd (Hne & Hh & Hn) Hr Hl Hrs. subst n.
  assert (Hhl : 0 < len h) by (destruct h; [done|simpl; lia]).
  assert (Hlen : len (h ++ CRLF ++ rest) = len h + 2 + len rest)
    by (rewrite !string_length_app; simpl; lia).
  destruct (parse_more_empty buff_size Hbuff (P, mkData x 0) data (h ++ CRLF ++ rest) rs s true Hd)
    as (beyond & Hbl & Hstep); [by destruct h|done|done|].
  rewrite !string_app_assoc in Hstep, Hbl.
  destruct (execute_chunk (P, mkData x 0) h rest beyond Hne Hh Hr) as (c & E & Hc & H1 & H2);
    [rewrite Hbl; lia|].
  set (P' := (c, _)) in E.
  assert (EP : P' = (c, mkData (if hex_value h <=? 0 then x else rsp_setReason x h) 0))
    by (unfold P'; by destruct (hex_value h <=? 0)).
  rewrite EP in *. clearbody P'.
  match goal with |- context [mkData ?y 0] => destruct (finished_spec c y Hc) as [Hf He] end.
  assert (Hcr : len (h ++ CRLF) = len h + 2) by (rewrite string_length_app; simpl; lia).
  assert (Ea : h ++ CRLF ++ rest ++ String NUL beyond = ((h ++ CRLF) ++ rest) ++ String NUL beyond)
    by (by rewrite !string_app_assoc).
  eexists c, _. split_and!.
  - apply parse_loop_once; [|done]. rewrite (Hstep _ _ _ E He ltac:(lia)). do 4 f_equal. lia.
  - rewrite Ea, <- string_app_assoc. apply memmove_rest.
  - rewrite memmove_front_length; [done| |]; apply Nat2Z.inj_le; rewrite ?Hbl, ?Hlen, ?Hcr; lia.
  - done.
  - done.
Qed.
(** A buffer that begins with a whole chunk and the end of its line. *)
Lemma chunk_data_whole fuel data body d s :
  str_take (String.length (d ++ CRLF)) data = d ++ CRLF -> len data = buff_size + 1 ->
  len d + 2 <= buff_size ->
  exists data', chunk_data fuel (len d) data body (len (d ++ CRLF)) s =
    (Val (Some (data', 0, body ++ d)), s) /\ len data' = buff_size + 1.
Proof.
  intros Ht Hd Hl.
  assert (Hdl : len (d ++ CRLF) = len d + 2) by (rewrite string_length_app; simpl; lia).
  unfold chunk_data. rewrite Hdl, Z.add_simpl_r, swrap_small, Z.leb_refl by (unfold in_s; lia).
  rewrite wrap_small by (unfold in_u; lia). rewrite (lift_bind _ d).
  - eexists. rewrite Z.sub_diag. split; [reflexivity|]. rewrite memmove_front_length; lia.
  - unfold std_string. rewrite (proj2 (Z.leb_gt _ _)), (proj2 (Z.ltb_ge _ _)), Nat2Z.id by lia.
    f_equal. rewrite <- (str_take_take _ (String.length (d ++ CRLF))), Ht by lia. apply str_take_app.
Qed.

(** A buffer that holds the first part of a chunk: its last two bytes are dropped, and
    the end of the line counts for the chunk. *)
Lemma chunk_data_cut fuel data body d1 n pieces rs s :
  str_take (String.length d1) data = d1 -> len data = buff_size + 1 ->
  2 <= len d1 <= buff_size -> len d1 <= n < 2 ^ 31 ->
  Z.of_nat (length (concat pieces)) = n - len d1 + 2 -> n - len d1 + 2 < 2 ^ 31 ->
  Forall (fun d => d <> [] /\ Z.of_nat (length d) <= buff_size) pieces ->
  (length pieces <= fuel)%nat -> reads s = ((RData <$> pieces) ++ rs)%list ->
  exists data', chunk_data fuel n data body (len d1) s =
    (Val (Some (data', 0, body ++ str_take (String.length d1 - 2) d1 ++ string_of (concat pieces))),
     set_reads rs s) /\ len data' = buff_size + 1.
Proof.
  intros Ht Hd H1 Hn Hp Hl Hf Hfuel Hr. unfold chunk_data.
  rewrite swrap_small by (unfold in_s; lia). rewrite (proj2 (Z.leb_gt _ _)) by lia.
  rewrite (lift_bind _ (str_take (String.length d1 - 2) d1)).
  - destruct (left_loop_reads pieces fuel data (body ++ str_take (String.length d1 - 2) d1)
      (n - (len d1 - 2)) rs s) as (data' & Hd' & E); [|lia|lia|done|done|].
    { eapply list.Forall_impl; [exact Hf|]. cbv beta. intros d [? ?]. split; [done|lia]. }
    exists data'. split; [|lia]. rewrite swrap_small by (unfold in_s; lia).
    rewrite (st_bind_val _ _ _ _ _ E), string_app_assoc. done.
  - unfold std_string. rewrite wrap_small by (unfold in_u; lia).
    rewrite (proj2 (Z.leb_gt _ _)), (proj2 (Z.ltb_ge _ _)) by lia.
    replace (Z.to_nat (len d1 - 2)) with (String.length d1 - 2)%nat by lia.
    f_equal. by rewrite <- (str_take_take _ (String.length d1)), Ht by lia.
Qed.

(** One round of the loop. *)
Lemma chunk_loop_step fuel P x data body c rs s :
  chunk_ok buff_size c -> len data = buff_size + 1 ->
  reads s = (chunk_reads c ++ rs)%list ->
  exists P' data', len data' = buff_size + 1 /\
    chunk_loop buff_size (S fuel) (P, mkData x 0) data body 0 s =
    chunk_loop buff_size fuel (P', mkData (rsp_setReason x (size_text c)) 0) data'
      (body ++ chunk_got c) 0 (set_reads rs s).
Proof.
  intros Hc Hd Hr. destruct c as [h d|h d1 d2 pieces].
  - destruct Hc as (Hs & Hne & Hl).
    assert (Hll : len (h ++ CRLF ++ d ++ CRLF) = len h + 4 + len d)
      by (rewrite !string_length_app; simpl; lia).
    assert (0 < len d) by (destruct d; [done|simpl; lia]).
    destruct (parse_size (length (reads s)) P x data h (d ++ CRLF) (len d) rs s Hd Hs)
      as (P' & data' & E & E1 & E2 & E3 & E4); [lia|done|done|].
    rewrite (proj2 (Z.leb_gt _ _)) in E, E4 by lia.
    destruct (chunk_data_whole (length rs) data' body d (set_reads rs s) E1 E2 ltac:(lia))
      as (data'' & E5 & E6).
    exists P', data''. split; [done|]. cbn [chunk_loop].
    rewrite gets_bind, (st_bind_val _ _ _ _ _ E), gets_bind. cbn [reads set_reads fst].
    rewrite E3, (st_bind_val _ _ _ _ _ E5), E4. done.
  - destruct Hc as (Hs & Hl & H2 & Hb & Hp & Hf).
    assert (Hll : len (h ++ CRLF ++ d1) = len h + 2 + len d1)
      by (rewrite !string_length_app; simpl; lia).
    destruct (parse_size (length (reads s)) P x data h d1 (len d1 + len d2)
      ((RData <$> pieces) ++ rs) s Hd Hs) as (P' & data' & E & E1 & E2 & E3 & E4);
      [lia|done|done|].
    rewrite (proj2 (Z.leb_gt _ _)) in E, E4 by lia.
    assert (Hpl : length (concat pieces) = (String.length d2 + 2)%nat)
      by (rewrite <- string_of_length, Hp, string_length_app; done).
    destruct (chunk_data_cut (length ((RData <$> pieces) ++ rs)) data' body d1 (len d1 + len d2) pieces
      rs (set_reads ((RData <$> pieces) ++ rs)%list s) E1 E2) as (data'' & E5 & E6);
      [lia|lia|lia|lia|done|rewrite length_app, length_fmap; lia|done|].
    exists P', data''. split; [done|]. cbn [chunk_loop].
    rewrite gets_bind, (st_bind_val _ _ _ _ _ E), gets_bind. cbn [reads set_reads fst].
    rewrite E3, (st_bind_val _ _ _ _ _ E5), E4, Hp. done.
Qed.

Lemma chunk_loop_ends fuel P x data body h rs s :
  size_ok h 0 -> len data = buff_size + 1 -> len (h ++ CRLF ++ CRLF) <= buff_size ->
  reads s = RData (bytes_of (h ++ CRLF ++ CRLF)) :: rs ->
  exists P', chunk_loop buff_size (S fuel) (P, mkData x 0) data body 0 s =
    (Val (Some ((P', mkData x 0), body)), set_reads rs s).
Proof.
  intros Hs Hd Hl Hr.
  destruct (parse_size (length (reads s)) P x data h CRLF 0 rs s Hd Hs)
    as (P' & data' & E & E1 & E2 & E3 & E4); [lia|done|done|].
  simpl in E, E4. destruct (chunk_data_whole (length rs) data' body "" (set_reads rs s) E1 E2)
    as (data'' & E5 & _); [rewrite !string_length_app in Hl; simpl in *; lia|].
  exists P'. cbn [chunk_loop]. rewrite gets_bind, (st_bind_val _ _ _ _ _ E), gets_bind.
  cbn [reads set_reads fst]. rewrite E3. change 0 with (len "") at 1.
  change 2 with (len CRLF). rewrite (st_bind_val _ _ _ _ _ E5), E4, string_app_nil. done.
Qed.

Lemma chunk_loop_all cs fuel P x data body h rs s :
  Forall (chunk_ok buff_size) cs -> size_ok h 0 -> len (h ++ CRLF ++ CRLF) <= buff_size ->
  len data = buff_size + 1 -> (length cs < fuel)%nat ->
  reads s = (concat (chunk_reads <$> cs) ++ RData (bytes_of (h ++ CRLF ++ CRLF)) :: rs)%list ->
  exists P', chunk_loop buff_size fuel (P, mkData x 0) data body 0 s =
    (Val (Some ((P', mkData (renamed cs x) 0), body ++ joined cs)), set_reads rs s).
Proof.
  intros Hcs Hh Hl. revert fuel P x data body s.
  induction cs as [|c cs IH]; intros fuel P x data body s Hd Hf Hr;
    destruct fuel as [|fuel]; try (simpl in Hf; lia).
  - simpl joined. rewrite string_app_nil. by apply (chunk_loop_ends _ _ _ _ _ h).
  - apply list.Forall_cons in Hcs as [Hc Hcs]. rewrite fmap_cons in Hr. simpl concat in Hr.
    rewrite <- app_assoc in Hr.
    destruct (chunk_loop_step fuel P x data body c _ s Hc Hd Hr) as (P' & data' & Hd' & E).
    rewrite E. destruct (IH Hcs fuel P' (rsp_setReason x (size_text c)) data' (body ++ chunk_got c)
      (set_reads (concat (chunk_reads <$> cs) ++ RData (bytes_of (h ++ CRLF ++ CRLF)) :: rs)%list s)
      Hd') as (P'' & E'); [simpl in Hf; lia|done|].
    exists P''. rewrite E'. simpl joined. by rewrite string_app_assoc.
Qed.
End Chunks.

(** C35: a response in chunks. The head announces chunks and comes with one read; the
    chunks and the last, empty one follow. Then [recvResponse] returns the response of the
    head with, as its body, what it appended for each chunk: the data of a chunk that came
    whole and alone with one read; but for a chunk that TCP cut in its data, so that the first
    read has the whole line of the size and two or more bytes of the data (perhaps all) and
    nothing behind it, and the rest came in pieces that end with the end of the line behind the
    data, it is the data without the last two bytes of the first read, and with the end of the line behind
    it. (Every read fits the buffer, the sizes are plain hexadecimal numbers, and no other cuts
    are covered.) The reason phrase is the text of the last size. *)
Theorem recv_chunked lexical_cast buff_size garbage buffer r cs h rs s
    (Hbuff : 0 < buff_size < 2 ^ 31 - 1) (Hbuffer : len buffer = buff_size + 1)
    (Hr : sendable r) (Hk : existsb chunk_header (response_headers r) = true)
    (Hfit : len (head_text r) <= buff_size)
    (Hcs : Forall (chunk_ok buff_size) cs) (Hlast : size_ok h 0)
    (Hlastfit : len (h ++ CRLF ++ CRLF) <= buff_size)
    (Hreads : reads s =
      (RData (bytes_of (head_text r)) :: concat (chunk_reads <$> cs) ++
       RData (bytes_of (h ++ CRLF ++ CRLF)) :: rs)%list) :
  recvResponse lexical_cast buff_size garbage buffer s =
    (Val (Some (rsp_setBody (renamed cs (received r)) (joined cs))), set_reads rs s).
Proof.
  rewrite <- (string_app_nil (head_text r)) in Hfit, Hreads.
  destruct (parse_head buff_size Hbuff (length (reads s)) garbage buffer r "" _ s Hbuffer Hr Hfit
    Hreads) as (c & data & E & _ & Hd & Hc).
  set (s1 := set_reads _ s) in E.
  assert (Hn : (length cs < S (length (reads s)))%nat).
  { rewrite Hreads. simpl. rewrite length_app. clear -cs.
    induction cs as [|c cs IH]; [simpl; lia|]. rewrite fmap_cons. simpl concat.
    rewrite length_app. assert (0 < length (chunk_reads c))%nat by (destruct c; simpl; lia).
    simpl in *. lia. }
  destruct (chunk_loop_all buff_size Hbuff cs (S (length (reads s))) c (received r) data "" h rs s1
    Hcs Hlast Hlastfit Hd Hn eq_refl) as (P' & E').
  unfold recvResponse. rewrite gets_bind, (st_bind_val _ _ _ _ _ E). cbn [fst snd].
  rewrite Hc, Hk. change (negb (1 =? 0)) with true. cbv iota. rewrite (st_bind_val _ _ _ _ _ E').
  reflexivity.
Qed.

Definition chunked_response : HttpResponse :=
  rsp_setHeader (HttpResponse_new 17 true) "transfer-encoding" "chunked".
Definition demo_buffer : string := string_of (replicate 257 (byte.of_Z 0)).
Definition demo_chunks : list chunk :=
  [Whole "5" "hello"; Cut "6" ", wo" "rl" [bytes_of "rl"; bytes_of CRLF]; Whole "1" "d"].

Lemma chunked_response_sendable : sendable chunked_response.
Proof.
  split; [by right|]. split; [done|]. split; [done|].
  intros k v Hin. apply elem_of_cons in Hin as [[= -> ->]|Hin];
    [|by apply not_elem_of_nil in Hin]. split_and!; try done. by right.
Qed.

Definition chunked_session : session :=
  mkSession (RData (bytes_of (head_text chunked_response)) ::
    concat (chunk_reads <$> demo_chunks) ++ [RData (bytes_of ("0" ++ CRLF ++ CRLF))])%list [] [] true.

Lemma recv_chunked_witness : exists r,
  recvResponse demo_cast 256 demo_memory demo_buffer chunked_session =
    (Val (Some r), set_reads [] chunked_session) /\
  r_body r = "hello, rl" ++ CRLF ++ "d" /\ r_reason r = "1".
Proof.
  exists (rsp_setBody (renamed demo_chunks (received chunked_response)) (joined demo_chunks)).
  split; [|split; vm_compute; reflexivity].
  apply (recv_chunked demo_cast 256 demo_memory demo_buffer chunked_response demo_chunks "0" []
    chunked_session).
  - lia.
  - vm_compute; reflexivity.
  - exact chunked_response_sendable.
  - vm_compute; reflexivity.
  - by vm_compute.
  - repeat apply list.Forall_cons_2; [..|apply list.Forall_nil_2]; cbn [chunk_ok]; split_and!;
      try (by vm_compute). repeat apply list.Forall_cons_2; [..|apply list.Forall_nil_2]; by vm_compute.
  - by vm_compute.
  - by vm_compute.
  - vm_compute; reflexivity.
Defined.

(** C36: two ways in which chunks are not received at all. What comes with the head is
    left in the buffer, but the loop reads before it parses: if nothing more comes, the
    response is lost, even if all its chunks are there. And if fewer than two bytes come
    with the line of a size, the two bytes that are always dropped make the number of
    bytes negative, and [append] throws. *)
Theorem chunks_lost lexical_cast buff_size garbage buffer r s
    (Hbuff : 0 < buff_size < 2 ^ 31 - 1) (Hbuffer : len buffer = buff_size + 1)
    (Hr : sendable r) (Hk : existsb chunk_header (response_headers r) = true) :
  (forall tail e rs, len (head_text r ++ tail) <= buff_size -> e = RData [] \/ e = RError ->
    reads s = RData (bytes_of (head_text r ++ tail)) :: e :: rs ->
    recvResponse lexical_cast buff_size garbage buffer s = (Val None, set_reads rs s)) /\
  (forall h d n rs, len (head_text r) <= buff_size -> size_ok h n -> 0 < n < 2 ^ 31 ->
    len d < 2 -> len (h ++ CRLF ++ d) <= buff_size ->
    reads s = RData (bytes_of (head_text r)) :: RData (bytes_of (h ++ CRLF ++ d)) :: rs ->
    recvResponse lexical_cast buff_size garbage buffer s = (Exc length_error, set_reads rs s)).
Proof.
  split.
  - intros tail e rs Hfit He Hreads.
    destruct (parse_head buff_size Hbuff (length (reads s)) garbage buffer r tail _ s Hbuffer Hr Hfit
      Hreads) as (c & data & E & _ & _ & Hc).
    unfold recvResponse. rewrite gets_bind, (st_bind_val _ _ _ _ _ E). cbn [fst snd].
    rewrite Hc, Hk. change (negb (1 =? 0)) with true. cbv iota. by destruct He as [-> | ->].
  - intros h d n rs Hfit Hs Hn Hd Hl Hreads.
    rewrite <- (string_app_nil (head_text r)) in Hfit, Hreads.
    destruct (parse_head buff_size Hbuff (length (reads s)) garbage buffer r "" _ s Hbuffer Hr Hfit
      Hreads) as (c & data & E & _ & Hdl & Hc).
    set (s1 := set_reads _ s) in E.
    destruct (parse_size buff_size Hbuff (length (reads s1)) c (received r) data h d n rs s1 Hdl Hs
      ltac:(lia) Hl eq_refl) as (P' & data' & E1 & _ & _ & Hcl & _).
    unfold recvResponse. rewrite gets_bind, (st_bind_val _ _ _ _ _ E). cbn [fst snd].
    rewrite Hc, Hk. change (negb (1 =? 0)) with true. cbv iota. cbn [chunk_loop].
    unfold mbind at 1, st_bind at 1. rewrite gets_bind, (st_bind_val _ _ _ _ _ E1), gets_bind.
    cbn [fst]. rewrite Hcl. unfold chunk_data.
    rewrite swrap_small by (unfold in_s; lia). rewrite (proj2 (Z.leb_gt n (len d - 2))) by lia.
    unfold std_string. replace (u64 (len d - 2)) with (2 ^ 64 + (len d - 2)); [|].
    + by rewrite (proj2 (Z.leb_le (2 ^ 63) _)) by lia.
    + unfold wrap. rewrite <- (Z.mod_add _ 1) by lia. rewrite Z.mod_small; lia.
Qed.

Definition early_session : session :=
  mkSession [RData (bytes_of (head_text chunked_response ++ "5" ++ CRLF ++ "hello" ++ CRLF ++
    "0" ++ CRLF ++ CRLF)); RData []] [] [] true.
Definition short_session : session :=
  mkSession [RData (bytes_of (head_text chunked_response)); RData (bytes_of ("5" ++ CRLF ++ "h"))]
    [] [] true.

Lemma chunks_lost_witness :
  recvResponse demo_cast 256 demo_memory demo_buffer early_session =
    (Val None, set_reads [] early_session) /\
  recvResponse demo_cast 256 demo_memory demo_buffer short_session =
    (Exc length_error, set_reads [] short_session).
Proof.
  split.
  - apply (proj1 (chunks_lost demo_cast 256 demo_memory demo_buffer chunked_response early_session
      ltac:(lia) eq_refl chunked_response_sendable eq_refl)
      ("5" ++ CRLF ++ "hello" ++ CRLF ++ "0" ++ CRLF ++ CRLF) (RData []) []);
      [by vm_compute|by left|reflexivity].
  - apply (proj2 (chunks_lost demo_cast 256 demo_memory demo_buffer chunked_response short_session
      ltac:(lia) eq_refl chunked_response_sendable eq_refl) "5" "h" 5 []); try reflexivity;
      [by vm_compute|split_and!; by vm_compute|lia|by vm_compute].
Defined.

Definition sized_response : HttpResponse := rsp_setBody demo_response "hello".
Definition sized_session : session :=
  mkSession [RData (bytes_of (head_text sized_response ++ "he")); RData (bytes_of "l");
    RData (bytes_of "lo")] [] [] true.

Lemma recv_sent_response_witness : exists r,
  recvResponse demo_cast 256 demo_memory demo_buffer sized_session =
    (Val (Some r), set_reads [] sized_session) /\ r_body r = "hello".
Proof.
  exists (rsp_setBody (received sized_response) "hello"). split; [|reflexivity].
  apply (recv_sent_response demo_cast 256 demo_memory demo_buffer sized_response "he" "he"
    [bytes_of "l"; bytes_of "lo"] [] sized_session).
  - lia.
  - vm_compute; reflexivity.
  - exact demo_cast_decimal.
  - exact demo_response_sendable.
  - split_and!; [unfold ordered; repeat constructor|by vm_compute|done].
  - by vm_compute.
  - by vm_compute.
  - by exists "".
  - done.
  - by vm_compute.
  - repeat apply list.Forall_cons_2; by vm_compute.
  - vm_compute; reflexivity.
Defined.
