(* ===== verification/SocketStream.v ===== *)
(** * Socket streams over byte arrays (socket_stream.cpp, stream.cpp)

    [SocketStream::read] and [write] on a [ByteArray] hand the views of the buffer to the
    kernel and move the position by what was transferred; [readFixSize] and
    [writeFixSize] repeat them. What the kernel receives or accepts is an argument per call.
    The theorem: together they write to, and read from, the flat buffer of ByteArray.v. *)
From stdpp Require Import base tactics option list numbers.
From coqutil Require Import Byte.
From S2P Require Import Prelude ByteArray Stream.

Open Scope Z_scope.

(** The kernel stores [d] at the start of [v], and over the vector of views. *)
Definition store_iov (v : iovec) (d : list byte) : ST ByteArray unit := fun s =>
  match m_nodes s !! iov_node v with
  | None => (Bad NullDeref, s)
  | Some n =>
      if decide (0 <= iov_off v /\ iov_off v + Z.of_nat (length d) <= size n) then
        (Val tt, set_m_nodes
           (<[iov_node v := mkNode (splice (ptr n) (Z.to_nat (iov_off v)) d) (size n)]> (m_nodes s)) s)
      else (Bad OutOfBounds, s)
  end.
Fixpoint scatter (iovs : list iovec) (d : list byte) : ST ByteArray unit :=
  match iovs with
  | [] => if decide (length d = 0%nat) then mret tt else crash OutOfBounds
  | v :: iovs =>
      store_iov v (take (Z.to_nat (iov_len v)) d);; scatter iovs (drop (Z.to_nat (iov_len v)) d)
  end.

Section Stream.
Context `{heap : Heap}.

(** [if(rt > 0) ba->setPosition(ba->getPosition() + rt)] *)
Definition advance (rt : Z) : ST ByteArray unit :=
  if 0 <? rt then p ← gets m_position; setPosition (p + rt) else mret tt.

(** [read(ba, length)]; [recv] is what the socket gives. [&iovs[0]] needs an element. *)
Definition read_ba (connected : bool) (length : Z) (recv : read_result) : ST ByteArray Z :=
  if negb connected then mret (-1) else
  '(iovs, _) ← getWriteBuffers length;
  lift (deref OutOfBounds (head iovs));;
  match recv with
  | RError => advance (-1);; mret (-1)
  | RData d =>
      scatter iovs d;; advance (Z.of_nat (List.length d));; mret (Z.of_nat (List.length d))
  end.

(** [write(ba, length)]: [rt] is what the socket accepts; also the bytes offered to it. *)
Definition write_ba (connected : bool) (length : Z) (rt : Z) : ST ByteArray (Z * list byte) :=
  if negb connected then mret (-1, []) else
  r ← gets (fun s => getReadBuffers s length);
  '(iovs, _) ← lift r;
  lift (deref OutOfBounds (head iovs));;
  offered ← gets (fun s => concat (iov_bytes (m_nodes s) <$> iovs));
  advance rt;; mret (rt, offered).

(** The loops of [readFixSize(ba, length)] and [writeFixSize(ba, length)], the second with
    the bytes the socket has taken. *)
Fixpoint read_fix (connected : bool) (length0 left : Z) (rs : list read_result) : ST ByteArray Z :=
  if decide (left > 0) then
    match rs with
    | [] => crash NoFuel
    | r :: rs =>
        n ← read_ba connected left r;
        let len := u64 n in
        if decide (len <= 0) then mret (s32 len)
        else read_fix connected length0 (u64 (left - len)) rs
    end
  else mret (s32 length0).
Fixpoint write_fix (connected : bool) (length0 left : Z) (rs : list Z) (taken : list byte) :
    ST ByteArray (Z * list byte) :=
  if decide (left > 0) then
    match rs with
    | [] => crash NoFuel
    | r :: rs =>
        '(n, offered) ← write_ba connected left r;
        let len := u64 n in
        if decide (len <= 0) then mret (s32 len, taken)
        else write_fix connected length0 (u64 (left - len)) rs (taken ++ take (Z.to_nat n) offered)
    end
  else mret (s32 length0, taken).

(** ** Receiving *)

Lemma store_ok s i npos len d :
  0 < m_baseSize s -> nodes_ok (m_baseSize s) (m_nodes s) -> (i < length (m_nodes s))%nat ->
  0 <= npos -> npos + Z.of_nat (length d) <= m_baseSize s ->
  exists ns, store_iov (mkIovec i npos len) d s = (Val tt, set_m_nodes ns s) /\
    nodes_ok (m_baseSize s) ns /\ length ns = length (m_nodes s) /\
    concat (ptr <$> ns) = splice (flat s) (Z.to_nat (Z.of_nat i * m_baseSize s + npos)) d.
Proof.
  intros Hb Hok Hi Hn Hd.
  destruct (memcpy_in_ok (set_m_cur (Some i) s) i npos d) as (ns & E & H); try done.
  exists ns. split; [|exact H]. revert E. unfold memcpy_in, store_iov. simpl.
  destruct (m_nodes s !! i) as [n|]; [|done]. case_decide; [|done].
  intros [= <-]. done.
Qed.

(** The views that [iov_loop] makes of any block list of the same shape. *)
Lemma scatter_spec fuel ns : forall len s i npos d iovs,
  0 < m_baseSize s -> nodes_ok (m_baseSize s) (m_nodes s) -> nodes_ok (m_baseSize s) ns ->
  length ns = length (m_nodes s) -> (i < length ns)%nat -> 0 <= npos < m_baseSize s ->
  Z.of_nat (length d) <= len ->
  iov_loop ns fuel len npos (m_baseSize s - npos) (Some i) = Val iovs ->
  exists ns', scatter iovs d s = (Val tt, set_m_nodes ns' s) /\
    nodes_ok (m_baseSize s) ns' /\ length ns' = length (m_nodes s) /\
    concat (ptr <$> ns') = splice (flat s) (Z.to_nat (Z.of_nat i * m_baseSize s + npos)) d.
Proof.
  induction fuel as [|fuel IH]; intros len s i npos d iovs Hb Hok Hns Hl Hi Hn Hd E; [done|].
  cbn [iov_loop] in E. case_decide as Hz.
  { injection E as <-. destruct d as [|b d]; [|simpl in Hd; lia]. exists (m_nodes s).
    cbn [scatter]. rewrite decide_True by done. rewrite splice_nil. split_and!; try done. by destruct s. }
  cbn [deref mbind res_bind] in E. case_decide as Hfit.
  - injection E as <-. cbn [scatter iov_len]. rewrite take_ge, drop_ge by lia.
    destruct (store_ok s i npos len d) as (ns' & E' & H); [done|done|lia|lia|lia|].
    exists ns'. rewrite (st_bind_val _ _ _ _ _ E'). done.
  - destruct (decide (S i < length ns)%nat) as [Hnext|Hnext]; unfold next_of in E;
      [rewrite decide_True in E by done|by rewrite decide_False in E].
    rewrite (ptr_size_ok (m_baseSize s)) in E by done. cbn [mbind res_bind] in E.
    destruct (iov_loop ns fuel (len - (m_baseSize s - npos)) 0 (m_baseSize s) (Some (S i))) as [rest| |] eqn:E2;
      [|done..].
    injection E as <-. cbn [scatter iov_len]. set (k := Z.to_nat (m_baseSize s - npos)).
    destruct (store_ok s i npos (m_baseSize s - npos) (take k d)) as (ns1 & E1 & Hok1 & Hl1 & Hc1);
      [done|done|lia|lia|rewrite length_take; lia|].
    rewrite (st_bind_val _ _ _ _ _ E1).
    destruct (IH (len - (m_baseSize s - npos)) (set_m_nodes ns1 s) (S i) 0 (drop k d) rest)
      as (ns' & E' & Hok' & Hl' & Hc'); simpl; try done; try lia.
    { rewrite length_drop. lia. }
    { by rewrite Z.sub_0_r. }
    exists ns'. split; [exact E'|]. split; [done|]. split; [simpl in Hl'; lia|].
    rewrite Hc'. unfold flat at 1. simpl m_nodes. rewrite Hc1.
    pose proof (length_flat s Hb Hok) as Hflat.
    destruct (decide (length d <= k)%nat) as [Hshort|Hlong].
    + rewrite drop_ge, splice_nil, take_ge by lia. done.
    + cbn [m_baseSize set_m_nodes].
      replace (Z.to_nat (Z.of_nat (S i) * m_baseSize s + 0))
        with (Z.to_nat (Z.of_nat i * m_baseSize s + npos) + length (take k d))%nat
        by (rewrite length_take; lia).
      rewrite splice_app by nia. by rewrite take_drop.
Qed.

Lemma advance_ok s rt :
  wf s -> 0 < rt -> m_position s + rt <= m_capacity s ->
  advance rt s = (Val tt, moved (m_position s + rt) (set_m_size (Z.max (m_size s) (m_position s + rt)) s)) /\
  wf (moved (m_position s + rt) (set_m_size (Z.max (m_size s) (m_position s + rt)) s)).
Proof.
  intros Hwf Hrt Hc. unfold advance. rewrite (proj2 (Z.ltb_lt _ _)) by lia. rewrite gets_bind.
  apply setPosition_ok; [done|]. destruct Hwf. lia.
Qed.

(** One read: as if the bytes received had been written. *)
Lemma read_ba_ok s len d :
  wf s -> 0 < len -> room s len -> Z.of_nat (length d) <= len ->
  exists s', read_ba true len (RData d) s = (Val (Z.of_nat (length d)), s') /\ written s d s'.
Proof.
  intros Hwf Hlen Hroom Hd. unfold read_ba. cbn [negb].
  destruct (addCapacity_spec s len Hwf ltac:(lia))
    as (s1 & extra & E & Hwf1 & Hb1 & Hp1 & Hz1 & He1 & Hf1 & Hiff).
  apply Hiff in Hroom. unfold getCapacity in Hroom.
  destruct (wf_at_block s1 Hwf1 ltac:(lia)) as (i & Hab).
  pose proof Hab as [Hb Hok Hc Hi Hn Hp]. pose proof Hwf1 as [_ _ Hroot Hcap Hpos Hsize _].
  destruct (iov_loop_spec (S (length (m_nodes s1))) len s1 i _ Hab) as (iovs & Ei & _ & _); try lia.
  assert (Eg : getWriteBuffers len s = (Val (iovs, len), s1)).
  { unfold getWriteBuffers. rewrite decide_False by lia. st_step E. rewrite gets_bind, decide_False by lia.
    rewrite gets_bind. st_step (cur_size_ok s1 i Hok Hc Hi). rewrite !gets_bind, Hc.
    by rewrite (lift_bind _ _ _ _ Ei). }
  rewrite (st_bind_val _ _ _ _ _ Eg).
  destruct (scatter_spec _ (m_nodes s1) len s1 i _ d iovs Hb Hok Hok eq_refl Hi Hn Hd Ei)
    as (ns & Es & Hokn & Hln & Hcn).
  assert (Hhead : exists v, head iovs = Some v).
  { destruct iovs as [|v l]; [|eauto]. cbn [iov_loop] in Ei. rewrite decide_False in Ei by lia.
    cbn [deref mbind res_bind] in Ei. case_decide; [done|].
    destruct (ptr_size _ _); [|done..]. cbn [mbind res_bind] in Ei. by destruct (iov_loop _ _ _ _ _ _). }
  destruct Hhead as [v Hv]. rewrite (lift_bind _ v) by by rewrite Hv.
  rewrite (st_bind_val _ _ _ _ _ Es). set (s2 := set_m_nodes ns s1).
  assert (Hflat2 : flat s2 = splice (flat s ++ extra) (Z.to_nat (m_position s)) d)
    by (unfold flat at 1; simpl; by rewrite Hcn, <- Hf1, <- Hp, Hp1).
  assert (Hwf2 : wf s2).
  { destruct Hwf1 as [? ? ? ? ? ? Hcur]. constructor; simpl; try done; try lia. by rewrite Hln. }
  pose proof (wf_length_flat s Hwf) as Hlf. pose proof (wf_length_flat s1 Hwf1) as Hlf1.
  pose proof Hwf as [_ _ _ _ Hpos0 Hsize0 _].
  assert (Hcont : forall z, z = Z.max (m_size s) (m_position s + Z.of_nat (length d)) ->
    take (Z.to_nat z) (flat s2) = splice (contents s) (Z.to_nat (m_position s)) d).
  { intros z ->. rewrite Hflat2.
    replace (Z.to_nat (Z.max _ _)) with (Nat.max (Z.to_nat (m_size s)) (Z.to_nat (m_position s) + length d)) by lia.
    rewrite Hf1 in Hlf1. apply take_splice; lia. }
  assert (Hcap' : m_capacity s <= m_capacity s1) by (rewrite <- Hlf, <- Hlf1, Hf1, length_app; lia).
  destruct (decide (0 < Z.of_nat (length d))) as [Hpd|Hpd].
  - destruct (advance_ok s2 (Z.of_nat (length d)) Hwf2) as [Ep Hwf3]; [lia|simpl; lia|].
    rewrite (st_bind_val _ _ _ _ _ Ep). eexists. split; [reflexivity|]. constructor; simpl; try done; try lia.
    apply Hcont. simpl. lia.
  - destruct d; [|simpl in Hpd; lia]. exists s2. split; [done|]. constructor; simpl; try done; try lia.
    apply Hcont. simpl. lia.
Qed.

Lemma written_refl s : wf s -> written s [] s.
Proof.
  intros Hwf. pose proof Hwf as [_ _ _ _ Hp _ _].
  constructor; simpl; try done; try lia. by rewrite splice_nil.
Qed.

Lemma read_fix_ok n chunks rs : forall s left,
  wf s -> n < 2 ^ 31 -> left <= getCapacity s -> left < 2 ^ 31 -> 0 <= n ->
  Forall (fun d => d <> []) chunks -> Z.of_nat (length (concat chunks)) = left ->
  exists s', read_fix true n left ((RData <$> chunks) ++ rs) s = (Val n, s') /\ written s (concat chunks) s'.
Proof.
  induction chunks as [|d chunks IH]; intros s left Hwf Hn Hcap Hl Hn0 Hne Hsum.
  - simpl in Hsum. subst left. exists s. split; [|by apply written_refl].
    destruct rs; simpl; unfold mret, st_ret; rewrite swrap_small by (unfold in_s; lia); done.
  - apply list.Forall_cons in Hne as [Hd Hne]. rewrite concat_cons, length_app in Hsum.
    assert (Hpos : (0 < length d)%nat) by (destruct d; simpl; [done|lia]).
    cbn [fmap list_fmap app read_fix]. rewrite decide_True by lia.
    destruct (read_ba_ok s left d Hwf ltac:(lia) (or_introl Hcap) ltac:(lia)) as (s1 & E1 & Hw1).
    rewrite (st_bind_val _ _ _ _ _ E1). pose proof Hw1 as [Hwf1 _ Hp1 _ Hc1 _ _].
    rewrite !wrap_small by (unfold in_u; lia). rewrite decide_False by lia.
    destruct (IH s1 (left - Z.of_nat (length d)) Hwf1 Hn) as (s2 & E2 & Hw2); try done; try lia.
    { unfold getCapacity in *. lia. }
    exists s2. split; [exact E2|]. rewrite concat_cons. by eapply written_app.
Qed.

(** ** Sending *)

Lemma write_ba_ok s len rt :
  wf s -> 0 < len -> len <= getReadSize s -> 0 < rt <= len ->
  write_ba true len rt s =
    (Val (rt, slice (contents s) (Z.to_nat (m_position s)) (Z.to_nat len)), moved (m_position s + rt) s) /\
  wf (moved (m_position s + rt) s).
Proof.
  intros Hwf Hlen Hread Hrt. pose proof Hwf as [Hb Hok Hr Hcap Hpos Hsize Hcur].
  unfold getReadSize in Hread.
  destruct (buffers_cover heap s len Hwf ltac:(lia)) as [Hcover _].
  destruct Hcover as (iovs & E & Hbytes & Hin); [lia|].
  unfold getReadSize in *. rewrite Z.min_l in E, Hbytes by lia.
  unfold write_ba. cbn [negb]. rewrite gets_bind, E. rewrite (lift_bind _ (iovs, len)) by done.
  assert (Hhead : exists v, head iovs = Some v).
  { destruct iovs as [|v l]; [|eauto]. exfalso. apply (f_equal length) in Hbytes.
    rewrite length_slice in Hbytes; [simpl in Hbytes; lia|]. pose proof (length_contents s Hwf). lia. }
  destruct Hhead as [v Hv]. rewrite (lift_bind _ v) by by rewrite Hv. rewrite gets_bind, Hbytes.
  destruct (advance_ok s rt Hwf) as [Ep Hwf']; [lia|lia|].
  rewrite (st_bind_val _ _ _ _ _ Ep). rewrite Z.max_l in * by lia.
  replace (set_m_size (m_size s) s) with s in * by by destruct s. done.
Qed.

Lemma write_fix_ok n rts : forall s left taken rest,
  wf s -> 0 <= n < 2 ^ 31 -> left <= getReadSize s -> left < 2 ^ 31 ->
  Forall (fun r => 0 < r) rts -> foldr Z.add 0 rts = left ->
  write_fix true n left (rts ++ rest) taken s =
    (Val (n, taken ++ slice (contents s) (Z.to_nat (m_position s)) (Z.to_nat left)), moved (m_position s + left) s) \/
  (rts = [] /\ write_fix true n left (rts ++ rest) taken s = (Val (n, taken), s)).
Proof.
  induction rts as [|r rts IH]; intros s left taken rest Hwf Hn Hread Hl Hpos Hsum.
  - right. split; [done|]. simpl in Hsum. subst left.
    destruct rest; simpl; unfold mret, st_ret; rewrite swrap_small by (unfold in_s; lia); done.
  - left. apply list.Forall_cons in Hpos as [Hr Hpos]. simpl in Hsum.
    assert (Hrest : 0 <= foldr Z.add 0 rts).
    { clear -Hpos. induction Hpos; simpl; lia. }
    cbn [app write_fix]. rewrite decide_True by lia.
    destruct (write_ba_ok s left r Hwf ltac:(lia) Hread ltac:(lia)) as [E1 Hwf1].
    rewrite (st_bind_val _ _ _ _ _ E1). rewrite !wrap_small by (unfold in_u; lia). rewrite decide_False by lia.
    pose proof (length_contents s Hwf) as Hlc. pose proof Hwf as [_ _ _ _ Hp _ _].
    unfold getReadSize in *.
    set (s1 := moved (m_position s + r) s) in *.
    assert (Hmove : forall p, moved p s1 = moved p s) by done.
    assert (Hcut : take (Z.to_nat r) (slice (contents s) (Z.to_nat (m_position s)) (Z.to_nat left)) =
      slice (contents s) (Z.to_nat (m_position s)) (Z.to_nat r)).
    { unfold slice. rewrite take_take. f_equal. lia. }
    rewrite Hcut. clear Hcut.
    destruct (IH s1 (left - r) (taken ++ slice (contents s) (Z.to_nat (m_position s)) (Z.to_nat r)) rest)
      as [E|[-> E]]; try done; try lia.
    { simpl. lia. }
    + rewrite E. change (contents s1) with (contents s). rewrite Hmove. simpl m_position.
      rewrite <- app_assoc. replace (Z.to_nat left) with (Z.to_nat r + Z.to_nat (left - r))%nat by lia.
      rewrite slice_app. replace (m_position s + r + (left - r)) with (m_position s + left) by lia.
      by rewrite Z2Nat.inj_add by lia.
    + rewrite E. simpl in Hsum. replace left with r by lia. done.
Qed.
End Stream.

(** C20: Fixed sizes through a socket. Reading a fixed size into a buffer with that much room, in
    whatever pieces the bytes arrive, is writing the bytes to the buffer: the same contents,
    position and size as [ByteArray::write] gives. Writing a fixed size out of a buffer that has it, in
    whatever pieces the socket takes it, sends exactly the next bytes of the buffer, moves the position
    behind them and keeps the data. *)
Theorem fixed_size_buffers (heap : Heap) s n (Hwf : wf s) (Hn : 0 < n < 2 ^ 31) :
  (forall chunks rest, n <= getCapacity s -> Forall (fun d => d <> []) chunks ->
     Z.of_nat (length (concat chunks)) = n ->
     exists s' s'', read_fix true n n ((RData <$> chunks) ++ rest) s = (Val n, s') /\
       write (concat chunks) s = (Val tt, s'') /\ wf s' /\
       contents s' = contents s'' /\ m_position s' = m_position s'' /\ m_size s' = m_size s'') /\
  (forall rts rest, n <= getReadSize s -> Forall (fun r => 0 < r) rts -> foldr Z.add 0 rts = n ->
     exists s', write_fix true n n (rts ++ rest) [] s =
         (Val (n, slice (contents s) (Z.to_nat (m_position s)) (Z.to_nat n)), s') /\
       wf s' /\ contents s' = contents s /\ m_position s' = m_position s + n).
Proof.
  split.
  - intros chunks rest Hcap Hne Hsum.
    destruct (read_fix_ok n chunks rest s n Hwf) as (s1 & E1 & [W1 C1 P1 Z1 _ _ _]); try done; try lia.
    destruct (write_written (concat chunks) s Hwf) as (s2 & E2 & [W2 C2 P2 Z2 _ _ _]); [left; lia|].
    exists s1, s2. split_and!; try done; congruence.
  - intros rts rest Hread Hpos Hsum.
    destruct (write_fix_ok n rts s n [] rest Hwf) as [E|[-> E]]; try done; try lia; [|simpl in Hsum; lia].
    eexists. split; [exact E|]. split; [|done].
    pose proof Hwf as [_ _ _ Hc Hp Hs _]. unfold getReadSize in Hread.
    destruct (setPosition_ok (m_position s + n) s Hwf) as [_ Hw]; [lia|].
    rewrite Z.max_l in Hw by lia. by replace (set_m_size (m_size s) s) with s in Hw by by destruct s.
Qed.

Lemma fixed_size_buffers_witness :
  (exists s, write_fix true 5 5 [2; 3] [] filled = (Val (5, drop 2 (take 7 (demo_bytes 8))), s)) /\
  exists s, read_fix (heap := zero_heap) true 3 3 [RData (demo_bytes 2); RData (demo_bytes 1)] demo = (Val 3, s).
Proof.
  split.
  - destruct (fixed_size_buffers zero_heap filled 5) as [_ H]; [exact wf_filled|lia|].
    destruct (H [2; 3] []) as (s & E & _); [by vm_compute|repeat constructor; lia|reflexivity|].
    exists s. exact E.
  - destruct (fixed_size_buffers zero_heap demo 3) as [H _]; [exact wf_demo|lia|].
    destruct (H [demo_bytes 2; demo_bytes 1] []) as (s & s2 & E & _);
      [by vm_compute|repeat constructor; discriminate|reflexivity|].
    exists s. exact E.
Defined.
