(* ===== verification/Socket.v ===== *)
(** * Sockets (socket.h, socket.cpp)

    A [Socket] owns a descriptor. What the system calls answer is an input, in the order
    of the calls; the calls made are logged. The hooks in front of the calls act on the
    descriptor table of FdManager.v as in Hook.v. Sockets are shared by pointers, so they
    are kept in a store. The theorems: no descriptor is lost or closed twice, the
    timeouts read back, and what a socket of the Unix family does. *)
From stdpp Require Import base tactics option list gmap strings pretty numbers.
From coqutil Require Import Byte.
From S2P Require Import Prelude Endian CString Http FdManager Hook Address.

Open Scope string_scope.
Open Scope Z_scope.

Definition SOCK_STREAM : Z := 1.
Definition SOCK_DGRAM : Z := 2.
Definition SO_REUSEADDR : Z := 2.
Definition SO_ERROR : Z := 4.
Definition IPPROTO_TCP : Z := 6.
Definition TCP_NODELAY : Z := 1.
Definition SOMAXCONN : Z := 4096.
Definition READ : Z := 1.
Definition WRITE : Z := 4.

Record Socket := mkSocket {
  m_sock : Z;
  m_family : Z;
  m_type : Z;
  m_protocol : Z;
  m_isConnected : bool;
  m_localAddress : option Address;
  m_remoteAddress : option Address
}.

Definition set_sock v (s : Socket) :=
  mkSocket v (m_family s) (m_type s) (m_protocol s) (m_isConnected s) (m_localAddress s) (m_remoteAddress s).
Definition set_connected v (s : Socket) :=
  mkSocket (m_sock s) (m_family s) (m_type s) (m_protocol s) v (m_localAddress s) (m_remoteAddress s).
Definition set_local v (s : Socket) :=
  mkSocket (m_sock s) (m_family s) (m_type s) (m_protocol s) (m_isConnected s) v (m_remoteAddress s).
Definition set_remote v (s : Socket) :=
  mkSocket (m_sock s) (m_family s) (m_type s) (m_protocol s) (m_isConnected s) (m_localAddress s) v.

(** ** System calls *)

Inductive optval :=
  | OInt (v : Z)
  | OTimeval (tv_sec tv_usec : Z).

(** The calls that leave the class. A buffer list of one is the call with a pointer. *)
Inductive syscall :=
  | CSocket (family type protocol : Z)
  | CBind (fd : Z) (addr : Address)
  | CConnect (fd : Z) (addr : Address) (timeout_ms : option Z)
  | CListen (fd backlog : Z)
  | CAccept (fd : Z)
  | CClose (fd : Z)
  | CGetsockname (fd : Z)
  | CGetpeername (fd : Z)
  | CSetsockopt (fd level option : Z) (val : optval)
  | CGetsockopt (fd level option : Z)
  | CSend (fd : Z) (buffers : list (list byte)) (to : option Address) (flags : Z)
  | CRecv (fd : Z) (lengths : list Z) (from : bool) (flags : Z)
  | CCancelEvent (fd event : Z)
  | CCancelAll (fd : Z).

(** What a call gives: its result; for a new descriptor what [fstat] says of it; the
    address and length it stores; the option it reads; the bytes it receives. *)
Record answer := mkAnswer {
  rt : Z;
  fd_stat : option bool;
  name : option (Address * Z);
  value : Z;
  payload : list byte
}.
Definition result (rt : Z) : answer := mkAnswer rt None None 0 [].

Record Net := mkNet {
  socks : gmap nat Socket;
  fresh : nat;
  fds : Fds;
  hook_enable : bool;
  answers : list answer;
  log : list (syscall * Z)
}.

Definition set_socks f (s : Net) := mkNet (f (socks s)) (fresh s) (fds s) (hook_enable s) (answers s) (log s).

(** One call: the next answer. *)
Definition sys (c : syscall) : ST Net answer := fun s =>
  match answers s with
  | [] => (Bad NoFuel, s)
  | a :: l => (Val a, mkNet (socks s) (fresh s) (fds s) (hook_enable s) l (log s ++ [(c, rt a)])%list)
  end.

(** A hook at work on the descriptor table. *)
Definition on_fds {A} (m : ST Fds A) : ST Net A := fun s =>
  let '(r, f) := m (fds s) in
  (r, mkNet (socks s) (fresh s) f (hook_enable s) (answers s) (log s)).

Definition sock_at (a : nat) : ST Net Socket := fun s => (deref NullDeref (socks s !! a), s).
Definition update (a : nat) (f : Socket -> Socket) : ST Net unit :=
  x ← sock_at a; modify (set_socks <[a := f x]>).

Section Sockets.
Context `{kernel : Kernel} `{host : Host}.

(** [Socket(family, type, protocol)] *)
Definition Socket_new (family type protocol : Z) : ST Net nat := fun s =>
  (Val (fresh s),
   mkNet (<[fresh s := mkSocket (-1) family type protocol false None None]> (socks s)) (S (fresh s))
     (fds s) (hook_enable s) (answers s) (log s)).

(** ** Options *)

(** The hooked [setsockopt]. The only options of [SOL_SOCKET] the program sets with
    a [timeval] are the timeouts. *)
Definition setsockopt (fd level option : Z) (val : optval) : ST Net answer :=
  h ← gets hook_enable;
  (if level =? SOL_SOCKET then
     match val with
     | OTimeval tv_sec tv_usec => on_fds (setsockopt_timeout h fd option tv_sec tv_usec)
     | OInt _ => mret tt
     end
   else mret tt);;
  sys (CSetsockopt fd level option val).

Definition setOption (a : nat) (level option : Z) (val : optval) : ST Net bool :=
  x ← sock_at a; r ← setsockopt (m_sock x) level option val; mret (rt r =? 0).

(** The result, and the value it stores. *)
Definition getOption (a : nat) (level option : Z) : ST Net (bool * Z) :=
  x ← sock_at a; r ← sys (CGetsockopt (m_sock x) level option); mret (rt r =? 0, value r).

Definition setTimeoutOption (option : Z) (a : nat) (v : Z) : ST Net unit :=
  setOption a SOL_SOCKET option (OTimeval (s32 (Z.quot v 1000)) (s32 (Z.rem v 1000 * 1000)));; mret tt.
Definition setSendTimeout : nat -> Z -> ST Net unit := setTimeoutOption SO_SNDTIMEO.
Definition setRecvTimeout : nat -> Z -> ST Net unit := setTimeoutOption SO_RCVTIMEO.

Definition getTimeoutOption (option : Z) (a : nat) : ST Net Z :=
  x ← sock_at a; ctx ← on_fds (get None (m_sock x) false);
  mret (match ctx with Some c => s64 (getTimeout option c) | None => -1 end).
Definition getSendTimeout : nat -> ST Net Z := getTimeoutOption SO_SNDTIMEO.
Definition getRecvTimeout : nat -> ST Net Z := getTimeoutOption SO_RCVTIMEO.

Definition getError (a : nat) : ST Net Z :=
  '(ok, error) ← getOption a SOL_SOCKET SO_ERROR; mret (if (ok : bool) then error else -1).

Definition initSock (a : nat) : ST Net unit :=
  setOption a SOL_SOCKET SO_REUSEADDR (OInt 1);;
  x ← sock_at a;
  if m_type x =? SOCK_STREAM then setOption a IPPROTO_TCP TCP_NODELAY (OInt 1);; mret tt else mret tt.

(** [newSock()], with the hooked [socket]. *)
Definition newSock (a : nat) : ST Net unit :=
  x ← sock_at a;
  r ← sys (CSocket (m_family x) (m_type x) (m_protocol x));
  h ← gets hook_enable;
  on_fds (socket h (rt r) (fd_stat r));;
  update a (set_sock (rt r));;
  if negb (rt r =? -1) then initSock a else mret tt.

(** [CreateTCP], [CreateTCPSocket] and so on differ in the arguments. *)
Definition CreateTCP (address : Address) : ST Net nat := Socket_new (getFamily address) SOCK_STREAM 0.
Definition CreateUDP (address : Address) : ST Net nat :=
  a ← Socket_new (getFamily address) SOCK_DGRAM 0;
  newSock a;; update a (set_connected true);; mret a.
Definition CreateTCPSocket : ST Net nat := Socket_new AF_INET SOCK_STREAM 0.
Definition CreateUDPSocket : ST Net nat := Socket_new AF_INET SOCK_DGRAM 0.
Definition CreateTCPSocket6 : ST Net nat := Socket_new AF_INET6 SOCK_STREAM 0.
Definition CreateUDPSocket6 : ST Net nat := Socket_new AF_INET6 SOCK_DGRAM 0.
Definition CreateUnixTCPSocket : ST Net nat := Socket_new AF_UNIX SOCK_STREAM 0.
Definition CreateUnixUDPSocket : ST Net nat := Socket_new AF_UNIX SOCK_DGRAM 0.

(** ** Addresses *)

(** The object that receives the name: the case of [AF_UNIX] falls through to the
    default. *)
Definition new_result (family : Z) : Address :=
  if family =? AF_INET then IPv4Address (IPv4_new 0 0)
  else if family =? AF_INET6 then IPv6Address IPv6_default
  else UnknownAddress_new family.

(** The memory of [result] once the kernel has stored the address [name] there. *)
Definition written (result name : Address) : Address :=
  match result, name with
  | IPv4Address _, IPv4Address m => IPv4Address m
  | IPv6Address _, IPv6Address m => IPv6Address m
  | UnixAddress _ n, UnixAddress m _ => UnixAddress m n
  | UnknownAddress _, UnknownAddress m => UnknownAddress m
  | _, _ => result
  end.

(** [dynamic_pointer_cast<UnixAddress>(result)->setAddrLen(addrlen)] for [AF_UNIX]. *)
Definition sized (family addrlen : Z) (result : Address) : res Address :=
  if family =? AF_UNIX then
    match result with
    | UnixAddress _ _ => Val (setAddrLen addrlen result)
    | _ => Bad NullDeref
    end
  else Val result.

(** [getpeername] or [getsockname] into a new address: [None] if it fails. *)
Definition fetch_name (call : Z -> syscall) (x : Socket) : ST Net (option Address) :=
  r ← sys (call (m_sock x));
  if negb (rt r =? 0) then mret None else
  let result := new_result (m_family x) in
  let '(stored, addrlen) := default (result, getAddrLen result) (name r) in
  addr ← lift (sized (m_family x) addrlen (written result stored)); mret (Some addr).

Definition getRemoteAddress (a : nat) : ST Net Address :=
  x ← sock_at a;
  match m_remoteAddress x with
  | Some addr => mret addr
  | None =>
      r ← fetch_name CGetpeername x;
      match r with
      | Some addr => update a (set_remote (Some addr));; mret addr
      | None => mret (UnknownAddress_new (m_family x))
      end
  end.
Definition getLocalAddress (a : nat) : ST Net Address :=
  x ← sock_at a;
  match m_localAddress x with
  | Some addr => mret addr
  | None =>
      r ← fetch_name CGetsockname x;
      match r with
      | Some addr => update a (set_local (Some addr));; mret addr
      | None => mret (UnknownAddress_new (m_family x))
      end
  end.

(** ** The life of a socket *)

Definition isValid (x : Socket) : bool := negb (m_sock x =? -1).

(** [if(!isValid()) newSock();], and whether it is valid then. *)
Definition ensure_sock (a : nat) : ST Net bool :=
  x ← sock_at a;
  if isValid x then mret true else newSock a;; x ← sock_at a; mret (isValid x).

Definition Socket_close (a : nat) : ST Net bool :=
  x ← sock_at a;
  if negb (m_isConnected x) && (m_sock x =? -1) then mret true else
  update a (set_connected false);;
  (if negb (m_sock x =? -1) then sys (CClose (m_sock x));; update a (set_sock (-1)) else mret tt);;
  mret false.

(** [~Socket()], when the last pointer is dropped. *)
Definition Socket_delete (a : nat) : ST Net unit :=
  Socket_close a;; modify (set_socks (delete a)).

Definition Socket_bind (a : nat) (addr : Address) : ST Net bool :=
  valid ← ensure_sock a;
  if negb valid then mret false else
  x ← sock_at a;
  if negb (getFamily addr =? m_family x) then mret false else
  r ← sys (CBind (m_sock x) addr);
  if negb (rt r =? 0) then mret false else
  getLocalAddress a;; mret true.

(** [connect(addr, timeout_ms)]; a timeout of [(uint64_t)-1] is the default one. *)
Definition Socket_connect (a : nat) (addr : Address) (timeout_ms : Z) : ST Net bool :=
  valid ← ensure_sock a;
  if negb valid then mret false else
  x ← sock_at a;
  if negb (getFamily addr =? m_family x) then mret false else
  r ← sys (CConnect (m_sock x) addr (if timeout_ms =? 2 ^ 64 - 1 then None else Some timeout_ms));
  if negb (rt r =? 0) then Socket_close a;; mret false else
  update a (set_connected true);;
  getRemoteAddress a;; getLocalAddress a;; mret true.

Definition Socket_listen (a : nat) (backlog : Z) : ST Net bool :=
  x ← sock_at a;
  if negb (isValid x) then mret false else
  r ← sys (CListen (m_sock x) backlog); mret (rt r =? 0).

(** [init(sock)] *)
Definition Socket_init (a : nat) (sock : Z) : ST Net bool :=
  ctx ← on_fds (get None sock false);
  match ctx with
  | Some c =>
      if m_isSocket c && negb (m_isClosed c) then
        update a (fun x => set_connected true (set_sock sock x));;
        initSock a;; getLocalAddress a;; getRemoteAddress a;; mret true
      else mret false
  | None => mret false
  end.

(** [accept()], with the hooked [::accept]; a socket that is not returned is destroyed. *)
Definition Socket_accept (a : nat) : ST Net (option nat) :=
  x ← sock_at a;
  sock ← Socket_new (m_family x) (m_type x) (m_protocol x);
  r ← sys (CAccept (m_sock x));
  newsock ← on_fds (accept (rt r) (fd_stat r));
  if newsock =? -1 then Socket_delete sock;; mret None else
  ok ← Socket_init sock newsock;
  if (ok : bool) then mret (Some sock) else Socket_delete sock;; mret None.

(** ** Transfers *)

(** The eight functions differ in one or several buffers and in the address. *)
Definition Socket_send (a : nat) (buffers : list (list byte)) (to : option Address) (flags : Z) : ST Net Z :=
  x ← sock_at a;
  if m_isConnected x then r ← sys (CSend (m_sock x) buffers to flags); mret (rt r) else mret (-1).
Definition Socket_recv (a : nat) (lengths : list Z) (flags : Z) : ST Net (Z * list byte) :=
  x ← sock_at a;
  if m_isConnected x then
    r ← sys (CRecv (m_sock x) lengths false flags); mret (rt r, payload r)
  else mret (-1, []).
(** [recvFrom]: also what [from] becomes; its length is not stored back. *)
Definition Socket_recvFrom (a : nat) (lengths : list Z) (from : Address) (flags : Z) :
    ST Net (Z * list byte * Address) :=
  x ← sock_at a;
  if m_isConnected x then
    r ← sys (CRecv (m_sock x) lengths true flags);
    mret (rt r, payload r, match name r with Some (n, _) => written from n | None => from end)
  else mret (-1, [], from).

Definition cancelRead (a : nat) : ST Net bool :=
  x ← sock_at a; r ← sys (CCancelEvent (m_sock x) READ); mret (negb (rt r =? 0)).
Definition cancelWrite (a : nat) : ST Net bool :=
  x ← sock_at a; r ← sys (CCancelEvent (m_sock x) WRITE); mret (negb (rt r =? 0)).
Definition cancelAccept : nat -> ST Net bool := cancelRead.
Definition Socket_cancelAll (a : nat) : ST Net bool :=
  x ← sock_at a; r ← sys (CCancelAll (m_sock x)); mret (negb (rt r =? 0)).

(** [dump(os)] *)
Definition Socket_dump (x : Socket) : res string :=
  local ← match m_localAddress x with
          | Some addr => t ← toString addr; Val (" local_address=" ++ t) | None => Val "" end;
  remote ← match m_remoteAddress x with
           | Some addr => t ← toString addr; Val (" remote_address=" ++ t) | None => Val "" end;
  Val ("[Socket sock=" ++ pretty (m_sock x) ++ " is_connected=" ++ (if m_isConnected x then "1" else "0") ++
       " family=" ++ pretty (m_family x) ++ " type=" ++ pretty (m_type x) ++
       " protocol=" ++ pretty (m_protocol x) ++ local ++ remote ++ "]").
End Sockets.

(** ** Descriptors *)

(** What an entry of the log adds to the number of times [fd] is open. *)
Definition delta (fd : Z) (e : syscall * Z) : Z :=
  match e with
  | (CSocket _ _ _, r) | (CAccept _, r) => if r =? fd then 1 else 0
  | (CClose c, _) => if c =? fd then -1 else 0
  | _ => 0
  end.
Definition neutral (c : syscall) : Prop :=
  match c with CSocket _ _ _ | CAccept _ | CClose _ => False | _ => True end.
Definition open_count (fd : Z) (s : Net) : Z := foldr (fun e n => delta fd e + n) 0 (log s).
Definition holds (fd : Z) (x : Socket) : Z := if m_sock x =? fd then 1 else 0.
Definition held (fd : Z) (s : Net) : Z := map_sum (holds fd) (socks s).
Definition gap (fd : Z) (s : Net) : Z := open_count fd s - held fd s.

(** A context of the table, a state: new addresses are new, the table knows sockets
    only, and so does the kernel. *)
Definition is_open_socket (c : FdCtx) : Prop := m_isSocket c = true /\ m_isClosed c = false.
Definition table_ok (t : Fds) : Prop := forall i c, m_datas t !! i = Some (Some c) -> is_open_socket c.
Definition answers_ok (l : list answer) : Prop := Forall (fun r => fd_stat r = Some true) l.
Definition good (s : Net) : Prop :=
  (forall a, (fresh s <= a)%nat -> socks s !! a = None) /\ table_ok (fds s) /\ answers_ok (answers s).

Section Descriptors.
Context `{kernel : Kernel} `{host : Host}.

(** [m] neither loses a descriptor nor closes one it has not. *)
Definition balanced {A} (m : ST Net A) (s : Net) : Prop :=
  forall a s', m s = (Val a, s') -> good s -> good s' /\ forall fd, fd <> -1 -> gap fd s' = gap fd s.
Definition keeps {A} (m : ST Net A) : Prop := forall s, balanced m s.

Lemma keeps_value {A} (a : A) : keeps (mret a).
Proof. intros s b s' [= <- <-] H. auto. Qed.
Lemma keeps_read {A} (f : Net -> A) : keeps (gets f).
Proof. intros s b s' [= <- <-] H. auto. Qed.
Lemma keeps_lift {A} (r : res A) : keeps (lift r).
Proof. intros s b s' [= _ <-] H. auto. Qed.
Lemma keeps_sock_at a : keeps (sock_at a).
Proof. intros s b s' [= _ <-] H. auto. Qed.

Lemma balanced_bind {A B} (m : ST Net A) (k : A -> ST Net B) s :
  balanced m s -> (forall a s', m s = (Val a, s') -> balanced (k a) s') -> balanced (mbind k m) s.
Proof.
  intros Hm Hk b s2 E Hg. apply st_bind_inv in E as (a & s1 & E1 & E2).
  destruct (Hm a s1 E1 Hg) as [Hg1 H1]. destruct (Hk a s1 E1 b s2 E2 Hg1) as [Hg2 H2].
  split; [done|]. intros fd Hfd. by rewrite H2, H1.
Qed.
Lemma keeps_seq {A B} (m : ST Net A) (k : A -> ST Net B) :
  keeps m -> (forall a, keeps (k a)) -> keeps (mbind k m).
Proof. intros Hm Hk s. apply balanced_bind; [done|]. intros a s' _. apply Hk. Qed.
Lemma keeps_if {A} (b : bool) (m m' : ST Net A) : keeps m -> keeps m' -> keeps (if b then m else m').
Proof. by destruct b. Qed.

Lemma open_count_snoc fd s s' e :
  log s' = (log s ++ [e])%list -> open_count fd s' = open_count fd s + delta fd e.
Proof.
  unfold open_count. intros ->. induction (log s) as [|e' l IH]; simpl; [lia|]. rewrite IH. lia.
Qed.

(** What a call leaves, and what it adds. *)
Lemma sys_val c s r s' :
  sys c s = (Val r, s') -> good s ->
  good s' /\ socks s' = socks s /\ fds s' = fds s /\ fresh s' = fresh s /\ fd_stat r = Some true /\
  hook_enable s' = hook_enable s /\ forall fd, gap fd s' = gap fd s + delta fd (c, rt r).
Proof.
  unfold sys. destruct (answers s) as [|r0 l] eqn:E; [done|]. intros [= <- <-] (Hf & Ht & Ha).
  rewrite E in Ha. apply list.Forall_cons in Ha as [Hr Ha]. split_and!; try done.
  intros fd. unfold gap. erewrite (open_count_snoc fd s) by reflexivity. unfold held. simpl. lia.
Qed.

Lemma keeps_sys c : neutral c -> keeps (sys c).
Proof.
  intros Hc s r s' E Hg. destruct (sys_val _ _ _ _ E Hg) as (Hg' & _ & _ & _ & _ & _ & H).
  split; [done|]. intros fd _. rewrite H. destruct c; simpl in *; done || lia.
Qed.

Lemma update_val a f s u s' :
  update a f s = (Val u, s') ->
  exists x, socks s !! a = Some x /\ s' = set_socks <[a := f x]> s.
Proof.
  unfold update, sock_at. st_unfold. destruct (socks s !! a) as [x|] eqn:E; [|done].
  intros [= <-]. eauto.
Qed.

Lemma good_update a f s x : good s -> socks s !! a = Some x -> good (set_socks <[a := f x]> s).
Proof.
  intros (Hf & Ht & Ha) Hx. split_and!; try done. simpl. intros b Hb.
  rewrite lookup_insert_ne; [by apply Hf|]. intros <-. by rewrite Hf in Hx.
Qed.

Lemma gap_update fd a (y : Socket) s x :
  socks s !! a = Some x -> gap fd (set_socks <[a := y]> s) = gap fd s + holds fd x - holds fd y.
Proof. intros Hx. unfold gap, held, open_count. simpl. rewrite (map_sum_insert _ _ _ _ _ Hx). lia. Qed.

Lemma keeps_update a f : (forall x, m_sock (f x) = m_sock x) -> keeps (update a f).
Proof.
  intros Hs s u s' E Hg. apply update_val in E as (x & Hx & ->). split; [by apply good_update|].
  intros fd _. rewrite (gap_update fd _ _ _ _ Hx). unfold holds. rewrite Hs. lia.
Qed.

(** *** The table *)

Lemma get_val stat fd auto t o t' :
  get stat fd auto t = (Val o, t') -> table_ok t -> (stat = Some true \/ auto = false) ->
  table_ok t' /\ (forall c, o = Some c -> is_open_socket c) /\
  (fd <> -1 -> auto = true -> exists c, o = Some c /\ forall st, get st fd false t' = (Val (Some c), t')).
Proof.
  intros E Ht Hs. unfold get in E. destruct (decide (fd = -1)) as [Hfd|Hfd].
  { injection E as <- <-. done. }
  revert E. rewrite gets_bind. cbv zeta.
  assert (Hc : forall t2 o2, mbind (fun ctx => set_entry fd ctx;; mret (Some ctx)) (FdCtx_new stat fd) t = (Val o2, t2) ->
    stat = Some true ->
    table_ok t2 /\ (forall c, o2 = Some c -> is_open_socket c) /\
    exists c, o2 = Some c /\ forall st, get st fd false t2 = (Val (Some c), t2)).
  { intros t2 o2 E ->. apply st_bind_inv in E as (c & t1 & E1 & E).
    assert (Hopen : is_open_socket c /\ m_datas t1 = m_datas t).
    { revert E1. unfold FdCtx_new, init, set_flags. st_unfold. simpl.
      case_decide; simpl; intros [= <- <-]; done. }
    destruct Hopen as [Hopen Hd]. apply st_bind_inv in E as (u & t3 & E3 & E). revert E.
    intros [= <- <-]. revert E3. unfold set_entry. destruct (entry fd t1) as [e| |] eqn:He; [|done..].
    intros [= _ <-]. unfold entry in He. case_decide as Hpos; [|done].
    destruct (m_datas t1 !! Z.to_nat fd) as [e'|] eqn:Hl; [|done]. split_and!.
    - intros i c' Hi. simpl in Hi. apply list_lookup_insert_Some in Hi as [(<- & [= ->] & _)|[_ Hi]]; [done|].
      rewrite Hd in Hi. by apply (Ht i).
    - by intros c' [= <-].
    - exists c. split; [done|]. intros st. unfold get. rewrite decide_False by done.
      rewrite gets_bind. cbv zeta. simpl. apply lookup_lt_Some in Hl.
      rewrite decide_False by (rewrite length_insert; lia). st_unfold. unfold entry.
      rewrite decide_True by done. simpl. by rewrite list_lookup_insert_eq by lia. }
  destruct (decide _) as [Hn|Hn]; intros E.
  - destruct auto; cbn [negb] in E.
    + destruct Hs as [Hs|]; [|done]. destruct (Hc _ _ E Hs) as (H1 & H2 & H3). auto.
    + by injection E as <- <-.
  - apply st_bind_inv in E as (e & t1 & [= He <-] & E). destruct e as [c|].
    + injection E as <- <-. unfold entry in He. case_decide; [|done].
      destruct (m_datas t !! Z.to_nat fd) as [e'|] eqn:Hl; [|done]. injection He as ->.
      split_and!; [done|intros c' [= <-]; by apply (Ht (Z.to_nat fd))|].
      intros _ _. exists c. split; [done|]. intros st. unfold get. rewrite decide_False by done.
      rewrite gets_bind. cbv zeta. rewrite decide_False by done. st_unfold. unfold entry.
      rewrite decide_True by done. by rewrite Hl.
    + destruct auto; cbn [negb] in E.
      * destruct Hs as [Hs|]; [|done]. destruct (Hc _ _ E Hs) as (H1 & H2 & H3). auto.
      * by injection E as <- <-.
Qed.

Lemma on_fds_val {A} (m : ST Fds A) s a s' :
  on_fds m s = (Val a, s') ->
  exists t', m (fds s) = (Val a, t') /\
    s' = mkNet (socks s) (fresh s) t' (hook_enable s) (answers s) (log s).
Proof. unfold on_fds. destruct (m (fds s)) as [r t']. intros [= -> <-]. eauto. Qed.

Lemma good_table s t :
  good s -> table_ok t -> good (mkNet (socks s) (fresh s) t (hook_enable s) (answers s) (log s)).
Proof. by intros (? & ? & ?) ?. Qed.

Lemma keeps_on_fds {A} (m : ST Fds A) :
  (forall t a t', m t = (Val a, t') -> table_ok t -> table_ok t') -> keeps (on_fds m).
Proof.
  intros Hm s a s' E Hg. apply on_fds_val in E as (t' & E & ->). split; [|done].
  apply good_table; [done|]. destruct Hg as (_ & Ht & _). by apply (Hm (fds s) a).
Qed.

Lemma keeps_get fd : keeps (on_fds (get None fd false)).
Proof. apply keeps_on_fds. intros t o t' E Ht. by apply (get_val _ _ _ _ _ _ E Ht); right. Qed.

Lemma keeps_timeout h fd o a b : keeps (on_fds (setsockopt_timeout h fd o a b)).
Proof.
  apply keeps_on_fds. intros t u t'. unfold setsockopt_timeout. destruct h; [|by intros [= _ <-]]. simpl.
  case_decide; [|by intros [= _ <-]]. intros E Ht. apply st_bind_inv in E as (ctx & t1 & E1 & E).
  destruct (get_val _ _ _ _ _ _ E1 Ht) as (Ht1 & Hc & _); [by right|].
  destruct ctx as [c|]; [|by injection E as _ <-]. specialize (Hc c eq_refl).
  revert E. unfold set_entry. destruct (entry fd t1); [|done..]. intros [= _ <-].
  intros i c' Hi. simpl in Hi. apply list_lookup_insert_Some in Hi as [(_ & [= <-] & _)|[_ Hi]]; [|by apply (Ht1 i)].
  unfold setTimeout. by case_decide.
Qed.

(** *** The operations *)

#[local] Ltac keeps_step := first
  [ apply keeps_value | apply keeps_read | apply keeps_lift | apply keeps_sock_at | apply keeps_get
  | apply keeps_timeout | apply keeps_sys; exact I | apply keeps_update; done
  | apply keeps_seq; [|intros ?] | case_match | apply keeps_if ].
#[local] Ltac keeps_all := repeat keeps_step.

Lemma keeps_setOption a l o v : keeps (setOption a l o v).
Proof. unfold setOption, setsockopt. keeps_all. Qed.
Lemma keeps_initSock a : keeps (initSock a).
Proof.
  unfold initSock. apply keeps_seq; [apply keeps_setOption|intros _]. keeps_all.
Qed.
Lemma keeps_address call x : (forall fd, neutral (call fd)) -> keeps (fetch_name call x).
Proof. intros Hc. unfold fetch_name. apply keeps_seq; [by apply keeps_sys|]. intros r. keeps_all. Qed.
Lemma keeps_remote a : keeps (getRemoteAddress a).
Proof.
  unfold getRemoteAddress. apply keeps_seq; [apply keeps_sock_at|]. intros x. case_match; [apply keeps_value|].
  apply keeps_seq; [by apply keeps_address|]. intros r. keeps_all.
Qed.
Lemma keeps_local a : keeps (getLocalAddress a).
Proof.
  unfold getLocalAddress. apply keeps_seq; [apply keeps_sock_at|]. intros x. case_match; [apply keeps_value|].
  apply keeps_seq; [by apply keeps_address|]. intros r. keeps_all.
Qed.

(** A descriptor that a call gave goes into the socket. *)
Lemma update_new a f s s' u x r d :
  update a f s = (Val u, s') -> good s -> socks s !! a = Some x -> m_sock x = -1 -> m_sock (f x) = r ->
  (forall fd, fd <> -1 -> gap fd s = d fd + (if r =? fd then 1 else 0)) ->
  good s' /\ forall fd, fd <> -1 -> gap fd s' = d fd.
Proof.
  intros E Hg Hx Hv Hf Hd. apply update_val in E as (x' & Hx' & ->). simplify_eq.
  split; [by apply good_update|]. intros fd Hfd. rewrite (gap_update fd _ _ _ _ Hx'), (Hd fd Hfd).
  unfold holds. rewrite Hv, (proj2 (Z.eqb_neq (-1) fd)) by done. lia.
Qed.

Lemma newSock_balanced a s x :
  socks s !! a = Some x -> m_sock x = -1 -> balanced (newSock a) s.
Proof.
  intros Hx Hv u s' E Hg. unfold newSock in E.
  apply st_bind_inv in E as (x' & s1 & E1 & E). revert E1. unfold sock_at. rewrite Hx. intros [= <- <-].
  apply st_bind_inv in E as (r & s2 & E2 & E).
  destruct (sys_val _ _ _ _ E2 Hg) as (Hg2 & Hs2 & Hf2 & _ & Hr & _ & H2).
  rewrite gets_bind in E. apply st_bind_inv in E as (fd & s3 & E3 & E).
  assert (Hg3 : good s3 /\ socks s3 = socks s2 /\ forall fd, gap fd s3 = gap fd s2).
  { apply on_fds_val in E3 as (t' & E3 & ->). split; [|done]. apply good_table; [done|].
    destruct Hg2 as (_ & Ht & _). revert E3. unfold socket.
    destruct (hook_enable s2); simpl; [|by intros [= _ <-]]. case_decide; [by intros [= _ <-]|].
    intros E3. apply st_bind_inv in E3 as (o & t1 & E3 & [= _ <-]).
    apply (get_val _ _ _ _ _ _ E3 Ht). by left. }
  destruct Hg3 as (Hg3 & Hs3 & H3). apply st_bind_inv in E as (v & s4 & E4 & E).
  destruct (update_new _ _ _ _ _ x (rt r) (fun fd => gap fd s) E4 Hg3) as [Hg4 H4]; try done.
  { congruence. }
  { intros fd' _. rewrite H3, H2. simpl. lia. }
  assert (K : keeps (if negb (rt r =? -1) then initSock a else mret tt))
    by (apply keeps_if; [apply keeps_initSock|apply keeps_value]).
  destruct (K _ _ _ E Hg4) as [Hg5 H5]. split; [done|]. intros fd' Hfd. rewrite H5, H4 by done. done.
Qed.

Lemma keeps_ensure a : keeps (ensure_sock a).
Proof.
  intros s. apply balanced_bind; [apply keeps_sock_at|]. intros x s1 E.
  revert E. unfold sock_at. destruct (socks s !! a) as [y|] eqn:Hy; [|done]. intros [= <- <-].
  unfold isValid. destruct (Z.eqb_spec (m_sock y) (-1)) as [Hv|Hv]; simpl; [|apply keeps_value].
  apply balanced_bind; [by eapply newSock_balanced|]. intros u s2 _.
  apply (keeps_seq (sock_at a)); [apply keeps_sock_at|]. intros z. apply keeps_value.
Qed.

Lemma close_val a s b s' :
  Socket_close a s = (Val b, s') -> good s ->
  good s' /\ (forall fd, fd <> -1 -> gap fd s' = gap fd s) /\
  exists x, socks s' !! a = Some x /\ m_sock x = -1 /\ fresh s' = fresh s /\
    forall c, c <> a -> socks s' !! c = socks s !! c.
Proof.
  unfold Socket_close. intros E Hg. apply st_bind_inv in E as (x & s1 & E1 & E).
  revert E1. unfold sock_at. destruct (socks s !! a) as [y|] eqn:Hy; [|done]. intros [= <- <-].
  destruct (negb (m_isConnected y) && (m_sock y =? -1)) eqn:Hc.
  { injection E as _ <-. apply andb_true_iff in Hc as [_ Hc%Z.eqb_eq]. split; [done|]. split; [done|].
    by exists y. }
  apply st_bind_inv in E as (u & s2 & E2 & E). apply update_val in E2 as (y' & Hy' & ->). simplify_eq.
  assert (Hg2 : good (set_socks <[a:=set_connected false y']> s)) by by apply good_update.
  assert (H2 : forall fd, gap fd (set_socks <[a:=set_connected false y']> s) = gap fd s).
  { intros fd. rewrite (gap_update fd _ _ _ _ Hy'). unfold holds. simpl. lia. }
  apply st_bind_inv in E as (v & s3 & E3 & [= _ <-]).
  destruct (Z.eqb_spec (m_sock y') (-1)) as [Hv|Hv]; simpl in E3.
  - injection E3 as _ <-. split; [done|]. split; [by intros; rewrite H2|].
    exists (set_connected false y'). simpl. split_and!; try done; [by rewrite lookup_insert_eq|].
    intros c Hca. by rewrite lookup_insert_ne.
  - apply st_bind_inv in E3 as (r & s4 & E4 & E3).
    destruct (sys_val _ _ _ _ E4 Hg2) as (Hg4 & Hs4 & _ & Hf4 & _ & _ & H4).
    apply update_val in E3 as (z & Hz & ->). rewrite Hs4 in Hz. simpl in Hz. rewrite lookup_insert_eq in Hz.
    injection Hz as <-.
    assert (Hz' : socks s4 !! a = Some (set_connected false y')) by (rewrite Hs4; simpl; by rewrite lookup_insert_eq).
    split; [by apply good_update|]. split.
    + intros fd Hfd. rewrite (gap_update fd _ _ _ _ Hz'), H4, H2.
      unfold holds. cbn [delta m_sock set_sock set_connected].
      destruct (Z.eqb_spec (m_sock y') fd), (Z.eqb_spec (-1) fd); lia.
    + eexists. simpl. rewrite lookup_insert_eq. split; [done|]. split_and!; [done|by rewrite Hf4|].
      intros c Hca. rewrite lookup_insert_ne by done. rewrite Hs4. simpl. by rewrite lookup_insert_ne.
Qed.
Lemma keeps_close a : keeps (Socket_close a).
Proof. intros s b s' E Hg. destruct (close_val _ _ _ _ E Hg) as (? & ? & _). auto. Qed.

Lemma keeps_delete a : keeps (Socket_delete a).
Proof.
  intros s u s' E Hg. unfold Socket_delete in E. apply st_bind_inv in E as (b & s1 & E1 & [= _ <-]).
  destruct (close_val _ _ _ _ E1 Hg) as (Hg1 & H1 & x & Hx & Hv & _). split.
  - destruct Hg1 as (Hf & Ht & Ha). split_and!; try done. simpl. intros c Hc. apply lookup_delete_None. auto.
  - intros fd Hfd. rewrite <- H1 by done. unfold gap, held, open_count. simpl.
    rewrite (map_sum_delete _ _ _ _ Hx). unfold holds. rewrite Hv, (proj2 (Z.eqb_neq (-1) fd)) by done. lia.
Qed.

Lemma new_val f t p s :
  good s ->
  exists s', Socket_new f t p s = (Val (fresh s), s') /\ good s' /\
    socks s' !! fresh s = Some (mkSocket (-1) f t p false None None) /\ fds s' = fds s /\
    (forall a, a <> fresh s -> socks s' !! a = socks s !! a) /\
    forall fd, fd <> -1 -> gap fd s' = gap fd s.
Proof.
  intros (Hf & Ht & Ha). eexists. split; [reflexivity|]. cbn [socks fds]. split; [split; [|done]|].
  - simpl. intros b Hb. rewrite lookup_insert_ne by lia. apply Hf. lia.
  - split; [by rewrite lookup_insert_eq|]. split; [done|].
    split; [intros a Hn; by rewrite lookup_insert_ne|].
    intros fd Hfd. unfold gap, held, open_count. simpl. rewrite map_sum_fresh by (apply Hf; lia).
    unfold holds at 1. simpl m_sock. rewrite (proj2 (Z.eqb_neq (-1) fd)) by done. lia.
Qed.
Lemma keeps_new f t p : keeps (Socket_new f t p).
Proof.
  intros s a s' E Hg. destruct (new_val f t p s Hg) as (s1 & E1 & Hg1 & _ & _ & _ & H).
  rewrite E1 in E. injection E as <- <-. auto.
Qed.

Lemma keeps_bind_address a addr : keeps (Socket_bind a addr).
Proof.
  unfold Socket_bind. apply keeps_seq; [apply keeps_ensure|intros valid]. case_match; [apply keeps_value|].
  apply keeps_seq; [apply keeps_sock_at|intros x]. case_match; [apply keeps_value|].
  apply keeps_seq; [by apply keeps_sys|intros r]. case_match; [apply keeps_value|].
  apply keeps_seq; [apply keeps_local|intros y; apply keeps_value].
Qed.

Lemma keeps_listen a b : keeps (Socket_listen a b).
Proof. unfold Socket_listen. keeps_all. Qed.

Lemma keeps_connect a addr t : keeps (Socket_connect a addr t).
Proof.
  unfold Socket_connect. apply keeps_seq; [apply keeps_ensure|intros valid]. case_match; [apply keeps_value|].
  apply keeps_seq; [apply keeps_sock_at|intros x]. case_match; [apply keeps_value|].
  apply keeps_seq; [by apply keeps_sys|intros r].
  case_match; [apply keeps_seq; [apply keeps_close|intros b; apply keeps_value]|].
  apply keeps_seq; [by apply keeps_update|intros u].
  apply keeps_seq; [apply keeps_remote|intros y].
  apply keeps_seq; [apply keeps_local|intros z; apply keeps_value].
Qed.

(** [init] of a new socket with a descriptor that counts as open. *)
Lemma init_val a sock s b s' x c :
  Socket_init a sock s = (Val b, s') -> good s -> socks s !! a = Some x -> m_sock x = -1 ->
  (forall st, get st sock false (fds s) = (Val (Some c), fds s)) -> is_open_socket c ->
  b = true /\ good s' /\
  forall fd, fd <> -1 -> gap fd s' = gap fd s - (if sock =? fd then 1 else 0).
Proof.
  intros E Hg Hx Hv Hget [Hc1 Hc2]. unfold Socket_init in E.
  apply st_bind_inv in E as (ctx & s1 & E1 & E). apply on_fds_val in E1 as (t & E1 & ->).
  rewrite Hget in E1. injection E1 as <- <-.
  replace (mkNet _ _ _ _ _ _) with s in E by by destruct s. rewrite Hc1, Hc2 in E. cbn [negb andb] in E.
  apply st_bind_inv in E as (u & s2 & E2 & E).
  destruct (update_new _ _ _ _ _ x sock (fun fd => gap fd s - (if sock =? fd then 1 else 0)) E2 Hg)
    as [Hg2 H2]; try done; [intros; lia|].
  apply st_bind_inv in E as (v & s3 & E3 & E). destruct (keeps_initSock _ _ _ _ E3 Hg2) as [Hg3 H3].
  apply st_bind_inv in E as (l & s4 & E4 & E). destruct (keeps_local _ _ _ _ E4 Hg3) as [Hg4 H4].
  apply st_bind_inv in E as (m & s5 & E5 & [= <- <-]).
  destruct (keeps_remote _ _ _ _ E5 Hg4) as [Hg5 H5].
  split; [done|]. split; [done|]. intros fd Hfd. by rewrite H5, H4, H3, H2.
Qed.

(** [accept]: the state behind the call, and how it ends. *)
Lemma accept_cases a s o s' :
  Socket_accept a s = (Val o, s') -> good s ->
  exists x r n, socks s !! a = Some x /\ good n /\ fresh n = S (fresh s) /\
    log n = (log s ++ [(CAccept (m_sock x), r)])%list /\
    socks n !! fresh s = Some (mkSocket (-1) (m_family x) (m_type x) (m_protocol x) false None None) /\
    (forall c, c <> fresh s -> socks n !! c = socks s !! c) /\
    (forall fd, fd <> -1 -> gap fd n = gap fd s + if r =? fd then 1 else 0) /\
    ((r = -1 /\ o = None /\ exists u, Socket_delete (fresh s) n = (Val u, s')) \/
     (r <> -1 /\ o = Some (fresh s) /\ Socket_init (fresh s) r n = (Val true, s') /\
      exists c, is_open_socket c /\ forall st, get st r false (fds n) = (Val (Some c), fds n))).
Proof.
  unfold Socket_accept. intros E Hg. apply st_bind_inv in E as (x & s0 & E0 & E).
  revert E0. unfold sock_at. destruct (socks s !! a) as [y|] eqn:Hx; [|done]. intros [= <- <-].
  destruct (new_val (m_family y) (m_type y) (m_protocol y) s Hg) as (s1 & E1 & Hg1 & Hx1 & _ & Ho1 & H1).
  rewrite (st_bind_val _ _ _ _ _ E1) in E.
  assert (Hn1 : fresh s1 = S (fresh s) /\ log s1 = log s).
  { unfold Socket_new in E1. by injection E1 as <-. }
  destruct Hn1 as [Hf1 Hlog1].
  apply st_bind_inv in E as (r & s2 & E2 & E).
  destruct (sys_val _ _ _ _ E2 Hg1) as (Hg2 & Hs2 & _ & Hf2 & Hr & _ & H2).
  assert (Hl2 : log s2 = (log s ++ [(CAccept (m_sock y), rt r)])%list).
  { revert E2. unfold sys. destruct (answers s1); [done|]. intros [= <- <-]. simpl. by rewrite Hlog1. }
  apply st_bind_inv in E as (fd & s3 & E3 & E). apply on_fds_val in E3 as (t & E3 & ->).
  assert (Hgap : forall fd, fd <> -1 -> gap fd s2 = gap fd s + if rt r =? fd then 1 else 0).
  { intros fd' Hfd. rewrite H2, H1 by done. done. }
  exists y, (rt r). unfold accept in E3. case_decide as Hpos.
  - apply st_bind_inv in E3 as (o' & t1 & E3 & [= <- ->]). pose proof Hg2 as (_ & Ht & _).
    destruct (get_val _ _ _ _ _ _ E3 Ht) as (Ht' & Hc & Hget); [by left|].
    destruct Hget as (c & -> & Hget); [lia|done|]. specialize (Hc c eq_refl).
    rewrite (proj2 (Z.eqb_neq (rt r) (-1))) in E by lia.
    apply st_bind_inv in E as (ok & s4 & E4 & E).
    assert (Hg3 : good (mkNet (socks s2) (fresh s2) t (hook_enable s2) (answers s2) (log s2)))
      by by apply good_table.
    destruct (init_val _ _ _ _ _ (mkSocket (-1) (m_family y) (m_type y) (m_protocol y) false None None) c E4)
      as (-> & _); try done; [simpl; by rewrite Hs2|].
    injection E as <- <-. eexists. split; [done|]. split; [exact Hg3|]. cbn [fresh log socks fds].
    split; [by rewrite Hf2|]. split; [done|]. split; [by rewrite Hs2|].
    split; [intros c' Hc'; by rewrite Hs2, Ho1|].
    split; [intros fd Hfd; exact (Hgap fd Hfd)|]. right.
    split; [lia|]. split; [done|]. split; [exact E4|]. eauto.
  - injection E3 as <- <-.
    assert (Hm : rt r = -1 \/ rt r < -1) by lia. destruct Hm as [Hm|Hm].
    + rewrite Hm, Z.eqb_refl in E. apply st_bind_inv in E as (u & s4 & E4 & [= <- <-]).
      exists s2. split; [done|]. split; [done|]. split; [by rewrite Hf2|]. split; [done|].
      split; [by rewrite Hs2|]. split; [intros c' Hc'; by rewrite Hs2, Ho1|]. split; [exact Hgap|]. left. split; [done|]. split; [done|].
      exists u. rewrite <- E4. by destruct s2.
    + exfalso. rewrite (proj2 (Z.eqb_neq (rt r) (-1))) in E by lia.
      apply st_bind_inv in E as (ok & s4 & E4 & _). unfold Socket_init in E4.
      apply st_bind_inv in E4 as (ctx & s5 & E5 & _). apply on_fds_val in E5 as (t & E5 & _).
      unfold get in E5. simpl in E5. rewrite decide_False in E5 by lia. rewrite gets_bind in E5.
      rewrite decide_False in E5 by lia. apply st_bind_inv in E5 as (e & t1 & [= E5 _] & _).
      unfold entry in E5. by rewrite decide_False in E5 by lia.
Qed.

Lemma keeps_accept a : keeps (Socket_accept a).
Proof.
  intros s o s' E Hg.
  destruct (accept_cases _ _ _ _ E Hg) as (x & r & n & Hx & Hgn & _ & _ & Hnew & _ & Hgap & Hcase).
  destruct Hcase as [(-> & _ & u & Ed)|(Hr & _ & Ei & c & Hc & Hget)].
  - destruct (keeps_delete _ _ _ _ Ed Hgn) as [Hg' H']. split; [done|]. intros fd Hfd.
    rewrite H', Hgap, (proj2 (Z.eqb_neq (-1) fd)) by done. lia.
  - destruct (init_val _ _ _ _ _ _ c Ei Hgn Hnew) as (_ & Hg' & H'); try done. split; [done|].
    intros fd Hfd. rewrite H', Hgap by done. lia.
Qed.
End Descriptors.

(** The public operations on sockets. *)
Inductive operation :=
  | ONew (family type protocol : Z)
  | OCreateUDP (address : Address)
  | ODelete (a : nat)
  | OBind (a : nat) (addr : Address)
  | OConnect (a : nat) (addr : Address) (timeout_ms : Z)
  | OListen (a : nat) (backlog : Z)
  | OAccept (a : nat)
  | OClose (a : nat)
  | OSend (a : nat) (buffers : list (list byte)) (to : option Address) (flags : Z)
  | ORecv (a : nat) (lengths : list Z) (flags : Z)
  | ORecvFrom (a : nat) (lengths : list Z) (from : Address) (flags : Z)
  | ORemote (a : nat)
  | OLocal (a : nat)
  | OSetTimeout (option : Z) (a : nat) (v : Z)
  | OGetTimeout (option : Z) (a : nat)
  | OSetOption (a : nat) (level option : Z) (val : optval)
  | OGetError (a : nat)
  | OCancel (a : nat).

Section Run.
Context `{kernel : Kernel} `{host : Host}.

Definition perform (o : operation) : ST Net unit :=
  match o with
  | ONew f t p => Socket_new f t p;; mret tt
  | OCreateUDP addr => CreateUDP addr;; mret tt
  | ODelete a => Socket_delete a
  | OBind a addr => Socket_bind a addr;; mret tt
  | OConnect a addr t => Socket_connect a addr t;; mret tt
  | OListen a b => Socket_listen a b;; mret tt
  | OAccept a => Socket_accept a;; mret tt
  | OClose a => Socket_close a;; mret tt
  | OSend a l to f => Socket_send a l to f;; mret tt
  | ORecv a l f => Socket_recv a l f;; mret tt
  | ORecvFrom a l from f => Socket_recvFrom a l from f;; mret tt
  | ORemote a => getRemoteAddress a;; mret tt
  | OLocal a => getLocalAddress a;; mret tt
  | OSetTimeout o a v => setTimeoutOption o a v
  | OGetTimeout o a => getTimeoutOption o a;; mret tt
  | OSetOption a l o v => setOption a l o v;; mret tt
  | OGetError a => getError a;; mret tt
  | OCancel a => cancelRead a;; cancelWrite a;; Socket_cancelAll a;; mret tt
  end.
Fixpoint run (l : list operation) : ST Net unit :=
  match l with [] => mret tt | o :: l => perform o;; run l end.

(** No sockets yet, and what the calls will answer. *)
Definition Net_start (hook_enable : bool) (l : list answer) : Net :=
  mkNet ∅ 0 FdManager_new hook_enable l [].

#[local] Ltac keeps_step := first
  [ apply keeps_value | apply keeps_read | apply keeps_lift | apply keeps_sock_at | apply keeps_get
  | apply keeps_timeout | apply keeps_sys; exact I | apply keeps_update; done
  | apply keeps_new | apply keeps_delete | apply keeps_bind_address | apply keeps_connect
  | apply keeps_accept | apply keeps_close | apply keeps_remote | apply keeps_local | apply keeps_setOption
  | apply keeps_seq; [|intros ?] | case_match | apply keeps_if ].

Lemma keeps_createUDP addr : keeps (CreateUDP addr).
Proof.
  unfold CreateUDP. intros s a s' E Hg.
  destruct (new_val (getFamily addr) SOCK_DGRAM 0 s Hg) as (s1 & E1 & Hg1 & Hx & _ & _ & H1).
  rewrite (st_bind_val _ _ _ _ _ E1) in E. apply st_bind_inv in E as (u & s2 & E2 & E).
  destruct (newSock_balanced _ _ _ Hx eq_refl _ _ E2 Hg1) as [Hg2 H2].
  apply st_bind_inv in E as (v & s3 & E3 & [= _ <-]).
  destruct (keeps_update (fresh s) (set_connected true) (fun _ => eq_refl) _ _ _ E3 Hg2) as [Hg3 H3].
  split; [done|]. intros fd Hfd. by rewrite H3, H2, H1.
Qed.

Lemma keeps_perform o : keeps (perform o).
Proof.
  destruct o; cbn [perform];
    unfold Socket_listen, Socket_send, Socket_recv, Socket_recvFrom, setTimeoutOption, getTimeoutOption,
      getError, getOption, cancelRead, cancelWrite, Socket_cancelAll;
    try (apply keeps_seq; [apply keeps_createUDP|intros; apply keeps_value]); repeat keeps_step.
Qed.

Lemma keeps_run l : keeps (run l).
Proof.
  induction l as [|o l IH]; cbn [run]; [apply keeps_value|]. apply keeps_seq; [apply keeps_perform|done].
Qed.

(** C17: Descriptors. Whatever operations run on whatever sockets, and whatever the calls
    answer as long as the descriptors they give are sockets: if the operations return, every
    descriptor has been opened exactly as often as it has been closed and is now held by a
    socket. So none is closed twice or without being open, none is lost, and when
    all sockets are destroyed all descriptors are closed. *)
Theorem descriptors_owned hook l ops s
    (Hl : answers_ok l) (H : run ops (Net_start hook l) = (Val tt, s)) :
  (forall fd, fd <> -1 -> open_count fd s = held fd s) /\
  (socks s = ∅ -> forall fd, fd <> -1 -> open_count fd s = 0).
Proof.
  assert (Hg : good (Net_start hook l)).
  { split_and!; try done. intros i c Hi. cbn [Net_start fds FdManager_new m_datas] in Hi.
    by apply lookup_replicate in Hi as [? _]. }
  destruct (keeps_run ops _ _ _ H Hg) as [_ Hgap].
  assert (E : forall fd, fd <> -1 -> open_count fd s = held fd s).
  { intros fd Hfd. specialize (Hgap fd Hfd). unfold gap, held at 2, open_count at 2 in Hgap. simpl in Hgap.
    rewrite map_sum_empty in Hgap. lia. }
  split; [done|]. intros Hs fd Hfd. rewrite E by done. unfold held. by rewrite Hs, map_sum_empty.
Qed.
End Run.

#[local] Instance linux : Kernel.
Proof. refine {| settable := O_NONBLOCK |}. reflexivity. Defined.
#[local] Instance little : Host := MYHTTP_LITTLE_ENDIAN.

(** A server socket that accepts a client, and both destroyed. *)
Definition demo_answers : list answer :=
  (fun v => mkAnswer v (Some true) None 0 []) <$> [5; 0; 0; 0; 0; 0; 6; 0; 0; 0; 0; 0; 0].
Definition demo_operations : list operation :=
  [ONew AF_INET SOCK_STREAM 0; OBind 0 (IPv4Address (IPv4_new 0 8080)); OListen 0 SOMAXCONN; OAccept 0;
   ODelete 1; ODelete 0].

Lemma descriptors_owned_witness :
  exists s, run demo_operations (Net_start true demo_answers) = (Val tt, s) /\
    length (log s) = 13%nat /\ open_count 6 s = 0.
Proof.
  eexists. split; [vm_compute; reflexivity|]. split; [reflexivity|].
  eapply (descriptors_owned true demo_answers demo_operations);
    [repeat constructor|vm_compute; reflexivity|reflexivity|done].
Defined.

(** ** Timeouts and addresses *)

Section Outcomes.
Context `{kernel : Kernel} `{host : Host}.

Lemma get_entry fd t c :
  get None fd false t = (Val (Some c), t) <-> 0 <= fd /\ m_datas t !! Z.to_nat fd = Some (Some c).
Proof.
  unfold get. split.
  - case_decide; [done|]. rewrite gets_bind. cbv zeta. case_decide as Hn; [done|]. st_unfold.
    unfold entry. case_decide as Hp; [|done]. destruct (m_datas t !! Z.to_nat fd) as [[e|]|]; [|done..].
    by intros [= ->].
  - intros [Hp Hl]. rewrite decide_False by lia. rewrite gets_bind. cbv zeta.
    pose proof (lookup_lt_Some _ _ _ Hl). rewrite decide_False by lia. st_unfold. unfold entry.
    by rewrite decide_True, Hl by done.
Qed.

(** The seconds and microseconds of a timeout, put together again. *)
Lemma timeval_ms v :
  0 <= v < 1000 * 2 ^ 31 ->
  u64 (s32 (Z.quot v 1000) * 1000 + Z.quot (s32 (Z.rem v 1000 * 1000)) 1000) = v.
Proof.
  intros Hv. pose proof (Z.quot_rem' v 1000). pose proof (Z.rem_bound_pos v 1000 ltac:(lia) ltac:(lia)).
  assert (0 <= Z.quot v 1000 < 2 ^ 31) by (split; [apply Z.quot_pos; lia|apply Z.quot_lt_upper_bound; lia]).
  rewrite !swrap_small by (unfold in_s; lia). rewrite Z.quot_mul by lia.
  rewrite wrap_small; [lia|]. unfold in_u. lia.
Qed.

(** Timeouts. A timeout of less than 2^31 seconds that is set on a socket of the
    table, with the hooks enabled, is read back to the millisecond, whatever the kernel says,
    and the other timeout of the socket stays as it was. *)
Theorem timeouts_read_back o other a v s x c r l
    (Hx : socks s !! a = Some x) (Hc : get None (m_sock x) false (fds s) = (Val (Some c), fds s))
    (Hh : hook_enable s = true) (Hr : answers s = r :: l) (Hv : 0 <= v < 1000 * 2 ^ 31)
    (Ho : (o, other) = (SO_RCVTIMEO, SO_SNDTIMEO) \/ (o, other) = (SO_SNDTIMEO, SO_RCVTIMEO)) :
  exists s', setTimeoutOption o a v s = (Val tt, s') /\
    (getTimeoutOption o a s').1 = Val v /\
    (getTimeoutOption other a s').1 = (getTimeoutOption other a s).1.
Proof.
  pose proof (proj1 (get_entry _ _ _) Hc) as [Hp Hl].
  set (c' := setTimeout o v c).
  set (t' := mkFds (<[Z.to_nat (m_sock x) := Some c']> (m_datas (fds s))) (flags (fds s))).
  set (s' := mkNet (socks s) (fresh s) t' true l
    (log s ++ [(CSetsockopt (m_sock x) SOL_SOCKET o (OTimeval (s32 (Z.quot v 1000)) (s32 (Z.rem v 1000 * 1000))), rt r)])).
  assert (Hset : setTimeoutOption o a v s = (Val tt, s')).
  { unfold setTimeoutOption, setOption, sock_at. st_unfold. rewrite Hx. cbn [deref].
    unfold setsockopt. st_unfold. rewrite Hh. cbn [Z.eqb Pos.eqb SOL_SOCKET].
    unfold on_fds, setsockopt_timeout. cbn [negb].
    rewrite decide_True by (destruct Ho as [[= -> ->]|[= -> ->]]; auto). st_unfold. rewrite Hc.
    rewrite timeval_ms by done. unfold set_entry, entry. rewrite decide_True by done. rewrite Hl. cbn [deref].
    unfold sys. cbn [answers]. by rewrite Hr, Hh. }
  assert (Hget : get None (m_sock x) false (fds s') = (Val (Some c'), fds s')).
  { apply get_entry. split; [done|]. simpl. apply list_lookup_insert_eq. by eapply lookup_lt_Some. }
  assert (Hread : forall o s1 c1, socks s1 !! a = Some x ->
    get None (m_sock x) false (fds s1) = (Val (Some c1), fds s1) ->
    (getTimeoutOption o a s1).1 = Val (s64 (getTimeout o c1))).
  { intros o1 s1 c1 H1 H2. unfold getTimeoutOption, sock_at. st_unfold. rewrite H1. cbn [deref].
    unfold on_fds. by rewrite H2. }
  exists s'. split; [done|]. rewrite (Hread o s' c'), (Hread other s' c'), (Hread other s c) by done.
  unfold c', setTimeout, getTimeout. destruct Ho as [[= -> ->]|[= -> ->]]; simpl.
  - split; [f_equal; apply swrap_small; unfold in_s; lia|done].
  - split; [f_equal; apply swrap_small; unfold in_s; lia|done].
Qed.

(** Sockets of the Unix family. Their address is fetched into an object of the wrong
    class: as soon as [bind] succeeds, the process dereferences a null pointer; likewise
    [connect], and the addresses of an accepted socket. *)
Theorem unix_socket_faults a s x addr r1 r2 l t
    (Hx : socks s !! a = Some x) (Hf : m_family x = AF_UNIX) (Hv : m_sock x <> -1)
    (Hl : m_localAddress x = None) (Hp : m_remoteAddress x = None)
    (Haddr : getFamily addr = AF_UNIX) (H1 : rt r1 = 0) (H2 : rt r2 = 0)
    (Ha : answers s = r1 :: r2 :: l) :
  (Socket_bind a addr s).1 = Bad NullDeref /\
  (Socket_connect a addr t s).1 = Bad NullDeref /\
  (getLocalAddress a s).1 = Bad NullDeref /\ (getRemoteAddress a s).1 = Bad NullDeref.
Proof.
  assert (Hfetch : forall call s y r l, answers s = r :: l -> rt r = 0 -> m_family y = AF_UNIX ->
    (fetch_name call y s).1 = Bad NullDeref).
  { intros call s0 y r l0 E Hr Hy. unfold fetch_name, sys. st_unfold. rewrite E, Hr. cbn [Z.eqb negb].
    rewrite Hy. destruct (name r) as [[[] n]|]; reflexivity. }
  assert (Hlocal : forall s y r l, socks s !! a = Some y -> m_localAddress y = None -> m_family y = AF_UNIX ->
    answers s = r :: l -> rt r = 0 -> (getLocalAddress a s).1 = Bad NullDeref).
  { intros s0 y r l0 Hy Hly Hfy E Hr. unfold getLocalAddress, sock_at. st_unfold. rewrite Hy. cbn [deref].
    rewrite Hly. specialize (Hfetch CGetsockname s0 y r l0 E Hr Hfy).
    destruct (fetch_name CGetsockname y s0) as [[o|e|f] s1]; cbn [fst] in *; congruence. }
  assert (Hremote : forall s y r l, socks s !! a = Some y -> m_remoteAddress y = None -> m_family y = AF_UNIX ->
    answers s = r :: l -> rt r = 0 -> (getRemoteAddress a s).1 = Bad NullDeref).
  { intros s0 y r l0 Hy Hly Hfy E Hr. unfold getRemoteAddress, sock_at. st_unfold. rewrite Hy. cbn [deref].
    rewrite Hly. specialize (Hfetch CGetpeername s0 y r l0 E Hr Hfy).
    destruct (fetch_name CGetpeername y s0) as [[o|e|f] s1]; cbn [fst] in *; congruence. }
  assert (Hvalid : ensure_sock a s = (Val true, s)).
  { unfold ensure_sock, sock_at. st_unfold. rewrite Hx. cbn [deref]. unfold isValid.
    by rewrite (proj2 (Z.eqb_neq _ _)). }
  assert (Hsock : sock_at a s = (Val x, s)) by (unfold sock_at; by rewrite Hx).
  assert (Hsys : forall c, exists lg, sys c s = (Val r1, mkNet (socks s) (fresh s) (fds s) (hook_enable s) (r2 :: l) lg)).
  { intros c. unfold sys. rewrite Ha. eauto. }
  split_and!; [| |by eapply Hlocal|by eapply Hremote].
  - unfold Socket_bind. rewrite (st_bind_val _ _ _ _ _ Hvalid). cbn [negb].
    rewrite (st_bind_val _ _ _ _ _ Hsock), Haddr, Hf. cbn [Z.eqb Pos.eqb negb AF_UNIX].
    destruct (Hsys (CBind (m_sock x) addr)) as [lg E]. rewrite (st_bind_val _ _ _ _ _ E), H1. cbn [Z.eqb negb].
    specialize (Hlocal (mkNet (socks s) (fresh s) (fds s) (hook_enable s) (r2 :: l) lg) x r2 l Hx Hl Hf eq_refl H2).
    unfold mbind, st_bind. destruct (getLocalAddress a _) as [[o|e|f] s1]; cbn [fst] in *; congruence.
  - unfold Socket_connect. rewrite (st_bind_val _ _ _ _ _ Hvalid). cbn [negb].
    rewrite (st_bind_val _ _ _ _ _ Hsock), Haddr, Hf. cbn [Z.eqb Pos.eqb negb AF_UNIX].
    destruct (Hsys (CConnect (m_sock x) addr (if t =? 2 ^ 64 - 1 then None else Some t))) as [lg E].
    rewrite (st_bind_val _ _ _ _ _ E), H1. cbn [Z.eqb negb].
    set (s1 := mkNet _ _ _ _ _ lg).
    assert (E2 : update a (set_connected true) s1 = (Val tt, set_socks <[a := set_connected true x]> s1)).
    { unfold update, sock_at. st_unfold. simpl. by rewrite Hx. }
    rewrite (st_bind_val _ _ _ _ _ E2).
    specialize (Hremote (set_socks <[a := set_connected true x]> s1) (set_connected true x) r2 l).
    specialize (Hremote ltac:(simpl; by rewrite lookup_insert_eq) Hp Hf eq_refl H2).
    unfold mbind at 1, st_bind at 1.
    destruct (getRemoteAddress a _) as [[o|e|f] s2]; cbn [fst] in *; congruence.
Qed.

End Outcomes.

(** A Unix server socket. *)
Definition demo_unix : Net :=
  mkNet {[ 0%nat := mkSocket 5 AF_UNIX SOCK_STREAM 0 false None None ]} 1
    (mkFds (replicate 5 None ++ [Some (mkFdCtx true true true false false 5 (2 ^ 64 - 1) (2 ^ 64 - 1))])%list ∅)
    true [result 0; result 0] [].

Lemma unix_socket_faults_witness : (Socket_bind 0 UnixAddress_default demo_unix).1 = Bad NullDeref.
Proof.
  eapply (unix_socket_faults 0 demo_unix _ UnixAddress_default (result 0) (result 0) [] 0);
    [apply lookup_singleton_eq|done..].
Defined.

Lemma timeouts_read_back_witness :
  exists s, setRecvTimeout 0 120500 demo_unix = (Val tt, s) /\ (getRecvTimeout 0 s).1 = Val 120500 /\
    (getSendTimeout 0 s).1 = Val (-1).
Proof.
  destruct (timeouts_read_back SO_RCVTIMEO SO_SNDTIMEO 0 120500 demo_unix
    (mkSocket 5 AF_UNIX SOCK_STREAM 0 false None None)
    (mkFdCtx true true true false false 5 (2 ^ 64 - 1) (2 ^ 64 - 1)) (result 0) [result 0])
    as (s & E & H1 & H2); [reflexivity|reflexivity|reflexivity|reflexivity|lia|by left|].
  exists s. split; [exact E|]. split; [exact H1|]. etransitivity; [exact H2|by vm_compute].
Defined.
