(* ===== verification/TcpServer.v ===== *)
(** * The TCP server (tcp_server.h, tcp_server.cpp)

    A server owns listening sockets of Socket.v and hands callbacks to two schedulers;
    the callbacks are kept here in the order they are scheduled. [g_tcp_server_read_timeout]
    is an argument of the constructor. The theorems: [bind] takes all addresses or
    none and closes what it opened, and every client that is accepted is handed on
    once, in order, until the server is stopped. *)
From stdpp Require Import base tactics option list gmap strings numbers.
From coqutil Require Import Byte.
From S2P Require Import Prelude Endian FdManager Hook Address Socket.

Open Scope string_scope.
Open Scope Z_scope.

(** The callbacks that are scheduled. *)
Inductive callback :=
  | HandleClient (client : nat)
  | StartAccept (sock : nat)
  | StopSockets.

Record TcpServer := mkServer {
  m_socks : list nat;
  m_worker : list callback;
  m_acceptWorker : list callback;
  m_recvTimeout : Z;
  m_name : string;
  m_isStop : bool;
  net : Net
}.

Definition set_socks v (s : TcpServer) :=
  mkServer v (m_worker s) (m_acceptWorker s) (m_recvTimeout s) (m_name s) (m_isStop s) (net s).
Definition set_worker v (s : TcpServer) :=
  mkServer (m_socks s) v (m_acceptWorker s) (m_recvTimeout s) (m_name s) (m_isStop s) (net s).
Definition set_acceptWorker v (s : TcpServer) :=
  mkServer (m_socks s) (m_worker s) v (m_recvTimeout s) (m_name s) (m_isStop s) (net s).
Definition set_recvTimeout v (s : TcpServer) :=
  mkServer (m_socks s) (m_worker s) (m_acceptWorker s) v (m_name s) (m_isStop s) (net s).
Definition set_name v (s : TcpServer) :=
  mkServer (m_socks s) (m_worker s) (m_acceptWorker s) (m_recvTimeout s) v (m_isStop s) (net s).
Definition set_isStop v (s : TcpServer) :=
  mkServer (m_socks s) (m_worker s) (m_acceptWorker s) (m_recvTimeout s) (m_name s) v (net s).

(** An operation on a socket. *)
Definition on_net {A} (m : ST Net A) : ST TcpServer A := fun s =>
  let '(r, n) := m (net s) in
  (r, mkServer (m_socks s) (m_worker s) (m_acceptWorker s) (m_recvTimeout s) (m_name s) (m_isStop s) n).

Section Server.
Context `{kernel : Kernel} `{host : Host}.

(** [TcpServer(worker, accept_worker)] *)
Definition TcpServer_new (read_timeout : Z) (n : Net) : TcpServer :=
  mkServer [] [] [] read_timeout "sylar/1.0.0" true n.

(** The body of the loop of [bind]: [fails]. A socket that is not kept is destroyed. *)
Definition bind_one (addr : Address) (fails : list Address) : ST TcpServer (list Address) :=
  sock ← on_net (CreateTCP addr);
  ok ← on_net (Socket_bind sock addr);
  if negb ok then on_net (Socket_delete sock);; mret (fails ++ [addr])%list else
  ok ← on_net (Socket_listen sock SOMAXCONN);
  if negb ok then on_net (Socket_delete sock);; mret (fails ++ [addr])%list else
  modify (fun s => set_socks (m_socks s ++ [sock])%list s);; mret fails.
Fixpoint bind_all (addrs fails : list Address) : ST TcpServer (list Address) :=
  match addrs with [] => mret fails | addr :: addrs => fails ← bind_one addr fails; bind_all addrs fails end.

(** [m_socks.clear()]: the sockets that no accepting fiber ([held]) points to are
    destroyed. *)
Fixpoint release (held l : list nat) : ST Net unit :=
  match l with
  | [] => mret tt
  | a :: l => (if decide (a ∈ held) then mret tt else Socket_delete a);; release held l
  end.
Definition clear_socks (held : list nat) : ST TcpServer unit :=
  l ← gets m_socks; on_net (release held l);; modify (set_socks []).

(** [bind(addrs, fails)]: the result and [fails]; and [bind(addr)]. *)
Definition TcpServer_bind (held : list nat) (addrs fails : list Address) : ST TcpServer (bool * list Address) :=
  fails ← bind_all addrs fails;
  if decide (fails = []) then mret (true, fails)
  else clear_socks held;; mret (false, fails).
Definition bind_address (held : list nat) (addr : Address) : ST TcpServer bool :=
  r ← TcpServer_bind held [addr] []; mret r.1.

(** [start()] *)
Definition TcpServer_start : ST TcpServer bool :=
  stopped ← gets m_isStop;
  if negb stopped then mret true else
  modify (set_isStop false);;
  modify (fun s => set_acceptWorker (m_acceptWorker s ++ (StartAccept <$> m_socks s))%list s);;
  mret true.

(** [stop()], and the callback it schedules. *)
Definition TcpServer_stop : ST TcpServer unit :=
  modify (set_isStop true);;
  modify (fun s => set_acceptWorker (m_acceptWorker s ++ [StopSockets])%list s).
Fixpoint close_all (l : list nat) : ST Net unit :=
  match l with [] => mret tt | a :: l => Socket_cancelAll a;; Socket_close a;; close_all l end.
Definition stop_sockets (held : list nat) : ST TcpServer unit :=
  l ← gets m_socks; on_net (close_all l);; clear_socks held.

(** A round of [startAccept]: whether the loop goes on. While [accept] waits other
    fibers run; [stopped] says whether one of them calls [stop()]. *)
Definition accept_round (stopped : bool) (sock : nat) : ST TcpServer bool :=
  stop ← gets m_isStop;
  if (stop : bool) then mret false else
  (if stopped then TcpServer_stop else mret tt);;
  client ← on_net (Socket_accept sock);
  match client with
  | Some c =>
      v ← gets m_recvTimeout;
      on_net (setRecvTimeout c v);;
      modify (fun s => set_worker (m_worker s ++ [HandleClient c])%list s);;
      mret true
  | None => mret true
  end.

(** [startAccept(sock)] through as many rounds as there are elements; behind the last
    it waits for another client. *)
Fixpoint startAccept (rounds : list bool) (sock : nat) : ST TcpServer unit :=
  match rounds with
  | [] => mret tt
  | stopped :: rounds =>
      go ← accept_round stopped sock; if (go : bool) then startAccept rounds sock else mret tt
  end.
End Server.

(** ** Binding *)

Definition is_accept (e : syscall * Z) : bool := match e.1 with CAccept _ => true | _ => false end.
Definition no_accept (l : list (syscall * Z)) : Prop := Forall (fun e => is_accept e = false) l.
Definition extended (s s' : Net) : Prop := exists l, log s' = (log s ++ l)%list /\ no_accept l.

(** What changes no socket but [a], and accepts no client. *)
Definition only {A} (a : nat) (m : ST Net A) : Prop :=
  forall s r s', m s = (Val r, s') ->
  (fresh s <= fresh s')%nat /\ extended s s' /\
  forall c, c <> a -> socks s' !! c = socks s !! c.

Section Only.
Context `{kernel : Kernel} `{host : Host}.
Variable a : nat.

Lemma same_log (s s' : Net) : log s' = log s -> extended s s'.
Proof. intros E. exists []. split; [by rewrite E, app_nil_r|constructor]. Qed.
Lemma extended_trans s1 s2 s3 : extended s1 s2 -> extended s2 s3 -> extended s1 s3.
Proof.
  intros (l1 & L1 & N1) (l2 & L2 & N2). exists (l1 ++ l2)%list.
  split; [by rewrite L2, L1, app_assoc|by apply Forall_app].
Qed.

Lemma only_ret {A} (x : A) : only a (mret x).
Proof. intros s r s' [= _ <-]. auto using same_log. Qed.
Lemma only_gets {A} (f : Net -> A) : only a (gets f).
Proof. intros s r s' [= _ <-]. auto using same_log. Qed.
Lemma only_lift {A} (x : res A) : only a (lift x).
Proof. intros s r s' [= _ <-]. auto using same_log. Qed.
Lemma only_sock_at c : only a (sock_at c).
Proof. intros s r s' [= _ <-]. auto using same_log. Qed.
Lemma only_sys c : is_accept (c, 0) = false -> only a (sys c).
Proof.
  intros Hc s r s'. unfold sys. destruct (answers s) as [|r0 l]; [done|]. intros [= _ <-].
  split; [done|]. split; [|done]. exists [(c, rt r0)]. split; [done|]. constructor; [done|constructor].
Qed.
Lemma only_on_fds {A} (m : ST Fds A) : only a (on_fds m).
Proof. intros s r s' E. apply on_fds_val in E as (t & _ & ->). auto using same_log. Qed.
Lemma only_update f : only a (update a f).
Proof.
  intros s u s' E. apply update_val in E as (x & _ & ->). split; [done|]. split; [by apply same_log|].
  intros c Hc. simpl. by rewrite lookup_insert_ne.
Qed.
Lemma only_new f t p s r s' :
  Socket_new f t p s = (Val r, s') ->
  r = fresh s /\ fresh s' = S (fresh s) /\ log s' = log s /\
  forall c, c <> fresh s -> socks s' !! c = socks s !! c.
Proof. intros [= <- <-]. split_and!; try done. intros c Hc. simpl. by rewrite lookup_insert_ne. Qed.
Lemma only_bind {A B} (m : ST Net A) (k : A -> ST Net B) :
  only a m -> (forall x, only a (k x)) -> only a (mbind k m).
Proof.
  intros Hm Hk s r s' E. apply st_bind_inv in E as (x & s1 & E1 & E).
  destruct (Hm _ _ _ E1) as (H1 & L1 & H2). destruct (Hk x _ _ _ E) as (H3 & L2 & H4).
  split; [lia|]. split; [by eapply extended_trans|]. intros c Hc. by rewrite H4, H2.
Qed.

#[local] Ltac only_all := repeat first
  [ apply only_ret | apply only_gets | apply only_lift | apply only_sock_at | apply only_sys; reflexivity
  | apply only_on_fds | apply only_update | apply only_bind; [|intros ?] | case_match ].

Lemma only_delete : only a (modify (Socket.set_socks (delete a))).
Proof.
  intros s u s' [= _ <-]. split; [done|]. split; [by apply same_log|]. intros c Hc. simpl.
  by rewrite lookup_delete_ne.
Qed.
Lemma only_close : only a (Socket_close a).
Proof. unfold Socket_close. only_all. Qed.
Lemma only_Socket_delete : only a (Socket_delete a).
Proof. unfold Socket_delete. apply only_bind; [apply only_close|intros _; apply only_delete]. Qed.
Lemma only_ensure : only a (ensure_sock a).
Proof. unfold ensure_sock, newSock, initSock, setOption, setsockopt. only_all. Qed.
Lemma only_local : only a (getLocalAddress a).
Proof. unfold getLocalAddress, fetch_name. only_all. Qed.
Lemma only_bind_address addr : only a (Socket_bind a addr).
Proof.
  unfold Socket_bind. apply only_bind; [apply only_ensure|intros v]. case_match; [apply only_ret|].
  apply only_bind; [apply only_sock_at|intros x]. case_match; [apply only_ret|].
  apply only_bind; [by apply only_sys|intros r]. case_match; [apply only_ret|].
  apply only_bind; [apply only_local|intros y; apply only_ret].
Qed.
Lemma only_initSock : only a (initSock a).
Proof. unfold initSock, setOption, setsockopt. only_all. Qed.
Lemma only_remote : only a (getRemoteAddress a).
Proof. unfold getRemoteAddress, fetch_name. only_all. Qed.
Lemma only_setTimeout o v : only a (setTimeoutOption o a v).
Proof. unfold setTimeoutOption, setOption, setsockopt. only_all. Qed.
Lemma only_init sock : only a (Socket_init a sock).
Proof.
  unfold Socket_init. apply only_bind; [apply only_on_fds|intros ctx]. case_match; [|apply only_ret].
  case_match; [|apply only_ret]. apply only_bind; [apply only_update|intros _].
  apply only_bind; [apply only_initSock|intros _]. apply only_bind; [apply only_local|intros l].
  apply only_bind; [apply only_remote|intros r; apply only_ret].
Qed.
Lemma only_listen b : only a (Socket_listen a b).
Proof. unfold Socket_listen. only_all. Qed.
End Only.

Section Bind.
Context `{kernel : Kernel} `{host : Host}.

(** Socket [a] is bound to [addr] and listens. *)
Definition listens (s : Net) (addr : Address) (a : nat) : Prop :=
  exists x, socks s !! a = Some x /\ m_sock x <> -1 /\ m_family x = getFamily addr /\
    (CBind (m_sock x) addr, 0) ∈ log s /\ (CListen (m_sock x) SOMAXCONN, 0) ∈ log s.

Lemma listens_other s s' addr a :
  listens s addr a -> socks s' !! a = socks s !! a -> extended s s' ->
  listens s' addr a.
Proof.
  intros (x & Hx & Hv & Hf & Hb & Hl) E (l & L & _). exists x. rewrite E, L. split_and!; try done; apply elem_of_app; auto.
Qed.

Lemma sock_at_val a s x s' : sock_at a s = (Val x, s') -> s' = s /\ socks s !! a = Some x.
Proof. unfold sock_at. destruct (socks s !! a); [|done]. by intros [= -> <-]. Qed.

(** *** What leaves descriptor, family and connection of every socket *)

Definition steady {A} (m : ST Net A) : Prop :=
  forall s r s', m s = (Val r, s') -> forall c x, socks s !! c = Some x ->
  exists y, socks s' !! c = Some y /\ m_sock y = m_sock x /\ m_family y = m_family x /\
    m_isConnected y = m_isConnected x.

Lemma steady_same {A} (m : ST Net A) :
  (forall s r s', m s = (Val r, s') -> socks s' = socks s) -> steady m.
Proof. intros H s r s' E c x Hx. exists x. by rewrite (H _ _ _ E). Qed.
Lemma steady_ret {A} (x : A) : steady (mret x).
Proof. apply steady_same. by intros s r s' [= _ <-]. Qed.
Lemma steady_gets {A} (f : Net -> A) : steady (gets f).
Proof. apply steady_same. by intros s r s' [= _ <-]. Qed.
Lemma steady_lift {A} (x : res A) : steady (lift x).
Proof. apply steady_same. by intros s r s' [= _ <-]. Qed.
Lemma steady_sock_at a : steady (sock_at a).
Proof. apply steady_same. by intros s r s' [= _ <-]. Qed.
Lemma steady_sys c : steady (sys c).
Proof. apply steady_same. intros s r s'. unfold sys. destruct (answers s); [done|]. by intros [= _ <-]. Qed.
Lemma steady_on_fds {A} (m : ST Fds A) : steady (on_fds m).
Proof. apply steady_same. intros s r s' E. by apply on_fds_val in E as (t & _ & ->). Qed.
Lemma steady_update a f :
  (forall x, m_sock (f x) = m_sock x /\ m_family (f x) = m_family x /\ m_isConnected (f x) = m_isConnected x) ->
  steady (update a f).
Proof.
  intros Hf s u s' E c x Hx. apply update_val in E as (z & Hz & ->). simpl.
  destruct (decide (c = a)) as [->|Hc]; [|exists x; by rewrite lookup_insert_ne].
  simplify_eq. exists (f z). by rewrite lookup_insert_eq.
Qed.
Lemma steady_bind {A B} (m : ST Net A) (k : A -> ST Net B) :
  steady m -> (forall x, steady (k x)) -> steady (mbind k m).
Proof.
  intros Hm Hk s r s' E c x Hx. apply st_bind_inv in E as (z & s1 & E1 & E).
  destruct (Hm _ _ _ E1 c x Hx) as (y & Hy & <- & <- & <-). exact (Hk z _ _ _ E c y Hy).
Qed.

#[local] Ltac steady_all := repeat first
  [ apply steady_ret | apply steady_gets | apply steady_lift | apply steady_sock_at | apply steady_sys
  | apply steady_on_fds | apply steady_update; done | apply steady_bind; [|intros ?] | case_match ].

Lemma steady_local a : steady (getLocalAddress a).
Proof. unfold getLocalAddress, fetch_name. steady_all. Qed.
Lemma steady_remote a : steady (getRemoteAddress a).
Proof. unfold getRemoteAddress, fetch_name. steady_all. Qed.
Lemma steady_initSock a : steady (initSock a).
Proof. unfold initSock, setOption, setsockopt. steady_all. Qed.
Lemma steady_setTimeout o a v : steady (setTimeoutOption o a v).
Proof. unfold setTimeoutOption, setOption, setsockopt. steady_all. Qed.

Lemma bind_val a addr s s' :
  Socket_bind a addr s = (Val true, s') ->
  exists x, socks s' !! a = Some x /\ m_sock x <> -1 /\ m_family x = getFamily addr /\
    (CBind (m_sock x) addr, 0) ∈ log s'.
Proof.
  unfold Socket_bind. intros E. apply st_bind_inv in E as (v & s1 & E1 & E).
  destruct v; [|done]. cbn [negb] in E. apply st_bind_inv in E as (x & s2 & E2 & E).
  apply sock_at_val in E2 as [-> Hx].
  assert (Hv : m_sock x <> -1).
  { unfold ensure_sock in E1. apply st_bind_inv in E1 as (y & s3 & E3 & E1).
    apply sock_at_val in E3 as [-> Hy]. destruct (isValid y) eqn:Hval.
    - injection E1 as <-. simplify_eq. by apply negb_true_iff, Z.eqb_neq in Hval.
    - apply st_bind_inv in E1 as (u & s4 & _ & E1). apply st_bind_inv in E1 as (z & s5 & E5 & E1).
      apply sock_at_val in E5 as [-> Hz]. injection E1 as Hval' <-. simplify_eq.
      by apply negb_true_iff, Z.eqb_neq in Hval'. }
  destruct (Z.eqb_spec (getFamily addr) (m_family x)) as [Hf|]; [|done]. cbn [negb] in E.
  apply st_bind_inv in E as (r & s3 & E3 & E).
  destruct (Z.eqb_spec (rt r) 0) as [Hr|]; [|done]. cbn [negb] in E.
  apply st_bind_inv in E as (l & s4 & E4 & [= <-]).
  assert (Hs3 : socks s3 = socks s1 /\ log s3 = (log s1 ++ [(CBind (m_sock x) addr, 0)])%list).
  { revert E3. unfold sys. destruct (answers s1); [done|]. intros [= <- <-]. simpl. by rewrite Hr. }
  destruct Hs3 as [Hs3 L3]. rewrite <- Hs3 in Hx.
  destruct (steady_local a _ _ _ E4 _ _ Hx) as (y & Hy & Hm & Hfam & _). exists y. rewrite Hm, Hfam.
  destruct (only_local a _ _ _ E4) as (_ & (l4 & L4 & _) & _). split_and!; try done.
  rewrite L4, L3. apply elem_of_app. left. apply elem_of_app. right. by apply list_elem_of_singleton.
Qed.

Lemma listen_val a b s s' x :
  Socket_listen a b s = (Val true, s') -> socks s !! a = Some x ->
  socks s' = socks s /\ (CListen (m_sock x) b, 0) ∈ log s'.
Proof.
  unfold Socket_listen. intros E Hx. apply st_bind_inv in E as (y & s1 & E1 & E).
  apply sock_at_val in E1 as [-> Hy]. simplify_eq. case_match; [done|].
  apply st_bind_inv in E as (r & s2 & E2 & [= Hr <-]). apply Z.eqb_eq in Hr.
  revert E2. unfold sys. destruct (answers s); [done|]. intros [= <- <-]. simpl. split; [done|].
  rewrite Hr. apply elem_of_app. right. by apply list_elem_of_singleton.
Qed.

Lemma on_net_val {A} (m : ST Net A) s a s' :
  on_net m s = (Val a, s') ->
  exists n, m (net s) = (Val a, n) /\
    s' = mkServer (m_socks s) (m_worker s) (m_acceptWorker s) (m_recvTimeout s) (m_name s) (m_isStop s) n.
Proof. unfold on_net. destruct (m (net s)) as [r n]. intros [= -> <-]. eauto. Qed.

(** What is true of the state while addresses are bound: [new] are the sockets added. *)
Record binding (s0 s : TcpServer) (new : list nat) (fails : list Address) (addrs : list Address) : Prop := {
  bd_good : good (net s);
  bd_gap : forall fd, fd <> -1 -> gap fd (net s) = gap fd (net s0);
  bd_new : m_socks s = (m_socks s0 ++ new)%list;
  bd_nodup : NoDup new;
  bd_range : forall a, a ∈ new -> (fresh (net s0) <= a < fresh (net s))%nat;
  bd_mono : (fresh (net s0) <= fresh (net s))%nat;
  bd_old : forall a, a ∉ new -> socks (net s) !! a = socks (net s0) !! a;
  bd_listens : fails = [] -> Forall2 (listens (net s)) addrs new
}.

Lemma binding_start s : good (net s) -> binding s s [] [] [].
Proof.
  intros Hg. split; try done.
  - by rewrite app_nil_r.
  - constructor.
  - intros a H. by apply elem_of_nil in H.
Qed.

(** A step that leaves only socket [fresh] behind it. *)
Lemma bind_one_val s0 s new fails addrs addr fails' s' :
  binding s0 s new fails addrs -> good (net s0) ->
  bind_one addr fails s = (Val fails', s') ->
  exists new', binding s0 s' new' fails' (addrs ++ [addr])%list.
Proof.
  intros [Hg Hgap Hnew Hnd Hrange Hmono Hold Hlis] Hg0 E. unfold bind_one in E.
  set (a := fresh (net s)).
  assert (Ha : a ∉ new) by (intros H; apply Hrange in H; unfold a in H; lia).
  assert (Ha0 : socks (net s0) !! a = None) by (apply Hg0; unfold a; lia).
  apply st_bind_inv in E as (sock & s1 & E1 & E). apply on_net_val in E1 as (n1 & E1 & ->).
  destruct (keeps_new _ _ _ _ _ _ E1 Hg) as [Hg1 Hgap1].
  apply only_new in E1 as (-> & Hf1 & L1 & H1). fold a in H1, E.
  apply st_bind_inv in E as (ok & s2 & E2 & E). apply on_net_val in E2 as (n2 & E2 & ->). cbn [net] in E2.
  destruct (keeps_bind_address _ _ _ _ _ E2 Hg1) as [Hg2 Hgap2].
  destruct (only_bind_address a addr _ _ _ E2) as (Hf2 & L2 & H2).
  assert (Hdrop : forall n n' u, Socket_delete a n = (Val u, n') -> good n ->
    (forall fd, fd <> -1 -> gap fd n = gap fd (net s)) -> (fresh n1 <= fresh n)%nat ->
    (forall c, c <> a -> socks n !! c = socks (net s) !! c) ->
    binding s0 (mkServer (m_socks s) (m_worker s) (m_acceptWorker s) (m_recvTimeout s) (m_name s) (m_isStop s) n')
      new (fails ++ [addr]) (addrs ++ [addr])).
  { intros n n' u Ed Hgn Hgapn Hfn Hn. destruct (keeps_delete _ _ _ _ Ed Hgn) as [Hg' Hgap'].
    destruct (only_Socket_delete a _ _ _ Ed) as (Hf' & _ & H'). split; cbn [net m_socks]; try done.
    - intros fd Hfd. by rewrite Hgap', Hgapn, Hgap.
    - intros b Hb. specialize (Hrange b Hb). lia.
    - lia.
    - intros b Hb. destruct (decide (b = a)) as [->|Hba]; [|by rewrite H', Hn, Hold].
      rewrite Ha0. unfold Socket_delete in Ed. apply st_bind_inv in Ed as (v & n3 & _ & [= _ <-]).
      simpl. apply lookup_delete_eq.
    - intros Hnil. by destruct fails. }
  destruct ok; cbn [negb] in E.
  2:{ apply st_bind_inv in E as (u & s3 & E3 & [= <- <-]). apply on_net_val in E3 as (n3 & E3 & ->).
      exists new. eapply (Hdrop n2); [exact E3|done|..].
      - intros fd Hfd. by rewrite Hgap2, Hgap1.
      - lia.
      - intros c Hc. by rewrite H2, H1. }
  apply st_bind_inv in E as (ok & s3 & E3 & E). apply on_net_val in E3 as (n3 & E3 & ->). cbn [net] in E3.
  destruct (keeps_listen _ _ _ _ _ E3 Hg2) as [Hg3 Hgap3].
  destruct (only_listen a SOMAXCONN _ _ _ E3) as (Hf3 & L3 & H3).
  destruct ok; cbn [negb] in E.
  2:{ apply st_bind_inv in E as (u & s4 & E4 & [= <- <-]). apply on_net_val in E4 as (n4 & E4 & ->).
      exists new. eapply (Hdrop n3); [exact E4|done|..].
      - intros fd Hfd. by rewrite Hgap3, Hgap2, Hgap1.
      - lia.
      - intros c Hc. by rewrite H3, H2, H1. }
  injection E as <- <-. exists (new ++ [a])%list.
  destruct (bind_val _ _ _ _ E2) as (x & Hx & Hxv & Hxf & Hxb).
  destruct (listen_val _ _ _ _ _ E3 Hx) as [Hs3 Hxl].
  split; cbn [net m_socks set_socks]; try done.
  - intros fd Hfd. by rewrite Hgap3, Hgap2, Hgap1, Hgap.
  - by rewrite Hnew, app_assoc.
  - apply list.NoDup_app. split; [done|]. split; [|apply list.NoDup_singleton].
    intros b Hb ->%list_elem_of_singleton. done.
  - intros b [Hb| ->%list_elem_of_singleton]%elem_of_app; [specialize (Hrange b Hb)|unfold a]; lia.
  - lia.
  - intros b Hb. rewrite not_elem_of_app, list_elem_of_singleton in Hb. destruct Hb as [Hb Hba].
    by rewrite H3, H2, H1, Hold.
  - intros ->. apply Forall2_app; [|constructor; [|constructor]].
    + eapply Forall2_impl; [|by apply Hlis]. intros ad b Hb.
      assert (Hl3 : extended (net s) n3)
        by (eapply extended_trans; [|exact L3]; eapply extended_trans; [|exact L2]; by apply same_log).
      destruct (decide (b = a)) as [->|Hba].
      * exfalso. destruct Hb as (y & Hy & _). rewrite Hold, Ha0 in Hy by done. done.
      * eapply listens_other; [exact Hb|by rewrite H3, H2, H1|done].
    + exists x. rewrite Hs3. split_and!; try done. destruct L3 as (l3 & L3 & _).
      rewrite L3. apply elem_of_app. by left.
Qed.

Lemma bind_all_val s0 addrs : forall done s new fails fails' s',
  good (net s0) -> binding s0 s new fails done -> bind_all addrs fails s = (Val fails', s') ->
  exists new', binding s0 s' new' fails' (done ++ addrs)%list.
Proof.
  induction addrs as [|addr addrs IH]; intros dn s new fails fails' s' Hg0 Hb E; cbn [bind_all] in E.
  - injection E as <- <-. exists new. by rewrite app_nil_r.
  - apply st_bind_inv in E as (f1 & s1 & E1 & E).
    destruct (bind_one_val _ _ _ _ _ _ _ _ Hb Hg0 E1) as [new1 Hb1].
    destruct (IH _ _ _ _ _ _ Hg0 Hb1 E) as [new2 Hb2]. exists new2. by rewrite <- app_assoc in Hb2.
Qed.

Lemma release_val l : forall n u n',
  release [] l n = (Val u, n') -> good n ->
  good n' /\ (forall fd, fd <> -1 -> gap fd n' = gap fd n) /\
  forall c, socks n' !! c = if decide (c ∈ l) then None else socks n !! c.
Proof.
  induction l as [|a l IH]; intros n u n' E Hg; cbn [release] in E.
  - injection E as _ <-. split; [done|]. split; [done|]. intros c. by rewrite decide_False by apply not_elem_of_nil.
  - rewrite decide_False in E by apply not_elem_of_nil. apply st_bind_inv in E as (v & n1 & E1 & E).
    destruct (keeps_delete _ _ _ _ E1 Hg) as [Hg1 Hgap1].
    destruct (only_Socket_delete a _ _ _ E1) as (_ & _ & H1).
    destruct (IH _ _ _ E Hg1) as (Hg2 & Hgap2 & H2). split; [done|].
    split; [intros fd Hfd; by rewrite Hgap2, Hgap1|]. intros c. rewrite H2.
    assert (Ha : socks n1 !! a = None).
    { unfold Socket_delete in E1. apply st_bind_inv in E1 as (w & n3 & _ & [= _ <-]). apply lookup_delete_eq. }
    destruct (decide (c = a)) as [->|Hca].
    + rewrite (decide_True _ _ (list_elem_of_here _ _)). by case_decide.
    + rewrite H1 by done. destruct (decide (c ∈ l)) as [Hin|Hin].
      * by rewrite decide_True by by apply list_elem_of_further.
      * rewrite decide_False; [done|]. by rewrite not_elem_of_cons.
Qed.

Lemma TcpServer_bind_val addrs s b fails s' :
  good (net s) -> m_socks s = [] -> TcpServer_bind [] addrs [] s = (Val (b, fails), s') ->
  good (net s') /\
  (b = true -> fails = [] /\ NoDup (m_socks s') /\ Forall2 (listens (net s')) addrs (m_socks s')) /\
  (b = false -> fails <> [] /\ m_socks s' = [] /\ socks (net s') = socks (net s) /\
     forall fd, fd <> -1 -> open_count fd (net s') = open_count fd (net s)).
Proof.
  intros Hg Hs E. unfold TcpServer_bind in E. apply st_bind_inv in E as (f & s1 & E1 & E).
  destruct (bind_all_val s addrs [] _ _ _ _ _ Hg (binding_start s Hg) E1) as [new [Hg1 Hgap1 Hnew Hnd Hr Hm Hold Hl]].
  rewrite Hs in Hnew. simpl in Hnew, Hl. case_decide as Hf.
  - injection E as <- <- <-. split; [done|]. split; [|done]. intros _. rewrite Hnew. auto.
  - apply st_bind_inv in E as (u & s2 & E2 & [= <- <- <-]).
    unfold clear_socks in E2. rewrite gets_bind in E2. apply st_bind_inv in E2 as (v & s3 & E3 & [= _ <-]).
    apply on_net_val in E3 as (n & E3 & ->). rewrite Hnew in E3.
    destruct (release_val _ _ _ _ E3 Hg1) as (Hg3 & Hgap3 & H3). cbn [net set_socks m_socks].
    assert (Hsame : socks n = socks (net s)).
    { apply map_eq. intros c. rewrite H3. case_decide as Hc; [|by apply Hold].
      symmetry. apply Hg. specialize (Hr c Hc). lia. }
    split; [done|]. split; [done|]. intros _. split_and!; try done. intros fd Hfd. specialize (Hgap3 fd Hfd). rewrite Hgap1 in Hgap3 by done.
    unfold gap, held in Hgap3. rewrite Hsame in Hgap3. lia.
Qed.

(** *** The system calls of [bind] *)

(** The calls that set up a listening socket; what makes none of them. *)
Definition is_setup (e : syscall * Z) : bool :=
  match e.1 with CSocket _ _ _ | CBind _ _ | CListen _ _ => true | _ => false end.
Definition no_setup (l : list (syscall * Z)) : Prop := Forall (fun e => is_setup e = false) l.
Definition quiet {A} (m : ST Net A) : Prop :=
  forall s r s', m s = (Val r, s') -> exists l, log s' = (log s ++ l)%list /\ no_setup l.

Lemma quiet_same {A} (m : ST Net A) : (forall s r s', m s = (Val r, s') -> log s' = log s) -> quiet m.
Proof. intros H s r s' E%H. exists []. split; [by rewrite E, app_nil_r|constructor]. Qed.
Lemma quiet_ret {A} (x : A) : quiet (mret x).
Proof. apply quiet_same. by intros s r s' [= _ <-]. Qed.
Lemma quiet_gets {A} (f : Net -> A) : quiet (gets f).
Proof. apply quiet_same. by intros s r s' [= _ <-]. Qed.
Lemma quiet_lift {A} (x : res A) : quiet (lift x).
Proof. apply quiet_same. by intros s r s' [= _ <-]. Qed.
Lemma quiet_sock_at a : quiet (sock_at a).
Proof. apply quiet_same. by intros s r s' [= _ <-]. Qed.
Lemma quiet_modify f : quiet (modify (Socket.set_socks f)).
Proof. apply quiet_same. by intros s r s' [= _ <-]. Qed.
Lemma quiet_on_fds {A} (m : ST Fds A) : quiet (on_fds m).
Proof. apply quiet_same. intros s r s' E. by apply on_fds_val in E as (t & _ & ->). Qed.
Lemma quiet_update a f : quiet (update a f).
Proof. apply quiet_same. intros s r s' E. by apply update_val in E as (x & _ & ->). Qed.
Lemma sys_logged c s r s' :
  sys c s = (Val r, s') -> socks s' = socks s /\ log s' = (log s ++ [(c, rt r)])%list.
Proof. unfold sys. destruct (answers s); [done|]. by intros [= -> <-]. Qed.
Lemma quiet_sys c : is_setup (c, 0) = false -> quiet (sys c).
Proof.
  intros Hc s r s' [_ E]%sys_logged. exists [(c, rt r)]. split; [done|]. by constructor.
Qed.
Lemma quiet_bind {A B} (m : ST Net A) (k : A -> ST Net B) :
  quiet m -> (forall x, quiet (k x)) -> quiet (mbind k m).
Proof.
  intros Hm Hk s r s' (x & s1 & E1 & E)%st_bind_inv.
  destruct (Hm _ _ _ E1) as (l1 & L1 & N1), (Hk x _ _ _ E) as (l2 & L2 & N2).
  exists (l1 ++ l2)%list. split; [by rewrite L2, L1, app_assoc|by apply Forall_app].
Qed.

#[local] Ltac quiet_all := repeat first
  [ apply quiet_ret | apply quiet_gets | apply quiet_lift | apply quiet_sock_at | apply quiet_modify
  | apply quiet_on_fds | apply quiet_update | apply quiet_sys; reflexivity
  | apply quiet_bind; [|intros ?] | case_match ].

Lemma quiet_local a : quiet (getLocalAddress a).
Proof. unfold getLocalAddress, fetch_name. quiet_all. Qed.
Lemma quiet_initSock a : quiet (initSock a).
Proof. unfold initSock, setOption, setsockopt. quiet_all. Qed.
Lemma quiet_delete a : quiet (Socket_delete a).
Proof. unfold Socket_delete, Socket_close. quiet_all. Qed.
Lemma quiet_release held l : quiet (release held l).
Proof. induction l as [|a l IH]; cbn [release]; [quiet_all|]. apply quiet_bind; [case_match; [quiet_all|apply quiet_delete]|done]. Qed.

(** What the kernel answered while one address was tried, and whether the address was bound. *)
Inductive attempt (addr : Address) : list (syscall * Z) -> bool -> Prop :=
  | no_socket q : no_setup q ->
      attempt addr ((CSocket (getFamily addr) SOCK_STREAM 0, -1) :: q) false
  | bind_refused fd r q q' : fd <> -1 -> r <> 0 -> no_setup q -> no_setup q' ->
      attempt addr ((CSocket (getFamily addr) SOCK_STREAM 0, fd) :: q ++ (CBind fd addr, r) :: q') false
  | listened fd r q q' q'' : fd <> -1 -> no_setup q -> no_setup q' -> no_setup q'' ->
      attempt addr ((CSocket (getFamily addr) SOCK_STREAM 0, fd) :: q ++ (CBind fd addr, 0) :: q' ++
        (CListen fd SOMAXCONN, r) :: q'') (r =? 0).

(** The attempts for [addrs] in order: the log they leave, and the addresses not bound. *)
Inductive attempts : list Address -> list (syscall * Z) -> list Address -> Prop :=
  | attempts_nil : attempts [] [] []
  | attempts_kept addr l addrs l' fails : attempt addr l true -> attempts addrs l' fails ->
      attempts (addr :: addrs) (l ++ l') fails
  | attempts_failed addr l addrs l' fails : attempt addr l false -> attempts addrs l' fails ->
      attempts (addr :: addrs) (l ++ l') (addr :: fails).

(** A new socket gets its descriptor. *)
Lemma ensure_new a s x valid s' :
  ensure_sock a s = (Val valid, s') -> socks s !! a = Some x -> m_sock x = -1 ->
  exists fd q y, log s' = (log s ++ (CSocket (m_family x) (m_type x) (m_protocol x), fd) :: q)%list /\
    no_setup q /\ socks s' !! a = Some y /\ m_sock y = fd /\ m_family y = m_family x /\
    valid = negb (fd =? -1).
Proof.
  unfold ensure_sock. intros E Hx Hm. apply st_bind_inv in E as (x0 & s1 & [-> E0]%sock_at_val & E).
  rewrite Hx in E0. injection E0 as <-. assert (Hv : isValid x = false) by (unfold isValid; by rewrite Hm). rewrite Hv in E.
  apply st_bind_inv in E as (u & s1 & E1 & E). apply st_bind_inv in E as (y & s2 & [-> Hy]%sock_at_val & E).
  injection E as <- <-. unfold newSock in E1.
  apply st_bind_inv in E1 as (x0 & s2 & [-> E0]%sock_at_val & E1).
  rewrite Hx in E0. injection E0 as <-.
  apply st_bind_inv in E1 as (r & s3 & [S3 L3]%sys_logged & E1). rewrite gets_bind in E1.
  apply st_bind_inv in E1 as (v & s4 & E4 & E1). apply on_fds_val in E4 as (t & _ & ->).
  apply st_bind_inv in E1 as (w & s5 & E5 & E1). apply update_val in E5 as (z & Hz & ->).
  cbn [socks] in Hz. rewrite S3, Hx in Hz. injection Hz as <-.
  assert (H : exists q, log s1 = (log s3 ++ q)%list /\ no_setup q /\ m_sock y = rt r /\ m_family y = m_family x).
  { destruct (negb (rt r =? -1)).
    - destruct (quiet_initSock a _ _ _ E1) as (q & L & N).
      destruct (steady_initSock a _ _ _ E1 a (set_sock (rt r) x)) as (y' & Hy' & H1 & H2 & _);
        [by simpl; rewrite lookup_insert_eq|]. simplify_eq. exists q. by rewrite H1, H2.
    - injection E1 as _ <-. simpl in Hy. rewrite lookup_insert_eq in Hy. injection Hy as <-.
      exists []. by rewrite app_nil_r; split_and!; [|constructor|..]. }
  destruct H as (q & L & N & H1 & H2). exists (rt r), q, y. rewrite L, L3, <- app_assoc.
  split_and!; try done. unfold isValid. by rewrite H1.
Qed.

(** One round of the loop. *)
Lemma bind_one_log addr fails s fails' s' :
  bind_one addr fails s = (Val fails', s') ->
  exists l ok, attempt addr l ok /\ log (net s') = (log (net s) ++ l)%list /\
    fails' = if ok then fails else (fails ++ [addr])%list.
Proof.
  unfold bind_one. intros (a & s1 & E1 & E)%st_bind_inv. apply on_net_val in E1 as (n1 & E1 & ->).
  injection E1 as <- <-. apply st_bind_inv in E as (ok & s2 & E2 & E).
  apply on_net_val in E2 as (n2 & E2 & ->). cbn [net] in E2. set (a := fresh (net s)) in *.
  unfold Socket_bind in E2. apply st_bind_inv in E2 as (valid & n3 & E3 & E2).
  destruct (ensure_new _ _ _ _ _ E3 (lookup_insert_eq _ _ _) eq_refl)
    as (fd & q & y & L3 & Nq & Hy & Hfd & Hfam & ->). cbn [log m_family m_type m_protocol] in L3, Hfam.
  assert (Hdrop : forall n n' u, Socket_delete a n = (Val u, n') ->
    exists q', log n' = (log n ++ q')%list /\ no_setup q') by (intros; by eapply quiet_delete).
  assert (Hd : forall n u s3, on_net (Socket_delete a) (mkServer (m_socks s) (m_worker s)
    (m_acceptWorker s) (m_recvTimeout s) (m_name s) (m_isStop s) n) = (Val u, s3) ->
    exists q', log (net s3) = (log n ++ q')%list /\ no_setup q').
  { intros n u s3 E3'. apply on_net_val in E3' as (n4 & E4 & ->). by eapply Hdrop. }
  destruct (Z.eqb_spec fd (-1)) as [Hfd1|Hne]; cbn [negb] in E2.
  { rewrite Hfd1 in L3. injection E2 as <- <-. cbn [negb] in E. apply st_bind_inv in E as (u & s3 & (q' & L & N)%Hd & [= <- <-]).
    exists ((CSocket (getFamily addr) SOCK_STREAM 0, -1) :: (q ++ q'))%list, false. split_and!; try done.
    - constructor. by apply Forall_app.
    - by rewrite L, L3, <- app_assoc. }
  apply st_bind_inv in E2 as (y' & n4 & [-> Hy']%sock_at_val & E2).
  rewrite Hy in Hy'. injection Hy' as <-. subst fd.
  rewrite Hfam, Z.eqb_refl in E2. cbn [negb] in E2.
  apply st_bind_inv in E2 as (r & n4 & [S4 L4]%sys_logged & E2).
  destruct (Z.eqb_spec (rt r) 0) as [Hr|Hr]; cbn [negb] in E2.
  2:{ injection E2 as <- <-. cbn [negb] in E. apply st_bind_inv in E as (u & s3 & (q' & L & N)%Hd & [= <- <-]).
    eexists _, false. split_and!; [by apply (bind_refused addr (m_sock y) (rt r) q q')| |done].
    rewrite L, L4, L3. by rewrite <- !app_assoc. }
  apply st_bind_inv in E2 as (la & n5 & E5 & [= <- <-]). cbn [negb] in E.
  destruct (quiet_local a _ _ _ E5) as (q' & L5 & N5). rewrite <- S4 in Hy.
  destruct (steady_local a _ _ _ E5 a y Hy) as (z & Hz & Hzs & _).
  apply st_bind_inv in E as (ok & s3 & E6 & E). apply on_net_val in E6 as (n6 & E6 & ->). cbn [net m_socks m_worker m_acceptWorker m_recvTimeout m_name m_isStop] in E6, E.
  unfold Socket_listen in E6. apply st_bind_inv in E6 as (z' & n7 & [-> Hz']%sock_at_val & E6).
  rewrite Hz in Hz'. injection Hz' as <-.
  assert (Hv : isValid z = true) by (unfold isValid; rewrite Hzs; by apply negb_true_iff, Z.eqb_neq).
  rewrite Hv in E6. cbn [negb] in E6. apply st_bind_inv in E6 as (r' & n7 & [S7 L7]%sys_logged & [= <- <-]).
  rewrite Hzs in L7. rewrite Hr in L4.
  destruct (Z.eqb_spec (rt r') 0) as [Hr'|Hr']; cbn [negb] in E.
  - injection E as <- <-. exists ((CSocket (getFamily addr) SOCK_STREAM 0, m_sock y) ::
      q ++ (CBind (m_sock y) addr, 0) :: q' ++ (CListen (m_sock y) SOMAXCONN, rt r') :: [])%list, true.
    split_and!; [|cbn [net set_socks]|done].
    + replace true with (rt r' =? 0) by by apply Z.eqb_eq. apply listened; try done. constructor.
    + rewrite L7, L5, L4, L3. by rewrite <- !app_assoc.
  - apply st_bind_inv in E as (u & s3 & (q'' & L & N)%Hd & [= <- <-]).
    exists ((CSocket (getFamily addr) SOCK_STREAM 0, m_sock y) ::
      q ++ (CBind (m_sock y) addr, 0) :: q' ++ (CListen (m_sock y) SOMAXCONN, rt r') :: q'')%list, false.
    split_and!; [| |done].
    + replace false with (rt r' =? 0) by by apply Z.eqb_neq. by apply listened.
    + rewrite L, L7, L5, L4, L3. by rewrite <- !app_assoc.
Qed.

Lemma bind_all_log addrs : forall fails s fails' s',
  bind_all addrs fails s = (Val fails', s') ->
  exists l f, attempts addrs l f /\ log (net s') = (log (net s) ++ l)%list /\ fails' = (fails ++ f)%list.
Proof.
  induction addrs as [|addr addrs IH]; intros fails s fails' s' E; cbn [bind_all] in E.
  - injection E as <- <-. exists [], []. rewrite !app_nil_r. split_and!; [constructor|done..].
  - apply st_bind_inv in E as (f1 & s1 & (l & ok & Ha & L1 & ->)%bind_one_log & (l' & f & Hs & L2 & ->)%IH).
    exists (l ++ l')%list, (if ok then f else addr :: f). split_and!.
    + destruct ok; by constructor.
    + by rewrite L2, L1, app_assoc.
    + destruct ok; [done|by rewrite <- app_assoc].
Qed.

Lemma TcpServer_bind_log held addrs s b fails s' :
  TcpServer_bind held addrs [] s = (Val (b, fails), s') ->
  exists l q, attempts addrs l fails /\ log (net s') = (log (net s) ++ l ++ q)%list /\ no_setup q /\
    b = bool_decide (fails = []).
Proof.
  unfold TcpServer_bind. intros (f & s1 & (l & f' & Ha & L & ->)%bind_all_log & E)%st_bind_inv.
  simpl in E. exists l. case_decide as Hf.
  - injection E as <- <- <-. exists []. rewrite app_nil_r. split_and!; [done..|constructor|].
    by rewrite bool_decide_eq_true_2.
  - apply st_bind_inv in E as (u & s2 & E2 & [= <- <- <-]). unfold clear_socks in E2. rewrite gets_bind in E2.
    apply st_bind_inv in E2 as (v & s3 & E3 & [= _ <-]). apply on_net_val in E3 as (n & E3 & ->).
    destruct (quiet_release _ _ _ _ _ E3) as (q & L' & N). exists q. cbn [net set_socks].
    rewrite L', L, <- app_assoc. split_and!; try done. by rewrite bool_decide_eq_false_2.
Qed.

(** ... and what it leaves alone. *)
Definition rest (s : TcpServer) := (m_name s, m_acceptWorker s, m_isStop s).
Lemma rest_on_net {A} (m : ST Net A) s r s' : on_net m s = (r, s') -> rest s' = rest s.
Proof. unfold on_net. destruct (m (net s)). by intros [= _ <-]. Qed.
Lemma bind_all_rest addrs : forall fails s r s', bind_all addrs fails s = (Val r, s') -> rest s' = rest s.
Proof.
  induction addrs as [|addr addrs IH]; intros fails s r s' E; cbn [bind_all] in E; [by injection E as _ <-|].
  apply st_bind_inv in E as (f & s1 & E1 & ->%IH). unfold bind_one in E1.
  apply st_bind_inv in E1 as (sock & s2 & <-%rest_on_net & E1).
  apply st_bind_inv in E1 as (ok & s3 & <-%rest_on_net & E1). destruct ok; cbn [negb] in E1.
  - apply st_bind_inv in E1 as (ok & s4 & <-%rest_on_net & E1). destruct ok; cbn [negb] in E1.
    + by injection E1 as _ <-.
    + by apply st_bind_inv in E1 as (u & s5 & <-%rest_on_net & [= _ <-]).
  - by apply st_bind_inv in E1 as (u & s5 & <-%rest_on_net & [= _ <-]).
Qed.
Lemma TcpServer_bind_rest held addrs fails s r s' :
  TcpServer_bind held addrs fails s = (Val r, s') -> rest s' = rest s.
Proof.
  unfold TcpServer_bind. intros (f & s1 & <-%bind_all_rest & E)%st_bind_inv.
  case_decide; [by injection E as _ <-|]. apply st_bind_inv in E as (u & s2 & E & [= _ <-]).
  unfold clear_socks in E. rewrite gets_bind in E.
  by apply st_bind_inv in E as (v & s3 & <-%rest_on_net & [= _ <-]).
Qed.

(** C19: [bind], on a server that has no sockets yet, and with descriptors that [fstat] knows as
    sockets, takes all the addresses or none, if it returns (a descriptor
    beyond the descriptor table faults, as in accepting). It tries every address once, in order: it makes a socket, binds it and listens, and goes on to
    the next address whatever comes of it; the addresses reported as failed are those, in order, for which
    the kernel refused one of the three calls, and it returns true when there are none. Then
    the server has one
    socket for each address, in the order of the addresses, each valid, of the family of
    its address, bound to it and listening. When it returns false the server has no sockets,
    the sockets made on the way are gone, and every descriptor they
    opened has been closed. *)
Theorem bind_all_or_nothing addrs s b fails s'
    (Hg : good (net s)) (Hs : m_socks s = []) (E : TcpServer_bind [] addrs [] s = (Val (b, fails), s')) :
  (exists l q, attempts addrs l fails /\ log (net s') = (log (net s) ++ l ++ q)%list /\ no_setup q) /\
  b = bool_decide (fails = []) /\
  (b = true -> NoDup (m_socks s') /\ Forall2 (listens (net s')) addrs (m_socks s')) /\
  (b = false -> m_socks s' = [] /\ socks (net s') = socks (net s) /\
     forall fd, fd <> -1 -> open_count fd (net s') = open_count fd (net s)).
Proof.
  destruct (TcpServer_bind_val _ _ _ _ _ Hg Hs E) as (_ & Ht & Hf).
  destruct (TcpServer_bind_log _ _ _ _ _ _ E) as (l & q & Ha & L & N & Hb).
  split; [eauto|]. split; [done|]. split; intros H; [by apply Ht|by apply Hf].
Qed.
End Bind.

(** ** Accepting *)

(** The calls of [accept] in a log, and the descriptors they gave. *)
Definition accepts (l : list (syscall * Z)) : nat := length (List.filter is_accept l).
Definition accepted (l : list (syscall * Z)) : list Z :=
  snd <$> List.filter (fun e => is_accept e && negb (e.2 =? -1)) l.

Lemma accepts_app l m : accepts (l ++ m) = (accepts l + accepts m)%nat.
Proof. unfold accepts. by rewrite List.filter_app, length_app. Qed.
Lemma accepted_app l m : accepted (l ++ m) = (accepted l ++ accepted m)%list.
Proof. unfold accepted. by rewrite List.filter_app, fmap_app. Qed.
Lemma no_accept_nil l : no_accept l -> accepts l = 0%nat /\ accepted l = [].
Proof.
  unfold accepts, accepted. induction 1 as [|e l He _ [IH1 IH2]]; [done|]. simpl. rewrite He. done.
Qed.

(** How many rounds run before the loop sees [m_isStop]. *)
Fixpoint rounds_run (rounds : list bool) : nat :=
  match rounds with [] => 0 | true :: _ => 1 | false :: rounds => S (rounds_run rounds) end.

Section Accept.
Context `{kernel : Kernel} `{host : Host}.

(** Client [c] of the descriptor [fd]. *)
Definition client_of (n : Net) (c : nat) (fd : Z) : Prop :=
  exists x, socks n !! c = Some x /\ m_sock x = fd /\ m_isConnected x = true.

Lemma init_client a fd n n' :
  Socket_init a fd n = (Val true, n') -> client_of n' a fd.
Proof.
  unfold Socket_init. intros E. apply st_bind_inv in E as (ctx & n1 & E1 & E).
  destruct ctx as [c|]; [|done]. destruct (m_isSocket c && negb (m_isClosed c)); [|done].
  apply st_bind_inv in E as (u & n2 & E2 & E). apply update_val in E2 as (x & Hx & ->).
  apply st_bind_inv in E as (v & n3 & E3 & E). apply st_bind_inv in E as (l & n4 & E4 & E).
  apply st_bind_inv in E as (m & n5 & E5 & [= <-]).
  destruct (steady_initSock a _ _ _ E3 a (set_connected true (set_sock fd x))) as (y & Hy & Hy1 & _ & Hy2);
    [simpl; by rewrite lookup_insert_eq|].
  destruct (steady_local a _ _ _ E4 a y Hy) as (z & Hz & Hz1 & _ & Hz2).
  destruct (steady_remote a _ _ _ E5 a z Hz) as (w & Hw & Hw1 & _ & Hw2).
  exists w. split; [done|]. split; [by rewrite Hw1, Hz1, Hy1|by rewrite Hw2, Hz2, Hy2].
Qed.

(** What a call of [accept] does to the store and the log. *)
Lemma accept_val a n o n' :
  Socket_accept a n = (Val o, n') -> good n ->
  good n' /\ (fresh n < fresh n')%nat /\ (forall c, c <> fresh n -> socks n' !! c = socks n !! c) /\
  exists l, log n' = (log n ++ l)%list /\ accepts l = 1%nat /\
    match o with
    | Some c => c = fresh n /\ exists fd, accepted l = [fd] /\ client_of n' c fd
    | None => accepted l = []
    end.
Proof.
  intros E Hg. split; [by apply (keeps_accept _ _ _ _ E Hg)|].
  destruct (accept_cases _ _ _ _ E Hg) as (x & r & n1 & Hx & Hg1 & Hf1 & L1 & Hnew & H1 & _ & Hcase).
  assert (Hrest : only (fresh n) (fun s => (Socket_delete (fresh n) s)) /\ only (fresh n) (Socket_init (fresh n) r)).
  { split; [apply only_Socket_delete|apply only_init]. }
  destruct Hrest as [Hdel Hini].
  assert (Hext : (fresh n1 <= fresh n')%nat /\ extended n1 n' /\ forall c, c <> fresh n -> socks n' !! c = socks n1 !! c).
  { destruct Hcase as [(_ & _ & u & Ed)|(_ & _ & Ei & _)]; [exact (Hdel _ _ _ Ed)|exact (Hini _ _ _ Ei)]. }
  destruct Hext as (Hf2 & (l & L & N) & H2). apply no_accept_nil in N as [N1 N2].
  split; [lia|]. split; [intros c Hc; by rewrite H2, H1|].
  exists ((CAccept (m_sock x), r) :: l). split; [by rewrite L, L1, <- app_assoc|].
  change (?e :: l) with ([e] ++ l)%list. rewrite accepts_app, accepted_app, N1, N2.
  split; [done|]. destruct Hcase as [(-> & -> & _)|(Hr & -> & Ei & _)]; [done|].
  split; [done|]. exists r. split; [|by eapply init_client].
  unfold accepted. simpl. by rewrite (proj2 (Z.eqb_neq _ _)).
Qed.

(** What is added between two states of the loop: the log and the clients. *)
Definition served (s s' : TcpServer) (l : list (syscall * Z)) (clients : list nat) : Prop :=
  log (net s') = (log (net s) ++ l)%list /\ good (net s') /\ (fresh (net s) <= fresh (net s'))%nat /\
  m_worker s' = (m_worker s ++ (HandleClient <$> clients))%list /\
  Forall2 (client_of (net s')) clients (accepted l) /\ NoDup clients /\
  (forall c, c ∈ clients -> (fresh (net s) <= c < fresh (net s'))%nat) /\
  (forall c x, (c < fresh (net s))%nat -> socks (net s) !! c = Some x ->
     exists y, socks (net s') !! c = Some y /\ m_sock y = m_sock x /\ m_isConnected y = m_isConnected x).

Lemma round_val stopped sock s go s' :
  accept_round stopped sock s = (Val go, s') -> good (net s) ->
  if m_isStop s then go = false /\ s' = s
  else go = true /\ m_isStop s' = stopped /\ exists l clients, served s s' l clients /\ accepts l = 1%nat.
Proof.
  unfold accept_round. rewrite gets_bind. intros E Hg. destruct (m_isStop s) eqn:Hstop.
  { by injection E as <- <-. }
  apply st_bind_inv in E as (u & s1 & E1 & E).
  assert (H1 : net s1 = net s /\ m_worker s1 = m_worker s /\ m_isStop s1 = stopped).
  { destruct stopped; [|by injection E1 as _ <-].
    unfold TcpServer_stop in E1. apply st_bind_inv in E1 as (v & s2 & [= _ <-] & [= _ <-]). done. }
  destruct H1 as (Hn1 & Hw1 & Hs1).
  apply st_bind_inv in E as (o & s2 & E2 & E). apply on_net_val in E2 as (n & E2 & ->). rewrite Hn1 in E2.
  destruct (accept_val _ _ _ _ E2 Hg) as (Hg2 & Hf2 & H2 & l & L & Hacc & Ho). destruct o as [c|].
  - rewrite gets_bind in E. cbn [m_recvTimeout] in E. apply st_bind_inv in E as (v & s3 & E3 & E).
    apply on_net_val in E3 as (n3 & E3 & ->). cbn [net] in E3. injection E as <- <-.
    destruct (keeps_perform (OSetTimeout SO_RCVTIMEO c (m_recvTimeout s1)) _ _ _ E3 Hg2) as [Hg3 _].
    destruct (only_setTimeout c _ _ _ _ _ E3) as (Hf3 & (l3 & L3 & N3) & H3).
    apply no_accept_nil in N3 as [N3 N3']. destruct Ho as (-> & fd & Hfd & x & Hx & Hxs & Hxc).
    split; [done|]. split; [done|]. exists (l ++ l3)%list, [fresh (net s)]. split.
    + split; [simpl; by rewrite L3, L, app_assoc|]. split; [done|]. split; [simpl; lia|].
      split; [simpl; by rewrite Hw1|]. split.
      { rewrite accepted_app, Hfd, N3', app_nil_r. constructor; [|constructor].
        destruct (steady_setTimeout _ _ _ _ _ _ E3 _ _ Hx) as (y & Hy & Hys & _ & Hyc). exists y. simpl. split; [done|].
        split; congruence. }
      split; [apply list.NoDup_singleton|]. split.
      { intros c ->%list_elem_of_singleton. simpl. lia. }
      intros c z Hc Hz. exists z. simpl. rewrite H3, H2 by lia. done.
    + rewrite accepts_app, N3. lia.
  - injection E as <- <-. split; [done|]. split; [done|]. exists l, []. split; [|done].
    split; [done|]. split; [done|]. split; [simpl; lia|]. split; [simpl; by rewrite Hw1, app_nil_r|].
    rewrite Ho. split; [constructor|]. split; [constructor|].
    split; [intros c H; by apply elem_of_nil in H|]. intros c z Hc Hz. exists z. simpl. by rewrite H2 by lia.
Qed.

Lemma served_trans s1 s2 s3 l1 l2 c1 c2 :
  served s1 s2 l1 c1 -> served s2 s3 l2 c2 -> served s1 s3 (l1 ++ l2)%list (c1 ++ c2)%list.
Proof.
  intros (L1 & Hg1 & Hf1 & W1 & C1 & N1 & R1 & K1) (L2 & Hg2 & Hf2 & W2 & C2 & N2 & R2 & K2).
  split; [by rewrite L2, L1, app_assoc|]. split; [done|]. split; [lia|].
  split; [by rewrite W2, W1, fmap_app, app_assoc|].
  split; [|split; [|split]].
  - rewrite accepted_app. apply Forall2_app; [|done].
    assert (Hk : forall c fd, c ∈ c1 -> client_of (net s2) c fd -> client_of (net s3) c fd).
    { intros c fd Hc (x & Hx & Hs & Hcon). destruct (K2 c x) as (y & Hy & Hys & Hyc); [apply R1 in Hc; lia|done|].
      exists y. split; [done|]. split; congruence. }
    clear -C1 Hk. induction C1 as [|c fd c1 fds Hc _ IH]; constructor.
    + apply Hk; [apply list_elem_of_here|done].
    + apply IH. intros d fd' Hd. apply Hk. by apply list_elem_of_further.
  - apply list.NoDup_app. split; [done|]. split; [|done]. intros c Hc1 Hc2. apply R1 in Hc1. apply R2 in Hc2. lia.
  - intros c [Hc|Hc]%elem_of_app; [apply R1 in Hc|apply R2 in Hc]; lia.
  - intros c x Hc Hx. destruct (K1 c x Hc Hx) as (y & Hy & Hys & Hyc).
    destruct (K2 c y) as (z & Hz & Hzs & Hzc); [lia|done|]. exists z. split; [done|]. split; congruence.
Qed.

Lemma served_refl s : good (net s) -> served s s [] [].
Proof.
  intros Hg. split; [by rewrite app_nil_r|]. split; [done|]. split; [lia|]. split; [by rewrite app_nil_r|].
  split; [constructor|]. split; [constructor|]. split; [intros c H; by apply elem_of_nil in H|]. eauto.
Qed.

(** A client whose descriptor lies outside the descriptor table. *)
Lemma accept_outside sock n x (a : answer) l :
  socks n !! sock = Some x -> answers n = a :: l -> 0 <= rt a ->
  Z.of_nat (length (m_datas (fds n))) <= rt a ->
  exists n', Socket_accept sock n = (Bad OutOfBounds, n').
Proof.
  intros Hx Ha H0 Hlen. unfold Socket_accept.
  assert (E1 : sock_at sock n = (Val x, n)) by (unfold sock_at; by rewrite Hx). st_step E1.
  match goal with |- context [mbind _ (Socket_new ?f ?t ?p)] =>
    assert (E2 : exists n1, Socket_new f t p n = (Val (fresh n), n1) /\ answers n1 = answers n /\ fds n1 = fds n)
      by (eexists; split; [reflexivity|done]) end.
  destruct E2 as (n1 & E2 & Ha1 & Hf1). st_step E2. rewrite Ha in Ha1.
  assert (E3 : exists n2, sys (CAccept (m_sock x)) n1 = (Val a, n2) /\ fds n2 = fds n1)
    by (unfold sys; rewrite Ha1; eexists; split; [reflexivity|done]).
  destruct E3 as (n2 & E3 & Hf2). st_step E3.
  destruct (get_out_of_table (fds n2) (rt a) (fd_stat a) H0) as [t Et]; [by rewrite Hf2, Hf1|].
  assert (E4 : exists n3, on_fds (accept (rt a) (fd_stat a)) n2 = (Bad OutOfBounds, n3)).
  { unfold on_fds, accept. rewrite decide_True by lia. unfold mbind, st_bind. rewrite Et. by eexists. }
  destruct E4 as (n3 & E4). exists n3. by st_step E4.
Qed.

Lemma startAccept_outside sock s stopped rounds x (a : answer) l :
  m_isStop s = false -> socks (net s) !! sock = Some x -> answers (net s) = a :: l ->
  0 <= rt a -> Z.of_nat (length (m_datas (fds (net s)))) <= rt a ->
  exists s', startAccept (stopped :: rounds) sock s = (Bad OutOfBounds, s').
Proof.
  intros Hstop Hx Ha H0 Hlen. cbn [startAccept].
  assert (Hr : exists s', accept_round stopped sock s = (Bad OutOfBounds, s'));
    [|destruct Hr as [s' Er]; exists s'; by st_step Er].
  unfold accept_round. rewrite gets_bind, Hstop.
  assert (E1 : exists s1, (if stopped then TcpServer_stop else mret tt) s = (Val tt, s1) /\ net s1 = net s)
    by (destruct stopped; eexists; split; reflexivity).
  destruct E1 as (s1 & E1 & Hn). st_step E1.
  destruct (accept_outside sock (net s) x a l Hx Ha H0 Hlen) as [n E2].
  assert (E3 : exists s2, on_net (Socket_accept sock) s1 = (Bad OutOfBounds, s2))
    by (unfold on_net; rewrite Hn, E2; by eexists).
  destruct E3 as [s2 E3]. exists s2. by st_step E3.
Qed.

(** C18: Accepting, with descriptors that [fstat] knows as sockets. As long as the loop runs (it
    does not fault), it hands every client it
    gets to the worker exactly once, in the order in which they were accepted, as a new
    connected socket that holds the descriptor; it calls [accept] once a round, until [stop] has been
    called: the call that is under way then is finished, and there is no other. But a
    client whose descriptor is not below the length of the descriptor table (64, which never
    grows) is not handed on: the access of the table in the hooked [accept] is out of bounds. *)
Theorem clients_handed_on rounds sock s (Hg : good (net s)) :
  (forall s', startAccept rounds sock s = (Val tt, s') ->
   exists l clients, log (net s') = (log (net s) ++ l)%list /\
    m_worker s' = (m_worker s ++ (HandleClient <$> clients))%list /\ NoDup clients /\
    Forall2 (client_of (net s')) clients (accepted l) /\
    (forall c, c ∈ clients -> socks (net s) !! c = None) /\
    accepts l = if m_isStop s then 0%nat else rounds_run rounds) /\
  (forall x (a : answer) l, rounds <> [] -> m_isStop s = false ->
   socks (net s) !! sock = Some x -> answers (net s) = a :: l ->
   0 <= rt a -> Z.of_nat (length (m_datas (fds (net s)))) <= rt a ->
   exists s', startAccept rounds sock s = (Bad OutOfBounds, s')).
Proof.
  split; [|intros x a l Hr; destruct rounds; [done|apply startAccept_outside]]. intros s' E.
  assert (H : exists l clients, served s s' l clients /\ accepts l = if m_isStop s then 0%nat else rounds_run rounds).
  { revert s Hg E. induction rounds as [|b rounds IH]; intros s Hg E; cbn [startAccept] in E.
    - injection E as <-. exists [], []. split; [by apply served_refl|by destruct (m_isStop s)].
    - apply st_bind_inv in E as (go & s1 & E1 & E). pose proof (round_val _ _ _ _ _ E1 Hg) as H.
      destruct (m_isStop s).
      + destruct H as [-> ->]. injection E as <-. exists [], []. split; [by apply served_refl|done].
      + destruct H as (-> & Hb & l1 & c1 & Hs1 & Ha1). pose proof Hs1 as (_ & Hg1 & _).
        destruct (IH s1 Hg1 E) as (l2 & c2 & Hs2 & Ha2). exists (l1 ++ l2)%list, (c1 ++ c2)%list.
        split; [by eapply served_trans|]. rewrite accepts_app, Ha1, Ha2, Hb. by destruct b. }
  destruct H as (l & clients & (L & _ & _ & W & C & N & R & _) & Ha). exists l, clients.
  split_and!; try done. intros c Hc. apply Hg. apply R in Hc. lia.
Qed.
End Accept.

#[local] Instance linux : Kernel.
Proof. refine {| settable := O_NONBLOCK |}. reflexivity. Defined.
#[local] Instance little : Host := MYHTTP_LITTLE_ENDIAN.

Definition demo_server (l : list Z) : TcpServer :=
  TcpServer_new 120000 (Net_start true ((fun v => mkAnswer v (Some true) None 0 []) <$> l)).

Lemma demo_server_good l : good (net (demo_server l)).
Proof.
  split_and!; [done| |].
  - intros i c Hi. cbn [net demo_server TcpServer_new Net_start fds FdManager_new m_datas] in Hi.
    by apply lookup_replicate in Hi as [? _].
  - cbn [net demo_server TcpServer_new Net_start answers]. unfold answers_ok. induction l; simpl; by constructor.
Qed.

(** Two addresses of which the second cannot be bound. *)
Definition demo_addresses : list Address := [IPv4Address (IPv4_new 0 8080); IPv4Address (IPv4_new 0 80)].
Definition demo_bind : list Z := [5; 0; 0; 0; 0; 0; 6; 0; 0; -1; 0; 0].

Lemma bind_all_or_nothing_witness :
  exists s, TcpServer_bind [] demo_addresses [] (demo_server demo_bind) =
      (Val (false, [IPv4Address (IPv4_new 0 80)]), s) /\
    length (log (net s)) = 12%nat /\ open_count 5 (net s) = 0.
Proof.
  eexists. split; [vm_compute; reflexivity|]. split; [reflexivity|].
  eapply (bind_all_or_nothing demo_addresses (demo_server demo_bind) false);
    [apply demo_server_good|reflexivity|vm_compute; reflexivity|reflexivity|done].
Defined.

(** A listening socket; two clients are accepted, and [stop()] is called while the loop
    waits for the second. *)
Definition demo_accept : list Z := [5; 0; 0; 0; 0; 0; 6; 0; 0; 0; 0; 0; 7; 0; 0; 0; 0; 0].

Lemma clients_handed_on_witness :
  exists s, startAccept [false; true; false] 0
      (set_isStop false (TcpServer_bind [] [IPv4Address (IPv4_new 0 8080)] [] (demo_server demo_accept)).2) = (Val tt, s) /\
    exists clients, m_worker s = HandleClient <$> clients /\ NoDup clients /\ clients = [1; 2]%nat.
Proof.
  set (s0 := set_isStop _ _). assert (Hg : good (net s0)).
  { assert (E : exists u, run [ONew AF_INET SOCK_STREAM 0; OBind 0 (IPv4Address (IPv4_new 0 8080)); OListen 0 SOMAXCONN]
      (net (demo_server demo_accept)) = (Val u, net s0)) by (eexists; vm_compute; reflexivity).
    destruct E as [u E]. exact (proj1 (keeps_run _ _ _ _ E (demo_server_good demo_accept))). }
  eexists. split; [vm_compute; reflexivity|].
  destruct (clients_handed_on [false; true; false] 0 s0 Hg) as [H _].
  edestruct H as (l & clients & _ & Hw & Hn & _); [vm_compute; reflexivity|].
  exists clients. split; [exact Hw|]. split; [exact Hn|].
  vm_compute in Hw. destruct clients as [|c1 [|c2 [|]]]; try discriminate Hw. by injection Hw as <- <-.
Defined.
