(* ===== verification/Startup.v ===== *)
(** * Starting the process (util.cpp, config.cpp, daemon.cpp, application.cpp)

    The file utilities, the loading of a configuration directory, the supervising loop of
    the daemon, and what the application does with its arguments and with the addresses
    of a server. The file system and the results of [fork], [waitpid] and [kill] are parameters;
    Env.v, Config.v and Address.v do the rest. The theorems: which files are listed, what
    [Mkdir] guarantees, how often the daemon runs the program, and that the names of
    interfaces are never resolved. *)
From stdpp Require Import base tactics option list strings gmap numbers.
From S2P Require Import Prelude Endian OrdSet CString LogFormat Config Env Address.

Open Scope string_scope.
Open Scope Z_scope.

(** ** Files *)

(** What [readdir] gives, with the entries below a directory. *)
Inductive dirent :=
  | DT_DIR (d_name : string) (entries : list dirent)
  | DT_REG (d_name : string)
  | DT_OTHER (d_name : string).

(** [filename.substr(filename.length() - subfix.size()) == subfix], for long enough names. *)
Definition has_subfix (subfix filename : string) : bool :=
  if decide (subfix = "") then true
  else if (String.length filename <? String.length subfix)%nat then false
  else bool_decide (str_drop (String.length filename - String.length subfix) filename = subfix).

(** [ListAllFile(files, path, subfix)] where the directory can be opened: what it appends. *)
Fixpoint list_entry (path subfix : string) (e : dirent) : list string :=
  match e with
  | DT_DIR d_name entries =>
      if decide (d_name = "." \/ d_name = "..") then []
      else (fix go (l : list dirent) : list string :=
              match l with [] => [] | e :: l => (list_entry (path ++ "/" ++ d_name) subfix e ++ go l)%list end) entries
  | DT_REG d_name => if has_subfix subfix d_name then [path ++ "/" ++ d_name] else []
  | DT_OTHER _ => []
  end.
Fixpoint list_entries (path subfix : string) (l : list dirent) : list string :=
  match l with [] => [] | e :: l => (list_entry path subfix e ++ list_entries path subfix l)%list end.
Definition ListAllFile (files : list string) (path subfix : string) (dir : option (list dirent)) : list string :=
  match dir with None => files | Some l => (files ++ list_entries path subfix l)%list end.

(** A file system: whether a path can be reached ([access], [lstat]), and [mkdir]. *)
Class FileSystem (fs : Type) := {
  access : fs -> string -> bool;
  mkdir : fs -> string -> option fs
}.

Section Files.
Context {fs : Type} `{!FileSystem fs}.

(** [__mkdir(dirname) == 0] *)
Definition mkdir_once (dirname : string) : ST fs bool := fun s =>
  if access s dirname then (Val true, s)
  else match mkdir s dirname with Some s' => (Val true, s') | None => (Val false, s) end.

(** The texts before the '/'s of [s], each behind [before]. *)
Fixpoint cuts (before s : string) : list string :=
  match s with
  | EmptyString => []
  | String c s =>
      if decide (c = Ascii.ascii_of_nat 47) then before :: cuts (before ++ String c "") s
      else cuts (before ++ String c "") s
  end.

(** The loop over the '/'s behind the first character, then the path itself. *)
Fixpoint mkdir_each (l : list string) : ST fs bool :=
  match l with
  | [] => mret true
  | p :: l => ok ← mkdir_once p; if (ok : bool) then mkdir_each l else mret false
  end.
Definition Mkdir (dirname : string) : ST fs bool :=
  exists_ ← gets (fun s => access s dirname);
  if (exists_ : bool) then mret true else
  match dirname with
  | EmptyString => crash OutOfBounds
  | String c rest => mkdir_each (cuts (String c "") rest ++ [dirname])%list
  end.
End Files.

(** [IsRunningPidfile(pidfile)]: [line] is its first line, if it can be read; [kill] says
    whether the process can be signalled. *)
Definition IsRunningPidfile (lstat : bool) (line : option string) (kill : Z -> bool) : bool :=
  if negb lstat then false else
  match line with
  | None => false
  | Some line =>
      if decide (line = "") then false else
      let pid := atoi line in
      if pid <=? 1 then false else kill pid
  end.

(** ** The configuration directory *)

Section Load.
Context {ty : Type} `{!EqDecision ty} `{!ConfigTypes ty} {W node : Type} `{!YamlNode node}.
Context (fuel : nat) (st_mtime : string -> Z) (LoadFile : string -> option node).

(** The body of the loop of [LoadFromConfDir]: [s_file2modifytime[i]] makes an entry of 0
    where there is none; nothing else is ever stored there. *)
Definition load_file (i : string) (times : gmap string Z) :
    ST (Config (ty := ty) (W := W)) (gmap string Z) :=
  let time := default 0 (times !! i) in
  let times := <[i := time]> times in
  if time =? st_mtime i then mret times else
  try_catch (root ← lift (match LoadFile i with Some root => Val root | None => Exc logic_error end);
             LoadFromYaml fuel root)
    (mret tt);;
  mret times.
Fixpoint load_files (files : list string) (times : gmap string Z) :
    ST (Config (ty := ty) (W := W)) (gmap string Z) :=
  match files with [] => mret times | i :: files => times ← load_file i times; load_files files times end.
Definition LoadFromConfDir (absolute_path : string) (dir : option (list dirent)) :
    gmap string Z -> ST (Config (ty := ty) (W := W)) (gmap string Z) :=
  load_files (ListAllFile [] absolute_path ".yml" dir).
End Load.

(** ** The daemon *)

(** One round of [real_daemon]: what [fork] returns, and in the parent what [waitpid] stores. *)
Inductive fork_result :=
  | ForkChild
  | ForkError
  | ForkParent (status : Z).

Record ProcessInfo := mkProcess { is_child : bool; runs : nat; restart_count : Z }.

(** The result in the process that returns; [main_cb] is run in the child. [None]: the loop
    waits for a child. *)
Fixpoint daemon_loop (main_cb : Z) (forks : list fork_result) (p : ProcessInfo) : option (Z * ProcessInfo) :=
  match forks with
  | [] => None
  | ForkChild :: _ => Some (main_cb, mkProcess true (S (runs p)) (restart_count p))
  | ForkError :: _ => Some (-1, p)
  | ForkParent status :: forks =>
      if status =? 0 then Some (0, p)
      else daemon_loop main_cb forks (mkProcess (is_child p) (runs p) (restart_count p + 1))
  end.
Definition real_daemon (daemon main_cb : Z) (forks : list fork_result) : option (Z * ProcessInfo) :=
  if daemon <? 0 then Some (daemon, mkProcess false 0 0) else daemon_loop main_cb forks (mkProcess false 0 0).
Definition start_daemon (is_daemon : bool) (daemon main_cb : Z) (forks : list fork_result) :
    option (Z * ProcessInfo) :=
  if is_daemon then real_daemon daemon main_cb forks else Some (main_cb, mkProcess false 1 0).

(** ** The application *)

(** [run_type] of [Application::init]. *)
Definition run_type : ST Env Z :=
  s ← has "s"; d ← has "d"; mret (if (d : bool) then 2 else if (s : bool) then 1 else 0).

(** [Application::init] up to the pid file: whether it goes on, and the configuration path. *)
Definition init_arguments (exe : option string) (argv : list string) : ST Env (option string) :=
  addHelp "s" "start with the terminal";;
  addHelp "d" "run as daemon";;
  addHelp "c" "conf path default: ./conf";;
  addHelp "p" "print help";;
  ok ← Env_init exe argv;
  if negb ok then mret None else
  p ← has "p";
  if (p : bool) then mret None else
  t ← run_type;
  if t =? 0 then mret None else
  c ← get "c" "conf"; path ← getAbsolutePath c; mret (Some path).

Section Addresses.
Context `{host : Host}.
Context (getaddrinfo : string -> option string -> Z -> Z -> Z -> option (list any_sockaddr))
  (getifaddrs : option (list ifaddrs)).

Definition SOCK_ANY : Z := 0.

(** [dynamic_pointer_cast<IPAddress>] and [setPort]; a null pointer is pushed all the same. *)
Definition with_port (port : Z) (x : Address * Z) : option Address :=
  match x.1 with
  | IPv4Address a => Some (IPv4Address (IPv4_setPort (u16 port) a))
  | IPv6Address a => Some (IPv6Address (IPv6_setPort (u16 port) a))
  | _ => None
  end.

(** The body of the loop over [i.address] of [run_fiber]: the addresses it pushes. *)
Definition resolve (a : string) : res (list (option Address)) :=
  match find_char colon a with
  | None => Val []
  | Some (host, port) =>
      addr ← LookupAny getaddrinfo a AF_UNSPEC SOCK_ANY 0;
      match addr with
      | Some addr => Val [Some addr]
      | None =>
          r ← GetInterfaceAddresses getifaddrs host AF_UNSPEC;
          match r with
          | Some result => Val []                                      (* true: "invalid address" *)
          | None => Val (with_port (atoi port) <$> [])                 (* false: [result] is empty *)
          end
      end
  end.
Fixpoint resolve_all (l : list string) : res (list (option Address)) :=
  match l with [] => Val [] | a :: l => x ← resolve a; y ← resolve_all l; Val (x ++ y)%list end.
End Addresses.

(** ** Files: lemmas *)

(** [e] is a regular file below [path] with full name [f] and last name [name]. *)
Inductive file_at : string -> dirent -> string -> string -> Prop :=
  | at_reg path name : file_at path (DT_REG name) (path ++ "/" ++ name) name
  | at_dir path d entries e f name :
      d <> "." -> d <> ".." -> e ∈ entries -> file_at (path ++ "/" ++ d) e f name ->
      file_at path (DT_DIR d entries) f name.

Lemma dirent_ind' (P : dirent -> Prop) :
  (forall d l, Forall P l -> P (DT_DIR d l)) -> (forall d, P (DT_REG d)) -> (forall d, P (DT_OTHER d)) ->
  forall e, P e.
Proof.
  intros Hd Hr Ho. fix IH 1. intros [d l|d|d]; [|apply Hr|apply Ho]. apply Hd.
  induction l as [|e l IHl]; constructor; [apply IH|exact IHl].
Qed.

Lemma list_entry_dir path subfix d l :
  list_entry path subfix (DT_DIR d l) =
  if decide (d = "." \/ d = "..") then [] else list_entries (path ++ "/" ++ d) subfix l.
Proof. simpl. case_decide; [done|]. induction l as [|e l IH]; [done|]. simpl. by rewrite IH. Qed.

Lemma elem_of_entries path subfix l f :
  f ∈ list_entries path subfix l <-> exists e, e ∈ l /\ f ∈ list_entry path subfix e.
Proof.
  induction l as [|e l IH]; cbn [list_entries].
  - split; [by intros ?%elem_of_nil|]. intros (e & H & _). by apply elem_of_nil in H.
  - rewrite elem_of_app, IH. setoid_rewrite elem_of_cons. split.
    + intros [H|(e' & H1 & H2)]; eauto.
    + intros (e' & [->|H1] & H2); eauto.
Qed.

Lemma list_entry_spec subfix e : forall path f,
  f ∈ list_entry path subfix e <-> exists name, file_at path e f name /\ has_subfix subfix name = true.
Proof.
  induction e as [d l IH|d|d] using dirent_ind'; intros path f.
  - rewrite list_entry_dir. case_decide as Hd.
    + split; [by intros ?%elem_of_nil|]. intros (name & H & _). inversion H; subst. destruct Hd; done.
    + rewrite elem_of_entries. rewrite list.Forall_forall in IH. split.
      * intros (e & He & Hf). apply (IH e He) in Hf as (name & Hf & Hs). exists name. split; [|done].
        econstructor; eauto; intros ->; apply Hd; auto.
      * intros (name & H & Hs). inversion H; subst. exists e. split; [done|]. apply (IH e); eauto.
  - simpl. destruct (has_subfix subfix d) eqn:E.
    + rewrite list_elem_of_singleton. split; [intros ->; eexists; split; [constructor|done]|].
      intros (name & H & _). by inversion H.
    + split; [by intros ?%elem_of_nil|]. intros (name & H & Hs). inversion H; subst. congruence.
  - simpl. split; [by intros ?%elem_of_nil|]. intros (name & H & _). inversion H.
Qed.

(** What [ListAllFile] appends: the regular files in the directory and below it whose
    names end with the suffix, and no others. *)
Theorem listed_files files path subfix l f :
  f ∈ ListAllFile files path subfix (Some l) <->
  f ∈ files \/ exists e name, e ∈ l /\ file_at path e f name /\ has_subfix subfix name = true.
Proof.
  unfold ListAllFile. rewrite elem_of_app, elem_of_entries. split.
  - intros [H|(e & He & Hf)]; [by left|right]. apply list_entry_spec in Hf as (name & H & Hs). eauto 6.
  - intros [H|(e & name & He & H & Hs)]; [by left|right]. exists e. split; [done|]. apply list_entry_spec. eauto.
Qed.

(** ** Directories *)

(** What [mkdir] does is documented: the directory is there then, and so is what was. *)
Class FileSystemLaws (fs : Type) `{!FileSystem fs} : Prop := {
  mkdir_makes : forall s p s', mkdir s p = Some s' -> access s' p = true;
  mkdir_keeps : forall s p s' q, mkdir s p = Some s' -> access s q = true -> access s' q = true
}.

Section FileProofs.
Context {fs : Type} `{!FileSystem fs} `{!FileSystemLaws fs}.

Lemma mkdir_once_val p (s : fs) b s' :
  mkdir_once p s = (Val b, s') ->
  (forall q, access s q = true -> access s' q = true) /\ (b = true -> access s' p = true).
Proof.
  unfold mkdir_once. destruct (access s p) eqn:Ha.
  - intros [= <- <-]. auto.
  - destruct (mkdir s p) as [s1|] eqn:Hm; intros [= <- <-]; split; try done.
    + intros q. by eapply mkdir_keeps.
    + intros _. by eapply mkdir_makes.
Qed.

Lemma mkdir_each_val l : forall (s : fs) b s',
  mkdir_each l s = (Val b, s') ->
  (forall q, access s q = true -> access s' q = true) /\ (b = true -> Forall (fun p => access s' p = true) l).
Proof.
  induction l as [|p l IH]; intros s b s' E; cbn [mkdir_each] in E.
  - injection E as <- <-. split; [done|]. constructor.
  - apply st_bind_inv in E as (ok & s1 & E1 & E). destruct (mkdir_once_val _ _ _ _ E1) as [K1 A1].
    destruct ok.
    + destruct (IH _ _ _ E) as [K2 A2]. split; [auto|]. intros Hb. constructor; auto.
    + injection E as <- <-. split; [done|discriminate].
Qed.

(** [Mkdir] of a path that is not empty returns; what was there stays; when it
    returns true the directory is there, and when it had to be made every directory on
    the way to it is there too. *)
Theorem mkdir_result dirname (s : fs) :
  dirname <> "" ->
  exists b s', Mkdir dirname s = (Val b, s') /\
    (forall q, access s q = true -> access s' q = true) /\
    (b = true -> access s' dirname = true /\
       (access s dirname = false -> forall c rest, dirname = String c rest ->
          Forall (fun p => access s' p = true) (cuts (String c "") rest))).
Proof.
  intros Hne. unfold Mkdir. rewrite gets_bind. destruct (access s dirname) eqn:Ha.
  - exists true, s. split; [done|]. split; [done|]. intros _. split; [done|discriminate].
  - destruct dirname as [|c rest]; [done|].
    assert (Hret : forall l (s : fs), exists b s', mkdir_each l s = (Val b, s')).
    { clear. induction l as [|p l IH]; intros s; cbn [mkdir_each]; [unfold mret, st_ret; eauto|].
      assert (H1 : exists b s1, mkdir_once p s = (Val b, s1)).
      { unfold mkdir_once. destruct (access s p); [eauto|]. destruct (mkdir s p); eauto. }
      destruct H1 as ([] & s1 & E); rewrite (st_bind_val _ _ _ _ _ E); [apply IH|unfold mret, st_ret; eauto]. }
    destruct (Hret (cuts (String c "") rest ++ [String c rest])%list s) as (b & s' & E).
    destruct (mkdir_each_val _ _ _ _ E) as [K A]. exists b, s'. split; [exact E|]. split; [exact K|].
    intros Hb. specialize (A Hb). apply Forall_app in A as [A1 A2]. apply list.Forall_cons in A2 as [A2 _].
    split; [exact A2|]. intros _ c' rest' [= <- <-]. exact A1.
Qed.
End FileProofs.

(** ** The other parts *)

(** The daemon starts the program again as long as it ends with a status: with [k] failures
    first, the parent has counted [k] restarts when it returns 0, and has never run the
    program itself; the child that runs it after [k] failures returns its result. *)
Theorem daemon_restarts main_cb (failures : list Z) rest :
  Forall (fun status => status <> 0) failures ->
  let k := Z.of_nat (length failures) in
  real_daemon 0 main_cb ((ForkParent <$> failures) ++ ForkParent 0 :: rest) = Some (0, mkProcess false 0 k) /\
  real_daemon 0 main_cb ((ForkParent <$> failures) ++ ForkChild :: rest) = Some (main_cb, mkProcess true 1 k) /\
  real_daemon 0 main_cb ((ForkParent <$> failures) ++ ForkError :: rest) = Some (-1, mkProcess false 0 k).
Proof.
  intros H k. unfold real_daemon. cbn [Z.ltb Z.compare].
  assert (G : forall n forks, daemon_loop main_cb ((ForkParent <$> failures) ++ forks) (mkProcess false 0 n) =
    daemon_loop main_cb forks (mkProcess false 0 (n + Z.of_nat (length failures)))).
  { induction H as [|status l Hs _ IH]; intros n forks; [simpl; by rewrite Z.add_0_r|].
    cbn [fmap list_fmap app daemon_loop]. rewrite (proj2 (Z.eqb_neq _ _)) by done. cbn [is_child runs restart_count].
    rewrite IH. do 2 f_equal. cbn [length]. lia. }
  rewrite !G. rewrite Z.add_0_l. done.
Qed.

Lemma daemon_restarts_witness :
  real_daemon 0 7 [ForkParent 11; ForkParent 0] = Some (0, mkProcess false 0 1).
Proof. apply (daemon_restarts 7 [11] []). by repeat constructor. Defined.

(** Nothing but 0 is ever remembered of a file, so a file is loaded each time its
    directory is, changed or not. *)
Theorem times_stay_zero {ty W node} `{!EqDecision ty} `{!ConfigTypes ty} `{!YamlNode node}
    fuel st_mtime (LoadFile : string -> option node) files times (s s' : Config (ty := ty) (W := W)) times' :
  (forall i t, times !! i = Some t -> t = 0) ->
  load_files fuel st_mtime LoadFile files times s = (Val times', s') ->
  forall i t, times' !! i = Some t -> t = 0.
Proof.
  revert times s. induction files as [|i files IH]; intros times s H0 E; cbn [load_files] in E.
  - by injection E as <- <-.
  - apply st_bind_inv in E as (t1 & s1 & E1 & E). refine (IH _ _ _ E). clear IH E.
    assert (Ht : t1 = <[i := default 0 (times !! i)]> times).
    { unfold load_file in E1. case_match; [by injection E1 as <- _|].
      by apply st_bind_inv in E1 as (u & s2 & _ & [= <- _]). }
    intros j t. rewrite Ht, lookup_insert_Some. intros [[<- <-]|[_ Hj]]; [|by eapply H0].
    destruct (times !! i) eqn:Hi; [by apply (H0 i)|done].
Qed.

(** Addresses of a server. The text of an address is only resolved as a host with a
    port: whatever the interfaces of the machine are, a name that is not a host
    contributes nothing, since the branch for interfaces is entered on failure only. *)
Theorem interfaces_ignored (host : Host) getaddrinfo getifaddrs l addrs :
  resolve_all getaddrinfo getifaddrs l = Val addrs ->
  exists found, addrs = Some <$> found /\
    Forall (fun addr => exists a, a ∈ l /\ LookupAny getaddrinfo a AF_UNSPEC SOCK_ANY 0 = Val (Some addr)) found.
Proof.
  revert addrs. induction l as [|a l IH]; intros addrs E; cbn [resolve_all] in E.
  - injection E as <-. by exists [].
  - destruct (resolve getaddrinfo getifaddrs a) as [x| |] eqn:E1; [|done..]. cbn [mbind res_bind] in E.
    destruct (resolve_all getaddrinfo getifaddrs l) as [y| |] eqn:E2; [|done..]. injection E as <-.
    destruct (IH y eq_refl) as (found & -> & Hf).
    assert (Hx : exists f1, x = Some <$> f1 /\
      Forall (fun addr => LookupAny getaddrinfo a AF_UNSPEC SOCK_ANY 0 = Val (Some addr)) f1).
    { unfold resolve in E1. destruct (find_char colon a) as [[h p]|]; [|injection E1 as <-; by exists []].
      destruct (LookupAny getaddrinfo a AF_UNSPEC SOCK_ANY 0) as [[addr|]| |]; [| |done..]; cbn [mbind res_bind] in E1.
      - injection E1 as <-. exists [addr]. split; [done|]. by constructor.
      - destruct (GetInterfaceAddresses getifaddrs h AF_UNSPEC) as [[r|]| |]; [| |done..]; injection E1 as <-; by exists []. }
    destruct Hx as (f1 & -> & H1). exists (f1 ++ found)%list. rewrite fmap_app. split; [done|].
    apply Forall_app. split.
    + eapply Forall_impl; [|exact H1]. intros addr Ha. exists a. split; [apply list_elem_of_here|done].
    + eapply Forall_impl; [|exact Hf]. intros addr (b & Hb & H). exists b. split; [by apply list_elem_of_further|done].
Qed.
