(* ===== verification/Application.v ===== *)
(** * The servers of the application (application.cpp: run_fiber)

    What [Application::run_fiber] does with the configured servers: it resolves their
    addresses (Startup.v), binds and starts each (TcpServer.v) and leaves the process when
    one cannot be bound. The configurations are those of LexicalCast.v. The theorem: the
    servers that run are those configured, each listening on every address that was
    resolved for it. *)
From stdpp Require Import base tactics option list strings gmap numbers.
From S2P Require Import Prelude Endian CString FdManager Address Socket TcpServer.
From S2P Require LexicalCast Startup.
Import LexicalCast (HttpServerConf, mkConf, conf_address, conf_keepalive, conf_timeout, conf_name).

Open Scope string_scope.
Open Scope Z_scope.

(** A server of [m_httpservers]; its callbacks are for the accepting scheduler. *)
Record Running := mkRunning {
  rn_socks : list nat;
  rn_callbacks : list callback;
  rn_name : string;
  rn_keepalive : bool
}.

Section Run.
Context `{kernel : Kernel} `{host : Host}.
Context (getaddrinfo : string -> option string -> Z -> Z -> Z -> option (list any_sockaddr))
  (getifaddrs : option (list ifaddrs)) (read_timeout : Z).

(** [server->bind(address, fails)] and what follows it; [None] is [_exit(0)]. *)
Definition bind_and_start (i : HttpServerConf) (address : list Address) : ST TcpServer (option Running) :=
  '(ok, _) ← TcpServer_bind [] address [];
  if negb ok then mret None else
  (if decide (conf_name i = "") then mret tt else modify (set_name (conf_name i)));;
  TcpServer_start;;
  s ← gets id;
  mret (Some (mkRunning (m_socks s) (m_acceptWorker s) (m_name s) (negb (conf_keepalive i =? 0)))).

Fixpoint no_null (l : list (option Address)) : res (list Address) :=
  match l with
  | [] => Val []
  | a :: l => a ← deref NullDeref a; l ← no_null l; Val (a :: l)
  end.

(** A server is made for [m], and works on the sockets of the process. *)
Definition with_server {A} (m : ST TcpServer A) : ST Net A := fun n =>
  let '(r, s) := m (TcpServer_new read_timeout n) in (r, net s).

(** The body of the loop: [bind] uses every address, null or not. *)
Definition start_server (i : HttpServerConf) : ST Net (option Running) :=
  address ← lift (Startup.resolve_all getaddrinfo getifaddrs (conf_address i));
  address ← lift (no_null address);
  with_server (bind_and_start i address).

(** [run_fiber()]: the servers, [None] when the process was left. *)
Fixpoint run_servers (http_confs : list HttpServerConf) (m_httpservers : list Running) :
    ST Net (option (list Running)) :=
  match http_confs with
  | [] => mret (Some m_httpservers)
  | i :: http_confs =>
      r ← start_server i;
      match r with
      | Some server => run_servers http_confs (m_httpservers ++ [server])%list
      | None => mret None
      end
  end.
Definition run_fiber (http_confs : list HttpServerConf) : ST Net (option (list Running)) :=
  run_servers http_confs [].

(** ** Lemmas *)

Lemma no_null_val l l' : no_null l = Val l' -> l = Some <$> l'.
Proof.
  revert l'. induction l as [|[a|] l IH]; intros l' E; cbn in E; [by injection E as <-| |done].
  destruct (no_null l) as [x| |]; [|done..]. injection E as <-. by rewrite (IH x eq_refl).
Qed.

(** A server runs as configured, and listens on what its addresses were resolved to. *)
Definition runs (i : HttpServerConf) (r : Running) : Prop :=
  exists address n,
    Startup.resolve_all getaddrinfo getifaddrs (conf_address i) = Val (Some <$> address) /\
    Forall2 (listens n) address (rn_socks r) /\ NoDup (rn_socks r) /\
    rn_callbacks r = StartAccept <$> rn_socks r /\
    rn_name r = (if decide (conf_name i = "") then "sylar/1.0.0" else conf_name i) /\
    rn_keepalive r = negb (conf_keepalive i =? 0).

Lemma bind_and_start_val i address n r s :
  good n -> bind_and_start i address (TcpServer_new read_timeout n) = (Val r, s) ->
  good (net s) /\
  match r with
  | Some x => Forall2 (listens (net s)) address (rn_socks x) /\ NoDup (rn_socks x) /\
      rn_callbacks x = StartAccept <$> rn_socks x /\
      rn_name x = (if decide (conf_name i = "") then "sylar/1.0.0" else conf_name i) /\
      rn_keepalive x = negb (conf_keepalive i =? 0)
  | None => socks (net s) = socks n
  end.
Proof.
  intros Hg E. unfold bind_and_start in E.
  apply st_bind_inv in E as ([ok fails] & s1 & E1 & E).
  pose proof E1 as (Hg1 & Ht & Hf)%TcpServer_bind_val; [|done..].
  apply TcpServer_bind_rest in E1 as [= Hname Hacc Hstop]. destruct ok; cbn [negb] in E.
  2:{ injection E as <- <-. split; [done|]. by apply Hf. }
  destruct (Ht eq_refl) as (_ & Hnd & Hl). revert E. unfold TcpServer_start.
  case_decide; st_unfold; cbn; rewrite Hstop; cbn; rewrite Hacc; intros [= <- <-]; by split_and!.
Qed.

Lemma run_servers_val confs : forall acc n r n',
  good n -> run_servers confs acc n = (Val r, n') ->
  good n' /\ match r with
             | Some l => exists l', l = (acc ++ l')%list /\ Forall2 runs confs l'
             | None => True
             end.
Proof.
  induction confs as [|i confs IH]; intros acc n r n' Hg E; cbn [run_servers] in E.
  - injection E as <- <-. split; [done|]. exists []. by rewrite app_nil_r.
  - apply st_bind_inv in E as (x & n1 & E1 & E). unfold start_server in E1.
    apply st_bind_inv in E1 as (found & n2 & [= Hfound <-] & E1).
    apply st_bind_inv in E1 as (address & n3 & [= ->%no_null_val <-] & E1).
    unfold with_server in E1.
    destruct (bind_and_start i address _) as [y s] eqn:Eb. injection E1 as -> <-.
    apply bind_and_start_val in Eb as [Hg1 Hx]; [|done].
    destruct x as [x|]; [|by injection E as <- <-].
    destruct (IH _ _ _ _ Hg1 E) as [Hg2 Hr]. split; [done|]. destruct r as [l|]; [|done].
    destruct Hr as (l' & -> & Hl'). exists (x :: l'). rewrite <- app_assoc. split; [done|].
    constructor; [|done]. exists address, (net s). by destruct Hx as (? & ? & ? & ? & ?).
Qed.

(** ** Properties *)

(** The servers of the application. If the process is not left, there is one server for
    each configuration, in their order: it listens on every address that was resolved for
    it, each on a socket of its own for which an accepting fiber is scheduled, and has the
    configured name and kind of connection. The names of interfaces resolve to
    nothing, so a server that is configured with these alone listens on nothing. *)
Theorem run_fiber_serves http_confs n r n' :
  good n -> run_fiber http_confs n = (Val r, n') ->
  good n' /\ match r with Some l => Forall2 runs http_confs l | None => True end.
Proof.
  intros Hg E. destruct (run_servers_val _ _ _ _ _ Hg E) as [Hg' Hr]. split; [done|].
  destruct r as [l|]; [|done]. by destruct Hr as (l' & -> & Hl').
Qed.

Lemma unresolved_server i n :
  Startup.resolve_all getaddrinfo getifaddrs (conf_address i) = Val [] ->
  exists r, run_fiber [i] n = (Val (Some [r]), n) /\ rn_socks r = [] /\ rn_callbacks r = [].
Proof.
  intros E. unfold run_fiber. cbn [run_servers]. unfold start_server.
  unfold mbind, st_bind, lift. rewrite E. cbn [no_null]. unfold with_server, bind_and_start.
  case_decide; by eexists.
Qed.
End Run.
